(* ===== verification/_CoqProject ===== *)
-Q . S2P
Prelude.v
Topic.v
State.v
Packet.v
PacketProofs.v
Writer.v
Database.v
DatabaseProofs.v
StoreProofs.v
DeliveryProofs.v
Subs.v
SubsProofs.v
SubscribeProofs.v
UnsubscribeProofs.v
SubsClaims.v
PublishProofs.v
FanoutProofs.v
Queue.v
Contexts.v
ContextProofs.v
Handlers.v
HandlerProofs.v
SubscribeHandlerProofs.v
Frames.v
HandleSafety.v
Soundness.v
MessageClaims.v
Net.v
NetProofs.v
Connect.v
ConnectProofs.v
ConnectSafe.v
PacketSafe.v
PacketRead.v
ReadSafe.v
CoreUtil.v
Authorization.v
Fabric.v
TopicCache.v
Registry.v
FabricProofs.v
TopicCacheProofs.v
RegistryProofs.v
TopicSync.v
RegistryClaims.v
Metrics.v
Services.v
ServiceProofs.v
ServiceTurns.v
ServiceClaims.v
RegistryExamples.v
Configuration.v
DxlMessages.v
DxlMessageProofs.v
MessageCore.v
MessageService.v
CoreInterface.v
MessageHandlers.v
PassageProofs.v
InsertProofs.v
RequestProofs.v
MessageExamples.v
ConfigurationProofs.v
ConfigurationExamples.v
ConfFile.v
CoreGlue.v
CoreGlueProofs.v
CoreGlueExamples.v
Bridge.v
Loop.v
EventSafe.v
BridgeProofs.v
WorkQueue.v
WorkQueueProofs.v
MaintenanceSafe.v
Running.v
RunningExamples.v
Examples.v
WorkQueueExamples.v
Witnesses.v
