(* ===== verification/Prelude.v ===== *)
(** * A verification of the OpenDXL broker's messaging core

    The OpenDXL broker is an MQTT 3.1/3.1.1 broker: a fork of mosquitto in C
    ([src/src/mqtt-core]) built with [DXL], [PACKET_COUNT], TLS and
    websockets, on top of which a C++ library ([src/src/brokerlib]) adds the
    DXL fabric. The C core calls the library through the functions of [dxl.h].
    This development models the C core and, of the library, the registries of
    brokers and of services, topic authorization, the limits of tenants, the DXL
    messages and their way through the library, and proves what they promise.

    ** The parts and how they interact

    An epoll loop ([loop.c]) reads bytes from a connection, the packet reader
    ([lib/net_mosq.c]) assembles an MQTT packet in the client's [in_packet],
    and the dispatcher ([read_handle.c]) calls the handler of its type. A
    PUBLISH is stored in the message store ([database.c]) and searched in the
    subscription tree ([subs.c]); every matching subscription gets an entry in
    its client's queue, which refers to the stored message by counting. The
    write loop ([loop.c], [database.c]) turns queue entries into packets of
    the client's output queue ([lib/send_mosq.c]), which the packet writer
    ([lib/net_mosq.c]) hands to the transport. Clients come and go through
    CONNECT ([read_handle_server.c]), disconnection and clean-up
    ([context.c]); bridges are contexts on which the broker is itself the
    client of a parent broker ([bridge.c]).

    In the library the broker registry ([brokerlib/brokerregistry]) knows the
    other brokers of the fabric, their connections and the topics subscribed to
    on them, from the events they send ([brokerlib/message/handler]). It finds
    the next broker on a route, decides whether a bridge may come up and
    whether an event has a subscriber behind a bridge ([brokerlib/core]).

    The service registry ([brokerlib/serviceregistry]) knows the services that
    clients offer on request topics, here and on other brokers, and picks the
    one that gets a request: it asks the broker registry for a route, the topic
    authorization ([brokerlib/topicauthorization]) whether the client of the
    service may receive the request, and counts the services of a tenant
    ([brokerlib/metrics]). Which brokers there are, how they form hubs, whom each
    connects to and the zones of services come from the configuration of the
    fabric ([brokerlib/brokerconfiguration], [CoreBridgeConfigurationFactory.cpp]).

    The payload of a publication may be a DXL message ([brokerlib/message]):
    a request, response, error or event with a source and destinations. The C
    core asks the library about every publication
    ([CoreMessageHandlerService.cpp]): whether the client may publish, what to
    make of the message when it is stored (here the source is written into it,
    requests get a service, registrations and fabric events take effect),
    whether each subscriber and bridge gets it, and last that it is finished. It
    also tells the library of bridges, clients and topics that come and go, which
    the library passes on to the other brokers as events ([CoreInterface.cpp]); and
    the library gives the core tasks for its work queue ([src/dxl/]): messages to
    publish, a new configuration of the bridges, revoked certificates.

    ** The model

    State: [State.v]. [world] is [struct mosquitto_db] with the heap objects
    it points to (contexts and stored messages are finite maps from addresses)
    and the static variables of the files; every struct is a record with the
    source's fields. A function that reads and writes this state is a
    [ST world A], that is [world → option (A * world)]: [None] is undefined
    behaviour (a dangling or NULL pointer, a failed [assert]) or a loop that
    ran out of fuel. The weakest precondition [wp m Q w] demands [Some], so
    each theorem with [wp] is a theorem of memory safety and termination too.
    Functions on a single packet are [ST packet A].

    The broker registry is modelled by itself: its state is [BrokerRegistry]
    ([Registry.v]), its operations are [ST BrokerRegistry A]. Sets and maps are
    [gset] and [gmap]; the order in which an [unordered_set] is iterated is the
    parameter [HashOrder] ([Fabric.v]), and the theorems hold for every order.
    What looks at the clock will show is the field [rg_clock].

    The service registry ([Services.v]) holds its registrations in a heap
    ([sv_heap]), because the three indices share them and a renewal changes one
    in place. Its state contains the state of the broker registry, the topic
    authorization state and the tenants' counts, which are modelled by
    themselves ([Registry.v], [Authorization.v], [Metrics.v]); the events it
    sends are recorded in [sv_sent]. The order of a [std::set] of pointers is
    the parameter [PtrOrder]. To the C core the
    library's functions remain operations of the environment, which may answer
    anything.

    The message handler service works on a [Library] ([MessageCore.v]): the
    service registry with all it contains, the contexts of the messages that
    the core is working on and what was handed to the core for sending
    ([lib_outbox]: the core is not called back). Code that may throw is [EX A],
    that is [ST Library (thrown + A)]; an exception keeps the changes made
    before it. A message is a [DxlMessage] around a [dxl_message_t]
    ([DxlMessages.v]); a payload pointer that was freed and not reset is a value
    of its own, and using it is undefined behaviour. The MessagePack library is
    the parameter [MsgPack], with the laws [MsgPackLaws] where a theorem needs
    them ([MessageExamples] gives an instance with a proof of the laws); what
    JSON payloads hold is the parameter [Json], of which nothing is assumed.
    The handlers that are not modelled are an argument of the table of handlers
    ([other_store_handlers]).

    Environment: the class [Env] of [State.v] holds what the sources call and
    the repository's C core does not define: system calls, OpenSSL,
    libwebsockets, libuuid and the functions of [dxl.h]. Its operations may
    answer anything, and the theorems hold for every answer, except where
    [EnvLaws] ([Writer.v]) says that a transport that reports [n] bytes
    written took the first [n] bytes of what it was given, [ReadLaws]
    ([ReadSafe.v]) that one that reports [n] bytes read delivered [n] bytes, and
    [NetLaws] ([NetProofs.v]) what OpenSSL promises of the digests of certificates,
    of handshakes that were refused and of ASN.1 objects.
    [Examples.v] and [RunningExamples.v] give environments that satisfy these laws.

    The settings of the core ([ConfFile.v]) are read before there is a [world]: their
    state is [conf_state], the line buffer a list of bytes in it, and the files and
    the resolver are the class [ConfEnv].

    Allocation is taken to succeed, and addresses are chosen fresh. Integers
    are [Z]; [u8], [u16], [u32], [u64] are written where C converts. Log
    messages are left out. A uthash table is a list in insertion order (the
    order of [HASH_ITER]), or a finite map where it is never iterated.

    ** The files

    - [Prelude]: integers, record update, the state monad and its rules.
    - [Topic]: [lib/util_mosq.c], the tokeniser of [subs.c]: topic checks, the
      string matcher, the matching relation [topic_match] of MQTT.
    - [State]: structs, [Env], [world].
    - [Packet]: [lib/net_mosq.c], [lib/send_mosq.c], [lib/send_client_mosq.c],
      [src/send_server.c]: field readers and writers, the output queue, the
      packet writer, all senders. [PacketProofs]: reads stay in the packet,
      encoding and decoding. [Writer]: the byte stream of a client.
    - [Database], [Queue]: [database.c]. [DatabaseProofs], [StoreProofs]: the
      invariant [db_ok] and each operation. [DeliveryProofs]: serving a queue.
      [MessageClaims]: theorems on single operations.
    - [Subs]: [subs.c], [search_optimization.c]. [SubsProofs],
      [SubscribeProofs], [UnsubscribeProofs]: search, add, remove and clean on
      the tree as a map from filters to subscribers.
      [SubsClaims]: what they mean for subscribers. [PublishProofs],
      [FanoutProofs]: publishing as a whole.
    - [Contexts]: [context.c], [lib/will_mosq.c], the sets of [loop.c].
      [ContextProofs]: the invariant [broker_ok], disconnection, clean-up.
    - [Handlers]: [read_handle.c], [read_handle_client.c],
      [read_handle_server.c], [lib/read_handle_shared.c]. [HandlerProofs],
      [SubscribeHandlerProofs]: PUBLISH, SUBSCRIBE, UNSUBSCRIBE.
    - [Frames]: what an operation leaves alone. [HandleSafety]: the handlers
      that neither open nor close a connection are safe on any packet.
      [Soundness]: the invariant [sound] of the whole state, disconnection
      and clean-up under it.
    - [Net]: [mqtt3_socket_accept] of [net.c], the verification of a client
      certificate. [NetProofs]: a connection leaves no trace or one context.
    - [Connect]: [mqtt3_handle_connect] in its stages, the dispatcher
      [mqtt3_packet_handle]. [ConnectProofs]: admission. [ConnectSafe]: every
      stage is safe, a takeover of another client's identifier too.
      [PacketSafe]: the dispatcher on any packet.
    - [PacketRead]: [_mosquitto_packet_read]; it inverts the framing.
      [ReadSafe]: it is safe whatever a socket delivers.
    - [Bridge]: [bridge.c], the keepalive check. [Loop]: the bodies of
      [loop.c]. [BridgeProofs]: the addresses of a bridge. [EventSafe]: an
      event of a socket. [MaintenanceSafe]: the maintenance pass.
    - [Running]: the turns of the event loop in any order.
      [RunningExamples]: a broker that is set up, lets a client in and serves it.
    - [CoreUtil]: [core/src/CoreUtil.cpp], the wildcards above a topic. [Fabric]:
      [broker.cpp], [brokerstate.cpp], the searches of [brokerregistry.cpp].
      [TopicCache]: [topiccache/]. [Registry]: the operations of
      [brokerregistry.cpp], [cache.cpp], the handlers of the fabric events.
      [FabricProofs]: searches against the graph of connections.
      [TopicCacheProofs]: the cache agrees with the registry. [RegistryProofs]:
      the invariant [registry_ok] and each operation. [TopicSync]: topics sent
      in batches arrive. [RegistryClaims]: sequences of operations, routes,
      subscribers, expiry. [RegistryExamples]: a fabric of three brokers,
      three services of a tenant.
    - [Authorization]: [topicauthorization/], the decisions against the policy
      as it reads. [Metrics]: [TenantMetricsService.cpp], the byte limit.
    - [Services]: [serviceregistry/]. [ServiceProofs]: the invariant
      [services_ok], registering and unregistering. [ServiceTurns]: who may
      serve, round robin, zones. [ServiceClaims]: sequences of operations,
      requests, expiry.
    - [Configuration]: [brokerconfiguration/], [CoreBridgeConfiguration.cpp],
      [CoreBridgeConfigurationFactory.cpp]. [ConfigurationProofs]: zones, changes,
      bridges. [ConfigurationExamples]: two hubs.
    - [ConfFile]: [conf.c] but for adding a bridge, and what [main]
      ([mosquitto.c]) sets: the defaults, the command line, the configuration
      file in its line buffer of 1024 bytes, TLS. Safety, ranges, the settings
      that a file states are the settings that it leads to.
    - [DxlMessages]: [message/src/]: the structure, packing and unpacking, the
      message classes, the messages that the broker creates. [DxlMessageProofs]:
      the round trip, messages of the broker are well formed. [MessageCore]:
      [CoreMessageContext.cpp], sending, [AuthorizationHandler.cpp],
      [ServiceLookupHandler.cpp]. [MessageService]: [MessageRoutingHandler.cpp],
      messages without a destination, the handlers for services and limits.
      [CoreInterface]: [CoreInterface.cpp], what is sent of the fabric.
      [MessageHandlers]: fabric events as messages, [DxlMessageHandlers.cpp],
      [CoreMessageHandlerService.cpp]. [PassageProofs]: rules for exceptions and
      contexts, the source of a message. [InsertProofs]: who gets a message,
      tenants. [RequestProofs]: where a request goes, answers, events of brokers.
      [MessageExamples]: a wire format, a request of a client.
    - [CoreGlue]: [src/dxl/MqttCoreInterface.cpp], [src/dxl/dxl.cpp], what the
      library is told of the contexts of the core. [CoreGlueProofs]: the ends of a
      bridge. [CoreGlueExamples]: two parents.
    - [WorkQueue]: the tasks of [src/dxl/], bridges of [conf.c].
      [WorkQueueProofs]: bridges replaced, certificates revoked.
      [WorkQueueExamples]: a client and a bridge.
    - [Examples]: an environment and states to evaluate. [Witnesses]: every
      theorem with hypotheses, applied to one of these states.

    ** The theorems

    The invariant of the broker is [broker_ok]: the counters of every queue
    count its entries, the reference count of every stored message is the
    number of queue entries that refer to it, no queue entry dangles, the
    store list has no duplicates ([db_ok]); the tree is well formed and its
    leaves belong to live contexts with a client id ([tree_ok]), with a QoS
    between 0 and 2 ([granted_ok]). The theorems say that the operations keep
    it for every input and every answer of the environment (safety), what
    they do (functional theorems on the map from filters to subscribers, on
    queues and on byte streams), that the optimised search and the hash tables
    implement the matching relation of MQTT, that encoding and decoding are
    inverse, and how far limits hold. The invariant of the broker registry is
    [registry_ok]: every route in the routing cache is the first hop of a
    loop-free route of the fabric as it is now, and the topic cache holds for
    every bridge, at every stage of its construction, what the brokers behind
    it subscribe to. It holds after any sequence of operations, except that a
    single topic may come or go only while no broker is behind two bridges of
    another one ([one_way]: a cache passes the topic to the first bridge that
    has the broker and leaves the others) and the 32-bit wildcard counters
    have room. Answers from the caches are then answers of a search.

    The invariant of the service registry is [services_ok]: the indices by type
    and by topic hold exactly the services of the index by identifier, the
    cached zones of a topic split its services, the counter counts the local
    ones. It holds after any sequence of operations, while the broker registry,
    the policy and the counts change around it. A request then gets a service
    that may serve it if there is one, the services of a zone take turns, and
    registering followed by withdrawing restores the indices. What may serve is
    judged at the moments the code looks at the clock ([served], [refused]).

    For messages the theorems say what the library promises to the clients: a
    client cannot pass for another source, tenant or broker; a message is
    delivered exactly to those it is for and who may receive it, so that tenants
    are separated; a request is routed to a service that may serve it or
    answered with an error, at once or when it turns out that nobody got it; the
    events of the brokers cannot be published by a client (but for two topics in test
    mode); and what the broker sends names it as the source and can be read back by
    the receiver.

    A configuration always gets its zones, is replaced exactly if it changed, and
    leads to bridges without circles in which the members of a hub stand for each
    other. The task that puts it into effect leaves the configured bridge and the
    clients as they were, with their queues and subscriptions, the one for revoked certificates disconnects those that
    use one, and the two ends of a bridge agree on who they are.

    The state of the core between two operations of the event loop is [sound]
    ([Soundness.v]): [broker_ok], and with it the table of contexts and the index of
    clients agree, and every context by itself is in order, so that it can take
    in and send on. [Running.broker_keeps_running] says that a broker that starts
    from [mqtt3_db_open] is sound after any sequence of turns (a connection
    accepted, an event of a socket, a client registered or written to, the
    maintenance pass, a task of the work queue), whatever clients send and however
    the environment answers, and that no turn is undefined. The turns have guards:
    the output queues have room for one more packet (their counters have 64 bits);
    before a client is written to, its queue holds messages that fit a
    packet ([writable]); the sets of clients to register and to write to hold
    contexts; tasks make no bridges, so that all contexts are clients
    ([clients_only], [task_guard]); websockets are off. The packet, connection,
    reading and maintenance theorems are what it is made of.

    The configuration that the core starts with is in its ranges, whatever the
    command line and the files hold as long as the files are text in lines that fit the
    buffer, and with TLS every listener requires certificates ([ConfFile.v]).

    Five theorems state behaviour that is presumably not intended:
    [Topic.topic_matches_sub_hash_incomplete],
    [SubsClaims.dollar_topic_misreported], [HandlerProofs.publish_qos12_dropped],
    for the count of a tenant's services, [ServiceClaims.register_unregister], and,
    for the certificate chain in a message, [PassageProofs.client_certs_survive].

    ** Fuel

    Recursion that is not structural takes fuel: the queue loops of
    [database.c] take twice the length of the queue (an entry is visited at
    most twice), the SUBSCRIBE and UNSUBSCRIBE loops the number of unread
    bytes (each pass consumes at least one), the packet writer the number of
    bytes and packets queued, the reader of the remaining length five bytes.
    The computation of
    service zones takes one more than the number of hubs and brokers (each call
    marks a new one). The theorems about these functions are total-correctness theorems and so
    prove that the fuel is enough. A search of the fabric takes one more than
    the number of brokers (each call visits a new broker, and an unknown one has
    no connections), the wildcard loop the length of the topic and two. A zone is
    asked as often as it has services. The reader of the configuration file takes one
    more than the bytes of the file (each line has one), stripping newlines the size
    of the buffer. The loops over the event loop's hash
    tables ([Loop.hash_iter]) take their fuel as an argument.

    ** Not modelled

    Of [net.c] and [lib/tls_mosq.c] opening the listeners and loading certificates into
    OpenSSL; the verification callback runs inside the accepting handshake only,
    and reading from OpenSSL does not change the context. [ws.c] (libwebsockets
    callbacks), [service.c], [logging.c], the rest of [mosquitto.c],
    freeing the configuration at exit, [lib/memory_mosq.c], [lib/time_mosq.c]:
    input and output, start-up and system interfaces. [uthash.h] is a
    third-party header. The endless loop of [mosquitto_main_loop] and its epoll
    set-up; the order in which a turn writes to the clients of its hash, which the
    turns of [Running.v] leave open. The tasks that restart listeners and probe a
    connection. Of the C++ library: copying
    and freeing of message structures, reading and writing JSON payloads, the
    handlers of queries, health, client registry, revocation lists and test mode,
    the policy file, certificates and reading the configuration file. *)

From stdpp Require Export base gmap strings list fin_maps.
From Stdlib Require Export ZArith Lia Ascii.

#[global] Open Scope Z_scope.

(** ** Machine integers

    A C integer of width [w] is a [Z]; the unsigned conversions of the source
    are the wrap-around functions below. *)

Definition u8 (x : Z) : Z := x mod 2 ^ 8.
Definition u16 (x : Z) : Z := x mod 2 ^ 16.
Definition u32 (x : Z) : Z := x mod 2 ^ 32.
Definition u64 (x : Z) : Z := x mod 2 ^ 64.

Lemma u8_bound x : 0 <= u8 x < 256.
Proof. unfold u8. pose proof (Z.mod_pos_bound x (2 ^ 8)). lia. Qed.
Lemma u16_bound x : 0 <= u16 x < 65536.
Proof. unfold u16. pose proof (Z.mod_pos_bound x (2 ^ 16)). lia. Qed.
Lemma u32_bound x : 0 <= u32 x < 4294967296.
Proof. unfold u32. pose proof (Z.mod_pos_bound x (2 ^ 32)). lia. Qed.

Lemma u8_id x : 0 <= x < 256 → u8 x = x.
Proof. intros. unfold u8. apply Z.mod_small. lia. Qed.
Lemma u16_id x : 0 <= x < 65536 → u16 x = x.
Proof. intros. unfold u16. apply Z.mod_small. lia. Qed.
Lemma u32_id x : 0 <= x < 4294967296 → u32 x = x.
Proof. intros. unfold u32. apply Z.mod_small. lia. Qed.
Lemma u64_id x : 0 <= x < 2 ^ 64 → u64 x = x.
Proof. intros. unfold u64. apply Z.mod_small. lia. Qed.

Create HintDb cint.
#[export] Hint Resolve u8_bound u16_bound u32_bound : cint.
#[export] Hint Rewrite u8_id u16_id u32_id u64_id using lia : cint.

(** ** Record update

    [r <| f := v |>] is [r] with its field [f] set to [v]; the record type
    supplies its own eta-expansion and the update function of a projection is
    computed from it. *)

Class Eta (R : Type) := eta_rec : R → R.
Class Upd {R A : Type} (p : R → A) := upd : (A → A) → R → R.
Arguments upd {_ _} _ {_} _ _ /.

Ltac build_upd p :=
  match type of p with
  | ?R → ?A =>
    let e := constr:(_ : Eta R) in
    let e := eval hnf in e in
    let e := eval pattern p in e in
    lazymatch e with
    | ?F _ => exact (λ (f : A → A) (r : R), F (λ r0 : R, f (p r0)) r)
    end
  end.
#[export] Hint Extern 1 (Upd ?p) => build_upd p : typeclass_instances.

Declare Scope field_scope.
Notation "r <| p := v |>" := (upd p (λ _, v) r)
  (at level 12, left associativity, p at level 60, v at level 90, format "r  <| p  :=  v |>")
  : field_scope.
Notation "r <| p ::= f |>" := (upd p f r)
  (at level 12, left associativity, p at level 60, f at level 90, format "r  <| p  ::=  f |>")
  : field_scope.
#[global] Open Scope field_scope.

(** ** Stateful code that may have undefined behaviour

    A C function that reads and writes the broker state is a function
    [S → option (A * S)].  [None] stands for undefined behaviour (a dangling
    or NULL pointer dereferenced, a failed [assert]) and for a loop that did
    not finish within the fuel its caller supplied; a theorem that a function
    returns [Some] is therefore a memory-safety and termination theorem. *)

Definition ST (S A : Type) : Type := S → option (A * S).

#[export] Instance st_ret {S} : MRet (ST S) := λ A a s, Some (a, s).
#[export] Instance st_bind {S} : MBind (ST S) := λ A B k m s,
  match m s with Some (a, s') => k a s' | None => None end.

Definition gets {S A} (f : S → A) : ST S A := λ s, Some (f s, s).
Definition modify {S} (f : S → S) : ST S () := λ s, Some (tt, f s).
Definition ub {S A} : ST S A := λ _, None.
Definition assert_ {S} (b : bool) : ST S () := if b then mret tt else ub.
Definition deref {S A} (f : S → option A) : ST S A := λ s,
  match f s with Some a => Some (a, s) | None => None end.

(** *** Total-correctness weakest preconditions *)

Definition wp {S A} (m : ST S A) (Q : A → S → Prop) (s : S) : Prop :=
  match m s with Some (a, s') => Q a s' | None => False end.

Section wp_rules.
Context {S : Type}.

Lemma wp_ret {A} (a : A) (Q : A → S → Prop) s : Q a s → wp (mret a) Q s.
Proof. done. Qed.

Lemma wp_bind {A B} (m : ST S A) (k : A → ST S B) (Q : B → S → Prop) s :
  wp m (λ a, wp (k a) Q) s → wp (m ≫= k) Q s.
Proof. unfold wp, mbind, st_bind. by destruct (m s) as [[a s']|]. Qed.

Lemma wp_mono {A} (m : ST S A) (P Q : A → S → Prop) s :
  wp m P s → (∀ a s', P a s' → Q a s') → wp m Q s.
Proof. unfold wp. destruct (m s) as [[a s']|]; eauto. Qed.

Lemma wp_and {A} (m : ST S A) (P Q : A → S → Prop) s :
  wp m P s → wp m Q s → wp m (λ a s', P a s' ∧ Q a s') s.
Proof. unfold wp. destruct (m s) as [[a s']|]; eauto. Qed.

Lemma wp_gets {A} (f : S → A) (Q : A → S → Prop) s : Q (f s) s → wp (gets f) Q s.
Proof. done. Qed.

Lemma wp_modify (f : S → S) (Q : () → S → Prop) s : Q tt (f s) → wp (modify f) Q s.
Proof. done. Qed.

Lemma wp_deref {A} (f : S → option A) (Q : A → S → Prop) s a :
  f s = Some a → Q a s → wp (deref f) Q s.
Proof. unfold wp, deref. by intros ->. Qed.

Lemma wp_assert (b : bool) (Q : () → S → Prop) s : b = true → Q tt s → wp (assert_ b) Q s.
Proof. by intros ->. Qed.

Lemma wp_Some {A} (m : ST S A) (Q : A → S → Prop) s :
  wp m Q s ↔ ∃ a s', m s = Some (a, s') ∧ Q a s'.
Proof.
  unfold wp. split.
  - destruct (m s) as [[a s']|]; [eauto | done].
  - by intros (a & s' & -> & HQ).
Qed.

Lemma wp_run {A} (m : ST S A) (Q : A → S → Prop) s a s' :
  m s = Some (a, s') → Q a s' → wp m Q s.
Proof. unfold wp. by intros ->. Qed.

Lemma wp_inv {A} (m : ST S A) (Q : A → S → Prop) s a s' :
  wp m Q s → m s = Some (a, s') → Q a s'.
Proof. unfold wp. intros H E. by rewrite E in H. Qed.
End wp_rules.

(** Steps through the monadic plumbing of a [wp] goal; stops at a call. *)
Ltac wp_step :=
  lazymatch goal with
  | |- wp (mbind _ _) _ _ => apply wp_bind
  | |- wp (mret _) _ _ => apply wp_ret
  | |- wp (gets _) _ _ => apply wp_gets
  | |- wp (modify _) _ _ => apply wp_modify
  | |- wp (assert_ _) _ _ => apply wp_assert
  end; cbv beta.
Ltac wp_steps := repeat wp_step.

(** ** Strings *)

Lemma str_app_cons c (s t : string) : String c s +:+ t = String c (s +:+ t).
Proof. done. Qed.
Lemma str_app_nil_l (s : string) : "" +:+ s = s.
Proof. done. Qed.
Lemma str_app_nil_r (s : string) : s +:+ "" = s.
Proof. induction s as [|c s IH]; [done|]. by rewrite str_app_cons, IH. Qed.
Lemma str_app_assoc (s t u : string) : (s +:+ t) +:+ u = s +:+ (t +:+ u).
Proof. induction s as [|c s IH]; [done|]. by rewrite !str_app_cons, IH. Qed.

(** ** Lists *)

Lemma filter_Forall {A} (P : A → Prop) `{!∀ x, Decision (P x)} (l : list A) : Forall P l → filter P l = l.
Proof. induction 1 as [|x l Hx _ IH]; [done|]. by rewrite filter_cons, decide_True, IH. Qed.
Lemma alter_middle {A} (f : A → A) (l1 : list A) x l2 : alter f (length l1) (l1 ++ x :: l2) = l1 ++ f x :: l2.
Proof. induction l1 as [|y l1 IH]; [done|]. cbn. by rewrite IH. Qed.
