(* ===== verification/Topic.v ===== *)
(** * Topics and topic filters

    Models the topic functions of [lib/util_mosq.c]
    ([_mosquitto_topic_wildcard_len_check], [_mosquitto_topic_wildcard_pos_check],
    [mosquitto_topic_matches_sub]) and the tokeniser of [src/subs.c]
    ([_sub_topic_tokenise]), against a reference semantics of MQTT filters on
    lists of levels. A C string is a [string] (it holds no NUL). *)

From S2P Require Import Prelude.
From stdpp Require Import options.


Definition MOSQ_ERR_SUCCESS : Z := 0.
Definition MOSQ_ERR_NOMEM : Z := 1.
Definition MOSQ_ERR_PROTOCOL : Z := 2.
Definition MOSQ_ERR_INVAL : Z := 3.
Definition MOSQ_ERR_NO_CONN : Z := 4.
Definition MOSQ_ERR_CONN_LOST : Z := 7.
Definition MOSQ_ERR_PAYLOAD_SIZE : Z := 9.
Definition MOSQ_ERR_ERRNO : Z := 14.

Definition slash : ascii := "/"%char.
Definition plus : ascii := "+"%char.
Definition hash : ascii := "#"%char.
Definition dollar : ascii := "$"%char.

(** [strlen] as an [int]. *)
Definition strlen (s : string) : Z := Z.of_nat (String.length s).

(** ** [lib/util_mosq.c] *)

(** The scanning loop of [_mosquitto_topic_wildcard_len_check]; [len] counts
    the characters seen. *)
Fixpoint wildcard_len_loop (str : string) (len : Z) : Z :=
  match str with
  | EmptyString => if 65535 <? len then MOSQ_ERR_INVAL else MOSQ_ERR_SUCCESS
  | String c str' =>
    if Ascii.eqb c plus || Ascii.eqb c hash then MOSQ_ERR_INVAL
    else wildcard_len_loop str' (len + 1)
  end.

Definition _mosquitto_topic_wildcard_len_check (str : string) : Z := wildcard_len_loop str 0.

(** [str[0]] of a suffix: [None] is the terminating NUL. *)
Definition char0 (str : string) : option ascii :=
  match str with EmptyString => None | String c _ => Some c end.

(** [x == '\0' || x == '/'] on a character that may be the NUL. *)
Definition nul_or_slash (x : option ascii) : bool :=
  match x with None => true | Some c => Ascii.eqb c slash end.

(** The loop of [_mosquitto_topic_wildcard_pos_check]; [c] is the previous
    character ([None] for the initial NUL). *)
Fixpoint wildcard_pos_loop (c : option ascii) (str : string) (len : Z) : Z :=
  match str with
  | EmptyString => if 65535 <? len then MOSQ_ERR_INVAL else MOSQ_ERR_SUCCESS
  | String a str' =>
    if Ascii.eqb a plus && (negb (nul_or_slash c) || negb (nul_or_slash (char0 str'))) then MOSQ_ERR_INVAL
    else if negb (Ascii.eqb a plus) && Ascii.eqb a hash
            && (negb (nul_or_slash c) || bool_decide (char0 str' ≠ None)) then MOSQ_ERR_INVAL
    else wildcard_pos_loop (Some a) str' (len + 1)
  end.

Definition _mosquitto_topic_wildcard_pos_check (str : string) : Z := wildcard_pos_loop None str 0.

(** [while(tpos < tlen && topic[tpos] != '/') tpos++]. *)
Fixpoint skip_level (topic : string) : string :=
  match topic with
  | EmptyString => EmptyString
  | String c topic' => if Ascii.eqb c slash then topic else skip_level topic'
  end.

Definition is_empty (s : string) : bool := match s with EmptyString => true | _ => false end.

(** The main loop of [mosquitto_topic_matches_sub] on the unread suffixes
    [&sub[spos]] and [&topic[tpos]]. The result is the value written to
    [*result]; [None] when the function returns without writing it. *)
Fixpoint matches_sub_loop (sub topic : string) : option bool :=
  match sub, topic with
  | String c sub', String d topic' =>
    if Ascii.eqb c d then
      if is_empty topic' && String.eqb sub' "/#" then Some true
      else if is_empty sub' && is_empty topic' then Some true
      else if is_empty topic' && String.eqb sub' "+" then Some true
      else matches_sub_loop sub' topic'
    else if Ascii.eqb c plus then
      let topic'' := skip_level topic in
      if is_empty topic'' && is_empty sub' then Some true
      else matches_sub_loop sub' topic''
    else if Ascii.eqb c hash then Some (is_empty sub')
    else Some false
  | _, _ => if negb (is_empty topic) || negb (is_empty sub) then Some false else None
  end.

(** [mosquitto_topic_matches_sub]: the value left in [*result], given the
    value [result] it holds on entry (the function always returns
    [MOSQ_ERR_SUCCESS] on non-NULL arguments). *)
Definition mosquitto_topic_matches_sub (sub topic : string) (result : bool) : bool :=
  if negb (is_empty sub) && negb (is_empty topic)
     && ((bool_decide (char0 sub = Some dollar) && bool_decide (char0 topic ≠ Some dollar))
         || (bool_decide (char0 topic = Some dollar) && bool_decide (char0 sub ≠ Some dollar)))
  then false
  else match matches_sub_loop sub topic with Some r => r | None => result end.

(** ** [src/subs.c]: [_sub_topic_tokenise] *)

(** The [for] loop over [subtopic]; [cur] is [subtopic[start .. i)]. *)
Fixpoint tokenise_loop (subtopic : string) (cur : string) : list string :=
  match subtopic with
  | EmptyString => [cur]
  | String c subtopic' =>
    if Ascii.eqb c slash then cur :: tokenise_loop subtopic' ""
    else tokenise_loop subtopic' (cur +:+ String c EmptyString)
  end.

Definition _sub_topic_tokenise (subtopic : string) : list string :=
  let front := if bool_decide (char0 subtopic ≠ Some dollar) then [""] else [] in
  match subtopic with
  | String c rest =>
    if Ascii.eqb c slash then front ++ [""] ++ tokenise_loop rest ""
    else front ++ tokenise_loop subtopic ""
  | EmptyString => front ++ tokenise_loop subtopic ""
  end.

(** ** Reference semantics

    The levels of a topic name or filter, and the MQTT rules for matching. *)

Fixpoint levels (s : string) : list string :=
  match s with
  | EmptyString => [""]
  | String c s' =>
    if Ascii.eqb c slash then "" :: levels s'
    else match levels s' with
         | l :: ls => String c l :: ls
         | [] => [String c ""]
         end
  end.

(** [+] stands for exactly one level, a final [#] for any number of levels
    (none included), every other level for itself. *)
Inductive level_match : list string → list string → Prop :=
| level_match_nil : level_match [] []
| level_match_hash ts : level_match ["#"] ts
| level_match_plus fs t ts : level_match fs ts → level_match ("+" :: fs) (t :: ts)
| level_match_lit l fs ts : level_match fs ts → level_match (l :: fs) (l :: ts).

Fixpoint level_matchb (fs ts : list string) : bool :=
  match fs, ts with
  | [], [] => true
  | [], _ :: _ => false
  | f :: fs', [] => bool_decide (f = "#") && bool_decide (fs' = [])
  | f :: fs', t :: ts' =>
    (bool_decide (f = "#") && bool_decide (fs' = []))
    || ((bool_decide (f = "+") || bool_decide (f = t)) && level_matchb fs' ts')
  end.

(** A topic name against a filter: the levels match, and a name that starts
    with [$] is only matched by filters that start with [$]. *)
Definition topic_match (sub topic : string) : Prop :=
  (char0 sub = Some dollar ↔ char0 topic = Some dollar) ∧ level_match (levels sub) (levels topic).

Fixpoint has_char (c : ascii) (s : string) : bool :=
  match s with EmptyString => false | String a s' => Ascii.eqb a c || has_char c s' end.

Definition wildcard_free (l : string) : bool := negb (has_char plus l) && negb (has_char hash l).
Arguments wildcard_free : simpl never.

(** Each level is wildcard-free, a lone [+], or a lone [#] in last place. *)
Fixpoint valid_levels (ls : list string) : bool :=
  match ls with
  | [] => true
  | l :: ls' =>
    (wildcard_free l || String.eqb l "+" || (String.eqb l "#" && bool_decide (ls' = [])))
    && valid_levels ls'
  end.

(** ** Levels *)

Fixpoint join_levels (ls : list string) : string :=
  match ls with
  | [] => ""
  | [l] => l
  | l :: ls' => l +:+ String slash (join_levels ls')
  end.

Lemma levels_nonempty s : ∃ l ls, levels s = l :: ls.
Proof.
  destruct s as [|c s]; simpl; [eauto|].
  destruct (Ascii.eqb c slash); [eauto|]. destruct (levels s); eauto.
Qed.

Lemma levels_slash s : levels (String slash s) = "" :: levels s.
Proof. done. Qed.

Lemma levels_char c s l ls :
  c ≠ slash → levels s = l :: ls → levels (String c s) = String c l :: ls.
Proof. intros Hc Hs. simpl. apply Ascii.eqb_neq in Hc. by rewrite Hc, Hs. Qed.

Lemma tokenise_loop_levels s cur l ls :
  levels s = l :: ls → tokenise_loop s cur = (cur +:+ l) :: ls.
Proof.
  revert cur l ls. induction s as [|c s IH]; intros cur l ls; simpl.
  - intros [= <- <-]. by rewrite str_app_nil_r.
  - destruct (Ascii.eqb c slash).
    + intros [= <- <-]. rewrite str_app_nil_r. f_equal.
      destruct (levels_nonempty s) as (l' & ls' & E). by rewrite (IH _ _ _ E), E.
    + destruct (levels_nonempty s) as (l' & ls' & E). rewrite E. intros [= <- <-].
      by rewrite (IH _ _ _ E), str_app_assoc.
Qed.

Lemma tokenise_loop_nil s : tokenise_loop s "" = levels s.
Proof.
  destruct (levels_nonempty s) as (l & ls & E). by rewrite (tokenise_loop_levels _ _ _ _ E), E.
Qed.

(** The tokens of a topic: its levels, behind an empty token unless it
    starts with [$]. *)
Lemma tokenise_spec s :
  _sub_topic_tokenise s = (if bool_decide (char0 s = Some dollar) then [] else [""]) ++ levels s.
Proof.
  unfold _sub_topic_tokenise. destruct s as [|c s]; [done|].
  rewrite !tokenise_loop_nil. simpl char0.
  destruct (Ascii.eqb_spec c slash) as [->|Hc]; [done|].
  repeat case_bool_decide; simplify_eq; done.
Qed.

Lemma join_levels_cons l ls :
  ls ≠ [] → join_levels (l :: ls) = l +:+ String slash (join_levels ls).
Proof. by destruct ls. Qed.

Lemma join_levels_levels s : join_levels (levels s) = s.
Proof.
  induction s as [|c s IH]; [done|]. simpl.
  destruct (levels_nonempty s) as (l & ls & E).
  destruct (Ascii.eqb_spec c slash) as [->|Hc]; rewrite E in *.
  - by rewrite join_levels_cons, IH.
  - destruct ls as [|l' ls]; [simpl in *; by rewrite IH|].
    rewrite join_levels_cons in IH |- * by done. by rewrite str_app_cons, IH.
Qed.

Lemma levels_inj s t : levels s = levels t → s = t.
Proof. intros H. by rewrite <- (join_levels_levels s), H, join_levels_levels. Qed.

Lemma levels_head_char s l ls : levels s = l :: ls → char0 s = Some dollar ↔ char0 l = Some dollar.
Proof.
  destruct s as [|c s]; simpl; [by intros [= <- <-]|].
  destruct (Ascii.eqb_spec c slash) as [->|Hc]; [by intros [= <- <-]|].
  destruct (levels_nonempty s) as (l' & ls' & ->). by intros [= <- <-].
Qed.

Lemma level_match_lit_inv l m fs ts :
  l ≠ "+" → l ≠ "#" → level_match (l :: fs) (m :: ts) ↔ l = m ∧ level_match fs ts.
Proof.
  intros Hp Hh. split.
  - by inversion 1; simplify_eq.
  - intros [-> H]. by constructor.
Qed.

Lemma level_matchb_spec fs ts : level_matchb fs ts = true ↔ level_match fs ts.
Proof.
  revert ts. induction fs as [|f fs IH]; intros [|t ts]; simpl.
  - split; [constructor | done].
  - split; [done | inversion 1].
  - rewrite andb_true_iff, !bool_decide_eq_true. split.
    + intros [-> ->]. constructor.
    + by inversion 1.
  - rewrite orb_true_iff, !andb_true_iff, orb_true_iff, !bool_decide_eq_true, IH. split.
    + intros [[-> ->]|[[->| ->] ?]]; by constructor.
    + inversion 1; simplify_eq; naive_solver.
Qed.

#[export] Instance level_match_dec fs ts : Decision (level_match fs ts).
Proof.
  refine (cast_if (decide (level_matchb fs ts = true))); by rewrite <- level_matchb_spec.
Defined.

(** The [$] rule needs no special case on tokens: the extra empty token of
    the tokeniser keeps [$]-topics and ordinary ones apart. *)
Lemma level_match_tokens sub topic :
  level_match (_sub_topic_tokenise sub) (_sub_topic_tokenise topic) ↔ topic_match sub topic.
Proof.
  unfold topic_match. rewrite !tokenise_spec.
  destruct (levels_nonempty sub) as (l & ls & El), (levels_nonempty topic) as (m & ms & Em).
  pose proof (levels_head_char _ _ _ El) as Hl. pose proof (levels_head_char _ _ _ Em) as Hm.
  rewrite El, Em.
  repeat case_bool_decide; simpl.
  - naive_solver.
  - rewrite level_match_lit_inv; [|by intros ->; naive_solver..]. naive_solver.
  - rewrite level_match_lit_inv by done. naive_solver.
  - rewrite level_match_lit_inv by done. naive_solver.
Qed.

(** ** Wildcard checks *)

Lemma strlen_cons c s : strlen (String c s) = strlen s + 1.
Proof. unfold strlen. simpl. lia. Qed.
Lemma strlen_nonneg s : 0 <= strlen s.
Proof. unfold strlen. lia. Qed.

Lemma wildcard_free_cons c s :
  wildcard_free (String c s) = negb (Ascii.eqb c plus) && negb (Ascii.eqb c hash) && wildcard_free s.
Proof. unfold wildcard_free. simpl. by destruct (Ascii.eqb c plus), (Ascii.eqb c hash), (has_char plus s). Qed.

Lemma wildcard_len_loop_spec s len :
  wildcard_len_loop s len = MOSQ_ERR_SUCCESS ↔ wildcard_free s = true ∧ len + strlen s <= 65535.
Proof.
  revert len. induction s as [|c s IH]; intros len; simpl.
  - unfold strlen. simpl. destruct (Z.ltb_spec 65535 len); unfold MOSQ_ERR_SUCCESS, MOSQ_ERR_INVAL;
      split; intros; try split; try done; lia.
  - rewrite wildcard_free_cons, strlen_cons.
    destruct (Ascii.eqb c plus), (Ascii.eqb c hash); simpl;
      try (split; [done | naive_solver]).
    rewrite IH, Z.add_assoc. split; intros [? ?]; (split; [done | lia]).
Qed.

(** a topic name passes [_mosquitto_topic_wildcard_len_check] exactly when
    it holds no wildcard character and is at most 65535 characters long. *)
Theorem wildcard_len_check_spec s :
  _mosquitto_topic_wildcard_len_check s = MOSQ_ERR_SUCCESS ↔
  wildcard_free s = true ∧ strlen s <= 65535.
Proof. apply (wildcard_len_loop_spec s 0). Qed.

Lemma levels_head_empty s l ls : levels s = l :: ls → nul_or_slash (char0 s) = is_empty l.
Proof.
  destruct s as [|c s]; simpl; [by intros [= <- <-]|].
  destruct (Ascii.eqb_spec c slash) as [->|Hc]; [by intros [= <- <-]|].
  destruct (levels_nonempty s) as (l' & ls' & ->). by intros [= <- <-].
Qed.

Lemma levels_empty_iff s l ls : levels s = l :: ls → bool_decide (char0 s ≠ None) = negb (is_empty l && bool_decide (ls = [])).
Proof.
  destruct s as [|c s]; simpl; [by intros [= <- <-]|].
  destruct (Ascii.eqb_spec c slash) as [->|Hc].
  - intros [= <- <-]. destruct (levels_nonempty s) as (l' & ls' & ->). done.
  - destruct (levels_nonempty s) as (l' & ls' & ->). by intros [= <- <-].
Qed.

(** Validity of a suffix: at the start of a level a lone wildcard may follow,
    inside a level it may not. *)
Definition valid_suffix (start : bool) (ls : list string) : bool :=
  match ls with
  | [] => true
  | l :: ls' =>
    (wildcard_free l || start && (String.eqb l "+" || (String.eqb l "#" && bool_decide (ls' = []))))
    && valid_levels ls'
  end.

Lemma valid_suffix_start ls : valid_suffix true ls = valid_levels ls.
Proof. destruct ls as [|l ls]; simpl; [done|]. by rewrite orb_assoc. Qed.

Lemma plus_neq_hash : Ascii.eqb plus hash = false.
Proof. done. Qed.

Lemma wildcard_pos_loop_spec s c len :
  wildcard_pos_loop c s len = MOSQ_ERR_SUCCESS ↔
  valid_suffix (nul_or_slash c) (levels s) = true ∧ len + strlen s <= 65535.
Proof.
  revert c len. induction s as [|a s IH]; intros c len; simpl.
  - unfold strlen. simpl. destruct (Z.ltb_spec 65535 len); unfold MOSQ_ERR_SUCCESS, MOSQ_ERR_INVAL;
      split; intros; try split; try done; lia.
  - rewrite strlen_cons, (Z.add_comm (strlen s) 1), Z.add_assoc.
    destruct (levels_nonempty s) as (l & ls & E).
    rewrite (levels_head_empty _ _ _ E), (levels_empty_iff _ _ _ E).
    specialize (IH (Some a) (len + 1)). simpl in IH. rewrite E in *.
    destruct (Ascii.eqb_spec a slash) as [->|Ha].
    { rewrite valid_suffix_start in IH. simpl in *. by rewrite IH. }
    simpl valid_suffix. rewrite wildcard_free_cons.
    destruct (Ascii.eqb_spec a plus) as [->|Hp]; [|destruct (Ascii.eqb_spec a hash) as [->|Hh]]; simpl.
    + destruct (nul_or_slash c), l as [|b l]; simpl in *;
        first [by rewrite IH | split; [discriminate | by intros [? _]]].
    + destruct (nul_or_slash c), l as [|b l], ls as [|l' ls]; simpl in *;
        first [by rewrite IH | split; [discriminate | by intros [? _]]].
    + rewrite IH. simpl. destruct (wildcard_free l); simpl; [done|].
      apply Ascii.eqb_neq in Hp, Hh. unfold plus, hash in *. simpl.
      by rewrite Hp, Hh, andb_false_r.
Qed.

(** A filter passes [_mosquitto_topic_wildcard_pos_check] exactly when
    every level is wildcard-free, a lone [+], or a lone [#] in last place, and
    it is at most 65535 characters long. *)
Theorem wildcard_pos_check_spec s :
  _mosquitto_topic_wildcard_pos_check s = MOSQ_ERR_SUCCESS ↔
  valid_levels (levels s) = true ∧ strlen s <= 65535.
Proof.
  unfold _mosquitto_topic_wildcard_pos_check.
  rewrite wildcard_pos_loop_spec. simpl. by rewrite valid_suffix_start.
Qed.

(** ** [mosquitto_topic_matches_sub] against the reference *)

Lemma level_match_refl ts : level_match ts ts.
Proof. induction ts; by constructor. Qed.

Lemma wildcard_free_not_wildcard l : wildcard_free l = true → l ≠ "+" ∧ l ≠ "#".
Proof. intros H. split; intros ->; done. Qed.

Lemma valid_suffix_step start c s :
  c ≠ plus → c ≠ hash → valid_suffix start (levels (String c s)) = true →
  valid_suffix (Ascii.eqb c slash) (levels s) = true.
Proof.
  intros Hp%Ascii.eqb_neq Hh%Ascii.eqb_neq. destruct (levels_nonempty s) as (l & ls & E). simpl. rewrite E.
  destruct (Ascii.eqb_spec c slash) as [->|Hc]; simpl.
  - by rewrite <- orb_assoc.
  - rewrite wildcard_free_cons, Hp, Hh. simpl.
    destruct (wildcard_free l); simpl; [done|].
    unfold plus, hash in *. rewrite Hp, Hh. by rewrite andb_false_r.
Qed.

Lemma level_match_char c s t :
  c ≠ plus → c ≠ hash → valid_suffix (Ascii.eqb c slash) (levels s) = true →
  level_match (levels (String c s)) (levels (String c t)) ↔ level_match (levels s) (levels t).
Proof.
  intros Hp Hh.
  destruct (levels_nonempty s) as (l & ls & Es), (levels_nonempty t) as (m & ms & Et).
  simpl. rewrite Es, Et. destruct (Ascii.eqb_spec c slash) as [->|Hc]; intros Hv.
  - rewrite (level_match_lit_inv "" ""); naive_solver.
  - simpl in Hv. rewrite orb_false_r in Hv. apply andb_prop in Hv as [Hl _].
    destruct (wildcard_free_not_wildcard _ Hl).
    rewrite !level_match_lit_inv; [naive_solver|done..| |].
    + by intros [= -> _].
    + by intros [= -> _].
Qed.

Lemma skip_level_levels t m ms :
  levels t = m :: ms → levels (skip_level t) = "" :: ms.
Proof.
  revert m. induction t as [|c t IH]; intros m; simpl; [by intros [= <- <-]|].
  destruct (Ascii.eqb_spec c slash) as [->|Hc].
  - intros [= <- <-]. done.
  - destruct (levels_nonempty t) as (l & ls & E). rewrite E. intros [= <- <-]. by eapply IH.
Qed.

Lemma skip_level_wildcard_free t : wildcard_free t = true → wildcard_free (skip_level t) = true.
Proof.
  induction t as [|c t IH]; simpl; [done|]. intros H.
  destruct (Ascii.eqb c slash); [done|]. apply IH.
  rewrite wildcard_free_cons in H. by apply andb_prop in H as [_ ?].
Qed.

Lemma wildcard_free_head c t : wildcard_free (String c t) = true → c ≠ plus ∧ c ≠ hash ∧ wildcard_free t = true.
Proof.
  rewrite wildcard_free_cons, !andb_true_iff, !negb_true_iff, !Ascii.eqb_neq. naive_solver.
Qed.

(** At a [+] in a valid position, the rest of the filter starts a new level. *)
Lemma valid_plus start s :
  valid_suffix start (levels (String plus s)) = true →
  ∃ ls, levels s = "" :: ls ∧ valid_suffix false (levels s) = true.
Proof.
  destruct (levels_nonempty s) as (l & ls & E). rewrite (levels_char plus s l ls), E by done.
  simpl. destruct l as [|a l]; simpl.
  - intros H. exists ls. split; [done|]. by apply andb_prop in H as [_ ?].
  - by rewrite andb_false_r.
Qed.

Lemma is_empty_true s : is_empty s = true ↔ s = "".
Proof. by destruct s. Qed.

Lemma matches_sub_loop_cons c s d t :
  matches_sub_loop (String c s) (String d t) =
    if Ascii.eqb c d then
      if is_empty t && String.eqb s "/#" then Some true
      else if is_empty s && is_empty t then Some true
      else if is_empty t && String.eqb s "+" then Some true
      else matches_sub_loop s t
    else if Ascii.eqb c plus then
      if is_empty (skip_level (String d t)) && is_empty s then Some true
      else matches_sub_loop s (skip_level (String d t))
    else if Ascii.eqb c hash then Some (is_empty s) else Some false.
Proof. done. Qed.

Lemma matches_sub_loop_sound s start t :
  valid_suffix start (levels s) = true → wildcard_free t = true →
  matches_sub_loop s t = Some true → level_match (levels s) (levels t).
Proof.
  revert start t. induction s as [|c s IH]; intros start t Hv Ht; [by destruct t|].
  destruct t as [|d t]; [done|]. rewrite matches_sub_loop_cons.
  destruct (Ascii.eqb_spec c d) as [<-|Hcd].
  - destruct (wildcard_free_head _ _ Ht) as (Hp & Hh & Ht').
    pose proof (valid_suffix_step _ _ _ Hp Hh Hv) as Hv'.
    rewrite level_match_char by done.
    destruct (is_empty t && String.eqb s "/#") eqn:E1.
    { apply andb_prop in E1 as [->%is_empty_true ->%String.eqb_eq]. intros _.
      apply level_matchb_spec. done. }
    destruct (is_empty s && is_empty t) eqn:E2.
    { apply andb_prop in E2 as [->%is_empty_true ->%is_empty_true]. intros _. apply level_match_refl. }
    destruct (is_empty t && String.eqb s "+") eqn:E3; [|by apply IH with (start := Ascii.eqb c slash)].
    apply andb_prop in E3 as [->%is_empty_true ->%String.eqb_eq]. intros _.
    apply level_matchb_spec. done.
  - destruct (Ascii.eqb_spec c plus) as [->|Hp].
    + destruct (valid_plus _ _ Hv) as (ls & Es & Hv').
      destruct (levels_nonempty (String d t)) as (m & ms & Et).
      pose proof (skip_level_levels _ _ _ Et) as Ek.
      assert (Hgoal : level_match ls ms → level_match (levels (String plus s)) (levels (String d t))).
      { rewrite Et, (levels_char plus s "" ls) by done. by constructor. }
      destruct (is_empty (skip_level (String d t)) && is_empty s) eqn:E1.
      * apply andb_prop in E1 as [E1%is_empty_true ->%is_empty_true]. intros _. apply Hgoal.
        rewrite E1 in Ek. simpl in *. simplify_eq. constructor.
      * intros H. apply Hgoal. apply (IH false) in H; [|done|by apply skip_level_wildcard_free].
        rewrite Es, Ek, (level_match_lit_inv "" "") in H by done. by destruct H.
    + destruct (Ascii.eqb_spec c hash) as [->|Hh]; [|done].
      intros [= ->%is_empty_true]. constructor.
Qed.

Lemma level_match_nil_r fs : existsb (has_char hash) fs = false → level_match fs [] → fs = [].
Proof. intros Hh Hm. inversion Hm; by simplify_eq. Qed.

Lemma level_match_nil_l ts : level_match [] ts → ts = [].
Proof. by inversion 1. Qed.

Lemma level_match_empty_l ts : level_match [""] ts → ts = [""].
Proof. inversion 1 as [| | |? ? ? Hm]; simplify_eq. by apply level_match_nil_l in Hm as ->. Qed.

Lemma level_match_empty_r fs :
  existsb (has_char hash) fs = false → level_match fs [""] → fs = [""] ∨ fs = ["+"].
Proof.
  intros Hh Hm. inversion Hm as [| |fs' ? ? Hm'|? fs' ? Hm']; simplify_eq; 
    apply level_match_nil_r in Hm' as ->; auto;
    by apply orb_false_elim in Hh as [_ ?].
Qed.

Lemma has_char_levels c s : c ≠ slash → existsb (has_char c) (levels s) = has_char c s.
Proof.
  intros Hc. induction s as [|a s IH]; [done|].
  destruct (levels_nonempty s) as (l & ls & E).
  destruct (Ascii.eqb_spec a slash) as [->|Ha].
  - assert (Ascii.eqb slash c = false) as Hx by (apply Ascii.eqb_neq; congruence).
    rewrite levels_slash. cbn [existsb has_char]. by rewrite Hx.
  - rewrite (levels_char _ _ _ _ Ha E). rewrite E in IH. cbn [existsb has_char] in *.
    by rewrite <- IH, orb_assoc.
Qed.

Lemma matches_sub_loop_complete s start t :
  valid_suffix start (levels s) = true → has_char hash s = false →
  wildcard_free t = true → s ≠ "" → t ≠ "" →
  level_match (levels s) (levels t) → matches_sub_loop s t = Some true.
Proof.
  revert start t. induction s as [|c s IH]; intros start t Hv Hh Ht Hs Hne Hm; [done|].
  destruct t as [|d t]; [done|]. rewrite matches_sub_loop_cons.
  simpl in Hh. apply orb_false_elim in Hh as [Hch%Ascii.eqb_neq Hh].
  destruct (wildcard_free_head _ _ Ht) as (Hdp & Hdh & Ht').
  destruct (Ascii.eqb_spec c plus) as [->|Hp].
  - destruct (Ascii.eqb_spec plus d) as [<-|_]; [done|].
    destruct (valid_plus _ _ Hv) as (ls & Es & Hv').
    destruct (levels_nonempty (String d t)) as (m & ms & Et).
    pose proof (skip_level_levels _ _ _ Et) as Ek.
    rewrite Et, (levels_char plus s "" ls) in Hm by done.
    assert (level_match ls ms) as Hls.
    { inversion Hm; simplify_eq; [done|]. by destruct (wildcard_free_head _ _ Ht) as (? & _). }
    assert (ls = [] ↔ ms = []) as Hnil.
    { pose proof (has_char_levels hash s) as Hx. rewrite Es, Hh in Hx.
      split; intros ->; [by apply level_match_nil_l | by apply level_match_nil_r, Hls; auto]. }
    destruct (is_empty (skip_level (String d t)) && is_empty s) eqn:E1; [done|].
    apply (IH false); [done..|by apply skip_level_wildcard_free| | |].
    + intros ->. simpl in Es. simplify_eq. destruct Hnil as [Hnil _]. rewrite Hnil in Ek by done.
      apply levels_inj with (t := "") in Ek. by rewrite Ek in E1.
    + intros Hk. rewrite Hk in *. simpl in *. simplify_eq. destruct Hnil as [_ Hnil].
      rewrite Hnil in Es by done. by apply levels_inj with (t := "") in Es as ->.
    + rewrite Es, Ek. by constructor.
  - pose proof (valid_suffix_step _ _ _ Hp Hch Hv) as Hv'.
    assert (c = d) as <-.
    { destruct (levels_nonempty s) as (l & ls & Es), (levels_nonempty t) as (m & ms & Et).
      simpl in Hm. rewrite Es, Et in Hm.
      destruct (Ascii.eqb_spec c slash) as [->|Hc], (Ascii.eqb_spec d slash) as [->|Hd]; [done|..].
      - apply level_match_lit_inv in Hm; naive_solver.
      - apply level_match_lit_inv in Hm; [naive_solver|..]; by intros [= -> _].
      - apply level_match_lit_inv in Hm; [naive_solver|..]; by intros [= -> _]. }
    rewrite level_match_char in Hm by done. rewrite Ascii.eqb_refl.
    destruct (is_empty t && String.eqb s "/#") eqn:E1; [done|].
    destruct (is_empty s && is_empty t) eqn:E2; [done|].
    destruct (is_empty t && String.eqb s "+") eqn:E3; [done|].
    apply (IH (Ascii.eqb c slash)); try done.
    + intros ->. apply level_match_empty_l, (levels_inj _ "") in Hm as ->. done.
    + intros ->. apply level_match_empty_r in Hm as [E|E]; [..|by rewrite has_char_levels].
      * apply (levels_inj _ "") in E as ->. done.
      * apply (levels_inj _ "+") in E as ->. done.
Qed.

(** The [$] test of the code is the [$] clause of [topic_match]. *)
Lemma matches_sub_unfold sub topic r :
  sub ≠ "" → topic ≠ "" →
  mosquitto_topic_matches_sub sub topic r = true ↔
  (char0 sub = Some dollar ↔ char0 topic = Some dollar) ∧
  match matches_sub_loop sub topic with Some b => b | None => r end = true.
Proof.
  intros Hs Ht. unfold mosquitto_topic_matches_sub.
  destruct (is_empty sub) eqn:Es; [by apply is_empty_true in Es|].
  destruct (is_empty topic) eqn:Et; [by apply is_empty_true in Et|].
  simpl. repeat case_bool_decide; naive_solver.
Qed.

Lemma matches_sub_loop_total sub topic :
  sub ≠ "" → topic ≠ "" → is_Some (matches_sub_loop sub topic).
Proof.
  revert topic. induction sub as [|c s IH]; [done|]. intros [|d t]; [done|]. intros _ _.
  rewrite matches_sub_loop_cons.
  destruct (Ascii.eqb c d); [|destruct (Ascii.eqb c plus), (Ascii.eqb c hash)]; try done;
    repeat case_match; try done.
  all: match goal with |- is_Some (matches_sub_loop ?x ?y) =>
         destruct x, y; try done; by apply IH end.
Qed.

Lemma matches_sub_sound_levels sub topic r :
  valid_levels (levels sub) = true → wildcard_free topic = true → sub ≠ "" → topic ≠ "" →
  mosquitto_topic_matches_sub sub topic r = true → topic_match sub topic.
Proof.
  intros Hv Ht Hs Hne. rewrite matches_sub_unfold by done. intros [Hd Hl]. split; [done|].
  destruct (matches_sub_loop_total sub topic Hs Hne) as [b Hb]. rewrite Hb in Hl. subst b.
  eapply (matches_sub_loop_sound _ true); [by rewrite valid_suffix_start|done|done].
Qed.

(** soundness of [mosquitto_topic_matches_sub]: when it reports that a
    topic name matches a valid filter, the MQTT rules say so too, whatever the
    result variable held before the call. *)
Theorem topic_matches_sub_sound sub topic r :
  _mosquitto_topic_wildcard_pos_check sub = MOSQ_ERR_SUCCESS →
  _mosquitto_topic_wildcard_len_check topic = MOSQ_ERR_SUCCESS →
  sub ≠ "" → topic ≠ "" →
  mosquitto_topic_matches_sub sub topic r = true → topic_match sub topic.
Proof.
  intros [Hv _]%wildcard_pos_loop_spec [Ht _]%wildcard_len_loop_spec.
  simpl in Hv. rewrite valid_suffix_start in Hv. by apply matches_sub_sound_levels.
Qed.

Lemma topic_matches_sub_sound_witness :
  mosquitto_topic_matches_sub "/mcafee/+/dxl/#" "/mcafee/event/dxl/brokerregistry" false = true
  ∧ topic_match "/mcafee/+/dxl/#" "/mcafee/event/dxl/brokerregistry".
Proof.
  split; [by vm_compute|].
  apply (topic_matches_sub_sound _ _ false); by vm_compute.
Defined.

(** On filters without [#] the function decides exactly the MQTT
    matching relation. *)
Theorem topic_matches_sub_exact sub topic r :
  _mosquitto_topic_wildcard_pos_check sub = MOSQ_ERR_SUCCESS → has_char hash sub = false →
  _mosquitto_topic_wildcard_len_check topic = MOSQ_ERR_SUCCESS →
  sub ≠ "" → topic ≠ "" →
  mosquitto_topic_matches_sub sub topic r = true ↔ topic_match sub topic.
Proof.
  intros [Hv _]%wildcard_pos_loop_spec Hh [Ht _]%wildcard_len_loop_spec Hs Hne.
  simpl in Hv. split; [apply matches_sub_sound_levels; by rewrite <- ?valid_suffix_start|].
  intros [Hd Hm]. rewrite matches_sub_unfold by done. split; [done|].
  by rewrite (matches_sub_loop_complete sub true topic).
Qed.

Lemma topic_matches_sub_exact_witness :
  mosquitto_topic_matches_sub "a/+/c" "a/b/c" false = true ↔ topic_match "a/+/c" "a/b/c".
Proof. apply topic_matches_sub_exact; by vm_compute. Defined.

(** With [#] the function is incomplete: an empty last level under [#],
    and a parent level reached through [+], match by the MQTT rules (and in
    the subscription tree) but are reported as not matching. *)
Theorem topic_matches_sub_hash_incomplete :
  (topic_match "a/#" "a/" ∧ mosquitto_topic_matches_sub "a/#" "a/" true = false) ∧
  (topic_match "+/#" "a" ∧ mosquitto_topic_matches_sub "+/#" "a" true = false).
Proof.
  assert (∀ s t, level_matchb (levels s) (levels t) = true →
    (char0 s = Some dollar ↔ char0 t = Some dollar) → topic_match s t) as Hb.
  { intros s t H1 H2. split; [done|]. by apply level_matchb_spec. }
  split; (split; [apply Hb; [by vm_compute | done] | by vm_compute]).
Qed.

(** tokenising loses nothing: joining the levels behind the front token
    gives the topic back, so distinct topics have distinct token lists. *)
Theorem tokenise_roundtrip s :
  join_levels (if bool_decide (char0 s = Some dollar) then _sub_topic_tokenise s
               else tail (_sub_topic_tokenise s)) = s ∧
  (∀ t, _sub_topic_tokenise t = _sub_topic_tokenise s → t = s).
Proof.
  split.
  - rewrite tokenise_spec. case_bool_decide; simpl; apply join_levels_levels.
  - intros t. rewrite !tokenise_spec.
    destruct (levels_nonempty t) as (l & ls & Et), (levels_nonempty s) as (m & ms & Es).
    pose proof (levels_head_char _ _ _ Et). pose proof (levels_head_char _ _ _ Es).
    repeat case_bool_decide; simpl; intros E.
    + by apply levels_inj.
    + rewrite Et in E. simplify_eq. naive_solver.
    + rewrite Es in E. simplify_eq. naive_solver.
    + simplify_eq. by apply levels_inj.
Qed.
