(* ===== verification/State.v ===== *)
(** * The broker's data structures

    The structs and enums of [lib/mosquitto_internal.h], [lib/mosquitto.h]
    and [src/mosquitto_broker.h] that the modelled code reads and writes, the
    interface to the code outside the messaging core (operating system,
    OpenSSL, libwebsockets and the C++ broker library behind [dxl.h]), and the
    global state of the process. *)

From S2P Require Import Prelude Topic.
From stdpp Require Import options.

(** Addresses of the heap objects that are shared: client contexts
    ([struct mosquitto *]) and stored messages ([struct mosquitto_msg_store *]). *)
Abbreviation ctxid := positive.
Abbreviation storeid := positive.

(** ** Enumerations *)

Inductive msg_direction := mosq_md_in | mosq_md_out.

Inductive msg_state :=
  | mosq_ms_invalid | mosq_ms_publish_qos0 | mosq_ms_publish_qos1 | mosq_ms_wait_for_puback
  | mosq_ms_publish_qos2 | mosq_ms_wait_for_pubrec | mosq_ms_resend_pubrel
  | mosq_ms_wait_for_pubrel | mosq_ms_resend_pubcomp | mosq_ms_wait_for_pubcomp
  | mosq_ms_send_pubrec | mosq_ms_queued.

Inductive client_state :=
  | mosq_cs_new | mosq_cs_connected | mosq_cs_disconnecting | mosq_cs_connect_async
  | mosq_cs_connect_pending | mosq_cs_connect_srv | mosq_cs_ws_dead.

Inductive mosq_protocol := mosq_p_invalid | mosq_p_mqtt31 | mosq_p_mqtt311 | mosq_p_mqtts.

Inductive cert_type := cert_unknown | cert_broker | cert_client.

Inductive bridge_direction := bd_out | bd_in | bd_both.

Inductive bridge_start_type := bst_automatic | bst_lazy | bst_manual | bst_once.

#[export] Instance msg_direction_eq_dec : EqDecision msg_direction.
Proof. solve_decision. Defined.
#[export] Instance msg_state_eq_dec : EqDecision msg_state.
Proof. solve_decision. Defined.
#[export] Instance client_state_eq_dec : EqDecision client_state.
Proof. solve_decision. Defined.
#[export] Instance mosq_protocol_eq_dec : EqDecision mosq_protocol.
Proof. solve_decision. Defined.
#[export] Instance cert_type_eq_dec : EqDecision cert_type.
Proof. solve_decision. Defined.
#[export] Instance bridge_direction_eq_dec : EqDecision bridge_direction.
Proof. solve_decision. Defined.
#[export] Instance bridge_start_type_eq_dec : EqDecision bridge_start_type.
Proof. solve_decision. Defined.

(** ** Structs *)

(** [struct _mosquitto_packet]; [p_payload] is [None] for a NULL pointer and
    otherwise the allocated buffer (behind the websocket pre-buffer). *)
Record packet := mk_packet {
  p_command : Z; p_have_remaining : Z; p_remaining_count : Z; p_is_ws_packet : bool;
  p_mid : Z; p_remaining_mult : Z; p_remaining_length : Z; p_packet_length : Z;
  p_to_process : Z; p_pos : Z; p_payload : option (list Z) }.
#[export] Instance eta_packet : Eta packet := λ r,
  mk_packet (p_command r) (p_have_remaining r) (p_remaining_count r) (p_is_ws_packet r)
    (p_mid r) (p_remaining_mult r) (p_remaining_length r) (p_packet_length r)
    (p_to_process r) (p_pos r) (p_payload r).

(** A packet fresh from [_mosquitto_calloc]. *)
Definition packet_zero : packet := mk_packet 0 0 0 false 0 0 0 0 0 0 None.

(** [struct mosquitto_message]; [msg_payload] is [None] for NULL. *)
Record message := mk_message {
  msg_mid : Z; msg_topic : option string; msg_payload : option (list Z); msg_payloadlen : Z;
  msg_client_payload : option (list Z); msg_client_payloadlen : Z; msg_qos : Z; msg_retain : bool }.
#[export] Instance eta_message : Eta message := λ r,
  mk_message (msg_mid r) (msg_topic r) (msg_payload r) (msg_payloadlen r)
    (msg_client_payload r) (msg_client_payloadlen r) (msg_qos r) (msg_retain r).

(** [struct mosquitto_msg_store] (the [dest_ids] array is never filled). *)
Record msg_store := mk_msg_store {
  s_db_id : Z; s_ref_count : Z; s_source_id : string; s_source_mid : Z; s_msg : message }.
#[export] Instance eta_msg_store : Eta msg_store := λ r,
  mk_msg_store (s_db_id r) (s_ref_count r) (s_source_id r) (s_source_mid r) (s_msg r).

(** [struct mosquitto_client_msg]: one entry of a context's message queue. *)
Record client_msg := mk_client_msg {
  m_store : storeid; m_mid : Z; m_qos : Z; m_retain : bool; m_timestamp : Z;
  m_direction : msg_direction; m_state : msg_state; m_dup : bool; m_client_message : bool }.
#[export] Instance eta_client_msg : Eta client_msg := λ r,
  mk_client_msg (m_store r) (m_mid r) (m_qos r) (m_retain r) (m_timestamp r)
    (m_direction r) (m_state r) (m_dup r) (m_client_message r).

(** [struct _mqtt3_bridge_topic]. *)
Record bridge_topic := mk_bridge_topic {
  bt_qos : Z; bt_direction : bridge_direction; bt_local_prefix : option string;
  bt_remote_prefix : option string; bt_local_topic : string; bt_remote_topic : string }.

(** [struct _mqtt3_bridge]; [b_addresses] are [(address, port)] pairs. *)
Record bridge := mk_bridge {
  b_cur_primary_address : Z; b_primary_address_count : Z; b_name : string;
  b_addresses : list (string * Z); b_cur_address : Z; b_primary_retry : Z; b_round_robin : bool;
  b_clean_session : bool; b_topics : list bridge_topic; b_topic_remapping : bool; b_restart_t : Z;
  b_start_type : bridge_start_type; b_idle_timeout : Z; b_threshold : Z; b_lazy_reconnect : bool;
  b_try_private : bool; b_try_private_accepted : bool; b_clientid : option string }.
#[export] Instance eta_bridge : Eta bridge := λ r,
  mk_bridge (b_cur_primary_address r) (b_primary_address_count r) (b_name r) (b_addresses r)
    (b_cur_address r) (b_primary_retry r) (b_round_robin r) (b_clean_session r) (b_topics r)
    (b_topic_remapping r) (b_restart_t r) (b_start_type r) (b_idle_timeout r) (b_threshold r)
    (b_lazy_reconnect r) (b_try_private r) (b_try_private_accepted r)
    (b_clientid r).

(** [struct mosquitto], a client context. [c_msgs] is the queue
    [msgs .. last_msg], [c_out_packet] the list [out_packet .. out_packet_last];
    [c_cert_hashes] is the hash in insertion order; [c_ssl], [c_wsi] say
    whether the pointers are set. *)
Record mosquitto := mk_mosquitto {
  c_numericId : Z; c_clean_subs : bool; c_pending_bytes : bool; c_sock : Z; c_ws_sock : Z;
  c_protocol : mosq_protocol; c_address : option string; c_id : option string;
  c_canonical_id : option string; c_cert_chain : option string; c_keepalive : Z;
  c_clean_session : bool; c_state : client_state; c_last_msg_in : Z; c_last_msg_out : Z;
  c_ping_t : Z; c_last_mid : Z; c_in_packet : packet; c_current_out_packet : option packet;
  c_out_packet : list packet; c_will : option message; c_ssl : bool; c_tls_certtype : cert_type;
  c_dxl_client_guid : option string; c_dxl_tenant_guid : option string; c_cert_hashes : list string;
  c_want_write : bool; c_is_bridge : bool; c_bridge : option bridge; c_msgs : list client_msg;
  c_msg_count : Z; c_msg_count12 : Z; c_listener : option nat; c_disconnect_t : Z;
  c_db_index : Z; c_is_dropping : bool; c_packet_count : Z; c_epoll_events : Z; c_dxl_flags : Z;
  c_subscription_count : Z; c_wsi : bool }.
#[export] Instance eta_mosquitto : Eta mosquitto := λ r,
  mk_mosquitto (c_numericId r) (c_clean_subs r) (c_pending_bytes r) (c_sock r) (c_ws_sock r)
    (c_protocol r) (c_address r) (c_id r) (c_canonical_id r) (c_cert_chain r) (c_keepalive r)
    (c_clean_session r) (c_state r) (c_last_msg_in r) (c_last_msg_out r) (c_ping_t r)
    (c_last_mid r) (c_in_packet r) (c_current_out_packet r) (c_out_packet r) (c_will r) (c_ssl r)
    (c_tls_certtype r) (c_dxl_client_guid r) (c_dxl_tenant_guid r) (c_cert_hashes r)
    (c_want_write r) (c_is_bridge r) (c_bridge r) (c_msgs r) (c_msg_count r) (c_msg_count12 r)
    (c_listener r) (c_disconnect_t r) (c_db_index r) (c_is_dropping r) (c_packet_count r)
    (c_epoll_events r) (c_dxl_flags r) (c_subscription_count r) (c_wsi r).

Definition INVALID_SOCKET : Z := -1.

(** [IS_CONTEXT_INVALID]: neither a socket nor a websocket. *)
Definition is_context_invalid (c : mosquitto) : bool :=
  bool_decide (c_sock c = INVALID_SOCKET) && negb (c_wsi c).

(** [struct _mosquitto_subleaf], one subscription of a context. *)
Record subleaf := mk_subleaf { l_context : ctxid; l_qos : Z }.

(** [struct _mosquitto_subhier], a node of the subscription tree. The hash
    table of the source maps a topic to the child of that name; its entries
    alias the nodes of the [children] list (their key is the child's own
    [topic] pointer), so the table is the list of its keys and a lookup goes
    through the [children]. *)
Inductive subhier := mk_subhier {
  h_topic : string; h_subs : list subleaf; h_retained : option storeid;
  h_children : list subhier; h_children_hash_table : list string;
  h_pound : Z; h_plus : Z }.
#[export] Instance eta_subhier : Eta subhier := λ r,
  mk_subhier (h_topic r) (h_subs r) (h_retained r) (h_children r) (h_children_hash_table r)
    (h_pound r) (h_plus r).

(** [struct mqtt3_config], the options the modelled code consults. *)
Record config := mk_config {
  cfg_message_size_limit : Z; cfg_queue_qos0_messages : bool; cfg_retry_interval : Z;
  cfg_store_clean_interval : Z; cfg_upgrade_outgoing_qos : bool; cfg_ws_enabled : bool }.

(** ** The code outside the messaging core

    Everything the modelled functions call and this development does not
    translate: system calls, OpenSSL, libwebsockets and the broker library
    behind [dxl.h]. Its state is the type [env]; each operation may change it
    and returns what the caller sees. *)

Definition EAGAIN : Z := 11.
Definition ECONNRESET : Z := 104.
Definition EPROTO : Z := 71.

(** The outcome of [SSL_get_error] the callers distinguish. *)
Inductive ssl_error := ssl_want_read | ssl_want_write | ssl_other.

Class Env := {
  env : Type;
  (* operating system *)
  env_time : env → Z * env;                                   (* mosquitto_time *)
  env_write : Z → list Z → env → (Z * Z) * env;               (* write(2): result, errno *)
  env_ssl_write : Z → list Z → env → (Z * ssl_error) * env;   (* SSL_write, SSL_get_error *)
  env_ws_write : ctxid → list Z → env → Z * env;              (* mosquitto_ws_write *)
  env_ws_callback : ctxid → env → env;                        (* mosquitto_ws_request_writeable_callback *)
  env_close : Z → env → Z * env;                              (* close(2) *)
  env_epoll_del : Z → env → env;                              (* epoll_ctl *)
  env_epoll_set : Z → Z → Z → env → env;                      (* epoll_ctl: socket, index, events *)
  env_read : Z → Z → env → (Z * Z * list Z) * env;            (* read(2): result, errno, bytes *)
  env_ssl_read : Z → Z → env → (Z * ssl_error * list Z) * env; (* SSL_read, SSL_get_error, bytes *)
  env_ssl_pending : Z → env → Z;                              (* SSL_pending *)
  env_ssl_shutdown : Z → env → env;                           (* SSL_in_init, SSL_shutdown, SSL_free *)
  env_socket_connect : string → Z → env → (Z * Z * bool * bool) * env; (* _mosquitto_socket_connect: rc, socket, ssl, want_write *)
  env_errno_enotconn : env → bool;                            (* errno == ENOTCONN *)
  env_peer_address : Z → env → option string * env;           (* _mosquitto_socket_get_address *)
  env_gethostname : env → option string;                      (* gethostname(2) *)
  env_generate_guid : env → string * env;                     (* libuuid *)
  (* broker library, dxl.h *)
  dxl_is_multi_tenant_mode_enabled : env → bool;
  dxl_is_tenant_subscription_allowed : mosquitto → env → bool * env;
  dxl_on_topic_added_to_broker : string → env → env;
  dxl_on_topic_removed_from_broker : string → env → env;
  dxl_on_pre_insert_message_packet_queue_exceeded : mosquitto → msg_store → env → bool * env;
  dxl_on_insert_message : mosquitto → msg_store → env → (bool * bool * option (list Z)) * env;
  dxl_on_store_message : option mosquitto → msg_store → env → option (list Z) * env;
  dxl_on_publish_message : mosquitto → string → list Z → env → bool * env;
  dxl_on_finalize_message : Z → env → env;
  dxl_get_broker_tenant_guid : env → string;
  dxl_on_client_connected : mosquitto → env → env;
  dxl_on_client_disconnected : mosquitto → env → env;
  dxl_on_bridge_connected : mosquitto → env → env;
  dxl_on_bridge_disconnected : mosquitto → env → env;
  dxl_is_bridge_connect_allowed : mosquitto → env → bool * env;
  dxl_update_sent_byte_count : mosquitto → Z → env → bool * env;
  dxl_check_connection_get_status : Z → env → Z * env;
  dxl_check_connection_push : Z → string → Z → env → env;
  dxl_check_connection_pop : Z → env → option (string * Z * Z) * env
}.

(** ** The process state

    [struct mosquitto_db] together with the heap objects it points to and the
    file-level static variables of the modelled sources. *)

Record world `{Env} := mk_world {
  w_ctxs : gmap ctxid mosquitto;
  w_stores : gmap storeid msg_store;
  w_last_db_id : Z;
  w_subs : subhier;
  w_contexts : list (option ctxid);
  w_clientid_index_hash : list (string * Z);
  w_msg_store : list storeid;
  w_msg_store_count : Z;
  w_config : config;
  w_subscription_count : Z;
  w_retained_count : Z;
  w_max_inflight : Z;
  w_max_queued : Z;
  w_max_packet_buffer_size : Z;
  w_canonical_client_id_index_hash : gmap string Z;
  w_new_msgs_hash : list ctxid;
  w_new_client : bool;
  w_new_clients_hash : list ctxid;
  w_pending_bytes_hash : list ctxid;
  w_sessions_to_clean : list (option ctxid);
  w_listener_client_count : gmap nat Z;
  w_max_connect_count : Z;
  w_default_bridge_keepalive : Z;
  w_broker_certs : list string;
  w_env : env }.
#[export] Instance eta_world `{Env} : Eta world := λ r,
  mk_world _ (w_ctxs r) (w_stores r) (w_last_db_id r) (w_subs r) (w_contexts r)
    (w_clientid_index_hash r) (w_msg_store r) (w_msg_store_count r) (w_config r)
    (w_subscription_count r) (w_retained_count r) (w_max_inflight r) (w_max_queued r)
    (w_max_packet_buffer_size r) (w_canonical_client_id_index_hash r) (w_new_msgs_hash r)
    (w_new_client r) (w_new_clients_hash r) (w_pending_bytes_hash r) (w_sessions_to_clean r)
    (w_listener_client_count r) (w_max_connect_count r) (w_default_bridge_keepalive r)
    (w_broker_certs r) (w_env r).

(** ** Access to the state *)

Section access.
Context `{Env}.

Definition M (A : Type) : Type := ST world A.

(** A call of the environment. *)
Definition ext {A} (f : env → A * env) : ST world A := λ w,
  let '(a, e) := f (w_env w) in Some (a, w <| w_env := e |>).
Definition ext_ (f : env → env) : ST world () := modify (λ w, w <| w_env ::= f |>).

Definition mosquitto_time : ST world Z := ext env_time.

(** Reading and writing through a [struct mosquitto *]. *)
Definition ctx_get (p : ctxid) : ST world mosquitto := deref (λ w, w_ctxs w !! p).
Definition ctx_upd (p : ctxid) (f : mosquitto → mosquitto) : ST world () :=
  c ← ctx_get p; modify (λ w, w <| w_ctxs ::= <[p := f c]> |>).

(** Reading and writing through a [struct mosquitto_msg_store *]. *)
Definition store_get (s : storeid) : ST world msg_store := deref (λ w, w_stores w !! s).
Definition store_upd (s : storeid) (f : msg_store → msg_store) : ST world () :=
  m ← store_get s; modify (λ w, w <| w_stores ::= <[s := f m]> |>).

Lemma wp_ext {A} (f : env → A * env) (Q : A → world → Prop) w :
  (∀ a e, f (w_env w) = (a, e) → Q a (w <| w_env := e |>)) → wp (ext f) Q w.
Proof. unfold wp, ext. destruct (f (w_env w)). eauto. Qed.

Lemma wp_ext_ (f : env → env) (Q : () → world → Prop) w :
  Q tt (w <| w_env ::= f |>) → wp (ext_ f) Q w.
Proof. done. Qed.

Lemma wp_ctx_get p c (Q : mosquitto → world → Prop) w :
  w_ctxs w !! p = Some c → Q c w → wp (ctx_get p) Q w.
Proof. intros. by eapply wp_deref. Qed.

Lemma wp_ctx_upd p c f (Q : () → world → Prop) w :
  w_ctxs w !! p = Some c → Q tt (w <| w_ctxs ::= <[p := f c]> |>) → wp (ctx_upd p f) Q w.
Proof. intros. unfold ctx_upd. wp_steps. by eapply wp_ctx_get. Qed.

Lemma wp_store_get s m (Q : msg_store → world → Prop) w :
  w_stores w !! s = Some m → Q m w → wp (store_get s) Q w.
Proof. intros. by eapply wp_deref. Qed.

Lemma wp_store_upd s m f (Q : () → world → Prop) w :
  w_stores w !! s = Some m → Q tt (w <| w_stores ::= <[s := f m]> |>) → wp (store_upd s f) Q w.
Proof. intros. unfold store_upd. wp_steps. by eapply wp_store_get. Qed.
End access.
