(* ===== verification/Packet.v ===== *)
(** * Packets

    The packet buffer of [lib/net_mosq.c] (reading and writing bytes, the
    output queue, the non-blocking writer), the fixed-header encoding of
    [lib/util_mosq.c] and the functions that build the MQTT packets in
    [lib/send_mosq.c], [lib/send_client_mosq.c] and [src/send_server.c]. *)

From S2P Require Import Prelude Topic State.
From stdpp Require Import options.

Definition CONNECT : Z := 0x10.
Definition CONNACK : Z := 0x20.
Definition PUBLISH : Z := 0x30.
Definition PUBACK : Z := 0x40.
Definition PUBREC : Z := 0x50.
Definition PUBREL : Z := 0x60.
Definition PUBCOMP : Z := 0x70.
Definition SUBSCRIBE : Z := 0x80.
Definition SUBACK : Z := 0x90.
Definition UNSUBSCRIBE : Z := 0xA0.
Definition UNSUBACK : Z := 0xB0.
Definition PINGREQ : Z := 0xC0.
Definition PINGRESP : Z := 0xD0.
Definition DISCONNECT : Z := 0xE0.

Definition PROTOCOL_NAME_v31 : string := "MQIsdp".
Definition PROTOCOL_VERSION_v31 : Z := 3.
Definition PROTOCOL_NAME_v311 : string := "MQTT".
Definition PROTOCOL_VERSION_v311 : Z := 4.

(** ** Bytes and C strings *)

Definition byte_of_ascii (c : ascii) : Z := Z.of_N (N_of_ascii c).
Definition ascii_of_byte (b : Z) : ascii := ascii_of_N (Z.to_N b).

Fixpoint str_bytes (s : string) : list Z :=
  match s with EmptyString => [] | String c s' => byte_of_ascii c :: str_bytes s' end.

(** The memory behind a [char *]: the characters and the terminating NUL. *)
Definition cstr_bytes (s : string) : list Z := str_bytes s ++ [0].

(** The C string at the start of a buffer: the bytes before the first NUL. *)
Fixpoint cstr_of_bytes (bs : list Z) : string :=
  match bs with
  | [] => EmptyString
  | b :: bs' => if b =? 0 then EmptyString else String (ascii_of_byte b) (cstr_of_bytes bs')
  end.

(** [MOSQ_MSB], [MOSQ_LSB]. *)
Definition MOSQ_MSB (a : Z) : Z := u8 (Z.shiftr (Z.land a 0xFF00) 8).
Definition MOSQ_LSB (a : Z) : Z := u8 (Z.land a 0x00FF).

(** Whether the [while] loop around the caller goes on or the function
    returns a code. *)
Inductive flow := Continue | Return (rc : Z).

(** ** The packet buffer *)

Module Buffer.

(** [&payload[pos]] for [len] bytes; [None] when the access leaves the buffer. *)
Definition slice (p : packet) (pos len : Z) : option (list Z) :=
  match p_payload p with
  | Some bs =>
    if (0 <=? pos) && (0 <=? len) && (pos + len <=? Z.of_nat (length bs))
    then Some (take (Z.to_nat len) (drop (Z.to_nat pos) bs)) else None
  | None => None
  end.

(** [memcpy(&payload[pos], bs, length)]; [None] when the access leaves the buffer. *)
Definition blit (p : packet) (pos : Z) (bs : list Z) : option packet :=
  match p_payload p with
  | Some buf =>
    if (0 <=? pos) && (pos + Z.of_nat (length bs) <=? Z.of_nat (length buf))
    then Some (p <| p_payload := Some (take (Z.to_nat pos) buf ++ bs
                                  ++ drop (Z.to_nat pos + length bs) buf) |>)
    else None
  | None => None
  end.

Definition read_at (pos len : Z) : ST packet (list Z) := deref (λ p, slice p pos len).
Definition write_at (pos : Z) (bs : list Z) : ST packet () := λ p,
  match blit p pos bs with Some p' => Some (tt, p') | None => None end.

Definition _mosquitto_packet_cleanup (p : packet) : packet :=
  p <| p_command := 0 |> <| p_have_remaining := 0 |> <| p_remaining_count := 0 |>
    <| p_remaining_mult := 1 |> <| p_remaining_length := 0 |> <| p_payload := None |>
    <| p_to_process := 0 |> <| p_pos := 0 |>.

(** A read returns [inl rc] on an error code and [inr v] on success. *)
Definition _mosquitto_read_byte : ST packet (Z + Z) :=
  pos ← gets p_pos; rl ← gets p_remaining_length;
  if rl <? u32 (pos + 1) then mret (inl MOSQ_ERR_PROTOCOL)
  else
    bs ← read_at pos 1;
    modify (λ p, p <| p_pos := u32 (pos + 1) |>);;
    mret (inr (default 0 (head bs))).

Definition _mosquitto_read_bytes (count : Z) : ST packet (Z + list Z) :=
  pos ← gets p_pos; rl ← gets p_remaining_length;
  if rl <? u32 (pos + count) then mret (inl MOSQ_ERR_PROTOCOL)
  else
    bs ← read_at pos count;
    modify (λ p, p <| p_pos := u32 (pos + count) |>);;
    mret (inr bs).

Definition _mosquitto_read_uint16 : ST packet (Z + Z) :=
  pos ← gets p_pos; rl ← gets p_remaining_length;
  if rl <? u32 (pos + 2) then mret (inl MOSQ_ERR_PROTOCOL)
  else
    msb ← read_at pos 1;
    modify (λ p, p <| p_pos := u32 (pos + 1) |>);;
    lsb ← read_at (u32 (pos + 1)) 1;
    modify (λ p, p <| p_pos := u32 (pos + 2) |>);;
    mret (inr (u16 (Z.shiftl (default 0 (head msb)) 8 + default 0 (head lsb)))).

(** The [len+1] zeroed bytes the string is copied into end the C string at its
    first NUL. *)
Definition _mosquitto_read_string : ST packet (Z + string) :=
  r ← _mosquitto_read_uint16;
  match r with
  | inl rc => mret (inl rc)
  | inr len =>
    pos ← gets p_pos; rl ← gets p_remaining_length;
    if rl <? u32 (pos + len) then mret (inl MOSQ_ERR_PROTOCOL)
    else
      bs ← read_at pos len;
      modify (λ p, p <| p_pos := u32 (pos + len) |>);;
      mret (inr (cstr_of_bytes bs))
  end.

Definition _mosquitto_write_byte (byte : Z) : ST packet () :=
  pos ← gets p_pos; pl ← gets p_packet_length;
  assert_ (u32 (pos + 1) <=? pl);;
  write_at pos [byte];;
  modify (λ p, p <| p_pos := u32 (pos + 1) |>).

Definition _mosquitto_write_bytes (bytes : list Z) (count : Z) : ST packet () :=
  pos ← gets p_pos; pl ← gets p_packet_length;
  assert_ (u32 (pos + count) <=? pl);;
  assert_ (count <=? Z.of_nat (length bytes));;
  write_at pos (take (Z.to_nat count) bytes);;
  modify (λ p, p <| p_pos := u32 (pos + count) |>).

Definition _mosquitto_write_uint16 (word : Z) : ST packet () :=
  _mosquitto_write_byte (MOSQ_MSB word);; _mosquitto_write_byte (MOSQ_LSB word).

(** [str] is the memory the pointer addresses. *)
Definition _mosquitto_write_string (str : list Z) (length : Z) : ST packet () :=
  _mosquitto_write_uint16 length;;
  _mosquitto_write_bytes str length.

(** The [do .. while] loop of [_mosquitto_packet_alloc] that encodes the
    remaining length; [n] iterations are left. *)
Fixpoint remaining_bytes_loop (n : nat) (remaining_length : Z) : list Z :=
  match n with
  | O => []
  | S n' =>
    let byte := u8 (remaining_length mod 128) in
    let remaining_length' := remaining_length / 128 in
    if 0 <? remaining_length' then Z.lor byte 0x80 :: remaining_bytes_loop n' remaining_length'
    else [byte]
  end.

(** [_mosquitto_packet_alloc]: the return code and the packet afterwards. The
    bytes behind the fixed header are not initialised by the code; they read
    as 0 here. *)
Definition _mosquitto_packet_alloc (p : packet) : Z * packet :=
  let remaining_bytes := remaining_bytes_loop 5 (p_remaining_length p) in
  let count := Z.of_nat (length remaining_bytes) in
  let p := p <| p_payload := None |> <| p_remaining_count := count |> in
  if count =? 5 then (MOSQ_ERR_PAYLOAD_SIZE, p)
  else
    let pl := u32 (p_remaining_length p + 1 + count) in
    let header := p_command p :: remaining_bytes in
    (MOSQ_ERR_SUCCESS,
     p <| p_packet_length := pl |>
       <| p_payload := Some (header ++ replicate (Z.to_nat pl - length header) 0) |>
       <| p_pos := 1 + count |>).

(** One byte of the remaining length arriving in [_mosquitto_packet_read]. *)
Definition remaining_step (k : packet) (byte : Z) : flow * packet :=
  let k := k <| p_remaining_count ::= λ n, u8 (n + 1) |> in
  if 4 <? p_remaining_count k then (Return MOSQ_ERR_PROTOCOL, k)
  else (Continue,
        k <| p_remaining_length := u32 (p_remaining_length k + Z.land byte 127 * p_remaining_mult k) |>
          <| p_remaining_mult := u32 (p_remaining_mult k * 128) |>).

End Buffer.
Export Buffer.

(** ** The output queue and the writer *)

Definition EPOLLIN : Z := 0x1.
Definition EPOLLOUT : Z := 0x4.
Definition EPOLLRDHUP : Z := 0x2000.

Section writer.
Context `{Env}.

(** [mosquitto_update_context] ([src/loop.c]): register the context's events. *)
Definition mosquitto_update_context (ctx_idx : Z) (p : ctxid) : ST world () :=
  c ← ctx_get p;
  let events := Z.lor (Z.lor EPOLLIN EPOLLRDHUP) (if c_current_out_packet c then EPOLLOUT else 0) in
  if events =? c_epoll_events c then mret tt
  else ext_ (env_epoll_set (c_sock c) ctx_idx events);; ctx_upd p (λ c, c <| c_epoll_events := events |>).

(** [_mosquitto_net_write]: the result and [errno]. *)
Definition _mosquitto_net_write (p : ctxid) (buf : list Z) : ST world (Z * Z) :=
  c ← ctx_get p;
  if c_ssl c then
    r ← ext (env_ssl_write (c_sock c) buf);
    if fst r <? 0 then
      match snd r with
      | ssl_want_read => mret (-1, EAGAIN)
      | ssl_want_write => ctx_upd p (λ c, c <| c_want_write := true |>);; mret (-1, EAGAIN)
      | ssl_other => mret (fst r, EPROTO)
      end
    else mret (fst r, 0)
  else ext (env_write (c_sock c) buf).

(** Advance [current_out_packet] by [n] bytes. *)
Definition out_advance (p : ctxid) (n : Z) : ST world () :=
  ctx_upd p (λ c, c <| c_current_out_packet ::= fmap (λ k,
    k <| p_to_process := u32 (p_to_process k - n) |> <| p_pos := u32 (p_pos k + n) |>) |>).

(** One pass through the inner loop of [_mosquitto_packet_write] for the
    packet [k] at the head: a call of the transport and what follows it. *)
Definition packet_write_step (p : ctxid) (k : packet) : ST world flow :=
  c ← ctx_get p;
  buf ← deref (λ _, slice k (p_pos k) (p_to_process k));
  if c_wsi c then
    n ← ext (env_ws_write p buf);
    if 0 <? n then out_advance p (p_to_process k);; mret Continue
    else if n =? 0 then out_advance p (p_to_process k);; mret (Return MOSQ_ERR_SUCCESS)
    else mret (Return MOSQ_ERR_ERRNO)
  else
    r ← _mosquitto_net_write p buf;
    let '(n, errno) := r in
    if 0 <? n then out_advance p n;; mret Continue
    else if errno =? EAGAIN then
      mosquitto_update_context (c_numericId c) p;; mret (Return MOSQ_ERR_SUCCESS)
    else mret (Return (if errno =? ECONNRESET then MOSQ_ERR_CONN_LOST else MOSQ_ERR_ERRNO)).

(** [while(packet->to_process > 0)]. *)
Fixpoint packet_write_inner (fuel : nat) (p : ctxid) : ST world flow :=
  c ← ctx_get p;
  k ← deref (λ _, c_current_out_packet c);
  if p_to_process k <=? 0 then mret Continue
  else match fuel with
       | O => ub
       | S fuel' =>
         r ← packet_write_step p k;
         match r with Continue => packet_write_inner fuel' p | Return rc => mret (Return rc) end
       end.

(** The next packet becomes the current one. *)
Definition next_out_packet (c : mosquitto) : mosquitto :=
  c <| c_current_out_packet := head (c_out_packet c) |> <| c_out_packet := tail (c_out_packet c) |>.

(** [while(mosq->current_out_packet)]. *)
Fixpoint packet_write_outer (fuel : nat) (p : ctxid) : ST world Z :=
  c ← ctx_get p;
  match c_current_out_packet c with
  | None => mret MOSQ_ERR_SUCCESS
  | Some k =>
    match fuel with
    | O => ub
    | S fuel' =>
      r ← packet_write_inner (Z.to_nat (p_to_process k)) p;
      match r with
      | Return rc => mret rc
      | Continue =>
        ctx_upd p (λ c, next_out_packet c <| c_packet_count := u64 (c_packet_count c - 1) |>);;
        t ← mosquitto_time;
        ctx_upd p (λ c, c <| c_last_msg_out := t |>);;
        packet_write_outer fuel' p
      end
    end
  end.

Definition _mosquitto_packet_write (p : ctxid) : ST world Z :=
  c ← ctx_get p;
  if is_context_invalid c then mret MOSQ_ERR_NO_CONN
  else
    (match c_out_packet c, c_current_out_packet c with
     | _ :: _, None => ctx_upd p next_out_packet
     | _, _ => mret tt
     end);;
    packet_write_outer (S (length (c_out_packet c))) p.

Definition _mosquitto_packet_queue (p : ctxid) (k : packet) : ST world Z :=
  let k := k <| p_pos := 0 |> <| p_to_process := p_packet_length k |> in
  ctx_upd p (λ c, c <| c_out_packet := c_out_packet c ++ [k] |>
                    <| c_packet_count := u64 (c_packet_count c + 1) |>);;
  c ← ctx_get p;
  if c_wsi c then ext_ (env_ws_callback p);; mret 0
  else _mosquitto_packet_write p.
End writer.

(** ** Building the MQTT packets *)

(** [b ? 1 : 0]. *)
Definition b2z (b : bool) : Z := if b then 1 else 0.

Section senders.
Context `{Env}.

(** The shape every sender shares: a zeroed packet with its header fields,
    [_mosquitto_packet_alloc], the body written into the buffer, and
    [_mosquitto_packet_queue]. *)
Definition send_packet (p : ctxid) (command remaining_length mid : Z) (body : ST packet ()) : ST world Z :=
  c ← ctx_get p;
  let k := packet_zero <| p_command := u8 command |> <| p_remaining_length := u32 remaining_length |>
             <| p_mid := mid |> <| p_is_ws_packet := c_wsi c |> in
  let '(rc, k) := _mosquitto_packet_alloc k in
  if rc =? MOSQ_ERR_SUCCESS then
    r ← deref (λ _, body k);
    _mosquitto_packet_queue p (snd r)
  else mret rc.

(** The two bytes [payload[pos+0]], [payload[pos+1]]. *)
Definition write_two (a b : Z) : ST packet () :=
  pos ← gets p_pos; write_at pos [a];; write_at (pos + 1) [b].

Definition _mosquitto_send_command_with_mid (p : ctxid) (command mid : Z) (dup : bool) : ST world Z :=
  send_packet p (if dup then Z.lor command 8 else command) 2 0
    (write_two (MOSQ_MSB mid) (MOSQ_LSB mid)).

Definition _mosquitto_send_simple_command (p : ctxid) (command : Z) : ST world Z :=
  send_packet p command 0 0 (mret tt).

Definition _mosquitto_send_pingreq (p : ctxid) : ST world Z :=
  rc ← _mosquitto_send_simple_command p PINGREQ;
  if rc =? MOSQ_ERR_SUCCESS then
    t ← mosquitto_time; ctx_upd p (λ c, c <| c_ping_t := t |>);; mret rc
  else mret rc.

Definition _mosquitto_send_pingresp (p : ctxid) : ST world Z := _mosquitto_send_simple_command p PINGRESP.
Definition _mosquitto_send_puback (p : ctxid) (mid : Z) : ST world Z :=
  _mosquitto_send_command_with_mid p PUBACK mid false.
Definition _mosquitto_send_pubcomp (p : ctxid) (mid : Z) : ST world Z :=
  _mosquitto_send_command_with_mid p PUBCOMP mid false.
Definition _mosquitto_send_pubrec (p : ctxid) (mid : Z) : ST world Z :=
  _mosquitto_send_command_with_mid p PUBREC mid false.
Definition _mosquitto_send_pubrel (p : ctxid) (mid : Z) (dup : bool) : ST world Z :=
  _mosquitto_send_command_with_mid p (Z.lor PUBREL 2) mid dup.

(** [payload] is the memory behind the payload pointer ([None] for NULL). *)
Definition _mosquitto_send_real_publish (p : ctxid) (mid : Z) (topic : string) (payloadlen : Z)
    (payload : option (list Z)) (qos : Z) (retain dup : bool) : ST world Z :=
  let packetlen := 2 + strlen topic + payloadlen + (if 0 <? qos then 2 else 0) in
  send_packet p
    (Z.lor (Z.lor (Z.lor PUBLISH (Z.shiftl (b2z dup) 3)) (Z.shiftl qos 1)) (b2z retain)) packetlen mid
    (_mosquitto_write_string (cstr_bytes topic) (u16 (strlen topic));;
     (if 0 <? qos then _mosquitto_write_uint16 mid else mret tt);;
     (if payloadlen =? 0 then mret tt
      else bytes ← deref (λ _, payload); _mosquitto_write_bytes bytes payloadlen)).

(** Removing a prefix, as [strncmp] and the pointer arithmetic do. *)
Fixpoint strip_prefix (prefix s : string) : option string :=
  match prefix, s with
  | EmptyString, _ => Some s
  | String a prefix', String b s' => if Ascii.eqb a b then strip_prefix prefix' s' else None
  | String _ _, EmptyString => None
  end.

(** The renaming a bridge topic asks for: take [remove] off, put [add] on. *)
Definition remap_topic (remove add : option string) (topic : string) : string :=
  let topic := match remove with
               | Some pre => default topic (strip_prefix pre topic)
               | None => topic end in
  match add with Some pre => pre +:+ topic | None => topic end.

(** The [for] loop of [_mosquitto_send_publish] over the bridge's topics:
    the first topic that applies and matches renames the message. [match_]
    is the uninitialised result variable of the source. *)
Fixpoint map_local_topic (topics : list bridge_topic) (match_ : bool) (topic : string) : string :=
  match topics with
  | [] => topic
  | t :: topics' =>
    if bool_decide (bt_direction t = bd_both ∨ bt_direction t = bd_out)
       && bool_decide (is_Some (bt_remote_prefix t) ∨ is_Some (bt_local_prefix t)) then
      let m := mosquitto_topic_matches_sub (bt_local_topic t) topic match_ in
      if m then remap_topic (bt_local_prefix t) (bt_remote_prefix t) topic
      else map_local_topic topics' m topic
    else map_local_topic topics' match_ topic
  end.

(** The topic the receiver sees: a bridge may rename it. *)
Definition wire_topic (c : mosquitto) (topic : string) : string :=
  match c_bridge c with
  | Some b => if b_topic_remapping b then map_local_topic (b_topics b) false topic else topic
  | None => topic
  end.

Definition _mosquitto_send_publish (p : ctxid) (mid : Z) (topic : string) (payloadlen : Z)
    (payload : option (list Z)) (qos : Z) (retain dup : bool) : ST world Z :=
  c ← ctx_get p;
  if is_context_invalid c then mret MOSQ_ERR_NO_CONN
  else
    _mosquitto_send_real_publish p mid (wire_topic c topic) payloadlen payload qos retain dup.

(** [_mosquitto_mid_generate]: the next message id, skipping 0. *)
Definition mid_next (last_mid : Z) : Z :=
  let m := u16 (last_mid + 1) in if m =? 0 then u16 (m + 1) else m.
Definition _mosquitto_mid_generate (p : ctxid) : ST world Z :=
  ctx_upd p (λ c, c <| c_last_mid ::= mid_next |>);;
  c ← ctx_get p; mret (c_last_mid c).

(** *** [src/send_server.c] *)

Definition _mosquitto_send_connack (p : ctxid) (result : Z) : ST world Z :=
  send_packet p CONNACK 2 0 (write_two 0 (u8 result)).

Definition _mosquitto_send_suback (p : ctxid) (mid : Z) (payload : list Z) : ST world Z :=
  let payloadlen := Z.of_nat (length payload) in
  send_packet p SUBACK (2 + payloadlen) 0
    (_mosquitto_write_uint16 mid;;
     if payloadlen =? 0 then mret tt else _mosquitto_write_bytes payload payloadlen).

(** *** [lib/send_client_mosq.c] *)

Definition _mosquitto_send_connect (p : ctxid) (keepalive : Z) (clean_session : bool) : ST world Z :=
  c ← ctx_get p;
  id ← deref (λ _, c_id c);
  will ← (match c_will c with
          | None => mret None
          | Some w => topic ← deref (λ _, msg_topic w); mret (Some (w, topic))
          end);
  let payloadlen := 2 + strlen id
    + match will with Some (w, topic) => 2 + strlen topic + 2 + msg_payloadlen w | None => 0 end in
  let version := match c_bridge c with
                 | Some b => if b_try_private b && b_try_private_accepted b
                             then Z.lor PROTOCOL_VERSION_v31 0x80 else PROTOCOL_VERSION_v31
                 | None => PROTOCOL_VERSION_v31 end in
  let byte := Z.lor (Z.shiftl (b2z clean_session) 1)
    match will with
    | Some (w, _) => Z.lor (Z.lor (Z.shiftl (b2z (msg_retain w)) 5)
                                  (Z.shiftl (Z.land (msg_qos w) 3) 3)) (Z.shiftl 1 2)
    | None => 0 end in
  let body :=
    _mosquitto_write_string (cstr_bytes PROTOCOL_NAME_v31) (strlen PROTOCOL_NAME_v31);;
    _mosquitto_write_byte version;;
    _mosquitto_write_byte byte;;
    _mosquitto_write_uint16 keepalive;;
    _mosquitto_write_string (cstr_bytes id) (u16 (strlen id));;
    match will with
    | Some (w, topic) =>
      _mosquitto_write_string (cstr_bytes topic) (u16 (strlen topic));;
      _mosquitto_write_string (default [] (msg_payload w)) (u16 (msg_payloadlen w))
    | None => mret tt
    end in
  let k := packet_zero <| p_command := CONNECT |> <| p_remaining_length := u32 (12 + payloadlen) |>
             <| p_is_ws_packet := c_wsi c |> in
  let '(rc, k) := _mosquitto_packet_alloc k in
  if rc =? MOSQ_ERR_SUCCESS then
    r ← deref (λ _, body k);
    ctx_upd p (λ c, c <| c_keepalive := keepalive |>);;
    _mosquitto_packet_queue p (snd r)
  else mret rc.

Definition _mosquitto_send_disconnect (p : ctxid) : ST world Z := _mosquitto_send_simple_command p DISCONNECT.

(** Shared by [_mosquitto_send_subscribe] and [_mosquitto_send_unsubscribe]:
    the message id is generated after the buffer is allocated. *)
Definition send_sub_packet (p : ctxid) (command packetlen : Z) (body : Z → ST packet ()) : ST world Z :=
  c ← ctx_get p;
  let k := packet_zero <| p_command := command |> <| p_remaining_length := u32 packetlen |>
             <| p_is_ws_packet := c_wsi c |> in
  let '(rc, k) := _mosquitto_packet_alloc k in
  if rc =? MOSQ_ERR_SUCCESS then
    local_mid ← _mosquitto_mid_generate p;
    r ← deref (λ _, body local_mid k);
    _mosquitto_packet_queue p (snd r)
  else mret rc.

Definition _mosquitto_send_subscribe (p : ctxid) (dup : bool) (topic : string) (topic_qos : Z) : ST world Z :=
  send_sub_packet p (Z.lor (Z.lor SUBSCRIBE (Z.shiftl (b2z dup) 3)) (Z.shiftl 1 1))
    (2 + 2 + strlen topic + 1)
    (λ local_mid, _mosquitto_write_uint16 local_mid;;
      _mosquitto_write_string (cstr_bytes topic) (u16 (strlen topic));;
      _mosquitto_write_byte topic_qos).

Definition _mosquitto_send_unsubscribe (p : ctxid) (dup : bool) (topic : string) : ST world Z :=
  send_sub_packet p (Z.lor (Z.lor UNSUBSCRIBE (Z.shiftl (b2z dup) 3)) (Z.shiftl 1 1))
    (2 + 2 + strlen topic)
    (λ local_mid, _mosquitto_write_uint16 local_mid;;
      _mosquitto_write_string (cstr_bytes topic) (u16 (strlen topic))).
End senders.
