(* ===== verification/PacketProofs.v ===== *)
(** * Packets: the wire format

    The fixed header encodes every length below 2^28 and decodes back; the
    builders lay their fields out as the MQTT format says and never leave
    their buffer; what they write, the readers read back. *)

From S2P Require Import Prelude Topic State Packet.
From stdpp Require Import options.

(** ** The remaining length *)

Module RemainingLength.

(** The receiving loop on a list of bytes: [do { .. } while(byte & 128)]. The
    result is the code or the packet, and the bytes not consumed. *)
Fixpoint decode (bytes : list Z) (k : packet) : option ((Z + packet) * list Z) :=
  match bytes with
  | [] => None
  | b :: bytes' =>
    match remaining_step k b with
    | (Return rc, _) => Some (inl rc, bytes')
    | (Continue, k') => if Z.land b 128 =? 0 then Some (inr k', bytes') else decode bytes' k'
    end
  end.

(** Facts about one digit, checked on all 128 of them. *)
Definition digit_ok (d : Z) : bool :=
  (Z.lor d 0x80 =? d + 128) && (Z.land (d + 128) 128 =? 128) && (Z.land d 128 =? 0)
  && (Z.land d 127 =? d) && (Z.land (d + 128) 127 =? d).

Lemma digits_ok d : 0 <= d < 128 →
  Z.lor d 0x80 = d + 128 ∧ Z.land (d + 128) 128 = 128 ∧ Z.land d 128 = 0
  ∧ Z.land d 127 = d ∧ Z.land (d + 128) 127 = d.
Proof.
  intros Hd. assert (forallb digit_ok (seqZ 0 128) = true) as Hall by (by vm_compute).
  rewrite forallb_forall in Hall. specialize (Hall d).
  rewrite <- list_elem_of_In, elem_of_seqZ in Hall. unfold digit_ok in Hall. lia.
Qed.

(** The packet after [c] digits that add up to [len]. *)
Definition after (k : packet) (c len : Z) : packet :=
  k <| p_remaining_count := c |> <| p_remaining_length := len |> <| p_remaining_mult := 128 ^ c |>.

Lemma step_after k c len b d :
  0 <= c < 4 → Z.land b 127 = d → 0 <= d < 128 → 0 <= len → len + d * 128 ^ c < 2 ^ 28 →
  remaining_step (after k c len) b = (Continue, after k (c + 1) (len + d * 128 ^ c)).
Proof.
  intros Hc Hb Hd Hl Hs. unfold remaining_step, after; cbn.
  rewrite Hb, (u8_id (c + 1)) by lia.
  destruct (Z.ltb_spec 4 (c + 1)); [lia|].
  assert (0 < 128 ^ c) by (apply Z.pow_pos_nonneg; lia).
  assert (128 ^ c <= 128 ^ 3) by (apply Z.pow_le_mono_r; lia).
  change (128 ^ 3) with 2097152 in *. change (2 ^ 28) with 268435456 in *.
  rewrite (u32_id (len + _)), (u32_id (_ * 128)) by nia.
  by rewrite Z.pow_add_r, Z.pow_1_r by lia.
Qed.

Lemma decode_loop n k len rl rest :
  (2 <= n <= 5)%nat → let c := 5 - Z.of_nat n in
  0 <= rl < 128 ^ (4 - c) → 0 <= len → len + rl * 128 ^ c < 2 ^ 28 →
  decode (remaining_bytes_loop n rl ++ rest) (after k c len) =
  Some (inr (after k (c + Z.of_nat (length (remaining_bytes_loop n rl))) (len + rl * 128 ^ c)), rest).
Proof.
  revert rl len. induction n as [|n IH]; intros rl len Hn c Hrl Hlen Hs; [lia|].
  assert (0 < 128 ^ c) as Hpos by (apply Z.pow_pos_nonneg; lia).
  pose proof (Z.div_mod rl 128 ltac:(lia)) as Hdm.
  pose proof (Z.mod_pos_bound rl 128 ltac:(lia)) as Hm.
  destruct (digits_ok (rl mod 128) Hm) as (Hor & H128 & H0 & H127 & H127').
  cbn [remaining_bytes_loop]. rewrite (u8_id (rl mod 128)) by lia. rewrite Hor.
  destruct (Z.ltb_spec 0 (rl / 128)) as [Hgt|Hle]; cbn [app decode].
  - rewrite (step_after k c len _ (rl mod 128)), H128 by (done || nia). cbn [Z.eqb].
    assert (128 ^ 1 < 128 ^ (4 - c)) as Hlt by (change (128 ^ 1) with 128; lia).
    apply Z.pow_lt_mono_r_iff in Hlt; [|lia..].
    replace (c + 1) with (5 - Z.of_nat n) by lia. rewrite IH; [| lia | | nia |].
    + cbn [length].
      assert (len + rl mod 128 * 128 ^ c + rl / 128 * 128 ^ (5 - Z.of_nat n) = len + rl * 128 ^ c) as ->.
      { replace (5 - Z.of_nat n) with (c + 1) by lia. rewrite Z.pow_add_r, Z.pow_1_r by lia. nia. }
      do 4 f_equal. lia.
    + split; [lia|]. apply Z.div_lt_upper_bound; [lia|].
      replace (4 - (5 - Z.of_nat n)) with (4 - c - 1) by lia.
      rewrite <- Z.pow_succ_r by lia. replace (Z.succ (4 - c - 1)) with (4 - c) by lia. lia.
    + replace (5 - Z.of_nat n) with (c + 1) by lia. rewrite Z.pow_add_r, Z.pow_1_r by lia. nia.
  - assert (rl mod 128 = rl) as Hrm by (apply Z.mod_small; nia). rewrite Hrm in *.
    rewrite (step_after k c len _ rl), H0 by (done || nia). done.
Qed.

Lemma remaining_bytes_short n : 0 <= n < 2 ^ 28 → (length (remaining_bytes_loop 5 n) <= 4)%nat.
Proof.
  intros Hn. assert (n / 128 / 128 / 128 / 128 = 0) as Hz.
  { rewrite !Z.div_div by lia. apply Z.div_small. lia. }
  cbn [remaining_bytes_loop]. rewrite Hz. repeat case_match; cbn; lia.
Qed.

Lemma remaining_bytes_long n : 2 ^ 28 <= n → length (remaining_bytes_loop 5 n) = 5%nat.
Proof.
  intros Hn. cbn [remaining_bytes_loop].
  assert (1 <= n / 128 / 128 / 128 / 128) as Hz.
  { rewrite !Z.div_div by lia. apply Z.div_le_lower_bound; lia. }
  assert (∀ x, 1 <= x / 128 → 1 <= x) as Hx.
  { intros x Hx. pose proof (Z.div_mod x 128). pose proof (Z.mod_pos_bound x 128). lia. }
  pose proof (Hx _ Hz) as H3. pose proof (Hx _ H3) as H2. pose proof (Hx _ H2) as H1.
  repeat case_match; cbn; lia.
Qed.

End RemainingLength.

(** For every remaining length below 2^28, the digits
    [_mosquitto_packet_alloc] writes are at most four and the loop of
    [_mosquitto_packet_read], started on a clean packet, reads the same length
    back from them and stops exactly behind them. *)
Theorem remaining_length_roundtrip n k rest :
  0 <= n < 2 ^ 28 →
  (length (remaining_bytes_loop 5 n) <= 4)%nat ∧
  ∃ k', RemainingLength.decode (remaining_bytes_loop 5 n ++ rest) (_mosquitto_packet_cleanup k)
        = Some (inr k', rest) ∧ p_remaining_length k' = n.
Proof.
  intros Hn. split; [by apply RemainingLength.remaining_bytes_short|].
  pose proof (RemainingLength.decode_loop 5 (_mosquitto_packet_cleanup k) 0 n rest) as Hd.
  cbn -[RemainingLength.decode remaining_bytes_loop Z.pow] in Hd.
  change (128 ^ (4 - (5 - Z.of_nat 5))) with (2 ^ 28) in Hd.
  eexists. split; [apply Hd; lia|]. cbn. lia.
Qed.

Lemma remaining_length_roundtrip_witness :
  remaining_bytes_loop 5 321 = [193; 2] ∧
  (length (remaining_bytes_loop 5 321) <= 4)%nat ∧
  ∃ k', RemainingLength.decode (remaining_bytes_loop 5 321 ++ [7]) (_mosquitto_packet_cleanup packet_zero)
        = Some (inr k', [7]) ∧ p_remaining_length k' = 321.
Proof. split; [by vm_compute|]. apply remaining_length_roundtrip. lia. Defined.

(** ** Writing into the buffer *)

(** [m] writes the bytes [bs] at the current position and moves behind them. *)
Definition writes (m : ST packet ()) (bs : list Z) : Prop :=
  ∀ k pre junk,
    p_payload k = Some (pre ++ junk) → p_pos k = Z.of_nat (length pre) →
    p_packet_length k = Z.of_nat (length (pre ++ junk)) → p_packet_length k < 2 ^ 32 →
    (length bs <= length junk)%nat →
    m k = Some (tt, k <| p_payload := Some (pre ++ bs ++ drop (length bs) junk) |>
                      <| p_pos := Z.of_nat (length pre + length bs) |>).

Lemma writes_ret : writes (mret tt) [].
Proof.
  intros k pre junk Hp Hpos _ _ _. unfold mret, st_ret. cbn.
  rewrite drop_0, Nat.add_0_r, <- Hp, <- Hpos. by destruct k.
Qed.

Lemma writes_seq m1 m2 bs1 bs2 : writes m1 bs1 → writes m2 bs2 → writes (m1;; m2) (bs1 ++ bs2).
Proof.
  intros H1 H2 k pre junk Hp Hpos Hlen Hlt Hle. rewrite length_app in Hle.
  unfold mbind, st_bind. rewrite (H1 k pre junk) by (done || lia).
  rewrite (H2 _ (pre ++ bs1) (drop (length bs1) junk)); cbn.
  - rewrite drop_drop, !length_app, <- !app_assoc, Nat.add_assoc. done.
  - by rewrite app_assoc.
  - by rewrite length_app.
  - rewrite Hlen, !length_app, length_drop. lia.
  - done.
  - rewrite length_drop. lia.
Qed.

Lemma blit_spec k pre junk bs :
  p_payload k = Some (pre ++ junk) → (length bs <= length junk)%nat →
  blit k (Z.of_nat (length pre)) bs = Some (k <| p_payload := Some (pre ++ bs ++ drop (length bs) junk) |>).
Proof.
  intros Hp Hle. unfold blit. rewrite Hp, length_app, Nat2Z.id.
  destruct (Z.leb_spec 0 (Z.of_nat (length pre))); [|lia].
  destruct (Z.leb_spec (Z.of_nat (length pre) + Z.of_nat (length bs)) (Z.of_nat (length pre + length junk)));
    [|lia]. simpl. by rewrite take_app_length, drop_app_add.
Qed.

(** A write of [bs] whose assertion and bookkeeping are those of the source. *)
Lemma writes_at (n : Z) bs :
  n = Z.of_nat (length bs) →
  writes (pos ← gets p_pos; pl ← gets p_packet_length; assert_ (u32 (pos + n) <=? pl);;
          write_at pos bs;; modify (λ p, p <| p_pos := u32 (pos + n) |>)) bs.
Proof.
  intros -> k pre junk Hp Hpos Hlen Hlt Hle. unfold mbind, st_bind, gets, modify, write_at.
  rewrite Hpos, Hlen in *. rewrite length_app in *. rewrite u32_id by lia.
  destruct (Z.leb_spec (Z.of_nat (length pre) + Z.of_nat (length bs)) (Z.of_nat (length pre + length junk)));
    [|lia]. simpl. rewrite (blit_spec k pre junk bs) by done. simpl. by rewrite Nat2Z.inj_add.
Qed.

Lemma writes_byte b : writes (_mosquitto_write_byte b) [b].
Proof. by apply (writes_at 1). Qed.

Lemma writes_bytes bs n :
  0 <= n <= Z.of_nat (length bs) → writes (_mosquitto_write_bytes bs n) (take (Z.to_nat n) bs).
Proof.
  intros Hn k pre junk Hp Hpos Hlen Hlt Hle.
  pose proof (writes_at n (take (Z.to_nat n) bs)) as Hw. rewrite length_take in Hw.
  specialize (Hw ltac:(lia) k pre junk Hp Hpos Hlen Hlt). rewrite length_take in *.
  specialize (Hw ltac:(lia)). rewrite <- Hw.
  unfold _mosquitto_write_bytes, mbind, st_bind, gets, assert_.
  destruct (Z.leb_spec n (Z.of_nat (length bs))); [|lia].
  by destruct (u32 (p_pos k + n) <=? p_packet_length k).
Qed.

(** The big-endian bytes of a 16-bit word. *)
Definition word_bytes (w : Z) : list Z := [MOSQ_MSB w; MOSQ_LSB w].

Lemma writes_uint16 w : writes (_mosquitto_write_uint16 w) (word_bytes w).
Proof. apply (writes_seq _ _ [_] [_]); apply writes_byte. Qed.

Lemma writes_string bs n :
  0 <= n <= Z.of_nat (length bs) →
  writes (_mosquitto_write_string bs n) (word_bytes n ++ take (Z.to_nat n) bs).
Proof. intros Hn. apply writes_seq; [apply writes_uint16 | by apply writes_bytes]. Qed.

Lemma length_str_bytes s : Z.of_nat (length (str_bytes s)) = strlen s.
Proof. induction s as [|c s IH]; [done|]. rewrite strlen_cons. cbn. lia. Qed.

Lemma writes_cstr s :
  strlen s < 65536 →
  writes (_mosquitto_write_string (cstr_bytes s) (u16 (strlen s))) (word_bytes (strlen s) ++ str_bytes s).
Proof.
  intros Hs. pose proof (strlen_nonneg s). rewrite u16_id by lia.
  assert (take (Z.to_nat (strlen s)) (cstr_bytes s) = str_bytes s) as <-.
  { rewrite <- length_str_bytes, Nat2Z.id. unfold cstr_bytes. by rewrite take_app_length. }
  apply writes_string. unfold cstr_bytes. rewrite length_app, Nat2Z.inj_add, length_str_bytes. cbn. lia.
Qed.

Create HintDb wire.
#[export] Hint Resolve writes_ret writes_byte writes_uint16 writes_cstr : wire.

(** ** The packets on the wire *)

(** The MQTT frame: command byte, remaining length, body. *)
Definition frame (command : Z) (body : list Z) : list Z :=
  u8 command :: remaining_bytes_loop 5 (Z.of_nat (length body)) ++ body.

(** The packet handed to the output queue for a frame. *)
Definition framed (c : mosquitto) (command mid : Z) (body : list Z) (k : packet) : Prop :=
  p_payload k = Some (frame command body) ∧
  p_packet_length k = Z.of_nat (length (frame command body)) ∧
  p_command k = u8 command ∧ p_mid k = mid ∧ p_is_ws_packet k = c_wsi c.

Lemma packet_alloc_spec k n :
  p_remaining_length k = Z.of_nat n → Z.of_nat n < 2 ^ 28 →
  let rb := remaining_bytes_loop 5 (Z.of_nat n) in
  let len := S (length rb + n) in
  _mosquitto_packet_alloc k =
  (MOSQ_ERR_SUCCESS,
   k <| p_remaining_count := Z.of_nat (length rb) |>
     <| p_packet_length := Z.of_nat len |>
     <| p_payload := Some ((p_command k :: rb) ++ replicate n 0) |>
     <| p_pos := 1 + Z.of_nat (length rb) |>).
Proof.
  intros Hk Hn rb len. unfold _mosquitto_packet_alloc. rewrite Hk. fold rb.
  pose proof (RemainingLength.remaining_bytes_short (Z.of_nat n) ltac:(lia)) as Hs. fold rb in Hs.
  subst len. clearbody rb.
  destruct (Z.eqb_spec (Z.of_nat (length rb)) 5); [lia|]. cbn. rewrite Hk, u32_id by lia.
  replace (Z.to_nat (Z.of_nat n + 1 + Z.of_nat (length rb)) - S (length rb))%nat with n by lia.
  by replace (Z.of_nat n + 1 + Z.of_nat (length rb)) with (Z.of_nat (S (length rb + n))) by lia.
Qed.

Section wire.
Context `{Env}.

(** A body that fills the buffer: the frame reaches the output queue. *)
(** [m] puts [bs] at the position and changes no other field but the position. *)
Definition fills (m : ST packet ()) (bs : list Z) : Prop :=
  ∀ k pre junk,
    p_payload k = Some (pre ++ junk) → p_pos k = Z.of_nat (length pre) →
    p_packet_length k = Z.of_nat (length (pre ++ junk)) → p_packet_length k < 2 ^ 32 →
    (length bs <= length junk)%nat →
    ∃ pos, m k = Some (tt, k <| p_payload := Some (pre ++ bs ++ drop (length bs) junk) |>
                             <| p_pos := pos |>).

Lemma writes_fills m bs : writes m bs → fills m bs.
Proof. intros Hm k pre junk. intros. eexists. by apply Hm. Qed.

Lemma fills_two a b : fills (write_two a b) [a; b].
Proof.
  intros k pre junk Hp Hpos Hpl Hlt Hl. destruct junk as [|x [|y junk]]; cbn in Hl; [lia..|].
  exists (p_pos k). unfold write_two, gets, mbind, st_bind, write_at.
  assert (∀ q a x (l : list Z) kk, p_payload kk = Some (q ++ x :: l) →
    blit kk (Z.of_nat (length q)) [a] = Some (kk <| p_payload := Some (q ++ a :: l) |>)) as Hb.
  { intros q a' x' l kk Hkk. unfold blit. rewrite Hkk. cbn. rewrite length_app. cbn.
    destruct (Z.leb_spec 0 (Z.of_nat (length q))); [|lia].
    rewrite (proj2 (Z.leb_le _ _)) by lia.
    cbn. rewrite Nat2Z.id, take_app_length.
    rewrite (drop_app_add q (x' :: l) 1). done. }
  rewrite Hpos, (Hb pre a x (y :: junk)) by done.
  replace (Z.of_nat (length pre) + 1) with (Z.of_nat (length (pre ++ [a])))
    by (rewrite length_app; cbn; lia).
  rewrite (Hb (pre ++ [a]) b y junk) by (cbn; by rewrite <-app_assoc).
  by rewrite <-app_assoc, <-Hpos; destruct k.
Qed.

Lemma send_packet_wire p c command mid m bs w :
  w_ctxs w !! p = Some c → fills m bs → Z.of_nat (length bs) < 2 ^ 28 →
  ∃ k, framed c command mid bs k ∧
    send_packet p command (Z.of_nat (length bs)) mid m w = _mosquitto_packet_queue p k w.
Proof.
  intros Hc Hm Hlen. unfold send_packet, ctx_get, deref, mbind, st_bind. rewrite Hc.
  rewrite (u32_id (Z.of_nat (length bs))) by lia.
  rewrite (packet_alloc_spec _ (length bs)) by (done || lia). cbn -[remaining_bytes_loop replicate].
  set (rb := remaining_bytes_loop 5 (Z.of_nat (length bs))).
  pose proof (RemainingLength.remaining_bytes_short (Z.of_nat (length bs)) ltac:(lia)) as Hs. fold rb in Hs.
  assert (rb = remaining_bytes_loop 5 (Z.of_nat (length bs))) as Hrb by done. clearbody rb.
  edestruct (Hm (packet_zero <| p_command := u8 command |> <| p_remaining_length := Z.of_nat (length bs) |>
      <| p_mid := mid |> <| p_is_ws_packet := c_wsi c |>
      <| p_remaining_count := Z.of_nat (length rb) |> <| p_packet_length := Z.of_nat (S (length rb + length bs)) |>
      <| p_payload := Some ((u8 command :: rb) ++ replicate (length bs) 0) |>
      <| p_pos := 1 + Z.of_nat (length rb) |>) (u8 command :: rb) (replicate (length bs) 0)) as [pos Hpos];
    cbn -[replicate].
  - done.
  - lia.
  - rewrite length_app, length_replicate. lia.
  - lia.
  - rewrite length_replicate. lia.
  - cbn -[replicate] in Hpos. rewrite Hpos. cbn -[replicate]. eexists. split; [|reflexivity].
    rewrite drop_ge by (rewrite length_replicate; lia).
    rewrite app_nil_r. unfold framed, frame. rewrite <- Hrb. cbn. rewrite length_app. repeat split.
Qed.

(** The body of a PUBLISH: topic, message id above QoS 0, payload. *)
Definition publish_body (mid : Z) (topic : string) (payload : list Z) (qos : Z) : list Z :=
  (word_bytes (strlen topic) ++ str_bytes topic)
    ++ (if 0 <? qos then word_bytes mid else []) ++ payload.

Lemma length_publish_body mid topic payload qos :
  Z.of_nat (length (publish_body mid topic payload qos)) =
  2 + strlen topic + Z.of_nat (length payload) + (if 0 <? qos then 2 else 0).
Proof.
  unfold publish_body. rewrite !length_app, !Nat2Z.inj_add, length_str_bytes.
  destruct (0 <? qos); cbn; lia.
Qed.

(** The code that fills in the body of a PUBLISH writes [publish_body]. *)
Lemma writes_publish mid topic payloadlen payload bs qos :
  strlen topic < 65536 → payloadlen = Z.of_nat (length bs) → (payload = Some bs ∨ payloadlen = 0) →
  writes (_mosquitto_write_string (cstr_bytes topic) (u16 (strlen topic));;
       (if 0 <? qos then _mosquitto_write_uint16 mid else mret tt);;
       (if payloadlen =? 0 then mret tt
        else bytes ← deref (λ _, payload); _mosquitto_write_bytes bytes payloadlen))
    (publish_body mid topic bs qos).
Proof.
  intros Ht -> Hp. rename bs into payload'.
  apply writes_seq; [by apply writes_cstr|]. apply writes_seq; [destruct (0 <? qos); auto with wire|].
  destruct (Z.eqb_spec (Z.of_nat (length payload')) 0) as [Hz|Hz].
  - destruct payload'; [apply writes_ret | cbn in Hz; lia].
  - destruct Hp as [->|]; [|done].
    pose proof (writes_bytes payload' (Z.of_nat (length payload'))) as Hw.
    rewrite Nat2Z.id, firstn_all in Hw. apply Hw. lia.
Qed.
End wire.

(** ** Reading from the buffer *)

(** The packet [k] has the bytes [l] left to read. *)
Definition unread (k : packet) (l : list Z) : Prop :=
  ∃ pre, (p_payload k = Some (pre ++ l) ∨ (p_payload k = None ∧ pre ++ l = [])) ∧
    p_pos k = Z.of_nat (length pre) ∧
    p_remaining_length k = Z.of_nat (length (pre ++ l)) ∧ p_remaining_length k < 2 ^ 28.

(** [k] moved forward by [n] bytes. *)
Definition moved (k : packet) (n : Z) : packet := k <| p_pos := p_pos k + n |>.

Lemma unread_length k l : unread k l → Z.of_nat (length l) = p_remaining_length k - p_pos k.
Proof. intros (pre & _ & -> & -> & _). rewrite length_app. lia. Qed.

Lemma unread_fits k l n :
  unread k l → 0 <= n < 2 ^ 28 → (p_remaining_length k <? u32 (p_pos k + n)) = (Z.of_nat (length l) <? n).
Proof.
  intros (pre & _ & Hpos & Hrl & Hlt) Hn. rewrite Hpos, Hrl in *. rewrite length_app in *.
  rewrite u32_id by lia.
  destruct (Z.ltb_spec (Z.of_nat (length l)) n); [apply Z.ltb_lt | apply Z.ltb_ge]; lia.
Qed.

Lemma unread_slice k l n :
  unread k l → 0 < n <= Z.of_nat (length l) ∨ (n = 0 ∧ p_payload k ≠ None) →
  slice k (p_pos k) n = Some (take (Z.to_nat n) l).
Proof.
  intros (pre & Hp & Hpos & Hrl & Hlt) Hn. rewrite Hpos in *. rewrite length_app in *.
  destruct Hp as [Hp|[Hp Hnil]]; [|apply app_nil in Hnil as [-> ->]; cbn in *; naive_solver lia].
  unfold slice. rewrite Hp, length_app.
  destruct (Z.leb_spec 0 (Z.of_nat (length pre))); [|lia]. destruct (Z.leb_spec 0 n); [|lia].
  destruct (Z.leb_spec (Z.of_nat (length pre) + n) (Z.of_nat (length pre + length l))); [|lia].
  cbn. by rewrite Nat2Z.id, drop_app_length.
Qed.

Lemma unread_moved k l n :
  unread k l → 0 <= n <= Z.of_nat (length l) → unread (moved k n) (drop (Z.to_nat n) l).
Proof.
  intros (pre & Hp & Hpos & Hrl & Hlt) Hn. exists (pre ++ take (Z.to_nat n) l). cbn.
  rewrite <- app_assoc, take_drop. repeat split; [done| |done..].
  rewrite length_app, length_take. lia.
Qed.

Lemma moved_pos k l n : unread k l → 0 <= n <= Z.of_nat (length l) → u32 (p_pos k + n) = p_pos k + n.
Proof. intros Hu Hn. pose proof (unread_length _ _ Hu). destruct Hu as (? & _ & ? & ? & ?). apply u32_id. lia. Qed.

Lemma read_byte_spec k l :
  unread k l →
  _mosquitto_read_byte k = Some match l with
                                | [] => (inl MOSQ_ERR_PROTOCOL, k)
                                | b :: _ => (inr b, moved k 1)
                                end.
Proof.
  intros Hu. unfold _mosquitto_read_byte, mbind, st_bind, gets.
  rewrite (unread_fits k l) by (done || lia). destruct l as [|b l]; [done|].
  destruct (Z.ltb_spec (Z.of_nat (length (b :: l))) 1); [cbn in *; lia|].
  unfold read_at, deref. rewrite (unread_slice k (b :: l)) by (try done; left; cbn; lia).
  cbn. by rewrite (moved_pos k (b :: l)) by (try done; cbn; lia).
Qed.

Lemma read_bytes_spec k l n :
  unread k l → 0 < n < 2 ^ 28 →
  _mosquitto_read_bytes n k =
    Some (if Z.of_nat (length l) <? n then (inl MOSQ_ERR_PROTOCOL, k)
          else (inr (take (Z.to_nat n) l), moved k n)).
Proof.
  intros Hu Hn. unfold _mosquitto_read_bytes, mbind, st_bind, gets.
  rewrite (unread_fits k l) by (done || lia).
  destruct (Z.ltb_spec (Z.of_nat (length l)) n); [done|].
  unfold read_at, deref. rewrite (unread_slice k l) by (try done; left; lia).
  cbn. by rewrite (moved_pos k l) by (done || lia).
Qed.

Lemma read_uint16_spec k l :
  unread k l →
  _mosquitto_read_uint16 k = Some match l with
                                  | a :: b :: _ => (inr (u16 (Z.shiftl a 8 + b)), moved k 2)
                                  | _ => (inl MOSQ_ERR_PROTOCOL, k)
                                  end.
Proof.
  intros Hu. unfold _mosquitto_read_uint16, mbind, st_bind, gets.
  rewrite (unread_fits k l) by (done || lia). destruct l as [|a [|b l]]; [done..|].
  destruct (Z.ltb_spec (Z.of_nat (length (a :: b :: l))) 2); [cbn in *; lia|].
  pose proof (unread_moved k (a :: b :: l) 1 Hu ltac:(cbn; lia)) as Hu1.
  unfold read_at, deref, modify. rewrite (unread_slice k (a :: b :: l)) by (try done; left; cbn; lia).
  rewrite (moved_pos k (a :: b :: l) 1), (moved_pos k (a :: b :: l) 2) by (try done; cbn; lia).
  change (p_pos k + 1) with (p_pos (moved k 1)).
  change (k <| p_pos := p_pos (moved k 1) |>) with (moved k 1).
  rewrite (unread_slice (moved k 1) (b :: l)) by (try done; left; cbn; lia). done.
Qed.

Lemma unread_payload k l : unread k l → p_pos k ≠ 0 → p_payload k ≠ None.
Proof.
  intros (pre & [Hp|[_ Hnil]] & Hpos & _) Hne; [by rewrite Hp|].
  apply app_nil in Hnil as [-> ->]. by rewrite Hpos in Hne.
Qed.

Lemma read_string_spec k l :
  unread k l →
  _mosquitto_read_string k = Some
    match l with
    | a :: b :: l' =>
      let len := u16 (Z.shiftl a 8 + b) in
      if Z.of_nat (length l') <? len then (inl MOSQ_ERR_PROTOCOL, moved k 2)
      else (inr (cstr_of_bytes (take (Z.to_nat len) l')), moved (moved k 2) len)
    | _ => (inl MOSQ_ERR_PROTOCOL, k)
    end.
Proof.
  intros Hu. unfold _mosquitto_read_string, mbind, st_bind. rewrite (read_uint16_spec k l) by done.
  destruct l as [|a [|b l]]; [done..|]. cbn zeta. set (len := u16 _).
  pose proof (u16_bound (Z.shiftl a 8 + b)) as Hlen. fold len in Hlen.
  pose proof (unread_moved k (a :: b :: l) 2 Hu ltac:(cbn; lia)) as Hu2. cbn [drop Z.to_nat Pos.to_nat] in Hu2.
  assert (p_pos (moved k 2) ≠ 0) as Hne by (destruct Hu as (pre & _ & Hpos & _); cbn; lia).
  unfold gets. rewrite (unread_fits (moved k 2) l) by (done || lia).
  destruct (Z.ltb_spec (Z.of_nat (length l)) len); [done|].
  unfold read_at, deref. rewrite (unread_slice (moved k 2) l); [|done|].
  - unfold modify, mret, st_ret. by rewrite (moved_pos (moved k 2) l len) by (done || lia).
  - destruct (decide (len = 0)); [right; eauto using unread_payload | left; lia].
Qed.

(** Every read of a well-formed packet succeeds or reports a protocol error;
    it never touches memory outside the buffer, and leaves a packet that can
    be read on. *)
Section read_safety.
(** The outcome of a read that started with the packet [k]. *)
Definition read_ok {A} (k : packet) (r : Z + A) (k' : packet) : Prop :=
  (∃ l, unread k' l) ∧ k' <| p_pos := p_pos k |> = k ∧ p_pos k <= p_pos k' ∧
  (∀ rc, r = inl rc → rc = MOSQ_ERR_PROTOCOL).

Lemma read_ok_moved {A} k l n (r : Z + A) :
  unread k l → 0 <= n <= Z.of_nat (length l) → (∀ rc, r = inl rc → rc = MOSQ_ERR_PROTOCOL) →
  read_ok k r (moved k n).
Proof.
  intros Hu Hn Hr. split; [eauto using unread_moved|]. split; [by destruct k|]. split; [cbn; lia|done].
Qed.

Lemma read_ok_same {A} k l : unread k l → read_ok (A := A) k (inl MOSQ_ERR_PROTOCOL) k.
Proof. intros Hu. split; [eauto|]. split; [by destruct k|]. split; [lia|]. congruence. Qed.

Lemma read_byte_safe k l : unread k l → wp _mosquitto_read_byte (read_ok k) k.
Proof.
  intros Hu. unfold wp. rewrite (read_byte_spec k l) by done. destruct l; [by eapply read_ok_same|].
  eapply read_ok_moved; [done | cbn; lia | done].
Qed.

Lemma read_uint16_safe k l : unread k l → wp _mosquitto_read_uint16 (read_ok k) k.
Proof.
  intros Hu. unfold wp. rewrite (read_uint16_spec k l) by done.
  destruct l as [|a [|b l]]; [by eapply read_ok_same..|].
  eapply read_ok_moved; [done | cbn; lia | done].
Qed.

Lemma read_string_safe k l : unread k l → wp _mosquitto_read_string (read_ok k) k.
Proof.
  intros Hu. unfold wp. rewrite (read_string_spec k l) by done.
  destruct l as [|a [|b l]]; [by eapply read_ok_same..|]. cbn zeta.
  pose proof (u16_bound (Z.shiftl a 8 + b)).
  destruct (Z.ltb_spec (Z.of_nat (length l)) (u16 (Z.shiftl a 8 + b))).
  - eapply read_ok_moved; [done | cbn; lia | congruence].
  - replace (moved (moved k 2) (u16 (Z.shiftl a 8 + b))) with (moved k (2 + u16 (Z.shiftl a 8 + b)))
      by (unfold moved; cbn; by rewrite Z.add_assoc).
    eapply read_ok_moved; [done | cbn; lia | done].
Qed.

Lemma read_bytes_safe k l n : unread k l → 0 < n < 2 ^ 28 → wp (_mosquitto_read_bytes n) (read_ok k) k.
Proof.
  intros Hu Hn. unfold wp. rewrite (read_bytes_spec k l) by done.
  destruct (Z.ltb_spec (Z.of_nat (length l)) n); [by eapply read_ok_same|].
  eapply read_ok_moved; [done | lia | done].
Qed.
End read_safety.

(** on any packet whose buffer has the announced length, each of the four
    readers returns (no read leaves the buffer): either a value, with the
    position moved forward inside the packet, or [MOSQ_ERR_PROTOCOL]; nothing
    but the position of the packet changes. *)
Theorem packet_reads_safe k l n :
  unread k l → 0 < n < 2 ^ 28 →
  wp _mosquitto_read_byte (read_ok k) k ∧ wp _mosquitto_read_uint16 (read_ok k) k ∧
  wp _mosquitto_read_string (read_ok k) k ∧ wp (_mosquitto_read_bytes n) (read_ok k) k.
Proof.
  intros Hu Hn. split; [|split; [|split]].
  - by eapply read_byte_safe.
  - by eapply read_uint16_safe.
  - by eapply read_string_safe.
  - by eapply read_bytes_safe.
Qed.

Lemma packet_reads_safe_witness :
  let k := packet_zero <| p_payload := Some [0; 9; 97] |> <| p_remaining_length := 3 |> in
  wp _mosquitto_read_byte (read_ok k) k ∧ wp _mosquitto_read_uint16 (read_ok k) k ∧
  wp _mosquitto_read_string (read_ok k) k ∧ wp (_mosquitto_read_bytes 5) (read_ok k) k.
Proof.
  apply (packet_reads_safe _ [0; 9; 97]); [|lia].
  exists []. split; [by left|]. done.
Defined.

(** ** What is written can be read back *)

Lemma word_bytes_value w : 0 <= w < 65536 → u16 (Z.shiftl (MOSQ_MSB w) 8 + MOSQ_LSB w) = w.
Proof.
  intros Hw. unfold MOSQ_MSB, MOSQ_LSB.
  rewrite Z.shiftr_land, Z.shiftr_div_pow2 by lia. change (Z.shiftr 0xFF00 8) with (Z.ones 8).
  change 0x00FF with (Z.ones 8). rewrite !Z.land_ones by lia. change (2 ^ 8) with 256.
  pose proof (Z.mod_pos_bound (w / 256) 256). pose proof (Z.mod_pos_bound w 256).
  rewrite !u8_id by lia. rewrite Z.shiftl_mul_pow2 by lia. change (2 ^ 8) with 256.
  rewrite (Z.mod_small (w / 256)) by (split; [apply Z.div_pos|apply Z.div_lt_upper_bound]; lia).
  rewrite u16_id; pose proof (Z.div_mod w 256); lia.
Qed.

Definition nul : ascii := Ascii.zero.

Lemma byte_of_ascii_bound c : 0 <= byte_of_ascii c < 256.
Proof. unfold byte_of_ascii. pose proof (N_ascii_bounded c). lia. Qed.

Lemma ascii_of_byte_of_ascii c : ascii_of_byte (byte_of_ascii c) = c.
Proof. unfold ascii_of_byte, byte_of_ascii. by rewrite N2Z.id, ascii_N_embedding. Qed.

Lemma byte_of_ascii_zero c : byte_of_ascii c = 0 → c = nul.
Proof. intros Hc. by rewrite <- (ascii_of_byte_of_ascii c), Hc. Qed.

Lemma cstr_of_str_bytes s : has_char nul s = false → cstr_of_bytes (str_bytes s) = s.
Proof.
  induction s as [|c s IH]; [done|]. cbn [has_char str_bytes cstr_of_bytes].
  intros [Hc Hs]%orb_false_elim. destruct (Z.eqb_spec (byte_of_ascii c) 0) as [Hz|Hz].
  - apply byte_of_ascii_zero in Hz as ->. by rewrite Ascii.eqb_refl in Hc.
  - by rewrite ascii_of_byte_of_ascii, IH.
Qed.

Lemma read_string_back k topic rest :
  unread k ((word_bytes (strlen topic) ++ str_bytes topic) ++ rest) →
  strlen topic < 65536 → has_char nul topic = false →
  ∃ k', _mosquitto_read_string k = Some (inr topic, k') ∧ unread k' rest ∧
    p_remaining_length k' = p_remaining_length k.
Proof.
  intros Hu Hlen Hnul. pose proof (strlen_nonneg topic).
  pose proof (length_str_bytes topic) as Hl.
  rewrite (read_string_spec _ _ Hu). cbn [word_bytes app]. cbv zeta.
  rewrite word_bytes_value by lia.
  destruct (Z.ltb_spec (Z.of_nat (length (str_bytes topic ++ rest))) (strlen topic)) as [Hlt|_].
  { rewrite length_app in Hlt. lia. }
  rewrite <- Hl, Nat2Z.id, take_app_length, cstr_of_str_bytes by done.
  eexists. split; [done|]. split; [|done].
  replace (moved (moved k 2) (Z.of_nat (length (str_bytes topic))))
    with (moved k (2 + Z.of_nat (length (str_bytes topic)))) by (unfold moved; cbn; by rewrite Z.add_assoc).
  replace rest with (drop (Z.to_nat (2 + Z.of_nat (length (str_bytes topic))))
    ((word_bytes (strlen topic) ++ str_bytes topic) ++ rest)) at 1.
  - apply unread_moved; [done|]. rewrite !length_app. cbn. lia.
  - apply drop_app_length'. rewrite length_app. cbn. lia.
Qed.

