(* ===== verification/Writer.v ===== *)
(** * The output path

    [_mosquitto_packet_queue] and [_mosquitto_packet_write] hand the queued
    packets to the transport in order: whatever the transport accepts, the
    bytes it has taken followed by the bytes still queued are the bytes that
    were queued, nothing lost, repeated or reordered. *)

From S2P Require Import Prelude Topic State Packet PacketProofs.
From stdpp Require Import options.

(** A byte stream of the transport: a socket (plain or TLS) or the websocket
    of a context. *)
Inductive chan := Sock (s : Z) | Ws (p : ctxid).
#[export] Instance chan_eq_dec : EqDecision chan.
Proof. solve_decision. Defined.

(** What [write(2)], [SSL_write] and [lws_write] promise: a positive result
    says how many of the bytes offered were accepted, in order. libwebsockets
    keeps the bytes it cannot send, so it accepts all unless it fails. The
    other calls send nothing. *)
Class EnvLaws `{Env} := {
  env_sent : env → chan → list Z;
  env_write_law s buf e n err e' : env_write s buf e = ((n, err), e') →
    n <= Z.of_nat (length buf) ∧
    ∀ ch, env_sent e' ch = env_sent e ch ++ (if decide (ch = Sock s) then take (Z.to_nat n) buf else []);
  env_ssl_write_law s buf e n err e' : env_ssl_write s buf e = ((n, err), e') →
    n <= Z.of_nat (length buf) ∧
    ∀ ch, env_sent e' ch = env_sent e ch ++ (if decide (ch = Sock s) then take (Z.to_nat n) buf else []);
  env_ws_write_law p buf e n e' : env_ws_write p buf e = (n, e') →
    ∀ ch, env_sent e' ch = env_sent e ch ++ (if decide (ch = Ws p) then (if 0 <=? n then buf else []) else []);
  env_time_law e t e' : env_time e = (t, e') → ∀ ch, env_sent e' ch = env_sent e ch;
  env_epoll_law s i ev e ch : env_sent (env_epoll_set s i ev e) ch = env_sent e ch;
  env_ws_callback_law p e ch : env_sent (env_ws_callback p e) ch = env_sent e ch
}.

(** ** The output queue of a context *)

Definition queued_packets (c : mosquitto) : list packet :=
  option_list (c_current_out_packet c) ++ c_out_packet c.

(** The bytes of a packet that are not sent yet. *)
Definition rest (k : packet) : list Z := drop (Z.to_nat (p_pos k)) (default [] (p_payload k)).
Definition pending (c : mosquitto) : list Z := concat (map rest (queued_packets c)).

Definition packet_ok (k : packet) : Prop :=
  ∃ bs, p_payload k = Some bs ∧ 0 <= p_pos k ∧ 0 <= p_to_process k ∧
    p_pos k + p_to_process k = Z.of_nat (length bs) ∧ Z.of_nat (length bs) < 2 ^ 32.

(** Every queued packet is consistent and [packet_count] counts them. *)
Definition out_wf (c : mosquitto) : Prop :=
  Forall packet_ok (queued_packets c) ∧
  c_packet_count c = Z.of_nat (length (queued_packets c)) ∧ c_packet_count c < 2 ^ 64.

(** [c'] differs from [c] in the output path only. *)
Definition out_only (c c' : mosquitto) : Prop :=
  c' <| c_current_out_packet := c_current_out_packet c |> <| c_out_packet := c_out_packet c |>
     <| c_packet_count := c_packet_count c |> <| c_last_msg_out := c_last_msg_out c |>
     <| c_epoll_events := c_epoll_events c |> <| c_want_write := c_want_write c |> = c.

Lemma out_only_refl c : out_only c c.
Proof. by destruct c. Qed.
Lemma out_only_trans c1 c2 c3 : out_only c1 c2 → out_only c2 c3 → out_only c1 c3.
Proof. unfold out_only. destruct c1, c2, c3. cbn. intros [=] [=]. by subst. Qed.

Definition chan_of (p : ctxid) (c : mosquitto) : chan := if c_wsi c then Ws p else Sock (c_sock c).

Lemma out_only_chan p c c' : out_only c c' → chan_of p c' = chan_of p c.
Proof. unfold out_only. destruct c, c'. cbn. intros [=]. by subst. Qed.

Section writer_proofs.
Context `{EnvLaws}.

(** From [w] to [w'] the context [c] at [p] became [c'] by work on its
    output path, and its byte stream is intact. *)
Definition wrote (p : ctxid) (w : world) (c : mosquitto) (w' : world) (c' : mosquitto) : Prop :=
  (∃ e, w' = w <| w_ctxs ::= <[p := c']> |> <| w_env := e |>) ∧
  out_only c c' ∧
  env_sent (w_env w') (chan_of p c) ++ pending c' = env_sent (w_env w) (chan_of p c) ++ pending c ∧
  (∀ ch, ch ≠ chan_of p c → env_sent (w_env w') ch = env_sent (w_env w) ch) ∧
  c_packet_count c' <= c_packet_count c.

Lemma wrote_lookup p w c w' c' : wrote p w c w' c' → w_ctxs w' !! p = Some c'.
Proof. intros ((e & ->) & _). cbn. apply lookup_insert_eq. Qed.

Lemma wrote_refl p w c : w_ctxs w !! p = Some c → wrote p w c w c.
Proof.
  intros Hc. split; [|split; [apply out_only_refl|done]].
  exists (w_env w). destruct w. cbn in *. by rewrite insert_id.
Qed.

Lemma wrote_trans p w1 c1 w2 c2 w3 c3 :
  wrote p w1 c1 w2 c2 → wrote p w2 c2 w3 c3 → wrote p w1 c1 w3 c3.
Proof.
  intros ((e2 & Hw2) & Ho2 & Hs2 & Hf2 & Hc2) ((e3 & Hw3) & Ho3 & Hs3 & Hf3 & Hc3).
  rewrite (out_only_chan p _ _ Ho2) in *.
  split; [|split; [by eapply out_only_trans|split; [|split; [|lia]]]].
  - exists e3. subst. cbn. by rewrite insert_insert_eq.
  - by rewrite Hs3.
  - intros ch Hch. by rewrite Hf3, Hf2.
Qed.

(** A change of the context that keeps the unsent bytes. *)
Lemma wrote_upd p w c f e :
  w_ctxs w !! p = Some c → out_only c (f c) → pending (f c) = pending c →
  (∀ ch, env_sent e ch = env_sent (w_env w) ch) → c_packet_count (f c) <= c_packet_count c →
  wrote p w c (w <| w_ctxs ::= <[p := f c]> |> <| w_env := e |>) (f c).
Proof.
  intros Hc Ho Hp He Hle. split; [by exists e|]. split; [done|]. cbn. split; [by rewrite He, Hp|]. eauto.
Qed.

(** The queue of [c'] is that of [c] with the current packet [k] for [k']. *)
Definition same_queue (c c' : mosquitto) : Prop :=
  c_current_out_packet c' = c_current_out_packet c ∧ c_out_packet c' = c_out_packet c
  ∧ c_packet_count c' = c_packet_count c.

Lemma same_queue_pending c c' : same_queue c c' → pending c' = pending c.
Proof. unfold pending, queued_packets. by intros (-> & -> & _). Qed.
Lemma same_queue_wf c c' : same_queue c c' → out_wf c → out_wf c'.
Proof. unfold out_wf, queued_packets. by intros (-> & -> & ->). Qed.

(** The transport took the first [n] bytes of [buf] from context [c]. *)
Definition took (p : ctxid) (c : mosquitto) (buf : list Z) (n : Z) (e e' : env) : Prop :=
  ∀ ch, env_sent e' ch =
    env_sent e ch ++ (if decide (ch = chan_of p c) then take (Z.to_nat n) buf else []).

Lemma wp_net_write p buf w c (Q : Z * Z → world → Prop) :
  w_ctxs w !! p = Some c → c_wsi c = false →
  (∀ n err c' e, n <= Z.of_nat (length buf) → out_only c c' → same_queue c c' →
    took p c buf n (w_env w) e →
    Q (n, err) (w <| w_ctxs ::= <[p := c']> |> <| w_env := e |>)) →
  wp (_mosquitto_net_write p buf) Q w.
Proof.
  intros Hc Hws HQ. unfold _mosquitto_net_write. wp_steps. eapply wp_ctx_get; [done|]. cbv beta.
  assert (∀ n err e, n <= Z.of_nat (length buf) → took p c buf n (w_env w) e →
    Q (n, err) (w <| w_env := e |>)) as HQ'.
  { intros n err e Hn Ht. specialize (HQ n err c e Hn (out_only_refl c)).
    destruct w; cbn in *. rewrite insert_id in HQ by done. by apply HQ. }
  assert (chan_of p c = Sock (c_sock c)) as Hch by (unfold chan_of; by rewrite Hws).
  destruct (c_ssl c).
  - wp_steps. apply wp_ext. intros [n err] e He. apply env_ssl_write_law in He as [Hn Hs].
    rewrite <-Hch in Hs. cbn [fst snd].
    destruct (Z.ltb_spec n 0); [destruct err|]; wp_steps; [| |by apply HQ'..].
    + apply HQ'; [lia|]. intros ch. rewrite Hs. destruct n; [lia..|done].
    + eapply wp_ctx_upd; [done|]. cbv beta. wp_steps.
      apply (HQ _ _ (c <| c_want_write := true |>)); [lia|by destruct c|done|].
      intros ch. rewrite Hs. destruct n; [lia..|done].
  - apply wp_ext. intros [n err] e He. apply env_write_law in He as [Hn Hs].
    rewrite <-Hch in Hs. by apply HQ'.
Qed.

(** Advancing by the accepted bytes keeps the stream. *)
Lemma rest_advance k n : packet_ok k → 0 <= n <= p_to_process k →
  let k' := k <| p_to_process := u32 (p_to_process k - n) |> <| p_pos := u32 (p_pos k + n) |> in
  packet_ok k' ∧ p_to_process k' = p_to_process k - n ∧
  ∃ buf, slice k (p_pos k) (p_to_process k) = Some buf ∧ Z.of_nat (length buf) = p_to_process k ∧
    rest k = take (Z.to_nat n) buf ++ rest k'.
Proof.
  intros (bs & Hbs & Hp & Ht & Hsum & Hlt) Hn k'.
  assert (p_to_process k' = p_to_process k - n) as Ht' by (cbn; apply u32_id; lia).
  assert (p_pos k' = p_pos k + n) as Hp' by (cbn; apply u32_id; lia).
  split; [exists bs; rewrite Ht', Hp'; cbn; split_and!; [done|lia..]|]. split; [done|].
  unfold slice, rest. rewrite Hp'. subst k'. cbn. rewrite Hbs. cbn.
  destruct (Z.leb_spec 0 (p_pos k)), (Z.leb_spec 0 (p_to_process k)),
    (Z.leb_spec (p_pos k + p_to_process k) (Z.of_nat (length bs))); try lia. cbn.
  eexists. split; [done|]. rewrite take_ge by (rewrite length_drop; lia).
  split; [rewrite length_drop; lia|].
  rewrite Z2Nat.inj_add, <-drop_drop by lia. by rewrite take_drop.
Qed.

(** The world in which the context at [p] is [c'], and the environment [e]. *)
Definition set_out (p : ctxid) (c' : mosquitto) (e : env) (w : world) : world :=
  w <| w_ctxs ::= <[p := c']> |> <| w_env := e |>.

Lemma lookup_set_out p c' e w : w_ctxs (set_out p c' e w) !! p = Some c'.
Proof. unfold set_out; cbn. apply lookup_insert_eq. Qed.
Lemma set_out_twice p c1 e1 c2 e2 w : set_out p c2 e2 (set_out p c1 e1 w) = set_out p c2 e2 w.
Proof. unfold set_out; cbn. by rewrite insert_insert_eq. Qed.
Lemma set_out_refl p c w : w_ctxs w !! p = Some c → set_out p c (w_env w) w = w.
Proof. intros. unfold set_out. destruct w; cbn in *. by rewrite insert_id. Qed.

Lemma set_env_out p c e w : w_ctxs w !! p = Some c → w <| w_env := e |> = set_out p c e w.
Proof. intros. unfold set_out. destruct w; cbn in *. by rewrite insert_id. Qed.

Definition advanced (n : Z) (c : mosquitto) : mosquitto :=
  c <| c_current_out_packet ::= fmap (λ k,
    k <| p_to_process := u32 (p_to_process k - n) |> <| p_pos := u32 (p_pos k + n) |>) |>.

Lemma wrote_advanced p w c c1 e k buf n :
  c_current_out_packet c = Some k → out_wf c → 0 <= n <= p_to_process k →
  slice k (p_pos k) (p_to_process k) = Some buf →
  out_only c c1 → same_queue c c1 → took p c buf n (w_env w) e →
  wrote p w c (set_out p (advanced n c1) e w) (advanced n c1) ∧ out_wf (advanced n c1) ∧
  ∃ k', c_current_out_packet (advanced n c1) = Some k' ∧ p_to_process k' = p_to_process k - n ∧
    c_out_packet (advanced n c1) = c_out_packet c.
Proof.
  intros Hk [Hok Hcnt] Hn Hbuf Ho (Hq1 & Hq2 & Hq3) Ht.
  unfold queued_packets in Hok, Hcnt. rewrite Hk in Hok, Hcnt. cbn in Hok, Hcnt.
  apply Forall_cons in Hok as [Hok Hoks].
  destruct (rest_advance k n Hok Hn) as (Hok' & Htp & buf' & Hbuf' & Hlen & Hrest).
  rewrite Hbuf in Hbuf'. simplify_eq.
  assert (pending (advanced n c1) ++ [] = drop (Z.to_nat n) (pending c)) as Hpend.
  { rewrite app_nil_r. unfold pending, queued_packets, advanced. cbn. rewrite Hq1, Hq2, Hk. cbn.
    rewrite Hrest, <-app_assoc. rewrite drop_app_length'; [done|].
    rewrite length_take. lia. }
  rewrite app_nil_r in Hpend.
  assert (pending c = take (Z.to_nat n) buf' ++ drop (Z.to_nat n) (pending c)) as Hsplit.
  { rewrite <-Hpend. unfold pending, queued_packets, advanced. cbn. rewrite Hq1, Hq2, Hk. cbn.
    by rewrite Hrest, <-app_assoc. }
  split_and!.
  - split; [by exists e|]. split; [|split; [|split]].
    + eapply out_only_trans; [done|]. by destruct c1.
    + unfold set_out; cbn [w_env upd]. rewrite (Ht (chan_of p c)), decide_True by done.
      rewrite Hpend. by rewrite <-app_assoc, <-Hsplit.
    + intros ch Hch. unfold set_out; cbn [w_env upd]. rewrite Ht, decide_False by done.
      by rewrite app_nil_r.
    + unfold advanced; cbn. lia.
  - unfold out_wf, queued_packets, advanced. cbn. rewrite Hq1, Hq2, Hq3, Hk. cbn.
    split; [by constructor|done].
  - unfold advanced; cbn. rewrite Hq1, Hk. eexists; split_and!; done.
Qed.

Definition step_post (p : ctxid) (w : world) (c : mosquitto) (k : packet) (r : flow) (w' : world) : Prop :=
  ∃ c', wrote p w c w' c' ∧ out_wf c' ∧
    (r = Continue → ∃ k', c_current_out_packet c' = Some k' ∧ p_to_process k' < p_to_process k
      ∧ c_out_packet c' = c_out_packet c).

Lemma wp_update_context i p w c (Q : () → world → Prop) :
  w_ctxs w !! p = Some c →
  (∀ c' e, out_only c c' → same_queue c c' → (∀ ch, env_sent e ch = env_sent (w_env w) ch) →
    Q tt (set_out p c' e w)) →
  wp (mosquitto_update_context i p) Q w.
Proof.
  intros Hc HQ. unfold mosquitto_update_context. wp_steps. eapply wp_ctx_get; [done|]. cbv beta zeta.
  set (ev := Z.lor _ _). clearbody ev. destruct (ev =? _); wp_steps.
  - rewrite <-(set_out_refl p c w) by done. apply HQ; [apply out_only_refl|done..].
  - apply wp_ext_. eapply wp_ctx_upd; [done|].
    change (Q tt (set_out p (c <| c_epoll_events := ev |>) (env_epoll_set (c_sock c) i ev (w_env w)) w)).
    apply HQ; [by destruct c|done|]. intros ch. apply env_epoll_law.
Qed.

Lemma wrote_idle p w c c' e : w_ctxs w !! p = Some c → out_only c c' → same_queue c c' →
  (∀ ch, env_sent e ch = env_sent (w_env w) ch) → wrote p w c (set_out p c' e w) c'.
Proof.
  intros Hc Ho Hq He. apply (wrote_upd p w c (λ _, c') e Hc Ho); [by apply same_queue_pending|done|].
  destruct Hq as (_ & _ & ->). lia.
Qed.

Lemma took_none p c buf n e e' : n <= 0 → took p c buf n e e' → ∀ ch, env_sent e' ch = env_sent e ch.
Proof.
  intros Hn Ht ch. rewrite Ht. replace (Z.to_nat n) with 0%nat by lia. rewrite take_0.
  destruct (decide _); by rewrite app_nil_r.
Qed.

Lemma step_post_idle p w c k rc c' e :
  w_ctxs w !! p = Some c → out_wf c → out_only c c' → same_queue c c' →
  (∀ ch, env_sent e ch = env_sent (w_env w) ch) → step_post p w c k (Return rc) (set_out p c' e w).
Proof.
  intros Hc Hwf Ho Hq He. exists c'. split; [by apply wrote_idle|].
  split; [by eapply same_queue_wf|done].
Qed.

Lemma packet_write_step_spec p w c k :
  w_ctxs w !! p = Some c → out_wf c → c_current_out_packet c = Some k → 0 < p_to_process k →
  wp (packet_write_step p k) (step_post p w c k) w.
Proof.
  intros Hc Hwf Hk Hpos. pose proof Hwf as [Hok _]. unfold queued_packets in Hok. rewrite Hk in Hok.
  cbn in Hok. apply Forall_cons in Hok as [Hok _].
  destruct (rest_advance k 0 Hok) as (_ & _ & buf & Hbuf & Hlen & _); [lia|].
  unfold packet_write_step. wp_steps. eapply wp_ctx_get; [done|]. cbv beta. wp_steps.
  eapply wp_deref; [exact Hbuf|]. cbv beta.
  destruct (c_wsi c) eqn:Hws.
  - wp_steps. apply wp_ext. intros n e He. pose proof (env_ws_write_law _ _ _ _ _ He) as Ht.
    assert (∀ r, 0 <= n → wp (out_advance p (p_to_process k);; mret r) (step_post p w c k) (w <| w_env := e |>)) as Hadv.
    { intros r Hn. wp_steps. unfold out_advance. eapply wp_ctx_upd; [done|]. wp_steps.
      edestruct (wrote_advanced p w c c e k buf (p_to_process k)) as (Hw & Hwf' & k' & Hk' & Htp & Hq);
        [done|done|lia|done|apply out_only_refl|done| |].
      { intros ch. rewrite Ht, <-Hlen, Nat2Z.id, firstn_all. unfold chan_of. rewrite Hws.
        by destruct (Z.leb_spec 0 n); [|lia]. }
      exists (advanced (p_to_process k) c). split; [exact Hw|]. split; [done|]. intros _.
      exists k'. split_and!; [done|lia|done]. }
    destruct (Z.ltb_spec 0 n); [apply Hadv; lia|].
    destruct (Z.eqb_spec n 0); [apply Hadv; lia|].
    wp_steps. rewrite (set_env_out p c) by done.
    apply step_post_idle; [done..|apply out_only_refl|done|].
    intros ch. rewrite Ht. destruct (Z.leb_spec 0 n); [lia|]. destruct (decide _); by rewrite app_nil_r.
  - wp_steps. eapply wp_net_write; [done..|]. intros n err c1 e Hn Ho Hq Ht. cbv beta iota.
    destruct (Z.ltb_spec 0 n).
    + wp_steps. unfold out_advance. eapply wp_ctx_upd; [apply lookup_set_out|]. wp_steps.
      edestruct (wrote_advanced p w c c1 e k buf n) as (Hw & Hwf' & k' & Hk' & Htp & Hq'); [try done; lia..|].
      exists (advanced n c1). split; [|split; [done|]].
      * replace (upd _ _ _) with (set_out p (advanced n c1) e w); [done|].
        rewrite <-(set_out_twice p c1 e). by destruct w.
      * intros _. exists k'. split_and!; [done|lia|done].
    + pose proof (took_none _ _ _ _ _ _ H1 Ht) as Hsent. change (upd _ _ _) with (set_out p c1 e w).
      destruct (err =? EAGAIN); wp_steps.
      * eapply wp_update_context; [apply lookup_set_out|]. intros c2 e2 Ho2 Hq2 He2. wp_steps.
        rewrite set_out_twice. apply step_post_idle; [done..| | |].
        -- by eapply out_only_trans.
        -- destruct Hq as (?&?&?), Hq2 as (?&?&?). repeat split; congruence.
        -- intros ch. rewrite He2. apply Hsent.
      * by apply step_post_idle.
Qed.

(** A call that leaves the context as a wp goal of its continuation sees it. *)
Lemma wp_wrote {A} p w c w1 c1 (m : ST world A) (P : A → mosquitto → Prop) :
  wrote p w c w1 c1 → wp m (λ a w', ∃ c', wrote p w1 c1 w' c' ∧ P a c') w1 →
  wp m (λ a w', ∃ c', wrote p w c w' c' ∧ P a c') w1.
Proof.
  intros Hw Hm. eapply wp_mono; [done|]. intros a w' (c' & ? & ?). exists c'.
  split; [by eapply wrote_trans|done].
Qed.

Lemma packet_write_inner_spec fuel p w c k :
  w_ctxs w !! p = Some c → out_wf c → c_current_out_packet c = Some k →
  (Z.to_nat (p_to_process k) <= fuel)%nat →
  wp (packet_write_inner fuel p) (λ r w', ∃ c', wrote p w c w' c' ∧ (out_wf c' ∧
    (r = Continue → ∃ k', c_current_out_packet c' = Some k' ∧ p_to_process k' <= 0 ∧
      c_out_packet c' = c_out_packet c))) w.
Proof.
  revert w c k. induction fuel as [|fuel IH]; intros w c k Hc Hwf Hk Hf; cbn [packet_write_inner];
    wp_steps; (eapply wp_ctx_get; [done|]); wp_steps; (eapply wp_deref; [done|]); cbv beta.
  all: destruct (Z.leb_spec (p_to_process k) 0); [wp_steps; exists c; split_and!;
    [by apply wrote_refl|done|intros _; by exists k]|].
  { lia. }
  wp_steps. eapply wp_mono; [by apply packet_write_step_spec|].
  intros r w1 (c1 & Hw1 & Hwf1 & Hr). destruct r as [|rc].
  - destruct Hr as (k1 & Hk1 & Hlt & Hq); [done|].
    eapply wp_wrote; [done|]. eapply wp_mono; [eapply (IH w1 c1 k1);
      [by eapply wrote_lookup|done..|lia]|].
    intros r w2 (c2 & Hw2 & Hwf2 & Hr2). exists c2. split_and!; [done..|].
    intros Hc2. destruct (Hr2 Hc2) as (k2 & ? & ? & Hq2). exists k2. split_and!; [done..|congruence].
  - wp_steps. by exists c1.
Qed.

(** The packet that is sent leaves the queue. *)
Lemma next_out_packet_wf c k :
  c_current_out_packet c = Some k → p_to_process k <= 0 → out_wf c →
  let c' := next_out_packet c <| c_packet_count := u64 (c_packet_count c - 1) |> in
  out_wf c' ∧ pending c' = pending c ∧ queued_packets c' = c_out_packet c.
Proof.
  intros Hk Htp [Hok [Hcnt Hlt]] c'. unfold queued_packets in Hok, Hcnt. rewrite Hk in Hok, Hcnt.
  cbn in Hok, Hcnt. apply Forall_cons in Hok as [(bs & Hbs & ? & ? & Hsum & ?) Hoks].
  assert (queued_packets c' = c_out_packet c) as Hq.
  { subst c'. unfold queued_packets, next_out_packet; cbn. by destruct (c_out_packet c). }
  split_and!; [|..|done].
  - unfold out_wf. rewrite Hq. subst c'. cbn. rewrite u64_id by lia. split; [done|lia].
  - unfold pending. rewrite Hq. unfold queued_packets. rewrite Hk. cbn.
    unfold rest at 2. rewrite Hbs. cbn. by rewrite drop_ge by lia.
Qed.

Lemma packet_write_outer_spec fuel p w c :
  w_ctxs w !! p = Some c → out_wf c → (length (queued_packets c) <= fuel)%nat →
  wp (packet_write_outer fuel p) (λ _ w', ∃ c', wrote p w c w' c' ∧ out_wf c') w.
Proof.
  revert w c. induction fuel as [|fuel IH]; intros w c Hc Hwf Hf; cbn [packet_write_outer];
    wp_steps; (eapply wp_ctx_get; [done|]); cbv beta;
    (destruct (c_current_out_packet c) as [k|] eqn:Hk;
      [|wp_steps; exists c; split; [by apply wrote_refl|done]]).
  { exfalso. unfold queued_packets in Hf. rewrite Hk in Hf. cbn in Hf. lia. }
  wp_steps. eapply wp_mono; [by eapply packet_write_inner_spec|].
  intros r w1 (c1 & Hw1 & Hwf1 & Hr). destruct r as [|rc]; [|wp_steps; by exists c1].
  destruct Hr as (k1 & Hk1 & Htp & Hq); [done|].
  destruct (next_out_packet_wf c1 k1 Hk1 Htp Hwf1) as (Hwf2 & Hp2 & Hq2).
  wp_steps. eapply wp_ctx_upd; [by eapply wrote_lookup|]. wp_steps.
  apply wp_ext. intros t e He. pose proof (env_time_law _ _ _ He) as Hs.
  wp_steps. eapply wp_ctx_upd; [cbn; apply lookup_insert_eq|]. cbv beta.
  set (c2 := next_out_packet c1 <| c_packet_count := _ |>) in *.
  set (c3 := c2 <| c_last_msg_out := t |>).
  assert (wrote p w1 c1 (set_out p c3 e w1) c3) as Hw3.
  { apply (wrote_upd p w1 c1 (λ _, c3) e); [by eapply wrote_lookup|by destruct c1|by rewrite <-Hp2|done|].
    destruct Hwf1 as [_ [Hcnt Hlt]]. unfold queued_packets in Hcnt. rewrite Hk1 in Hcnt. cbn in Hcnt.
    cbn. rewrite u64_id by lia. lia. }
  replace (upd w_ctxs _ _) with (set_out p c3 e w1)
    by (unfold set_out; destruct w1; cbn; by rewrite insert_insert_eq).
  eapply (wp_wrote p w c (set_out p c3 e w1) c3 _ (λ _ c', out_wf c')).
  { by eapply wrote_trans. }
  apply IH; [apply lookup_set_out|done|].
  change (queued_packets c3) with (queued_packets c2). rewrite Hq2, Hq.
  unfold queued_packets in Hf. rewrite Hk in Hf. cbn in Hf. lia.
Qed.

Lemma packet_write_spec p w c : w_ctxs w !! p = Some c → out_wf c →
  wp (_mosquitto_packet_write p) (λ _ w', ∃ c', wrote p w c w' c' ∧ out_wf c') w.
Proof.
  intros Hc Hwf. unfold _mosquitto_packet_write. wp_steps. eapply wp_ctx_get; [done|]. cbv beta.
  destruct (is_context_invalid c). { wp_steps. exists c. split; [by apply wrote_refl|done]. }
  wp_steps.
  assert (∀ c1, out_only c c1 → queued_packets c1 = queued_packets c → c_packet_count c1 = c_packet_count c →
    (length (queued_packets c1) <= S (length (c_out_packet c)))%nat →
    wp (packet_write_outer (S (length (c_out_packet c))) p) (λ _ w', ∃ c', wrote p w c w' c' ∧ out_wf c')
      (set_out p c1 (w_env w) w)) as Hgo.
  { intros c1 Ho Hq Hpc Hlen.
    eapply (wp_wrote p w c _ c1 _ (λ _ c', out_wf c')).
    - apply (wrote_upd p w c (λ _, c1)); [done|done|unfold pending; by rewrite Hq|done|lia].
    - apply packet_write_outer_spec; [apply lookup_set_out| |done].
      unfold out_wf. by rewrite Hq, Hpc. }
  assert (wp (mret tt) (λ _ : (), wp (packet_write_outer (S (length (c_out_packet c))) p)
     (λ _ w', ∃ c', wrote p w c w' c' ∧ out_wf c')) w) as Hskip.
  { wp_steps. specialize (Hgo c). rewrite set_out_refl in Hgo by done.
    apply Hgo; [apply out_only_refl|done..|]. unfold queued_packets. rewrite length_app.
    destruct (c_current_out_packet c); cbn; lia. }
  destruct (c_out_packet c) as [|k ks] eqn:Hks; [apply Hskip|].
  destruct (c_current_out_packet c) eqn:Hcur; [apply Hskip|].
  eapply wp_ctx_upd; [done|].
  change (upd w_ctxs _ w) with (set_out p (next_out_packet c) (w_env w) w).
  apply Hgo; [by destruct c|unfold queued_packets, next_out_packet; cbn; rewrite ?Hks, ?Hcur; cbn; auto with lia..].
Qed.

(** Writing the output queue of a client always finishes, touches only
    that context, and loses, repeats or reorders nothing: the bytes the
    transport accepted followed by the bytes still queued are unchanged, no
    other stream gets a byte, and the queue stays consistent with
    [packet_count]. *)
Theorem packet_write_stream p w c : w_ctxs w !! p = Some c → out_wf c →
  wp (_mosquitto_packet_write p) (λ _ w', ∃ c', wrote p w c w' c' ∧ out_wf c') w.
Proof. apply packet_write_spec. Qed.

(** [p] has appended the bytes [bs] to its output. *)
Definition sent_bytes (p : ctxid) (bs : list Z) (w : world) (c : mosquitto) (w' : world) (c' : mosquitto) : Prop :=
  (∃ e, w' = w <| w_ctxs ::= <[p := c']> |> <| w_env := e |>) ∧
  out_only c c' ∧
  env_sent (w_env w') (chan_of p c) ++ pending c' = (env_sent (w_env w) (chan_of p c) ++ pending c) ++ bs ∧
  (∀ ch, ch ≠ chan_of p c → env_sent (w_env w') ch = env_sent (w_env w) ch) ∧
  c_packet_count c' <= c_packet_count c + 1.

Lemma packet_queue_spec p k bs w c :
  w_ctxs w !! p = Some c → out_wf c → c_packet_count c + 1 < 2 ^ 64 →
  p_payload k = Some bs → p_packet_length k = Z.of_nat (length bs) → Z.of_nat (length bs) < 2 ^ 32 →
  wp (_mosquitto_packet_queue p k) (λ _ w', ∃ c', sent_bytes p bs w c w' c' ∧ out_wf c') w.
Proof.
  intros Hc [Hok [Hcnt Hlt]] Hroom Hbs Hpl Hlen. unfold _mosquitto_packet_queue. cbv zeta.
  set (k1 := k <| p_pos := 0 |> <| p_to_process := p_packet_length k |>).
  wp_steps. eapply wp_ctx_upd; [done|]. cbv beta.
  set (c1 := c <| c_out_packet := _ |> <| c_packet_count := _ |>).
  assert (queued_packets c1 = queued_packets c ++ [k1]) as Hq.
  { subst c1. unfold queued_packets; cbn. by rewrite app_assoc. }
  assert (out_wf c1) as Hwf1.
  { unfold out_wf. rewrite Hq, length_app, Forall_app. cbn.
    rewrite u64_id by lia. split_and!; [done| |lia..].
    apply Forall_singleton. exists bs. cbn. split_and!; [done|lia..]. }
  assert (pending c1 = pending c ++ bs) as Hp1.
  { unfold pending. rewrite Hq, map_app, concat_app. cbn. unfold rest; cbn. rewrite Hbs. cbn.
    by rewrite app_nil_r, drop_0. }
  assert (out_only c c1) as Ho1 by (by destruct c).
  change (upd w_ctxs _ w) with (set_out p c1 (w_env w) w).
  wp_steps. eapply wp_ctx_get; [apply lookup_set_out|]. cbv beta. destruct (c_wsi c1); wp_steps.
  - apply wp_ext_. wp_steps. exists c1. split; [|done].
    split; [by exists (env_ws_callback p (w_env w))|]. split; [done|]. cbn.
    split_and!; intros; rewrite ?env_ws_callback_law; [by rewrite Hp1, app_assoc|done|].
    rewrite u64_id by lia. lia.
  - eapply wp_mono; [eapply packet_write_spec; [apply lookup_set_out|done]|].
    intros _ w' (c2 & ((e & ->) & Ho2 & Hs2 & Hf2 & Hc2) & Hwf2). exists c2. split; [|done].
    rewrite (out_only_chan p _ _ Ho1) in *. split_and!.
    + exists e. apply set_out_twice.
    + by eapply out_only_trans.
    + rewrite Hs2, Hp1. cbn. by rewrite app_assoc.
    + intros ch Hch. by rewrite Hf2.
    + cbn in Hc2. rewrite u64_id in Hc2 by lia. lia.
Qed.

(** A sender either hands the frame to the output queue or, for a frame the
    length field cannot express, returns an error and does nothing. *)
Definition sends (p : ctxid) (command : Z) (body : list Z) (w : world) (c : mosquitto) (rc : Z) (w' : world) : Prop :=
  (∃ c', sent_bytes p (frame command body) w c w' c' ∧ out_wf c') ∨
  (rc = MOSQ_ERR_PAYLOAD_SIZE ∧ w' = w ∧ 2 ^ 28 <= Z.of_nat (length body)).

Lemma send_packet_spec p command len mid m bs w c :
  w_ctxs w !! p = Some c → out_wf c → c_packet_count c + 1 < 2 ^ 64 →
  fills m bs → len = Z.of_nat (length bs) → len < 2 ^ 32 →
  wp (send_packet p command len mid m) (sends p command bs w c) w.
Proof.
  intros Hc Hwf Hroom Hm -> Hlen. destruct (decide (Z.of_nat (length bs) < 2 ^ 28)) as [Hs|Hs].
  - destruct (send_packet_wire p c command mid m bs w Hc Hm Hs) as (k & (Hp & Hpl & _) & Heq).
    unfold wp. rewrite Heq. change (wp (_mosquitto_packet_queue p k) (sends p command bs w c) w).
    pose proof (RemainingLength.remaining_bytes_short (Z.of_nat (length bs)) ltac:(lia)) as Hrb.
    eapply wp_mono; [eapply packet_queue_spec; [done..|]|].
    + unfold frame; cbn -[remaining_bytes_loop]. rewrite length_app. lia.
    + intros rc w' Hw'. by left.
  - unfold send_packet. wp_steps. eapply wp_ctx_get; [done|]. cbv beta zeta.
    unfold _mosquitto_packet_alloc. cbn -[remaining_bytes_loop]. rewrite u32_id by lia.
    rewrite RemainingLength.remaining_bytes_long by lia. cbn -[remaining_bytes_loop].
    wp_steps. right. split_and!; [done..|lia].
Qed.

Lemma send_command_with_mid_spec p command mid dup w c :
  w_ctxs w !! p = Some c → out_wf c → c_packet_count c + 1 < 2 ^ 64 →
  wp (_mosquitto_send_command_with_mid p command mid dup)
    (sends p (if dup then Z.lor command 8 else command) [MOSQ_MSB mid; MOSQ_LSB mid] w c) w.
Proof. intros. apply send_packet_spec; [done..|apply fills_two|done|done]. Qed.

(** The first byte of a PUBLISH. *)
Definition publish_command (qos : Z) (retain dup : bool) : Z :=
  Z.lor (Z.lor (Z.lor PUBLISH (Z.shiftl (b2z dup) 3)) (Z.shiftl qos 1)) (b2z retain).

Lemma send_real_publish_spec p mid topic payloadlen payload bs qos retain dup w c :
  w_ctxs w !! p = Some c → out_wf c → c_packet_count c + 1 < 2 ^ 64 →
  strlen topic < 65536 → payloadlen = Z.of_nat (length bs) → (payload = Some bs ∨ payloadlen = 0) →
  Z.of_nat (length (publish_body mid topic bs qos)) < 2 ^ 32 →
  wp (_mosquitto_send_real_publish p mid topic payloadlen payload qos retain dup)
    (sends p (publish_command qos retain dup) (publish_body mid topic bs qos) w c) w.
Proof.
  intros Hc Hwf Hroom Ht Hl Hp Hlen. unfold _mosquitto_send_real_publish.
  apply send_packet_spec; [done..|by apply writes_fills, writes_publish| |];
    by rewrite Hl, <-(length_publish_body mid).
Qed.

(** The payload pointer of a PUBLISH addresses the bytes [bs]. *)
Definition payload_bytes (payloadlen : Z) (payload : option (list Z)) (bs : list Z) : Prop :=
  payloadlen = Z.of_nat (length bs) ∧ (payload = Some bs ∨ payloadlen = 0).

Lemma send_publish_spec p mid topic payloadlen payload bs qos retain dup w c :
  w_ctxs w !! p = Some c → out_wf c → c_packet_count c + 1 < 2 ^ 64 → is_context_invalid c = false →
  strlen (wire_topic c topic) < 65536 → payload_bytes payloadlen payload bs →
  Z.of_nat (length (publish_body mid (wire_topic c topic) bs qos)) < 2 ^ 32 →
  wp (_mosquitto_send_publish p mid topic payloadlen payload qos retain dup)
    (sends p (publish_command qos retain dup) (publish_body mid (wire_topic c topic) bs qos) w c) w.
Proof.
  intros Hc Hwf Hroom Hv Ht [Hl Hp] Hlen. unfold _mosquitto_send_publish.
  wp_steps. eapply wp_ctx_get; [done|]. cbv beta. rewrite Hv. by apply send_real_publish_spec.
Qed.

(** Publishing to a connected client appends exactly one MQTT PUBLISH
    frame to its output: the command byte with the flags, the remaining length,
    the (possibly renamed) topic, the message id above QoS 0 and the payload.
    No buffer assertion fails on the way and nothing else changes. *)
Theorem send_publish_appends_frame p mid topic payloadlen payload bs qos retain dup w c :
  w_ctxs w !! p = Some c → out_wf c → c_packet_count c + 1 < 2 ^ 64 → is_context_invalid c = false →
  strlen (wire_topic c topic) < 65536 → payload_bytes payloadlen payload bs →
  Z.of_nat (length (publish_body mid (wire_topic c topic) bs qos)) < 2 ^ 28 →
  wp (_mosquitto_send_publish p mid topic payloadlen payload qos retain dup)
    (λ _ w', ∃ c', sent_bytes p (frame (publish_command qos retain dup)
                                   (publish_body mid (wire_topic c topic) bs qos)) w c w' c' ∧ out_wf c') w.
Proof.
  intros Hc Hwf Hroom Hv Ht Hp Hlen.
  eapply wp_mono; [apply send_publish_spec; (done || lia)|].
  intros rc w' [?|(_ & _ & Hbig)]; [done|lia].
Qed.

End writer_proofs.
