(* ===== verification/Database.v ===== *)
(** * The message database

    [src/database.c]: the stored messages with their reference counts, the
    message queue of every client, the table of contexts and the canonical
    client ids. Releasing a QoS 2 message and queueing a message for the
    subscribers are in [Queue]. *)

From S2P Require Import Prelude Topic State Packet.
From stdpp Require Import options.

Definition CONTEXT_REALLOC_SIZE : nat := 0xFFF.

(** The [switch] on the QoS that gives an outgoing message its publish state;
    other values leave the state alone. *)
Definition publish_state (qos : Z) (otherwise : msg_state) : msg_state :=
  if qos =? 0 then mosq_ms_publish_qos0
  else if qos =? 1 then mosq_ms_publish_qos1
  else if qos =? 2 then mosq_ms_publish_qos2 else otherwise.

Section database.
Context `{Env}.

(** ** Client ids *)

Definition mqtt3_add_canonical_client_id (clientid : string) : ST world () :=
  modify (λ w, w <| w_canonical_client_id_index_hash ::= λ h,
    match h !! clientid with
    | Some n => <[clientid := n + 1]> h
    | None => <[clientid := 1]> h
    end |>).

Definition mqtt3_db_remove_canonical_client_id (clientid : string) : ST world () :=
  modify (λ w, w <| w_canonical_client_id_index_hash ::= λ h,
    match h !! clientid with
    | Some n => if n - 1 <=? 0 then delete clientid h else <[clientid := n - 1]> h
    | None => h
    end |>).

Definition mqtt3_db_get_canonical_client_id_count (clientid : string) : ST world Z :=
  gets (λ w, default (-1) (w_canonical_client_id_index_hash w !! clientid)).

(** [HASH_FIND_STR] in [db->clientid_index_hash]: the newest entry of a key is
    found first, as a bucket's chain grows at its head. *)
Fixpoint clientid_find (id : string) (h : list (string * Z)) : option Z :=
  match h with
  | [] => None
  | (k, i) :: h' => if String.eqb k id then Some i else clientid_find id h'
  end.

(** [HASH_DEL] of the entry [clientid_find] returns. *)
Fixpoint clientid_del (id : string) (h : list (string * Z)) : list (string * Z) :=
  match h with
  | [] => []
  | (k, i) :: h' => if String.eqb k id then h' else (k, i) :: clientid_del id h'
  end.

Definition mqtt3_db_lookup_client (clientId : string) : ST world bool :=
  gets (λ w, if clientid_find clientId (w_clientid_index_hash w) then true else false).

Definition mqtt3_dxl_db_client_count : ST world Z :=
  gets (λ w, Z.of_nat (length (w_clientid_index_hash w))).

Definition mqtt3_dxl_set_max_packet_buffer_size (maxBufferSize : Z) : ST world () :=
  modify (λ w, w <| w_max_packet_buffer_size := maxBufferSize |>).

(** ** The table of contexts *)

(** [mosquitto_add_new_clients_set] and its siblings of [src/loop.c]: a
    context is added to a hash unless it is there. *)
Definition hash_add (p : ctxid) (h : list ctxid) : list ctxid :=
  if bool_decide (p ∈ h) then h else h ++ [p].

Definition mosquitto_add_new_clients_set (p : ctxid) : ST world () :=
  modify (λ w, w <| w_new_client := true |> <| w_new_clients_hash ::= hash_add p |>).
Definition mosquitto_add_new_msgs_set (p : ctxid) : ST world () :=
  modify (λ w, w <| w_new_msgs_hash ::= hash_add p |>).

(** The index of the first NULL entry. *)
Fixpoint first_gap (l : list (option ctxid)) : nat :=
  match l with
  | None :: _ => 0%nat
  | Some _ :: l' => S (first_gap l')
  | [] => 0%nat
  end.

(** The table with [p] in its first gap, extended when it has none. *)
Definition contexts_with (p : ctxid) (l : list (option ctxid)) : list (option ctxid) :=
  let i := first_gap l in
  <[i := Some p]> (if bool_decide (i = length l) then l ++ replicate CONTEXT_REALLOC_SIZE None else l).

Definition mqtt3_db_add_new_context (p : ctxid) : ST world Z :=
  l ← gets w_contexts;
  let i := Z.of_nat (first_gap l) in
  modify (λ w, w <| w_contexts := contexts_with p l |>);;
  ctx_upd p (λ c, c <| c_numericId := i |>);;
  c ← ctx_get p;
  (if c_wsi c then mret tt else mosquitto_add_new_clients_set p);;
  ctx_upd p (λ c, c <| c_db_index := i |>);;
  mret 0.

(** The tree [mqtt3_db_open] starts with: the roots of the ordinary topics and
    of [$SYS]. *)
Definition subhier_new (topic : string) : subhier := mk_subhier topic [] None [] [] 0 0.

Definition mqtt3_db_open : ST world Z :=
  modify (λ w, w <| w_last_db_id := 0 |>
    <| w_contexts := replicate CONTEXT_REALLOC_SIZE None |>
    <| w_clientid_index_hash := [] |>
    <| w_subs ::= λ h, mk_subhier "" [] (h_retained h) [subhier_new ""; subhier_new "$SYS"]
                         ["";"$SYS"] 0 0 |>);;
  mret 0.

(** The counts of clients, and of those without a connection. *)
Fixpoint client_count_loop (l : list (option ctxid)) (count inactive : Z) : ST world (Z * Z) :=
  match l with
  | [] => mret (count, inactive)
  | None :: l' => client_count_loop l' count inactive
  | Some p :: l' =>
    c ← ctx_get p;
    client_count_loop l' (count + 1) (if is_context_invalid c then inactive + 1 else inactive)
  end.
Definition mqtt3_db_client_count : ST world (Z * Z) :=
  l ← gets w_contexts; client_count_loop l 0 0.

Definition mqtt3_db_limits_set (inflight queued : Z) : ST world () :=
  modify (λ w, w <| w_max_inflight := inflight |> <| w_max_queued := queued |>).

(** ** The queue of a client

    A [struct mosquitto_client_msg *] of the source is an index of the
    context's queue here: the loops below hold one such pointer, [tail], and
    [_message_remove] leaves it at the entry that follows. *)

Definition msg_get (p : ctxid) (i : nat) : ST world (option client_msg) :=
  c ← ctx_get p; mret (c_msgs c !! i).
Definition msg_upd (p : ctxid) (i : nat) (f : client_msg → client_msg) : ST world () :=
  ctx_upd p (λ c, c <| c_msgs ::= alter f i |>).

Definition _message_remove (p : ctxid) (i : nat) : ST world () :=
  c ← ctx_get p;
  match c_msgs c !! i with
  | None => mret tt
  | Some m =>
    store_upd (m_store m) (λ s, s <| s_ref_count ::= λ n, n - 1 |>);;
    ctx_upd p (λ c, c <| c_msgs ::= delete i |> <| c_msg_count ::= λ n, n - 1 |>
      <| c_msg_count12 ::= λ n, if 0 <? m_qos m then n - 1 else n |>)
  end.

(** A queued message that comes within the in-flight window starts; the
    result says whether the QoS 2 handshake of an inbound one starts too. *)
Definition unqueue (p : ctxid) (i : nat) (m : client_msg) : ST world bool :=
  t ← mosquitto_time;
  msg_upd p i (λ m, m <| m_timestamp := t |>);;
  match m_direction m with
  | mosq_md_out => msg_upd p i (λ m, m <| m_state := publish_state (m_qos m) (m_state m) |>);; mret false
  | mosq_md_in => mret (m_qos m =? 2)
  end.

Fixpoint message_delete_loop (fuel : nat) (p : ctxid) (mid : Z) (dir : msg_direction)
    (i : nat) (msg_index : Z) (deleted : bool) : ST world Z :=
  tail ← msg_get p i;
  match tail with
  | None => mret MOSQ_ERR_SUCCESS
  | Some m =>
    match fuel with
    | O => ub
    | S fuel' =>
      max_inflight ← gets w_max_inflight;
      let msg_index := msg_index + 1 in
      (if bool_decide (m_state m = mosq_ms_queued) && (msg_index <=? max_inflight) then
         b ← unqueue p i m;
         if (b : bool) then msg_upd p i (λ m, m <| m_state := mosq_ms_wait_for_pubrel |>) else mret tt
       else mret tt);;
      let found := (m_mid m =? mid) && bool_decide (m_direction m = dir) in
      let deleted := deleted || found in
      let msg_index := if found then msg_index - 1 else msg_index in
      (if found then _message_remove p i else mret tt);;
      if (max_inflight <? msg_index) && deleted then mret MOSQ_ERR_SUCCESS
      else message_delete_loop fuel' p mid dir (if found then i else S i) msg_index deleted
    end
  end.

Definition mqtt3_db_message_delete (p : ctxid) (mid : Z) (dir : msg_direction) : ST world Z :=
  c ← ctx_get p;
  message_delete_loop (length (c_msgs c)) p mid dir 0 0 false.

Fixpoint message_update_loop (msgs : list client_msg) (i : nat) (p : ctxid) (mid : Z)
    (dir : msg_direction) (state : msg_state) : ST world Z :=
  match msgs with
  | [] => mret 1
  | m :: msgs' =>
    if (m_mid m =? mid) && bool_decide (m_direction m = dir) then
      msg_upd p i (λ m, m <| m_state := state |>);;
      t ← mosquitto_time;
      msg_upd p i (λ m, m <| m_timestamp := t |>);;
      mret MOSQ_ERR_SUCCESS
    else message_update_loop msgs' (S i) p mid dir state
  end.

Definition mqtt3_db_message_update (p : ctxid) (mid : Z) (dir : msg_direction) (state : msg_state) : ST world Z :=
  c ← ctx_get p; message_update_loop (c_msgs c) 0 p mid dir state.

(** Dropping the references a list of entries holds. *)
Fixpoint release_refs (msgs : list client_msg) : ST world () :=
  match msgs with
  | [] => mret tt
  | m :: msgs' => store_upd (m_store m) (λ s, s <| s_ref_count ::= λ n, n - 1 |>);; release_refs msgs'
  end.

Definition mqtt3_db_messages_delete (p : ctxid) : ST world Z :=
  c ← ctx_get p;
  release_refs (c_msgs c);;
  ctx_upd p (λ c, c <| c_msgs := [] |> <| c_msg_count := 0 |> <| c_msg_count12 := 0 |>
                    <| c_subscription_count := 0 |>);;
  mret MOSQ_ERR_SUCCESS.

(** *** Insertion *)

(** The bridge of [c] connects on demand. *)
Definition lazy_bridge (c : mosquitto) : bool :=
  match c_bridge c with Some b => bool_decide (b_start_type b = bst_lazy) | None => false end.

(** What the guards of [mqtt3_db_message_insert] decide: [inl rc] to return
    [rc], [inr (state, rc)] to append an entry in [state] and return [rc].
    [dropped] says whether the queue was full. *)
Definition insert_state (max_inflight max_queued : Z) (c : mosquitto) (dir : msg_direction) (qos : Z)
    : (Z * bool) + (msg_state * Z) :=
  if is_context_invalid c then
    if (0 <? max_queued) && (max_queued <=? c_msg_count12 c) then inl (2, true)
    else inr (mosq_ms_queued, 0)
  else if (qos =? 0) || (max_inflight =? 0) || (c_msg_count12 c <? max_inflight) then
    match dir with
    | mosq_md_out => inr (publish_state qos mosq_ms_invalid, 0)
    | mosq_md_in => if qos =? 2 then inr (mosq_ms_wait_for_pubrel, 0) else inl (1, false)
    end
  else if (max_queued =? 0) || (c_msg_count12 c - max_inflight <? max_queued) then inr (mosq_ms_queued, 2)
  else inl (2, true).

(** The entry is allocated, linked at the end and counted. *)
Definition insert_link (p : ctxid) (mid : Z) (dir : msg_direction) (qos : Z) (retain : bool)
    (stored : storeid) (state : msg_state) (client_message : bool) : ST world () :=
  store_upd stored (λ s, s <| s_ref_count ::= λ n, n + 1 |>);;
  t ← mosquitto_time;
  let m := mk_client_msg stored mid qos retain t dir state false client_message in
  ctx_upd p (λ c, c <| c_msgs ::= λ l, l ++ [m] |> <| c_msg_count ::= λ n, n + 1 |>
    <| c_msg_count12 ::= λ n, if 0 <? qos then n + 1 else n |>);;
  mosquitto_add_new_msgs_set p.

(** A lazy bridge with enough messages is asked to reconnect. *)
Definition lazy_flag (c : mosquitto) (b : bridge) : bridge :=
  if bool_decide (b_start_type b = bst_lazy) && bool_decide (c_sock c = INVALID_SOCKET)
     && (b_threshold b <=? c_msg_count c)
  then b <| b_lazy_reconnect := true |> else b.
Definition lazy_reconnect (p : ctxid) : ST world () :=
  ctx_upd p (λ c, c <| c_bridge ::= fmap (lazy_flag c) |>).

(** The broker library has its say, and the entry is made. *)
Definition insert_approved (p : ctxid) (mid : Z) (dir : msg_direction) (qos : Z) (retain : bool)
    (stored : storeid) (c : mosquitto) (s : msg_store) (state : msg_state) (rc : Z) : ST world Z :=
  r ← ext (dxl_on_insert_message c s);
  let '(success, is_client_message, client_payload) := r in
  (match client_payload with
   | Some bs => store_upd stored (λ s, s <| s_msg ::= λ m,
       m <| msg_client_payload := Some bs |> <| msg_client_payloadlen := Z.of_nat (length bs) |> |>)
   | None => mret tt
   end);;
  if (success : bool) then
    insert_link p mid dir qos retain stored state is_client_message;;
    lazy_reconnect p;; mret rc
  else mret MOSQ_ERR_SUCCESS.

Definition mqtt3_db_message_insert (p : ctxid) (mid : Z) (dir : msg_direction) (qos : Z)
    (retain : bool) (stored : storeid) : ST world Z :=
  c ← ctx_get p;
  cfg ← gets w_config;
  s ← store_get stored;
  if is_context_invalid c && (qos =? 0) && negb (cfg_queue_qos0_messages cfg) && negb (lazy_bridge c)
  then mret 2
  else
    max_packet ← gets w_max_packet_buffer_size;
    exceeded ← (if negb (is_context_invalid c) && (max_packet <=? c_packet_count c)
                then ext (dxl_on_pre_insert_message_packet_queue_exceeded c s) else mret false);
    if (exceeded : bool) then mret 2
    else
      max_inflight ← gets w_max_inflight; max_queued ← gets w_max_queued;
      match insert_state max_inflight max_queued c dir qos with
      | inl (rc, dropped) =>
        (if (dropped : bool) then ctx_upd p (λ c, c <| c_is_dropping := true |>) else mret tt);; mret rc
      | inr (state, rc) =>
        assert_ (bool_decide (state ≠ mosq_ms_invalid));;
        insert_approved p mid dir qos retain stored c s state rc
      end.

(** *** Stored messages *)

(** [payload] is the memory behind the pointer ([None] for NULL). *)
Definition mqtt3_db_message_store (context : option ctxid) (source : option string) (source_mid : Z)
    (topic : option string) (qos payloadlen : Z) (payload : option (list Z)) (retain : Z)
    (store_id : Z) : ST world storeid :=
  bytes ← (if payloadlen =? 0 then mret None
           else bs ← deref (λ _, payload);
                assert_ (payloadlen <=? Z.of_nat (length bs));;
                mret (Some (take (Z.to_nat payloadlen) bs)));
  ctx ← (match context with
         | Some p => c ← ctx_get p; mret (Some c)
         | None => mret None
         end);
  temp ← gets (λ w, fresh (dom (w_stores w)));
  last ← gets w_last_db_id;
  let db_id := if store_id =? 0 then u64 (last + 1) else store_id in
  let m := mk_msg_store db_id 0 (default EmptyString source) source_mid
    (mk_message 0 topic bytes payloadlen None 0 qos (negb (retain =? 0))) in
  modify (λ w, w <| w_stores ::= <[temp := m]> |> <| w_msg_store ::= cons temp |>
    <| w_msg_store_count ::= λ n, n + 1 |>
    <| w_last_db_id := if store_id =? 0 then db_id else last |>);;
  out ← ext (dxl_on_store_message ctx m);
  (match out with
   | Some bs =>
     if 0 <? Z.of_nat (length bs) then
       store_upd temp (λ s, s <| s_msg ::= λ m,
         m <| msg_payload := Some bs |> <| msg_payloadlen := Z.of_nat (length bs) |> |>)
     else mret tt
   | None => mret tt
   end);;
  mret temp.

Fixpoint store_find_loop (msgs : list client_msg) (mid : Z) : ST world (option storeid) :=
  match msgs with
  | [] => mret None
  | m :: msgs' =>
    s ← store_get (m_store m);
    if (s_source_mid s =? mid) && bool_decide (m_direction m = mosq_md_in) then mret (Some (m_store m))
    else store_find_loop msgs' mid
  end.

(** The stored message a retransmitted PUBLISH refers to. *)
Definition mqtt3_db_message_store_find (p : ctxid) (mid : Z) : ST world (option storeid) :=
  c ← ctx_get p; store_find_loop (c_msgs c) mid.

Fixpoint store_clean_loop (l : list storeid) : ST world (list storeid) :=
  match l with
  | [] => mret []
  | x :: l' =>
    s ← store_get x;
    if s_ref_count s =? 0 then
      ext_ (dxl_on_finalize_message (s_db_id s));;
      modify (λ w, w <| w_stores ::= delete x |> <| w_msg_store_count ::= λ n, n - 1 |>);;
      store_clean_loop l'
    else
      r ← store_clean_loop l'; mret (x :: r)
  end.

Definition mqtt3_db_store_clean : ST world () :=
  l ← gets w_msg_store;
  r ← store_clean_loop l;
  modify (λ w, w <| w_msg_store := r |>).

(** Freeing the subscription tree: the retained messages lose a reference. *)
Fixpoint subhier_clean (h : subhier) : ST world () :=
  (match h_retained h with
   | Some x => store_upd x (λ s, s <| s_ref_count ::= λ n, n - 1 |>)
   | None => mret tt
   end);;
  (fix children (l : list subhier) : ST world () :=
     match l with [] => mret tt | h :: l' => subhier_clean h;; children l' end) (h_children h).

Definition mqtt3_db_close : ST world Z :=
  h ← gets w_subs;
  (fix children (l : list subhier) : ST world () :=
     match l with [] => mret tt | h :: l' => subhier_clean h;; children l' end) (h_children h);;
  modify (λ w, w <| w_subs ::= λ h, h <| h_children := [] |> <| h_children_hash_table := [] |> |>);;
  mqtt3_db_store_clean;;
  mret MOSQ_ERR_SUCCESS.

(** *** Retransmission *)

(** The state an outgoing entry restarts from after a reconnect. *)
Definition reset_state (m : client_msg) : msg_state :=
  if bool_decide (m_state m = mosq_ms_queued) then m_state m
  else if (m_qos m =? 2) && bool_decide (m_state m = mosq_ms_wait_for_pubcomp) then mosq_ms_resend_pubrel
  else publish_state (m_qos m) (m_state m).

(** The first loop of [mqtt3_db_message_reconnect_reset]. The entry after one
    that was removed is skipped, not counted; [stale] says that [last_msg]
    points to the entry that was removed, and such a pointer left behind is
    undefined behaviour of the appends that follow. *)
Fixpoint reconnect_reset_loop (fuel : nat) (p : ctxid) (i : nat) (stale : bool) : ST world () :=
  tail ← msg_get p i;
  match tail with
  | None => assert_ (negb stale)
  | Some m =>
    match fuel with
    | O => ub
    | S fuel' =>
      ctx_upd p (λ c, c <| c_msg_count ::= λ n, n + 1 |>
        <| c_msg_count12 ::= λ n, if 0 <? m_qos m then n + 1 else n |>);;
      match m_direction m with
      | mosq_md_out =>
        msg_upd p i (λ m, m <| m_state := reset_state m |>);;
        reconnect_reset_loop fuel' p (S i) false
      | mosq_md_in =>
        if m_qos m =? 2 then reconnect_reset_loop fuel' p (S i) false
        else
          _message_remove p i;;
          next ← msg_get p i;
          reconnect_reset_loop fuel' p (S i) (bool_decide (is_Some next))
      end
    end
  end.

(** The second loop: the entries within the in-flight window start. *)
Fixpoint start_window (max_inflight : Z) (msgs : list client_msg) (count : Z) : list client_msg :=
  match msgs with
  | [] => []
  | m :: msgs' =>
    if (max_inflight =? 0) || (count <? max_inflight) then
      (if bool_decide (m_state m = mosq_ms_queued)
       then m <| m_state := publish_state (m_qos m) (m_state m) |> else m)
      :: start_window max_inflight msgs' (count + 1)
    else m :: msgs'
  end.

Definition mqtt3_db_message_reconnect_reset (p : ctxid) : ST world Z :=
  ctx_upd p (λ c, c <| c_msg_count := 0 |> <| c_msg_count12 := 0 |> <| c_subscription_count := 0 |>);;
  c ← ctx_get p;
  reconnect_reset_loop (length (c_msgs c)) p 0 false;;
  max_inflight ← gets w_max_inflight;
  ctx_upd p (λ c, c <| c_msgs ::= λ l, start_window max_inflight l 0 |>);;
  mret MOSQ_ERR_SUCCESS.

(** The state an entry whose acknowledgement is overdue goes back to. *)
Definition timeout_state (s : msg_state) : option msg_state :=
  match s with
  | mosq_ms_wait_for_puback => Some mosq_ms_publish_qos1
  | mosq_ms_wait_for_pubrec => Some mosq_ms_publish_qos2
  | mosq_ms_wait_for_pubrel => Some mosq_ms_send_pubrec
  | mosq_ms_wait_for_pubcomp => Some mosq_ms_resend_pubrel
  | _ => None
  end.

Fixpoint timeout_loop (msgs : list client_msg) (i : nat) (p : ctxid) (threshold : Z) : ST world () :=
  match msgs with
  | [] => mret tt
  | m :: msgs' =>
    (if m_timestamp m <? threshold then
       match timeout_state (m_state m) with
       | Some s =>
         t ← mosquitto_time;
         msg_upd p i (λ m, m <| m_timestamp := t |> <| m_state := s |> <| m_dup := true |>)
       | None => mret tt
       end
     else mret tt);;
    timeout_loop msgs' (S i) p threshold
  end.

Definition mqtt3_db_message_timeout_check (p : ctxid) (timeout : Z) : ST world Z :=
  now ← mosquitto_time;
  c ← ctx_get p;
  timeout_loop (c_msgs c) 0 p (now - timeout);;
  mret MOSQ_ERR_SUCCESS.

(** *** Delivery *)

(** The payload of the client's version of the message, or the stored one. *)
Definition entry_payload (m : client_msg) (s : msg_store) : Z * option (list Z) :=
  if m_client_message m then (msg_client_payloadlen (s_msg s), msg_client_payload (s_msg s))
  else (msg_payloadlen (s_msg s), msg_payload (s_msg s)).

Definition send_entry (p : ctxid) (m : client_msg) (s : msg_store) : ST world Z :=
  topic ← deref (λ _, msg_topic (s_msg s));
  let '(payloadlen, payload) := entry_payload m s in
  _mosquitto_send_publish p (m_mid m) topic payloadlen payload (m_qos m) (m_retain m) (m_dup m).

(** After a send: the entry moves to [state] on success (with the time, and
    marked as a duplicate from now on, for a PUBLISH), else the loop returns. *)
Definition sent_or (p : ctxid) (i : nat) (rc : Z) (stamp : bool) (state : msg_state) : ST world flow :=
  if rc =? MOSQ_ERR_SUCCESS then
    (if stamp then
       t ← mosquitto_time;
       msg_upd p i (λ m, m <| m_timestamp := t |> <| m_dup := true |>)
     else mret tt);;
    msg_upd p i (λ m, m <| m_state := state |>);;
    mret Continue
  else mret (Return rc).

(** The [switch] of [mqtt3_db_message_write] on the state of a started entry:
    how the loop goes on, and whether [tail] moves to the next entry. *)
Definition write_entry (p : ctxid) (i : nat) (m : client_msg) (s : msg_store) : ST world (flow * bool) :=
  match m_state m with
  | mosq_ms_publish_qos0 =>
    rc ← send_entry p m s;
    if rc =? MOSQ_ERR_SUCCESS then _message_remove p i;; mret (Continue, false)
    else mret (Return rc, false)
  | mosq_ms_publish_qos1 =>
    rc ← send_entry p m s; f ← sent_or p i rc true mosq_ms_wait_for_puback; mret (f, true)
  | mosq_ms_publish_qos2 =>
    rc ← send_entry p m s; f ← sent_or p i rc true mosq_ms_wait_for_pubrec; mret (f, true)
  | mosq_ms_send_pubrec =>
    rc ← _mosquitto_send_pubrec p (m_mid m);
    f ← sent_or p i rc false mosq_ms_wait_for_pubrel; mret (f, true)
  | mosq_ms_resend_pubrel =>
    rc ← _mosquitto_send_pubrel p (m_mid m) true;
    f ← sent_or p i rc false mosq_ms_wait_for_pubcomp; mret (f, true)
  | mosq_ms_resend_pubcomp =>
    rc ← _mosquitto_send_pubcomp p (m_mid m);
    f ← sent_or p i rc false mosq_ms_wait_for_pubrel; mret (f, true)
  | _ => mret (Continue, true)
  end.

Fixpoint message_write_loop (fuel : nat) (p : ctxid) (i : nat) (msg_count : Z) : ST world Z :=
  tail ← msg_get p i;
  match tail with
  | None => mret MOSQ_ERR_SUCCESS
  | Some m =>
    match fuel with
    | O => ub
    | S fuel' =>
      let msg_count := if bool_decide (m_direction m = mosq_md_in) then msg_count + 1 else msg_count in
      if bool_decide (m_state m ≠ mosq_ms_queued) then
        s ← store_get (m_store m);
        r ← write_entry p i m s;
        match r with
        | (Return rc, _) => mret rc
        | (Continue, step) => message_write_loop fuel' p (if (step : bool) then S i else i) msg_count
        end
      else
        max_inflight ← gets w_max_inflight;
        if bool_decide (m_direction m = mosq_md_in)
           && ((max_inflight =? 0) || (msg_count <? max_inflight)) then
          (if m_qos m =? 2 then msg_upd p i (λ m, m <| m_state := mosq_ms_send_pubrec |>) else mret tt);;
          message_write_loop fuel' p i msg_count
        else message_write_loop fuel' p (S i) msg_count
    end
  end.

Definition mqtt3_db_message_write (p : ctxid) : ST world Z :=
  c ← ctx_get p;
  if is_context_invalid c
     || (bool_decide (c_state c = mosq_cs_connected) && bool_decide (c_id c = None))
  then mret MOSQ_ERR_INVAL
  else message_write_loop (2 * length (c_msgs c)) p 0 0.
End database.
