(* ===== verification/DatabaseProofs.v ===== *)
(** * The message database: invariants

    Reference counts count references: a stored message's [ref_count] is the
    number of queue entries that point to it, whatever sequence of operations
    ran, so that cleaning the store never frees a message a queue still uses;
    and the counters of a client's queue are the numbers of its entries. *)

From S2P Require Import Prelude Topic State Packet PacketProofs Writer Database.
From stdpp Require Import options.

(** ** Counting references *)

Definition refs_in (s : storeid) (msgs : list client_msg) : Z :=
  Z.of_nat (length (filter (λ m, m_store m = s) msgs)).
Definition refs (ctxs : gmap ctxid mosquitto) (s : storeid) : Z :=
  map_fold (λ _ c n, n + refs_in s (c_msgs c)) 0 ctxs.
Definition qos12_in (msgs : list client_msg) : Z :=
  Z.of_nat (length (filter (λ m, 0 < m_qos m) msgs)).

Lemma refs_in_cons s m l : refs_in s (m :: l) = (if decide (m_store m = s) then 1 else 0) + refs_in s l.
Proof. unfold refs_in. rewrite filter_cons. case_decide; cbn; lia. Qed.
Lemma refs_in_app s l1 l2 : refs_in s (l1 ++ l2) = refs_in s l1 + refs_in s l2.
Proof. unfold refs_in. rewrite filter_app, length_app. lia. Qed.
Lemma refs_in_nonneg s l : 0 <= refs_in s l.
Proof. unfold refs_in. lia. Qed.
Lemma qos12_in_cons m l : qos12_in (m :: l) = (if 0 <? m_qos m then 1 else 0) + qos12_in l.
Proof. unfold qos12_in. rewrite filter_cons. case_decide; destruct (Z.ltb_spec 0 (m_qos m)); cbn; lia. Qed.
Lemma qos12_in_app l1 l2 : qos12_in (l1 ++ l2) = qos12_in l1 + qos12_in l2.
Proof. unfold qos12_in. rewrite filter_app, length_app. lia. Qed.

Lemma refs_insert_new ctxs p c s : ctxs !! p = None → refs (<[p := c]> ctxs) s = refs ctxs s + refs_in s (c_msgs c).
Proof. intros Hp. unfold refs. rewrite map_fold_insert_L; [done| |done]. intros. lia. Qed.
Lemma refs_delete ctxs p c s : ctxs !! p = Some c → refs ctxs s = refs (delete p ctxs) s + refs_in s (c_msgs c).
Proof. intros Hp. unfold refs. rewrite (map_fold_delete_L _ _ p c ctxs); [done| |done]. intros. lia. Qed.
Lemma refs_insert ctxs p c c' s : ctxs !! p = Some c →
  refs (<[p := c']> ctxs) s = refs ctxs s - refs_in s (c_msgs c) + refs_in s (c_msgs c').
Proof.
  intros Hp. rewrite <-insert_delete_eq, refs_insert_new by apply lookup_delete_eq.
  rewrite (refs_delete ctxs p c) by done. lia.
Qed.
Lemma refs_nonneg ctxs s : 0 <= refs ctxs s.
Proof.
  unfold refs. apply (map_fold_weak_ind (λ n _, 0 <= n)); [lia|].
  intros i c m n _ Hn. pose proof (refs_in_nonneg s (c_msgs c)). lia.
Qed.

(** What the reference counts depend on in an entry, and what identifies it. *)
Definition sig (m : client_msg) : storeid * Z * Z * msg_direction :=
  (m_store m, m_qos m, m_mid m, m_direction m).

Lemma sig_refs l l' s : map sig l = map sig l' → refs_in s l = refs_in s l'.
Proof.
  revert l'. induction l as [|m l IH]; intros [|m' l'] [=]; [done|].
  rewrite !refs_in_cons, (IH l') by done. repeat case_decide; congruence.
Qed.
Lemma sig_qos12 l l' : map sig l = map sig l' → qos12_in l = qos12_in l'.
Proof.
  revert l'. induction l as [|m l IH]; intros [|m' l'] [=]; [done|].
  rewrite !qos12_in_cons, (IH l') by done. by replace (m_qos m') with (m_qos m) by congruence.
Qed.
Lemma sig_length l l' : map sig l = map sig l' → length l = length l'.
Proof. intros Hl. by rewrite <-(length_map sig l), Hl, length_map. Qed.
Lemma sig_Forall (P : storeid → Prop) l l' :
  map sig l = map sig l' → Forall (λ m, P (m_store m)) l → Forall (λ m, P (m_store m)) l'.
Proof.
  revert l'. induction l as [|m l IH]; intros [|m' l'] [=] Hl; [done|].
  apply Forall_cons in Hl as [Hm Hl]. constructor; [congruence|auto].
Qed.
Lemma sig_alter f i l : (∀ m, sig (f m) = sig m) → map sig (alter f i l) = map sig l.
Proof.
  intros Hf. revert i. induction l as [|m l IH]; intros [|i]; cbn; [done..| |].
  - by rewrite Hf.
  - by rewrite IH.
Qed.

Lemma refs_in_delete s i l m : l !! i = Some m →
  refs_in s (delete i l) = refs_in s l - (if decide (m_store m = s) then 1 else 0).
Proof.
  intros Hi. rewrite <-(take_drop_middle l i m Hi) at 2. rewrite delete_take_drop, !refs_in_app, refs_in_cons. lia.
Qed.
Lemma qos12_in_delete i l m : l !! i = Some m →
  qos12_in (delete i l) = qos12_in l - (if 0 <? m_qos m then 1 else 0).
Proof.
  intros Hi. rewrite <-(take_drop_middle l i m Hi) at 2. rewrite delete_take_drop, !qos12_in_app, qos12_in_cons. lia.
Qed.

(** ** The invariant *)

(** The counters of a client's queue. *)
Definition queue_ok (c : mosquitto) : Prop :=
  c_msg_count c = Z.of_nat (length (c_msgs c)) ∧ c_msg_count12 c = qos12_in (c_msgs c).

Section invariant.
Context `{Env}.

Record db_ok (w : world) : Prop := {
  ok_queue : map_Forall (λ _ c, queue_ok c) (w_ctxs w);
  ok_refs : map_Forall (λ s m, s_ref_count m = refs (w_ctxs w) s) (w_stores w);
  ok_live : map_Forall (λ _ c, Forall (λ m, is_Some (w_stores w !! m_store m)) (c_msgs c)) (w_ctxs w);
  ok_nodup : NoDup (w_msg_store w);
  ok_list : ∀ s, s ∈ w_msg_store w ↔ is_Some (w_stores w !! s);
  ok_count : w_msg_store_count w = Z.of_nat (length (w_msg_store w)) }.

(** The queue of one client changes, and the reference counts with it. *)
Lemma db_ok_step w w' p c c' :
  db_ok w → w_ctxs w !! p = Some c → w_ctxs w' = <[p := c']> (w_ctxs w) →
  w_msg_store w' = w_msg_store w → w_msg_store_count w' = w_msg_store_count w →
  queue_ok c' →
  (∀ s, is_Some (w_stores w' !! s) ↔ is_Some (w_stores w !! s)) →
  (∀ s m m', w_stores w !! s = Some m → w_stores w' !! s = Some m' →
    s_ref_count m' = s_ref_count m - refs_in s (c_msgs c) + refs_in s (c_msgs c')) →
  Forall (λ m, is_Some (w_stores w !! m_store m)) (c_msgs c') → db_ok w'.
Proof.
  intros [Hq Hr Hl Hn Hls Hc] Hp Hw Hms Hmc Hq' Hdom Href Hlive. split.
  - rewrite Hw. by apply map_Forall_insert_2.
  - intros s m' Hm'. rewrite Hw, (refs_insert _ _ c) by done.
    destruct (proj1 (Hdom s)) as [m Hm]; [by eexists|].
    rewrite (Href s m m' Hm Hm'), (Hr s m Hm). lia.
  - rewrite Hw. apply map_Forall_insert_2.
    + eapply Forall_impl; [done|]. intros m ?. by apply Hdom.
    + intros q c0 Hq0. eapply Forall_impl; [exact (Hl q c0 Hq0)|]. intros m ?. by apply Hdom.
  - by rewrite Hms.
  - intros s. by rewrite Hms, Hls, Hdom.
  - by rewrite Hms, Hmc.
Qed.

(** The queue keeps its entries up to their progress. *)
Lemma db_ok_same w w' p c c' :
  db_ok w → w_ctxs w !! p = Some c → w_ctxs w' = <[p := c']> (w_ctxs w) →
  w_msg_store w' = w_msg_store w → w_msg_store_count w' = w_msg_store_count w →
  w_stores w' = w_stores w →
  map sig (c_msgs c') = map sig (c_msgs c) → c_msg_count c' = c_msg_count c →
  c_msg_count12 c' = c_msg_count12 c → db_ok w'.
Proof.
  intros Hok Hp Hw Hms Hmc Hst Hsig H1 H2. pose proof Hok as [Hq _ Hl _ _ _].
  eapply db_ok_step; [done..| | | |].
  - destruct (Hq p c Hp) as [Hc1 Hc2]. split.
    + by rewrite H1, Hc1, (sig_length _ _ Hsig).
    + by rewrite H2, Hc2, (sig_qos12 _ _ Hsig).
  - intros s. by rewrite Hst.
  - intros s m m' Hm Hm'. rewrite Hst in Hm'. simplify_eq. rewrite (sig_refs _ _ s Hsig). lia.
  - eapply (sig_Forall (λ s, is_Some (w_stores w !! s))); [symmetry; done|]. by apply (Hl p c Hp).
Qed.

(** Nothing the invariant speaks of changes. *)
Lemma db_ok_frame w w' :
  db_ok w → w_ctxs w' = w_ctxs w → w_stores w' = w_stores w → w_msg_store w' = w_msg_store w →
  w_msg_store_count w' = w_msg_store_count w → db_ok w'.
Proof. intros [????? ?] H1 H2 H3 H4. split; by rewrite ?H1, ?H2, ?H3, ?H4. Qed.

(** *** Removing an entry *)

Definition dec_ref (s : msg_store) : msg_store := s <| s_ref_count ::= λ n, n - 1 |>.
Definition removed (i : nat) (m : client_msg) (c : mosquitto) : mosquitto :=
  c <| c_msgs ::= delete i |> <| c_msg_count ::= λ n, n - 1 |>
    <| c_msg_count12 ::= λ n, if 0 <? m_qos m then n - 1 else n |>.
Definition remove_entry (p : ctxid) (i : nat) (c : mosquitto) (m : client_msg) (s : msg_store) (w : world) : world :=
  w <| w_stores ::= <[m_store m := dec_ref s]> |> <| w_ctxs ::= <[p := removed i m c]> |>.

Lemma wp_message_remove p i c m s (Q : () → world → Prop) w :
  w_ctxs w !! p = Some c → c_msgs c !! i = Some m → w_stores w !! m_store m = Some s →
  Q tt (remove_entry p i c m s w) → wp (_message_remove p i) Q w.
Proof.
  intros Hc Hm Hs HQ. unfold _message_remove. wp_steps. eapply wp_ctx_get; [done|]. cbv beta.
  rewrite Hm. wp_steps. eapply wp_store_upd; [done|]. by eapply wp_ctx_upd.
Qed.

Lemma db_ok_remove p i c m s w :
  db_ok w → w_ctxs w !! p = Some c → c_msgs c !! i = Some m → w_stores w !! m_store m = Some s →
  db_ok (remove_entry p i c m s w).
Proof.
  intros Hok Hp Hm Hs. pose proof Hok as [Hq _ Hl _ _ _].
  eapply (db_ok_step w _ p c (removed i m c)); [done..| | | |].
  - destruct (Hq p c Hp) as [H1 H2]. split; cbn.
    + pose proof (lookup_lt_Some _ _ _ Hm). rewrite length_delete by (by eexists). lia.
    + rewrite (qos12_in_delete _ _ m) by done. destruct (0 <? m_qos m); lia.
  - intros x. cbn. destruct (decide (x = m_store m)) as [->|].
    + rewrite lookup_insert_eq, Hs. split; by eexists.
    + by rewrite lookup_insert_ne.
  - intros x s1 s2 H1. cbn. rewrite (refs_in_delete _ _ _ m) by done.
    destruct (decide (x = m_store m)) as [->|]; [rewrite lookup_insert_eq|rewrite lookup_insert_ne by done];
      intros [=]; simplify_eq; case_decide; (done || cbn; lia).
  - cbn. rewrite delete_take_drop. apply Forall_app. pose proof (Hl p c Hp) as HF. cbn in HF.
    split; [by apply Forall_take|by apply Forall_drop].
Qed.

(** *** Appending an entry *)

Definition inc_ref (s : msg_store) : msg_store := s <| s_ref_count ::= λ n, n + 1 |>.
Definition appended (m : client_msg) (c : mosquitto) : mosquitto :=
  c <| c_msgs ::= λ l, l ++ [m] |> <| c_msg_count ::= λ n, n + 1 |>
    <| c_msg_count12 ::= λ n, if 0 <? m_qos m then n + 1 else n |>.
Definition append_entry (p : ctxid) (c : mosquitto) (m : client_msg) (s : msg_store) (w : world) : world :=
  w <| w_stores ::= <[m_store m := inc_ref s]> |> <| w_ctxs ::= <[p := appended m c]> |>.

Lemma db_ok_append p c m s w :
  db_ok w → w_ctxs w !! p = Some c → w_stores w !! m_store m = Some s →
  db_ok (append_entry p c m s w).
Proof.
  intros Hok Hp Hs. pose proof Hok as [Hq _ Hl _ _ _].
  eapply (db_ok_step w _ p c (appended m c)); [done..| | | |].
  - destruct (Hq p c Hp) as [H1 H2]. split; cbn.
    + rewrite length_app. cbn. lia.
    + rewrite qos12_in_app, qos12_in_cons. change (qos12_in []) with 0. destruct (0 <? m_qos m); lia.
  - intros x. cbn. destruct (decide (x = m_store m)) as [->|].
    + rewrite lookup_insert_eq, Hs. split; by eexists.
    + by rewrite lookup_insert_ne.
  - intros x s1 s2 H1. cbn. rewrite refs_in_app, refs_in_cons. change (refs_in x []) with 0.
    destruct (decide (x = m_store m)) as [->|]; [rewrite lookup_insert_eq|rewrite lookup_insert_ne by done];
      intros [=]; simplify_eq; case_decide; (done || cbn; lia).
  - cbn. apply Forall_app. split; [exact (Hl p c Hp)|]. by repeat constructor.
Qed.

(** *** Insertion *)

(** Insertion changes contexts, stored messages, the set of clients with new
    messages and the environment; the rest of the state is as it was. *)
Definition same_rest (w w' : world) : Prop :=
  ∃ ctxs stores h e, w' = w <| w_ctxs := ctxs |> <| w_stores := stores |> <| w_new_msgs_hash := h |> <| w_env := e |>.

Lemma same_rest_refl w : same_rest w w.
Proof. exists (w_ctxs w), (w_stores w), (w_new_msgs_hash w), (w_env w). by destruct w. Qed.
Lemma same_rest_trans w1 w2 w3 : same_rest w1 w2 → same_rest w2 w3 → same_rest w1 w3.
Proof. intros (?&?&?&?&->) (ctxs&stores&h&e&->). by exists ctxs, stores, h, e. Qed.

(** A stored message keeps what was published; only its reference count and
    the version for clients may change. *)
Definition store_core (s : msg_store) : Z * string * Z * option string * option (list Z) * Z * Z * bool :=
  (s_db_id s, s_source_id s, s_source_mid s, msg_topic (s_msg s), msg_payload (s_msg s),
   msg_payloadlen (s_msg s), msg_qos (s_msg s), msg_retain (s_msg s)).
Definition same_stores (w w' : world) : Prop :=
  ∀ x, store_core <$> w_stores w' !! x = store_core <$> w_stores w !! x.

Lemma same_stores_refl w : same_stores w w.
Proof. done. Qed.
Lemma same_stores_trans w1 w2 w3 : same_stores w1 w2 → same_stores w2 w3 → same_stores w1 w3.
Proof. intros H1 H2 x. by rewrite H2, H1. Qed.
Lemma same_stores_upd w w' x s s' : w_stores w !! x = Some s → store_core s' = store_core s →
  w_stores w' = <[x := s']> (w_stores w) → same_stores w w'.
Proof.
  unfold same_stores. intros Hx Hs -> y. destruct (decide (y = x)) as [->|].
  - rewrite lookup_insert_eq, Hx. cbn. by rewrite Hs.
  - by rewrite lookup_insert_ne.
Qed.
Lemma same_stores_lookup w w' x s : same_stores w w' → w_stores w !! x = Some s →
  ∃ s', w_stores w' !! x = Some s' ∧ store_core s' = store_core s.
Proof.
  intros Hs Hx. specialize (Hs x). rewrite Hx in Hs. cbn in Hs.
  destruct (w_stores w' !! x) as [s'|]; [|done]. exists s'. split; [done|]. by apply (inj Some) in Hs.
Qed.

(** The context [c] with [extra] appended to its queue: its connection, output
    queue, identity and subscriptions are unchanged. *)
Definition queued_after (c : mosquitto) (extra : list client_msg) (c' : mosquitto) : Prop :=
  c_msgs c' = c_msgs c ++ extra ∧
  c_sock c' = c_sock c ∧ c_wsi c' = c_wsi c ∧ c_id c' = c_id c ∧ c_state c' = c_state c ∧
  c_is_bridge c' = c_is_bridge c ∧ queued_packets c' = queued_packets c ∧
  c_packet_count c' = c_packet_count c ∧
  c_cert_hashes c' = c_cert_hashes c ∧ c_clean_session c' = c_clean_session c ∧
  c_subscription_count c' = c_subscription_count c ∧ c_clean_subs c' = c_clean_subs c ∧
  c_dxl_tenant_guid c' = c_dxl_tenant_guid c ∧ c_numericId c' = c_numericId c ∧
  b_name <$> c_bridge c' = b_name <$> c_bridge c ∧ c_will c' = c_will c.

Lemma queued_after_refl c : queued_after c [] c.
Proof. unfold queued_after. by rewrite app_nil_r. Qed.
Lemma queued_after_trans c1 l1 c2 l2 c3 :
  queued_after c1 l1 c2 → queued_after c2 l2 c3 → queued_after c1 (l1 ++ l2) c3.
Proof.
  intros (H1 & H2) (H3 & H4). split; [by rewrite H3, H1, app_assoc|].
  destruct_and!. split_and!; congruence.
Qed.

(** The entry an insertion makes. *)
Definition entry_for (mid : Z) (dir : msg_direction) (qos : Z) (retain : bool) (stored : storeid)
    (m : client_msg) : Prop :=
  m_store m = stored ∧ m_mid m = mid ∧ m_direction m = dir ∧ m_qos m = qos ∧ m_retain m = retain ∧
  m_dup m = false ∧ m_state m ≠ mosq_ms_invalid.

(** The effect of inserting at [p]: at most one entry, at the end. *)
Definition insert_post (p : ctxid) (P : client_msg → Prop) (w : world) (c : mosquitto) (w' : world) (n : nat) : Prop :=
  db_ok w' ∧ same_rest w w' ∧ same_stores w w' ∧
  ∃ extra c', w_ctxs w' = <[p := c']> (w_ctxs w) ∧ queued_after c extra c' ∧
    Forall P extra ∧ length extra = n ∧ (n = 1%nat → p ∈ w_new_msgs_hash w').

Lemma insert_post_none p P w c c' e : db_ok w → w_ctxs w !! p = Some c → queued_after c [] c' →
  c_msg_count c' = c_msg_count c → c_msg_count12 c' = c_msg_count12 c →
  insert_post p P w c (w <| w_ctxs ::= <[p := c']> |> <| w_env := e |>) 0.
Proof.
  intros Hok Hc Hq H1 H2. pose proof Hq as [Hm _]. rewrite app_nil_r in Hm. split_and!.
  - eapply (db_ok_same w _ p c c'); try done. by rewrite Hm.
  - exists (<[p := c']> (w_ctxs w)), (w_stores w), (w_new_msgs_hash w), e. by destruct w.
  - done.
  - exists [], c'. by split_and!.
Qed.

Lemma hash_add_in p h : p ∈ hash_add p h.
Proof.
  unfold hash_add. case_bool_decide; [done|]. apply elem_of_app. right. by apply list_elem_of_singleton.
Qed.

(** Setting the version for clients of a stored message. *)
Definition with_client_payload (bs : list Z) (s : msg_store) : msg_store :=
  s <| s_msg ::= λ m, m <| msg_client_payload := Some bs |> <| msg_client_payloadlen := Z.of_nat (length bs) |> |>.

Lemma db_ok_client_payload w x s bs : db_ok w → w_stores w !! x = Some s →
  db_ok (w <| w_stores ::= <[x := with_client_payload bs s]> |>).
Proof.
  intros [Hq Hr Hl Hn Hls Hc] Hx.
  assert (∀ y, is_Some (<[x := with_client_payload bs s]> (w_stores w) !! y) ↔ is_Some (w_stores w !! y)) as Hdom.
  { intros y. destruct (decide (y = x)) as [->|]; [|by rewrite lookup_insert_ne].
    rewrite lookup_insert_eq, Hx. split; by eexists. }
  split; cbn; try done.
  - apply map_Forall_insert_2; [|done]. exact (Hr x s Hx).
  - intros q c Hqc. eapply Forall_impl; [exact (Hl q c Hqc)|]. intros m ?. by apply Hdom.
  - intros y. by rewrite Hls, Hdom.
Qed.

Lemma insert_accept p mid dir qos retain stored state cm rc w c s :
  db_ok w → w_ctxs w !! p = Some c → w_stores w !! stored = Some s → state ≠ mosq_ms_invalid →
  wp (insert_link p mid dir qos retain stored state cm;; lazy_reconnect p;; (mret rc : ST world Z))
    (λ rc' w', rc' = rc ∧
      insert_post p (λ m, entry_for mid dir qos retain stored m ∧ m_state m = state) w c w' 1) w.
Proof.
  intros Hok Hc Hs Hst. unfold insert_link. wp_steps. eapply wp_store_upd; [done|]. wp_steps.
  apply wp_ext. intros t e _. cbv zeta. wp_steps. eapply wp_ctx_upd; [done|]. wp_steps.
  unfold mosquitto_add_new_msgs_set, lazy_reconnect. wp_steps.
  eapply wp_ctx_upd; [apply lookup_insert_eq|]. wp_steps.
  split; [done|].
  set (m := mk_client_msg stored mid qos retain t dir state false cm).
  pose proof (db_ok_append p c m s w Hok Hc Hs) as Hok1.
  set (f := lazy_flag (appended m c)).
  split_and!.
  - eapply (db_ok_same _ _ p (appended m c) (appended m c <| c_bridge ::= fmap f |>) Hok1);
      [apply lookup_insert_eq|done..].
  - eexists _, _, _, _. done.
  - eapply same_stores_upd; [done| |done]. done.
  - exists [m], (appended m c <| c_bridge ::= fmap f |>). split_and!; [| |by repeat constructor|done|].
    + cbn. by rewrite insert_insert_eq.
    + repeat split. cbn. unfold f, lazy_flag. destruct (c_bridge c); [cbn; by case_match|done].
    + intros _. apply hash_add_in.
Qed.

Lemma insert_post_from p P w w1 c w' n :
  w_ctxs w1 = w_ctxs w → same_rest w w1 → same_stores w w1 →
  insert_post p P w1 c w' n → insert_post p P w c w' n.
Proof.
  intros Hc Hr Hs (Hok & Hr' & Hs' & extra & c' & Hw & Hrest). split_and!; [done|..].
  - by eapply same_rest_trans.
  - by eapply same_stores_trans.
  - exists extra, c'. by rewrite <-Hc.
Qed.

Lemma insert_state_valid max_inflight max_queued c dir qos state rc :
  0 <= qos <= 2 → insert_state max_inflight max_queued c dir qos = inr (state, rc) →
  state ≠ mosq_ms_invalid.
Proof.
  unfold insert_state, publish_state. intros Hq He.
  repeat case_match; simplify_eq; try done; lia.
Qed.

Lemma insert_approved_spec p mid dir qos retain stored c s state rc w :
  db_ok w → w_ctxs w !! p = Some c → w_stores w !! stored = Some s → state ≠ mosq_ms_invalid →
  wp (insert_approved p mid dir qos retain stored c s state rc)
    (λ rc' w', ∃ n, insert_post p (λ m, entry_for mid dir qos retain stored m ∧ m_state m = state) w c w' n ∧ (n <= 1)%nat ∧
      (fst (fst (fst (dxl_on_insert_message c s (w_env w)))) = true → n = 1%nat ∧ rc' = rc)) w.
Proof.
  intros Hok Hc Hs Hst. unfold insert_approved. wp_steps. apply wp_ext.
  intros [[success cm] cp] e ->. cbn [fst]. wp_steps.
  assert (same_rest w (w <| w_env := e |>)) as Hr.
  { exists (w_ctxs w), (w_stores w), (w_new_msgs_hash w), e. by destruct w. }
  assert (∀ w1, w_ctxs w1 = w_ctxs w → same_rest w w1 → same_stores w w1 → db_ok w1 →
    wp (if success : bool then insert_link p mid dir qos retain stored state cm;;
          lazy_reconnect p;; (mret rc : ST world Z) else mret MOSQ_ERR_SUCCESS)
    (λ rc' w', ∃ n, insert_post p (λ m, entry_for mid dir qos retain stored m ∧ m_state m = state) w c w' n ∧ (n <= 1)%nat ∧
      (success = true → n = 1%nat ∧ rc' = rc)) w1) as Hfin.
  { intros w1 Hw1 Hr1 Hs1 Hok1. destruct success.
    - destruct (same_stores_lookup _ _ _ _ Hs1 Hs) as (s1 & Hs1' & _).
      eapply wp_mono; [eapply insert_accept; [done|by rewrite Hw1|done..]|].
      intros rc' w' [-> Hp]. exists 1%nat. split; [|done]. by eapply insert_post_from.
    - wp_steps. exists 0%nat. split; [|split; [lia|done]]. eapply insert_post_from; [done..|].
      split_and!; [done|apply same_rest_refl|done|]. exists [], c. split_and!; try done.
      + by rewrite insert_id by (by rewrite Hw1).
      + apply queued_after_refl. }
  assert (db_ok (w <| w_env := e |>)) as Hok1 by (apply (db_ok_frame w); done).
  destruct cp as [bs|]; wp_steps; [|apply Hfin; done].
  eapply wp_store_upd; [done|]. apply Hfin; [done| | |].
  - exists (w_ctxs w), (<[stored := with_client_payload bs s]> (w_stores w)), (w_new_msgs_hash w), e. by destruct w.
  - by apply (same_stores_upd _ _ stored s (with_client_payload bs s)).
  - by apply (db_ok_client_payload _ stored s bs).
Qed.

(** The guards of [mqtt3_db_message_insert] let the message through: the
    client is connected and its output is not over the limit, or it is
    disconnected and messages of this kind are kept for it. *)
Definition insert_open (w : world) (c : mosquitto) (qos : Z) : bool :=
  if is_context_invalid c then (negb (qos =? 0)) || cfg_queue_qos0_messages (w_config w) || lazy_bridge c
  else c_packet_count c <? w_max_packet_buffer_size w.

Definition insert_summary p mid dir qos retain stored (w : world) c s (rc : Z) (w' : world) : Prop :=
  ∃ n, insert_post p (entry_for mid dir qos retain stored) w c w' n ∧ (n <= 1)%nat ∧
    (∀ state rc0, insert_open w c qos = true →
      insert_state (w_max_inflight w) (w_max_queued w) c dir qos = inr (state, rc0) →
      fst (fst (fst (dxl_on_insert_message c s (w_env w)))) = true →
      n = 1%nat ∧ rc = rc0 ∧ insert_post p (λ m, m_state m = state) w c w' n).

Lemma insert_post_impl p (P P' : client_msg → Prop) w c w' n :
  (∀ m, P m → P' m) → insert_post p P w c w' n → insert_post p P' w c w' n.
Proof.
  intros HP (?&?&?&extra&c'&?&?&HF&?&?). split_and!; [done..|]. exists extra, c'.
  split_and!; try done. by eapply Forall_impl.
Qed.

Lemma insert_summary_none p mid dir qos retain stored w c s rc c' e :
  db_ok w → w_ctxs w !! p = Some c → queued_after c [] c' →
  c_msg_count c' = c_msg_count c → c_msg_count12 c' = c_msg_count12 c →
  (insert_open w c qos = false ∨ ∃ r, insert_state (w_max_inflight w) (w_max_queued w) c dir qos = inl r) →
  insert_summary p mid dir qos retain stored w c s rc (w <| w_ctxs ::= <[p := c']> |> <| w_env := e |>).
Proof.
  intros ????? Hno. exists 0%nat. split; [by apply insert_post_none|]. split; [lia|].
  intros state rc0 Ho Hi. destruct Hno as [?|[r ?]]; congruence.
Qed.

Lemma env_as_ctx w p c e : w_ctxs w !! p = Some c →
  w <| w_env := e |> = w <| w_ctxs ::= <[p := c]> |> <| w_env := e |>.
Proof. intros. destruct w; cbn in *. by rewrite insert_id. Qed.
Lemma env_self w : w <| w_env := w_env w |> = w.
Proof. by destruct w. Qed.

(** The decision and what follows it, in a state that differs from [w] in the
    environment. *)
Lemma insert_decided_spec p mid dir qos retain stored w c s e :
  db_ok w → w_ctxs w !! p = Some c → w_stores w !! stored = Some s → 0 <= qos <= 2 →
  (e = w_env w ∨ insert_open w c qos = false) →
  wp (match insert_state (w_max_inflight w) (w_max_queued w) c dir qos with
      | inl (rc, dropped) =>
        (if (dropped : bool) then ctx_upd p (λ c, c <| c_is_dropping := true |>) else mret tt);; mret rc
      | inr (state, rc) =>
        assert_ (bool_decide (state ≠ mosq_ms_invalid));;
        insert_approved p mid dir qos retain stored c s state rc
      end) (insert_summary p mid dir qos retain stored w c s) (w <| w_env := e |>).
Proof.
  intros Hok Hc Hs Hq He.
  destruct (insert_state _ _ c dir qos) as [[rc dropped]|[state rc]] eqn:Hst.
  - destruct dropped; wp_steps.
    + eapply wp_ctx_upd; [done|]. wp_steps.
      apply (insert_summary_none _ _ _ _ _ _ w c s rc (c <| c_is_dropping := true |>) e); eauto.
      unfold queued_after; cbn. by rewrite app_nil_r.
    + rewrite (env_as_ctx w p c) by done. apply insert_summary_none; eauto. apply queued_after_refl.
  - pose proof (insert_state_valid _ _ _ _ _ _ _ Hq Hst) as Hv.
    wp_steps; [by apply bool_decide_eq_true_2|].
    assert (db_ok (w <| w_env := e |>)) as Hok1 by (apply (db_ok_frame w); done).
    assert (same_rest w (w <| w_env := e |>)) as Hr.
    { exists (w_ctxs w), (w_stores w), (w_new_msgs_hash w), e. by destruct w. }
    eapply wp_mono; [by apply insert_approved_spec|].
    intros rc' w' (n & Hp & Hn & Hacc). apply (insert_post_from p _ w) in Hp; [|done..].
    exists n. split; [eapply insert_post_impl; [|exact Hp]; naive_solver|]. split; [done|].
    intros state' rc0 Ho Hst' Hd. rewrite Hst in Hst'. injection Hst' as <- <-. destruct He as [->|He]; [|congruence].
    destruct (Hacc Hd) as [-> ->]. split_and!; [done..|].
    eapply insert_post_impl; [|exact Hp]. naive_solver.
Qed.

Lemma message_insert_spec p mid dir qos retain stored w c s :
  db_ok w → w_ctxs w !! p = Some c → w_stores w !! stored = Some s → 0 <= qos <= 2 →
  wp (mqtt3_db_message_insert p mid dir qos retain stored)
    (insert_summary p mid dir qos retain stored w c s) w.
Proof.
  intros Hok Hc Hs Hq. unfold mqtt3_db_message_insert. wp_steps. eapply wp_ctx_get; [done|]. wp_steps.
  eapply wp_store_get; [done|]. cbv beta.
  destruct (is_context_invalid c && _ && _ && _) eqn:Hg.
  { wp_steps. rewrite <-(env_self w) at 2. rewrite (env_as_ctx w p c) by done.
    apply insert_summary_none; [done..|apply queued_after_refl|done|done|]. left.
    unfold insert_open. destruct (is_context_invalid c); [|done]. cbn in Hg.
    destruct (qos =? 0), (cfg_queue_qos0_messages _), (lazy_bridge c); done. }
  wp_steps. destruct (negb _ && _) eqn:He.
  - apply wp_ext. intros b e _.
    assert (insert_open w c qos = false) as Ho.
    { unfold insert_open. destruct (is_context_invalid c); [done|]. cbn in He. lia. }
    destruct b; wp_steps.
    + rewrite (env_as_ctx w p c) by done.
      apply insert_summary_none; [done..|apply queued_after_refl|done|done|by left].
    + apply (insert_decided_spec p mid dir qos retain stored w c s e); auto.
  - wp_steps. pose proof (insert_decided_spec p mid dir qos retain stored w c s (w_env w)) as Hd.
    rewrite env_self in Hd. apply Hd; auto.
Qed.

(** ** Work on the queue of one client *)

(** [c'] differs from [c] in its message queue only. *)
Definition msgs_only (c c' : mosquitto) : Prop :=
  c' <| c_msgs := c_msgs c |> <| c_msg_count := c_msg_count c |> <| c_msg_count12 := c_msg_count12 c |> = c.

Lemma msgs_only_refl c : msgs_only c c.
Proof. by destruct c. Qed.
Lemma msgs_only_trans c1 c2 c3 : msgs_only c1 c2 → msgs_only c2 c3 → msgs_only c1 c3.
Proof. unfold msgs_only. destruct c1, c2, c3. cbn. intros [=] [=]. by subst. Qed.

(** The stored messages are unchanged but for their reference counts. *)
Definition uncounted (s : msg_store) : msg_store := s <| s_ref_count := 0 |>.
Definition same_content (w w' : world) : Prop :=
  ∀ x, uncounted <$> w_stores w' !! x = uncounted <$> w_stores w !! x.

Lemma same_content_trans w1 w2 w3 : same_content w1 w2 → same_content w2 w3 → same_content w1 w3.
Proof. intros H1 H2 x. by rewrite H2, H1. Qed.
Lemma same_content_lookup w w' x s : same_content w w' → w_stores w !! x = Some s →
  ∃ s', w_stores w' !! x = Some s' ∧ uncounted s' = uncounted s.
Proof.
  intros Hs Hx. specialize (Hs x). rewrite Hx in Hs. cbn in Hs.
  destruct (w_stores w' !! x) as [s'|]; [|done]. exists s'. split; [done|]. by apply (inj Some) in Hs.
Qed.

(** From [w] to [w'] the queue of [c] at [p] became that of [c']: reference
    counts follow, other contexts, stored content and everything else stay. *)
Definition queue_step (p : ctxid) (w : world) (c : mosquitto) (w' : world) (c' : mosquitto) : Prop :=
  (∃ stores e, w' = w <| w_ctxs ::= <[p := c']> |> <| w_stores := stores |> <| w_env := e |>) ∧
  msgs_only c c' ∧ same_content w w' ∧ db_ok w'.

Lemma queue_step_lookup p w c w' c' : queue_step p w c w' c' → w_ctxs w' !! p = Some c'.
Proof. intros ((?&?&->)&_). cbn. apply lookup_insert_eq. Qed.
Lemma queue_step_ok p w c w' c' : queue_step p w c w' c' → db_ok w'.
Proof. by intros (?&?&?&?). Qed.
Lemma queue_step_refl p w c e : db_ok w → w_ctxs w !! p = Some c → queue_step p w c (w <| w_env := e |>) c.
Proof.
  intros Hok Hc. split; [|split; [apply msgs_only_refl|split; [done|by apply (db_ok_frame w)]]].
  exists (w_stores w), e. destruct w; cbn in *. by rewrite insert_id.
Qed.
Lemma queue_step_trans p w1 c1 w2 c2 w3 c3 :
  queue_step p w1 c1 w2 c2 → queue_step p w2 c2 w3 c3 → queue_step p w1 c1 w3 c3.
Proof.
  intros ((s2&e2&->)&Ho2&Hs2&_) ((s3&e3&->)&Ho3&Hs3&Hok). split; [|split; [by eapply msgs_only_trans|split]].
  - exists s3, e3. cbn. by rewrite insert_insert_eq.
  - by eapply same_content_trans.
  - done.
Qed.
Lemma queue_step_max p w c w' c' : queue_step p w c w' c' → w_max_inflight w' = w_max_inflight w.
Proof. by intros ((?&?&->)&_). Qed.

(** The context with entry [i] of its queue changed by [f]. *)
Definition with_msg (f : client_msg → client_msg) (i : nat) (c : mosquitto) : mosquitto :=
  c <| c_msgs ::= alter f i |>.

Lemma wp_msg_upd p i f w c (Q : () → world → Prop) :
  (∀ m, sig (f m) = sig m) → db_ok w → w_ctxs w !! p = Some c →
  (∀ w', queue_step p w c w' (with_msg f i c) → Q tt w') → wp (msg_upd p i f) Q w.
Proof.
  intros Hf Hok Hc HQ. unfold msg_upd. eapply wp_ctx_upd; [done|]. apply HQ.
  split; [|split; [by destruct c|split; [done|]]].
  - exists (w_stores w), (w_env w). by destruct w.
  - eapply (db_ok_same w _ p c (with_msg f i c)); try done. cbn. by apply sig_alter.
Qed.

Lemma wp_remove p i w c m (Q : () → world → Prop) :
  db_ok w → w_ctxs w !! p = Some c → c_msgs c !! i = Some m →
  (∀ w', queue_step p w c w' (removed i m c) → w_env w' = w_env w → Q tt w') → wp (_message_remove p i) Q w.
Proof.
  intros Hok Hc Hm HQ. destruct (Forall_lookup_1 _ _ _ _ (ok_live _ Hok p c Hc) Hm) as [s Hs].
  eapply wp_message_remove; [done..|]. apply HQ; [|done].
  split; [|split; [by destruct c|split; [|by apply db_ok_remove]]].
  - exists (<[m_store m := dec_ref s]> (w_stores w)), (w_env w). by destruct w.
  - intros x. cbn. destruct (decide (x = m_store m)) as [->|]; [|by rewrite lookup_insert_ne].
    by rewrite lookup_insert_eq, Hs.
Qed.

Lemma wp_msg_get p i w c (Q : option client_msg → world → Prop) :
  w_ctxs w !! p = Some c → Q (c_msgs c !! i) w → wp (msg_get p i) Q w.
Proof. intros. unfold msg_get. wp_steps. eapply wp_ctx_get; [done|]. by wp_steps. Qed.

(** A step that keeps every entry up to its progress. *)
Definition progress_step (p : ctxid) (w : world) (c : mosquitto) (w' : world) (c' : mosquitto) : Prop :=
  queue_step p w c w' c' ∧ map sig (c_msgs c') = map sig (c_msgs c).

Lemma progress_refl p w c e : db_ok w → w_ctxs w !! p = Some c → progress_step p w c (w <| w_env := e |>) c.
Proof. intros. split; [by apply queue_step_refl|done]. Qed.
Lemma progress_self p w c : db_ok w → w_ctxs w !! p = Some c → progress_step p w c w c.
Proof. intros. rewrite <-(env_self w) at 2. by apply progress_refl. Qed.
Lemma progress_trans p w1 c1 w2 c2 w3 c3 :
  progress_step p w1 c1 w2 c2 → progress_step p w2 c2 w3 c3 → progress_step p w1 c1 w3 c3.
Proof. intros [H1 E1] [H2 E2]. split; [by eapply queue_step_trans|congruence]. Qed.
Lemma progress_upd p w c w' f i : (∀ m, sig (f m) = sig m) →
  queue_step p w c w' (with_msg f i c) → progress_step p w c w' (with_msg f i c).
Proof. intros Hf Hs. split; [done|]. cbn. by apply sig_alter. Qed.

Lemma unqueue_spec p i m w c : db_ok w → w_ctxs w !! p = Some c →
  wp (unqueue p i m) (λ b w', (m_direction m = mosq_md_out → b = false) ∧ ∃ c', progress_step p w c w' c') w.
Proof.
  intros Hok Hc. unfold unqueue. wp_steps. apply wp_ext. intros t e _. wp_steps.
  pose proof (progress_refl p w c e Hok Hc) as H0.
  eapply (wp_msg_upd p i _ _ c); [done|by apply (queue_step_ok _ _ _ _ _ (proj1 H0))|done|].
  intros w1 H1. apply progress_upd in H1; [|done].
  pose proof (progress_trans _ _ _ _ _ _ _ H0 H1) as H01.
  destruct (m_direction m); wp_steps; [split; [done|by eauto]|].
  eapply wp_msg_upd; [done|eapply queue_step_ok, H01|eapply queue_step_lookup, H01|].
  intros w2 H2. wp_steps. apply progress_upd in H2; [|done]. split; [done|].
  eexists. eapply progress_trans; [exact H01|exact H2].
Qed.

(** *** Deletion *)

Definition hit (mid : Z) (dir : msg_direction) (σ : storeid * Z * Z * msg_direction) : bool :=
  let '(_, _, mid', dir') := σ in (mid' =? mid) && bool_decide (dir' = dir).

(** [suf] after the matching entries of its first [j] are gone. *)
Definition cut (mid : Z) (dir : msg_direction) (j : nat) (suf : list (storeid * Z * Z * msg_direction)) :=
  filter (λ σ, hit mid dir σ = false) (take j suf) ++ drop j suf.

Lemma cut_0 mid dir suf : cut mid dir 0 suf = suf.
Proof. done. Qed.
Lemma cut_S mid dir j σ suf :
  cut mid dir (S j) (σ :: suf) = (if hit mid dir σ then [] else [σ]) ++ cut mid dir j suf.
Proof. unfold cut. rewrite firstn_cons, filter_cons. by destruct (hit mid dir σ). Qed.

Lemma sig_lookup_mid l (pre suf : list _) : map sig l = pre ++ suf →
  sig <$> l !! length pre = head suf.
Proof.
  intros Hl. rewrite <-list_lookup_fmap. change (sig <$> l) with (map sig l). rewrite Hl.
  rewrite lookup_app_r, Nat.sub_diag by lia. by destruct suf.
Qed.
Lemma sig_delete_mid l (pre suf : list _) σ : map sig l = pre ++ σ :: suf →
  map sig (delete (length pre) l) = pre ++ suf.
Proof.
  intros Hl. change (map sig (delete (length pre) l)) with (sig <$> delete (length pre) l).
  rewrite list_fmap_delete. change (sig <$> l) with (map sig l). by rewrite Hl, delete_middle.
Qed.

Lemma message_delete_loop_spec fuel p mid dir pre suf idx deleted w c :
  db_ok w → w_ctxs w !! p = Some c → map sig (c_msgs c) = pre ++ suf → (length suf <= fuel)%nat →
  wp (message_delete_loop fuel p mid dir (length pre) idx deleted)
    (λ rc w', rc = MOSQ_ERR_SUCCESS ∧ ∃ c' j, queue_step p w c w' c' ∧
      map sig (c_msgs c') = pre ++ cut mid dir j suf ∧
      ((j < length suf)%nat → deleted = true ∨ Exists (λ σ, hit mid dir σ = true) (take j suf))) w.
Proof.
  revert pre suf idx deleted w c. induction fuel as [|fuel IH]; intros pre suf idx deleted w c Hok Hc Hsig Hf;
    cbn [message_delete_loop]; wp_steps; (eapply wp_msg_get; [done|]); pose proof (sig_lookup_mid _ _ _ Hsig) as Hm;
    destruct (c_msgs c !! length pre) as [m|] eqn:Hmi; destruct suf as [|σ suf]; try done.
  2,4: wp_steps; split; [done|]; exists c, 0%nat; split; [by apply progress_self|split; [done|cbn; lia]].
  { cbn in Hf. lia. }
  cbn in Hm. apply (inj Some) in Hm. cbn in Hf. wp_steps.
  set (b := bool_decide _ && _). clearbody b.
  set (found := (m_mid m =? mid) && bool_decide (m_direction m = dir)).
  assert (hit mid dir σ = found) as Hhit by (by rewrite <-Hm). clearbody found.
  eapply (wp_mono _ (λ _ w1, ∃ c1, progress_step p w c w1 c1)).
  { destruct b; wp_steps; [|exists c; by apply progress_self].
    eapply wp_mono; [by apply unqueue_spec|]. intros b1 w1 (_ & c1 & H1). destruct b1; wp_steps; [|by eauto].
    eapply wp_msg_upd; [done|eapply queue_step_ok, H1|eapply queue_step_lookup, H1|].
    intros w2 H2. apply progress_upd in H2; [|done]. eexists. eapply progress_trans; [exact H1|exact H2]. }
  intros _ w1 (c1 & H1 & Hsig1). rewrite Hsig in Hsig1.
  pose proof (queue_step_ok _ _ _ _ _ H1) as Hok1. pose proof (queue_step_lookup _ _ _ _ _ H1) as Hc1.
  wp_steps. destruct found; wp_steps.
  - pose proof (sig_lookup_mid _ _ _ Hsig1) as Hm1. destruct (c_msgs c1 !! length pre) as [m1|] eqn:Hmi1; [|done].
    eapply wp_remove; [done..|]. intros w2 H2 _. pose proof (queue_step_trans _ _ _ _ _ _ _ H1 H2) as H12.
    pose proof (sig_delete_mid _ _ _ _ Hsig1) as Hsig2. rewrite orb_true_r.
    destruct (_ && true); wp_steps.
    + split; [done|]. exists (removed (length pre) m1 c1), 1%nat. split; [done|]. split.
      * cbn [removed c_msgs upd]. by rewrite cut_S, cut_0, Hhit.
      * intros _. right. by constructor.
    + eapply wp_mono; [eapply (IH pre suf _ _ w2 (removed (length pre) m1 c1));
        [eapply queue_step_ok, H2|eapply queue_step_lookup, H2|done|lia]|].
      intros rc w3 (-> & c3 & j & H3 & Hs3 & Hj). split; [done|]. exists c3, (S j).
      split; [by eapply queue_step_trans|]. split.
      * by rewrite Hs3, cut_S, Hhit.
      * intros _. right. by constructor.
  - rewrite orb_false_r. destruct (_ && deleted) eqn:Hd; wp_steps.
    + split; [done|]. exists c1, 0%nat. split; [done|]. split; [done|]. intros _. left.
      by destruct deleted; [|rewrite andb_false_r in Hd].
    + replace (S (length pre)) with (length (pre ++ [σ])) by (rewrite length_app; cbn; lia).
      eapply wp_mono; [eapply (IH (pre ++ [σ]) suf _ _ w1 c1); [done..|by rewrite <-app_assoc|lia]|].
      intros rc w3 (-> & c3 & j & H3 & Hs3 & Hj). split; [done|]. exists c3, (S j).
      split; [by eapply queue_step_trans|]. split.
      * by rewrite Hs3, cut_S, Hhit, <-app_assoc.
      * cbn. intros. destruct Hj as [?|?]; [lia|by left|right]. by constructor.
Qed.
End invariant.
