(* ===== verification/StoreProofs.v ===== *)
(** * The message database: removal and cleaning

    Acknowledging a message removes exactly its entry; dropping a client's
    queue gives its references back; cleaning the store frees the messages
    nothing refers to, and only those. *)

From S2P Require Import Prelude Topic State Packet PacketProofs Writer Database DatabaseProofs.
From stdpp Require Import options.

(** ** Deletion of an acknowledged message *)

Lemma cut_all mid dir j suf :
  (length (filter (λ σ, hit mid dir σ = true) suf) <= 1)%nat →
  ((j < length suf)%nat → Exists (λ σ, hit mid dir σ = true) (take j suf)) →
  cut mid dir j suf = filter (λ σ, hit mid dir σ = false) suf.
Proof.
  intros Huniq Hj. unfold cut. rewrite <-(take_drop j suf) at 3. rewrite filter_app. f_equal.
  destruct (decide (j < length suf)%nat) as [Hlt|Hge]; [|rewrite drop_ge by lia; done].
  symmetry. apply filter_Forall. rewrite <-(take_drop j suf), filter_app, length_app in Huniq.
  apply Forall_forall. intros σ Hσ. destruct (hit mid dir σ) eqn:Hh; [exfalso|done].
  assert (σ ∈ filter (λ σ, hit mid dir σ = true) (drop j suf)) as H1 by (by apply list_elem_of_filter).
  apply Exists_exists in Hj as (σ' & Hσ' & Hh'); [|done].
  assert (σ' ∈ filter (λ σ, hit mid dir σ = true) (take j suf)) as H2 by (by apply list_elem_of_filter).
  apply list_elem_of_In, in_split in H1 as (?&?&H1). apply list_elem_of_In, in_split in H2 as (?&?&H2).
  rewrite H1, H2, !length_app in Huniq. cbn in Huniq. lia.
Qed.

Lemma refs_in_zero x l : Forall (λ m, m_store m ≠ x) l → refs_in x l = 0.
Proof. induction 1 as [|m l Hm _ IH]; [done|]. by rewrite refs_in_cons, decide_False, IH. Qed.

Lemma refs_zero ctxs x : map_Forall (λ _ c, Forall (λ m, m_store m ≠ x) (c_msgs c)) ctxs → refs ctxs x = 0.
Proof.
  unfold refs. apply (map_fold_weak_ind (λ n ctxs, map_Forall _ ctxs → n = 0)); [done|].
  intros p c ctxs' n Hp IH HF. apply map_Forall_insert in HF as [Hc HF]; [|done].
  rewrite IH by done. by rewrite refs_in_zero.
Qed.

Section store_proofs.
Context `{Env}.

(** Acknowledging a message removes exactly its entry. When at most one
    entry of the client's queue has the acknowledged message id and
    direction, [mqtt3_db_message_delete] returns, takes that entry out of the
    queue, keeps the order of the others, lowers the reference count of its
    stored message, and leaves every other client alone. *)
Theorem message_delete_exact p mid dir w c :
  db_ok w → w_ctxs w !! p = Some c →
  (length (filter (λ σ, hit mid dir σ = true) (map sig (c_msgs c))) <= 1)%nat →
  wp (mqtt3_db_message_delete p mid dir)
    (λ rc w', rc = MOSQ_ERR_SUCCESS ∧ ∃ c', queue_step p w c w' c' ∧
      map sig (c_msgs c') = filter (λ σ, hit mid dir σ = false) (map sig (c_msgs c))) w.
Proof.
  intros Hok Hc Hu. unfold mqtt3_db_message_delete. wp_steps. eapply wp_ctx_get; [done|]. cbv beta.
  eapply wp_mono; [eapply (message_delete_loop_spec _ p mid dir [] (map sig (c_msgs c)));
    [done..|by rewrite length_map]|].
  intros rc w' (-> & c' & j & Hs & Hsig & Hj). split; [done|]. exists c'. split; [done|].
  rewrite Hsig. cbn. apply cut_all; [done|]. intros Hlt. by destruct (Hj Hlt).
Qed.

(** ** Dropping a queue *)

Lemma release_refs_spec l w :
  Forall (λ m, is_Some (w_stores w !! m_store m)) l →
  wp (release_refs l) (λ _ w', ∃ stores, w' = w <| w_stores := stores |> ∧ same_stores w w' ∧
    ∀ x s s', w_stores w !! x = Some s → stores !! x = Some s' →
      s_ref_count s' = s_ref_count s - refs_in x l) w.
Proof.
  revert w. induction l as [|m l IH]; intros w Hl; cbn [release_refs].
  { wp_steps. exists (w_stores w). split_and!; [by destruct w|done|].
    intros x s s' ??. simplify_eq. change (refs_in x []) with 0. lia. }
  apply Forall_cons in Hl as [[s Hs] Hl]. wp_steps. eapply wp_store_upd; [done|].
  set (w1 := w <| w_stores ::= <[m_store m := dec_ref s]> |>).
  assert (same_stores w w1) as Hs1 by (by apply (same_stores_upd _ _ (m_store m) s (dec_ref s))).
  eapply wp_mono; [apply (IH w1)|].
  { eapply Forall_impl; [done|]. intros m' [s' Hs']. destruct (same_stores_lookup _ _ _ _ Hs1 Hs') as (?&?&_). by eexists. }
  intros _ w' (stores & -> & Hs2 & Href). exists stores. split_and!; [done|by eapply same_stores_trans|].
  intros x s1 s2 Hx Hx2. rewrite refs_in_cons. subst w1. cbn in Href.
  destruct (decide (m_store m = x)) as [<-|Hne].
  - rewrite Hs in Hx. simplify_eq. rewrite (Href (m_store m) (dec_ref s1) s2); [cbn; lia|apply lookup_insert_eq|done].
  - rewrite (Href x s1 s2); [lia|by rewrite lookup_insert_ne|done].
Qed.

Definition emptied (c : mosquitto) : mosquitto :=
  c <| c_msgs := [] |> <| c_msg_count := 0 |> <| c_msg_count12 := 0 |> <| c_subscription_count := 0 |>.

Lemma messages_delete_spec p w c :
  db_ok w → w_ctxs w !! p = Some c →
  wp (mqtt3_db_messages_delete p) (λ rc w', rc = MOSQ_ERR_SUCCESS ∧ db_ok w' ∧ same_stores w w' ∧
    ∃ stores, w' = w <| w_ctxs ::= <[p := emptied c]> |> <| w_stores := stores |>) w.
Proof.
  intros Hok Hc. unfold mqtt3_db_messages_delete. wp_steps. eapply wp_ctx_get; [done|]. wp_steps.
  eapply wp_mono; [apply release_refs_spec, (ok_live _ Hok p c Hc)|].
  intros _ w1 (stores & -> & Hs & Href). wp_steps. eapply wp_ctx_upd; [done|]. wp_steps.
  split; [done|]. split; [|split; [done|]].
  - eapply (db_ok_step w _ p c (emptied c)); [done..| | | |by constructor].
    + done.
    + intros x. specialize (Hs x). cbn in *. destruct (stores !! x), (w_stores w !! x);
        try done; split; (by intros []) || by eexists.
    + intros x s s' Hx Hx'. rewrite (Href x s s' Hx Hx'). cbn. change (refs_in x []) with 0. lia.
  - exists stores. by destruct w.
Qed.

(** ** Cleaning the store *)

(** The stores after the unreferenced messages of [l] are freed. *)
Definition swept (l : list storeid) (stores stores' : gmap storeid msg_store) : Prop :=
  ∀ x, stores' !! x = match stores !! x with
                      | Some s => if decide (x ∈ l ∧ s_ref_count s = 0) then None else Some s
                      | None => None
                      end.

Lemma store_clean_loop_spec l w :
  NoDup l → Forall (λ x, is_Some (w_stores w !! x)) l →
  wp (store_clean_loop l) (λ r w', ∃ stores n e,
    w' = w <| w_stores := stores |> <| w_msg_store_count := n |> <| w_env := e |> ∧
    swept l (w_stores w) stores ∧
    (∀ x, x ∈ r ↔ x ∈ l ∧ is_Some (stores !! x)) ∧ NoDup r ∧
    w_msg_store_count w - n = Z.of_nat (length l) - Z.of_nat (length r)) w.
Proof.
  revert w. induction l as [|x l IH]; intros w Hnd Hl; cbn [store_clean_loop].
  { wp_steps. exists (w_stores w), (w_msg_store_count w), (w_env w). split_and!.
    - by destruct w.
    - intros x. destruct (w_stores w !! x); [|done]. rewrite decide_False; [done|]. intros [Hx _]. by apply not_elem_of_nil in Hx.
    - intros x. split; [intros Hx; by apply not_elem_of_nil in Hx|intros [Hx _]; by apply not_elem_of_nil in Hx].
    - by constructor.
    - cbn. lia. }
  apply Forall_cons in Hl as [[s Hs] Hl]. apply NoDup_cons in Hnd as [Hx Hnd].
  wp_steps. eapply wp_store_get; [done|]. cbv beta.
  destruct (Z.eqb_spec (s_ref_count s) 0) as [Hz|Hz]; wp_steps.
  - apply wp_ext_. wp_steps. eapply wp_mono; [apply IH; [done|]|].
    { apply Forall_forall. intros y Hy. cbn. rewrite lookup_delete_ne by (by intros ->).
      by apply (proj1 (Forall_forall _ _) Hl). }
    intros r w' (stores & n & e & -> & Hsw & Hr & Hnr & Hn). exists stores, n, e. split_and!; [by destruct w| | |done|].
    + intros y. rewrite (Hsw y). cbn. destruct (decide (y = x)) as [->|Hne].
      * rewrite lookup_delete_eq, Hs, decide_True; [done|]. split; [apply list_elem_of_here|done].
      * rewrite lookup_delete_ne by done. destruct (w_stores w !! y); [|done].
        apply decide_ext. rewrite elem_of_cons. tauto.
    + intros y. rewrite Hr, elem_of_cons. split; [by intuition|]. intros [[->|?] Hy]; [|done].
      exfalso. rewrite (Hsw x) in Hy. cbn in Hy. rewrite lookup_delete_eq in Hy. by destruct Hy.
    + cbn in Hn. rewrite length_cons. lia.
  - eapply wp_mono; [by apply IH|].
    intros r w' (stores & n & e & -> & Hsw & Hr & Hnr & Hn). wp_steps. exists stores, n, e. split_and!; [done| | | |].
    + intros y. rewrite (Hsw y). destruct (decide (y = x)) as [->|Hne].
      * rewrite Hs. rewrite !decide_False; [done|by intros []..].
      * destruct (w_stores w !! y); [|done]. apply decide_ext. rewrite elem_of_cons. tauto.
    + intros y. rewrite !elem_of_cons, Hr. split; [|by intuition].
      intros [->|?]; [|by intuition]. split; [by left|]. rewrite (Hsw x), Hs, decide_False; [by eexists|by intros []].
    + constructor; [|done]. rewrite Hr. by intros [].
    + rewrite !length_cons. lia.
Qed.

(** Cleaning the store frees exactly the messages no queue refers to. The
    loop never follows a dangling pointer, a message that some client's queue
    still holds survives unchanged, every other one is gone, and the list of
    stored messages and its count stay consistent. *)
Theorem store_clean_frees_unreferenced w :
  db_ok w →
  wp mqtt3_db_store_clean (λ _ w', db_ok w' ∧ w_ctxs w' = w_ctxs w ∧ w_subs w' = w_subs w ∧
    ∀ x s, w_stores w !! x = Some s →
      w_stores w' !! x = if decide (0 < refs (w_ctxs w) x) then Some s else None) w.
Proof.
  intros Hok. pose proof Hok as [Hq Hr Hl Hn Hls Hcnt]. unfold mqtt3_db_store_clean. wp_steps.
  eapply wp_mono; [apply store_clean_loop_spec; [done|by apply Forall_forall; intros x ?; apply Hls]|].
  intros r w' (stores & n & e & -> & Hsw & Hr' & Hnr & Hn'). wp_steps.
  assert (∀ x s, w_stores w !! x = Some s →
    stores !! x = if decide (0 < refs (w_ctxs w) x) then Some s else None) as Hfree.
  { intros x s Hx. rewrite (Hsw x), Hx. pose proof (Hr x s Hx) as Hrc. cbn in Hrc.
    pose proof (refs_nonneg (w_ctxs w) x). assert (x ∈ w_msg_store w) by (apply Hls; by eexists).
    do 2 case_decide; (done || exfalso; intuition lia). }
  assert (∀ x s, stores !! x = Some s → w_stores w !! x = Some s) as Hsub.
  { intros x s. rewrite (Hsw x). destruct (w_stores w !! x); [|done]. case_decide; [done|]. by intros [= ->]. }
  split; [|split; [done|split; [done|exact Hfree]]]. split; cbn; [done| | |done| |lia].
  - intros x s Hx. exact (Hr x s (Hsub x s Hx)).
  - intros q c Hqc. apply Forall_forall. intros m Hm.
    destruct (proj1 (Forall_forall _ _) (Hl q c Hqc) m Hm) as [s Hs]. rewrite (Hfree _ s Hs), decide_True; [by eexists|].
    rewrite (refs_delete _ q c) by done. pose proof (refs_nonneg (delete q (w_ctxs w)) (m_store m)).
    assert (0 < refs_in (m_store m) (c_msgs c)); [|lia].
    apply list_elem_of_split in Hm as (l1 & l2 & ->). rewrite refs_in_app, refs_in_cons, decide_True by done.
    pose proof (refs_in_nonneg (m_store m) l1). pose proof (refs_in_nonneg (m_store m) l2). lia.
  - intros x. rewrite Hr'. split; [by intros []|]. intros Hx. split; [|done]. apply Hls.
    destruct Hx as [s Hx]. exists s. by apply Hsub.
Qed.

(** ** Storing a message *)

(** The message as it is published. *)
Definition published (source : option string) (source_mid : Z) (topic : option string) (qos : Z) (bs : list Z)
    (retain : Z) (s : msg_store) : Prop :=
  s_ref_count s = 0 ∧ s_source_id s = default EmptyString source ∧ s_source_mid s = source_mid ∧
  msg_topic (s_msg s) = topic ∧ msg_qos (s_msg s) = qos ∧ msg_retain (s_msg s) = negb (retain =? 0) ∧
  payload_bytes (msg_payloadlen (s_msg s)) (msg_payload (s_msg s)) bs ∧ msg_client_payload (s_msg s) = None.

Lemma db_ok_fresh w w' x s : db_ok w → w_stores w !! x = None → s_ref_count s = 0 →
  w_ctxs w' = w_ctxs w → w_stores w' = <[x := s]> (w_stores w) → w_msg_store w' = x :: w_msg_store w →
  w_msg_store_count w' = w_msg_store_count w + 1 → db_ok w'.
Proof.
  intros [Hq Hr Hl Hn Hls Hc] Hx Hs Hctx Hst Hms Hcnt. split; rewrite ?Hctx, ?Hst, ?Hms, ?Hcnt; [done|..].
  - apply map_Forall_insert_2; [|done]. rewrite Hs. symmetry. apply refs_zero.
    intros q c Hqc. eapply Forall_impl; [exact (Hl q c Hqc)|]. intros m [s' Hs'] ?. congruence.
  - intros q c Hqc. eapply Forall_impl; [exact (Hl q c Hqc)|]. intros m [s' Hs']. rewrite lookup_insert_ne; [by eexists|congruence].
  - constructor; [|done]. rewrite Hls, Hx. by intros [].
  - intros y. rewrite elem_of_cons, Hls. destruct (decide (y = x)) as [->|].
    + rewrite lookup_insert_eq. split; [by eexists|by left].
    + rewrite lookup_insert_ne by done. tauto.
  - rewrite length_cons. lia.
Qed.

(** Storing changes the store, its list and counters, and the environment. *)
Definition stored_frame (w w' : world) : Prop :=
  ∃ stores l n i e, w' = w <| w_stores := stores |> <| w_msg_store := l |> <| w_msg_store_count := n |>
    <| w_last_db_id := i |> <| w_env := e |>.

Lemma message_store_spec context source source_mid topic qos payloadlen payload bs retain store_id w :
  db_ok w → payload_bytes payloadlen payload bs →
  match context with Some p => is_Some (w_ctxs w !! p) | None => True end →
  wp (mqtt3_db_message_store context source source_mid topic qos payloadlen payload retain store_id)
    (λ x w', w_stores w !! x = None ∧ db_ok w' ∧ stored_frame w w' ∧
      ∃ s bs', w_stores w' = <[x := s]> (w_stores w) ∧ published source source_mid topic qos bs' retain s ∧
        (bs' = bs ∨ ∃ c m e, fst (dxl_on_store_message c m e) = Some bs')) w.
Proof.
  intros Hok [Hl Hp] Hctx. unfold mqtt3_db_message_store. wp_steps.
  eapply (wp_mono _ (λ b w1, w1 = w ∧ payload_bytes payloadlen b bs)).
  { destruct (Z.eqb_spec payloadlen 0); wp_steps; [split; [done|]; by split; [|right]|].
    eapply wp_deref; [by destruct Hp as [->|]|]. cbv beta. wp_steps; [lia|]. split; [done|].
    rewrite Hl, Nat2Z.id, firstn_all. split; [done|by left]. }
  intros b w1 [-> Hb]. wp_steps.
  eapply (wp_mono _ (λ _ w1, w1 = w)).
  { destruct context as [p|]; wp_steps; [|done]. destruct Hctx as [c Hc]. eapply wp_ctx_get; [done|]. by wp_steps. }
  intros ctx w1 ->. wp_steps. cbv zeta.
  set (x := fresh (dom (w_stores w))). set (m := mk_msg_store _ _ _ _ _).
  assert (w_stores w !! x = None) as Hx by (apply not_elem_of_dom, is_fresh). clearbody x.
  wp_steps. apply wp_ext. intros out e He. wp_steps.
  assert (∀ w' s' bs', w_ctxs w' = w_ctxs w → w_stores w' = <[x := s']> (w_stores w) → w_msg_store w' = x :: w_msg_store w →
    w_msg_store_count w' = w_msg_store_count w + 1 → stored_frame w w' →
    published source source_mid topic qos bs' retain s' → (bs' = bs ∨ ∃ c m e, fst (dxl_on_store_message c m e) = Some bs') →
    w_stores w !! x = None ∧ db_ok w' ∧ stored_frame w w' ∧
      ∃ s bs', w_stores w' = <[x := s]> (w_stores w) ∧ published source source_mid topic qos bs' retain s ∧
        (bs' = bs ∨ ∃ c m e, fst (dxl_on_store_message c m e) = Some bs')) as Hfin.
  { intros w' s' bs' H1 H2 H3 H4 H5 H6 H7. split; [done|]. split; [|by eauto 10].
    eapply (db_ok_fresh w _ x s'); try done. by destruct H6. }
  assert (published source source_mid topic qos bs retain m) as Hm by (by split_and!).
  destruct out as [bs'|]; [destruct (0 <? _)|]; wp_steps;
    try (apply (Hfin _ m bs); [reflexivity..|by eexists _, _, _, _, _|exact Hm|by left]).
  eapply wp_store_upd; [apply lookup_insert_eq|]. wp_steps.
  apply (Hfin _ (m <| s_msg ::= λ m, m <| msg_payload := Some bs' |> <| msg_payloadlen := Z.of_nat (length bs') |> |>) bs').
  - reflexivity.
  - cbn. by rewrite insert_insert_eq.
  - reflexivity.
  - reflexivity.
  - eexists _, _, _, _, _. cbn. reflexivity.
  - destruct Hm as (H1 & H2 & H3 & H4 & H5 & H6 & _ & H8). split_and!; try assumption. by split; [|left].
  - right. eexists _, _, _. by rewrite He.
Qed.
End store_proofs.
