(* ===== verification/DeliveryProofs.v ===== *)
(** * Delivering the queue of a client

    [mqtt3_db_message_write] walks over a client's queue, sends what is due
    and keeps the books; it always returns. *)

From S2P Require Import Prelude Topic State Packet PacketProofs Writer Database DatabaseProofs.
From stdpp Require Import options.

Definition publishing (s : msg_state) : bool :=
  bool_decide (s = mosq_ms_publish_qos0 ∨ s = mosq_ms_publish_qos1 ∨ s = mosq_ms_publish_qos2).

(** The bytes and topic entry [m] of [c] is sent with. *)
Definition sendable (c : mosquitto) (m : client_msg) (s : msg_store) (topic : string) (bs : list Z) : Prop :=
  msg_topic (s_msg s) = Some topic ∧ strlen (wire_topic c topic) < 65536 ∧
  payload_bytes (fst (entry_payload m s)) (snd (entry_payload m s)) bs ∧
  Z.of_nat (length (publish_body (m_mid m) (wire_topic c topic) bs (m_qos m))) < 2 ^ 32.

Lemma out_only_fields c c' : out_only c c' →
  c_msgs c' = c_msgs c ∧ c_msg_count c' = c_msg_count c ∧ c_msg_count12 c' = c_msg_count12 c ∧
  c_bridge c' = c_bridge c ∧ is_context_invalid c' = is_context_invalid c.
Proof. unfold out_only. destruct c, c'. cbn. intros [=]. subst. done. Qed.
Lemma msgs_only_fields c c' : msgs_only c c' →
  c_bridge c' = c_bridge c ∧ is_context_invalid c' = is_context_invalid c ∧
  c_packet_count c' = c_packet_count c ∧ queued_packets c' = queued_packets c ∧
  pending c' = pending c ∧ (∀ p, chan_of p c' = chan_of p c) ∧ c_sock c' = c_sock c ∧ c_wsi c' = c_wsi c.
Proof. unfold msgs_only. destruct c, c'. cbn. intros [=]. subst. done. Qed.

#[local] Set Default Proof Using "Type*".

Section delivery.
Context `{EnvLaws}.

(** The store has what sending the entry needs. *)
Definition entry_ok (w : world) (c : mosquitto) (m : client_msg) : Prop :=
  (m_direction m = mosq_md_in → m_qos m = 2) ∧
  (publishing (m_state m) = true →
    ∃ s topic bs, w_stores w !! m_store m = Some s ∧ sendable c m s topic bs).

(** Work on the queue and the output of the client at [p], nothing else. *)
Definition served (p : ctxid) (w : world) (c : mosquitto) (w' : world) (c' : mosquitto) : Prop :=
  (∃ stores e, w' = w <| w_ctxs ::= <[p := c']> |> <| w_stores := stores |> <| w_env := e |>) ∧
  same_content w w' ∧ db_ok w' ∧ out_wf c' ∧ c_bridge c' = c_bridge c ∧
  is_context_invalid c' = is_context_invalid c.

Lemma served_lookup p w c w' c' : served p w c w' c' → w_ctxs w' !! p = Some c'.
Proof. intros ((?&?&->)&_). cbn. apply lookup_insert_eq. Qed.
Lemma served_facts p w c w' c' : served p w c w' c' →
  db_ok w' ∧ w_ctxs w' !! p = Some c' ∧ out_wf c' ∧ is_context_invalid c' = is_context_invalid c.
Proof. intros Hs. pose proof (served_lookup _ _ _ _ _ Hs). by destruct Hs as (_&_&?&?&_&?). Qed.
Lemma served_trans p w1 c1 w2 c2 w3 c3 : served p w1 c1 w2 c2 → served p w2 c2 w3 c3 → served p w1 c1 w3 c3.
Proof.
  intros ((s2&e2&->)&Hs2&_&_&Hb2&Hv2) ((s3&e3&->)&Hs3&Hok&Hwf&Hb3&Hv3).
  split_and!; [|by eapply same_content_trans|done|done|congruence..].
  exists s3, e3. cbn. by rewrite insert_insert_eq.
Qed.
Lemma served_refl p w c : db_ok w → w_ctxs w !! p = Some c → out_wf c → served p w c w c.
Proof.
  intros. split_and!; try done. exists (w_stores w), (w_env w). destruct w; cbn in *. by rewrite insert_id.
Qed.
Lemma served_queue p w c w' c' : queue_step p w c w' c' → out_wf c → served p w c w' c'.
Proof.
  intros (Hw & Ho & Hs & Hok) [Hf Hc]. destruct (msgs_only_fields _ _ Ho) as (?&?&Hpc&Hq&_).
  split_and!; try done. unfold out_wf. by rewrite Hq, Hpc.
Qed.
Lemma served_out p w c w' c' : db_ok w → w_ctxs w !! p = Some c →
  (∃ e, w' = w <| w_ctxs ::= <[p := c']> |> <| w_env := e |>) → out_only c c' → out_wf c' →
  served p w c w' c'.
Proof.
  intros Hok Hc [e ->] Ho Hwf. destruct (out_only_fields _ _ Ho) as (Hm&H1&H2&Hb&Hv). split_and!; try done.
  - exists (w_stores w), e. by destruct w.
  - eapply (db_ok_same w _ p c c'); try done. by rewrite Hm.
Qed.

(** A send: the queue is untouched, at most one packet more. *)
Lemma sends_served p command body w c rc w' : db_ok w → w_ctxs w !! p = Some c → out_wf c →
  sends p command body w c rc w' →
  ∃ c', served p w c w' c' ∧ c_msgs c' = c_msgs c ∧ c_packet_count c' <= c_packet_count c + 1.
Proof.
  intros Hok Hc Hwf [(c' & (Hw & Ho & _ & _ & Hpc) & Hwf')|(_ & -> & _)].
  - exists c'. destruct (out_only_fields _ _ Ho) as (Hm&_). split_and!; [by apply served_out|done|done].
  - exists c. split_and!; [by apply served_refl|done|lia].
Qed.

Lemma entry_ok_served p w c w' c' m : served p w c w' c' → entry_ok w c m → entry_ok w' c' m.
Proof.
  intros (_ & Hs & _ & _ & Hb & _) [Hq He]. split; [done|]. intros Hp.
  destruct (He Hp) as (s & topic & bs & Hx & Ht & Hl & Hpl & Hlen).
  destruct (same_content_lookup _ _ _ _ Hs Hx) as (s' & Hx' & Hu).
  assert (s_msg s' = s_msg s) as Hm by (by apply (f_equal s_msg) in Hu).
  exists s', topic, bs. unfold sendable, entry_payload, wire_topic in *. rewrite Hm, Hb. by split_and!.
Qed.

Lemma send_entry_spec p m s topic bs w c :
  w_ctxs w !! p = Some c → out_wf c → c_packet_count c + 1 < 2 ^ 64 → is_context_invalid c = false →
  sendable c m s topic bs →
  wp (send_entry p m s) (sends p (publish_command (m_qos m) (m_retain m) (m_dup m))
    (publish_body (m_mid m) (wire_topic c topic) bs (m_qos m)) w c) w.
Proof.
  intros Hc Hwf Hroom Hv (Ht & Hl & Hp & Hlen). unfold send_entry. wp_steps. eapply wp_deref; [done|]. cbv beta.
  destruct (entry_payload m s) as [pl py]. cbn in Hp. by apply send_publish_spec.
Qed.

Lemma sent_or_spec p pre m suf rc stamp state w c :
  db_ok w → w_ctxs w !! p = Some c → out_wf c → c_msgs c = pre ++ m :: suf →
  wp (sent_or p (length pre) rc stamp state) (λ f w', ∃ c', served p w c w' c' ∧
    c_packet_count c' <= c_packet_count c ∧ (f = Continue → ∃ m', c_msgs c' = pre ++ m' :: suf)) w.
Proof.
  intros Hok Hc Hwf Hm. unfold sent_or.
  destruct (rc =? MOSQ_ERR_SUCCESS); wp_steps; [|exists c; split_and!; [by apply served_refl|done|done]].
  eapply (wp_mono _ (λ _ w1, ∃ c1 m1, queue_step p w c w1 c1 ∧ c_msgs c1 = pre ++ m1 :: suf)).
  - destruct stamp; wp_steps.
    + apply wp_ext. intros t e _. wp_steps. pose proof (queue_step_refl p w c e Hok Hc) as H1.
      eapply (wp_msg_upd p _ _ _ c); [done|by eapply queue_step_ok|done|]. intros w2 H2.
      eexists _, _. split; [eapply queue_step_trans; [exact H1|exact H2]|].
      cbn. rewrite Hm. apply alter_middle.
    + exists c, m. split; [|done]. rewrite <-(env_self w) at 2. by apply queue_step_refl.
  - intros _ w1 (c1 & m1 & H1 & Hm1). wp_steps.
    eapply wp_msg_upd; [done|by eapply queue_step_ok|by eapply queue_step_lookup|].
    intros w2 H2. wp_steps. pose proof (queue_step_trans _ _ _ _ _ _ _ H1 H2) as H12. eexists. split_and!.
    + by eapply served_queue.
    + destruct H12 as (_ & Ho & _). apply msgs_only_fields in Ho as (_&_&->&_). done.
    + intros _. eexists. cbn. rewrite Hm1. apply alter_middle.
Qed.

(** What one pass over a started entry does: the entries after it are
    untouched and [tail] points to them. *)
Definition entry_post (p : ctxid) (pre suf : list client_msg) (w : world) (c : mosquitto)
    (r : flow * bool) (w' : world) : Prop :=
  ∃ c', served p w c w' c' ∧ c_packet_count c' <= c_packet_count c + 1 ∧
    (fst r = Continue → ∃ pre', c_msgs c' = pre' ++ suf ∧
      length pre' = if snd r then S (length pre) else length pre).

Lemma send_then_sent_or p pre m suf (send : ST world Z) command body stamp state w c :
  db_ok w → w_ctxs w !! p = Some c → out_wf c → c_msgs c = pre ++ m :: suf →
  wp send (sends p command body w c) w →
  wp (rc ← send; f ← sent_or p (length pre) rc stamp state; mret (f, true)) (entry_post p pre suf w c) w.
Proof.
  intros Hok Hc Hwf Hm Hsend. wp_steps. eapply wp_mono; [done|]. intros rc w1 Hs.
  destruct (sends_served _ _ _ _ _ _ _ Hok Hc Hwf Hs) as (c1 & H1 & Hm1 & Hpc1). wp_steps.
  eapply wp_mono; [eapply (sent_or_spec p pre m suf rc stamp state w1 c1);
    [apply H1|by eapply served_lookup|apply H1|congruence]|].
  intros f w2 (c2 & H2 & Hpc2 & Hf). wp_steps. exists c2. split_and!; [by eapply served_trans|lia|].
  intros Hc2. destruct (Hf Hc2) as [m' Hm']. exists (pre ++ [m']). split; [by rewrite <-app_assoc|].
  rewrite length_app. cbn. lia.
Qed.

Lemma write_entry_spec p pre m suf s w c :
  db_ok w → w_ctxs w !! p = Some c → out_wf c → c_packet_count c + 1 < 2 ^ 64 →
  is_context_invalid c = false → c_msgs c = pre ++ m :: suf → entry_ok w c m →
  w_stores w !! m_store m = Some s →
  wp (write_entry p (length pre) m s) (entry_post p pre suf w c) w.
Proof.
  intros Hok Hc Hwf Hroom Hv Hm [_ He] Hs. unfold write_entry.
  assert (publishing (m_state m) = true → ∃ topic bs, sendable c m s topic bs) as He'.
  { intros Hp. destruct (He Hp) as (s' & topic & bs & Hs' & Hsend). simplify_eq. eauto. }
  assert (entry_post p pre suf w c (Continue, true) w) as Hskip.
  { exists c. split_and!; [by apply served_refl|lia|]. intros _. exists (pre ++ [m]).
    rewrite <-app_assoc, length_app. cbn. split; [done|lia]. }
  destruct (m_state m) eqn:Hst; try (wp_steps; by apply Hskip);
    try (destruct He' as (topic & bs & Hsend); [by apply bool_decide_eq_true_2; tauto|]);
    try (eapply send_then_sent_or; [done..|by apply send_entry_spec || by apply send_command_with_mid_spec]).
  wp_steps. eapply wp_mono; [by apply send_entry_spec|]. intros rc w1 Hs1.
  destruct (sends_served _ _ _ _ _ _ _ Hok Hc Hwf Hs1) as (c1 & H1 & Hm1 & Hpc1).
  destruct (rc =? MOSQ_ERR_SUCCESS); wp_steps; [|by exists c1].
  assert (c_msgs c1 !! length pre = Some m) as Hlk by (rewrite Hm1, Hm; by apply list_lookup_middle).
  eapply wp_remove; [apply H1|by eapply served_lookup|done|]. intros w2 H2 _. wp_steps.
  eexists. split_and!; [by eapply served_trans; [|by eapply served_queue; [|apply H1]]| |].
  - destruct H2 as (_ & Ho & _). apply msgs_only_fields in Ho as (_&_&->&_). lia.
  - intros _. exists pre. split; [|done]. cbn. rewrite Hm1, Hm. by rewrite delete_middle.
Qed.

(** The number of passes an entry needs: a queued inbound one takes two. *)
Definition passes (m : client_msg) : nat := if bool_decide (m_state m = mosq_ms_queued) then 2 else 1.
Definition weight (l : list client_msg) : nat := sum_list_with passes l.

Lemma weight_cons m l : weight (m :: l) = (passes m + weight l)%nat.
Proof. done. Qed.
Lemma weight_bound l : (weight l <= 2 * length l)%nat.
Proof. induction l as [|m l IH]; [done|]. unfold weight, passes in *. cbn. case_bool_decide; lia. Qed.

Lemma Forall_entry_ok_served p w c w' c' l : served p w c w' c' →
  Forall (entry_ok w c) l → Forall (entry_ok w' c') l.
Proof. intros Hs Hl. eapply Forall_impl; [done|]. intros m. by eapply entry_ok_served. Qed.

Lemma message_write_loop_spec fuel p pre rem cnt w c :
  db_ok w → w_ctxs w !! p = Some c → out_wf c → c_packet_count c + Z.of_nat (length rem) < 2 ^ 64 →
  is_context_invalid c = false → c_msgs c = pre ++ rem → Forall (entry_ok w c) rem → (weight rem <= fuel)%nat →
  wp (message_write_loop fuel p (length pre) cnt) (λ _ w', ∃ c', served p w c w' c') w.
Proof.
  revert pre rem cnt w c. induction fuel as [|fuel IH]; intros pre rem cnt w c Hok Hc Hwf Hroom Hv Hm Hall Hf;
    cbn [message_write_loop]; wp_steps; (eapply wp_msg_get; [done|]); rewrite Hm, lookup_app_r, Nat.sub_diag by lia;
    (destruct rem as [|m rem]; cbn [lookup list_lookup]; [wp_steps; exists c; by apply served_refl|]).
  { exfalso. rewrite weight_cons in Hf. unfold passes in Hf. case_bool_decide; lia. }
  apply Forall_cons in Hall as [He Hall]. cbn [length] in Hroom. rewrite weight_cons in Hf.
  set (cnt' := if bool_decide (m_direction m = mosq_md_in) then _ else _). clearbody cnt'.
  assert (∃ s, w_stores w !! m_store m = Some s) as [s Hs].
  { apply (Forall_lookup_1 _ _ (length pre) m (ok_live _ Hok p c Hc)). rewrite Hm. by apply list_lookup_middle. }
  assert (∀ cnt, (weight rem <= fuel)%nat → wp (message_write_loop fuel p (S (length pre)) cnt)
    (λ _ w', ∃ c', served p w c w' c') w) as Hnext.
  { intros cnt1 Hw. replace (S (length pre)) with (length (pre ++ [m])) by (rewrite length_app; cbn; lia).
    eapply (IH (pre ++ [m]) rem); try done; [lia|by rewrite <-app_assoc]. }
  destruct (bool_decide (m_state m ≠ mosq_ms_queued)) eqn:Hst; wp_steps.
  - apply bool_decide_eq_true in Hst. unfold passes in Hf. rewrite bool_decide_eq_false_2 in Hf by done.
    eapply wp_store_get; [done|]. wp_steps.
    eapply wp_mono; [by eapply write_entry_spec; [..|done]; (done || lia)|].
    intros [[|rc] step] w1 (c1 & H1 & Hpc & Hr); [|wp_steps; by exists c1].
    destruct Hr as (pre' & Hm1 & Hlen); [done|]. cbn in Hlen. rewrite <-Hlen.
    destruct (served_facts _ _ _ _ _ H1) as (Hok1 & Hc1 & Hwf1 & Hv1). rewrite Hv in Hv1.
    eapply wp_mono; [apply (IH pre' rem _ w1 c1); try done; [lia|by eapply Forall_entry_ok_served|lia]|].
    intros _ w2 (c2 & H2). exists c2. by eapply served_trans.
  - apply bool_decide_eq_false, dec_stable in Hst. unfold passes in Hf. rewrite bool_decide_eq_true_2 in Hf by done.
    destruct (bool_decide (m_direction m = mosq_md_in) && _) eqn:Hd; [|apply Hnext; lia].
    apply andb_true_iff in Hd as [Hd _]. apply bool_decide_eq_true in Hd.
    destruct He as [Hq _]. rewrite (Hq Hd). cbn [Z.eqb Pos.eqb]. wp_steps.
    eapply wp_msg_upd; [done..|]. intros w1 H1. pose proof (served_queue _ _ _ _ _ H1 Hwf) as Hs1.
    set (m' := m <| m_state := mosq_ms_send_pubrec |>).
    destruct (served_facts _ _ _ _ _ Hs1) as (Hok1 & Hc1 & Hwf1 & Hv1). rewrite Hv in Hv1.
    eapply wp_mono; [eapply (IH pre (m' :: rem) _ w1); try done|].
    + cbn. rewrite Hm. apply alter_middle.
    + constructor; [split; [done|by intros]|by eapply Forall_entry_ok_served].
    + rewrite weight_cons. unfold passes. rewrite bool_decide_eq_false_2 by done. lia.
    + intros _ w2 (c2 & H2). exists c2. by eapply served_trans.
Qed.

Lemma message_write_spec p w c :
  db_ok w → w_ctxs w !! p = Some c → out_wf c →
  c_packet_count c + Z.of_nat (length (c_msgs c)) < 2 ^ 64 → Forall (entry_ok w c) (c_msgs c) →
  wp (mqtt3_db_message_write p) (λ _ w', ∃ c', served p w c w' c') w.
Proof.
  intros Hok Hc Hwf Hroom Hall. unfold mqtt3_db_message_write. wp_steps. eapply wp_ctx_get; [done|]. cbv beta.
  destruct (is_context_invalid c) eqn:Hv; [wp_steps; exists c; by apply served_refl|].
  destruct (_ && _); [wp_steps; exists c; by apply served_refl|]. cbn [orb].
  apply (message_write_loop_spec _ p [] (c_msgs c)); try done. apply weight_bound.
Qed.

(** C25: serving a client's queue always ends, safely: whatever mixture of outbound
    entries of every QoS level, inbound entries of QoS 2 and handshake states the queue
    of a client holds, and whatever the transport does, [mqtt3_db_message_write]
    returns after finitely many passes, follows no dangling pointer, touches no other
    client, and leaves the reference counts, the counters of the queue and the
    output queue consistent. The entries must be as the broker makes them ([entry_ok]):
    an inbound entry has QoS 2 (over one of another QoS, which the code never queues,
    the loop would not advance and never end: database.c:1009), and a message that is
    to be published has a topic below 64 KiB, its payload, and a length that fits 32
    bits; and the 64-bit counter of packets has room for one packet per entry. *)
Theorem message_write_serves p w c :
  db_ok w → w_ctxs w !! p = Some c → out_wf c →
  c_packet_count c + Z.of_nat (length (c_msgs c)) < 2 ^ 64 → Forall (entry_ok w c) (c_msgs c) →
  wp (mqtt3_db_message_write p) (λ _ w', ∃ c', served p w c w' c') w.
Proof. apply message_write_spec. Qed.

(** ** QoS 0: in order and exactly once *)

(** [fr] is the PUBLISH frame for the QoS 0 entry [m]. *)
Definition outgoing (w : world) (c : mosquitto) (m : client_msg) (fr : list Z) : Prop :=
  m_state m = mosq_ms_publish_qos0 ∧
  ∃ s topic bs, w_stores w !! m_store m = Some s ∧ sendable c m s topic bs ∧
    Z.of_nat (length (publish_body (m_mid m) (wire_topic c topic) bs (m_qos m))) < 2 ^ 28 ∧
    fr = frame (publish_command (m_qos m) (m_retain m) (m_dup m))
           (publish_body (m_mid m) (wire_topic c topic) bs (m_qos m)).

Lemma outgoing_served p w c w' c' m fr : served p w c w' c' → outgoing w c m fr → outgoing w' c' m fr.
Proof.
  intros Hs (Hst & s & topic & bs & Hx & (Ht & Hl & Hp & Hlen') & Hlen & ->). split; [done|].
  destruct Hs as (_ & Hs & _ & _ & Hb & _). destruct (same_content_lookup _ _ _ _ Hs Hx) as (s' & Hx' & Hu).
  assert (s_msg s' = s_msg s) as Hm by (by apply (f_equal s_msg) in Hu).
  exists s', topic, bs. unfold sendable, entry_payload, wire_topic in *. rewrite Hm, Hb. by split_and!.
Qed.

(** The bytes of the client's stream: taken by the transport, or queued. *)
Definition stream (p : ctxid) (w : world) (c : mosquitto) : list Z := env_sent (w_env w) (chan_of p c) ++ pending c.

Definition qos0_post (p : ctxid) (w : world) (c : mosquitto) (frames : list (list Z)) (rc : Z) (w' : world) : Prop :=
  ∃ c' k, served p w c w' c' ∧ c_msgs c' = drop k (c_msgs c) ∧
    (if rc =? MOSQ_ERR_SUCCESS then k = length (c_msgs c) ∧ stream p w' c' = stream p w c ++ concat frames
     else (k < length (c_msgs c))%nat ∧ stream p w' c' = stream p w c ++ concat (take (S k) frames)).

Lemma message_write_qos0_loop fuel p frames cnt w c :
  db_ok w → w_ctxs w !! p = Some c → out_wf c →
  c_packet_count c + Z.of_nat (length (c_msgs c)) < 2 ^ 64 → is_context_invalid c = false →
  Forall2 (outgoing w c) (c_msgs c) frames → (length (c_msgs c) <= fuel)%nat →
  wp (message_write_loop fuel p 0 cnt) (qos0_post p w c frames) w.
Proof.
  revert frames cnt w c. induction fuel as [|fuel IH]; intros frames cnt w c Hok Hc Hwf Hroom Hv Hout Hf;
    cbn [message_write_loop]; wp_steps; (eapply wp_msg_get; [done|]);
    (destruct (c_msgs c) as [|m rem] eqn:Hm; cbn [lookup list_lookup];
      [wp_steps; inversion Hout; subst; exists c, 0%nat; rewrite Hm; split_and!;
        [by apply served_refl|done|cbn; by rewrite app_nil_r]|]).
  { cbn in Hf. lia. }
  inversion Hout as [|?? fr frames' Hfr Hrest]; subst. cbn [length] in Hroom, Hf.
  destruct Hfr as (Hst & s & topic & bs & Hx & Hsend & Hlen & ->). rewrite Hst. cbn [bool_decide].
  rewrite bool_decide_eq_true_2 by done. wp_steps. eapply wp_store_get; [done|]. wp_steps.
  unfold write_entry. rewrite Hst. wp_steps. eapply wp_mono; [apply send_entry_spec; try done; lia|].
  intros rc w1 [(c1 & Hsent & Hwf1)|(_ & _ & Hbig)]; [|lia].
  pose proof Hsent as (Hw1 & Ho & Hbytes & _ & Hpc). destruct (out_only_fields _ _ Ho) as (Hm1 & _).
  pose proof (served_out p w c w1 c1 Hok Hc Hw1 Ho Hwf1) as H1.
  assert (stream p w1 c1 = stream p w c ++ frame (publish_command (m_qos m) (m_retain m) (m_dup m))
    (publish_body (m_mid m) (wire_topic c topic) bs (m_qos m))) as Hstr.
  { unfold stream. by rewrite (out_only_chan p c c1 Ho). }
  destruct (Z.eqb_spec rc MOSQ_ERR_SUCCESS) as [->|Hrc]; wp_steps.
  2: { exists c1, 0%nat. rewrite (proj2 (Z.eqb_neq _ _) Hrc), Hm1. cbn. rewrite app_nil_r.
       split_and!; [done..|rewrite Hm; cbn; lia|done]. }
  destruct (served_facts _ _ _ _ _ H1) as (Hok1 & Hc1 & _ & Hv1).
  assert (c_msgs c1 !! 0%nat = Some m) as Hlk by (by rewrite Hm1, Hm).
  eapply wp_remove; [done..|]. intros w2 Hq Henv. wp_steps.
  pose proof (served_trans _ _ _ _ _ _ _ H1 (served_queue _ _ _ _ _ Hq Hwf1)) as H2.
  destruct (served_facts _ _ _ _ _ H2) as (Hok2 & Hc2 & Hwf2 & Hv2).
  assert (c_msgs (removed 0 m c1) = rem) as Hm2 by (cbn; by rewrite Hm1, Hm).
  assert (stream p w2 (removed 0 m c1) = stream p w1 c1) as Hstr2 by (unfold stream; by rewrite Henv).
  eapply wp_mono; [apply (IH frames' _ w2 (removed 0 m c1)); try done|].
  - rewrite Hm2. cbn. lia.
  - congruence.
  - rewrite Hm2. eapply Forall2_impl; [done|]. intros. by eapply outgoing_served.
  - rewrite Hm2. lia.
  - intros rc w3 (c3 & k & H3 & Hk & Hpost). exists c3, (S k). rewrite Hm2 in Hk, Hpost. rewrite Hm.
    split_and!; [by eapply served_trans|done|]. rewrite Hstr2, Hstr in Hpost. cbn [concat take length].
    destruct (rc =? MOSQ_ERR_SUCCESS); destruct Hpost as [Hk' ->]; (split; [lia|]); by rewrite <-!app_assoc.
Qed.

(** QoS 0 messages are delivered in order and once. When the queue of a
    connected client holds QoS 0 messages, [mqtt3_db_message_write] appends
    their PUBLISH frames to the client's byte stream in queue order. If it
    returns success the queue is empty and every frame is in the stream
    exactly once; otherwise the frames up to and including the one whose write
    failed are in the stream, and the queue still holds that message and the
    ones behind it. *)
Theorem message_write_qos0_in_order p w c frames :
  db_ok w → w_ctxs w !! p = Some c → out_wf c →
  c_packet_count c + Z.of_nat (length (c_msgs c)) < 2 ^ 64 → is_context_invalid c = false →
  c_id c ≠ None → Forall2 (outgoing w c) (c_msgs c) frames →
  wp (mqtt3_db_message_write p) (qos0_post p w c frames) w.
Proof.
  intros Hok Hc Hwf Hroom Hv Hid Hout. unfold mqtt3_db_message_write. wp_steps. eapply wp_ctx_get; [done|]. cbv beta.
  rewrite Hv, (bool_decide_eq_false_2 _ Hid), andb_false_r. cbn [orb].
  apply message_write_qos0_loop; try done. lia.
Qed.
End delivery.
