(* ===== verification/Subs.v ===== *)
(** * The subscription tree

    [src/subs.c] with the child tables of [src/search_optimization.c]. A node
    is reached by the tokens of a filter; its leaves are the subscriptions of
    that filter. Functions that take a [struct _mosquitto_subhier *] and
    change it return the changed node. *)

From S2P Require Import Prelude Topic State Packet Database.
From stdpp Require Import options.

Definition MAX_TOPIC_LEN : nat := 1024.
Definition DXL_FLAG_OPS : Z := 0x04.

(** The first [n] characters. *)
Fixpoint str_take (n : nat) (s : string) : string :=
  match n, s with
  | S n', String c s' => String c (str_take n' s')
  | _, _ => EmptyString
  end.

Arguments str_take : simpl never.

(** [_add_topic_to_path]: the buffer [fulltopic] of [MAX_TOPIC_LEN] bytes holds
    the C string [path]; the node's topic is appended, cut at the end of the
    buffer. *)
Definition _add_topic_to_path (topic path : string) (depth : nat) : string :=
  let sep := if (2 <? depth)%nat || ((depth =? 2)%nat && String.eqb "" topic && (0 <? strlen path))
             then "/" else "" in
  str_take (MAX_TOPIC_LEN - 1) (path +:+ sep +:+ topic).

Arguments _add_topic_to_path : simpl never.

(** ** The table of children ([src/search_optimization.c]) *)

Definition topic_is_wild_card (topic_name wild_card : string) : bool := String.eqb topic_name wild_card.
Definition add_heir_to_hash (topic_name : string) (h : list string) : list string :=
  if bool_decide (topic_name ∈ h) then h else h ++ [topic_name].
Definition remove_heir_from_hash (topic_name : string) (h : list string) : list string :=
  filter (λ t, t ≠ topic_name) h.

(** [HASH_FIND_STR(subhier->children_hash_table, t, s)]. *)
Definition find_child (t : string) (h : subhier) : option subhier :=
  if bool_decide (t ∈ h_children_hash_table h)
  then List.find (λ c, String.eqb (h_topic c) t) (h_children h) else None.

(** The children after the one named [t] became [c']. *)
Fixpoint set_child (t : string) (c' : subhier) (l : list subhier) : list subhier :=
  match l with
  | [] => []
  | c :: l' => if String.eqb (h_topic c) t then c' :: l' else c :: set_child t c' l'
  end.

(** A new last child. *)
Definition link_child (c : subhier) (h : subhier) : subhier :=
  h <| h_children ::= λ l, l ++ [c] |> <| h_children_hash_table ::= add_heir_to_hash (h_topic c) |>
    <| h_pound ::= λ n, if topic_is_wild_card (h_topic c) "#" then n + 1 else n |>
    <| h_plus ::= λ n, if topic_is_wild_card (h_topic c) "+" then n + 1 else n |>.

(** The bookkeeping for a child named [t] that is unlinked. *)
Definition forget_child (t : string) (h : subhier) : subhier :=
  h <| h_children_hash_table ::= remove_heir_from_hash t |>
    <| h_pound ::= λ n, if topic_is_wild_card t "#" && (0 <? n) then n - 1 else n |>
    <| h_plus ::= λ n, if topic_is_wild_card t "+" && (0 <? n) then n - 1 else n |>.

(** [!branch->children && !branch->subs && !branch->retained]. *)
Definition childless (h : subhier) : bool :=
  match h_children h, h_subs h, h_retained h with [], [], None => true | _, _, _ => false end.

Section subs.
Context `{Env}.

(** ** Subscribing *)

(** Whether the multi-tenant limits refuse a subscription of the context. *)
Definition tenant_denied (context : option ctxid) : ST world bool :=
  match context with
  | None => mret false
  | Some p =>
    c ← ctx_get p;
    multi ← gets (λ w, dxl_is_multi_tenant_mode_enabled (w_env w));
    if (multi : bool) && (Z.land (c_dxl_flags c) DXL_FLAG_OPS =? 0) then
      b ← ext (dxl_is_tenant_subscription_allowed c); mret (negb b)
    else mret false
  end.

(** The loop over the leaves: the list with the client's QoS changed if it has
    a leaf here, and whether no leaf of a client that is not a bridge was seen. *)
Fixpoint add_leaf_loop (id : string) (qos : Z) (leaves : list subleaf) (first_leaf : bool)
    : ST world (option (list subleaf) * bool) :=
  match leaves with
  | [] => mret (None, first_leaf)
  | leaf :: leaves' =>
    cl ← ctx_get (l_context leaf);
    lid ← deref (λ _, c_id cl);
    if String.eqb lid id then mret (Some (mk_subleaf (l_context leaf) qos :: leaves'), first_leaf)
    else
      r ← add_leaf_loop id qos leaves' (if c_is_bridge cl then first_leaf else false);
      mret (fmap (cons leaf) (fst r), snd r)
  end.

(** The end of the path: the context gets a leaf at [h]. *)
Definition add_leaf (p : ctxid) (qos : Z) (h : subhier) (fulltopic : string) : ST world (Z * subhier) :=
  c ← ctx_get p;
  id ← (match h_subs h with [] => mret "" | _ => deref (λ _, c_id c) end);
  r ← add_leaf_loop id qos (h_subs h) true;
  match r with
  | (Some leaves, _) => mret (-1, h <| h_subs := leaves |>)
  | (None, first_leaf) =>
    modify (λ w, w <| w_subscription_count ::= λ n, n + 1 |>);;
    ctx_upd p (λ c, c <| c_subscription_count ::= λ n, n + 1 |>);;
    (if first_leaf && negb (c_is_bridge c) then ext_ (dxl_on_topic_added_to_broker fulltopic) else mret tt);;
    mret (MOSQ_ERR_SUCCESS, h <| h_subs := h_subs h ++ [mk_subleaf p qos] |>)
  end.

Fixpoint _sub_add_full_topic (context : option ctxid) (qos : Z) (subhier : subhier) (tokens : list string)
    (fulltopic : string) (depth : nat) : ST world (Z * State.subhier) :=
  let fulltopic := _add_topic_to_path (h_topic subhier) fulltopic depth in
  denied ← tenant_denied context;
  if (denied : bool) then mret (1, subhier)
  else
    match tokens with
    | [] =>
      match context with
      | Some p => add_leaf p qos subhier fulltopic
      | None => mret (MOSQ_ERR_SUCCESS, subhier)
      end
    | t :: tokens' =>
      match find_child t subhier with
      | Some s =>
        r ← _sub_add_full_topic context qos s tokens' fulltopic (S depth);
        mret (fst r, subhier <| h_children ::= set_child t (snd r) |>)
      | None =>
        r ← _sub_add_full_topic context qos (subhier_new t) tokens' fulltopic (S depth);
        mret (fst r, link_child (snd r) subhier)
      end
    end.

Definition _sub_add (context : option ctxid) (qos : Z) (subhier : subhier) (tokens : list string)
    : ST world (Z * State.subhier) :=
  _sub_add_full_topic context qos subhier tokens "" 0.

(** The whole tree hangs off [db->subs]: a child of it that changed. *)
Definition set_root_child (t : string) (c : subhier) : ST world () :=
  modify (λ w, w <| w_subs ::= λ h, h <| h_children ::= set_child t c |> |>).

Definition mqtt3_sub_add (p : ctxid) (sub : string) (qos : Z) : ST world Z :=
  let tokens := _sub_topic_tokenise sub in
  let t := default "" (head tokens) in
  root ← gets w_subs;
  rc ← (match find_child t root with
        | Some s =>
          r ← _sub_add (Some p) qos s tokens; set_root_child t (snd r);; mret (fst r)
        | None =>
          modify (λ w, w <| w_subs ::= λ h, h <| h_children ::= cons (subhier_new t) |>
            <| h_children_hash_table ::= add_heir_to_hash t |> |>);;
          r ← _sub_add (Some p) qos (subhier_new t) tokens; set_root_child t (snd r);; mret (fst r)
        end);
  mret (if rc =? -1 then MOSQ_ERR_SUCCESS else rc).

(** ** Unsubscribing *)

(** [_is_topic_removed] for leaves [subs] left at the node. *)
Fixpoint all_bridges (subs : list subleaf) : ST world bool :=
  match subs with
  | [] => mret true
  | leaf :: subs' =>
    cl ← ctx_get (l_context leaf);
    if c_is_bridge cl then all_bridges subs' else mret false
  end.
Definition _is_topic_removed (p : ctxid) (subs : list subleaf) : ST world bool :=
  c ← ctx_get p;
  if c_is_bridge c then mret false else all_bridges subs.

(** The leaves without the first one of [p]. *)
Fixpoint drop_leaf (p : ctxid) (subs : list subleaf) : option (list subleaf) :=
  match subs with
  | [] => None
  | leaf :: subs' => if decide (l_context leaf = p) then Some subs' else cons leaf <$> drop_leaf p subs'
  end.

Definition remove_leaf (p : ctxid) (h : subhier) (fulltopic : string) : ST world subhier :=
  match drop_leaf p (h_subs h) with
  | None => mret h
  | Some subs =>
    modify (λ w, w <| w_subscription_count ::= λ n, n - 1 |>);;
    ctx_upd p (λ c, c <| c_subscription_count ::= λ n, n - 1 |>);;
    b ← _is_topic_removed p subs;
    (if (b : bool) then ext_ (dxl_on_topic_removed_from_broker fulltopic) else mret tt);;
    mret (h <| h_subs := subs |>)
  end.

(** The children without the one named [t]. *)
Fixpoint del_child (t : string) (l : list subhier) : list subhier :=
  match l with
  | [] => []
  | c :: l' => if String.eqb (h_topic c) t then l' else c :: del_child t l'
  end.

(** A node whose child [t] became [c]: an empty one is unlinked. *)
Definition prune_child (t : string) (c : subhier) (h : subhier) : subhier :=
  if childless c then forget_child (h_topic c) (h <| h_children ::= del_child t |>)
  else h <| h_children ::= set_child t c |>.

Fixpoint _sub_remove_full_topic (p : ctxid) (subhier : subhier) (tokens : list string)
    (fulltopic : string) (depth : nat) : ST world State.subhier :=
  let fulltopic := _add_topic_to_path (h_topic subhier) fulltopic depth in
  match tokens with
  | [] => remove_leaf p subhier fulltopic
  | t :: tokens' =>
    match List.find (λ c, String.eqb (h_topic c) t) (h_children subhier) with
    | Some branch =>
      branch' ← _sub_remove_full_topic p branch tokens' fulltopic (S depth);
      mret (prune_child t branch' subhier)
    | None => mret subhier
    end
  end.

Definition mqtt3_sub_remove (p : ctxid) (sub : string) : ST world Z :=
  let tokens := _sub_topic_tokenise sub in
  let t := default "" (head tokens) in
  root ← gets w_subs;
  match find_child t root with
  | Some s => s' ← _sub_remove_full_topic p s tokens "" 0; set_root_child t s';; mret MOSQ_ERR_SUCCESS
  | None => mret 0
  end.

(** ** Publishing *)

(** The QoS a leaf gets a message with. *)
Definition leaf_qos (upgrade : bool) (qos client_qos : Z) : Z :=
  if upgrade then client_qos else if client_qos <? qos then client_qos else qos.

(** One pass of the loop of [_subs_process]: the result of the insertion, or
    [None] for the bridge the message came from. *)
Definition process_leaf (source_id : string) (qos : Z) (retain : bool) (stored : storeid) (leaf : subleaf)
    : ST world (option Z) :=
  cl ← ctx_get (l_context leaf);
  same ← (if c_is_bridge cl then lid ← deref (λ _, c_id cl); mret (String.eqb lid source_id) else mret false);
  if (same : bool) then mret None
  else
    cfg ← gets w_config;
    let msg_qos := leaf_qos (cfg_upgrade_outgoing_qos cfg) qos (l_qos leaf) in
    mid ← (if msg_qos =? 0 then mret 0 else _mosquitto_mid_generate (l_context leaf));
    let client_retain := if c_is_bridge cl then retain else false in
    rc ← mqtt3_db_message_insert (l_context leaf) mid mosq_md_out msg_qos client_retain stored;
    mret (Some rc).

Fixpoint process_loop (source_id : string) (qos : Z) (retain : bool) (stored : storeid)
    (leaves : list subleaf) (rc : Z) : ST world Z :=
  match leaves with
  | [] => mret rc
  | leaf :: leaves' =>
    r ← process_leaf source_id qos retain stored leaf;
    process_loop source_id qos retain stored leaves' (if bool_decide (r = Some 1) then 1 else rc)
  end.

(** The retained message of a node is replaced. *)
Definition set_retained (stored : storeid) (hier : subhier) : ST world subhier :=
  (match h_retained hier with
   | Some x => store_upd x (λ s, s <| s_ref_count ::= λ n, n - 1 |>);;
               modify (λ w, w <| w_retained_count ::= λ n, n - 1 |>)
   | None => mret tt
   end);;
  s ← store_get stored;
  if msg_payloadlen (s_msg s) =? 0 then mret (hier <| h_retained := None |>)
  else
    store_upd stored (λ s, s <| s_ref_count ::= λ n, n + 1 |>);;
    modify (λ w, w <| w_retained_count ::= λ n, n + 1 |>);;
    mret (hier <| h_retained := Some stored |>).

Definition _subs_process (hier : subhier) (source_id : option string) (qos : Z) (retain : bool)
    (stored : storeid) (set_retain : bool) : ST world (Z * subhier) :=
  hier ← (if retain && set_retain then set_retained stored hier else mret hier);
  rc ← (match source_id with
        | Some id => process_loop id qos retain stored (h_subs hier) 0
        | None => mret 0
        end);
  mret (rc, hier).

(** The searches process the node with [set_retain = false]: it is unchanged. *)
Definition process_branch (branch : subhier) (source_id : option string) (qos : Z) (retain : bool)
    (stored : storeid) : ST world () :=
  _subs_process branch source_id qos retain stored false;; mret tt.

(** The [#] child of a node, in a search. *)
Definition process_pound (subhier : subhier) (source_id : option string) (qos : Z) (retain : bool)
    (stored : storeid) : ST world () :=
  if h_pound subhier =? 0 then mret tt
  else match find_child "#" subhier with
       | Some branch =>
         match h_children branch with
         | [] => process_branch branch source_id qos retain stored
         | _ => mret tt
         end
       | None => mret tt
       end.

Fixpoint _sub_search (subhier : subhier) (tokens : list string) (source_id : option string)
    (qos : Z) (retain : bool) (stored : storeid) : ST world () :=
  process_pound subhier source_id qos retain stored;;
  match tokens with
  | [] => mret tt
  | t :: tokens' =>
    (if h_plus subhier =? 0 then mret tt
     else match find_child "+" subhier with
          | Some branch =>
            _sub_search branch tokens' source_id qos retain stored;;
            match tokens' with [] => process_branch branch source_id qos retain stored | _ => mret tt end
          | None => mret tt
          end);;
    match find_child t subhier with
    | Some branch =>
      _sub_search branch tokens' source_id qos retain stored;;
      match tokens' with [] => process_branch branch source_id qos retain stored | _ => mret tt end
    | None => mret tt
    end
  end.

Definition mqtt3_db_messages_queue (source_id : option string) (topic : string) (qos : Z) (retain : bool)
    (stored : storeid) : ST world Z :=
  let tokens := _sub_topic_tokenise topic in
  let t := default "" (head tokens) in
  root ← gets w_subs;
  (match find_child t root with
   | Some s =>
     s ← (if retain then r ← _sub_add None 0 s tokens; set_root_child t (snd r);; mret (snd r) else mret s);
     _sub_search s tokens source_id qos retain stored
   | None => mret tt
   end);;
  st ← store_get stored;
  ext_ (dxl_on_finalize_message (s_db_id st));;
  mret 0.

(** ** Ending a session *)

(** The loop over the leaves: those of contexts marked [clean_subs] go. *)
Fixpoint clean_leaves (leaves kept : list subleaf) (fulltopic : string) : ST world (list subleaf) :=
  match leaves with
  | [] => mret kept
  | leaf :: leaves' =>
    cl ← ctx_get (l_context leaf);
    if c_clean_subs cl then
      modify (λ w, w <| w_subscription_count ::= λ n, n - 1 |>);;
      b ← _is_topic_removed (l_context leaf) (kept ++ leaves');
      (if (b : bool) then ext_ (dxl_on_topic_removed_from_broker fulltopic) else mret tt);;
      clean_leaves leaves' kept fulltopic
    else clean_leaves leaves' (kept ++ [leaf]) fulltopic
  end.

(** The loop over the children, each cleaned by [clean]: those left, and the
    node with the empty ones forgotten. *)
Definition clean_children (clean : subhier → ST world subhier) :=
  fix children (l : list subhier) (root : subhier) : ST world (list subhier * subhier) :=
    match l with
    | [] => mret ([], root)
    | child :: l' =>
      child' ← clean child;
      if childless child' then children l' (forget_child (h_topic child') root)
      else r ← children l' root; mret (child' :: fst r, snd r)
    end.

Fixpoint _subs_clean_session_full_topic (root : subhier) (fulltopic : string) (depth : nat) : ST world subhier :=
  let fulltopic := _add_topic_to_path (h_topic root) fulltopic depth in
  subs ← clean_leaves (h_subs root) [] fulltopic;
  r ← clean_children (λ child, _subs_clean_session_full_topic child fulltopic (S depth)) (h_children root) root;
  mret (snd r <| h_subs := subs |> <| h_children := fst r |>).

(** [mqtt3_subs_clean_session] on [db->subs]. *)
Fixpoint clean_roots (l : list subhier) : ST world (list subhier) :=
  match l with
  | [] => mret []
  | child :: l' =>
    child' ← _subs_clean_session_full_topic child "" 0;
    r ← clean_roots l'; mret (child' :: r)
  end.
Definition mqtt3_subs_clean_session : ST world Z :=
  root ← gets w_subs;
  l ← clean_roots (h_children root);
  modify (λ w, w <| w_subs ::= λ h, h <| h_children := l |> |>);;
  mret MOSQ_ERR_SUCCESS.

(** ** Retained messages *)

Definition _retain_process (retained : storeid) (p : ctxid) (sub_qos : Z) : ST world Z :=
  s ← store_get retained;
  let qos := if sub_qos <? msg_qos (s_msg s) then sub_qos else msg_qos (s_msg s) in
  mid ← (if 0 <? qos then _mosquitto_mid_generate p else mret 0);
  mqtt3_db_message_insert p mid mosq_md_out qos true retained.

Definition retain_branch (branch : subhier) (p : ctxid) (sub_qos : Z) : ST world () :=
  match h_retained branch with
  | Some x => _retain_process x p sub_qos;; mret tt
  | None => mret tt
  end.

Fixpoint _retain_search (subhier : subhier) (tokens : list string) (p : ctxid) (sub_qos level : Z) : ST world Z :=
  (fix branches (l : list State.subhier) (flag : Z) : ST world Z :=
     match l with
     | [] => mret flag
     | branch :: l' =>
       match tokens with
       | [] => ub
       | t :: tokens' =>
         if String.eqb t "#" && bool_decide (tokens' = []) then
           retain_branch branch p sub_qos;;
           (match h_children branch with [] => mret tt
            | _ => _retain_search branch tokens p sub_qos (level + 1);; mret tt end);;
           branches l' (-1)
         else if negb (String.eqb (h_topic branch) "+")
                 && (String.eqb (h_topic branch) t || String.eqb t "+") then
           (match tokens' with
            | t' :: _ =>
              r ← _retain_search branch tokens' p sub_qos (level + 1);
              if (r =? -1) || (bool_decide (l' = []) && String.eqb t' "#" && (0 <? level))
              then retain_branch branch p sub_qos else mret tt
            | [] => retain_branch branch p sub_qos
            end);;
           branches l' flag
         else branches l' flag
       end
     end) (h_children subhier) 0.

Definition mqtt3_retain_queue (p : ctxid) (sub : string) (sub_qos : Z) : ST world Z :=
  let tokens := _sub_topic_tokenise sub in
  root ← gets w_subs;
  (match List.find (λ c, String.eqb (h_topic c) (default "" (head tokens))) (h_children root) with
   | Some s => _retain_search s tokens p sub_qos 0;; mret tt
   | None => mret tt
   end);;
  mret MOSQ_ERR_SUCCESS.

(** ** Counting subscribers *)

Fixpoint _sub_count_process (leaves : list subleaf) (tenant_guid : option string) (count : Z) : ST world Z :=
  match leaves with
  | [] => mret count
  | leaf :: leaves' =>
    cl ← ctx_get (l_context leaf);
    let counted := negb (c_is_bridge cl) &&
      match tenant_guid with
      | None => true
      | Some g => bool_decide (c_dxl_tenant_guid cl = Some g)
      end in
    _sub_count_process leaves' tenant_guid (if counted then count + 1 else count)
  end.

(** The flag and the count. *)
Fixpoint _sub_count_search (subhier : subhier) (tokens : list string) (tenant_guid : option string) (count : Z)
    : ST world (Z * Z) :=
  r ← (match tokens with
       | [] => mret (0, count)
       | t :: tokens' =>
         let try_ (k : string) (r : Z * Z) : ST world (Z * Z) :=
           match find_child k subhier with
           | Some s =>
             r' ← _sub_count_search s tokens' tenant_guid (snd r);
             let flag := if fst r' =? -1 then -1 else fst r in
             count ← (match tokens' with
                      | [] => _sub_count_process (h_subs s) tenant_guid (snd r')
                      | _ => mret (snd r') end);
             mret (flag, count)
           | None => mret r
           end in
         r ← try_ "+" (0, count); try_ t r
       end);
  match find_child "#" subhier with
  | Some s => count ← _sub_count_process (h_subs s) tenant_guid (snd r); mret (-1, count)
  | None => mret r
  end.

Definition mqtt3_sub_count (topic : string) (tenant_guid : option string) (count : Z) : ST world (Z * Z) :=
  let tokens := _sub_topic_tokenise topic in
  root ← gets w_subs;
  match find_child (default "" (head tokens)) root with
  | Some s =>
    r ← _sub_count_search s tokens tenant_guid count;
    if fst r =? -1 then count ← _sub_count_process (h_subs s) tenant_guid (snd r); mret (0, count)
    else mret r
  | None => mret (0, count)
  end.
End subs.
