(* ===== verification/SubsProofs.v ===== *)
(** * The subscription tree: invariant and abstraction

    A well-formed tree has one child per name, a child table that agrees with
    the children, wildcard counters that agree with the wildcard children and
    no retained messages. The tree stands for a map from filters to lists of
    leaves, [leaves_at]; the operations of [Subs] are proved against it. *)

From S2P Require Import Prelude Topic State Packet Database Subs.
From stdpp Require Import options.

(** ** Children *)

Definition child (t : string) (l : list subhier) : option subhier :=
  List.find (λ c, String.eqb (h_topic c) t) l.
Arguments child : simpl never.
Definition names (l : list subhier) : list string := map h_topic l.
Arguments names : simpl never.
Lemma names_cons c l : names (c :: l) = h_topic c :: names l.
Proof. done. Qed.

Lemma child_cons t c l : child t (c :: l) = if decide (h_topic c = t) then Some c else child t l.
Proof. unfold child. cbn. destruct (String.eqb_spec (h_topic c) t); by case_decide. Qed.
Lemma child_Some t l c : child t l = Some c → h_topic c = t ∧ c ∈ l.
Proof.
  induction l as [|d l IH]; [done|]. rewrite child_cons. case_decide.
  - intros [= ->]. split; [done|apply list_elem_of_here].
  - intros Hc. destruct (IH Hc). split; [done|by apply list_elem_of_further].
Qed.
Lemma child_None t l : child t l = None ↔ t ∉ names l.
Proof.
  induction l as [|d l IH]; [split; [intros _; apply not_elem_of_nil|done]|].
  rewrite child_cons, names_cons, not_elem_of_cons. case_decide; [naive_solver|]. rewrite IH. naive_solver.
Qed.
Lemma child_app t l1 l2 : child t (l1 ++ l2) = match child t l1 with Some c => Some c | None => child t l2 end.
Proof. induction l1 as [|d l1 IH]; [done|]. cbn [app]. rewrite !child_cons. case_decide; [done|apply IH]. Qed.

Lemma set_child_cons t c' c l :
  set_child t c' (c :: l) = if decide (h_topic c = t) then c' :: l else c :: set_child t c' l.
Proof. cbn. destruct (String.eqb_spec (h_topic c) t); by case_decide. Qed.
Lemma del_child_cons t c l : del_child t (c :: l) = if decide (h_topic c = t) then l else c :: del_child t l.
Proof. cbn. destruct (String.eqb_spec (h_topic c) t); by case_decide. Qed.

Lemma names_set_child t c' l : h_topic c' = t → names (set_child t c' l) = names l.
Proof.
  intros Ht. unfold names. induction l as [|d l IH]; [done|]. rewrite set_child_cons.
  case_decide; cbn; [congruence|by rewrite IH].
Qed.
Lemma child_set_child t c' l u : h_topic c' = t → is_Some (child t l) →
  child u (set_child t c' l) = if decide (u = t) then Some c' else child u l.
Proof.
  intros Ht. induction l as [|d l IH]; [by intros []|]. rewrite set_child_cons.
  destruct (decide (h_topic d = t)) as [Hd|Hd]; rewrite !child_cons.
  - intros _. rewrite Ht. repeat case_decide; congruence.
  - rewrite (decide_False (P := h_topic d = t)) by done. intros Hs. rewrite (IH Hs). repeat case_decide; congruence.
Qed.
Lemma names_del_child t l : NoDup (names l) → names (del_child t l) = filter (λ u, u ≠ t) (names l).
Proof.
  induction l as [|d l IH]; [done|]. rewrite names_cons. intros [Hd Hn]%NoDup_cons.
  rewrite del_child_cons, filter_cons. destruct (decide (h_topic d = t)) as [Heq|Heq].
  - rewrite decide_False by naive_solver. subst. symmetry. apply filter_Forall, Forall_forall. by intros u Hu ->.
  - rewrite decide_True, names_cons by done. f_equal. by apply IH.
Qed.
Lemma child_del_child t l u : NoDup (names l) →
  child u (del_child t l) = if decide (u = t) then None else child u l.
Proof.
  induction l as [|d l IH]; [by case_decide|]. rewrite names_cons. intros [Hd Hn]%NoDup_cons.
  rewrite del_child_cons, (child_cons _ d). destruct (decide (h_topic d = t)) as [Heq|Heq].
  - case_decide as Hu; [|by rewrite decide_False by congruence]. apply child_None. by subst.
  - rewrite child_cons, (IH Hn). repeat case_decide; congruence.
Qed.
Lemma Forall_set_child (P : subhier → Prop) t c' l : P c' → Forall P l → Forall P (set_child t c' l).
Proof.
  intros Hc. induction 1 as [|d l Hd Hl IH]; [constructor|]. rewrite set_child_cons. case_decide; by constructor.
Qed.
Lemma Forall_del_child (P : subhier → Prop) t l : Forall P l → Forall P (del_child t l).
Proof. induction 1 as [|d l Hd Hl IH]; [constructor|]. rewrite del_child_cons. case_decide; [done|by constructor]. Qed.

(** ** Well-formed trees *)

Definition occurs (t : string) (l : list string) : Z := if bool_decide (t ∈ l) then 1 else 0.

Inductive wf_tree (h : subhier) : Prop := {
  wf_nodup : NoDup (names (h_children h));
  wf_hash : ∀ t, t ∈ h_children_hash_table h ↔ t ∈ names (h_children h);
  wf_hash_nodup : NoDup (h_children_hash_table h);
  wf_pound : h_pound h = occurs "#" (names (h_children h));
  wf_plus : h_plus h = occurs "+" (names (h_children h));
  wf_last : Forall (λ c, h_topic c = "#" → h_children c = []) (h_children h);
  wf_retained : h_retained h = None;
  wf_children : Forall wf_tree (h_children h) }.

Lemma wf_new t : wf_tree (subhier_new t).
Proof. split; cbn; try done; try constructor; try (intros; done). Qed.

Lemma wf_find_child h t : wf_tree h → find_child t h = child t (h_children h).
Proof.
  intros Hwf. unfold find_child. case_bool_decide as Hin; [done|]. symmetry. apply child_None.
  by rewrite <-(wf_hash h Hwf).
Qed.
Lemma wf_child h t c : wf_tree h → child t (h_children h) = Some c → wf_tree c ∧ h_topic c = t.
Proof.
  intros Hwf Hc. apply child_Some in Hc as [Ht Hc]. split; [|done].
  by apply (proj1 (Forall_forall _ _) (wf_children h Hwf)).
Qed.

(** *** The three updates of a node keep it well-formed *)

Lemma wf_set_child h t c c' : wf_tree h → child t (h_children h) = Some c → wf_tree c' → h_topic c' = t →
  (t = "#" → h_children c' = []) → wf_tree (h <| h_children ::= set_child t c' |>).
Proof.
  intros [Hn Hh Hhn Hp Hq Hl Hr Hw] Hc Hw' Ht Hlast.
  split; cbn; rewrite ?names_set_child by done; try done.
  - apply Forall_set_child; [|done]. intros E. apply Hlast. congruence.
  - by apply Forall_set_child.
Qed.

Lemma occurs_app t l u : occurs t (l ++ [u]) = if decide (t = u) then 1 else occurs t l.
Proof.
  unfold occurs. repeat (case_bool_decide || case_decide); try done; exfalso; rewrite elem_of_app, list_elem_of_singleton in *; naive_solver.
Qed.

Lemma wf_link_child h c : wf_tree h → child (h_topic c) (h_children h) = None → wf_tree c →
  (h_topic c = "#" → h_children c = []) → wf_tree (link_child c h).
Proof.
  intros [Hn Hh Hhn Hp Hq Hl Hr Hw] Hc Hw' Hlast. apply child_None in Hc.
  assert (names (h_children h ++ [c]) = names (h_children h) ++ [h_topic c]) as Hnames by (unfold names; by rewrite map_app).
  assert (add_heir_to_hash (h_topic c) (h_children_hash_table h) = h_children_hash_table h ++ [h_topic c]) as Hadd.
  { unfold add_heir_to_hash. rewrite bool_decide_eq_false_2; [done|]. by rewrite Hh. }
  unfold link_child, topic_is_wild_card. split; cbn -[add_heir_to_hash]; rewrite ?Hnames, ?Hadd; try done.
  - apply NoDup_app. split_and!; [done| |apply NoDup_singleton]. intros x Hx ->%list_elem_of_singleton. done.
  - intros t. rewrite !elem_of_app, Hh. done.
  - apply NoDup_app. split_and!; [done| |apply NoDup_singleton]. intros x Hx ->%list_elem_of_singleton. by apply Hc, Hh.
  - rewrite occurs_app, Hp. destruct (String.eqb_spec (h_topic c) "#") as [E|]; case_decide; try congruence.
    unfold occurs. rewrite bool_decide_eq_false_2; [done|congruence].
  - rewrite occurs_app, Hq. destruct (String.eqb_spec (h_topic c) "+") as [E|]; case_decide; try congruence.
    unfold occurs. rewrite bool_decide_eq_false_2; [done|congruence].
  - apply Forall_app. by split; [|constructor].
  - apply Forall_app. by split; [|constructor].
Qed.

Lemma occurs_filter t u l : NoDup l → u ∈ l →
  occurs t (filter (λ x, x ≠ u) l) = if decide (t = u) then 0 else occurs t l.
Proof.
  intros. unfold occurs. repeat (case_bool_decide || case_decide); try done; exfalso; rewrite list_elem_of_filter in *; naive_solver.
Qed.

Lemma wf_forget_child h t c : wf_tree h → child t (h_children h) = Some c →
  wf_tree (forget_child t (h <| h_children ::= del_child t |>)).
Proof.
  intros [Hn Hh Hhn Hp Hq Hl Hr Hw] Hc.
  assert (t ∈ names (h_children h)) as Hin.
  { apply child_Some in Hc as [<- Hc]. apply list_elem_of_fmap. eauto. }
  assert (∀ x, occurs x (names (h_children h)) = 0 ∨ occurs x (names (h_children h)) = 1) as H01.
  { intros x. unfold occurs. case_bool_decide; auto. }
  unfold forget_child, topic_is_wild_card, remove_heir_from_hash.
  split; cbn; rewrite ?names_del_child by done; try done.
  - by apply NoDup_filter.
  - intros x. rewrite !list_elem_of_filter, Hh. done.
  - by apply NoDup_filter.
  - rewrite occurs_filter, Hp by done. destruct (String.eqb_spec t "#") as [->|]; case_decide; try congruence; cbn; [|done].
    unfold occurs. rewrite bool_decide_eq_true_2 by done. done.
  - rewrite occurs_filter, Hq by done. destruct (String.eqb_spec t "+") as [->|]; case_decide; try congruence; cbn; [|done].
    unfold occurs. rewrite bool_decide_eq_true_2 by done. done.
  - by apply Forall_del_child.
  - by apply Forall_del_child.
Qed.

(** ** The map from filters to leaves *)

Fixpoint node_at (path : list string) (h : subhier) : option subhier :=
  match path with
  | [] => Some h
  | t :: path' => match child t (h_children h) with Some c => node_at path' c | None => None end
  end.
Definition leaves_at (path : list string) (h : subhier) : list subleaf :=
  match node_at path h with Some n => h_subs n | None => [] end.

Lemma node_at_cons t path h : node_at (t :: path) h =
  match child t (h_children h) with Some c => node_at path c | None => None end.
Proof. done. Qed.
Lemma leaves_at_cons t path h : leaves_at (t :: path) h =
  match child t (h_children h) with Some c => leaves_at path c | None => [] end.
Proof. unfold leaves_at. rewrite node_at_cons. by destruct (child t (h_children h)). Qed.
Lemma leaves_at_nil h : leaves_at [] h = h_subs h.
Proof. done. Qed.
Lemma leaves_at_new t path : leaves_at path (subhier_new t) = [].
Proof. by destruct path. Qed.

(** The tree [mqtt3_db_open] makes. *)
Definition empty_tree : subhier :=
  mk_subhier "" [] None [subhier_new ""; subhier_new "$SYS"] [""; "$SYS"] 0 0.

Lemma leaves_empty_tree path : leaves_at path empty_tree = [].
Proof.
  destruct path as [|t path]; [done|]. rewrite leaves_at_cons. cbn [h_children empty_tree]. rewrite !child_cons.
  repeat case_decide; [apply leaves_at_new..|done].
Qed.
Lemma wf_empty_tree : wf_tree empty_tree.
Proof.
  split; [by apply (bool_decide_unpack _); vm_compute|done|by apply (bool_decide_unpack _); vm_compute|done|done| |done|].
  - by repeat constructor.
  - constructor; [apply wf_new|]. constructor; [apply wf_new|constructor].
Qed.

Lemma leaves_at_set_child h t c' path : is_Some (child t (h_children h)) → h_topic c' = t →
  leaves_at path (h <| h_children ::= set_child t c' |>) =
  match path with
  | u :: path' => if decide (u = t) then leaves_at path' c' else leaves_at path h
  | [] => h_subs h
  end.
Proof.
  intros Hc Ht. destruct path as [|u path]; [done|]. rewrite !leaves_at_cons. cbn.
  rewrite child_set_child by done. by case_decide.
Qed.
Lemma leaves_at_link_child h c' path : child (h_topic c') (h_children h) = None →
  leaves_at path (link_child c' h) =
  match path with
  | u :: path' => if decide (u = h_topic c') then leaves_at path' c' else leaves_at path h
  | [] => h_subs h
  end.
Proof.
  intros Hc. destruct path as [|u path]; [done|]. rewrite !leaves_at_cons. cbn. rewrite child_app, child_cons.
  case_decide as Hu.
  - subst. by rewrite Hc, decide_True.
  - rewrite decide_False by congruence. by destruct (child u (h_children h)).
Qed.

(** ** Searching

    The nodes a search for [tokens] processes, by their filters, in the order
    of the code. *)

Definition last_here (tokens : list string) : list (list string) :=
  match tokens with [] => [[]] | _ => [] end.

Fixpoint search_paths (h : subhier) (tokens : list string) : list (list string) :=
  (match child "#" (h_children h) with Some _ => [["#"]] | None => [] end) ++
  match tokens with
  | [] => []
  | t :: tokens' =>
    let below (k : string) : list (list string) :=
      match child k (h_children h) with
      | Some c => map (cons k) (search_paths c tokens' ++ last_here tokens')
      | None => []
      end in
    below "+" ++ below t
  end.

(** No level of a topic name is a wildcard. *)
Definition plain (tokens : list string) : Prop := Forall (λ t, t ≠ "+" ∧ t ≠ "#") tokens.

Lemma node_at_hash h path : wf_tree h → node_at ("#" :: path) h ≠ None → path = [].
Proof.
  intros Hwf. rewrite node_at_cons. destruct (child "#" (h_children h)) as [c|] eqn:Hc; [|done].
  apply child_Some in Hc as [Ht Hc].
  pose proof (proj1 (Forall_forall _ _) (wf_last h Hwf) c Hc Ht) as Hl.
  destruct path as [|t path]; [done|]. rewrite node_at_cons, Hl. done.
Qed.

Lemma search_paths_nonempty h tokens : [] ∉ search_paths h tokens.
Proof.
  destruct tokens as [|t tokens]; cbn [search_paths]; rewrite ?elem_of_app.
  - intros [Hin|Hin]; [|by apply not_elem_of_nil in Hin].
    destruct (child "#" (h_children h)); [by apply list_elem_of_singleton in Hin|by apply not_elem_of_nil in Hin].
  - intros [Hin|[Hin|Hin]].
    + destruct (child "#" (h_children h)); [by apply list_elem_of_singleton in Hin|by apply not_elem_of_nil in Hin].
    + destruct (child "+" (h_children h)); [|by apply not_elem_of_nil in Hin]. by apply list_elem_of_fmap in Hin as (? & ? & _).
    + destruct (child t (h_children h)); [|by apply not_elem_of_nil in Hin]. by apply list_elem_of_fmap in Hin as (? & ? & _).
Qed.

Lemma search_paths_spec h tokens path : wf_tree h → plain tokens → path ≠ [] →
  path ∈ search_paths h tokens ↔ node_at path h ≠ None ∧ level_match path tokens.
Proof.
  revert h path. induction tokens as [|t tokens IH]; intros h path Hwf Hp Hne; cbn [search_paths].
  - rewrite app_nil_r. split.
    + destruct (child "#" (h_children h)) eqn:Hc; [|by intros ?%not_elem_of_nil].
      intros ->%list_elem_of_singleton. rewrite node_at_cons, Hc. split; [done|constructor].
    + intros [Hn Hm]. inversion Hm; subst; [done|]. rewrite node_at_cons in Hn.
      destruct (child "#" (h_children h)); [|done]. by apply list_elem_of_singleton.
  - apply Forall_cons in Hp as [[Hplus Hhash] Hp].
    assert (∀ k, path ∈ (match child k (h_children h) with
        | Some c => map (cons k) (search_paths c tokens ++ last_here tokens) | None => [] end) ↔
      ∃ path', path = k :: path' ∧ node_at path h ≠ None ∧ level_match path' tokens) as Hbelow.
    { intros k. destruct (child k (h_children h)) as [c|] eqn:Hc.
      - rewrite list_elem_of_fmap. destruct (wf_child _ _ _ Hwf Hc) as [Hwc _]. split.
        + intros (path' & -> & Hin). exists path'. rewrite node_at_cons, Hc. split; [done|].
          rewrite elem_of_app in Hin. destruct path' as [|u path'].
          * destruct Hin as [Hin|Hin]; [exfalso; by eapply search_paths_nonempty|].
            destruct tokens; [|by apply not_elem_of_nil in Hin]. split; [done|constructor].
          * destruct Hin as [Hin|Hin]; [by apply IH in Hin|].
            destruct tokens; [|by apply not_elem_of_nil in Hin]. by apply list_elem_of_singleton in Hin.
        + intros (path' & -> & Hn & Hm). exists path'. split; [done|]. rewrite node_at_cons, Hc in Hn.
          rewrite elem_of_app. destruct path' as [|u path']; [right|left; by apply IH].
          inversion Hm; subst. by apply list_elem_of_singleton.
      - split; [by intros ?%not_elem_of_nil|]. intros (path' & -> & Hn & _). by rewrite node_at_cons, Hc in Hn. }
    rewrite !elem_of_app, !Hbelow. split.
    + intros [Hh|[(path' & -> & Hn & Hm)|(path' & -> & Hn & Hm)]]; [|split; [done|by constructor]..].
      destruct (child "#" (h_children h)) eqn:Hc; [|by apply not_elem_of_nil in Hh].
      apply list_elem_of_singleton in Hh as ->. rewrite node_at_cons, Hc. split; [done|constructor].
    + intros [Hn Hm]. inversion Hm; subst; [left|right; left; by eauto|right; right; by eauto].
      rewrite node_at_cons in Hn. destruct (child "#" (h_children h)); [|done]. by apply list_elem_of_singleton.
Qed.

Lemma search_paths_head h tokens k path :
  path ∈ (match child k (h_children h) with
          | Some c => map (cons k) (search_paths c tokens ++ last_here tokens) | None => [] end) →
  head path = Some k.
Proof.
  destruct (child k (h_children h)); [|by intros ?%not_elem_of_nil]. by intros (? & -> & _)%list_elem_of_fmap.
Qed.

(** Each matching node is processed once. *)
Lemma search_paths_NoDup h tokens : wf_tree h → plain tokens → NoDup (search_paths h tokens).
Proof.
  revert h. induction tokens as [|t tokens IH]; intros h Hwf Hp; cbn [search_paths].
  { rewrite app_nil_r. destruct (child "#" (h_children h)); [apply NoDup_singleton|constructor]. }
  apply Forall_cons in Hp as [[Hplus Hhash] Hp].
  assert (∀ k, NoDup (match child k (h_children h) with
    | Some c => map (cons k) (search_paths c tokens ++ last_here tokens) | None => [] end)) as Hb.
  { intros k. destruct (child k (h_children h)) as [c|] eqn:Hc; [|constructor].
    apply NoDup_fmap_2; [by intros ?? [=]|]. apply NoDup_app. destruct (wf_child _ _ _ Hwf Hc) as [Hwc _].
    split_and!; [by apply IH| |destruct tokens; [apply NoDup_singleton|constructor]].
    intros path Hin Hl. destruct tokens; [|by apply not_elem_of_nil in Hl].
    apply list_elem_of_singleton in Hl as ->. by eapply search_paths_nonempty. }
  assert (∀ path, path ∈ (match child "#" (h_children h) with Some _ => [["#"]] | None => [] end) →
    head path = Some "#") as Hh.
  { intros path. destruct (child "#" (h_children h)); [|by intros ?%not_elem_of_nil]. by intros ->%list_elem_of_singleton. }
  apply NoDup_app. split_and!.
  - destruct (child "#" (h_children h)); [apply NoDup_singleton|constructor].
  - intros path Hin [Hin'|Hin']%elem_of_app; apply Hh in Hin; apply (search_paths_head h) in Hin'; congruence.
  - apply NoDup_app. split_and!; [apply Hb| |apply Hb].
    intros path Hin Hin'. apply (search_paths_head h) in Hin, Hin'. congruence.
Qed.

(** ** A search is one loop over the leaves it finds *)

Section search.
Context `{Env}.
Variables (source_id : option string) (qos : Z) (retain : bool) (stored : storeid).

Definition deliver (leaves : list subleaf) : ST world () :=
  (match source_id with
   | Some id => process_loop id qos retain stored leaves 0
   | None => mret 0
   end);; mret tt.

(** Leaves of the nodes at [paths]. *)
Definition leaves_of (h : subhier) (paths : list (list string)) : list subleaf :=
  concat (map (λ path, leaves_at path h) paths).

Lemma process_loop_rc id leaves rc rc' w :
  (process_loop id qos retain stored leaves rc;; mret tt) w
  = (process_loop id qos retain stored leaves rc';; mret tt) w.
Proof.
  revert rc rc' w. induction leaves as [|leaf leaves IH]; intros rc rc' w; [done|].
  cbn [process_loop]. unfold mbind, st_bind in *.
  destruct (process_leaf id qos retain stored leaf w) as [[r w1]|]; [|done]. case_bool_decide; [done|apply IH].
Qed.

Lemma process_loop_app id l1 l2 rc w :
  (process_loop id qos retain stored (l1 ++ l2) rc;; mret tt) w
  = (process_loop id qos retain stored l1 rc;; process_loop id qos retain stored l2 0;; mret tt) w.
Proof.
  revert rc w. induction l1 as [|leaf l1 IH]; intros rc w; [by rewrite (process_loop_rc id l2 rc 0)|].
  cbn [process_loop app]. unfold mbind, st_bind in *.
  destruct (process_leaf id qos retain stored leaf w) as [[r w1]|]; [|done]. apply IH.
Qed.

Lemma deliver_app l1 l2 w : deliver (l1 ++ l2) w = (deliver l1;; deliver l2) w.
Proof.
  unfold deliver. destruct source_id as [id|]; [|done]. rewrite process_loop_app. unfold mbind, st_bind.
  by destruct (process_loop id qos retain stored l1 0 w) as [[rc w1]|].
Qed.
Lemma deliver_nil w : deliver [] w = Some (tt, w).
Proof. unfold deliver. by destruct source_id. Qed.

Lemma process_branch_deliver h w : process_branch h source_id qos retain stored w = deliver (h_subs h) w.
Proof.
  unfold process_branch, _subs_process, deliver. rewrite andb_false_r. unfold mbind, st_bind; cbn.
  destruct source_id as [id|]; [|done]. by destruct (process_loop id qos retain stored (h_subs h) 0 w) as [[rc w1]|].
Qed.

Lemma leaves_of_app h ps1 ps2 : leaves_of h (ps1 ++ ps2) = leaves_of h ps1 ++ leaves_of h ps2.
Proof. unfold leaves_of. by rewrite map_app, concat_app. Qed.
Lemma leaves_of_below h k c ps : child k (h_children h) = Some c →
  leaves_of h (map (cons k) ps) = leaves_of c ps.
Proof.
  intros Hc. unfold leaves_of. rewrite map_map. f_equal. apply map_ext. intros path. by rewrite leaves_at_cons, Hc.
Qed.
Lemma leaves_of_last h tokens : leaves_of h (last_here tokens) = match tokens with [] => h_subs h | _ => [] end.
Proof. destruct tokens; [|done]. unfold leaves_of. cbn. by rewrite app_nil_r. Qed.

Lemma below_deliver h k tokens w :
  wf_tree h → (∀ c w, wf_tree c →
    _sub_search c tokens source_id qos retain stored w = deliver (leaves_of c (search_paths c tokens)) w) →
  (match find_child k h with
   | Some branch =>
     _sub_search branch tokens source_id qos retain stored;;
     match tokens with [] => process_branch branch source_id qos retain stored | _ => mret tt end
   | None => mret tt
   end) w =
  deliver (leaves_of h (match child k (h_children h) with
    | Some c => map (cons k) (search_paths c tokens ++ last_here tokens) | None => [] end)) w.
Proof.
  intros Hwf IH. rewrite wf_find_child by done. destruct (child k (h_children h)) as [c|] eqn:Hc.
  - rewrite (leaves_of_below _ _ _ _ Hc), leaves_of_app, deliver_app, leaves_of_last.
    destruct (wf_child _ _ _ Hwf Hc) as [Hwc _]. unfold mbind, st_bind. rewrite (IH c w Hwc).
    destruct (deliver _ w) as [[[] w1]|]; [|done].
    destruct tokens; [apply process_branch_deliver|by rewrite deliver_nil].
  - by rewrite deliver_nil.
Qed.

Lemma occurs_names k h : occurs k (names (h_children h)) = 0 → child k (h_children h) = None.
Proof. unfold occurs. case_bool_decide; [done|]. intros _. by apply child_None. Qed.

Lemma process_pound_deliver h w : wf_tree h →
  process_pound h source_id qos retain stored w =
  deliver (leaves_of h (match child "#" (h_children h) with Some _ => [["#"]] | None => [] end)) w.
Proof.
  intros Hwf. unfold process_pound. destruct (Z.eqb_spec (h_pound h) 0) as [Hz|Hz].
  { rewrite (wf_pound h Hwf) in Hz. apply occurs_names in Hz. by rewrite Hz, deliver_nil. }
  rewrite wf_find_child by done. destruct (child "#" (h_children h)) as [c|] eqn:Hc; [|by rewrite deliver_nil].
  pose proof (child_Some _ _ _ Hc) as [Ht Hin].
  rewrite (proj1 (Forall_forall _ _) (wf_last h Hwf) c Hin Ht).
  unfold leaves_of; cbn. rewrite leaves_at_cons, Hc, leaves_at_nil, app_nil_r. apply process_branch_deliver.
Qed.

Lemma sub_search_deliver h tokens w : wf_tree h →
  _sub_search h tokens source_id qos retain stored w = deliver (leaves_of h (search_paths h tokens)) w.
Proof.
  revert h w. induction tokens as [|t tokens IH]; intros h w Hwf; cbn [_sub_search search_paths].
  - rewrite app_nil_r. unfold mbind, st_bind. rewrite process_pound_deliver by done.
    by destruct (deliver _ w) as [[[] w1]|].
  - rewrite !leaves_of_app, !deliver_app. unfold mbind, st_bind. rewrite process_pound_deliver by done.
    destruct (deliver _ w) as [[[] w1]|]; [|done]. rewrite deliver_app. unfold mbind, st_bind.
    pose proof (λ k w, below_deliver h k tokens w Hwf IH) as Hb. unfold mbind, st_bind in Hb. rewrite <-!Hb.
    destruct (Z.eqb_spec (h_plus h) 0) as [Hz|Hz].
    + rewrite (wf_plus h Hwf) in Hz. apply occurs_names in Hz. rewrite (wf_find_child h "+"), Hz by done. cbn.
      by rewrite <-Hb.
    + destruct (_ w1) as [[[] w2]|]; [|done]. by rewrite <-Hb.
Qed.
End search.
