(* ===== verification/SubscribeProofs.v ===== *)
(** * Subscribing

    [mqtt3_sub_add] against the map from filters to leaves: the client gets
    one leaf at its filter, every other filter keeps its leaves, the tree
    stays well-formed, and the broker library hears of a topic exactly when
    its first subscriber that is not a bridge arrives. *)

From S2P Require Import Prelude Topic State Packet Database Subs SubsProofs.
From stdpp Require Import options.

Section subscribe.
Context `{Env}.

Definition client_id (w : world) (q : ctxid) : option string := w_ctxs w !! q ≫= c_id.
Definition is_bridge (w : world) (q : ctxid) : bool :=
  match w_ctxs w !! q with Some c => c_is_bridge c | None => false end.

(** Every leaf belongs to a client that is there and has an id. *)
Definition leaf_live (w : world) (leaf : subleaf) : Prop := is_Some (client_id w (l_context leaf)).
Definition live (w : world) (h : subhier) : Prop := ∀ path, Forall (leaf_live w) (leaves_at path h).

(** The client [id] has a leaf. *)
Definition has_leaf (w : world) (id : string) (leaves : list subleaf) : bool :=
  existsb (λ leaf, bool_decide (client_id w (l_context leaf) = Some id)) leaves.
(** Some leaf belongs to a client that is not a bridge. *)
Definition has_client (w : world) (leaves : list subleaf) : bool :=
  existsb (λ leaf, negb (is_bridge w (l_context leaf))) leaves.

(** The leaves after client [id] at [p] subscribed with [qos]. *)
Fixpoint put_leaf (w : world) (id : string) (p : ctxid) (qos : Z) (leaves : list subleaf) : list subleaf :=
  match leaves with
  | [] => [mk_subleaf p qos]
  | leaf :: leaves' =>
    if bool_decide (client_id w (l_context leaf) = Some id) then mk_subleaf (l_context leaf) qos :: leaves'
    else leaf :: put_leaf w id p qos leaves'
  end.

Lemma put_leaf_env w e id p qos leaves : put_leaf (w <| w_env := e |>) id p qos leaves = put_leaf w id p qos leaves.
Proof. induction leaves as [|leaf leaves IH]; [done|]. cbn [put_leaf]. by rewrite IH. Qed.

Lemma leaf_live_ctx w leaf : leaf_live w leaf →
  ∃ c id, w_ctxs w !! l_context leaf = Some c ∧ c_id c = Some id ∧ client_id w (l_context leaf) = Some id ∧
    is_bridge w (l_context leaf) = c_is_bridge c.
Proof.
  intros [id Hid]. unfold client_id, is_bridge in *. destruct (w_ctxs w !! l_context leaf) as [c|] eqn:Hc; [|done].
  cbn in Hid. exists c, id. split_and!; done.
Qed.

Lemma add_leaf_loop_spec id p qos leaves b w : Forall (leaf_live w) leaves →
  wp (add_leaf_loop id qos leaves b) (λ r w', w' = w ∧
    (if has_leaf w id leaves then fst r = Some (put_leaf w id p qos leaves)
     else fst r = None ∧ put_leaf w id p qos leaves = leaves ++ [mk_subleaf p qos]
          ∧ snd r = b && negb (has_client w leaves))) w.
Proof.
  revert b. induction leaves as [|leaf leaves IH]; intros b Hl; cbn [add_leaf_loop].
  { wp_steps. cbn. by rewrite andb_true_r. }
  apply Forall_cons in Hl as [Hleaf Hl]. destruct (leaf_live_ctx _ _ Hleaf) as (c & lid & Hc & Hlid & Hcid & Hbr).
  wp_steps. eapply wp_ctx_get; [done|]. wp_steps. eapply wp_deref; [done|]. cbv beta.
  cbn [put_leaf has_leaf has_client existsb]. rewrite Hcid, Hbr.
  destruct (String.eqb_spec lid id) as [->|Hne]; wp_steps.
  { rewrite bool_decide_eq_true_2 by done. done. }
  rewrite bool_decide_eq_false_2 by congruence. cbn [orb]. eapply wp_mono; [by apply IH|].
  intros [o f] w' [-> Hr]. wp_steps. split; [done|]. unfold has_leaf, has_client in *.
  destruct (existsb (λ leaf0, bool_decide _) leaves); cbn in *; [by rewrite Hr|].
  destruct Hr as (-> & -> & ->). split_and!; [done..|]. by destruct (c_is_bridge c), b.
Qed.

(** What a new subscription does to the counters. *)
Definition counted (p : ctxid) (c : mosquitto) (e : env) (w : world) : world :=
  w <| w_subscription_count ::= λ n, n + 1 |>
    <| w_ctxs ::= <[p := c <| c_subscription_count ::= λ n, n + 1 |>]> |> <| w_env := e |>.

(** The broker library hears of the filter. *)
Definition announced (w : world) (c : mosquitto) (leaves : list subleaf) : bool :=
  negb (has_client w leaves) && negb (c_is_bridge c).

Lemma add_leaf_spec p qos h fulltopic w c id :
  w_ctxs w !! p = Some c → c_id c = Some id → Forall (leaf_live w) (h_subs h) →
  wp (add_leaf p qos h fulltopic) (λ r w', snd r = h <| h_subs := put_leaf w id p qos (h_subs h) |> ∧
    if has_leaf w id (h_subs h) then fst r = -1 ∧ w' = w
    else fst r = MOSQ_ERR_SUCCESS ∧
      w' = counted p c (if announced w c (h_subs h) then dxl_on_topic_added_to_broker fulltopic (w_env w) else w_env w) w) w.
Proof.
  intros Hc Hid Hl. unfold add_leaf. wp_steps. eapply wp_ctx_get; [done|]. wp_steps.
  eapply (wp_mono _ (λ i w1, w1 = w ∧ (i = id ∨ h_subs h = []))).
  { destruct (h_subs h); wp_steps; [auto|]. eapply wp_deref; [done|]. auto. }
  intros i w1 [-> Hi]. wp_steps.
  assert (wp (add_leaf_loop i qos (h_subs h) true) (λ r w', w' = w ∧
    (if has_leaf w id (h_subs h) then fst r = Some (put_leaf w id p qos (h_subs h))
     else fst r = None ∧ put_leaf w id p qos (h_subs h) = h_subs h ++ [mk_subleaf p qos]
          ∧ snd r = true && negb (has_client w (h_subs h)))) w) as Hloop.
  { destruct Hi as [->| ->]; [by apply add_leaf_loop_spec|]. by cbn; wp_steps. }
  eapply wp_mono; [exact Hloop|]. intros [o f] w1 [-> Hr]. cbn [fst snd] in Hr.
  destruct (has_leaf w id (h_subs h)); [rewrite Hr; by wp_steps|].
  destruct Hr as (-> & -> & ->). wp_steps. eapply wp_ctx_upd; [done|]. wp_steps.
  unfold announced. destruct (true && negb (has_client w (h_subs h)) && negb (c_is_bridge c)) eqn:Hb;
    cbn [andb] in Hb; rewrite Hb; [eapply wp_ext_|]; wp_steps; (split; [done|]); by destruct w.
Qed.

(** No tenant limit is consulted for the client. *)
Definition quiet (w : world) (c : mosquitto) : Prop :=
  dxl_is_multi_tenant_mode_enabled (w_env w) = false ∨ Z.land (c_dxl_flags c) DXL_FLAG_OPS ≠ 0.

Lemma tenant_denied_spec p w c : w_ctxs w !! p = Some c →
  wp (tenant_denied (Some p)) (λ b w', ∃ e, w' = w <| w_env := e |> ∧ (quiet w c → b = false ∧ e = w_env w)) w.
Proof.
  intros Hc. unfold tenant_denied. wp_steps. eapply wp_ctx_get; [done|]. wp_steps. unfold quiet.
  destruct (dxl_is_multi_tenant_mode_enabled (w_env w)); cbn [andb].
  - destruct (Z.eqb_spec (Z.land (c_dxl_flags c) DXL_FLAG_OPS) 0) as [Hz|Hz]; wp_steps.
    + apply wp_ext. intros b e _. wp_steps. exists e. split; [done|]. by intros [].
    + exists (w_env w). by destruct w.
  - wp_steps. exists (w_env w). by destruct w.
Qed.

(** The path reported for the node reached by [tokens] from one at [depth]. *)
Fixpoint path_below (tokens : list string) (fulltopic : string) (depth : nat) : string :=
  match tokens with
  | [] => fulltopic
  | t :: tokens' => path_below tokens' (_add_topic_to_path t fulltopic (S depth)) (S depth)
  end.

Definition add_result (p : ctxid) (qos : Z) (id : string) (c : mosquitto) (h : subhier) (tokens : list string)
    (fulltopic : string) (w : world) (r : Z * subhier) (w' : world) : Prop :=
  wf_tree (snd r) ∧ h_topic (snd r) = h_topic h ∧ (tokens = [] → h_children (snd r) = h_children h) ∧
  ((fst r = 1 ∧ (∀ path, leaves_at path (snd r) = leaves_at path h) ∧ ¬ quiet w c ∧ ∃ e, w' = w <| w_env := e |>) ∨
   ((∀ path, leaves_at path (snd r) =
       if decide (path = tokens) then put_leaf w id p qos (leaves_at tokens h) else leaves_at path h) ∧
    ∃ e, (quiet w c → e = w_env w) ∧
    if has_leaf w id (leaves_at tokens h) then fst r = -1 ∧ w' = w <| w_env := e |>
    else fst r = MOSQ_ERR_SUCCESS ∧
      w' = counted p c (if announced w c (leaves_at tokens h) then dxl_on_topic_added_to_broker fulltopic e else e) w)).

(** Going down to the child [t], whose tree changed from [s] to [s']. *)
Lemma add_result_below p qos id c h s tokens fulltopic w e w' rc s' h' t :
  add_result p qos id c s tokens fulltopic (w <| w_env := e |>) (rc, s') w' →
  (quiet w c → e = w_env w) →
  wf_tree h' → h_topic h' = h_topic h → (∀ path, leaves_at path s = leaves_at (t :: path) h) →
  (∀ path, leaves_at path h' = match path with
     | u :: path' => if decide (u = t) then leaves_at path' s' else leaves_at path h
     | [] => leaves_at [] h end) →
  add_result p qos id c h (t :: tokens) fulltopic w (rc, h') w'.
Proof.
  intros (_ & _ & _ & Hr) He Hwf' Ht Hs Hl. split_and!; [done..|]. cbn [fst snd] in *.
  assert (¬ quiet (w <| w_env := e |>) c → ¬ quiet w c) as Hq.
  { intros Hq Hq'. rewrite (He Hq') in Hq. by destruct w. }
  destruct Hr as [(-> & Hl' & Hnq & e' & ->)|(Hl' & e' & He' & Hr)]; [left|right].
  - split_and!; [done| |by apply Hq|by exists e']. intros path. rewrite Hl. destruct path as [|u path]; [done|].
    case_decide; [subst|done]. by rewrite Hl', Hs.
  - split.
    + intros path. rewrite Hl. destruct path as [|u path]; [by rewrite decide_False|].
      case_decide as Hu; [subst|by rewrite decide_False by congruence].
      rewrite Hl', !Hs, put_leaf_env.
      case_decide as Hp; [subst; by rewrite decide_True|by rewrite decide_False by congruence].
    + exists e'. rewrite Hs in Hr. split.
      { intros Hq'. pose proof (He Hq') as ->. apply He'. by destruct w. }
      exact Hr.
Qed.

Lemma sub_add_full_topic_spec p qos tokens h fulltopic depth w c id :
  wf_tree h → live w h → valid_levels tokens = true → (h_topic h = "#" → tokens = []) →
  w_ctxs w !! p = Some c → c_id c = Some id →
  wp (_sub_add_full_topic (Some p) qos h tokens fulltopic depth)
    (add_result p qos id c h tokens (path_below tokens (_add_topic_to_path (h_topic h) fulltopic depth) depth) w) w.
Proof.
  revert h fulltopic depth w. induction tokens as [|t tokens IH]; intros h fulltopic depth w Hwf Hlive Hval Hh Hc Hid;
    cbn [_sub_add_full_topic path_below]; wp_steps; (eapply wp_mono; [by apply tenant_denied_spec|]);
    intros b w1 (e & -> & He); (destruct b; [wp_steps; split_and!; [done..|]; left; split_and!;
      [done|done|by intros [? _]%He|by eauto]|]).
  - eapply wp_mono; [eapply (add_leaf_spec p qos h); [done..|exact (Hlive [])]|].
    intros [rc h'] w' [Hh' Hr]. cbn [fst snd] in *. rewrite put_leaf_env in Hh'. subst h'. split_and!; [|done..|].
    { destruct Hwf. by split. }
    right. split.
    + intros [|u path]; [by rewrite decide_True|by rewrite decide_False].
    + exists e. split; [by intros [_ ?]%He|]. exact Hr.
  - cbn [valid_levels] in Hval. apply andb_true_iff in Hval as [Hvt Hval].
    assert (t = "#" → tokens = []) as Hlast.
    { intros ->. cbn in Hvt. by apply bool_decide_eq_true in Hvt. }
    rewrite wf_find_child by done. destruct (child t (h_children h)) as [s|] eqn:Hs; wp_steps.
    + destruct (wf_child _ _ _ Hwf Hs) as [Hws Hts].
      assert (∀ path, leaves_at path s = leaves_at (t :: path) h) as Hpath by (intros; by rewrite leaves_at_cons, Hs).
      eapply wp_mono; [eapply (IH s); try done; [intros path; rewrite Hpath; apply Hlive|by rewrite Hts]|].
      intros [rc s'] w' Hr. wp_steps. cbn [fst snd]. pose proof Hr as (Hws' & Hts' & Hch & _). cbn [snd] in *.
      rewrite Hts in Hr. eapply add_result_below; [exact Hr|by intros [_ ?]%He| |done|done|].
      * eapply wf_set_child; [done..|congruence|]. intros ->. rewrite Hch by auto.
        apply child_Some in Hs as [? Hin]. by apply (proj1 (Forall_forall _ _) (wf_last h Hwf) s Hin).
      * intros path. rewrite leaves_at_set_child by (done || congruence). by destruct path.
    + assert (∀ path, leaves_at path (subhier_new t) = leaves_at (t :: path) h) as Hpath.
      { intros. by rewrite leaves_at_new, leaves_at_cons, Hs. }
      eapply wp_mono; [eapply (IH (subhier_new t)); try done; [apply wf_new|intros path; rewrite leaves_at_new; constructor]|].
      intros [rc s'] w' Hr. wp_steps. cbn [fst snd]. pose proof Hr as (Hws' & Hts' & Hch & _). cbn [snd h_topic subhier_new] in *.
      eapply add_result_below; [exact Hr|by intros [_ ?]%He| |done|done|].
      * apply wf_link_child; [done|congruence|done|]. intros E. rewrite Hch; [done|]. apply Hlast. congruence.
      * intros path. rewrite leaves_at_link_child by congruence. rewrite Hts'. by destruct path.
Qed.
End subscribe.

(** ** The reported topic *)

Fixpoint tail_path (ls : list string) : string :=
  match ls with [] => "" | l :: ls' => "/" +:+ l +:+ tail_path ls' end.

Lemma join_tail_path l ls : join_levels (l :: ls) = l +:+ tail_path ls.
Proof.
  revert l. induction ls as [|m ls IH]; intros l; [by rewrite str_app_nil_r|].
  rewrite join_levels_cons by done. rewrite IH. done.
Qed.

Lemma strlen_app s t : strlen (s +:+ t) = strlen s + strlen t.
Proof.
  induction s as [|a s IH]; [done|]. rewrite str_app_cons, !strlen_cons, IH. lia.
Qed.
Lemma str_take_id n s : strlen s <= Z.of_nat n → str_take n s = s.
Proof.
  revert n. induction s as [|a s IH]; intros [|n] Hs; [done..| |].
  - rewrite strlen_cons in Hs. pose proof (strlen_nonneg s). lia.
  - change (str_take (S n) (String a s)) with (String a (str_take n s)).
    rewrite IH; [done|]. rewrite strlen_cons in Hs. lia.
Qed.
Lemma tail_path_nonneg ls : 0 <= strlen (tail_path ls).
Proof. apply strlen_nonneg. Qed.

Lemma path_below_tail ls acc depth : (2 <= depth)%nat → strlen (acc +:+ tail_path ls) < 1024 →
  path_below ls acc depth = acc +:+ tail_path ls.
Proof.
  revert acc depth. induction ls as [|l ls IH]; intros acc depth Hd Hl; [by rewrite str_app_nil_r|].
  cbn [path_below tail_path] in *. unfold _add_topic_to_path.
  rewrite (proj2 (Nat.ltb_lt 2 (S depth))) by lia. cbn [orb].
  rewrite <-!str_app_assoc in Hl. rewrite strlen_app in Hl. pose proof (tail_path_nonneg ls).
  rewrite str_take_id by (rewrite <-str_app_assoc; change (Z.of_nat (MAX_TOPIC_LEN - 1)) with 1023; lia).
  rewrite IH; [by rewrite !str_app_assoc|lia|]. rewrite <-str_app_assoc, strlen_app. lia.
Qed.

(** The path of an ordinary filter, as reported, is the filter. *)
Lemma path_below_filter sub : char0 sub ≠ Some dollar → strlen sub < 1024 →
  path_below (_sub_topic_tokenise sub) (_add_topic_to_path "" "" 0) 0 = sub.
Proof.
  intros Hd Hl. rewrite tokenise_spec, bool_decide_eq_false_2 by done. cbn [app path_below].
  change (_add_topic_to_path "" (_add_topic_to_path "" "" 0) 1) with "".
  rewrite <-(join_levels_levels sub) in Hl |- *. rewrite join_levels_levels at 1.
  destruct (levels_nonempty sub) as (l & ls & E). rewrite E in *. cbn [path_below]. rewrite join_tail_path in *.
  assert (_add_topic_to_path l "" 2 = l) as ->.
  { unfold _add_topic_to_path. cbn [Nat.ltb Nat.leb Nat.eqb orb andb]. rewrite andb_false_r. rewrite !str_app_nil_l.
    apply str_take_id. rewrite strlen_app in Hl. pose proof (tail_path_nonneg ls).
    change (Z.of_nat (MAX_TOPIC_LEN - 1)) with 1023. lia. }
  apply path_below_tail; [lia|done].
Qed.

(** ** [mqtt3_sub_add] *)

(** The path of a filter's node from [db->subs]: the tree repeats the first
    token. *)
Definition filter_path (sub : string) : list string :=
  default "" (head (_sub_topic_tokenise sub)) :: _sub_topic_tokenise sub.

Lemma tokenise_inj s t : _sub_topic_tokenise s = _sub_topic_tokenise t → s = t.
Proof.
  rewrite !tokenise_spec. destruct (levels_nonempty s) as (l & ls & El), (levels_nonempty t) as (m & ms & Em).
  pose proof (levels_head_char _ _ _ El) as Hl. pose proof (levels_head_char _ _ _ Em) as Hm.
  repeat case_bool_decide; cbn; rewrite ?El, ?Em; intros [=]; subst; try (by apply levels_inj; congruence).
  all: exfalso; naive_solver.
Qed.
Lemma filter_path_inj s t : filter_path s = filter_path t → s = t.
Proof. intros [= _ Ht]. by apply tokenise_inj. Qed.

Lemma valid_tokens sub : valid_levels (levels sub) = true → valid_levels (_sub_topic_tokenise sub) = true.
Proof. intros Hv. rewrite tokenise_spec. case_bool_decide; [done|]. cbn. by rewrite Hv. Qed.

(** The first token is empty or starts with [$]: it is no wildcard. *)
Lemma first_token_plain sub t ts : _sub_topic_tokenise sub = t :: ts → t ≠ "#" ∧ t ≠ "+".
Proof.
  rewrite tokenise_spec. case_bool_decide as Hd; [|by intros [= <- _]].
  destruct (levels_nonempty sub) as (l & ls & El). rewrite El. intros [= <- _].
  apply (levels_head_char _ _ _ El) in Hd. split; by intros ->.
Qed.
Lemma tokenise_cons sub : ∃ t ts, _sub_topic_tokenise sub = t :: ts.
Proof.
  rewrite tokenise_spec. destruct (levels_nonempty sub) as (l & ls & ->). case_bool_decide; cbn; eauto.
Qed.

(** A new child of [db->subs] goes first. *)
Lemma wf_push_root h t : wf_tree h → child t (h_children h) = None → t ≠ "#" → t ≠ "+" →
  wf_tree (h <| h_children ::= cons (subhier_new t) |> <| h_children_hash_table ::= add_heir_to_hash t |>).
Proof.
  intros [Hn Hh Hhn Hp Hq Hl Hr Hw] Hc Hpound Hplus. apply child_None in Hc.
  assert (add_heir_to_hash t (h_children_hash_table h) = h_children_hash_table h ++ [t]) as Hadd.
  { unfold add_heir_to_hash. rewrite bool_decide_eq_false_2; [done|]. by rewrite Hh. }
  assert (∀ x, x ≠ t → occurs x (t :: names (h_children h)) = occurs x (names (h_children h))) as Hocc.
  { intros x Hx. unfold occurs. repeat case_bool_decide; try done; exfalso; rewrite elem_of_cons in *; naive_solver. }
  split; cbn -[add_heir_to_hash]; rewrite ?Hadd, ?names_cons; cbn [h_topic subhier_new]; try done.
  - by constructor.
  - intros x. rewrite elem_of_app, list_elem_of_singleton, elem_of_cons, Hh. naive_solver.
  - apply NoDup_app. split_and!; [done| |apply NoDup_singleton]. intros x Hx ->%list_elem_of_singleton. by apply Hc, Hh.
  - by rewrite Hocc.
  - by rewrite Hocc.
  - by constructor.
  - constructor; [apply wf_new|done].
Qed.

Section sub_add.
Context `{Env}.

(** The subscribers of a filter. *)
Definition subscribers (w : world) (sub : string) : list subleaf := leaves_at (filter_path sub) (w_subs w).

(** What the tree promises at all times. *)
Definition tree_ok (w : world) : Prop := wf_tree (w_subs w) ∧ live w (w_subs w).

(** The outcome of a subscription. *)
Definition subscribed (p : ctxid) (qos : Z) (id : string) (c : mosquitto) (sub : string) (w : world) (rc : Z) (w' : world) : Prop :=
  wf_tree (w_subs w') ∧
  ((rc = 1 ∧ ¬ quiet w c ∧ (∀ path, leaves_at path (w_subs w') = leaves_at path (w_subs w)) ∧
    ∃ h e, w' = w <| w_subs := h |> <| w_env := e |>) ∨
   (rc = MOSQ_ERR_SUCCESS ∧
    (∀ path, leaves_at path (w_subs w') = if decide (path = filter_path sub)
       then put_leaf w id p qos (subscribers w sub) else leaves_at path (w_subs w)) ∧
    ∃ h e, (quiet w c → e = w_env w) ∧
      let topic := path_below (_sub_topic_tokenise sub)
                     (_add_topic_to_path (default "" (head (_sub_topic_tokenise sub))) "" 0) 0 in
      w' = (if has_leaf w id (subscribers w sub) then w <| w_env := e |>
            else counted p c (if announced w c (subscribers w sub)
                              then dxl_on_topic_added_to_broker topic e else e) w) <| w_subs := h |>)).

(** From a child of the root to the root. *)
Lemma subscribed_root p qos id c sub t ts w root s rc s' w1 :
  _sub_topic_tokenise sub = t :: ts →
  wf_tree root → (∀ path, leaves_at path root = leaves_at path (w_subs w)) →
  child t (h_children root) = Some s →
  add_result p qos id c s (t :: ts) (path_below (t :: ts) (_add_topic_to_path t "" 0) 0) w (rc, s') w1 →
  h_topic s = t → t ≠ "#" →
  w_ctxs w !! p = Some c →
  subscribed p qos id c sub w (if rc =? -1 then MOSQ_ERR_SUCCESS else rc)
    (w1 <| w_subs := root <| h_children ::= set_child t s' |> |>).
Proof.
  intros Htok Hwr Hroot Hs (Hws & Hts & _ & Hr) Ht Hne Hc. cbn [fst snd] in *.
  assert (∀ path, leaves_at path (root <| h_children ::= set_child t s' |>) = match path with
    | u :: path' => if decide (u = t) then leaves_at path' s' else leaves_at path (w_subs w)
    | [] => leaves_at [] (w_subs w) end) as Hl.
  { intros path. rewrite leaves_at_set_child by (eauto || congruence). rewrite <-(Hroot path), <-(Hroot []). by destruct path. }
  assert (∀ path, leaves_at path s = leaves_at (t :: path) (w_subs w)) as Hpath.
  { intros. by rewrite <-Hroot, leaves_at_cons, Hs. }
  assert (filter_path sub = t :: t :: ts) as Hfp by (unfold filter_path; by rewrite Htok).
  unfold subscribed, subscribers. rewrite Hfp, Htok. cbn [head default]. split.
  { cbn. eapply wf_set_child; [done..|congruence|by intros ->]. }
  destruct Hr as [(-> & Hl' & Hq & e & ->)|(Hl' & e & He & Hr)]; [left|right].
  - split_and!; [done|done| |by eexists _, e; destruct w].
    intros path. cbn [w_subs upd]. rewrite Hl. destruct path as [|u path]; [done|]. case_decide; [subst|done].
    by rewrite Hl', Hpath.
  - rewrite Hpath in Hr, Hl'. split_and!.
    + destruct (has_leaf _ _ _); by destruct Hr as [-> _].
    + intros path. cbn [w_subs upd]. rewrite Hl. destruct path as [|u path]; [by rewrite decide_False|].
      case_decide as Hu; [subst u|by rewrite decide_False by congruence].
      rewrite Hl'. case_decide as Hp; [subst path; by rewrite decide_True|].
      rewrite decide_False by congruence. apply Hpath.
    + eexists _, e. split; [done|]. destruct (has_leaf _ _ _); destruct Hr as [_ ->]; by destruct w.
Qed.

Lemma put_leaf_ctxs w w' id p qos leaves : w_ctxs w' = w_ctxs w → put_leaf w' id p qos leaves = put_leaf w id p qos leaves.
Proof.
  intros Hc. induction leaves as [|leaf leaves IH]; [done|]. cbn [put_leaf]. unfold client_id. by rewrite Hc, IH.
Qed.

Lemma has_leaf_ctxs w w' id leaves : w_ctxs w' = w_ctxs w → has_leaf w' id leaves = has_leaf w id leaves.
Proof. intros Hc. unfold has_leaf, client_id. by rewrite Hc. Qed.
Lemma announced_ctxs w w' c leaves : w_ctxs w' = w_ctxs w → announced w' c leaves = announced w c leaves.
Proof. intros Hc. unfold announced, has_client, is_bridge. by rewrite Hc. Qed.

(** An empty child added to the root beforehand makes no difference. *)
Lemma subscribed_pushed p qos id c sub w h rc w' :
  (∀ path, leaves_at path h = leaves_at path (w_subs w)) →
  subscribed p qos id c sub (w <| w_subs := h |>) rc w' → subscribed p qos id c sub w rc w'.
Proof.
  intros Hh [Hwf Hr]. split; [done|]. unfold subscribers in *. cbn [w_subs upd] in Hr. rewrite Hh in Hr.
  destruct Hr as [(Hrc & Hq & Hl & h' & e & ->)|(Hrc & Hl & h' & e & He & ->)]; [left|right].
  - split_and!; [done|done| |by eexists h', e; destruct w]. intros path. by rewrite Hl, Hh.
  - split_and!; [done| |].
    + intros path. rewrite Hl, Hh. by rewrite (put_leaf_ctxs w).
    + exists h', e. split; [done|]. cbv zeta. rewrite (has_leaf_ctxs w), (announced_ctxs w) by done.
      by destruct (has_leaf w id _).
Qed.

Lemma add_result_subs p qos id c h tokens ft w r w' : add_result p qos id c h tokens ft w r w' → w_subs w' = w_subs w.
Proof.
  intros (_ & _ & _ & [(_ & _ & _ & e & ->)|(_ & e & _ & Hr)]); [done|].
  by destruct (has_leaf _ _ _); destruct Hr as [_ ->].
Qed.

Lemma set_subs_eq (w : world) f h : w_subs w = h → w <| w_subs ::= f |> = w <| w_subs := f h |>.
Proof. intros <-. by destruct w. Qed.

Lemma sub_add_at p qos id c sub t ts w s :
  _sub_topic_tokenise sub = t :: ts → tree_ok w → valid_levels (levels sub) = true →
  w_ctxs w !! p = Some c → c_id c = Some id → child t (h_children (w_subs w)) = Some s →
  wp (r ← _sub_add (Some p) qos s (t :: ts); set_root_child t (snd r);; mret (fst r))
    (λ rc w', subscribed p qos id c sub w (if rc =? -1 then MOSQ_ERR_SUCCESS else rc) w') w.
Proof.
  intros Htok [Hwf Hlive] Hval Hc Hid Hs. destruct (wf_child _ _ _ Hwf Hs) as [Hws Hts].
  destruct (first_token_plain _ _ _ Htok) as [Hne _]. unfold _sub_add. wp_steps.
  eapply wp_mono; [eapply (sub_add_full_topic_spec p qos (t :: ts) s); try done|].
  - intros path. pose proof (Hlive (t :: path)) as HF. by rewrite leaves_at_cons, Hs in HF.
  - rewrite <-Htok. by apply valid_tokens.
  - congruence.
  - intros [rc s'] w1 Hr. unfold set_root_child. wp_steps. cbn [fst snd]. rewrite Hts in Hr.
    rewrite (set_subs_eq w1 _ (w_subs w)) by (by eapply add_result_subs).
    by eapply subscribed_root.
Qed.

Lemma sub_add_spec p sub qos w c id :
  tree_ok w → valid_levels (levels sub) = true → w_ctxs w !! p = Some c → c_id c = Some id →
  wp (mqtt3_sub_add p sub qos) (subscribed p qos id c sub w) w.
Proof.
  intros Hok Hval Hc Hid. pose proof Hok as [Hwf Hlive]. unfold mqtt3_sub_add. cbv zeta.
  destruct (tokenise_cons sub) as (t & ts & Htok). rewrite Htok. change (default "" (head (t :: ts))) with t. wp_steps.
  rewrite wf_find_child by done. destruct (child t (h_children (w_subs w))) as [s|] eqn:Hs.
  - eapply wp_mono; [by eapply sub_add_at|]. intros rc w' Hr. by wp_steps.
  - do 2 wp_step. destruct (first_token_plain _ _ _ Htok) as [Hp Hq].
    set (h := w_subs w <| h_children ::= cons (subhier_new t) |> <| h_children_hash_table ::= add_heir_to_hash t |>).
    assert (∀ path, leaves_at path h = leaves_at path (w_subs w)) as Hl.
    { intros [|u path]; [done|]. rewrite !leaves_at_cons. cbn. rewrite child_cons. cbn.
      case_decide; [|done]. subst. by rewrite Hs, leaves_at_new. }
    rewrite (set_subs_eq w _ (w_subs w)) by done. fold h.
    assert (child t (h_children h) = Some (subhier_new t)) as Hs'.
    { cbn. by rewrite child_cons, decide_True. }
    assert (tree_ok (w <| w_subs := h |>)) as Hok'.
    { split; [by apply wf_push_root|]. intros path. cbn [w_subs upd]. rewrite Hl. apply Hlive. }
    eapply wp_mono; [by eapply (sub_add_at p qos id c sub t ts (w <| w_subs := h |>))|].
    intros rc w' Hr. wp_steps. by eapply subscribed_pushed.
Qed.
End sub_add.
