(* ===== verification/UnsubscribeProofs.v ===== *)
(** * Unsubscribing

    [mqtt3_sub_remove] takes the client's leaf off its filter and prunes the
    branches that became empty; every other filter keeps its leaves. *)

From S2P Require Import Prelude Topic State Packet Database Subs SubsProofs SubscribeProofs.
From stdpp Require Import options.

(** The leaves without the first one of [p]. *)
Definition without (p : ctxid) (leaves : list subleaf) : list subleaf := default leaves (drop_leaf p leaves).

(** *** Pruning *)

Lemma childless_leaves c path : childless c = true → leaves_at path c = [].
Proof.
  unfold childless. destruct (h_children c) as [|] eqn:Hc; [|done]. destruct (h_subs c) as [|] eqn:Hs; [|done]. intros _.
  destruct path as [|t path]; [done|]. by rewrite leaves_at_cons, Hc.
Qed.

Lemma wf_prune_child h t c c' : wf_tree h → child t (h_children h) = Some c → wf_tree c' → h_topic c' = t →
  (t = "#" → h_children c' = []) → wf_tree (prune_child t c' h).
Proof.
  intros. unfold prune_child. destruct (childless c').
  - replace (h_topic c') with t by done. by eapply wf_forget_child.
  - by eapply wf_set_child.
Qed.

Lemma leaves_at_prune_child h t c' path : wf_tree h → is_Some (child t (h_children h)) → h_topic c' = t →
  leaves_at path (prune_child t c' h) =
  match path with
  | u :: path' => if decide (u = t) then leaves_at path' c' else leaves_at path h
  | [] => h_subs h
  end.
Proof.
  intros Hwf Hc Ht. unfold prune_child. destruct (childless c') eqn:He; [|by apply leaves_at_set_child].
  destruct path as [|u path]; [done|]. rewrite !leaves_at_cons. cbn.
  rewrite child_del_child by apply (wf_nodup h Hwf). case_decide; [|done]. by rewrite childless_leaves.
Qed.

Section unsubscribe.
Context `{Env}.

Lemma all_bridges_spec leaves w : Forall (leaf_live w) leaves →
  wp (all_bridges leaves) (λ b w', w' = w ∧ b = negb (has_client w leaves)) w.
Proof.
  induction leaves as [|leaf leaves IH]; intros Hl; cbn [all_bridges]; [by wp_steps|].
  apply Forall_cons in Hl as [Hleaf Hl]. destruct (leaf_live_ctx _ _ Hleaf) as (c & lid & Hc & _ & _ & Hbr).
  wp_steps. eapply wp_ctx_get; [done|]. cbv beta. cbn [has_client existsb]. rewrite Hbr.
  destruct (c_is_bridge c); cbn [negb orb]; [by apply IH|by wp_steps].
Qed.

Lemma is_topic_removed_spec p leaves w c : w_ctxs w !! p = Some c → Forall (leaf_live w) leaves →
  wp (_is_topic_removed p leaves) (λ b w', w' = w ∧ b = announced w c leaves) w.
Proof.
  intros Hc Hl. unfold _is_topic_removed, announced. wp_steps. eapply wp_ctx_get; [done|]. cbv beta.
  destruct (c_is_bridge c); [wp_steps; by rewrite andb_false_r|].
  eapply wp_mono; [by apply all_bridges_spec|]. intros b w' [-> ->]. by rewrite andb_true_r.
Qed.

Lemma drop_leaf_live p leaves leaves' w : drop_leaf p leaves = Some leaves' →
  Forall (leaf_live w) leaves → Forall (leaf_live w) leaves'.
Proof.
  revert leaves'. induction leaves as [|leaf leaves IH]; intros leaves' Hd Hl; [done|].
  apply Forall_cons in Hl as [Hleaf Hl]. cbn in Hd. case_decide; [by simplify_eq|].
  destruct (drop_leaf p leaves) as [l|]; [|done]. cbn in Hd. simplify_eq. constructor; [done|by apply IH].
Qed.

(** The counters and the broker library after a leaf of [p] went from the
    leaves, [subs] being left. *)
Definition uncounted_sub (p : ctxid) (c : mosquitto) (fulltopic : string) (subs : list subleaf) (w : world) : world :=
  w <| w_subscription_count ::= λ n, n - 1 |>
    <| w_ctxs ::= <[p := c <| c_subscription_count ::= λ n, n - 1 |>]> |>
    <| w_env ::= λ e, if announced w c subs then dxl_on_topic_removed_from_broker fulltopic e else e |>.

Definition remove_effect (p : ctxid) (c : mosquitto) (fulltopic : string) (leaves : list subleaf) (w : world) : world :=
  match drop_leaf p leaves with
  | Some subs => uncounted_sub p c fulltopic subs w
  | None => w
  end.

Lemma client_id_count w p c f : w_ctxs w !! p = Some c → c_id (f c) = c_id c →
  ∀ q, client_id (w <| w_subscription_count ::= λ n, n - 1 |> <| w_ctxs ::= <[p := f c]> |>) q = client_id w q.
Proof.
  intros Hc Hf q. unfold client_id; cbn. destruct (decide (q = p)) as [->|].
  - by rewrite lookup_insert_eq, Hc.
  - by rewrite lookup_insert_ne.
Qed.

Lemma is_bridge_count w p c f : w_ctxs w !! p = Some c → c_is_bridge (f c) = c_is_bridge c →
  ∀ q, is_bridge (w <| w_subscription_count ::= λ n, n - 1 |> <| w_ctxs ::= <[p := f c]> |>) q = is_bridge w q.
Proof.
  intros Hc Hf q. unfold is_bridge; cbn. destruct (decide (q = p)) as [->|].
  - by rewrite lookup_insert_eq, Hc.
  - by rewrite lookup_insert_ne.
Qed.
Lemma has_client_same w w' leaves : (∀ q, is_bridge w' q = is_bridge w q) → has_client w' leaves = has_client w leaves.
Proof.
  intros Hb. induction leaves as [|leaf leaves IH]; [done|]. cbn [has_client existsb]. rewrite Hb. f_equal. exact IH.
Qed.

Lemma remove_leaf_spec p h fulltopic w c : w_ctxs w !! p = Some c → Forall (leaf_live w) (h_subs h) →
  wp (remove_leaf p h fulltopic) (λ h' w', h' = h <| h_subs := without p (h_subs h) |> ∧
    w' = remove_effect p c fulltopic (h_subs h) w) w.
Proof.
  intros Hc Hl. unfold remove_leaf, remove_effect, without. destruct (drop_leaf p (h_subs h)) as [subs|] eqn:Hd.
  2:{ wp_steps. split; [by destruct h|done]. }
  wp_steps. eapply wp_ctx_upd; [done|]. cbv beta. wp_steps.
  set (w1 := w <| w_subscription_count ::= _ |> <| w_ctxs ::= _ |>).
  eapply wp_mono; [apply (is_topic_removed_spec p subs w1 (c <| c_subscription_count ::= λ n, n - 1 |>))|].
  - apply lookup_insert_eq.
  - eapply Forall_impl; [by eapply drop_leaf_live|]. intros leaf. unfold leaf_live, w1.
    by rewrite (client_id_count w p c (λ c, c <| c_subscription_count ::= λ n, n - 1 |>)).
  - intros b w2 [-> ->]. assert (announced w1 (c <| c_subscription_count ::= λ n, n - 1 |>) subs = announced w c subs) as ->.
    { unfold announced. f_equal. f_equal. apply has_client_same. intros q.
      by apply (is_bridge_count w p c (λ c, c <| c_subscription_count ::= λ n, n - 1 |>)). }
    unfold uncounted_sub. destruct (announced w c subs); wp_steps.
    + apply wp_ext_. wp_steps. done.
    + split; [done|]. by destruct w.
Qed.

(** The effect on a (sub)tree: [tokens] loses the client's leaf. *)
Definition removed_from (p : ctxid) (tokens : list string) (h h' : subhier) : Prop :=
  wf_tree h' ∧ h_topic h' = h_topic h ∧ (h_children h = [] → h_children h' = []) ∧
  ∀ path, leaves_at path h' = if decide (path = tokens) then without p (leaves_at tokens h) else leaves_at path h.

Lemma sub_remove_full_topic_spec p tokens h fulltopic depth w c :
  wf_tree h → live w h → w_ctxs w !! p = Some c →
  wp (_sub_remove_full_topic p h tokens fulltopic depth) (λ h' w', removed_from p tokens h h' ∧
    w' = remove_effect p c (path_below tokens (_add_topic_to_path (h_topic h) fulltopic depth) depth)
           (leaves_at tokens h) w) w.
Proof.
  revert h fulltopic depth. induction tokens as [|t tokens IH]; intros h fulltopic depth Hwf Hlive Hc;
    cbn [_sub_remove_full_topic path_below].
  - eapply wp_mono; [by apply remove_leaf_spec; [|exact (Hlive [])]|]. intros h' w' [-> ->]. split; [|done].
    split_and!; [by destruct Hwf; split|done|done|].
    intros [|u path]; [by rewrite decide_True|by rewrite decide_False].
  - fold (child t (h_children h)). destruct (child t (h_children h)) as [s|] eqn:Hs.
    + destruct (wf_child _ _ _ Hwf Hs) as [Hws Hts].
      assert (∀ path, leaves_at path s = leaves_at (t :: path) h) as Hpath by (intros; by rewrite leaves_at_cons, Hs).
      wp_steps. eapply wp_mono; [apply (IH s); try done; intros path; rewrite Hpath; apply Hlive|].
      intros s' w' [(Hws' & Hts' & Hch & Hl) ->]. wp_steps. rewrite Hts, Hpath. split; [|done].
      assert (h_topic s' = t) as Ht by congruence. split_and!.
      * eapply wf_prune_child; [done..|]. intros ->. apply Hch.
        apply child_Some in Hs as [? Hin]. by apply (proj1 (Forall_forall _ _) (wf_last h Hwf) s Hin).
      * unfold prune_child. by destruct (childless s').
      * intros Hnil. by rewrite Hnil in Hs.
      * intros path. rewrite leaves_at_prune_child by eauto. destruct path as [|u path]; [by rewrite decide_False|].
        case_decide as Hu; [subst u|by rewrite decide_False by congruence].
        rewrite Hl, Hpath. case_decide as Hp; [subst; by rewrite decide_True|].
        rewrite decide_False by congruence. apply Hpath.
    + assert (leaves_at (t :: tokens) h = []) as Hnil by (by rewrite leaves_at_cons, Hs).
      wp_steps. unfold remove_effect. rewrite Hnil. split; [|done]. split_and!; [done..|].
      intros path. case_decide; [|done]. subst. by rewrite Hnil.
Qed.

(** The path reported for a filter. *)
Definition reported (sub : string) : string :=
  path_below (_sub_topic_tokenise sub)
    (_add_topic_to_path (default "" (head (_sub_topic_tokenise sub))) "" 0) 0.

Lemma sub_remove_spec p sub w c : tree_ok w → w_ctxs w !! p = Some c →
  wp (mqtt3_sub_remove p sub) (λ rc w', rc = MOSQ_ERR_SUCCESS ∧ ∃ h,
    w' = remove_effect p c (reported sub) (subscribers w sub) w <| w_subs := h |> ∧
    wf_tree h ∧ ∀ path, leaves_at path h =
      if decide (path = filter_path sub) then without p (subscribers w sub) else leaves_at path (w_subs w)) w.
Proof.
  intros [Hwf Hlive] Hc. unfold mqtt3_sub_remove, subscribers, reported, filter_path. cbv zeta.
  destruct (tokenise_cons sub) as (t & ts & Htok). rewrite Htok. change (default "" (head (t :: ts))) with t.
  wp_steps. rewrite wf_find_child by done. destruct (child t (h_children (w_subs w))) as [s|] eqn:Hs; wp_steps.
  - destruct (wf_child _ _ _ Hwf Hs) as [Hws Hts].
    assert (∀ path, leaves_at path s = leaves_at (t :: path) (w_subs w)) as Hpath by (intros; by rewrite leaves_at_cons, Hs).
    eapply wp_mono; [eapply (sub_remove_full_topic_spec p (t :: ts) s); try done; intros path; rewrite Hpath; apply Hlive|].
    intros s' w1 [(Hws' & Hts' & Hch & Hl) ->]. unfold set_root_child. wp_steps. split; [done|].
    rewrite Hts, Hpath. assert (h_topic s' = t) as Ht by congruence.
    exists (w_subs w <| h_children ::= set_child t s' |>). split_and!.
    + apply set_subs_eq. unfold remove_effect. by destruct (drop_leaf _ _).
    + eapply wf_set_child; [done..|]. intros ->. by destruct (first_token_plain _ _ _ Htok).
    + intros path. rewrite leaves_at_set_child by (eauto || congruence). destruct path as [|u path]; [by rewrite decide_False|].
      case_decide as Hu; [subst u|by rewrite decide_False by congruence].
      rewrite Hl, Hpath. case_decide as Hp; [subst; by rewrite decide_True|].
      rewrite decide_False by congruence. apply Hpath.
  - split; [done|]. assert (leaves_at (t :: t :: ts) (w_subs w) = []) as Hnil by (by rewrite leaves_at_cons, Hs).
    rewrite Hnil. exists (w_subs w). split_and!; [by destruct w|done|].
    intros path. case_decide; [|done]. subst. by rewrite Hnil.
Qed.
End unsubscribe.

(** * Ending sessions

    [mqtt3_subs_clean_session] removes every subscription of the clients that
    are marked, in one walk over the tree, and nothing else. *)

(** Induction on the tree. *)
Lemma subhier_tree_ind (P : subhier → Prop) : (∀ h, Forall P (h_children h) → P h) → ∀ h, P h.
Proof.
  intros Hstep. fix IH 1. intros [topic subs retained children hash pound plus]. apply Hstep. cbn.
  induction children as [|c children IHc]; constructor; [apply IH|exact IHc].
Qed.

Section clean.
Context `{Env}.

(** The leaf survives: its client is not marked. *)
Definition keeps (w : world) (leaf : subleaf) : bool :=
  match w_ctxs w !! l_context leaf with Some c => negb (c_clean_subs c) | None => true end.
Definition kept (w : world) (leaves : list subleaf) : list subleaf := filter (λ leaf, keeps w leaf = true) leaves.

Lemma kept_cons w leaf leaves : kept w (leaf :: leaves) = (if keeps w leaf then [leaf] else []) ++ kept w leaves.
Proof. unfold kept. rewrite filter_cons. by destruct (keeps w leaf). Qed.
Lemma kept_app w l1 l2 : kept w (l1 ++ l2) = kept w l1 ++ kept w l2.
Proof. unfold kept. by rewrite filter_app. Qed.

(** Only the count of subscriptions and the environment change. *)
Definition quietly (w w' : world) : Prop := ∃ n e, w' = w <| w_subscription_count := n |> <| w_env := e |>.
Lemma quietly_refl w : quietly w w.
Proof. exists (w_subscription_count w), (w_env w). by destruct w. Qed.
Lemma quietly_trans w1 w2 w3 : quietly w1 w2 → quietly w2 w3 → quietly w1 w3.
Proof. intros (?&?&->) (n&e&->). by exists n, e. Qed.
Lemma quietly_ctxs w w' : quietly w w' → w_ctxs w' = w_ctxs w.
Proof. by intros (?&?&->). Qed.
Lemma quietly_subs w w' : quietly w w' → w_subs w' = w_subs w.
Proof. by intros (?&?&->). Qed.

Lemma kept_ctxs w w' leaves : w_ctxs w' = w_ctxs w → kept w' leaves = kept w leaves.
Proof. intros Hc. unfold kept, keeps. by rewrite Hc. Qed.
Lemma live_ctxs w w' h : w_ctxs w' = w_ctxs w → live w h → live w' h.
Proof.
  intros Hc Hl path. eapply Forall_impl; [apply Hl|]. intros leaf. unfold leaf_live, client_id. by rewrite Hc.
Qed.

Lemma clean_leaves_spec leaves pre fulltopic w : Forall (leaf_live w) (pre ++ leaves) →
  wp (clean_leaves leaves pre fulltopic) (λ r w', quietly w w' ∧ r = pre ++ kept w leaves) w.
Proof.
  revert pre w. induction leaves as [|leaf leaves IH]; intros pre w Hl; cbn [clean_leaves].
  { wp_steps. split; [apply quietly_refl|]. by rewrite app_nil_r. }
  pose proof Hl as Hl'. apply Forall_app in Hl' as [Hpre Hl']. apply Forall_cons in Hl' as [Hleaf Hrest].
  destruct (leaf_live_ctx _ _ Hleaf) as (c & id & Hc & _). wp_steps. eapply wp_ctx_get; [done|]. cbv beta.
  rewrite kept_cons. assert (keeps w leaf = negb (c_clean_subs c)) as -> by (unfold keeps; by rewrite Hc).
  destruct (c_clean_subs c); cbn [negb app]; wp_steps.
  - eapply wp_mono; [apply (is_topic_removed_spec (l_context leaf) (pre ++ leaves) _ c); [done|by apply Forall_app]|].
    intros b w1 [-> _]. wp_step.
    eapply (wp_mono _ (λ _ w2, quietly w w2)).
    { destruct b; [apply wp_ext_|wp_steps]; (eexists (w_subscription_count w - 1), _); by destruct w. }
    intros _ w2 Hw2. pose proof (quietly_ctxs _ _ Hw2) as Hc2.
    eapply wp_mono; [apply IH|].
    + apply Forall_app. split; (eapply Forall_impl; [done|]); intros x; unfold leaf_live, client_id; by rewrite Hc2.
    + intros r w3 [Hw3 ->]. split; [by eapply quietly_trans|]. by rewrite (kept_ctxs w).
  - eapply wp_mono; [apply IH; by rewrite <-app_assoc|]. intros r w1 [Hw1 ->]. split; [done|]. by rewrite <-app_assoc.
Qed.

(** [h'] is [h] with the marked clients gone. *)
Definition cleaned (w : world) (h h' : subhier) : Prop :=
  wf_tree h' ∧ h_topic h' = h_topic h ∧ (h_children h = [] → h_children h' = []) ∧
  ∀ path, leaves_at path h' = kept w (leaves_at path h).

Lemma child_middle pre c l : NoDup (names (pre ++ c :: l)) → child (h_topic c) (pre ++ c :: l) = Some c.
Proof.
  intros Hn. rewrite child_app, child_cons, decide_True by done.
  assert (child (h_topic c) pre = None) as ->; [|done]. apply child_None. unfold names in Hn |- *.
  rewrite map_app, NoDup_app in Hn. destruct Hn as (_ & Hn & _). intros Hin. apply (Hn _ Hin). apply list_elem_of_here.
Qed.
Lemma set_child_middle pre c c' l : NoDup (names (pre ++ c :: l)) →
  set_child (h_topic c) c' (pre ++ c :: l) = pre ++ c' :: l.
Proof.
  induction pre as [|d pre IH]; cbn [app]; intros Hn; rewrite set_child_cons; [by rewrite decide_True|].
  rewrite names_cons, NoDup_cons in Hn. destruct Hn as [Hd Hn]. rewrite decide_False, IH; [done|done|].
  intros E. apply Hd. rewrite E. unfold names. rewrite map_app. apply elem_of_app. right. apply list_elem_of_here.
Qed.
Lemma del_child_middle pre c l : NoDup (names (pre ++ c :: l)) → del_child (h_topic c) (pre ++ c :: l) = pre ++ l.
Proof.
  induction pre as [|d pre IH]; cbn [app]; intros Hn; rewrite del_child_cons; [by rewrite decide_True|].
  rewrite names_cons, NoDup_cons in Hn. destruct Hn as [Hd Hn]. rewrite decide_False, IH; [done|done|].
  intros E. apply Hd. rewrite E. unfold names. rewrite map_app. apply elem_of_app. right. apply list_elem_of_here.
Qed.

(** [root] as it stands with the children [l]. *)
Definition having (l : list subhier) (root : subhier) : subhier := root <| h_children := l |>.

(** One child of [root] is cleaned, and forgotten if nothing is left of it. *)
Lemma clean_child_step w root pre c c' l :
  wf_tree (having (pre ++ c :: l) root) → cleaned w c c' →
  let e := childless c' in
  let l' := if e then pre ++ l else pre ++ c' :: l in
  let root' := if e then forget_child (h_topic c') root else root in
  wf_tree (having l' root') ∧
  (∀ path, leaves_at path (having l' root') =
    match path with
    | u :: path' => if decide (u = h_topic c) then kept w (leaves_at path (having (pre ++ c :: l) root))
                    else leaves_at path (having (pre ++ c :: l) root)
    | [] => h_subs root
    end).
Proof.
  intros Hwf (Hwc & Ht & Hch & Hl) e l' root'. pose proof (wf_nodup _ Hwf) as Hn. cbn in Hn.
  pose proof (child_middle _ _ _ Hn) as Hc.
  assert (wf_tree (having (pre ++ c' :: l) root)) as Hset.
  { pose proof (wf_set_child _ (h_topic c) c c' Hwf Hc Hwc Ht) as Hset. cbn in Hset.
    rewrite set_child_middle in Hset by done. apply Hset. intros E. apply Hch.
    by apply (proj1 (Forall_forall _ _) (wf_last _ Hwf) c); [apply elem_of_app; right; apply list_elem_of_here|]. }
  assert (∀ path, leaves_at path (having (pre ++ c' :: l) root) =
    match path with
    | u :: path' => if decide (u = h_topic c) then leaves_at path' c' else leaves_at path (having (pre ++ c :: l) root)
    | [] => h_subs root end) as Hls.
  { intros path. pose proof (leaves_at_set_child (having (pre ++ c :: l) root) (h_topic c) c' path) as Hs. cbn in Hs.
    rewrite set_child_middle in Hs by done. apply Hs; [by exists c|done]. }
  assert (∀ path, leaves_at path c' = kept w (leaves_at (h_topic c :: path) (having (pre ++ c :: l) root))) as Hcl.
  { intros path. rewrite leaves_at_cons. cbn. by rewrite Hc. }
  subst e l' root'. destruct (childless c') eqn:He.
  - pose proof (wf_nodup _ Hset) as Hn'. cbn in Hn'. pose proof (child_middle _ _ _ Hn') as Hc'. split.
    + pose proof (wf_forget_child _ (h_topic c') c' Hset Hc') as Hf. cbn in Hf.
      by rewrite del_child_middle in Hf by done.
    + intros [|u path]; [done|]. rewrite leaves_at_cons. cbn. rewrite <-(del_child_middle pre c') by done.
      rewrite child_del_child, Ht by done. case_decide as Hu.
      * subst. by rewrite <-Hcl, childless_leaves.
      * specialize (Hls (u :: path)). cbv beta iota in Hls. rewrite decide_False in Hls by done.
        rewrite <-Hls, leaves_at_cons. done.
  - split; [done|]. intros path. rewrite Hls. destruct path as [|u path]; [done|]. case_decide; [subst; apply Hcl|done].
Qed.

Lemma clean_children_spec clean w0 l : ∀ pre root w,
  w_ctxs w = w_ctxs w0 → wf_tree (having (pre ++ l) root) →
  Forall (λ c, ∀ w, w_ctxs w = w_ctxs w0 → wp (clean c) (λ c' w', quietly w w' ∧ cleaned w0 c c') w) l →
  wp (clean_children clean l root) (λ r w', quietly w w' ∧ wf_tree (having (pre ++ fst r) (snd r)) ∧
    h_topic (snd r) = h_topic root ∧ h_subs (snd r) = h_subs root ∧ (l = [] → fst r = []) ∧
    ∀ u path, leaves_at (u :: path) (having (pre ++ fst r) (snd r)) =
      if decide (u ∈ names l) then kept w0 (leaves_at (u :: path) (having (pre ++ l) root))
      else leaves_at (u :: path) (having (pre ++ l) root)) w.
Proof.
  induction l as [|c l IH]; intros pre root w Hw Hwf Hall; cbn [clean_children].
  { wp_steps. split; [apply quietly_refl|]. split_and!; [done..|]. intros u path.
    rewrite decide_False; [done|apply not_elem_of_nil]. }
  apply Forall_cons in Hall as [Hc Hall]. wp_steps. eapply wp_mono; [by apply Hc|].
  intros c' w1 [Hq1 Hcl]. pose proof (clean_child_step w0 root pre c c' l Hwf Hcl) as Hstep. cbv zeta in Hstep.
  pose proof Hcl as (_ & Ht & _). pose proof (wf_nodup _ Hwf) as Hn. cbn in Hn.
  assert (h_topic c ∉ names l) as Hnot.
  { unfold names in Hn |- *. rewrite map_app, NoDup_app in Hn. destruct Hn as (_ & _ & Hn). by apply NoDup_cons in Hn as [? _]. }
  assert (∀ u path X, (∀ path', X path' = if decide (path' = h_topic c) then kept w0 (leaves_at (path' :: path) (having (pre ++ c :: l) root)) else leaves_at (path' :: path) (having (pre ++ c :: l) root)) →
    (if decide (u ∈ names l) then kept w0 (X u) else X u) =
    if decide (u ∈ names (c :: l)) then kept w0 (leaves_at (u :: path) (having (pre ++ c :: l) root))
    else leaves_at (u :: path) (having (pre ++ c :: l) root)) as Hcomb.
  { intros u path X HX. rewrite names_cons, HX. destruct (decide (u = h_topic c)) as [->|Hne].
    - rewrite (decide_False (P := _ ∈ names l)) by done. by rewrite decide_True by apply list_elem_of_here.
    - apply decide_ext. rewrite elem_of_cons. naive_solver. }
  destruct (childless c'); destruct Hstep as [Hwf' Hl'].
  - eapply wp_mono; [apply (IH pre (forget_child (h_topic c') root) w1); [|done|done]|].
    + by rewrite (quietly_ctxs _ _ Hq1).
    + intros r w2 (Hq2 & Hwf2 & Ht2 & Hs2 & Hnil & Hl2). split_and!; [by eapply quietly_trans|done..|].
      intros u path. rewrite Hl2. apply (Hcomb u path (λ u, leaves_at (u :: path) _)). intros u'. by rewrite Hl'.
  - wp_steps. eapply wp_mono; [apply (IH (pre ++ [c']) root w1); [| |done]|].
    + by rewrite (quietly_ctxs _ _ Hq1).
    + by rewrite <-app_assoc.
    + intros [ks r'] w2 (Hq2 & Hwf2 & Ht2 & Hs2 & Hnil & Hl2). wp_steps. cbn [fst snd] in *. rewrite <-app_assoc in Hwf2, Hl2.
      split_and!; [by eapply quietly_trans|done..|]. intros u path. rewrite Hl2.
      rewrite <-app_assoc. apply (Hcomb u path (λ u, leaves_at (u :: path) _)). intros u'. by rewrite Hl'.
Qed.

Lemma leaves_at_child h c path : wf_tree h → c ∈ h_children h → leaves_at path c = leaves_at (h_topic c :: path) h.
Proof.
  intros Hwf Hin. apply list_elem_of_split in Hin as (l1 & l2 & E). pose proof (wf_nodup h Hwf) as Hn.
  rewrite leaves_at_cons, E. rewrite E in Hn. by rewrite child_middle.
Qed.

Lemma clean_session_full_topic_spec h : ∀ fulltopic depth w, wf_tree h → live w h →
  wp (_subs_clean_session_full_topic h fulltopic depth) (λ h' w', quietly w w' ∧ cleaned w h h') w.
Proof.
  induction h as [h IH] using subhier_tree_ind. intros fulltopic depth w Hwf Hlive.
  assert (h = having ([] ++ h_children h) h) as Hself by (by destruct h).
  destruct h as [topic subs retained children hash pound plus] eqn:Eh. cbn [_subs_clean_session_full_topic].
  rewrite <-Eh in *. wp_steps. eapply wp_mono; [apply clean_leaves_spec; cbn [app]; exact (Hlive [])|].
  intros subs' w1 [Hq1 ->]. cbn [app]. wp_steps.
  pose proof (quietly_ctxs _ _ Hq1) as Hc1.
  eapply wp_mono; [apply (clean_children_spec _ w (h_children h) [] h w1 Hc1)|].
  - by rewrite <-Hself.
  - apply Forall_forall. intros c Hin w2 Hc2. rewrite Forall_forall in IH.
    eapply wp_mono; [apply (IH c Hin)|].
    + by apply (proj1 (Forall_forall _ _) (wf_children h Hwf)).
    + eapply live_ctxs; [exact Hc2|]. intros path. rewrite (leaves_at_child h) by done. apply Hlive.
    + intros c' w3 [Hq3 (?&?&?&Hl)]. split; [done|]. split_and!; [done..|]. intros path.
      rewrite Hl. by apply kept_ctxs.
  - intros [ks r] w2 (Hq2 & Hwf2 & Ht & Hs & Hnil & Hl). wp_steps. cbn [fst snd app] in *.
    split; [by eapply quietly_trans|]. split_and!.
    + destruct Hwf2. by split.
    + done.
    + intros Hn. by apply Hnil.
    + intros [|u path]; [done|]. rewrite !leaves_at_cons. specialize (Hl u path). rewrite !leaves_at_cons in Hl.
      cbn in Hl |- *. rewrite Hl. case_decide as Hu; [done|]. apply child_None in Hu. rewrite Hu. done.
Qed.

Lemma clean_roots_spec l w : Forall wf_tree l → Forall (live w) l →
  wp (clean_roots l) (λ l' w', quietly w w' ∧ Forall2 (cleaned w) l l') w.
Proof.
  revert w. induction l as [|c l IH]; intros w Hwf Hlive; cbn [clean_roots].
  { wp_steps. split; [apply quietly_refl|constructor]. }
  apply Forall_cons in Hwf as [Hc Hwf]. apply Forall_cons in Hlive as [Hlc Hlive]. wp_steps.
  eapply wp_mono; [by apply clean_session_full_topic_spec|]. intros c' w1 [Hq1 Hcl]. wp_steps.
  pose proof (quietly_ctxs _ _ Hq1) as Hc1. eapply wp_mono; [apply IH; [done|]|].
  { eapply Forall_impl; [done|]. intros h. by apply live_ctxs. }
  intros l' w2 [Hq2 Hl']. wp_steps. split; [by eapply quietly_trans|]. constructor; [done|].
  eapply Forall2_impl; [done|]. intros h h' (?&?&?&Hl). split_and!; [done..|]. intros path. rewrite Hl. by apply kept_ctxs.
Qed.

Lemma cleaned_names w l l' : Forall2 (cleaned w) l l' → names l' = names l.
Proof. induction 1 as [|c c' l l' (_ & Ht & _) _ IH]; [done|]. by rewrite !names_cons, Ht, IH. Qed.
Lemma cleaned_child w l l' t : Forall2 (cleaned w) l l' →
  match child t l, child t l' with
  | Some c, Some c' => cleaned w c c'
  | None, None => True
  | _, _ => False
  end.
Proof.
  induction 1 as [|c c' l l' Hc _ IH]; [done|]. pose proof Hc as (_ & Ht & _).
  rewrite !child_cons, Ht. by case_decide.
Qed.

(** The whole tree after the roots were cleaned. *)
Lemma wf_cleaned_root w h l : wf_tree h → Forall2 (cleaned w) (h_children h) l →
  wf_tree (having l h) ∧ ∀ u path, leaves_at (u :: path) (having l h) = kept w (leaves_at (u :: path) h).
Proof.
  intros [Hn Hh Hhn Hp Hq Hl Hr Hw] Hall. pose proof (cleaned_names _ _ _ Hall) as Hnames. split.
  - split; cbn; rewrite ?Hnames; try done.
    + clear -Hl Hall. induction Hall as [|c c' l1 l2 (_ & Ht & Hch & _) _ IH]; [constructor|].
      apply Forall_cons in Hl as [Hc Hl]. constructor; [|by apply IH]. intros E. apply Hch, Hc. congruence.
    + clear -Hall. induction Hall as [|c c' l1 l2 (Hwc & _) _ IH]; by constructor.
  - intros u path. rewrite !leaves_at_cons. cbn. pose proof (cleaned_child _ _ _ u Hall) as Hc.
    destruct (child u (h_children h)), (child u l); try done. by destruct Hc as (_ & _ & _ & Hl').
Qed.

Lemma subs_clean_session_spec w : tree_ok w →
  wp mqtt3_subs_clean_session (λ rc w', rc = MOSQ_ERR_SUCCESS ∧ wf_tree (w_subs w') ∧
    (∃ n e h, w' = w <| w_subscription_count := n |> <| w_env := e |> <| w_subs := h |>) ∧
    leaves_at [] (w_subs w') = leaves_at [] (w_subs w) ∧
    ∀ u path, leaves_at (u :: path) (w_subs w') = kept w (leaves_at (u :: path) (w_subs w))) w.
Proof.
  intros [Hwf Hlive]. unfold mqtt3_subs_clean_session. wp_steps.
  eapply wp_mono; [apply clean_roots_spec; [apply (wf_children _ Hwf)|]|].
  { apply Forall_forall. intros c Hin path. rewrite (leaves_at_child (w_subs w)) by done. apply Hlive. }
  intros l w1 [Hq Hall]. wp_steps. destruct (wf_cleaned_root w (w_subs w) l Hwf Hall) as [Hwf' Hl'].
  rewrite (set_subs_eq w1 _ (w_subs w)) by (by apply quietly_subs).
  split_and!; [done|done| |done|done].
  destruct Hq as (n & e & ->). by eexists n, e, _.
Qed.
End clean.
