(* ===== verification/SubsClaims.v ===== *)
(** * The subscription tree as a map

    What [src/subs.c] promises its callers, in terms of the map from topic
    filters to their subscribers: subscribing, unsubscribing and ending
    sessions change exactly the entries they should, keep the tree
    well-formed, and tell the broker library what it needs to know. *)

From S2P Require Import Prelude Topic State Packet Database Subs SubsProofs SubscribeProofs UnsubscribeProofs.

From stdpp Require Import options.

Lemma pos_check_valid sub : _mosquitto_topic_wildcard_pos_check sub = MOSQ_ERR_SUCCESS → valid_levels (levels sub) = true.
Proof. intros [Hv _]%wildcard_pos_loop_spec. by rewrite <-valid_suffix_start. Qed.

Section claims.
Context `{Env}.

(** Every subscription has a QoS of the protocol. *)
Definition granted_ok (w : world) : Prop := ∀ path, Forall (λ leaf, 0 <= l_qos leaf <= 2) (leaves_at path (w_subs w)).

Lemma same_ids_live w w' h : (∀ q, client_id w' q = client_id w q) → live w h → live w' h.
Proof. intros Hid Hl path. eapply Forall_impl; [apply Hl|]. intros leaf. unfold leaf_live. by rewrite Hid. Qed.

Lemma client_id_insert w w' p c c' : w_ctxs w !! p = Some c → w_ctxs w' = <[p := c']> (w_ctxs w) → c_id c' = c_id c →
  ∀ q, client_id w' q = client_id w q.
Proof.
  intros Hc Hw Hid q. unfold client_id. rewrite Hw. destruct (decide (q = p)) as [->|].
  - by rewrite lookup_insert_eq, Hc.
  - by rewrite lookup_insert_ne.
Qed.

Lemma put_leaf_Forall (P : subleaf → Prop) w id p qos leaves :
  Forall P leaves → (∀ q, P (mk_subleaf q qos) ∨ ¬ (q = p ∨ client_id w q = Some id)) → Forall P (put_leaf w id p qos leaves).
Proof.
  intros Hl Hp. induction Hl as [|leaf leaves Hleaf Hl IH]; cbn [put_leaf].
  - repeat constructor. destruct (Hp p) as [?|Hn]; [done|]. exfalso. by apply Hn; left.
  - case_bool_decide as Hid; constructor; try done. destruct (Hp (l_context leaf)) as [?|Hn]; [done|]. exfalso. by apply Hn; right.
Qed.

Lemma subscribed_ids p qos id c sub w rc w' : w_ctxs w !! p = Some c → subscribed p qos id c sub w rc w' →
  ∀ q, client_id w' q = client_id w q.
Proof.
  intros Hc [_ [(_ & _ & _ & h & e & ->)|(_ & _ & h & e & _ & ->)]]; [done|]. cbv zeta.
  destruct (has_leaf w id _); [done|]. by eapply (client_id_insert w _ p c).
Qed.

(** A subscription leaves a tree in which every subscriber is alive. *)
Lemma subscribed_tree_ok p qos id c sub w rc w' : w_ctxs w !! p = Some c → c_id c = Some id → tree_ok w →
  subscribed p qos id c sub w rc w' → tree_ok w'.
Proof.
  intros Hc Hid [_ Hlive] Hs. pose proof (subscribed_ids _ _ _ _ _ _ _ _ Hc Hs) as Hids. destruct Hs as [Hwf Hr].
  split; [done|]. apply (same_ids_live w); [done|]. intros path.
  destruct Hr as [(_ & _ & Hl & _)|(_ & Hl & _)]; rewrite Hl; [apply Hlive|].
  case_decide; [|apply Hlive]. apply put_leaf_Forall; [apply Hlive|]. intros q.
  destruct (client_id w q) as [i|] eqn:Hq; [left; by exists i|]. right. intros [->|?]; [|done].
  unfold client_id in Hq. by rewrite Hc in Hq; cbn in Hq; simplify_eq.
Qed.

Lemma subscribed_granted p qos id c sub w rc w' : 0 <= qos <= 2 → granted_ok w →
  subscribed p qos id c sub w rc w' → granted_ok w'.
Proof.
  intros Hq Hg [_ [(_ & _ & Hl & _)|(_ & Hl & _)]] path; rewrite Hl; [apply Hg|].
  case_decide; [|apply Hg]. apply put_leaf_Forall; [apply Hg|]. by left.
Qed.

(** C23: subscribing. With a valid filter, [mqtt3_sub_add] returns, keeps the
    tree well-formed with live subscribers, and on success the filter has one
    subscription of the client with the QoS asked for (an earlier one of the
    same client identifier is updated), every other filter being as before;
    it fails only where the tenant limit of the broker library applies, and
    then changes no filter. *)
Theorem sub_add_subscribes p sub qos w c id :
  tree_ok w → _mosquitto_topic_wildcard_pos_check sub = MOSQ_ERR_SUCCESS →
  w_ctxs w !! p = Some c → c_id c = Some id →
  wp (mqtt3_sub_add p sub qos) (λ rc w', tree_ok w' ∧
    (rc = MOSQ_ERR_SUCCESS ∨ rc = 1 ∧ ¬ quiet w c) ∧
    ∀ sub', subscribers w' sub' =
      if decide (rc = MOSQ_ERR_SUCCESS ∧ sub' = sub) then put_leaf w id p qos (subscribers w sub)
      else subscribers w sub') w.
Proof.
  intros Hok Hval%pos_check_valid Hc Hid. eapply wp_mono; [by eapply sub_add_spec|]. intros rc w' Hs.
  split; [by eapply subscribed_tree_ok|]. destruct Hs as [_ [(-> & Hq & Hl & _)|(-> & Hl & _)]].
  - split; [by right|]. intros sub'. rewrite decide_False by (by intros []). apply Hl.
  - split; [by left|]. intros sub'. unfold subscribers. rewrite Hl. repeat case_decide; try done.
    + exfalso. match goal with Hn : ¬ _ |- _ => apply Hn end. split; [done|by apply filter_path_inj].
    + exfalso. match goal with Hn : _ ∧ sub' = sub |- _ => destruct Hn as [_ ->] end. done.
Qed.

(** The broker library hears of a filter when it must. For a client no
    tenant limit applies to and a filter of fewer than 1024 characters that
    does not start with a dollar sign, [mqtt3_sub_add] succeeds, announces the
    filter under its own name exactly when a client that is not a bridge
    subscribes and no such client was subscribed before, and counts the
    subscription exactly when it is new. *)
Theorem sub_add_announces p sub qos w c id :
  tree_ok w → _mosquitto_topic_wildcard_pos_check sub = MOSQ_ERR_SUCCESS →
  char0 sub ≠ Some dollar → strlen sub < 1024 →
  w_ctxs w !! p = Some c → c_id c = Some id → quiet w c →
  wp (mqtt3_sub_add p sub qos) (λ rc w', rc = MOSQ_ERR_SUCCESS ∧
    let new := negb (has_leaf w id (subscribers w sub)) in
    w_env w' = (if new && announced w c (subscribers w sub)
                then dxl_on_topic_added_to_broker sub (w_env w) else w_env w) ∧
    w_subscription_count w' = w_subscription_count w + b2z new) w.
Proof.
  intros Hok Hval%pos_check_valid Hd Hlen Hc Hid Hquiet. eapply wp_mono; [by eapply sub_add_spec|].
  intros rc w' [_ [(_ & Hn & _)|(-> & _ & h & e & He & ->)]]; [done|]. split; [done|]. cbv zeta.
  rewrite (He Hquiet). assert (default "" (head (_sub_topic_tokenise sub)) = "") as ->.
  { by rewrite tokenise_spec, bool_decide_eq_false_2. }
  rewrite path_below_filter by done. destruct (has_leaf w id _); cbn; [split; [done|lia]|].
  by destruct (announced w c _).
Qed.

(** C24: unsubscribing. [mqtt3_sub_remove] returns success, keeps the tree
    well-formed with live subscribers, takes the client's subscription off the
    filter and leaves every other filter as it is; the broker library hears of
    it exactly when the last subscriber that is not a bridge went. *)
Theorem sub_remove_unsubscribes p sub w c :
  tree_ok w → w_ctxs w !! p = Some c →
  wp (mqtt3_sub_remove p sub) (λ rc w', rc = MOSQ_ERR_SUCCESS ∧ tree_ok w' ∧
    (∀ sub', subscribers w' sub' = if decide (sub' = sub) then without p (subscribers w sub) else subscribers w sub') ∧
    w_env w' = match drop_leaf p (subscribers w sub) with
               | Some rest => if announced w c rest then dxl_on_topic_removed_from_broker (reported sub) (w_env w)
                              else w_env w
               | None => w_env w
               end) w.
Proof.
  intros Hok Hc. eapply wp_mono; [by eapply sub_remove_spec|]. intros rc w' (-> & h & -> & Hwf & Hl).
  destruct Hok as [_ Hlive]. split; [done|]. split_and!.
  - split; [done|]. apply (same_ids_live w).
    { unfold remove_effect. destruct (drop_leaf p _); [|done]. by eapply (client_id_insert w _ p c). }
    intros path. cbn. rewrite Hl. case_decide; [|apply Hlive]. unfold without.
    destruct (drop_leaf p (subscribers w sub)) eqn:Hd; cbn; [by eapply drop_leaf_live; [|apply Hlive]|apply Hlive].
  - intros sub'. unfold subscribers in *. cbn. rewrite Hl. repeat case_decide; try done.
    + exfalso. eauto using filter_path_inj.
    + by subst.
  - unfold remove_effect, subscribers. by destruct (drop_leaf p _).
Qed.

Lemma clean_session_tree w : tree_ok w →
  wp mqtt3_subs_clean_session (λ rc w', rc = MOSQ_ERR_SUCCESS ∧ tree_ok w' ∧
    (∃ n e h, w' = w <| w_subscription_count := n |> <| w_env := e |> <| w_subs := h |>) ∧
    leaves_at [] (w_subs w') = leaves_at [] (w_subs w) ∧
    ∀ u path, leaves_at (u :: path) (w_subs w') = kept w (leaves_at (u :: path) (w_subs w))) w.
Proof.
  intros Hok. eapply wp_mono; [by apply subs_clean_session_spec|].
  intros rc w' (-> & Hwf & Hw & Hnil & Hl). destruct Hok as [_ Hlive]. split_and!; try done. split; [done|].
  apply (same_ids_live w); [by destruct Hw as (?&?&?&->)|]. intros [|u path]; [rewrite Hnil; apply Hlive|]. rewrite Hl.
  unfold kept. apply Forall_forall. intros leaf [_ Hin]%list_elem_of_filter. by eapply Forall_forall; [apply Hlive|].
Qed.

(** Ending sessions. One walk of [mqtt3_subs_clean_session] removes from
    every filter the subscriptions of exactly the clients that are marked
    [clean_subs], keeps the others in order, and leaves the tree well-formed
    with live subscribers. *)
Theorem clean_session_removes_marked w :
  tree_ok w →
  wp mqtt3_subs_clean_session (λ rc w', rc = MOSQ_ERR_SUCCESS ∧ tree_ok w' ∧ w_ctxs w' = w_ctxs w ∧
    ∀ sub, subscribers w' sub = kept w (subscribers w sub)) w.
Proof.
  intros Hok. eapply wp_mono; [by apply clean_session_tree|].
  intros rc w' (-> & Hok' & (n & e & h & Hw) & _ & Hl). split_and!; [done|done|by subst w'|]. intros sub. apply Hl.
Qed.

(** A client without a leaf gets exactly one, and it is taken off again. *)
Lemma put_then_drop w id p qos leaves : Forall (λ leaf, l_context leaf ≠ p) leaves → has_leaf w id leaves = false →
  drop_leaf p (put_leaf w id p qos leaves) = Some leaves.
Proof.
  intros Hp Hl. induction Hp as [|leaf leaves Hne Hp IH]; cbn; [by rewrite decide_True|].
  cbn [has_leaf existsb] in Hl. apply orb_false_iff in Hl as [-> Hl]. cbn. by rewrite decide_False, IH.
Qed.

(** No leaf of a client that is not subscribed. *)
Lemma has_leaf_other w id p c leaves : w_ctxs w !! p = Some c → c_id c = Some id → has_leaf w id leaves = false →
  Forall (λ leaf, l_context leaf ≠ p) leaves.
Proof.
  intros Hc Hid Hn. apply Forall_forall. intros leaf Hin Hp. unfold has_leaf in Hn.
  rewrite <-not_true_iff_false, existsb_exists in Hn. apply Hn. exists leaf. split; [by apply list_elem_of_In|].
  apply bool_decide_eq_true_2. unfold client_id. by rewrite Hp, Hc.
Qed.

(** Subscribing and unsubscribing is a round trip. A client that has no
    subscription to the filter and is under no tenant limit subscribes and
    unsubscribes: both calls succeed, every filter has the subscribers it had
    before, and the count of subscriptions is the same. *)
Theorem subscribe_unsubscribe_roundtrip p sub qos w c id :
  tree_ok w → _mosquitto_topic_wildcard_pos_check sub = MOSQ_ERR_SUCCESS →
  w_ctxs w !! p = Some c → c_id c = Some id → quiet w c →
  has_leaf w id (subscribers w sub) = false →
  wp (rc ← mqtt3_sub_add p sub qos; rc' ← mqtt3_sub_remove p sub; mret (rc, rc')) (λ r w',
    r = (MOSQ_ERR_SUCCESS, MOSQ_ERR_SUCCESS) ∧ tree_ok w' ∧
    (∀ sub', subscribers w' sub' = subscribers w sub') ∧ w_subscription_count w' = w_subscription_count w) w.
Proof.
  intros Hok Hval%pos_check_valid Hc Hid Hquiet Hnew.
  pose proof (has_leaf_other _ _ _ _ _ Hc Hid Hnew) as Hp.
  wp_step. eapply wp_mono; [by eapply sub_add_spec|]. intros rc w1 Hs.
  pose proof (subscribed_tree_ok _ _ _ _ _ _ _ _ Hc Hid Hok Hs) as Hok1.
  destruct Hs as [_ [(_ & Hn & _)|(-> & Hl & h & e & _ & Hw1)]]; [done|]. cbv zeta in Hw1. rewrite Hnew in Hw1.
  assert (subscribers w1 sub = put_leaf w id p qos (subscribers w sub)) as Hs1.
  { unfold subscribers. by rewrite Hl, decide_True. }
  wp_step. set (c1 := c <| c_subscription_count ::= λ n, n + 1 |>).
  assert (w_ctxs w1 !! p = Some c1) as Hc1 by (subst w1; apply lookup_insert_eq).
  eapply wp_mono; [by eapply (sub_remove_spec p sub w1 c1)|]. intros rc w2 (-> & h2 & Hw2 & Hwf2 & Hl2). wp_step.
  split; [done|]. pose proof (put_then_drop w id p qos _ Hp Hnew) as Hdrop. rewrite <-Hs1 in Hdrop.
  assert (∀ path, leaves_at path h2 = leaves_at path (w_subs w)) as Hsame.
  { intros path. rewrite Hl2. unfold without. rewrite Hdrop. case_decide; [by subst|]. by rewrite Hl, decide_False. }
  unfold remove_effect in Hw2. rewrite Hdrop in Hw2. subst w2. split_and!.
  - split; [done|]. apply (same_ids_live w); [|intros path; cbn; rewrite Hsame; apply Hok].
    intros q. unfold client_id. subst w1. cbn. rewrite insert_insert_eq.
    destruct (decide (q = p)) as [->|]; [by rewrite lookup_insert_eq, Hc|by rewrite lookup_insert_ne].
  - intros sub'. unfold subscribers. apply Hsame.
  - subst w1. cbn. lia.
Qed.

(** topics that start with a dollar sign are reported under a wrong name.
    [_add_topic_to_path] puts the first token of such a filter down twice and
    leaves out the slash behind it, so that the broker library is told of
    ["$SYS$SYSa"] where the subscription is to ["$SYS/a"]. *)
Theorem dollar_topic_misreported : reported "$SYS/a" = "$SYS$SYSa".
Proof. by vm_compute. Qed.
End claims.
