(* ===== verification/PublishProofs.v ===== *)
(** * Publishing

    [mqtt3_db_messages_queue] hands a message to exactly the subscribers whose
    filters match its topic, each once, and the queues it changes stay
    consistent. *)

From S2P Require Import Prelude Topic State Packet PacketProofs Writer Database DatabaseProofs Subs.
From S2P Require Import SubsProofs SubscribeProofs UnsubscribeProofs SubsClaims.
From stdpp Require Import options.

Lemma levels_plain s : wildcard_free s = true → Forall (λ t, wildcard_free t = true) (levels s).
Proof.
  induction s as [|c s IH]; [by repeat constructor|]. rewrite wildcard_free_cons. intros Hw. cbn [levels].
  apply andb_true_iff in Hw as [Hc Hw]. specialize (IH Hw). destruct (Ascii.eqb c slash); [by constructor|].
  destruct (levels_nonempty s) as (l & ls & E). rewrite E in *.
  apply Forall_cons in IH as [Hl Hls]. constructor; [|done]. by rewrite wildcard_free_cons, Hc.
Qed.

Lemma tokens_plain topic : _mosquitto_topic_wildcard_len_check topic = MOSQ_ERR_SUCCESS →
  plain (_sub_topic_tokenise topic).
Proof.
  intros [Hw _]%wildcard_len_loop_spec. apply levels_plain in Hw. unfold plain. rewrite tokenise_spec.
  assert (Forall (λ t, t ≠ "+" ∧ t ≠ "#") (levels topic)) as Hp.
  { eapply Forall_impl; [done|]. intros t. apply wildcard_free_not_wildcard. }
  case_bool_decide; [done|]. by constructor.
Qed.

Section publish.
Context `{Env}.

(** What follows the search. *)
Definition finalize (stored : storeid) : ST world Z :=
  st ← store_get stored; ext_ (dxl_on_finalize_message (s_db_id st));; mret 0.

Lemma queue_search source_id topic qos stored w :
  tree_ok w → _mosquitto_topic_wildcard_len_check topic = MOSQ_ERR_SUCCESS →
  ∃ paths,
    mqtt3_db_messages_queue source_id topic qos false stored w =
      (deliver source_id qos false stored (leaves_of (w_subs w) paths);; finalize stored) w ∧
    NoDup paths ∧
    ∀ sub, subscribers w sub ≠ [] → filter_path sub ∈ paths ↔ topic_match sub topic.
Proof.
  intros [Hwf Hlive] Hplain. apply tokens_plain in Hplain. unfold mqtt3_db_messages_queue. cbv zeta.
  destruct (tokenise_cons topic) as (t & ts & Htok). rewrite Htok in Hplain |- *.
  change (default "" (head (t :: ts))) with t. unfold gets, mbind, st_bind. rewrite wf_find_child by done.
  destruct (child t (h_children (w_subs w))) as [s|] eqn:Hs.
  - destruct (wf_child _ _ _ Hwf Hs) as [Hws Hts]. exists (map (cons t) (search_paths s (t :: ts))).
    rewrite (leaves_of_below _ _ _ _ Hs). split_and!.
    + unfold mret, st_ret. by rewrite sub_search_deliver.
    + apply NoDup_fmap_2; [by intros ?? [=]|]. by apply search_paths_NoDup.
    + intros sub Hne. unfold subscribers, filter_path in *.
      destruct (tokenise_cons sub) as (u & us & Hu). rewrite Hu in *.
      change (default "" (head (u :: us))) with u in *. rewrite <-level_match_tokens, Htok, Hu, list_elem_of_fmap. split.
      * intros (path & [= -> <-] & Hin). by apply search_paths_spec in Hin as [_ ?].
      * intros Hm. assert (u = t) as ->.
        { destruct (first_token_plain _ _ _ Hu). inversion Hm; by subst. }
        eexists. split; [done|]. apply search_paths_spec; [done..|]. split; [|done].
        rewrite leaves_at_cons, Hs in Hne. unfold leaves_at in Hne. by destruct (node_at (t :: us) s).
  - exists []. split_and!; [|constructor|].
    + unfold leaves_of. cbn. by rewrite deliver_nil.
    + intros sub Hne. split; [by intros ?%not_elem_of_nil|]. intros Hm. exfalso. apply Hne.
      unfold subscribers, filter_path. destruct (tokenise_cons sub) as (u & us & Hu). rewrite Hu.
      change (default "" (head (u :: us))) with u. apply level_match_tokens in Hm. rewrite Htok, Hu in Hm.
      destruct (first_token_plain _ _ _ Hu). rewrite leaves_at_cons. by inversion Hm; subst; rewrite ?Hs.
Qed.

(** ** The queues after a publication *)

(** The number of leaves of [q]. *)
Definition leaves_for (q : ctxid) (leaves : list subleaf) : nat :=
  length (filter (λ leaf, l_context leaf = q) leaves).

(** An entry of the published message. *)
Definition entry_of (stored : storeid) (m : client_msg) : Prop :=
  m_store m = stored ∧ m_direction m = mosq_md_out ∧ 0 <= m_qos m <= 2 ∧ m_state m ≠ mosq_ms_invalid.

(** Every client got at most [n q] entries of the message, at the end of its queue. *)
Definition grown (stored : storeid) (n : ctxid → nat) (w w' : world) : Prop :=
  db_ok w' ∧ same_rest w w' ∧ same_stores w w' ∧
  ∀ q, match w_ctxs w !! q, w_ctxs w' !! q with
       | Some c, Some c' => ∃ extra, queued_after c extra c' ∧ Forall (entry_of stored) extra ∧ (length extra <= n q)%nat
       | None, None => True
       | _, _ => False
       end.

Lemma grown_refl stored w : db_ok w → grown stored (λ _, 0%nat) w w.
Proof.
  intros Hok. split_and!; [done|apply same_rest_refl|done|]. intros q. destruct (w_ctxs w !! q) as [c|]; [|done].
  exists []. split_and!; [apply queued_after_refl|constructor|done].
Qed.
Lemma grown_trans stored n1 n2 w1 w2 w3 : grown stored n1 w1 w2 → grown stored n2 w2 w3 →
  grown stored (λ q, n1 q + n2 q)%nat w1 w3.
Proof.
  intros (_ & Hr1 & Hs1 & Hq1) (Hok & Hr2 & Hs2 & Hq2).
  split_and!; [done|by eapply same_rest_trans|by eapply same_stores_trans|].
  intros q. specialize (Hq1 q). specialize (Hq2 q).
  destruct (w_ctxs w1 !! q), (w_ctxs w2 !! q), (w_ctxs w3 !! q); try done.
  destruct Hq1 as (l1 & H1 & F1 & L1), Hq2 as (l2 & H2 & F2 & L2). exists (l1 ++ l2).
  split_and!; [by eapply queued_after_trans|by apply Forall_app|rewrite length_app; lia].
Qed.
Lemma grown_mono stored n1 n2 w w' : (∀ q, (n1 q <= n2 q)%nat) → grown stored n1 w w' → grown stored n2 w w'.
Proof.
  intros Hn (?&?&?&Hq). split_and!; [done..|]. intros q. specialize (Hq q). specialize (Hn q).
  destruct (w_ctxs w !! q), (w_ctxs w' !! q); try done. destruct Hq as (l & ?&?&?). exists l. split_and!; [done..|lia].
Qed.

(** One client is served. *)
Lemma grown_insert stored p P w c w' n : w_ctxs w !! p = Some c → insert_post p P w c w' n →
  (∀ m, P m → entry_of stored m) → grown stored (λ q, if decide (q = p) then n else 0%nat) w w'.
Proof.
  intros Hc (Hok & Hr & Hs & extra & c' & Hw & Hq & HF & Hl & _) HP. split_and!; [done..|]. intros q. rewrite Hw.
  destruct (decide (q = p)) as [->|Hne].
  - rewrite Hc, lookup_insert_eq. exists extra. split_and!; [done|by eapply Forall_impl|lia].
  - rewrite lookup_insert_ne by done. destruct (w_ctxs w !! q) as [d|]; [|done].
    exists []. split_and!; [apply queued_after_refl|constructor|done].
Qed.

(** A new message id for the client. *)
Lemma grown_mid stored p c f w : db_ok w → w_ctxs w !! p = Some c →
  let c' := c <| c_last_mid := f |> in
  grown stored (λ _, 0%nat) w (w <| w_ctxs ::= <[p := c']> |>).
Proof.
  intros Hok Hc c'. split_and!.
  - by eapply (db_ok_same w _ p c c').
  - exists (<[p := c']> (w_ctxs w)), (w_stores w), (w_new_msgs_hash w), (w_env w). by destruct w.
  - done.
  - intros q. cbn. destruct (decide (q = p)) as [->|Hne].
    + rewrite Hc, lookup_insert_eq. exists []. split_and!; [|constructor|done].
      unfold queued_after; cbn. by rewrite app_nil_r.
    + rewrite lookup_insert_ne by done. destruct (w_ctxs w !! q) as [d|]; [|done].
      exists []. split_and!; [apply queued_after_refl|constructor|done].
Qed.

Lemma grown_live stored n w w' leaf : grown stored n w w' → leaf_live w leaf → leaf_live w' leaf.
Proof.
  intros (_ & _ & _ & Hq) [id Hid]. unfold leaf_live, client_id in *. specialize (Hq (l_context leaf)).
  destruct (w_ctxs w !! l_context leaf) as [c|]; [|done]. destruct (w_ctxs w' !! l_context leaf) as [c'|]; [|done].
  destruct Hq as (extra & (_ & _ & _ & Hid' & _) & _). exists id. cbn in *. congruence.
Qed.

Lemma leaf_qos_range upgrade qos cq : 0 <= qos <= 2 → 0 <= cq <= 2 → 0 <= leaf_qos upgrade qos cq <= 2.
Proof. intros. unfold leaf_qos. destruct upgrade; [done|]. destruct (Z.ltb_spec cq qos); lia. Qed.

Lemma process_leaf_spec source_id qos retain stored leaf w :
  db_ok w → is_Some (w_stores w !! stored) → leaf_live w leaf → 0 <= qos <= 2 → 0 <= l_qos leaf <= 2 →
  wp (process_leaf source_id qos retain stored leaf)
    (λ _ w', grown stored (λ q, if decide (q = l_context leaf) then 1%nat else 0%nat) w w') w.
Proof.
  intros Hok [s Hs] Hl Hq Hlq. destruct (leaf_live_ctx _ _ Hl) as (c & id & Hc & Hid & _).
  unfold process_leaf. wp_steps. eapply wp_ctx_get; [done|]. wp_steps.
  eapply (wp_mono _ (λ _ w1, w1 = w)).
  { destruct (c_is_bridge c); wp_steps; [|done]. eapply wp_deref; [done|]. by wp_steps. }
  intros same w1 ->. destruct same; wp_steps.
  { eapply grown_mono; [|by apply grown_refl]. intros q. case_decide; lia. }
  pose proof (leaf_qos_range (cfg_upgrade_outgoing_qos (w_config w)) qos (l_qos leaf) Hq Hlq) as Hr.
  set (mq := leaf_qos _ _ _) in *. clearbody mq.
  eapply (wp_mono _ (λ _ w1, grown stored (λ _, 0%nat) w w1)).
  { destruct (mq =? 0); wp_steps; [by apply grown_refl|]. unfold _mosquitto_mid_generate. wp_steps.
    eapply wp_ctx_upd; [done|]. wp_steps. eapply wp_ctx_get; [apply lookup_insert_eq|]. wp_steps.
    by apply (grown_mid stored (l_context leaf) c (mid_next (c_last_mid c))). }
  intros mid w1 Hg1. pose proof Hg1 as (Hok1 & _ & Hs1 & Hq1). specialize (Hq1 (l_context leaf)). rewrite Hc in Hq1.
  destruct (w_ctxs w1 !! l_context leaf) as [c1|] eqn:Hc1; [|done].
  destruct (same_stores_lookup _ _ _ _ Hs1 Hs) as (s1 & Hs1' & _). wp_steps.
  eapply wp_mono; [by eapply message_insert_spec|]. intros rc w2 (n & Hp & Hn & _). wp_steps.
  eapply grown_mono; [|eapply grown_trans; [exact Hg1|eapply grown_insert; [done|exact Hp|]]].
  - intros q. cbv beta. repeat case_decide; (congruence || lia).
  - intros m (?&?&?&?&?&?&?). split_and!; (done || lia).
Qed.

Lemma deliver_spec source_id qos retain stored leaves w :
  db_ok w → is_Some (w_stores w !! stored) → 0 <= qos <= 2 →
  Forall (leaf_live w) leaves → Forall (λ leaf, 0 <= l_qos leaf <= 2) leaves →
  wp (deliver source_id qos retain stored leaves) (λ _ w', grown stored (λ q, leaves_for q leaves) w w') w.
Proof.
  intros Hok Hs Hq Hl Hlq. unfold deliver. wp_steps.
  assert (∀ id rc, wp (process_loop id qos retain stored leaves rc) (λ _ w', grown stored (λ q, leaves_for q leaves) w w') w) as Hloop.
  { intros id. revert w Hok Hs Hl. induction leaves as [|leaf leaves IH]; intros w Hok Hs Hl rc; cbn [process_loop].
    - wp_steps. by apply grown_refl.
    - apply Forall_cons in Hl as [Hleaf Hl]. apply Forall_cons in Hlq as [Hlf Hlq]. wp_steps.
      eapply wp_mono; [by apply process_leaf_spec|]. intros r w1 Hg. pose proof Hg as (Hok1 & _ & Hs1 & _).
      eapply wp_mono; [apply IH; [done|done| |]|].
      + destruct Hs as [s Hs]. destruct (same_stores_lookup _ _ _ _ Hs1 Hs) as (s1 & ? & _). by eexists.
      + eapply Forall_impl; [exact Hl|]. intros x Hx. exact (grown_live _ _ _ _ _ Hg Hx).
      + intros rc' w2 Hg2. eapply grown_mono; [|exact (grown_trans _ _ _ _ _ _ Hg Hg2)]. intros q. unfold leaves_for.
        rewrite filter_cons. repeat case_decide; cbn; (congruence || lia). }
  destruct source_id as [id|]; wp_steps.
  - eapply wp_mono; [apply Hloop|]. intros rc w' Hg. by wp_steps.
  - eapply grown_mono; [|by apply grown_refl]. intros q. cbv beta. lia.
Qed.

(** The number of subscriptions of [q] among the leaves of [paths]. *)
Definition due (w : world) (paths : list (list string)) (q : ctxid) : nat := leaves_for q (leaves_of (w_subs w) paths).

Lemma leaves_of_Forall (P : subleaf → Prop) h paths : (∀ path, Forall P (leaves_at path h)) → Forall P (leaves_of h paths).
Proof. intros HP. unfold leaves_of. apply Forall_concat, Forall_fmap, Forall_true. intros path. apply HP. Qed.

Lemma finalize_grown stored n w w1 : is_Some (w_stores w !! stored) → grown stored n w w1 →
  wp (finalize stored) (λ rc w', rc = 0 ∧ grown stored n w w') w1.
Proof.
  intros [s Hs] (Hok1 & Hr1 & Hs1 & Hq1). destruct (same_stores_lookup _ _ _ _ Hs1 Hs) as (s1 & Hs1' & _).
  unfold finalize. wp_step. eapply wp_store_get; [done|]. wp_step. apply wp_ext_. wp_steps. split; [done|].
  split_and!; [by destruct Hok1; split| |done|done]. eapply same_rest_trans; [exact Hr1|].
  by exists (w_ctxs w1), (w_stores w1), (w_new_msgs_hash w1), (dxl_on_finalize_message (s_db_id s1) (w_env w1)); destruct w1.
Qed.

(** Publishing as a whole: the filters that are served and what it does to the queues. *)
Lemma messages_queue_spec source_id topic qos stored w :
  db_ok w → tree_ok w → granted_ok w → _mosquitto_topic_wildcard_len_check topic = MOSQ_ERR_SUCCESS →
  is_Some (w_stores w !! stored) → 0 <= qos <= 2 →
  ∃ paths, NoDup paths ∧ (∀ sub, subscribers w sub ≠ [] → filter_path sub ∈ paths ↔ topic_match sub topic) ∧
    wp (mqtt3_db_messages_queue source_id topic qos false stored) (λ rc w', rc = 0 ∧ grown stored (due w paths) w w') w.
Proof.
  intros Hok Htree Hg Htopic Hs Hq. destruct (queue_search source_id topic qos stored w Htree Htopic) as (paths & Heq & Hnd & Hm).
  exists paths. split_and!; [done|done|]. unfold wp at 1. rewrite Heq.
  change (wp (deliver source_id qos false stored (leaves_of (w_subs w) paths);; finalize stored)
    (λ rc w', rc = 0 ∧ grown stored (due w paths) w w') w).
  wp_step. eapply wp_mono; [apply deliver_spec; try done|].
  - apply leaves_of_Forall, Htree.
  - apply leaves_of_Forall, Hg.
  - intros r1 w1 Hgr. by apply finalize_grown.
Qed.

(** C4: publishing reaches exactly the matching subscriptions, each once. For
    a topic name without wildcards and a well-formed tree,
    [mqtt3_db_messages_queue] is one pass over the leaves of a duplicate-free
    list of filters, followed by the notification of the broker library; and a
    filter that has subscribers is in the list exactly when it matches the
    topic by the MQTT rules. *)
Theorem publish_reaches_matching source_id topic qos stored w :
  tree_ok w → _mosquitto_topic_wildcard_len_check topic = MOSQ_ERR_SUCCESS →
  ∃ paths,
    mqtt3_db_messages_queue source_id topic qos false stored w =
      (deliver source_id qos false stored (leaves_of (w_subs w) paths);; finalize stored) w ∧
    NoDup paths ∧
    ∀ sub, subscribers w sub ≠ [] → filter_path sub ∈ paths ↔ topic_match sub topic.
Proof. apply queue_search. Qed.

(** Publishing keeps every queue consistent. [mqtt3_db_messages_queue]
    returns 0 whatever the broker library answers, without touching a dangling
    pointer.
    Each client gets at most one entry per matching leaf, at the end of its
    queue and referring to the published message; clients without a matching
    leaf are untouched; reference counts, counters and the store stay
    consistent. *)
Theorem publish_grows_queues source_id topic qos stored w :
  db_ok w → tree_ok w → granted_ok w → _mosquitto_topic_wildcard_len_check topic = MOSQ_ERR_SUCCESS →
  is_Some (w_stores w !! stored) → 0 <= qos <= 2 →
  ∃ paths, NoDup paths ∧ (∀ sub, subscribers w sub ≠ [] → filter_path sub ∈ paths ↔ topic_match sub topic) ∧
    wp (mqtt3_db_messages_queue source_id topic qos false stored) (λ rc w', rc = 0 ∧ grown stored (due w paths) w w') w.
Proof. apply messages_queue_spec. Qed.
End publish.
