(* ===== verification/FanoutProofs.v ===== *)
(** * Delivery of a published message

    A message published with QoS 0 reaches every connected client that has a
    matching subscription, once per subscription, when the broker library does
    not object and the client's output queue has room. *)

From S2P Require Import Prelude Topic State Packet PacketProofs Writer Database DatabaseProofs Subs.
From S2P Require Import SubsProofs SubscribeProofs UnsubscribeProofs SubsClaims PublishProofs.
From stdpp Require Import options.

Section fanout.
Context `{Env}.

(** The broker library lets every message pass. *)
Definition approving : Prop := ∀ c s e, (dxl_on_insert_message c s e).1.1.1 = true.

(** A client that can take the message: connected, with room in its output
    queue, and not the bridge it came from. *)
Definition ready (w : world) (source_id : string) (c : mosquitto) : Prop :=
  is_context_invalid c = false ∧ c_packet_count c < w_max_packet_buffer_size w ∧
  ¬ (c_is_bridge c = true ∧ c_id c = Some source_id).

(** Every ready client got [n q] entries of the message to publish. *)
Definition served_all (source_id : string) (stored : storeid) (n : ctxid → nat) (w w' : world) : Prop :=
  ∀ q c, w_ctxs w !! q = Some c → ready w source_id c →
    ∃ c' extra, w_ctxs w' !! q = Some c' ∧ queued_after c extra c' ∧ length extra = n q ∧
      Forall (λ m, m_store m = stored ∧ m_state m = mosq_ms_publish_qos0) extra.

Lemma ready_after w w' source_id c extra c' : same_rest w w' → queued_after c extra c' →
  ready w source_id c → ready w' source_id c'.
Proof.
  intros (?&?&?&?&->) (_ & Hs & Hw & Hid & _ & Hb & _ & Hp & _) (H1 & H2 & H3). unfold ready, is_context_invalid in *.
  cbn. by rewrite Hs, Hw, Hid, Hb, Hp.
Qed.

Lemma gets_trans source_id stored n1 n2 w1 w2 w3 : same_rest w1 w2 →
  served_all source_id stored n1 w1 w2 → served_all source_id stored n2 w2 w3 →
  served_all source_id stored (λ q, n1 q + n2 q)%nat w1 w3.
Proof.
  intros Hr H1 H2 q c Hc Hready. destruct (H1 q c Hc Hready) as (c2 & l1 & Hc2 & Hq1 & Hl1 & HF1).
  destruct (H2 q c2 Hc2) as (c3 & l2 & Hc3 & Hq2 & Hl2 & HF2); [by eapply ready_after|].
  exists c3, (l1 ++ l2). split_and!; [done|by eapply queued_after_trans|rewrite length_app; lia|by apply Forall_app].
Qed.
Lemma served_ext source_id stored n1 n2 w w' : (∀ q, n1 q = n2 q) →
  served_all source_id stored n1 w w' → served_all source_id stored n2 w w'.
Proof. intros Hn Hs q c Hc Hr. rewrite <-Hn. by apply Hs. Qed.

(** The state a message of QoS 0 is queued in. *)
Lemma insert_state_qos0 inflight queued c : is_context_invalid c = false →
  insert_state inflight queued c mosq_md_out 0 = inr (mosq_ms_publish_qos0, 0).
Proof. intros Hv. unfold insert_state. by rewrite Hv. Qed.

Lemma insert_qos0_ready p retain stored w c s source_id : approving → db_ok w → w_ctxs w !! p = Some c →
  w_stores w !! stored = Some s → ready w source_id c →
  wp (mqtt3_db_message_insert p 0 mosq_md_out 0 retain stored) (λ _ w', ∃ c' extra,
    w_ctxs w' !! p = Some c' ∧ queued_after c extra c' ∧ length extra = 1%nat ∧
      Forall (λ m, m_store m = stored ∧ m_state m = mosq_ms_publish_qos0) extra) w.
Proof.
  intros Happ Hok Hc Hs (Hv & Hroom & _). eapply wp_mono; [by eapply message_insert_spec|].
  intros rc w' (n & (_ & _ & _ & extra & c' & Hw & Hq & HF & Hl & _) & _ & Hyes).
  destruct (Hyes mosq_ms_publish_qos0 0) as (-> & _ & (_ & _ & _ & extra2 & c2 & Hw2 & Hq2 & HF2 & _)).
  - unfold insert_open. rewrite Hv. by apply Z.ltb_lt.
  - by apply insert_state_qos0.
  - apply Happ.
  - assert (c2 = c') as ->.
    { assert (Some c2 = Some c') as [= ->]; [|done]. rewrite <-(lookup_insert_eq (w_ctxs w) p c2), <-Hw2, Hw. apply lookup_insert_eq. }
    assert (extra2 = extra) as -> by (destruct Hq as [Hq _], Hq2 as [Hq2 _]; rewrite Hq in Hq2; by apply app_inv_head in Hq2).
    exists c', extra. split_and!; [rewrite Hw; apply lookup_insert_eq|done|done|].
    apply Forall_forall. intros m Hm. pose proof (proj1 (Forall_forall _ _) HF m Hm) as (? & _).
    split; [done|]. by apply (proj1 (Forall_forall _ _) HF2).
Qed.

Lemma process_leaf_served source_id retain stored leaf w : approving →
  db_ok w → is_Some (w_stores w !! stored) → leaf_live w leaf → 0 <= l_qos leaf <= 2 →
  cfg_upgrade_outgoing_qos (w_config w) = false →
  wp (process_leaf source_id 0 retain stored leaf)
    (λ _ w', served_all source_id stored (λ q, if decide (q = l_context leaf) then 1%nat else 0%nat) w w') w.
Proof.
  intros Happ Hok Hs Hl Hlq Hup. destruct (leaf_live_ctx _ _ Hl) as (c & id & Hc & Hid & _).
  assert (∀ r w' n, grown stored n w w' → n = (λ q, if decide (q = l_context leaf) then 1%nat else 0%nat) →
    (ready w source_id c → ∃ c' extra, w_ctxs w' !! l_context leaf = Some c' ∧ queued_after c extra c' ∧ length extra = 1%nat ∧
      Forall (λ m, m_store m = stored ∧ m_state m = mosq_ms_publish_qos0) extra) →
    (λ (_ : option Z) w', served_all source_id stored (λ q, if decide (q = l_context leaf) then 1%nat else 0%nat) w w') r w') as Hfin.
  { intros r w' n (_ & _ & _ & Hq) -> Hown q d Hd Hready. case_decide as Hql.
    - subst q. rewrite Hc in Hd. simplify_eq. by apply Hown.
    - specialize (Hq q). rewrite Hd in Hq. destruct (w_ctxs w' !! q) as [d'|]; [|done]. destruct Hq as (extra & Hqa & _ & Hlen).
      rewrite decide_False in Hlen by done. destruct extra; [|cbn in Hlen; lia]. exists d', []. by split_and!. }
  eapply wp_mono; [eapply wp_and; [by apply process_leaf_spec; [..|lia|]|]|].
  2:{ intros r w' [Hg Hown]. eapply (Hfin r w' _ Hg); [done|exact Hown]. }
  unfold process_leaf. wp_steps. eapply wp_ctx_get; [done|]. wp_steps.
  eapply (wp_mono _ (λ same w1, w1 = w ∧ (ready w source_id c → same = false))).
  { destruct (c_is_bridge c) eqn:Hb; wp_steps; [|done]. eapply wp_deref; [done|]. wp_steps. split; [done|].
    intros (_ & _ & Hn). apply String.eqb_neq. intros ->. by apply Hn. }
  intros same w1 [-> Hsame]. destruct same; wp_steps; [intros Hr; by specialize (Hsame Hr)|].
  cbv zeta. rewrite Hup. assert (leaf_qos false 0 (l_qos leaf) = 0) as ->.
  { unfold leaf_qos. destruct (Z.ltb_spec (l_qos leaf) 0); lia. }
  cbn [Z.eqb]. wp_steps. destruct Hs as [s Hs].
  assert (ready w source_id c ∨ ¬ ready w source_id c) as [Hr|Hr].
  { unfold ready. destruct (is_context_invalid c); [right; by intros []|].
    destruct (decide (c_packet_count c < w_max_packet_buffer_size w)); [|right; by intros (_ & ? & _)].
    destruct (decide (c_is_bridge c = true ∧ c_id c = Some source_id)); [right; by intros (_ & _ & ?)|by left]. }
  - eapply wp_mono; [by eapply insert_qos0_ready|]. intros rc w2 H2. wp_steps. intros _. exact H2.
  - eapply wp_mono; [eapply message_insert_spec; [done..|lia]|]. intros rc w2 _. by wp_steps.
Qed.

Lemma process_loop_served source_id retain stored leaves rc w : approving →
  db_ok w → is_Some (w_stores w !! stored) → cfg_upgrade_outgoing_qos (w_config w) = false →
  Forall (leaf_live w) leaves → Forall (λ leaf, 0 <= l_qos leaf <= 2) leaves →
  wp (process_loop source_id 0 retain stored leaves rc)
    (λ _ w', served_all source_id stored (λ q, leaves_for q leaves) w w') w.
Proof.
  intros Happ. revert w rc. induction leaves as [|leaf leaves IH]; intros w rc Hok Hs Hup Hl Hlq; cbn [process_loop].
  { wp_steps. intros q c Hc _. exists c, []. split_and!; [done|apply queued_after_refl|done|constructor]. }
  apply Forall_cons in Hl as [Hleaf Hl]. apply Forall_cons in Hlq as [Hlf Hlq]. wp_steps.
  eapply wp_mono; [eapply wp_and; [by apply process_leaf_served|by apply (process_leaf_spec source_id 0 retain stored leaf w); [..|lia|]]|].
  intros r w1 [Hsv Hg]. pose proof Hg as (Hok1 & Hr1 & Hs1 & _). eapply wp_mono; [apply IH; try done|].
  - destruct Hs as [s Hs]. destruct (same_stores_lookup _ _ _ _ Hs1 Hs) as (s1 & ? & _). by eexists.
  - by destruct Hr1 as (?&?&?&?&->).
  - eapply Forall_impl; [exact Hl|]. intros x Hx. exact (grown_live _ _ _ _ _ Hg Hx).
  - intros r2 w2 Hsv2. eapply served_ext; [|exact (gets_trans _ _ _ _ _ _ _ Hr1 Hsv Hsv2)]. intros q. cbv beta.
    unfold leaves_for. rewrite filter_cons. repeat case_decide; cbn; congruence.
Qed.

Lemma finalize_served source_id stored n w w' s : w_stores w' !! stored = Some s →
  served_all source_id stored n w w' → wp (finalize stored) (λ _ w2, served_all source_id stored n w w2) w'.
Proof.
  intros Hs Hsv. unfold finalize. wp_step. eapply wp_store_get; [done|]. wp_step. apply wp_ext_. wp_steps. exact Hsv.
Qed.

(** Publishing grows the queues that are due and serves whoever is ready, on one and the
    same list of filters. *)
Lemma queue_serves source_id topic stored w :
  db_ok w → tree_ok w → granted_ok w → _mosquitto_topic_wildcard_len_check topic = MOSQ_ERR_SUCCESS → is_Some (w_stores w !! stored) →
  ∃ paths, NoDup paths ∧ (∀ sub, subscribers w sub ≠ [] → filter_path sub ∈ paths ↔ topic_match sub topic) ∧
    wp (mqtt3_db_messages_queue source_id topic 0 false stored) (λ rc w', rc = 0 ∧ grown stored (due w paths) w w' ∧
      ∀ id, source_id = Some id → approving → cfg_upgrade_outgoing_qos (w_config w) = false → served_all id stored (due w paths) w w') w.
Proof.
  intros Hok Htree Hg Htopic Hs. destruct (queue_search source_id topic 0 stored w Htree Htopic) as (paths & Heq & Hnd & Hm).
  exists paths. split_and!; [done|done|]. unfold wp at 1. rewrite Heq.
  change (wp (deliver source_id 0 false stored (leaves_of (w_subs w) paths);; finalize stored)
    (λ rc w', rc = 0 ∧ grown stored (due w paths) w w' ∧ ∀ id, source_id = Some id → approving → cfg_upgrade_outgoing_qos (w_config w) = false → served_all id stored (due w paths) w w') w).
  assert (Forall (leaf_live w) (leaves_of (w_subs w) paths)) as Hl by apply leaves_of_Forall, Htree.
  assert (Forall (λ leaf, 0 <= l_qos leaf <= 2) (leaves_of (w_subs w) paths)) as Hlq by apply leaves_of_Forall, Hg.
  pose proof (deliver_spec source_id 0 false stored _ w Hok Hs ltac:(lia) Hl Hlq) as (r1 & w1 & Hrun & Hgr)%wp_Some. wp_step. eapply wp_run; [exact Hrun|].
  pose proof (finalize_grown _ _ _ _ Hs Hgr) as (rc & w2 & Hfin & Hrc & Hgr2)%wp_Some. eapply wp_run; [exact Hfin|]. split_and!; [done|done|]. intros id -> Happ Hup.
  assert (served_all id stored (due w paths) w w1) as Hsv.
  { pose proof (process_loop_served id false stored _ 0 w Happ Hok Hs Hup Hl Hlq) as (r & w1' & Hloop & Hsv)%wp_Some. unfold deliver, mbind, st_bind in Hrun. rewrite Hloop in Hrun. by injection Hrun as _ <-. }
  destruct Hgr as (_ & _ & Hs1 & _). destruct Hs as [s Hs]. destruct (same_stores_lookup _ _ _ _ Hs1 Hs) as (s1 & Hs' & _).
  pose proof (finalize_served id stored _ w w1 s1 Hs' Hsv) as Hwp. by apply (wp_inv _ _ _ _ _ Hwp Hfin).
Qed.

(** C5: a QoS 0 message reaches every subscriber that can take it. When the
    broker library approves, publishing from [source_id] on a topic appends
    to the queue of every connected client with room in its output buffer
    (other than the bridge the message came from) exactly one entry, ready to
    be sent, for each of the client's subscriptions whose filter matches. *)
Theorem publish_serves_subscribers source_id topic stored w :
  approving → db_ok w → tree_ok w → granted_ok w →
  cfg_upgrade_outgoing_qos (w_config w) = false →
  _mosquitto_topic_wildcard_len_check topic = MOSQ_ERR_SUCCESS → is_Some (w_stores w !! stored) →
  ∃ paths, NoDup paths ∧ (∀ sub, subscribers w sub ≠ [] → filter_path sub ∈ paths ↔ topic_match sub topic) ∧
    wp (mqtt3_db_messages_queue (Some source_id) topic 0 false stored)
      (λ _ w', served_all source_id stored (due w paths) w w') w.
Proof.
  intros Happ Hok Htree Hg Hup Htopic Hs. destruct (queue_serves (Some source_id) topic stored w) as (paths & Hnd & Hm & Hwp); [done..|].
  exists paths. split_and!; [done|done|]. eapply wp_mono; [exact Hwp|]. intros rc w' (_ & _ & Hsv). by apply Hsv.
Qed.
End fanout.
