(* ===== verification/Queue.v ===== *)
(** * Releasing and queueing

    The functions of [src/database.c] that publish: the release of a QoS 2
    message after PUBREL and the queueing of a message the broker makes. *)

From S2P Require Import Prelude Topic State Packet Database Subs.
From stdpp Require Import options.

(** The number of leaves of a tree. *)
Fixpoint tree_size (h : subhier) : nat :=
  (length (h_subs h) + sum_list_with tree_size (h_children h))%nat.

Section queue.
Context `{Env}.

(** The loop of [mqtt3_db_message_release] at entry [i]. Publishing may append
    to the very queue the loop walks over. *)
Fixpoint message_release_loop (fuel : nat) (p : ctxid) (mid : Z) (dir : msg_direction)
    (i : nat) (msg_index : Z) (deleted : bool) : ST world Z :=
  tail ← msg_get p i;
  match tail with
  | None => mret (if deleted then MOSQ_ERR_SUCCESS else 1)
  | Some m =>
    match fuel with
    | O => ub
    | S fuel' =>
      max_inflight ← gets w_max_inflight;
      let msg_index := msg_index + 1 in
      (if bool_decide (m_state m = mosq_ms_queued) && (msg_index <=? max_inflight) then
         b ← unqueue p i m;
         if (b : bool) then
           _mosquitto_send_pubrec p (m_mid m);;
           msg_upd p i (λ m, m <| m_state := mosq_ms_wait_for_pubrel |>)
         else mret tt
       else mret tt);;
      if (m_mid m =? mid) && bool_decide (m_direction m = dir) then
        s ← store_get (m_store m);
        rc ← (match msg_topic (s_msg s) with
              | None => mret 0
              | Some topic =>
                mqtt3_db_messages_queue (Some (s_source_id s)) topic (msg_qos (s_msg s)) (m_retain m) (m_store m)
              end);
        if rc =? 0 then
          _message_remove p i;;
          if max_inflight <? msg_index then mret MOSQ_ERR_SUCCESS
          else message_release_loop fuel' p mid dir i msg_index true
        else mret 1
      else if (max_inflight <? msg_index) && deleted then mret MOSQ_ERR_SUCCESS
      else message_release_loop fuel' p mid dir (S i) msg_index deleted
    end
  end.

(** Each released message appends at most one entry per leaf of the tree. *)
Definition mqtt3_db_message_release (p : ctxid) (mid : Z) (dir : msg_direction) : ST world Z :=
  c ← ctx_get p;
  subs ← gets w_subs;
  message_release_loop (length (c_msgs c) * S (tree_size subs)) p mid dir 0 0 false.

Definition mqtt3_db_messages_easy_queue (context : option ctxid) (topic : string) (qos payloadlen : Z)
    (payload : option (list Z)) (retain : bool) : ST world Z :=
  source_id ← (match context with
               | Some p => c ← ctx_get p; mret (c_id c)
               | None => mret (Some "")
               end);
  stored ← mqtt3_db_message_store context source_id 0 (Some topic) qos payloadlen payload (b2z retain) 0;
  mqtt3_db_messages_queue source_id topic qos retain stored.
End queue.
