(* ===== verification/Contexts.v ===== *)
(** * Client contexts

    [src/context.c]: the life of a [struct mosquitto]; [lib/will_mosq.c]; and
    what they need of [lib/net_mosq.c] (closing a socket) and [src/loop.c]
    (the sets of contexts with pending bytes). *)

From S2P Require Import Prelude Topic State Packet Database Subs Queue.
From stdpp Require Import options.

Definition MQTT_MAX_PAYLOAD : Z := 268435455.

(** A context as [mqtt3_context_init] leaves it: calloc'ed, then set up. *)
Definition context_new (sock : Z) (last_msg_in last_msg_out : Z) (address : option string) : mosquitto :=
  mk_mosquitto 0 false false sock INVALID_SOCKET mosq_p_invalid address None None None 60 true mosq_cs_new
    last_msg_in last_msg_out 0 0 (_mosquitto_packet_cleanup packet_zero) None [] None false cert_unknown
    None None [] false false None [] 0 0 None 0 0 false 0 0 0 0 false.

Section contexts.
Context `{Env}.

(** [None] when the peer's address cannot be found. *)
Definition mqtt3_context_init (sock : Z) : ST world (option ctxid) :=
  t_in ← mosquitto_time;
  t_out ← mosquitto_time;
  address ← (if sock =? -1 then mret None else ext (env_peer_address sock));
  if negb (sock =? -1) && bool_decide (address = None) then mret None
  else
    p ← gets (λ w, fresh (dom (w_ctxs w)));
    modify (λ w, w <| w_ctxs ::= <[p := context_new sock t_in t_out address]> |>);;
    mret (Some p).

(** ** The sets of [src/loop.c] *)

Definition hash_del (p : ctxid) (h : list ctxid) : list ctxid := filter (λ q, q ≠ p) h.

Definition remove_new_msgs_set (p : ctxid) : ST world () :=
  modify (λ w, w <| w_new_msgs_hash ::= hash_del p |>).
Definition remove_new_clients_set (p : ctxid) : ST world () :=
  modify (λ w, w <| w_new_clients_hash ::= hash_del p |>).

Definition mosquitto_add_pending_bytes_set (p : ctxid) : ST world () :=
  c ← ctx_get p;
  if c_pending_bytes c then mret tt
  else
    modify (λ w, w <| w_pending_bytes_hash ::= hash_add p |>);;
    ctx_upd p (λ c, c <| c_pending_bytes := true |>).

Definition mosquitto_remove_pending_bytes_set (p : ctxid) : ST world () :=
  c ← ctx_get p;
  if c_pending_bytes c then
    modify (λ w, w <| w_pending_bytes_hash ::= hash_del p |>);;
    ctx_upd p (λ c, c <| c_pending_bytes := false |>)
  else mret tt.

Definition mosquitto_remove_context (p : ctxid) : ST world () :=
  c ← ctx_get p;
  if c_sock c =? INVALID_SOCKET then mret tt else ext_ (env_epoll_del (c_sock c)).

Definition mosquitto_epoll_update_context_index (p : ctxid) (new_ctx_idx : Z) : ST world () :=
  c ← ctx_get p; ext_ (env_epoll_set (c_sock c) new_ctx_idx (c_epoll_events c)).

(** ** Disconnecting *)

Definition _mosquitto_socket_close (p : ctxid) : ST world Z :=
  c ← ctx_get p;
  if c_wsi c then
    ctx_upd p (λ c, c <| c_state := mosq_cs_ws_dead |>);; ext_ (env_ws_callback p);; mret 0
  else
    (if c_ssl c then ext_ (env_ssl_shutdown (c_sock c));; ctx_upd p (λ c, c <| c_ssl := false |>) else mret tt);;
    if c_sock c =? INVALID_SOCKET then mret 0
    else
      rc ← ext (env_close (c_sock c));
      ctx_upd p (λ c, c <| c_sock := INVALID_SOCKET |>);;
      mret rc.

(** [listener->client_count--]. *)
Definition listener_leave (l : option nat) : ST world () :=
  match l with
  | Some i => modify (λ w, w <| w_listener_client_count ::= alter (λ n, n - 1) i |>)
  | None => mret tt
  end.

Definition mqtt3_context_disconnect (p : ctxid) : ST world () :=
  ctxt ← ctx_get p;
  (if c_is_bridge ctxt then ext_ (dxl_on_bridge_disconnected ctxt) else mret tt);;
  (match c_will ctxt with
   | Some will =>
     if bool_decide (c_state ctxt ≠ mosq_cs_disconnecting) then
       topic ← deref (λ _, msg_topic will);
       b ← ext (dxl_on_publish_message ctxt topic (default [] (msg_payload will)));
       if (b : bool) then
         mqtt3_db_messages_easy_queue (Some p) topic (msg_qos will) (msg_payloadlen will)
           (msg_payload will) (msg_retain will);; mret tt
       else mret tt
     else mret tt
   | None => mret tt
   end);;
  ctx_upd p (λ c, c <| c_will := None |>);;
  listener_leave (c_listener ctxt);;
  ctx_upd p (λ c, c <| c_listener := None |>);;
  t ← mosquitto_time;
  ctx_upd p (λ c, c <| c_disconnect_t := t |>);;
  mosquitto_remove_context p;;
  _mosquitto_socket_close p;;
  mret tt.

Definition mqtt3_context_disconnect_byid (contextId : string) : ST world () :=
  h ← gets w_clientid_index_hash;
  match clientid_find contextId h with
  | Some i =>
    l ← gets w_contexts;
    p ← deref (λ _, mjoin (l !! Z.to_nat i));
    mqtt3_context_disconnect p
  | None => mret tt
  end.

(** ** Cleaning up *)

Definition mqtt3_context_cleanup_certs (p : ctxid) : ST world () :=
  ctx_upd p (λ c, c <| c_cert_hashes := [] |>).

(** The connection of the context is closed. *)
Definition cleanup_connection (p : ctxid) : ST world () :=
  ctx_upd p (λ c, c <| c_ssl := false |>);;
  c ← ctx_get p;
  (if c_sock c =? -1 then mret tt
   else
     listener_leave (c_listener c);;
     _mosquitto_socket_close p;;
     ctx_upd p (λ c, c <| c_listener := None |>));;
  c ← ctx_get p;
  if c_wsi c then ctx_upd p (λ c, c <| c_state := mosq_cs_ws_dead |>);; ext_ (env_ws_callback p)
  else mret tt.

(** Its subscriptions and queued messages go, for a clean session. *)
Definition cleanup_session (p : ctxid) (clean_subs : bool) : ST world () :=
  c ← ctx_get p;
  if c_clean_session c then
    (if clean_subs then
       ctx_upd p (λ c, c <| c_clean_subs := true |>);;
       mqtt3_subs_clean_session;;
       ctx_upd p (λ c, c <| c_clean_subs := false |>)
     else mret tt);;
    mqtt3_db_messages_delete p;; mret tt
  else mret tt.

(** Its identity is forgotten. *)
Definition cleanup_identity (p : ctxid) : ST world () :=
  ctx_upd p (λ c, c <| c_address := None |>);;
  c ← ctx_get p;
  (match c_canonical_id c with
   | Some id => mqtt3_db_remove_canonical_client_id id
   | None => mret tt
   end);;
  (match c_id c with
   | Some id =>
     h ← gets w_clientid_index_hash;
     (match clientid_find id h with
      | Some _ =>
        modify (λ w, w <| w_clientid_index_hash ::= clientid_del id |>);;
        c ← ctx_get p; ext_ (dxl_on_client_disconnected c)
      | None => mret tt
      end);;
     ctx_upd p (λ c, c <| c_id := None |> <| c_canonical_id := None |>)
   | None => mret tt
   end);;
  ctx_upd p (λ c, c <| c_cert_chain := None |> <| c_dxl_client_guid := None |> <| c_dxl_tenant_guid := None |>);;
  mqtt3_context_cleanup_certs p;;
  mosquitto_remove_pending_bytes_set p.

(** Its packets, will and messages are freed. *)
Definition cleanup_buffers (p : ctxid) (do_free : bool) : ST world () :=
  ctx_upd p (λ c, c <| c_in_packet ::= _mosquitto_packet_cleanup |> <| c_current_out_packet := None |>
    <| c_out_packet := [] |> <| c_will := None |>);;
  c ← ctx_get p;
  if do_free || c_clean_session c then
    release_refs (c_msgs c);;
    ctx_upd p (λ c, c <| c_msgs := [] |> <| c_msg_count := 0 |> <| c_msg_count12 := 0 |>
      <| c_subscription_count := 0 |> <| c_packet_count := 0 |>)
  else mret tt.

(** [mqtt3_context_cleanup] with the database at hand. *)
Definition mqtt3_context_cleanup (p : ctxid) (do_free clean_subs : bool) : ST world () :=
  cleanup_connection p;;
  cleanup_session p clean_subs;;
  cleanup_identity p;;
  cleanup_buffers p do_free;;
  if do_free then modify (λ w, w <| w_ctxs ::= delete p |>) else mret tt.

(** ** Wills ([lib/will_mosq.c]) *)

Definition _mosquitto_will_set (p : ctxid) (topic : option string) (payloadlen : Z) (payload : option (list Z))
    (qos : Z) (retain : bool) : ST world Z :=
  match topic with
  | None => mret MOSQ_ERR_INVAL
  | Some topic =>
    if (payloadlen <? 0) || (MQTT_MAX_PAYLOAD <? payloadlen) then mret MOSQ_ERR_PAYLOAD_SIZE
    else if (0 <? payloadlen) && bool_decide (payload = None) then mret MOSQ_ERR_INVAL
    else if negb (_mosquitto_topic_wildcard_pos_check topic =? MOSQ_ERR_SUCCESS) then mret MOSQ_ERR_INVAL
    else
      bytes ← (if 0 <? payloadlen then
                 bs ← deref (λ _, payload);
                 assert_ (payloadlen <=? Z.of_nat (length bs));;
                 mret (Some (take (Z.to_nat payloadlen) bs))
               else mret None);
      ctx_upd p (λ c, c <| c_will := Some (mk_message 0 (Some topic) bytes payloadlen None 0 qos retain) |>);;
      mret MOSQ_ERR_SUCCESS
  end.

Definition _mosquitto_will_clear (p : ctxid) : ST world Z :=
  ctx_upd p (λ c, c <| c_will := None |>);; mret MOSQ_ERR_SUCCESS.
End contexts.
