(* ===== verification/ContextProofs.v ===== *)
(** * The invariant of the broker, and the life of a context

    [broker_ok] is what holds between any two operations: reference counts
    and counters are right ([db_ok]), the subscription tree is well-formed and
    refers to live clients only ([tree_ok]). Disconnecting a client keeps it,
    will message included, and so does cleaning its context up: nothing in the
    broker points to it afterwards. *)

From S2P Require Import Prelude Topic State Packet PacketProofs Writer Database DatabaseProofs StoreProofs.
From S2P Require Import Subs SubsProofs SubscribeProofs UnsubscribeProofs SubsClaims.
From S2P Require Import PublishProofs Queue Contexts.
From stdpp Require Import options.

Section invariant.
Context `{Env}.

Record broker_ok (w : world) : Prop := {
  bo_db : db_ok w;
  bo_tree : tree_ok w;
  bo_granted : granted_ok w;
  bo_root : leaves_at [] (w_subs w) = [] }.

(** ** Steps that do not matter to the invariant *)

(** What the invariant depends on in a context. *)
Definition ctx_core (c : mosquitto) : list client_msg * Z * Z * option string :=
  (c_msgs c, c_msg_count c, c_msg_count12 c, c_id c).

(** Nothing of that changes. *)
Definition benign (w w' : world) : Prop :=
  w_stores w' = w_stores w ∧ w_msg_store w' = w_msg_store w ∧ w_msg_store_count w' = w_msg_store_count w ∧
  w_subs w' = w_subs w ∧ ∀ q, ctx_core <$> w_ctxs w' !! q = ctx_core <$> w_ctxs w !! q.

#[export] Instance benign_refl : Reflexive benign.
Proof. by intros w. Qed.
#[export] Instance benign_trans : Transitive benign.
Proof. intros w1 w2 w3 (?&?&?&?&Ha) (?&?&?&?&Hb). split_and!; congruence. Qed.

Lemma refs_core ctxs ctxs' s : (∀ q, c_msgs <$> ctxs' !! q = c_msgs <$> ctxs !! q) → refs ctxs' s = refs ctxs s.
Proof.
  intros Hq. assert (∀ m : gmap ctxid mosquitto, refs m s = map_fold (λ _ l n, n + refs_in s l) 0 (c_msgs <$> m)) as Hr.
  { intros m. unfold refs. by rewrite map_fold_fmap. }
  rewrite !Hr. f_equal. apply map_eq. intros q. by rewrite !lookup_fmap.
Qed.

Lemma benign_client_id w w' q : benign w w' → client_id w' q = client_id w q.
Proof.
  intros (_ & _ & _ & _ & Hq). specialize (Hq q). unfold client_id. destruct (w_ctxs w' !! q), (w_ctxs w !! q); try done.
  cbn in *. unfold ctx_core in Hq. congruence.
Qed.

Lemma benign_db_ok w w' : benign w w' → db_ok w → db_ok w'.
Proof.
  intros (Hs & Hm & Hn & _ & Hq) [H1 H2 H3 H4 H5 H6].
  assert (∀ q c', w_ctxs w' !! q = Some c' → ∃ c, w_ctxs w !! q = Some c ∧ ctx_core c' = ctx_core c) as Hctx.
  { intros q c' Hc'. specialize (Hq q). rewrite Hc' in Hq. destruct (w_ctxs w !! q) as [c|]; [|done]. exists c. split; [done|]. cbn in Hq. congruence. }
  split; rewrite ?Hs, ?Hm, ?Hn; try done.
  - intros q c' (c & Hc & Hcore)%Hctx. unfold ctx_core in Hcore. destruct (H1 q c Hc) as [Ha Hb]. unfold queue_ok.
    simplify_eq. split; congruence.
  - intros s m Hsm. rewrite (H2 s m Hsm). symmetry. apply refs_core. intros q. specialize (Hq q).
    destruct (w_ctxs w' !! q), (w_ctxs w !! q); try done. cbn in *. unfold ctx_core in Hq. congruence.
  - intros q c' (c & Hc & Hcore)%Hctx. unfold ctx_core in Hcore. specialize (H3 q c Hc). cbn in H3. by replace (c_msgs c') with (c_msgs c) by congruence.
Qed.

Lemma benign_ok w w' : benign w w' → broker_ok w → broker_ok w'.
Proof.
  intros Hb [Hdb [Hwf Hlive] Hg Hroot]. pose proof Hb as (_ & _ & _ & Hsubs & _). split.
  - by eapply benign_db_ok.
  - split; [by rewrite Hsubs|]. rewrite Hsubs. eapply same_ids_live; [|done]. intros q. by apply benign_client_id.
  - unfold granted_ok. by rewrite Hsubs.
  - by rewrite Hsubs.
Qed.

Lemma benign_env w e : benign w (w <| w_env := e |>).
Proof. by split_and!. Qed.
Lemma benign_upd w p c c' : w_ctxs w !! p = Some c → ctx_core c' = ctx_core c → benign w (w <| w_ctxs ::= <[p := c']> |>).
Proof.
  intros Hc Hcore. split_and!; try done. intros q. cbn. destruct (decide (q = p)) as [->|].
  - rewrite lookup_insert_eq, Hc. cbn. by rewrite Hcore.
  - by rewrite lookup_insert_ne.
Qed.

(** Publishing leaves the invariant. *)
Lemma grown_client_id stored n w w' q : grown stored n w w' → client_id w' q = client_id w q.
Proof.
  intros (_ & _ & _ & Hq). specialize (Hq q). unfold client_id.
  destruct (w_ctxs w !! q), (w_ctxs w' !! q); try done. by destruct Hq as (extra & (_ & _ & _ & Hid & _) & _).
Qed.
Lemma grown_ok stored n w w' : grown stored n w w' → broker_ok w → broker_ok w'.
Proof.
  intros Hgr [_ [Hwf Hlive] Hg Hroot]. pose proof Hgr as (Hdb & (?&?&?&?&Hw) & _ & _).
  assert (w_subs w' = w_subs w) as Hs by (by rewrite Hw). split; [done| | |].
  - split; rewrite Hs; [done|]. eapply same_ids_live; [|done]. intros q. by eapply grown_client_id.
  - unfold granted_ok. by rewrite Hs.
  - by rewrite Hs.
Qed.

(** Storing leaves the rest. *)
Lemma stored_ok w w' : stored_frame w w' → db_ok w' → broker_ok w → broker_ok w'.
Proof. intros (?&?&?&?&?&->) Hdb [_ Htree Hg Hroot]. by split. Qed.

(** A publication on any topic, wildcards or not, keeps the queues consistent. *)
Lemma messages_queue_safe source_id topic qos stored w :
  broker_ok w → is_Some (w_stores w !! stored) → 0 <= qos <= 2 →
  wp (mqtt3_db_messages_queue source_id topic qos false stored) (λ rc w', rc = 0 ∧ ∃ n, grown stored n w w') w.
Proof.
  intros [Hok [Hwf Hlive] Hg _] Hs Hq.
  assert (∃ leaves, Forall (leaf_live w) leaves ∧ Forall (λ leaf, 0 <= l_qos leaf <= 2) leaves ∧
    mqtt3_db_messages_queue source_id topic qos false stored w = (deliver source_id qos false stored leaves;; finalize stored) w) as (leaves & Hl & Hlq & Heq).
  { unfold mqtt3_db_messages_queue. cbv zeta. set (t := default "" (head (_sub_topic_tokenise topic))).
    unfold gets, mbind, st_bind. rewrite wf_find_child by done.
    destruct (child t (h_children (w_subs w))) as [s|] eqn:Hc.
    - destruct (wf_child _ _ _ Hwf Hc) as [Hws _]. exists (leaves_of s (search_paths s (_sub_topic_tokenise topic))).
      assert (∀ path, leaves_at path s = leaves_at (t :: path) (w_subs w)) as Hp by (intros; by rewrite leaves_at_cons, Hc).
      split_and!; [apply leaves_of_Forall; intros; rewrite Hp; apply Hlive|apply leaves_of_Forall; intros; rewrite Hp; apply Hg|].
      unfold mret, st_ret. by rewrite sub_search_deliver.
    - exists []. split_and!; [constructor..|]. by rewrite deliver_nil. }
  unfold wp. rewrite Heq. change (wp (deliver source_id qos false stored leaves;; finalize stored)
    (λ rc w', rc = 0 ∧ ∃ n, grown stored n w w') w).
  wp_step. eapply wp_mono; [by apply deliver_spec|]. intros r1 w1 Hgr. eapply wp_mono; [exact (finalize_grown _ _ _ _ Hs Hgr)|].
  intros rc w2 [-> Hg2]. split; [done|]. by eexists.
Qed.

(** ** A message the broker queues itself *)

(** What neither publishing nor disconnecting touches. *)
Definition registry (w : world) : list (string * Z) * list (option ctxid) * gmap string Z * subhier * (config * Z) * list (option ctxid) :=
  (w_clientid_index_hash w, w_contexts w, w_canonical_client_id_index_hash w, w_subs w, (w_config w, w_max_packet_buffer_size w), w_sessions_to_clean w).

(** The client [p] is still there, its queue possibly longer. *)
Definition still_there (p : ctxid) (c : mosquitto) (w' : world) : Prop :=
  ∃ c' extra, w_ctxs w' !! p = Some c' ∧ queued_after c extra c'.

Lemma grown_still_there stored n w w' p c : grown stored n w w' → w_ctxs w !! p = Some c → still_there p c w'.
Proof.
  intros (_ & _ & _ & Hq) Hc. specialize (Hq p). rewrite Hc in Hq. destruct (w_ctxs w' !! p) as [c'|] eqn:Hc'; [|done].
  destruct Hq as (extra & Hqa & _). by exists c', extra.
Qed.

(** So is every other context, and there is no new one. *)
Definition apart (p : ctxid) (w w' : world) : Prop := ∀ q, q ≠ p →
  match w_ctxs w !! q, w_ctxs w' !! q with
  | Some c, Some c' => ∃ extra, queued_after c extra c'
  | None, None => True
  | _, _ => False
  end.
Lemma apart_same p w w' : (∀ q, q ≠ p → w_ctxs w' !! q = w_ctxs w !! q) → apart p w w'.
Proof. intros Hq q Hne. rewrite Hq by done. destruct (w_ctxs w !! q) as [c|]; [|done]. exists []. apply queued_after_refl. Qed.
Lemma apart_trans p w1 w2 w3 : apart p w1 w2 → apart p w2 w3 → apart p w1 w3.
Proof.
  intros H1 H2 q Hne. specialize (H1 q Hne). specialize (H2 q Hne).
  destruct (w_ctxs w1 !! q), (w_ctxs w2 !! q), (w_ctxs w3 !! q); try done. destruct H1 as [l1 H1], H2 as [l2 H2].
  exists (l1 ++ l2). by eapply queued_after_trans.
Qed.
Lemma grown_apart p stored n w w' : grown stored n w w' → apart p w w'.
Proof.
  intros (_ & _ & _ & Hq) q _. specialize (Hq q). destruct (w_ctxs w !! q), (w_ctxs w' !! q); try done. destruct Hq as (extra & Hq & _). by exists extra.
Qed.

Lemma easy_queue_spec p topic qos payloadlen payload bs w c :
  broker_ok w → w_ctxs w !! p = Some c → 0 <= qos <= 2 → payload_bytes payloadlen payload bs →
  wp (mqtt3_db_messages_easy_queue (Some p) topic qos payloadlen payload false)
    (λ rc w', rc = 0 ∧ broker_ok w' ∧ registry w' = registry w ∧ still_there p c w' ∧ apart p w w') w.
Proof.
  intros Hok Hc Hq Hp. unfold mqtt3_db_messages_easy_queue. wp_steps. eapply wp_ctx_get; [done|]. wp_steps.
  eapply wp_mono; [apply (message_store_spec (Some p) _ _ _ _ _ _ bs); [apply Hok|done|by eexists]|].
  intros x w1 (Hx & Hdb1 & Hfr & s & bs' & Hs & _). pose proof (stored_ok _ _ Hfr Hdb1 Hok) as Hok1.
  assert (w_ctxs w1 !! p = Some c ∧ registry w1 = registry w) as [Hc1 Hreg1] by (destruct Hfr as (?&?&?&?&?&->); done).
  eapply wp_mono; [apply messages_queue_safe; [done|rewrite Hs, lookup_insert_eq; by eexists|done]|].
  intros rc w2 (-> & n & Hg). split_and!; [done|by eapply grown_ok| |by eapply grown_still_there|].
  - rewrite <-Hreg1. by destruct Hg as (_ & (?&?&?&?&->) & _).
  - eapply apart_trans; [|by eapply grown_apart]. apply apart_same. intros q _. by destruct Hfr as (?&?&?&?&?&->).
Qed.
End invariant.

(** ** Disconnecting *)

Section disconnect.
Context `{Env}.

(** A will as [mqtt3_handle_connect] makes it. *)
Definition will_ok (m : message) : Prop :=
  is_Some (msg_topic m) ∧ 0 <= msg_qos m <= 2 ∧ msg_retain m = false ∧
  ∃ bs, payload_bytes (msg_payloadlen m) (msg_payload m) bs.

(** From [w] to [w'], nothing happened that matters to the invariant, and [p]
    is now [c']. *)
Definition reached (p : ctxid) (c' : mosquitto) (w w' : world) : Prop :=
  benign w w' ∧ registry w' = registry w ∧ w_ctxs w' = <[p := c']> (w_ctxs w).

Lemma reached_refl p c w : w_ctxs w !! p = Some c → reached p c w w.
Proof. intros Hc. split_and!; [done|done|]. by rewrite insert_id. Qed.
Lemma reached_lookup p c' w w' : reached p c' w w' → w_ctxs w' !! p = Some c'.
Proof. intros (_ & _ & ->). apply lookup_insert_eq. Qed.

Lemma reached_apart p c' w w' : reached p c' w w' → apart p w w'.
Proof. intros (_ & _ & Hw). apply apart_same. intros q Hne. rewrite Hw. by apply lookup_insert_ne. Qed.

Lemma wp_reached_get p c w0 w (Q : mosquitto → world → Prop) : reached p c w0 w → Q c w → wp (ctx_get p) Q w.
Proof. intros Hm HQ. eapply wp_ctx_get; [by eapply reached_lookup|done]. Qed.
Lemma wp_reached_upd p c w0 w f (Q : () → world → Prop) : reached p c w0 w → ctx_core (f c) = ctx_core c →
  (∀ w', reached p (f c) w0 w' → Q tt w') → wp (ctx_upd p f) Q w.
Proof.
  intros Hm Hcore HQ. pose proof (reached_lookup _ _ _ _ Hm) as Hc. destruct Hm as (Hb & Hr & Hw).
  eapply wp_ctx_upd; [done|]. apply HQ. split_and!; [by etrans; [|by eapply benign_upd]|done|].
  cbn. by rewrite Hw, insert_insert_eq.
Qed.
Lemma wp_reached_ext_eq {A} p c w0 w (f : env → A * env) (Q : A → world → Prop) : reached p c w0 w →
  (∀ a w', reached p c w0 w' → a = fst (f (w_env w)) → Q a w') → wp (ext f) Q w.
Proof.
  intros (Hb & Hr & Hw) HQ. apply wp_ext. intros a e He. apply HQ; [|by rewrite He].
  by split_and!; [etrans; [|apply benign_env]|..].
Qed.
Lemma wp_reached_ext {A} p c w0 w (f : env → A * env) (Q : A → world → Prop) : reached p c w0 w →
  (∀ a w', reached p c w0 w' → Q a w') → wp (ext f) Q w.
Proof. intros Hr HQ. eapply wp_reached_ext_eq; eauto. Qed.
Lemma wp_reached_ext_ p c w0 w (f : env → env) (Q : () → world → Prop) : reached p c w0 w →
  (∀ w', reached p c w0 w' → Q tt w') → wp (ext_ f) Q w.
Proof. intros (Hb & Hr & Hw) HQ. apply wp_ext_. apply HQ. by split_and!; [etrans; [|apply benign_env]|..]. Qed.
Lemma wp_reached_listener p c w0 w l (Q : () → world → Prop) : reached p c w0 w →
  (∀ w', reached p c w0 w' → Q tt w') → wp (listener_leave l) Q w.
Proof.
  intros (Hb & Hr & Hw) HQ. destruct l as [i|]; cbn; wp_steps; apply HQ; [|done]. split_and!; [|done..].
  by etrans; [exact Hb|].
Qed.

(** What closing leaves alone in the context. *)
Definition session (c : mosquitto) : option message * option nat * bool * bool * bool * Z * option string * list string :=
  (c_will c, c_listener c, c_wsi c, c_clean_session c, c_is_bridge c, c_numericId c, b_name <$> c_bridge c, c_cert_hashes c).
Definition closed (c c' : mosquitto) : Prop :=
  ctx_core c' = ctx_core c ∧ session c' = session c ∧ c_pending_bytes c' = c_pending_bytes c ∧
  c_canonical_id c' = c_canonical_id c ∧
  if c_wsi c then c_state c' = mosq_cs_ws_dead else c_sock c' = INVALID_SOCKET ∧ c_ssl c' = false.

Lemma socket_close_spec p w0 w c : reached p c w0 w →
  wp (_mosquitto_socket_close p) (λ _ w', ∃ c', reached p c' w0 w' ∧ closed c c') w.
Proof.
  intros Hm. unfold _mosquitto_socket_close. wp_step. eapply wp_reached_get; [done|]. cbv beta.
  destruct (c_wsi c) eqn:Hws.
  { wp_step. eapply wp_reached_upd; [done..|]. intros w1 Hm1. wp_step. eapply wp_reached_ext_; [done|]. intros w2 Hm2. wp_step.
    eexists. split; [done|]. split_and!; try done. by rewrite Hws. }
  wp_step. eapply (wp_mono _ (λ _ w1, ∃ c1, reached p c1 w0 w1 ∧ c_ssl c1 = false ∧ c_sock c1 = c_sock c ∧ ctx_core c1 = ctx_core c
    ∧ session c1 = session c ∧ c_pending_bytes c1 = c_pending_bytes c ∧ c_canonical_id c1 = c_canonical_id c)).
  { destruct (c_ssl c) eqn:Hs; wp_step; [|by exists c].
    eapply wp_reached_ext_; [done|]. intros w1 Hm1. eapply wp_reached_upd; [done..|]. intros w2 Hm2. by eexists. }
  intros _ w1 (c1 & Hm1 & Hssl & Hsock & Hcore & Hses & Hpend & Hcan). destruct (Z.eqb_spec (c_sock c) INVALID_SOCKET).
  - wp_step. exists c1. split; [done|]. split_and!; try done. rewrite Hws. split; [congruence|done].
  - wp_step. eapply wp_reached_ext; [done|]. intros rc w2 Hm2. wp_step. eapply wp_reached_upd; [done..|]. intros w3 Hm3. wp_step.
    eexists. split; [done|]. split_and!; try done. by rewrite Hws.
Qed.

(** The will is published, unless the client said goodbye. *)
Lemma publish_will_spec p w c : broker_ok w → w_ctxs w !! p = Some c → (∀ m, c_will c = Some m → will_ok m) →
  wp (match c_will c with
      | Some will =>
        if bool_decide (c_state c ≠ mosq_cs_disconnecting) then
          topic ← deref (λ _, msg_topic will);
          b ← ext (dxl_on_publish_message c topic (default [] (msg_payload will)));
          if (b : bool) then
            mqtt3_db_messages_easy_queue (Some p) topic (msg_qos will) (msg_payloadlen will)
              (msg_payload will) (msg_retain will);; mret tt
          else mret tt
        else mret tt
      | None => mret tt
      end) (λ _ w', broker_ok w' ∧ registry w' = registry w ∧ still_there p c w' ∧ apart p w w') w.
Proof.
  intros Hok Hc Hwill. assert (still_there p c w) as Hst by (exists c, []; split; [done|apply queued_after_refl]).
  assert (∀ e, apart p w (w <| w_env := e |>)) as Hap by (intros e; by apply apart_same).
  assert (apart p w w) as Hap' by (by apply apart_same).
  destruct (c_will c) as [m|]; [|by wp_steps]. destruct (Hwill m eq_refl) as ((topic & Ht) & Hq & Hr & bs & Hp).
  case_bool_decide; [|by wp_steps]. wp_step. eapply wp_deref; [done|]. wp_steps. apply wp_ext. intros b e _.
  pose proof (benign_ok _ _ (benign_env w e) Hok) as Hok1.
  destruct b; [|wp_steps; by split_and!]. wp_step. rewrite Hr.
  eapply wp_mono; [by eapply (easy_queue_spec p topic (msg_qos m) _ _ bs (w <| w_env := e |>) c)|].
  intros rc w' (_ & Hok' & Hreg & Hst' & Hap2). wp_steps. split_and!; [done..|].
  eapply apart_trans; [apply (Hap e)|exact Hap2].
Qed.

Definition disconnected (c c' : mosquitto) : Prop :=
  c_will c' = None ∧ c_listener c' = None ∧ c_id c' = c_id c ∧ c_wsi c' = c_wsi c ∧
  c_clean_session c' = c_clean_session c ∧ c_is_bridge c' = c_is_bridge c ∧ c_numericId c' = c_numericId c ∧
  b_name <$> c_bridge c' = b_name <$> c_bridge c ∧ c_cert_hashes c' = c_cert_hashes c ∧
  if c_wsi c then c_state c' = mosq_cs_ws_dead else c_sock c' = INVALID_SOCKET ∧ c_ssl c' = false.

Lemma remove_context_spec p w0 w c (Q : () → world → Prop) : reached p c w0 w → (∀ w', reached p c w0 w' → Q tt w') →
  wp (mosquitto_remove_context p) Q w.
Proof.
  intros Hm HQ. unfold mosquitto_remove_context. wp_step. eapply wp_reached_get; [done|]. cbv beta.
  destruct (c_sock c =? _); [wp_step; by apply HQ|by eapply wp_reached_ext_].
Qed.

Lemma context_disconnect_spec p w c : broker_ok w → w_ctxs w !! p = Some c → (∀ m, c_will c = Some m → will_ok m) →
  wp (mqtt3_context_disconnect p) (λ _ w', broker_ok w' ∧ registry w' = registry w ∧
    (∃ c', w_ctxs w' !! p = Some c' ∧ disconnected c c') ∧ apart p w w') w.
Proof.
  intros Hok Hc Hwill. unfold mqtt3_context_disconnect. wp_step. eapply wp_ctx_get; [done|]. wp_step.
  eapply (wp_mono _ (λ _ w1, reached p c w w1)).
  { pose proof (reached_refl _ _ _ Hc). destruct (c_is_bridge c); [by eapply wp_reached_ext_|by wp_step]. }
  intros _ w1 Hm1. pose proof (reached_lookup _ _ _ _ Hm1) as Hc1. pose proof (reached_apart _ _ _ _ Hm1) as Hap1.
  destruct Hm1 as (Hb1 & Hr1 & _). wp_step.
  eapply wp_mono; [apply (publish_will_spec p w1 c); [by eapply benign_ok|done..]|].
  intros _ w2 (Hok2 & Hreg2 & (c2 & extra & Hc2 & Hq2) & Hap2). wp_step. pose proof (reached_refl _ _ _ Hc2) as Hm2.
  eapply wp_reached_upd; [done..|]. intros w3 Hm3. wp_step. eapply wp_reached_listener; [done|]. intros w4 Hm4. wp_step.
  eapply wp_reached_upd; [done..|]. intros w5 Hm5. wp_step. eapply wp_reached_ext; [done|]. intros t w6 Hm6. wp_step.
  eapply wp_reached_upd; [done..|]. intros w7 Hm7. wp_step. eapply remove_context_spec; [done|]. intros w8 Hm8. wp_step.
  eapply wp_mono; [by eapply socket_close_spec|]. intros rc w9 (c9 & Hm9 & Hcore & Hses & _ & _ & Hclose). wp_step.
  pose proof (reached_lookup _ _ _ _ Hm9) as Hc9. pose proof (reached_apart _ _ _ _ Hm9) as Hap9. destruct Hm9 as (Hb9 & Hr9 & _).
  split_and!; [by eapply benign_ok|congruence| |].
  2: { eapply apart_trans; [exact Hap1|]. eapply apart_trans; [exact Hap2|exact Hap9]. }
  exists c9. split; [done|].
  destruct Hq2 as (_ & Hs2 & Hw2 & Hid2 & _ & Hb2 & _ & _ & Hch2 & Hcs2 & _ & _ & _ & Hn2 & Hbr2 & _).
  unfold ctx_core, session in *. cbn in Hcore, Hses, Hclose. rewrite Hw2 in Hclose. unfold disconnected.
  split_and!; try done; congruence.
Qed.

(** Disconnecting a client. [mqtt3_context_disconnect] always returns,
    publishes the will of a client that did not say goodbye, and keeps the
    whole invariant of the broker; afterwards the context holds no will, no
    listener and no open connection (a websocket is marked dead), while the
    client registry and the subscriptions are unchanged. *)
Theorem context_disconnect_safe p w c :
  broker_ok w → w_ctxs w !! p = Some c → (∀ m, c_will c = Some m → will_ok m) →
  wp (mqtt3_context_disconnect p) (λ _ w', broker_ok w' ∧ registry w' = registry w ∧
    ∃ c', w_ctxs w' !! p = Some c' ∧ disconnected c c') w.
Proof. intros Hok Hc Hwill. eapply wp_mono; [by apply (context_disconnect_spec p w c)|]. by intros _ w' (? & ? & ? & _). Qed.
End disconnect.

(** ** Cleaning up *)

Section cleanup.
Context `{Env}.

(** Nothing refers to [p] any more. *)
Definition no_leaf (p : ctxid) (w : world) : Prop :=
  ∀ path, Forall (λ leaf, l_context leaf ≠ p) (leaves_at path (w_subs w)).
Definition retired (p : ctxid) (w : world) : Prop :=
  broker_ok w ∧ no_leaf p w ∧ ∃ c, w_ctxs w !! p = Some c ∧ c_msgs c = [].

(** The contexts other than [p], and the rest of the invariant's state, stay;
    [p] has an empty queue in both or is gone. *)
Lemma retired_change p w w' : retired p w →
  w_stores w' = w_stores w → w_msg_store w' = w_msg_store w → w_msg_store_count w' = w_msg_store_count w →
  w_subs w' = w_subs w → (∀ q, q ≠ p → w_ctxs w' !! q = w_ctxs w !! q) →
  (∀ c', w_ctxs w' !! p = Some c' → c_msgs c' = [] ∧ queue_ok c') → broker_ok w' ∧ no_leaf p w'.
Proof.
  intros (Hok & Hno & c & Hc & Hm) Hst Hms Hcnt Hsubs Hq Hp. pose proof Hok as [[H1 H2 H3 H4 H5 H6] [Hwf Hlive] Hg Hroot].
  assert (∀ s, refs (w_ctxs w') s = refs (w_ctxs w) s) as Hrefs.
  { intros s. rewrite (refs_delete (w_ctxs w) p c) by done. rewrite Hm. change (refs_in s []) with 0. rewrite Z.add_0_r.
    transitivity (refs (delete p (w_ctxs w')) s).
    - destruct (w_ctxs w' !! p) as [c'|] eqn:Hc'; [|by rewrite delete_id]. rewrite (refs_delete (w_ctxs w') p c') by done.
      destruct (Hp c' eq_refl) as [-> _]. change (refs_in s []) with 0. lia.
    - f_equal. apply map_eq. intros q. destruct (decide (q = p)) as [->|]; [by rewrite !lookup_delete_eq|].
      rewrite !lookup_delete_ne by done. by apply Hq. }
  split; [split|by unfold no_leaf; rewrite Hsubs].
  - split; rewrite ?Hst, ?Hms, ?Hcnt; try done.
    + intros q d Hd. destruct (decide (q = p)) as [->|Hne]; [by apply Hp|]. rewrite Hq in Hd by done. by apply (H1 q).
    + intros s m Hsm. rewrite Hrefs. by apply H2.
    + intros q d Hd. destruct (decide (q = p)) as [->|Hne]; [destruct (Hp d Hd) as [-> _]; constructor|].
      rewrite Hq in Hd by done. by apply (H3 q).
  - split; rewrite Hsubs; [done|]. intros path. apply Forall_forall. intros leaf Hin.
    pose proof (proj1 (Forall_forall _ _) (Hno path) leaf Hin) as Hne. cbn in Hne.
    pose proof (proj1 (Forall_forall _ _) (Hlive path) leaf Hin) as Hl. unfold leaf_live, client_id in *. by rewrite Hq.
  - unfold granted_ok. by rewrite Hsubs.
  - by rewrite Hsubs.
Qed.

Lemma wp_retired_upd p f w (Q : () → world → Prop) : retired p w →
  (∀ c, c_msgs c = [] → queue_ok c → c_msgs (f c) = [] ∧ queue_ok (f c)) →
  (∀ w', retired p w' → Q tt w') → wp (ctx_upd p f) Q w.
Proof.
  intros Hr Hf HQ. pose proof Hr as ([Hdb _ _ _] & _ & c & Hc & Hm). eapply wp_ctx_upd; [done|]. apply HQ.
  destruct (Hf c Hm (ok_queue _ Hdb p c Hc)) as [Hm' Hq']. set (w' := w <| w_ctxs ::= <[p := f c]> |>).
  assert (w_ctxs w' !! p = Some (f c)) as Hc' by apply lookup_insert_eq.
  destruct (retired_change p w w') as [Hok' Hno']; try done.
  - intros q Hne. by apply lookup_insert_ne.
  - intros d Hd. rewrite Hc' in Hd. by simplify_eq.
  - split_and!; [done|done|]. by exists (f c).
Qed.
Lemma retired_frame p w w' : retired p w → w_ctxs w' = w_ctxs w →
  w_stores w' = w_stores w → w_msg_store w' = w_msg_store w → w_msg_store_count w' = w_msg_store_count w →
  w_subs w' = w_subs w → retired p w'.
Proof.
  intros Hr Hctx Hst Hms Hcnt Hsubs. pose proof Hr as ([Hdb _ _ _] & _ & c & Hc & Hm).
  destruct (retired_change p w w') as [Hok' Hno']; try done.
  - intros q _. by rewrite Hctx.
  - intros d Hd. rewrite Hctx, Hc in Hd. simplify_eq. split; [done|]. by apply (ok_queue _ Hdb p).
  - split_and!; [done|done|]. exists c. by rewrite Hctx.
Qed.

Lemma cleanup_connection_spec p w c : w_ctxs w !! p = Some c →
  wp (cleanup_connection p) (λ _ w', ∃ c', reached p c' w w' ∧ c_clean_session c' = c_clean_session c) w.
Proof.
  intros Hc. pose proof (reached_refl _ _ _ Hc) as Hm0. unfold cleanup_connection. wp_step.
  eapply wp_reached_upd; [done..|]. intros w1 Hm1. wp_step. eapply wp_reached_get; [done|]. cbv beta. wp_step.
  set (c1 := c <| c_ssl := false |>) in *.
  eapply (wp_mono _ (λ _ w', ∃ c', reached p c' w w' ∧ c_clean_session c' = c_clean_session c)).
  { destruct (c_sock c1 =? -1); wp_step; [by exists c1|]. eapply wp_reached_listener; [done|]. intros w2 Hm2. wp_step.
    eapply wp_mono; [by eapply socket_close_spec|]. intros rc w3 (c3 & Hm3 & _ & Hses & _).
    eapply wp_reached_upd; [done..|]. intros w4 Hm4. eexists. split; [done|]. unfold session in Hses. cbn in Hses |- *. congruence. }
  intros _ w2 (c2 & Hm2 & Hcs). wp_step. eapply wp_reached_get; [done|]. cbv beta. destruct (c_wsi c2); [|wp_step; by exists c2].
  wp_step. eapply wp_reached_upd; [done..|]. intros w3 Hm3. eapply wp_reached_ext_; [done|]. intros w4 Hm4. by eexists.
Qed.

(** Cleaning the subscriptions takes every leaf of a marked context. *)
Lemma clean_subs_no_leaf p w c : broker_ok w → w_ctxs w !! p = Some c → c_clean_subs c = true →
  wp mqtt3_subs_clean_session (λ _ w', broker_ok w' ∧ no_leaf p w' ∧ (∀ path, leaves_at path (w_subs w') = kept w (leaves_at path (w_subs w))) ∧
    ∃ n e h, w' = w <| w_subscription_count := n |> <| w_env := e |> <| w_subs := h |>) w.
Proof.
  intros Hok Hc Hcs. eapply wp_mono; [by apply clean_session_tree, Hok|]. intros rc w2 (_ & Htree2 & (n & e & h & Hw2) & Hnil & Hl).
  split_and!; [| |intros [|u path]; [by rewrite Hnil, (bo_root _ Hok)|apply Hl]|by eexists _, _, _].
  - split; [|done| |by rewrite Hnil, (bo_root _ Hok)].
    + subst w2. destruct (bo_db _ Hok). by split.
    + intros [|u path]; [rewrite Hnil; apply (bo_granted _ Hok)|]. rewrite Hl. unfold kept. apply Forall_forall.
      intros leaf [_ Hin]%list_elem_of_filter. exact (proj1 (Forall_forall _ _) (bo_granted _ Hok (u :: path)) leaf Hin).
  - intros [|u path]; [rewrite Hnil, (bo_root _ Hok); constructor|]. rewrite Hl. unfold kept. apply Forall_forall.
    intros leaf [Hk _]%list_elem_of_filter Hp. unfold keeps in Hk. by rewrite Hp, Hc, Hcs in Hk.
Qed.
Lemma messages_delete_retires p w c : broker_ok w → no_leaf p w → w_ctxs w !! p = Some c →
  wp (mqtt3_db_messages_delete p) (λ _ w', retired p w') w.
Proof.
  intros Hok Hno Hc. eapply wp_mono; [by eapply (messages_delete_spec p w c); [apply Hok|]|].
  intros rc' w4 (_ & Hdb4 & _ & stores & ->). destruct Hok as [_ [Hwf Hlive] Hg Hroot].
  split_and!; [split; [done| |done|done]|done|exists (emptied c); split; [apply lookup_insert_eq|done]].
  split; [done|]. eapply same_ids_live; [|exact Hlive]. intros q. by eapply (client_id_insert w _ p c (emptied c)).
Qed.

(** Without cleaning the subscriptions, there must be none. *)
Lemma cleanup_session_spec p w c clean_subs : broker_ok w → w_ctxs w !! p = Some c → c_clean_session c = true →
  (clean_subs = false → no_leaf p w) → wp (cleanup_session p clean_subs) (λ _ w', retired p w') w.
Proof.
  intros Hok Hc Hcs Hno. unfold cleanup_session. wp_step. eapply wp_ctx_get; [done|]. cbv beta. rewrite Hcs. wp_step.
  eapply (wp_mono _ (λ _ w', broker_ok w' ∧ no_leaf p w' ∧ ∃ c', w_ctxs w' !! p = Some c')).
  2: { intros _ w4 (Hok4 & Hno4 & c4 & Hc4). wp_step. eapply wp_mono; [by eapply messages_delete_retires|]. intros rc w5 Hr. by wp_step. }
  destruct clean_subs; [|wp_step; split_and!; [done|by apply Hno|by eexists]]. wp_step.
  eapply wp_reached_upd; [by apply reached_refl|done|]. intros w1 (Hb1 & Hr1 & Hw1). wp_step.
  pose proof (benign_ok _ _ Hb1 Hok) as Hok1. set (c1 := c <| c_clean_subs := true |>) in *.
  assert (w_ctxs w1 !! p = Some c1) as Hc1 by (rewrite Hw1; apply lookup_insert_eq).
  eapply wp_mono; [by apply (clean_subs_no_leaf p w1 c1)|]. intros rc w2 (Hok2 & Hno2 & _ & n & e & h & Hw2).
  assert (w_ctxs w2 !! p = Some c1) as Hc2 by (by subst w2). clear Hw2.
  eapply wp_reached_upd; [by apply reached_refl|done|]. intros w3 (Hb3 & _ & Hw3).
  split_and!; [by eapply benign_ok| |eexists; rewrite Hw3; apply lookup_insert_eq].
  unfold no_leaf. destruct Hb3 as (_ & _ & _ & -> & _). done.
Qed.

Lemma cleanup_identity_spec p w : retired p w → wp (cleanup_identity p) (λ _ w', retired p w') w.
Proof.
  assert (∀ w, retired p w → ∃ c, w_ctxs w !! p = Some c) as Hget by (intros w0 (_ & _ & c & Hc & _); by exists c).
  intros Hr. unfold cleanup_identity. wp_step. apply wp_retired_upd; [done|done|]. intros w1 Hr1. wp_step.
  destruct (Hget _ Hr1) as [c1 Hc1]. eapply wp_ctx_get; [done|]. cbv beta. wp_step.
  eapply (wp_mono _ (λ _ w', retired p w')).
  { destruct (c_canonical_id c1); [|by wp_step]. unfold mqtt3_db_remove_canonical_client_id. wp_step. by eapply retired_frame. }
  intros _ w2 Hr2. wp_step. eapply (wp_mono _ (λ _ w', retired p w')).
  { destruct (c_id c1) as [id|]; [|by wp_step]. do 3 wp_step. eapply (wp_mono _ (λ _ w', retired p w')).
    - destruct (clientid_find id _); [|by wp_step]. do 3 wp_step.
      set (w3 := w2 <| w_clientid_index_hash ::= _ |>). assert (retired p w3) as Hr3 by (by eapply retired_frame).
      destruct (Hget _ Hr3) as [c3 Hc3]. eapply wp_ctx_get; [done|]. apply wp_ext_. by eapply retired_frame.
    - intros _ w3 Hr3. by apply wp_retired_upd. }
  intros _ w3 Hr3. wp_step. apply wp_retired_upd; [done|done|]. intros w4 Hr4. wp_step.
  unfold mqtt3_context_cleanup_certs. apply wp_retired_upd; [done|done|]. intros w5 Hr5.
  unfold mosquitto_remove_pending_bytes_set. wp_step. destruct (Hget _ Hr5) as [c5 Hc5]. eapply wp_ctx_get; [done|]. cbv beta.
  destruct (c_pending_bytes c5); [|by wp_step]. do 2 wp_step.
  apply wp_retired_upd; [by eapply retired_frame|done|]. done.
Qed.

Lemma cleanup_buffers_spec p w do_free : retired p w → wp (cleanup_buffers p do_free) (λ _ w', retired p w') w.
Proof.
  intros Hr. unfold cleanup_buffers. wp_step. apply wp_retired_upd; [done|done|]. intros w1 Hr1. wp_step.
  pose proof Hr1 as (_ & _ & c1 & Hc1 & Hm1). eapply wp_ctx_get; [done|]. cbv beta. rewrite Hm1. cbn [release_refs].
  destruct (do_free || c_clean_session c1); [|by wp_step]. do 2 wp_step. by apply wp_retired_upd.
Qed.

Lemma context_cleanup_spec p w c clean_subs : broker_ok w → w_ctxs w !! p = Some c → c_clean_session c = true →
  (clean_subs = false → no_leaf p w) →
  wp (mqtt3_context_cleanup p true clean_subs) (λ _ w', broker_ok w' ∧ w_ctxs w' !! p = None ∧ no_leaf p w') w.
Proof.
  intros Hok Hc Hcs Hno. unfold mqtt3_context_cleanup. wp_step.
  eapply wp_mono; [by apply cleanup_connection_spec|]. intros r1 w1 (c1 & Hm1 & Hcs1). pose proof (reached_lookup _ _ _ _ Hm1).
  destruct Hm1 as (Hb1 & _). wp_step.
  eapply wp_mono; [apply (cleanup_session_spec p w1 c1); [by eapply benign_ok|done|congruence|]|].
  { intros E. unfold no_leaf. destruct Hb1 as (_ & _ & _ & -> & _). by apply Hno. }
  intros r2 w2 Hr2. wp_step. eapply wp_mono; [by apply cleanup_identity_spec|]. intros r3 w3 Hr3. wp_step.
  eapply wp_mono; [by apply cleanup_buffers_spec|]. intros r4 w4 Hr4. wp_step.
  destruct (retired_change p w4 (w4 <| w_ctxs ::= delete p |>)) as [Hok' Hno']; try done.
  - intros q Hne. by apply lookup_delete_ne.
  - intros d Hd. cbn in Hd. by rewrite lookup_delete_eq in Hd.
  - split_and!; [done|apply lookup_delete_eq|done].
Qed.

(** C9: cleaning up a context leaves no dangling pointer. When the session of
    a client ends, [mqtt3_context_cleanup] with [do_free] returns, the context
    is freed, no subscription and no queue entry refers to it any more, every
    stored message has lost exactly its references, and the whole invariant of
    the broker holds for what is left. *)
Theorem context_cleanup_safe p w c :
  broker_ok w → w_ctxs w !! p = Some c → c_clean_session c = true →
  wp (mqtt3_context_cleanup p true true) (λ _ w', broker_ok w' ∧ w_ctxs w' !! p = None ∧ no_leaf p w') w.
Proof. intros Hok Hc Hcs. by eapply context_cleanup_spec. Qed.
End cleanup.
