(* ===== verification/Handlers.v ===== *)
(** * Packet handlers

    What the broker does with a complete packet: [lib/read_handle_shared.c]
    (acknowledgements and pings), [src/read_handle.c] (PUBLISH and the
    dispatch), [src/read_handle_client.c] (CONNACK on a bridge) and the
    DISCONNECT, SUBSCRIBE and UNSUBSCRIBE handlers of
    [src/read_handle_server.c]. *)

From S2P Require Import Prelude Topic State Packet Database Subs Queue Contexts.
From stdpp Require Import options.

Definition CONNACK_ACCEPTED : Z := 0.
Definition CONNACK_REFUSED_PROTOCOL_VERSION : Z := 1.
Definition CONNACK_REFUSED_IDENTIFIER_REJECTED : Z := 2.
Definition CONNACK_REFUSED_SERVER_UNAVAILABLE : Z := 3.
Definition CONNACK_REFUSED_NOT_AUTHORIZED : Z := 5.

(** The [for] loop of [mqtt3_handle_publish] that renames what a bridge sends:
    the first inbound topic that applies and matches. *)
Fixpoint map_remote_topic (topics : list bridge_topic) (match_ : bool) (topic : string) : string :=
  match topics with
  | [] => topic
  | t :: topics' =>
    if bool_decide (bt_direction t = bd_both ∨ bt_direction t = bd_in)
       && bool_decide (is_Some (bt_remote_prefix t) ∨ is_Some (bt_local_prefix t)) then
      let m := mosquitto_topic_matches_sub (bt_remote_topic t) topic match_ in
      if m then remap_topic (bt_remote_prefix t) (bt_local_prefix t) topic
      else map_remote_topic topics' m topic
    else map_remote_topic topics' match_ topic
  end.

Definition publish_topic (c : mosquitto) (topic : string) : string :=
  match c_bridge c with
  | Some b => if b_topic_remapping b then map_remote_topic (b_topics b) false topic else topic
  | None => topic
  end.

(** ** Early returns *)

Section early_return.
Context `{Env}.

(** A reader of [&context->in_packet]. *)
Definition in_packet {A} (p : ctxid) (m : ST packet A) : ST world A := λ w,
  match w_ctxs w !! p with
  | Some c =>
    match m (c_in_packet c) with
    | Some (a, k) => Some (a, w <| w_ctxs ::= <[p := c <| c_in_packet := k |>]> |>)
    | None => None
    end
  | None => None
  end.

(** A call whose error code makes the caller return: [inl rc] is the
    [return rc], [inr a] goes on with [a]. *)
Definition and_then {A B} (m : ST world (Z + A)) (k : A → ST world (Z + B)) : ST world (Z + B) :=
  r ← m; match r with inl rc => mret (inl rc) | inr a => k a end.
Definition returned (m : ST world (Z + Z)) : ST world Z :=
  r ← m; mret (match r with inl rc => rc | inr rc => rc end).
(** [if(call(&x)) return rc]. *)
Definition or_return {A} (m : ST world (Z + A)) (rc : Z) : ST world (Z + A) :=
  r ← m; mret (match r with inl _ => inl rc | inr a => inr a end).
Definition return_if (b : bool) (rc : Z) : ST world (Z + ()) := mret (if b then inl rc else inr tt).
Definition liftM {A} (m : ST world A) : ST world (Z + A) := a ← m; mret (inr a).
End early_return.

Notation "x ←? m ; k" := (and_then m (λ x, k))
  (at level 20, m at level 100, k at level 200, right associativity).
Notation "m ;? k" := (and_then m (λ _ : unit, k)) (at level 100, k at level 200, right associativity).

Section handlers.
Context `{Env}.

(** ** [lib/read_handle_shared.c] *)

Definition _mosquitto_handle_pingreq (p : ctxid) : ST world Z := _mosquitto_send_pingresp p.

Definition _mosquitto_handle_pingresp (p : ctxid) : ST world Z :=
  ctx_upd p (λ c, c <| c_ping_t := 0 |>);; mret MOSQ_ERR_SUCCESS.

Definition _mosquitto_handle_pubackcomp (p : ctxid) : ST world Z :=
  returned (
    mid ←? in_packet p _mosquitto_read_uint16;
    liftM (if mid =? 0 then mret MOSQ_ERR_SUCCESS else mqtt3_db_message_delete p mid mosq_md_out)).

Definition _mosquitto_handle_pubrec (p : ctxid) : ST world Z :=
  returned (
    mid ←? in_packet p _mosquitto_read_uint16;
    rc ←? liftM (mqtt3_db_message_update p mid mosq_md_out mosq_ms_wait_for_pubcomp);
    return_if (negb (rc =? 0)) rc ;?
    liftM (_mosquitto_send_pubrel p mid false)).

(** [(mosq->in_packet.command & 0x0F) != flags] under MQTT 3.1.1. *)
Definition bad_flags (c : mosquitto) (flags : Z) : bool :=
  bool_decide (c_protocol c = mosq_p_mqtt311) && negb (Z.land (p_command (c_in_packet c)) 0x0F =? flags).

Definition _mosquitto_handle_pubrel (p : ctxid) : ST world Z :=
  returned (
    c ←? liftM (ctx_get p);
    return_if (bad_flags c 2) MOSQ_ERR_PROTOCOL ;?
    mid ←? in_packet p _mosquitto_read_uint16;
    liftM (mqtt3_db_message_release p mid mosq_md_in;; _mosquitto_send_pubcomp p mid)).

(** [granted] is the [granted_qos] array, of which [room] entries are free. *)
Fixpoint suback_loop (fuel : nat) (p : ctxid) (room : Z) (granted : list Z) : ST world (Z + list Z) :=
  c ← ctx_get p;
  if p_pos (c_in_packet c) <? p_remaining_length (c_in_packet c) then
    match fuel with
    | O => ub
    | S fuel' =>
      qos ←? in_packet p _mosquitto_read_byte;
      assert_ (0 <? room);;
      suback_loop fuel' p (room - 1) (granted ++ [qos])
    end
  else mret (inr granted).

Definition _mosquitto_handle_suback (p : ctxid) : ST world Z :=
  returned (
    mid ←? in_packet p _mosquitto_read_uint16;
    c ←? liftM (ctx_get p);
    let qos_count := p_remaining_length (c_in_packet c) - p_pos (c_in_packet c) in
    granted ←? suback_loop (Z.to_nat qos_count) p qos_count [];
    mret (inr MOSQ_ERR_SUCCESS)).

Definition _mosquitto_handle_unsuback (p : ctxid) : ST world Z :=
  returned (mid ←? in_packet p _mosquitto_read_uint16; mret (inr MOSQ_ERR_SUCCESS)).

(** ** PUBLISH *)

(** The message is not wanted: it is acknowledged and forgotten. *)
Definition process_bad_message (p : ctxid) (qos mid : Z) : ST world Z :=
  if qos =? 0 then mret MOSQ_ERR_SUCCESS
  else if qos =? 1 then _mosquitto_send_puback p mid
  else if qos =? 2 then
    found ← mqtt3_db_message_store_find p mid;
    res ← (match found with
           | Some _ => mret 0
           | None =>
             c ← ctx_get p;
             stored ← mqtt3_db_message_store (Some p) (c_id c) mid None qos 0 None 0 0;
             mqtt3_db_message_insert p mid mosq_md_in qos false stored
           end);
    if res =? 0 then _mosquitto_send_pubrec p mid else mret res
  else mret 1.

(** The [switch(qos)] on an accepted message. *)
Definition publish_accepted (p : ctxid) (topic : string) (qos mid retain : Z) (dup : bool) (stored : storeid)
    : ST world Z :=
  c ← ctx_get p;
  let fail (rc : Z) := if rc =? 0 then 0 else 1 in
  if qos =? 0 then
    rc ← mqtt3_db_messages_queue (c_id c) topic qos (negb (retain =? 0)) stored; mret (fail rc)
  else if qos =? 1 then
    rc ← mqtt3_db_messages_queue (c_id c) topic qos (negb (retain =? 0)) stored;
    rc' ← _mosquitto_send_puback p mid;
    mret (if rc' =? 0 then fail rc else 1)
  else if qos =? 2 then
    res ← (if dup then mret 0 else mqtt3_db_message_insert p mid mosq_md_in qos (negb (retain =? 0)) stored);
    if res =? 0 then rc ← _mosquitto_send_pubrec p mid; mret (fail rc)
    else mret (if res =? 1 then 1 else 0)
  else mret 0.

(** From the payload on: [rl - pos] bytes, a [uint32_t]. *)
Definition publish_payload (p : ctxid) (topic : string) (qos mid retain : Z) : ST world (Z + Z) :=
  c ← ctx_get p;
  limit ← gets (λ w, cfg_message_size_limit (w_config w));
  let payloadlen := u32 (p_remaining_length (c_in_packet c) - p_pos (c_in_packet c)) in
  if negb (payloadlen =? 0) && negb (limit =? 0) && (u32 limit <? payloadlen) then
    liftM (process_bad_message p qos mid)
  else
    payload ←? (if payloadlen =? 0 then mret (inr None)
                else bs ←? or_return (in_packet p (_mosquitto_read_bytes payloadlen)) 1; mret (inr (Some bs)));
    c ←? liftM (ctx_get p);
    allowed ←? liftM (ext (dxl_on_publish_message c topic (default [] payload)));
    if negb (allowed : bool) then liftM (process_bad_message p qos mid)
    else
      found ←? liftM (if 0 <? qos then mqtt3_db_message_store_find p mid else mret None);
      stored ←? liftM (match found with
                       | Some s => mret s
                       | None => mqtt3_db_message_store (Some p) (c_id c) mid (Some topic) qos payloadlen payload retain 0
                       end);
      liftM (publish_accepted p topic qos mid retain (bool_decide (is_Some found)) stored).

(** [mqtt3_handle_publish]: with [DXL], QoS 1 and 2 are dropped up front and
    the retain flag is cleared. *)
Definition mqtt3_handle_publish (p : ctxid) : ST world Z :=
  returned (
    c ←? liftM (ctx_get p);
    let qos := Z.shiftr (Z.land (p_command (c_in_packet c)) 0x06) 1 in
    return_if (qos =? 3) 1 ;?
    return_if (0 <? qos) MOSQ_ERR_SUCCESS ;?
    topic ←? or_return (in_packet p _mosquitto_read_string) 1;
    return_if (strlen topic =? 0) 1 ;?
    let topic := publish_topic c topic in
    return_if (negb (_mosquitto_topic_wildcard_len_check topic =? MOSQ_ERR_SUCCESS)) 1 ;?
    mid ←? (if 0 <? qos then or_return (in_packet p _mosquitto_read_uint16) 1 else mret (inr 0));
    publish_payload p topic qos mid 0).

(** ** CONNACK, on a bridge *)

Fixpoint connack_topics (p : ctxid) (topics : list bridge_topic) : ST world (Z + ()) :=
  match topics with
  | [] => mret (inr tt)
  | t :: topics' =>
    rc ← (if bool_decide (bt_direction t = bd_in ∨ bt_direction t = bd_both)
          then _mosquitto_send_subscribe p false (bt_remote_topic t) (bt_qos t)
          else _mosquitto_send_unsubscribe p false (bt_remote_topic t));
    if rc =? 0 then connack_topics p topics' else mret (inl 1)
  end.

Definition mqtt3_handle_connack (p : ctxid) : ST world Z :=
  returned (
    byte ←? or_return (in_packet p _mosquitto_read_byte) 1;
    rc ←? or_return (in_packet p _mosquitto_read_byte) 1;
    c ←? liftM (ctx_get p);
    if rc =? CONNACK_ACCEPTED then
      (match c_bridge c with
       | Some b =>
         liftM (if c_is_bridge c then ext_ (dxl_on_bridge_connected c) else mret tt) ;?
         connack_topics p (b_topics b)
       | None => mret (inr tt)
       end) ;?
      liftM (ctx_upd p (λ c, c <| c_state := mosq_cs_connected |>)) ;?
      mret (inr MOSQ_ERR_SUCCESS)
    else if rc =? CONNACK_REFUSED_PROTOCOL_VERSION then
      liftM (ctx_upd p (λ c, c <| c_bridge ::= fmap (λ b, b <| b_try_private_accepted := false |>) |>)) ;?
      mret (inr 1)
    else mret (inr 1)).

(** ** DISCONNECT, SUBSCRIBE, UNSUBSCRIBE *)

Definition mqtt3_handle_disconnect (p : ctxid) : ST world Z :=
  c ← ctx_get p;
  if negb (p_remaining_length (c_in_packet c) =? 0) then mret MOSQ_ERR_PROTOCOL
  else if bad_flags c 0 then mqtt3_context_disconnect p;; mret MOSQ_ERR_PROTOCOL
  else
    ctx_upd p (λ c, c <| c_state := mosq_cs_disconnecting |>);;
    mqtt3_context_disconnect p;;
    mret MOSQ_ERR_SUCCESS.

(** One topic filter of a SUBSCRIBE: the new [rc] and the granted QoS. *)
Definition subscribe_one (p : ctxid) (rc : Z) : ST world (Z + (Z * Z)) :=
  sub ←? or_return (in_packet p _mosquitto_read_string) 1;
  return_if (strlen sub =? 0) 1 ;?
  return_if (negb (_mosquitto_topic_wildcard_pos_check sub =? 0)) 1 ;?
  qos ←? or_return (in_packet p _mosquitto_read_byte) 1;
  return_if (2 <? qos) 1 ;?
  liftM (
    if qos =? 0x80 then mret (rc, qos)
    else
      rc2 ← mqtt3_sub_add p sub qos;
      if rc2 =? MOSQ_ERR_SUCCESS then
        rc3 ← mqtt3_retain_queue p sub qos; mret (if rc3 =? 0 then rc else 1, qos)
      else mret (if rc2 =? -1 then rc else rc2, qos)).

Fixpoint subscribe_loop (fuel : nat) (p : ctxid) (rc : Z) (payload : list Z) : ST world (Z + (Z * list Z)) :=
  c ← ctx_get p;
  if p_pos (c_in_packet c) <? p_remaining_length (c_in_packet c) then
    match fuel with
    | O => ub
    | S fuel' =>
      r ←? subscribe_one p rc;
      subscribe_loop fuel' p r.1 (payload ++ [r.2])
    end
  else mret (inr (rc, payload)).

Definition unread_bytes (c : mosquitto) : nat :=
  Z.to_nat (p_remaining_length (c_in_packet c) - p_pos (c_in_packet c)).

Definition mqtt3_handle_subscribe (p : ctxid) : ST world Z :=
  returned (
    c ←? liftM (ctx_get p);
    return_if (bad_flags c 2) MOSQ_ERR_PROTOCOL ;?
    mid ←? or_return (in_packet p _mosquitto_read_uint16) 1;
    c ←? liftM (ctx_get p);
    r ←? subscribe_loop (unread_bytes c) p 0 [];
    return_if (bool_decide (c_protocol c = mosq_p_mqtt311) && bool_decide (r.2 = [])) MOSQ_ERR_PROTOCOL ;?
    rc ←? liftM (_mosquitto_send_suback p mid r.2);
    mret (inr (if rc =? 0 then r.1 else 1))).

Definition unsubscribe_one (p : ctxid) : ST world (Z + ()) :=
  sub ←? or_return (in_packet p _mosquitto_read_string) 1;
  return_if (strlen sub =? 0) 1 ;?
  return_if (negb (_mosquitto_topic_wildcard_pos_check sub =? 0)) 1 ;?
  liftM (mqtt3_sub_remove p sub;; mret tt).

Fixpoint unsubscribe_loop (fuel : nat) (p : ctxid) : ST world (Z + ()) :=
  c ← ctx_get p;
  if p_pos (c_in_packet c) <? p_remaining_length (c_in_packet c) then
    match fuel with
    | O => ub
    | S fuel' => unsubscribe_one p ;? unsubscribe_loop fuel' p
    end
  else mret (inr tt).

Definition mqtt3_handle_unsubscribe (p : ctxid) : ST world Z :=
  returned (
    c ←? liftM (ctx_get p);
    return_if (bad_flags c 2) MOSQ_ERR_PROTOCOL ;?
    mid ←? or_return (in_packet p _mosquitto_read_uint16) 1;
    c ←? liftM (ctx_get p);
    unsubscribe_loop (unread_bytes c) p ;?
    liftM (_mosquitto_send_command_with_mid p UNSUBACK mid false)).
End handlers.
