(* ===== verification/HandlerProofs.v ===== *)
(** * The packet handlers

    Whatever bytes a client sends, the handlers stay within the packet and
    keep the broker's invariant; a PUBLISH of QoS 0 is stored and queued for
    its subscribers; a client above the connection limit is turned away. *)

From S2P Require Import Prelude Topic State Packet PacketProofs Writer Database DatabaseProofs StoreProofs.
From S2P Require Import Subs SubsProofs SubscribeProofs UnsubscribeProofs SubsClaims.
From S2P Require Import PublishProofs FanoutProofs Queue Contexts ContextProofs Handlers.
From stdpp Require Import options.

Section rules.
Context `{Env}.

Lemma wp_and_then {A B} (m : ST world (Z + A)) (k : A → ST world (Z + B)) (Q : Z + B → world → Prop) w :
  wp m (λ r w', match r with inl rc => Q (inl rc) w' | inr a => wp (k a) Q w' end) w → wp (and_then m k) Q w.
Proof. intros Hm. unfold and_then. wp_step. eapply wp_mono; [done|]. intros [rc|a] w' Hr; [by wp_step|done]. Qed.
Lemma wp_returned (m : ST world (Z + Z)) (Q : Z → world → Prop) w :
  wp m (λ r w', Q (match r with inl rc => rc | inr rc => rc end) w') w → wp (returned m) Q w.
Proof. intros Hm. unfold returned. wp_step. eapply wp_mono; [done|]. intros r w' Hr. by wp_step. Qed.
Lemma wp_or_return {A} (m : ST world (Z + A)) rc (Q : Z + A → world → Prop) w :
  wp m (λ r w', Q (match r with inl _ => inl rc | inr a => inr a end) w') w → wp (or_return m rc) Q w.
Proof. intros Hm. unfold or_return. wp_step. eapply wp_mono; [done|]. intros r w' Hr. by wp_step. Qed.
Lemma wp_liftM {A} (m : ST world A) (Q : Z + A → world → Prop) w :
  wp m (λ a w', Q (inr a) w') w → wp (liftM m) Q w.
Proof. intros Hm. unfold liftM. wp_step. eapply wp_mono; [done|]. intros r w' Hr. by wp_step. Qed.
Lemma wp_return_if (b : bool) rc (Q : Z + () → world → Prop) w :
  (b = true → Q (inl rc) w) → (b = false → Q (inr tt) w) → wp (return_if b rc) Q w.
Proof. intros H1 H2. unfold return_if. wp_step. destruct b; auto. Qed.

Lemma wp_in_packet {A} p (m : ST packet A) c w0 w (Q : A → world → Prop) : reached p c w0 w →
  wp m (λ a k, ∀ w', reached p (c <| c_in_packet := k |>) w0 w' → Q a w') (c_in_packet c) → wp (in_packet p m) Q w.
Proof.
  intros Hr Hm. pose proof (reached_lookup _ _ _ _ Hr) as Hc. apply wp_Some in Hm as (a & k & Hm & HQ).
  unfold wp, in_packet. rewrite Hc, Hm. apply HQ. destruct Hr as (Hb & Hreg & Hw). split_and!; [|done|].
  - etrans; [exact Hb|]. by eapply benign_upd.
  - cbn. by rewrite Hw, insert_insert_eq.
Qed.
End rules.

Section publish_handler.
Context `{Env}.

(** With DXL, a PUBLISH of QoS 1 or 2 is dropped. [mqtt3_handle_publish]
    returns success without reading the packet: nothing is stored, queued or
    acknowledged, and no state changes at all. *)
Theorem publish_qos12_dropped p w c :
  w_ctxs w !! p = Some c → Z.land (p_command (c_in_packet c)) 0x06 ∈ [2; 4] →
  mqtt3_handle_publish p w = Some (MOSQ_ERR_SUCCESS, w).
Proof.
  intros Hc Hq. unfold mqtt3_handle_publish, returned, and_then, liftM, ctx_get, deref, return_if, mbind, st_bind, mret, st_ret.
  rewrite Hc. rewrite !elem_of_cons in Hq. destruct Hq as [->|[->|Hq]]; [done|done|]. by apply not_elem_of_nil in Hq.
Qed.

(** The client as the reading of its packet leaves it. *)
Definition packet_read (c c' : mosquitto) : Prop := c' = c <| c_in_packet := c_in_packet c' |>.
Lemma packet_read_refl c : packet_read c c.
Proof. by destruct c. Qed.
Lemma packet_read_on c c' k : packet_read c c' → packet_read c (c' <| c_in_packet := k |>).
Proof. unfold packet_read. by intros ->. Qed.
(** Whoever could take the message got [n q] entries for it, at the end of its queue. *)
Definition delivered_all (source_id : string) (stored : storeid) (n : ctxid → nat) (w w' : world) : Prop :=
  ∀ q c, w_ctxs w !! q = Some c → ready w source_id c →
    ∃ c' extra, w_ctxs w' !! q = Some c' ∧ c_msgs c' = c_msgs c ++ extra ∧ length extra = n q ∧
      Forall (λ m, m_store m = stored ∧ m_state m = mosq_ms_publish_qos0) extra.
Lemma served_delivered p c0 c id stored n w0 w w' : w_ctxs w0 !! p = Some c0 → packet_read c0 c → w_ctxs w = <[p := c]> (w_ctxs w0) →
  w_max_packet_buffer_size w = w_max_packet_buffer_size w0 → served_all id stored n w w' → delivered_all id stored n w0 w'.
Proof.
  intros Hc0 Hread Hw Hmax Hsv q d Hd Hr. assert (∃ d1, w_ctxs w !! q = Some d1 ∧ packet_read d d1) as (d1 & Hd1 & Hread1).
  { rewrite Hw. destruct (decide (q = p)) as [->|Hne]; [rewrite lookup_insert_eq; exists c; split; [done|congruence]|rewrite lookup_insert_ne by done; exists d; split; [done|apply packet_read_refl]]. }
  destruct (Hsv q d1 Hd1) as (d' & extra & Hd' & (Hm & _) & Hl & HF).
  - unfold ready, is_context_invalid in *. rewrite Hmax, Hread1. exact Hr.
  - exists d', extra. split_and!; [done|by rewrite Hm, Hread1|done|done].
Qed.

(** What a PUBLISH leaves behind. *)
Definition published_as (p : ctxid) (c : mosquitto) (topic : string) (payload : list Z) (w w' : world) : Prop :=
  ∃ x w1 s bs paths, w_stores w !! x = None ∧ broker_ok w1 ∧ w_subs w1 = w_subs w ∧
    w_stores w1 = <[x := s]> (w_stores w) ∧ published (c_id c) 0 (Some topic) 0 bs 0 s ∧
    (bs = payload ∨ ∃ c m e, fst (dxl_on_store_message c m e) = Some bs) ∧
    NoDup paths ∧ (∀ sub, subscribers w sub ≠ [] → filter_path sub ∈ paths ↔ topic_match sub topic) ∧
    grown x (due w paths) w1 w' ∧
    ∀ id, c_id c = Some id → approving → cfg_upgrade_outgoing_qos (w_config w) = false → delivered_all id x (due w paths) w w'.

(** From the payload on. *)
Lemma publish_payload_spec p c0 c w0 w topic l : broker_ok w0 → w_ctxs w0 !! p = Some c0 → packet_read c0 c → reached p c w0 w → unread (c_in_packet c) l →
  _mosquitto_topic_wildcard_len_check topic = MOSQ_ERR_SUCCESS →
  wp (publish_payload p topic 0 0 0) (λ r w', broker_ok w' ∧ registry w' = registry w0 ∧
    ((∀ c' e, (dxl_on_publish_message c' topic l e).1 = true) →
     (cfg_message_size_limit (w_config w0) = 0 ∨ Z.of_nat (length l) <= u32 (cfg_message_size_limit (w_config w0))) →
     r = inr 0 ∧ published_as p c topic l w0 w')) w.
Proof.
  intros Hok0 Hc0 Hread Hr Hu Htopic. unfold publish_payload. wp_step. eapply wp_reached_get; [done|]. do 2 wp_step. cbv zeta.
  assert (∀ w', reached p c w0 w' → broker_ok w' ∧ registry w' = registry w0) as Hbase.
  { intros w' (Hb & Hreg & _). split; [by eapply benign_ok|done]. }
  assert (w_config w = w_config w0) as Hcfg by (destruct Hr as (_ & Hreg & _); unfold registry in Hreg; congruence).
  rewrite Hcfg. pose proof (unread_length _ _ Hu) as Hlen.
  assert (0 <= Z.of_nat (length l) < 2 ^ 28) as Hbound.
  { destruct Hu as (pre & _ & _ & Hrl & Hlt). rewrite length_app in Hrl. lia. }
  rewrite <-Hlen, u32_id by lia. set (limit := cfg_message_size_limit (w_config w0)).
  destruct (_ && _ && _) eqn:Hbig.
  { apply wp_liftM. change (process_bad_message p 0 0) with (mret MOSQ_ERR_SUCCESS : ST world Z). wp_step. destruct (Hbase _ Hr). split_and!; [done..|]. intros _ Hlim. exfalso.
    destruct (Z.eqb_spec limit 0); [by rewrite andb_false_r in Hbig|]. destruct Hlim as [?|Hlim]; [done|].
    destruct (Z.ltb_spec (u32 limit) (Z.of_nat (length l))); [lia|]. by rewrite andb_false_r in Hbig. }
  clear Hbig. apply wp_and_then.
  eapply (wp_mono _ (λ r w1, ∃ payload c1, r = inr payload ∧ reached p c1 w0 w1 ∧ (c_id c1 = c_id c ∧ packet_read c0 c1) ∧
    payload_bytes (Z.of_nat (length l)) payload l ∧ default [] payload = l)).
  { destruct (Z.eqb_spec (Z.of_nat (length l)) 0) as [Hz|Hz].
    - wp_step. exists None, c. destruct l; [|done]. split_and!; try done. split; [done|by right].
    - apply wp_and_then, wp_or_return. eapply wp_in_packet; [done|]. eapply wp_run.
      { rewrite (read_bytes_spec _ l) by (done || lia). by rewrite Z.ltb_irrefl, Nat2Z.id, firstn_all. }
      intros w1 Hr1. cbv beta iota. wp_step.
      eexists (Some l), _. split_and!; [done|exact Hr1|done|by apply packet_read_on| |done]. by split; [|left]. }
  intros r w1 (payload & c1 & -> & Hr1 & [Hid Hread1] & Hpb & Hdef). apply wp_and_then, wp_liftM. eapply wp_reached_get; [done|].
  apply wp_and_then, wp_liftM.
  eapply wp_reached_ext_eq; [done|]. intros allowed w2 Hr2 Hallowed. rewrite Hdef in Hallowed.
  assert (broker_ok w2 ∧ registry w2 = registry w0) as [Hok2 Hreg2] by (destruct Hr2 as (Hb & ? & _); split; [by eapply benign_ok|done]).
  destruct allowed; cbn [negb].
  2:{ apply wp_liftM. change (process_bad_message p 0 0) with (mret MOSQ_ERR_SUCCESS : ST world Z). wp_step. split; [done|]. split; [done|]. intros Hall _. specialize (Hall c1 (w_env w1)). congruence. }
  apply wp_and_then, wp_liftM. cbn [Z.ltb Z.compare]. wp_step. apply wp_and_then, wp_liftM.
  eapply wp_mono; [apply (message_store_spec (Some p) _ _ _ _ _ _ l); [apply Hok2|done|eexists; by eapply reached_lookup]|].
  intros x w3 (Hx & Hdb3 & Hfr & s & bs & Hs & Hpub & Hbs). pose proof (stored_ok _ _ Hfr Hdb3 Hok2) as Hok3.
  assert (w_ctxs w3 = w_ctxs w2 ∧ registry w3 = registry w2) as [Hctx3 Hreg3] by (destruct Hfr as (?&?&?&?&?&->); done).
  assert (w_subs w3 = w_subs w0) as Hsub3 by (unfold registry in *; congruence).
  cbn beta. apply wp_liftM. unfold publish_accepted. wp_step.
  eapply wp_ctx_get; [rewrite Hctx3; by eapply reached_lookup|]. cbv beta zeta. cbn [Z.eqb negb]. wp_step.
  assert (is_Some (w_stores w3 !! x)) as Hsx by (rewrite Hs, lookup_insert_eq; by eexists).
  destruct (queue_serves (c_id c1) topic x w3) as (paths & Hnd & Hm & Hwp); [apply Hok3..|done|done|].
  eapply wp_mono; [exact Hwp|]. intros rc w4 (-> & Hg & Hsv). wp_step. split_and!.
  - by eapply grown_ok.
  - destruct Hg as (_ & (?&?&?&?&->) & _). unfold registry in *. cbn. congruence.
  - intros _ _. split; [done|]. exists x, w3, s, bs, paths. pose proof Hr2 as ((Hst2 & _) & _).
    split_and!; [congruence|done|done|congruence|by rewrite <-Hid|done|done| | |].
    + intros sub. unfold subscribers in *. rewrite <-Hsub3. apply Hm.
    + unfold due in *. rewrite <-Hsub3. exact Hg.
    + intros id Hsrc Happ Hup. assert (w_config w3 = w_config w0 ∧ w_max_packet_buffer_size w3 = w_max_packet_buffer_size w0) as [Hcfg3 Hmax3] by (unfold registry in *; split; congruence).
      apply (served_delivered p c0 c1 id x _ w0 w3); [done|done|destruct Hr2 as (_ & _ & Hw2); congruence|done|]. unfold due in *. rewrite <-Hsub3. apply Hsv; congruence.
Qed.

(** No PUBLISH packet can break the broker. For any content of the packet,
    however malformed, [mqtt3_handle_publish] returns, reads nothing outside
    the packet and no dangling pointer, and leaves the invariant of the broker,
    its client registry and its subscriptions intact. *)
Theorem handle_publish_safe p w c l :
  broker_ok w → w_ctxs w !! p = Some c → unread (c_in_packet c) l →
  wp (mqtt3_handle_publish p) (λ _ w', broker_ok w' ∧ registry w' = registry w) w.
Proof.
  intros Hok Hc Hu. unfold mqtt3_handle_publish. apply wp_returned, wp_and_then, wp_liftM. eapply wp_ctx_get; [done|].
  cbv zeta. set (qos := Z.shiftr _ 1). apply wp_and_then, wp_return_if; [done|]. intros _.
  apply wp_and_then, wp_return_if; [done|]. intros Hq. apply wp_and_then, wp_or_return.
  eapply wp_in_packet; [by apply reached_refl|]. eapply wp_mono; [by eapply read_string_safe|].
  intros r k ((l' & Hu') & _) w1 Hr1. destruct Hr1 as (Hb1 & Hreg1 & Hw1).
  pose proof (benign_ok _ _ Hb1 Hok) as Hok1. destruct r as [rc|topic]; [done|]. apply wp_and_then, wp_return_if; [done|].
  intros _. apply wp_and_then, wp_return_if; [done|]. intros Hlen. apply negb_false_iff, Z.eqb_eq in Hlen.
  rewrite Hq. apply wp_and_then. wp_step. assert (qos = 0) as ->.
  { apply Z.ltb_ge in Hq. assert (0 <= qos); [|lia]. apply Z.shiftr_nonneg, Z.land_nonneg. lia. }
  eapply wp_mono; [eapply publish_payload_spec; [exact Hok|exact Hc|by apply packet_read_on, packet_read_refl|by split_and!|exact Hu'|done]|].
  by intros r w2 (Hok2 & Hreg2 & _).
Qed.

(** C3: a PUBLISH of QoS 0 is stored and queued for its subscribers. When the
    packet holds a topic name and a payload within the size limit, and the
    broker library allows the publication, [mqtt3_handle_publish] returns 0;
    the message is stored under the topic (as the bridge mapping renames it)
    and queued for no client more often than its filters match it; and, if the library
    lets the message into the queues, its QoS is not upgraded and the publisher has an
    identifier, exactly one entry for each matching filter is appended to the queue of
    every connected client with room in its output buffer, other than the bridge that it
    came from. *)
Theorem handle_publish_delivers p w c topic payload :
  broker_ok w → w_ctxs w !! p = Some c → Z.land (p_command (c_in_packet c)) 0x06 = 0 →
  unread (c_in_packet c) (publish_body 0 topic payload 0) → topic ≠ "" → strlen topic < 65536 →
  has_char nul topic = false →
  _mosquitto_topic_wildcard_len_check (publish_topic c topic) = MOSQ_ERR_SUCCESS →
  (∀ c' e, (dxl_on_publish_message c' (publish_topic c topic) payload e).1 = true) →
  (cfg_message_size_limit (w_config w) = 0 ∨ Z.of_nat (length payload) <= u32 (cfg_message_size_limit (w_config w))) →
  wp (mqtt3_handle_publish p) (λ rc w', rc = 0 ∧ broker_ok w' ∧ published_as p c (publish_topic c topic) payload w w') w.
Proof.
  intros Hok Hc Hq Hu Hne Hlt Hnul Hlen Happ Hlim. unfold publish_body in Hu. cbn [Z.ltb Z.compare app] in Hu.
  destruct (read_string_back _ _ _ Hu Hlt Hnul) as (k & Hread & Hu' & _).
  unfold mqtt3_handle_publish. apply wp_returned, wp_and_then, wp_liftM. eapply wp_ctx_get; [done|]. cbv zeta.
  rewrite Hq. change (Z.shiftr 0 1) with 0. apply wp_and_then, wp_return_if; [done|]. intros _.
  apply wp_and_then, wp_return_if; [done|]. intros _. apply wp_and_then, wp_or_return.
  eapply wp_in_packet; [by apply reached_refl|]. eapply wp_run; [exact Hread|]. intros w1 Hr1. cbv beta iota.
  apply wp_and_then, wp_return_if.
  { intros Hz. exfalso. apply Hne. destruct topic as [|ch topic]; [done|]. rewrite strlen_cons in Hz.
    pose proof (strlen_nonneg topic). apply Z.eqb_eq in Hz. lia. }
  intros _. apply wp_and_then, wp_return_if; [by rewrite Hlen|]. intros _. apply wp_and_then. cbn [Z.ltb Z.compare]. wp_step.
  eapply wp_mono; [eapply publish_payload_spec; [exact Hok|exact Hc|by apply packet_read_on, packet_read_refl|exact Hr1|exact Hu'|exact Hlen]|].
  intros r w2 (Hok2 & _ & Hpub). by destruct (Hpub Happ Hlim) as [-> ?].
Qed.
End publish_handler.

(** ** UNSUBSCRIBE *)

Section unsubscribe_handler.
Context `{Env}.

(** Unsubscribing keeps the invariant; the client is the same up to its count
    of subscriptions. *)
Lemma sub_remove_ok p sub w c : broker_ok w → w_ctxs w !! p = Some c →
  wp (mqtt3_sub_remove p sub) (λ _ w', broker_ok w' ∧ ∃ n,
    w_ctxs w' = <[p := c <| c_subscription_count := n |>]> (w_ctxs w)) w.
Proof.
  intros Hok Hc. pose proof Hok as [Hdb Htree Hg Hroot]. eapply wp_mono; [by eapply sub_remove_spec|].
  intros rc w' (_ & h & Hw & Hwf & Hl). pose proof Htree as [_ Hlive].
  assert (∃ n, w_ctxs w' = <[p := c <| c_subscription_count := n |>]> (w_ctxs w)) as [n Hn].
  { subst w'. unfold remove_effect. destruct (drop_leaf p _); [by eexists|]. exists (c_subscription_count c). cbn.
    rewrite insert_id; [done|]. rewrite Hc. by destruct c. }
  split; [|by exists n]. split.
  - eapply (db_ok_same w w' p c); [done|done|exact Hn|..]; try done; subst w'; unfold remove_effect; by destruct (drop_leaf p _).
  - split; [by subst w'|]. eapply same_ids_live; [by eapply (client_id_insert w w' p c)|]. intros path. subst w'. cbn. rewrite Hl.
    case_decide; [|apply Hlive]. unfold without. destruct (drop_leaf p (subscribers w sub)) eqn:Hd; [|apply Hlive].
    by eapply drop_leaf_live; [|apply Hlive].
  - intros path. subst w'. cbn. rewrite Hl. case_decide; [|apply Hg]. unfold without.
    destruct (drop_leaf p (subscribers w sub)) as [l|] eqn:Hd; [|apply Hg].
    assert (∀ leaves l, drop_leaf p leaves = Some l → Forall (λ leaf, 0 <= l_qos leaf <= 2) leaves →
      Forall (λ leaf, 0 <= l_qos leaf <= 2) l) as Hdrop.
    { clear. induction leaves as [|x leaves IH]; intros l Hd HF; [done|]. apply Forall_cons in HF as [Hx HF]. cbn in Hd.
      case_decide; [by simplify_eq|]. destruct (drop_leaf p leaves) as [l'|]; [|done]. cbn in Hd. simplify_eq.
      constructor; [done|by apply IH]. }
    by eapply Hdrop; [|apply Hg].
  - subst w'. change (leaves_at [] h = []). rewrite Hl, decide_False; [done|]. unfold filter_path. done.
Qed.

Lemma read_string_progress k l : unread k l →
  wp _mosquitto_read_string (λ r k', ∀ topic, r = inr topic → p_pos k + 2 <= p_pos k') k.
Proof.
  intros Hu. unfold wp. rewrite (read_string_spec k l) by done. destruct l as [|a [|b l]]; [done|done|]. cbv zeta.
  destruct (Z.ltb_spec (Z.of_nat (length l)) (u16 (Z.shiftl a 8 + b))); [done|]. intros topic _. unfold moved. cbn.
  pose proof (u16_bound (Z.shiftl a 8 + b)). lia.
Qed.

Lemma unsubscribe_loop_safe fuel p w c l : broker_ok w → w_ctxs w !! p = Some c → unread (c_in_packet c) l →
  (length l <= fuel)%nat →
  wp (unsubscribe_loop fuel p) (λ _ w', broker_ok w' ∧ ∃ n k,
    w_ctxs w' !! p = Some (c <| c_subscription_count := n |> <| c_in_packet := k |>)) w.
Proof.
  revert w c l. induction fuel as [|fuel IH]; intros w c l Hok Hc Hu Hf; cbn [unsubscribe_loop]; wp_step;
    (eapply wp_ctx_get; [done|]); cbv beta; pose proof (unread_length _ _ Hu) as Hl.
  all: assert (w_ctxs w !! p = Some (c <| c_subscription_count := c_subscription_count c |> <| c_in_packet := c_in_packet c |>)) as Hc'
    by (rewrite Hc; by destruct c).
  - destruct (Z.ltb_spec (p_pos (c_in_packet c)) (p_remaining_length (c_in_packet c))); [lia|]. wp_step. eauto.
  - destruct (Z.ltb_spec (p_pos (c_in_packet c)) (p_remaining_length (c_in_packet c))); [|wp_step; eauto].
    apply wp_and_then. unfold unsubscribe_one. apply wp_and_then, wp_or_return.
    eapply wp_in_packet; [by apply reached_refl|]. eapply wp_mono; [eapply wp_and; [by eapply read_string_safe|by eapply read_string_progress]|].
    intros r k [((l' & Hu') & Hk & _) Hprog] w1 Hr1. pose proof (reached_lookup _ _ _ _ Hr1) as Hc1.
    pose proof (benign_ok _ _ (proj1 Hr1) Hok) as Hok1.
    assert (∃ n k', w_ctxs w1 !! p = Some (c <| c_subscription_count := n |> <| c_in_packet := k' |>)) as Hback.
    { exists (c_subscription_count c), k. rewrite Hc1. by destruct c. }
    destruct r as [rc|sub]; [done|]. apply wp_and_then, wp_return_if; [done|]. intros _.
    apply wp_and_then, wp_return_if; [done|]. intros _. apply wp_liftM. wp_step.
    eapply wp_mono; [by eapply sub_remove_ok|]. intros rc w2 (Hok2 & n & Hw2). wp_step.
    assert (w_ctxs w2 !! p = Some (c <| c_in_packet := k |> <| c_subscription_count := n |>)) as Hc2 by (rewrite Hw2; apply lookup_insert_eq).
    eapply wp_mono; [eapply (IH w2 _ l' Hok2 Hc2 Hu')|].
    + specialize (Hprog sub eq_refl). pose proof (unread_length _ _ Hu') as Hl'.
      apply (f_equal p_remaining_length) in Hk. cbn in Hk, Hprog. lia.
    + intros r w3 (Hok3 & n3 & k3 & Hc3). split; [done|]. exists n3, k3. rewrite Hc3. by destruct c.
Qed.

(** What a sender changes does not matter to the invariant. *)
Lemma sends_reached `{!EnvLaws} p command body w0 w c rc w' : reached p c w0 w → sends p command body w c rc w' →
  ∃ c', reached p c' w0 w' ∧ out_only c c'.
Proof.
  intros Hr [(c' & ((e & ->) & Ho & _) & _)|(_ & -> & _)]; [|exists c; split; [done|apply out_only_refl]].
  exists c'. split; [|done]. pose proof (reached_lookup _ _ _ _ Hr) as Hc. destruct Hr as (Hb & Hreg & Hw). split_and!.
  - etrans; [exact Hb|]. etrans; [|apply benign_env]. eapply benign_upd; [done|]. unfold out_only in Ho. unfold ctx_core. by rewrite <-Ho.
  - done.
  - cbn. by rewrite Hw, insert_insert_eq.
Qed.

(** The broker is in order, and can go on sending to [p]. *)
Definition in_service (p : ctxid) (w : world) : Prop := broker_ok w ∧ ∃ c, w_ctxs w !! p = Some c ∧ out_wf c.
Lemma reached_in_service p c w0 w : broker_ok w0 → reached p c w0 w → out_wf c → in_service p w.
Proof. intros Hok Hr Hwf. split; [by eapply benign_ok; [apply Hr|]|]. exists c. split; [by eapply reached_lookup|done]. Qed.
Lemma sends_in_service `{!EnvLaws} p command body w c rc w' : broker_ok w → w_ctxs w !! p = Some c → out_wf c →
  sends p command body w c rc w' → in_service p w'.
Proof.
  intros Hok Hc Hwf Hs. destruct (sends_reached _ _ _ w _ _ _ _ (reached_refl _ _ _ Hc) Hs) as (c' & Hr & _).
  split; [by eapply benign_ok; [apply Hr|]|]. exists c'. split; [by eapply reached_lookup|].
  destruct Hs as [(c2 & ((e & ->) & _) & Hwf2)|(_ & -> & _)].
  - pose proof (reached_lookup _ _ _ _ Hr) as Hc'. cbn in Hc'. rewrite lookup_insert_eq in Hc'. by simplify_eq.
  - pose proof (reached_lookup _ _ _ _ Hr) as Hc'. by simplify_eq.
Qed.

(** No UNSUBSCRIBE packet can break the broker. For any content of the
    packet, [mqtt3_handle_unsubscribe] terminates, reads nothing outside the packet
    and leaves the invariant of the broker intact. *)
Theorem handle_unsubscribe_safe `{!EnvLaws} p w c l :
  broker_ok w → w_ctxs w !! p = Some c → unread (c_in_packet c) l → out_wf c → c_packet_count c + 1 < 2 ^ 64 →
  wp (mqtt3_handle_unsubscribe p) (λ _ w', in_service p w') w.
Proof.
  intros Hok Hc Hu Hwf Hroom. unfold mqtt3_handle_unsubscribe. apply wp_returned, wp_and_then, wp_liftM.
  eapply wp_ctx_get; [done|]. apply wp_and_then, wp_return_if; [by split; [|eexists]|]. intros _. apply wp_and_then, wp_or_return.
  eapply wp_in_packet; [by apply reached_refl|]. eapply wp_mono; [by eapply read_uint16_safe|].
  intros r k ((l' & Hu') & _) w1 Hr1. pose proof (benign_ok _ _ (proj1 Hr1) Hok) as Hok1.
  destruct r as [rc|mid]; [by apply (reached_in_service _ _ _ _ Hok Hr1)|]. pose proof (reached_lookup _ _ _ _ Hr1) as Hc1. apply wp_and_then, wp_liftM.
  eapply wp_ctx_get; [done|]. apply wp_and_then. eapply wp_mono; [eapply (unsubscribe_loop_safe _ p w1 _ l'); [done..|]|].
  { pose proof (unread_length _ _ Hu') as Hl'. unfold unread_bytes. cbn. lia. }
  intros r w2 (Hok2 & n & k2 & Hc2). destruct r as [rc|[]]; [by split; [|eexists]|]. apply wp_liftM.
  eapply wp_mono; [eapply (send_command_with_mid_spec p UNSUBACK mid false w2); [exact Hc2|exact Hwf|exact Hroom]|].
  intros rc w3 Hs. by eapply (sends_in_service p _ _ w2).
Qed.
End unsubscribe_handler.
