(* ===== verification/SubscribeHandlerProofs.v ===== *)
(** * SUBSCRIBE

    The handler of SUBSCRIBE packets on arbitrary input: it terminates, reads
    nothing outside the packet and keeps the broker's invariant. Retained
    messages are never stored, so that queueing them is without effect. *)

From S2P Require Import Prelude Topic State Packet PacketProofs Writer Database DatabaseProofs StoreProofs.
From S2P Require Import Subs SubsProofs SubscribeProofs UnsubscribeProofs SubsClaims.
From S2P Require Import PublishProofs Queue Contexts ContextProofs Handlers HandlerProofs.
From stdpp Require Import options.

Section retained.
Context `{Env}.

Lemma retain_branch_none h p qos w : wf_tree h → retain_branch h p qos w = Some (tt, w).
Proof. intros Hwf. unfold retain_branch. by rewrite (wf_retained _ Hwf). Qed.

(** No node holds a retained message, so that the search finds none. *)
Lemma retain_search_none p qos w h : wf_tree h → ∀ tokens level, tokens ≠ [] →
  ∃ r, _retain_search h tokens p qos level w = Some (r, w).
Proof.
  induction h as [h IH] using subhier_tree_ind. intros Hwf tokens level Hne. pose proof (wf_children _ Hwf) as Hch.
  destruct h as [topic subs retained children hash pound plus]. cbn [h_children] in *. clear Hwf. cbn [_retain_search h_children].
  match goal with |- ∃ r, ?f children 0 w = _ =>
    cut (∀ flag, ∃ r, f children flag w = Some (r, w)); [intros Hall; apply Hall|] end.
  induction children as [|b l IHl]; intros flag; [by eexists|]. apply Forall_cons in IH as [IHb IH]. apply Forall_cons in Hch as [Hb Hch].
  destruct tokens as [|t tokens]; [done|]. specialize (IHl IH Hch). unfold mbind, st_bind in *.
  destruct (String.eqb t "#" && bool_decide (tokens = [])).
  { rewrite retain_branch_none by done. destruct (h_children b); [apply IHl|].
    destruct (IHb Hb (t :: tokens) (level + 1) ltac:(done)) as [r ->]. apply IHl. }
  destruct (negb _ && _); [|apply IHl]. destruct tokens as [|t' tokens].
  { rewrite retain_branch_none by done. apply IHl. }
  destruct (IHb Hb (t' :: tokens) (level + 1) ltac:(done)) as [r ->].
  destruct (_ || _); [rewrite retain_branch_none by done|]; apply IHl.
Qed.

Lemma retain_queue_none p sub qos w : tree_ok w → mqtt3_retain_queue p sub qos w = Some (MOSQ_ERR_SUCCESS, w).
Proof.
  intros [Hwf _]. unfold mqtt3_retain_queue. cbv zeta. destruct (tokenise_cons sub) as (t & ts & ->).
  change (default "" (head (t :: ts))) with t. unfold gets, mbind, st_bind.
  destruct (List.find _ (h_children (w_subs w))) as [s|] eqn:Hf; [|done]. apply find_some in Hf as [Hin _].
  apply list_elem_of_In in Hin. pose proof (proj1 (Forall_forall _ _) (wf_children _ Hwf) s Hin) as Hs.
  by destruct (retain_search_none p qos w s Hs (t :: ts) 0 ltac:(done)) as [r ->].
Qed.
End retained.

Section subscribe_handler.
Context `{Env}.

(** The packet holds bytes. *)
Definition octets (k : packet) : Prop := Forall (λ b, 0 <= b < 256) (default [] (p_payload k)).

Lemma octets_unread k l : octets k → unread k l → Forall (λ b, 0 <= b < 256) l.
Proof.
  intros Ho (pre & [Hp|[_ Hnil]] & _).
  - unfold octets in Ho. rewrite Hp in Ho. by apply Forall_app in Ho as [_ ?].
  - apply app_eq_nil in Hnil as [_ ->]. constructor.
Qed.

(** What a successful read guarantees about the packet behind it. *)
Definition read_on (k k' : packet) : Prop :=
  (∃ l, unread k' l) ∧ p_remaining_length k' = p_remaining_length k ∧ p_pos k <= p_pos k' ∧ (octets k → octets k').

Lemma read_ok_on {A} k (r : Z + A) k' : read_ok k r k' → read_on k k'.
Proof.
  intros (Hu & Hk & Hp & _). split_and!; [done|by rewrite <-Hk|done|]. unfold octets. by rewrite <-Hk at 1.
Qed.
Lemma read_on_trans k1 k2 k3 : read_on k1 k2 → read_on k2 k3 → read_on k1 k3.
Proof. intros (_ & ? & ? & ?) (? & ? & ? & ?). split_and!; [done|congruence|lia|auto]. Qed.

Lemma read_byte_value k l : unread k l → octets k →
  wp _mosquitto_read_byte (λ r k', read_ok k r k' ∧ ∀ b, r = inr b → 0 <= b < 256) k.
Proof.
  intros Hu Ho. apply wp_and; [by eapply read_byte_safe|]. unfold wp. rewrite (read_byte_spec k l) by done.
  pose proof (octets_unread _ _ Ho Hu) as Hl. destruct l as [|b l]; [done|]. intros ? [= <-]. by apply Forall_cons in Hl as [? _].
Qed.

(** Subscribing keeps the invariant. *)
Lemma sub_add_ok p sub qos w c id : broker_ok w → _mosquitto_topic_wildcard_pos_check sub = MOSQ_ERR_SUCCESS →
  w_ctxs w !! p = Some c → c_id c = Some id → 0 <= qos <= 2 →
  wp (mqtt3_sub_add p sub qos) (λ _ w', broker_ok w' ∧ ∃ n,
    w_ctxs w' = <[p := c <| c_subscription_count := n |>]> (w_ctxs w)) w.
Proof.
  intros Hok Hval%pos_check_valid Hc Hid Hq. pose proof Hok as [Hdb Htree Hg Hroot].
  eapply wp_mono; [by eapply sub_add_spec|]. intros rc w' Hs.
  assert (∃ n, w_ctxs w' = <[p := c <| c_subscription_count := n |>]> (w_ctxs w)) as [n Hn].
  { assert (<[p := c <| c_subscription_count := c_subscription_count c |>]> (w_ctxs w) = w_ctxs w) as Hsame.
    { rewrite insert_id; [done|]. rewrite Hc. by destruct c. }
    destruct Hs as [_ [(_ & _ & _ & h & e & ->)|(_ & _ & h & e & _ & ->)]]; [by exists (c_subscription_count c)|].
    cbv zeta. destruct (has_leaf _ _ _); [by exists (c_subscription_count c)|by eexists]. }
  split; [|by exists n]. split.
  - eapply (db_ok_same w w' p c); [done|done|exact Hn|..]; try done;
      (destruct Hs as [_ [(_ & _ & _ & h & e & ->)|(_ & _ & h & e & _ & ->)]]; [done|]; cbv zeta; by destruct (has_leaf _ _ _)).
  - by eapply subscribed_tree_ok.
  - by eapply subscribed_granted.
  - rewrite <-Hroot. destruct Hs as [_ [(_ & _ & Hl & _)|(_ & Hl & _)]]; rewrite Hl; [done|].
    by rewrite decide_False by (unfold filter_path; done).
Qed.

(** The client between two filters of a SUBSCRIBE. *)
Definition same_client (c c' : mosquitto) : Prop :=
  ∃ n k, c' = c <| c_subscription_count := n |> <| c_in_packet := k |>.
Lemma same_client_refl c : same_client c c.
Proof. exists (c_subscription_count c), (c_in_packet c). by destruct c. Qed.
Lemma same_client_trans c1 c2 c3 : same_client c1 c2 → same_client c2 c3 → same_client c1 c3.
Proof. intros (?&?&->) (n&k&->). by exists n, k. Qed.

Lemma subscribe_one_safe p rc w c id l : broker_ok w → w_ctxs w !! p = Some c → c_id c = Some id →
  unread (c_in_packet c) l → octets (c_in_packet c) →
  wp (subscribe_one p rc) (λ r w', broker_ok w' ∧ ∃ c', w_ctxs w' !! p = Some c' ∧ same_client c c' ∧
    read_on (c_in_packet c) (c_in_packet c') ∧
    (∀ a, r = inr a → p_pos (c_in_packet c) + 2 <= p_pos (c_in_packet c'))) w.
Proof.
  intros Hok Hc Hid Hu Ho. unfold subscribe_one. apply wp_and_then, wp_or_return.
  eapply wp_in_packet; [by apply reached_refl|]. eapply wp_mono; [eapply wp_and; [by eapply read_string_safe|by eapply read_string_progress]|].
  intros r k [Hr Hprog] w1 Hr1. pose proof (read_ok_on _ _ _ Hr) as Hon. pose proof (reached_lookup _ _ _ _ Hr1) as Hc1.
  pose proof (benign_ok _ _ (proj1 Hr1) Hok) as Hok1.
  assert (same_client c (c <| c_in_packet := k |>)) as Hsc by (exists (c_subscription_count c), k; by destruct c).
  destruct r as [rc1|sub]; [by split; [|eexists; split_and!]|]. apply wp_and_then, wp_return_if; [by split; [|eexists; split_and!]|].
  intros _. apply wp_and_then, wp_return_if; [by split; [|eexists; split_and!]|]. intros Hval.
  apply negb_false_iff, Z.eqb_eq in Hval. apply wp_and_then, wp_or_return.
  destruct Hon as ((l1 & Hu1) & Hrest). pose proof (proj2 (proj2 Hrest) Ho) as Ho1.
  eapply wp_in_packet; [by apply reached_refl|]. eapply wp_mono; [by eapply read_byte_value|].
  intros r k2 [Hrb Hval2] w2 Hr2. pose proof (read_ok_on _ _ _ Hrb) as Hon2. pose proof (reached_lookup _ _ _ _ Hr2) as Hc2.
  pose proof (benign_ok _ _ (proj1 Hr2) Hok1) as Hok2.
  assert (read_on (c_in_packet c) k2) as Hon'. { eapply read_on_trans; [|exact Hon2]. split; [by exists l1|exact Hrest]. }
  assert (same_client c (c <| c_in_packet := k2 |>)) as Hsc2 by (exists (c_subscription_count c), k2; by destruct c).
  assert (p_pos (c_in_packet c) + 2 <= p_pos k2) as Hpos.
  { specialize (Hprog sub eq_refl). destruct Hon2 as (_ & _ & Hp2 & _). cbn in Hp2. lia. }
  destruct r as [rc2|qos]; [by split; [|eexists; split_and!]|]. apply wp_and_then, wp_return_if; [by split; [|eexists; split_and!]|].
  intros Hq. apply Z.ltb_ge in Hq. specialize (Hval2 qos eq_refl). apply wp_liftM.
  destruct (qos =? 128); [wp_step; by split; [|eexists; split_and!]|]. wp_step.
  eapply wp_mono; [eapply (sub_add_ok p sub qos w2 _ id Hok2 Hval Hc2 Hid); lia|]. intros rc2 w3 (Hok3 & n & Hw3).
  assert (∀ a : Z * Z, broker_ok w3 ∧ ∃ c', w_ctxs w3 !! p = Some c' ∧ same_client c c' ∧ read_on (c_in_packet c) (c_in_packet c') ∧
    (∀ b : Z * Z, @inr Z (Z * Z) a = inr b → p_pos (c_in_packet c) + 2 <= p_pos (c_in_packet c'))) as Hfin.
  { intros a. split; [done|]. eexists. split; [rewrite Hw3; apply lookup_insert_eq|]. split_and!; [|done|done]. by exists n, k2. }
  destruct (rc2 =? MOSQ_ERR_SUCCESS).
  - wp_step. eapply wp_run; [apply retain_queue_none, Hok3|]. wp_step. apply Hfin.
  - wp_step. apply Hfin.
Qed.

Lemma subscribe_loop_safe fuel p rc payload w c id l : broker_ok w → w_ctxs w !! p = Some c → c_id c = Some id →
  unread (c_in_packet c) l → octets (c_in_packet c) → (length l <= fuel)%nat →
  wp (subscribe_loop fuel p rc payload) (λ r w', broker_ok w' ∧ ∃ c', w_ctxs w' !! p = Some c' ∧ same_client c c' ∧
    (∀ rc' granted, r = inr (rc', granted) → (length granted <= length payload + length l)%nat)) w.
Proof.
  revert rc payload w c l. induction fuel as [|fuel IH]; intros rc payload w c l Hok Hc Hid Hu Ho Hf; cbn [subscribe_loop]; wp_step;
    (eapply wp_ctx_get; [done|]); cbv beta; pose proof (unread_length _ _ Hu) as Hl; pose proof (same_client_refl c) as Hrefl.
  all: assert (broker_ok w ∧ ∃ c', w_ctxs w !! p = Some c' ∧ same_client c c' ∧ (∀ rc' granted,
    @inr Z (Z * list Z) (rc, payload) = inr (rc', granted) → (length granted <= length payload + length l)%nat)) as Hstop
    by (split; [done|]; exists c; split_and!; try done; intros ?? [= _ <-]; lia).
  - destruct (Z.ltb_spec (p_pos (c_in_packet c)) (p_remaining_length (c_in_packet c))); [lia|]. by wp_step.
  - destruct (Z.ltb_spec (p_pos (c_in_packet c)) (p_remaining_length (c_in_packet c))); [|by wp_step].
    apply wp_and_then. eapply wp_mono; [by eapply (subscribe_one_safe p rc w c id l)|].
    intros r w1 (Hok1 & c1 & Hc1 & Hsc1 & ((l1 & Hu1) & Hrl & _ & Ho1) & Hprog).
    destruct r as [rc1|a]; [split; [done|]; by exists c1|]. specialize (Hprog a eq_refl). pose proof (unread_length _ _ Hu1) as Hl1.
    assert (c_id c1 = Some id) as Hid1 by (by destruct Hsc1 as (?&?&->)).
    eapply wp_mono; [eapply (IH _ _ w1 c1 l1 Hok1 Hc1 Hid1 Hu1 (Ho1 Ho)); lia|].
    intros r w2 (Hok2 & c2 & Hc2 & Hsc2 & Hlen). split; [done|]. exists c2. split_and!; [done|by eapply same_client_trans|].
    intros rc' granted ->. specialize (Hlen rc' granted eq_refl). rewrite length_app in Hlen. cbn in Hlen. lia.
Qed.

Lemma writes_suback mid payload : writes (_mosquitto_write_uint16 mid;;
  if Z.of_nat (length payload) =? 0 then mret tt else _mosquitto_write_bytes payload (Z.of_nat (length payload))) (word_bytes mid ++ payload).
Proof.
  apply writes_seq; [apply writes_uint16|]. destruct (Z.eqb_spec (Z.of_nat (length payload)) 0).
  - destruct payload; [apply writes_ret|done].
  - replace payload with (take (Z.to_nat (Z.of_nat (length payload))) payload) at 3 by (by rewrite Nat2Z.id, firstn_all).
    apply writes_bytes. lia.
Qed.

(** No SUBSCRIBE packet can break the broker. For any bytes in the packet,
    however malformed, [mqtt3_handle_subscribe] of a connected client
    terminates, reads nothing outside the packet, and leaves the invariant of
    the broker intact: every subscription made is of a live client, with a
    valid QoS, at a node of a well-formed tree. *)
Theorem handle_subscribe_safe `{!EnvLaws} p w c id l :
  broker_ok w → w_ctxs w !! p = Some c → c_id c = Some id → unread (c_in_packet c) l → octets (c_in_packet c) →
  out_wf c → c_packet_count c + 1 < 2 ^ 64 →
  wp (mqtt3_handle_subscribe p) (λ _ w', in_service p w') w.
Proof.
  intros Hok Hc Hid Hu Ho Hwf Hroom. unfold mqtt3_handle_subscribe. apply wp_returned, wp_and_then, wp_liftM.
  eapply wp_ctx_get; [done|]. apply wp_and_then, wp_return_if; [by split; [|eexists]|]. intros _. apply wp_and_then, wp_or_return.
  eapply wp_in_packet; [by apply reached_refl|]. eapply wp_mono; [by eapply read_uint16_safe|].
  intros r k Hr w1 Hr1. pose proof (benign_ok _ _ (proj1 Hr1) Hok) as Hok1. pose proof (read_ok_on _ _ _ Hr) as ((l1 & Hu1) & _ & _ & Ho1).
  destruct r as [rc|mid]; [by apply (reached_in_service _ _ _ _ Hok Hr1)|]. pose proof (reached_lookup _ _ _ _ Hr1) as Hc1. apply wp_and_then, wp_liftM.
  eapply wp_ctx_get; [done|]. apply wp_and_then.
  eapply wp_mono; [eapply (subscribe_loop_safe _ p 0 [] w1 _ id l1 Hok1 Hc1 Hid Hu1 (Ho1 Ho))|].
  { pose proof (unread_length _ _ Hu1). unfold unread_bytes. cbn. lia. }
  intros r w2 (Hok2 & c2 & Hc2 & (n & k2 & ->) & Hlen). assert (in_service p w2) as Hdone by (by split; [|eexists]). destruct r as [rc|[rc granted]]; [done|]. specialize (Hlen rc granted eq_refl).
  apply wp_and_then, wp_return_if; [done|]. intros _. apply wp_and_then, wp_liftM. cbn [snd].
  assert (Z.of_nat (length l1) < 2 ^ 28) as Hl1.
  { destruct Hu1 as (pre & _ & _ & Hrl & Hlt). rewrite length_app in Hrl. lia. }
  eapply wp_mono; [eapply (send_packet_spec p SUBACK _ 0 _ (word_bytes mid ++ granted) w2); [exact Hc2|exact Hwf|exact Hroom|..]|].
  - apply writes_fills, writes_suback.
  - rewrite length_app. cbn. lia.
  - cbn in Hlen. lia.
  - intros rc' w3 Hs. wp_step. by eapply (sends_in_service p _ _ w2).
Qed.
End subscribe_handler.
