(* ===== verification/Frames.v ===== *)
(** * What an operation leaves alone

    [frame R m]: wherever [m] gets to, the relation [R] holds between the states
    before and after. Two relations are used: [elsewhere p], for operations on one
    context, and [handled], for the handling of a packet, which may add to any queue but
    leaves the table of contexts, the index of clients and the place of every context
    in it. *)

From S2P Require Import Prelude Topic State Packet Database Subs UnsubscribeProofs Queue Contexts Handlers.
From stdpp Require Import options.

Create HintDb frames discriminated.
#[export] Hint Constants Opaque : frames.

Section frame.
Context `{Env}.
Definition frame {A} (R : relation world) (m : ST world A) : Prop := ∀ w a w', m w = Some (a, w') → R w w'.
Lemma wp_frame {A} R (m : ST world A) (Q : A → world → Prop) w : frame R m → wp m Q w → wp m (λ a w', Q a w' ∧ R w w') w.
Proof. intros HR. unfold wp. destruct (m w) as [[a w']|] eqn:Hm; [|done]. split; [done|]. by eapply HR. Qed.
Lemma frame_weaken {A} (R R' : relation world) (m : ST world A) : (∀ w w', R w w' → R' w w') → frame R m → frame R' m.
Proof. intros HR Hm w a w' Hw. by eapply HR, Hm. Qed.
End frame.

Section rules.
Context `{Env} (R : relation world) `{!PreOrder R}.
#[local] Set Default Proof Using "Type*".
Lemma frame_ret {A} (a : A) : frame R (mret a).
Proof. intros w b w' [= -> ->]. reflexivity. Qed.
Lemma frame_ub {A} : frame R (ub : ST world A).
Proof. done. Qed.
Lemma frame_bind {A B} (m : ST world A) (k : A → ST world B) : frame R m → (∀ a, frame R (k a)) → frame R (m ≫= k).
Proof.
  intros Hm Hk w b w'. unfold mbind, st_bind. destruct (m w) as [[a w1]|] eqn:Hmw; [|done]. intros Hkw. etrans; [by eapply Hm|by eapply Hk].
Qed.
Lemma frame_gets {A} (f : world → A) : frame R (gets f).
Proof. intros w a w' [= _ ->]. reflexivity. Qed.
Lemma frame_deref {A} (f : world → option A) : frame R (deref f).
Proof. intros w a w'. unfold deref. destruct (f w); [|done]. intros [= _ ->]. reflexivity. Qed.
Lemma frame_modify f : (∀ w, R w (f w)) → frame R (modify f).
Proof. intros Hf w a w' [= _ <-]. apply Hf. Qed.
Lemma frame_assert b : frame R (assert_ b).
Proof. destruct b; [apply frame_ret|done]. Qed.
Lemma frame_ext {A} (f : env → A * env) : (∀ w e, R w (w <| w_env := e |>)) → frame R (ext f).
Proof. intros HR w a w'. unfold ext. destruct (f (w_env w)) as [b e]. intros [= -> <-]. apply HR. Qed.
Lemma frame_ext_ (f : env → env) : (∀ w e, R w (w <| w_env := e |>)) → frame R (ext_ f).
Proof. intros HR. apply frame_modify. intros w. apply HR. Qed.
Lemma frame_ctx_get p : frame R (ctx_get p).
Proof. apply frame_deref. Qed.
Lemma frame_store_get x : frame R (store_get x).
Proof. apply frame_deref. Qed.
Lemma frame_store_upd x f : (∀ w s, R w (w <| w_stores ::= <[x := f s]> |>)) → frame R (store_upd x f).
Proof. intros HR. unfold store_upd. apply frame_bind; [apply frame_store_get|]. intros s. apply frame_modify. eauto. Qed.
Lemma frame_and_then {A B} (m : ST world (Z + A)) (k : A → ST world (Z + B)) : frame R m → (∀ a, frame R (k a)) → frame R (and_then m k).
Proof. intros Hm Hk. unfold and_then. apply frame_bind; [done|]. intros [rc|a]; [apply frame_ret|apply Hk]. Qed.
Lemma frame_return_if {B} (b : bool) rc (k : () → ST world (Z + B)) : (b = false → frame R (k tt)) → frame R (and_then (return_if b rc) k).
Proof. intros Hk. destruct b; unfold and_then, return_if; cbn; [intros w a w' [= _ ->]; reflexivity|by apply Hk]. Qed.
Lemma frame_liftM {A} (m : ST world A) : frame R m → frame R (liftM m).
Proof. intros Hm. unfold liftM. apply frame_bind; [done|]. intros a. apply frame_ret. Qed.
Lemma frame_or_return {A} (m : ST world (Z + A)) rc : frame R m → frame R (or_return m rc).
Proof. intros Hm. unfold or_return. apply frame_bind; [done|]. intros a. apply frame_ret. Qed.
Lemma frame_returned (m : ST world (Z + Z)) : frame R m → frame R (returned m).
Proof. intros Hm. unfold returned. apply frame_bind; [done|]. intros a. apply frame_ret. Qed.
End rules.

(** One step of a proof of [frame]; [tac] proves that a primitive step is in the
    relation. Functions that are called are left to the hints. *)
Ltac frame_step tac :=
  lazymatch goal with
  | |- frame _ (mret _) => apply frame_ret; apply _
  | |- frame _ ub => apply frame_ub; apply _
  | |- frame _ (gets _) => apply frame_gets; apply _
  | |- frame _ (ctx_get _) => apply frame_ctx_get; apply _
  | |- frame _ (store_get _) => apply frame_store_get; apply _
  | |- frame _ (deref _) => apply frame_deref; apply _
  | |- frame _ (assert_ _) => apply frame_assert; apply _
  | |- frame _ (mbind _ _) => apply frame_bind; [apply _| |intros ?]
  | |- frame _ (and_then (return_if _ _) _) => apply frame_return_if; [apply _|intros ?]
  | |- frame _ (and_then _ _) => apply frame_and_then; [apply _| |intros ?]
  | |- frame _ (liftM _) => apply frame_liftM; [apply _|]
  | |- frame _ (or_return _ _) => apply frame_or_return; [apply _|]
  | |- frame _ (returned _) => apply frame_returned; [apply _|]
  | |- frame _ mosquitto_time => unfold mosquitto_time
  | |- frame _ (ext _) => apply frame_ext; [apply _|by tac]
  | |- frame _ (ext_ _) => apply frame_ext_; [apply _|by tac]
  | |- frame _ (store_upd _ _) => apply frame_store_upd; [apply _|by tac]
  | |- frame _ (modify _) => apply frame_modify; [apply _|by tac]
  | |- frame _ (match ?x with _ => _ end) => destruct x eqn:?
  | |- frame _ _ => first [assumption | solve [eauto 2 with frames nocore]]
  end.

(** ** One context *)

Section elsewhere.
Context `{Env}.
(** Everything of the table but the context [p]. *)
Definition elsewhere (p : ctxid) (w w' : world) : Prop :=
  (∀ q, q ≠ p → w_ctxs w' !! q = w_ctxs w !! q) ∧ w_contexts w' = w_contexts w ∧ w_sessions_to_clean w' = w_sessions_to_clean w.
#[export] Instance elsewhere_preorder p : PreOrder (elsewhere p).
Proof.
  split; [by intros w|]. intros w1 w2 w3 (H1 & Hc1 & Hs1) (H2 & Hc2 & Hs2). split_and!; [|congruence..]. intros q Hne. by rewrite H2, H1.
Qed.
Lemma elsewhere_ctx_upd p f : frame (elsewhere p) (ctx_upd p f).
Proof.
  intros w a w'. unfold ctx_upd, mbind, st_bind, ctx_get, deref. destruct (w_ctxs w !! p) as [c|]; [|done]. intros [= _ <-].
  split_and!; [|done|done]. intros q Hne. by apply lookup_insert_ne.
Qed.
End elsewhere.
#[export] Hint Resolve elsewhere_ctx_upd : frames.
Ltac elsewheres := repeat frame_step ltac:(intros; split_and!).

(** ** The packet of one client *)

Section handled.
Context `{Env}.

(** The table of contexts, the index of clients, the sessions about to be cleaned. *)
Definition table (w : world) : list (option ctxid) * list (string * Z) * list (option ctxid) :=
  (w_contexts w, w_clientid_index_hash w, w_sessions_to_clean w).
(** Who a context is, and the state of its connection. *)
Definition place (c : mosquitto) :=
  (c_numericId c, c_db_index c, c_id c, c_will c, c_wsi c, c_clean_session c, c_address c, c_sock c, c_state c, bool_decide (is_Some (c_bridge c))).
(** What waits to be sent. *)
Definition output (c : mosquitto) := (c_current_out_packet c, c_out_packet c, c_packet_count c).
(** Nothing but outgoing messages is queued. *)
Definition outwards (c : mosquitto) : Prop := Forall (λ m, m_direction m = mosq_md_out) (c_msgs c).

(** [k]: whose packet is being read, and who may be sent something. *)
Definition handled_at (k : option ctxid * option ctxid) (q : ctxid) (c c' : mosquitto) : Prop :=
  place c' = place c ∧ (k.1 ≠ Some q → c_in_packet c' = c_in_packet c) ∧ (k.2 ≠ Some q → output c' = output c) ∧ (outwards c → outwards c').
Definition handled (k : option ctxid * option ctxid) (w w' : world) : Prop :=
  table w' = table w ∧ ∀ q, match w_ctxs w !! q, w_ctxs w' !! q with
    | Some c, Some c' => handled_at k q c c'
    | None, None => True
    | _, _ => False
    end.
Lemma handled_at_refl k q c : handled_at k q c c.
Proof. by split_and!. Qed.
Lemma handled_at_trans k q c1 c2 c3 : handled_at k q c1 c2 → handled_at k q c2 c3 → handled_at k q c1 c3.
Proof.
  intros (H1 & Hi1 & Ht1 & Ho1) (H2 & Hi2 & Ht2 & Ho2). split_and!; [congruence| | |by auto]; intros Hne; [by rewrite Hi2, Hi1|by rewrite Ht2, Ht1].
Qed.
Lemma handled_same k w w' : w_ctxs w' = w_ctxs w → table w' = table w → handled k w w'.
Proof. intros Hc Ht. split; [done|]. intros q. rewrite Hc. destruct (w_ctxs w !! q); [apply handled_at_refl|done]. Qed.
#[export] Instance handled_preorder k : PreOrder (handled k).
Proof.
  split; [by intros w; apply handled_same|]. intros w1 w2 w3 (H1 & Hc1) (H2 & Hc2). split; [congruence|]. intros q. specialize (Hc1 q). specialize (Hc2 q).
  destruct (w_ctxs w1 !! q), (w_ctxs w2 !! q), (w_ctxs w3 !! q); try done. by eapply handled_at_trans.
Qed.
Lemma handled_insert k q c c' w : w_ctxs w !! q = Some c → handled_at k q c c' → handled k w (w <| w_ctxs ::= <[q := c']> |>).
Proof.
  intros Hc Hh. split; [done|]. intros r. cbn. destruct (decide (r = q)) as [->|Hne].
  - by rewrite lookup_insert_eq, Hc.
  - rewrite lookup_insert_ne by done. destruct (w_ctxs w !! r); [apply handled_at_refl|done].
Qed.
Lemma handled_ctx_upd k q f : (∀ c, handled_at k q c (f c)) → frame (handled k) (ctx_upd q f).
Proof.
  intros Hf w a w'. unfold ctx_upd, mbind, st_bind, ctx_get, deref. destruct (w_ctxs w !! q) as [c|] eqn:Hc; [|done].
  intros [= _ <-]. by apply (handled_insert k q c).
Qed.
Lemma handled_in_packet {A} p s (m : ST packet A) : frame (handled (Some p, s)) (in_packet p m).
Proof.
  intros w a w'. unfold in_packet. destruct (w_ctxs w !! p) as [c|] eqn:Hc; [|done]. destruct (m (c_in_packet c)) as [[b k]|]; [|done].
  intros [= _ <-]. by apply (handled_insert _ p c).
Qed.
Lemma handled_msg_upd k q i f : (∀ m, m_direction (f m) = m_direction m) → frame (handled k) (msg_upd q i f).
Proof.
  intros Hf. apply handled_ctx_upd. intros c. split_and!; [done|done|done|]. unfold outwards. cbn. intros Ho. apply Forall_alter; [done|]. intros m _. by rewrite Hf.
Qed.
End handled.
#[export] Hint Resolve handled_in_packet : frames.
Ltac handled_upd := apply handled_ctx_upd; intros ?; split_and!; [done|done|done|first [done | unfold outwards; cbn; intros]].
Ltac handles := repeat first
  [ lazymatch goal with
    | |- frame _ (ctx_upd _ _) => handled_upd
    | |- frame _ (msg_upd _ _ _) => apply handled_msg_upd; done
    end
  | frame_step ltac:(intros; apply handled_same) ].

(** * Handling a packet leaves the table alone

    [frame (handled (r, Some p))] of what the handlers call and of the handlers that neither
    open nor close a connection, whatever the packet holds and whatever the
    environment answers. *)

(** ** Sending *)

Section sending.
Context `{Env}.
Implicit Types p : ctxid.

Lemma handled_update_context r p i : frame (handled (r, Some p)) (mosquitto_update_context i p).
Proof. unfold mosquitto_update_context. handles. Qed.
#[local] Hint Resolve handled_update_context : frames.
Lemma handled_net_write r p buf : frame (handled (r, Some p)) (_mosquitto_net_write p buf).
Proof. unfold _mosquitto_net_write. handles. Qed.
#[local] Hint Resolve handled_net_write : frames.
Lemma handled_out_advance r p n : frame (handled (r, Some p)) (out_advance p n).
Proof. unfold out_advance. handles. Qed.
#[local] Hint Resolve handled_out_advance : frames.
Lemma handled_write_step r p x : frame (handled (r, Some p)) (packet_write_step p x).
Proof. unfold packet_write_step. handles. Qed.
#[local] Hint Resolve handled_write_step : frames.
Lemma handled_write_inner fuel r p : frame (handled (r, Some p)) (packet_write_inner fuel p).
Proof. induction fuel; cbn [packet_write_inner]; handles. Qed.
#[local] Hint Resolve handled_write_inner : frames.
Lemma handled_write_outer fuel r p : frame (handled (r, Some p)) (packet_write_outer fuel p).
Proof. induction fuel; cbn [packet_write_outer]; handles. Qed.
#[local] Hint Resolve handled_write_outer : frames.
Lemma handled_packet_write r p : frame (handled (r, Some p)) (_mosquitto_packet_write p).
Proof. unfold _mosquitto_packet_write. handles. Qed.
#[local] Hint Resolve handled_packet_write : frames.
Lemma handled_packet_queue r p x : frame (handled (r, Some p)) (_mosquitto_packet_queue p x).
Proof. unfold _mosquitto_packet_queue. handles. Qed.
#[local] Hint Resolve handled_packet_queue : frames.
Lemma handled_send_packet r p command len mid body : frame (handled (r, Some p)) (send_packet p command len mid body).
Proof. unfold send_packet. handles. Qed.
Lemma handled_mid_generate k q : frame (handled k) (_mosquitto_mid_generate q).
Proof. unfold _mosquitto_mid_generate. handles. Qed.
#[local] Hint Resolve handled_mid_generate : frames.
Lemma handled_send_sub_packet r p command len body : frame (handled (r, Some p)) (send_sub_packet p command len body).
Proof. unfold send_sub_packet. handles. Qed.
End sending.
#[export] Hint Resolve handled_update_context handled_packet_write handled_send_packet handled_mid_generate handled_send_sub_packet : frames.

(** ** Queues and stored messages *)

Section queues.
Context `{Env}.
Implicit Types q : ctxid.

Lemma outwards_remove c i f : outwards c → c_msgs (f c) = delete i (c_msgs c) → outwards (f c).
Proof. unfold outwards. intros Ho ->. by apply Forall_delete. Qed.
Lemma handled_msg_get k q i : frame (handled k) (msg_get q i).
Proof. unfold msg_get. handles. Qed.
#[local] Hint Resolve handled_msg_get : frames.
Lemma handled_message_remove k q i : frame (handled k) (_message_remove q i).
Proof. unfold _message_remove. handles. by apply Forall_delete. Qed.
#[local] Hint Resolve handled_message_remove : frames.
Lemma handled_unqueue k q i m : frame (handled k) (unqueue q i m).
Proof. unfold unqueue. handles. Qed.
#[local] Hint Resolve handled_unqueue : frames.
Lemma handled_delete_loop fuel k q mid dir i idx deleted : frame (handled k) (message_delete_loop fuel q mid dir i idx deleted).
Proof. revert i idx deleted. induction fuel as [|fuel IH]; intros; cbn [message_delete_loop]; handles; auto. Qed.
Lemma handled_message_delete k q mid dir : frame (handled k) (mqtt3_db_message_delete q mid dir).
Proof. unfold mqtt3_db_message_delete. handles; apply handled_delete_loop. Qed.
Lemma handled_update_loop msgs i k q mid dir state : frame (handled k) (message_update_loop msgs i q mid dir state).
Proof. revert i. induction msgs as [|m msgs IH]; intros; cbn [message_update_loop]; handles; auto. Qed.
Lemma handled_message_update k q mid dir state : frame (handled k) (mqtt3_db_message_update q mid dir state).
Proof. unfold mqtt3_db_message_update. handles; apply handled_update_loop. Qed.

Lemma handled_add_new_msgs_set k q : frame (handled k) (mosquitto_add_new_msgs_set q).
Proof. unfold mosquitto_add_new_msgs_set. handles. Qed.
#[local] Hint Resolve handled_add_new_msgs_set : frames.
Lemma handled_insert_link k q mid qos retain stored state cm : frame (handled k) (insert_link q mid mosq_md_out qos retain stored state cm).
Proof. unfold insert_link. handles. apply Forall_app_2; [done|by apply Forall_singleton]. Qed.
#[local] Hint Resolve handled_insert_link : frames.
Lemma handled_lazy_reconnect k q : frame (handled k) (lazy_reconnect q).
Proof. unfold lazy_reconnect. apply handled_ctx_upd. intros c. split_and!; [|done..]. unfold place. cbn. repeat f_equal. by destruct (c_bridge c). Qed.
#[local] Hint Resolve handled_lazy_reconnect : frames.
Lemma handled_insert_approved k q mid qos retain stored c s state rc : frame (handled k) (insert_approved q mid mosq_md_out qos retain stored c s state rc).
Proof. unfold insert_approved. handles. Qed.
#[local] Hint Resolve handled_insert_approved : frames.
Lemma handled_message_insert k q mid qos retain stored : frame (handled k) (mqtt3_db_message_insert q mid mosq_md_out qos retain stored).
Proof. unfold mqtt3_db_message_insert. handles. Qed.
#[local] Hint Resolve handled_message_insert : frames.

Lemma handled_message_store k context source source_mid topic qos payloadlen payload retain store_id :
  frame (handled k) (mqtt3_db_message_store context source source_mid topic qos payloadlen payload retain store_id).
Proof. unfold mqtt3_db_message_store. handles. Qed.
Lemma handled_store_find k q mid : frame (handled k) (mqtt3_db_message_store_find q mid).
Proof. unfold mqtt3_db_message_store_find. handles. induction (c_msgs a) as [|m l IH]; cbn [store_find_loop]; handles. Qed.

(** ** Publishing *)

Lemma handled_process_leaf k source_id qos retain stored leaf : frame (handled k) (process_leaf source_id qos retain stored leaf).
Proof. unfold process_leaf. handles. Qed.
#[local] Hint Resolve handled_process_leaf : frames.
Lemma handled_process_loop k source_id qos retain stored leaves rc : frame (handled k) (process_loop source_id qos retain stored leaves rc).
Proof. revert rc. induction leaves as [|leaf leaves IH]; intros; cbn [process_loop]; handles; auto. Qed.
#[local] Hint Resolve handled_process_loop : frames.
Lemma handled_subs_process k hier source_id qos retain stored set_retain : frame (handled k) (_subs_process hier source_id qos retain stored set_retain).
Proof. unfold _subs_process, set_retained. handles. Qed.
#[local] Hint Resolve handled_subs_process : frames.
Lemma handled_process_branch k branch source_id qos retain stored : frame (handled k) (process_branch branch source_id qos retain stored).
Proof. unfold process_branch. handles. Qed.
#[local] Hint Resolve handled_process_branch : frames.
Lemma handled_process_pound k h source_id qos retain stored : frame (handled k) (process_pound h source_id qos retain stored).
Proof. unfold process_pound. handles. Qed.
#[local] Hint Resolve handled_process_pound : frames.
Lemma handled_sub_search k h tokens source_id qos retain stored : frame (handled k) (_sub_search h tokens source_id qos retain stored).
Proof. revert h. induction tokens as [|t tokens IH]; intros; cbn [_sub_search]; handles; auto. Qed.
#[local] Hint Resolve handled_sub_search : frames.
Lemma handled_tenant_denied k context : frame (handled k) (tenant_denied context).
Proof. unfold tenant_denied. handles. Qed.
#[local] Hint Resolve handled_tenant_denied : frames.
Lemma handled_set_root_child k t c : frame (handled k) (set_root_child t c).
Proof. unfold set_root_child. handles. Qed.
#[local] Hint Resolve handled_set_root_child : frames.
Lemma handled_add_leaf_loop k id qos leaves first : frame (handled k) (add_leaf_loop id qos leaves first).
Proof. revert first. induction leaves as [|leaf leaves IH]; intros; cbn [add_leaf_loop]; handles; auto. Qed.
#[local] Hint Resolve handled_add_leaf_loop : frames.
Lemma handled_add_leaf k q qos h fulltopic : frame (handled k) (add_leaf q qos h fulltopic).
Proof. unfold add_leaf. handles. Qed.
#[local] Hint Resolve handled_add_leaf : frames.
Lemma handled_sub_add_full k context qos h tokens fulltopic depth : frame (handled k) (_sub_add_full_topic context qos h tokens fulltopic depth).
Proof. revert h fulltopic depth. induction tokens as [|t tokens IH]; intros; cbn [_sub_add_full_topic]; handles; auto. Qed.
#[local] Hint Resolve handled_sub_add_full : frames.
Lemma handled_messages_queue k source_id topic qos retain stored : frame (handled k) (mqtt3_db_messages_queue source_id topic qos retain stored).
Proof. unfold mqtt3_db_messages_queue, _sub_add. handles. Qed.
#[local] Hint Resolve handled_messages_queue : frames.

(** ** Subscriptions *)

Lemma handled_sub_add k q sub qos : frame (handled k) (mqtt3_sub_add q sub qos).
Proof. unfold mqtt3_sub_add, _sub_add. handles. Qed.
Lemma handled_all_bridges k subs : frame (handled k) (all_bridges subs).
Proof. induction subs as [|leaf subs IH]; cbn [all_bridges]; handles. Qed.
#[local] Hint Resolve handled_all_bridges : frames.
Lemma handled_is_topic_removed k q subs : frame (handled k) (_is_topic_removed q subs).
Proof. unfold _is_topic_removed. handles. Qed.
#[local] Hint Resolve handled_is_topic_removed : frames.
Lemma handled_remove_leaf k q h fulltopic : frame (handled k) (remove_leaf q h fulltopic).
Proof. unfold remove_leaf. handles. Qed.
#[local] Hint Resolve handled_remove_leaf : frames.
Lemma handled_sub_remove_full k q h tokens fulltopic depth : frame (handled k) (_sub_remove_full_topic q h tokens fulltopic depth).
Proof. revert h fulltopic depth. induction tokens as [|t tokens IH]; intros; cbn [_sub_remove_full_topic]; handles; auto. Qed.
#[local] Hint Resolve handled_sub_remove_full : frames.
Lemma handled_sub_remove k q sub : frame (handled k) (mqtt3_sub_remove q sub).
Proof. unfold mqtt3_sub_remove. handles. Qed.

Lemma handled_retain_branch k branch q qos : frame (handled k) (retain_branch branch q qos).
Proof. unfold retain_branch, _retain_process. handles. Qed.
#[local] Hint Resolve handled_retain_branch : frames.
Lemma handled_retain_search k q qos h tokens level : frame (handled k) (_retain_search h tokens q qos level).
Proof.
  revert tokens level. induction h as [h IH] using subhier_tree_ind. intros tokens level. destruct h as [topic subs retained children hash pound plus]. cbn [h_children] in IH.
  cbn [_retain_search h_children]. generalize 0 as flag. induction children as [|b l IHl]; intros flag; [handles|]. apply Forall_cons in IH as [IHb IH].
  specialize (IHl IH). handles; first [apply IHb | apply IHl].
Qed.
#[local] Hint Resolve handled_retain_search : frames.
Lemma handled_retain_queue k q sub qos : frame (handled k) (mqtt3_retain_queue q sub qos).
Proof. unfold mqtt3_retain_queue. handles. Qed.
End queues.
#[export] Hint Resolve handled_message_delete handled_message_update handled_message_store handled_store_find handled_messages_queue
  handled_unqueue handled_msg_get handled_message_remove handled_sub_add handled_sub_remove handled_retain_queue : frames.

(** ** The handlers *)

Section handlers.
Context `{Env}.
Implicit Types p : ctxid.

Lemma handled_release_loop fuel p mid dir i idx deleted : frame (handled (Some p, Some p)) (message_release_loop fuel p mid dir i idx deleted).
Proof.
  revert i idx deleted. induction fuel as [|fuel IH]; intros; cbn [message_release_loop]; unfold _mosquitto_send_pubrec, _mosquitto_send_command_with_mid;
    handles; auto.
Qed.
Lemma handled_message_release p mid dir : frame (handled (Some p, Some p)) (mqtt3_db_message_release p mid dir).
Proof. unfold mqtt3_db_message_release. handles. apply handled_release_loop. Qed.
#[local] Hint Resolve handled_message_release : frames.

Lemma handled_pingreq p : frame (handled (Some p, Some p)) (_mosquitto_handle_pingreq p).
Proof. unfold _mosquitto_handle_pingreq, _mosquitto_send_pingresp, _mosquitto_send_simple_command. handles. Qed.
Lemma handled_pingresp p : frame (handled (Some p, Some p)) (_mosquitto_handle_pingresp p).
Proof. unfold _mosquitto_handle_pingresp. handles. Qed.
Lemma handled_pubackcomp p : frame (handled (Some p, Some p)) (_mosquitto_handle_pubackcomp p).
Proof. unfold _mosquitto_handle_pubackcomp. handles. Qed.
Lemma handled_pubrec p : frame (handled (Some p, Some p)) (_mosquitto_handle_pubrec p).
Proof. unfold _mosquitto_handle_pubrec, _mosquitto_send_pubrel, _mosquitto_send_command_with_mid. handles. Qed.
Lemma handled_pubrel p : frame (handled (Some p, Some p)) (_mosquitto_handle_pubrel p).
Proof. unfold _mosquitto_handle_pubrel, _mosquitto_send_pubcomp, _mosquitto_send_command_with_mid. handles. Qed.
Lemma handled_suback_loop fuel p room granted : frame (handled (Some p, Some p)) (suback_loop fuel p room granted).
Proof. revert room granted. induction fuel as [|fuel IH]; intros; cbn [suback_loop]; handles; auto. Qed.
Lemma handled_suback p : frame (handled (Some p, Some p)) (_mosquitto_handle_suback p).
Proof. unfold _mosquitto_handle_suback. handles. apply handled_suback_loop. Qed.
Lemma handled_unsuback p : frame (handled (Some p, Some p)) (_mosquitto_handle_unsuback p).
Proof. unfold _mosquitto_handle_unsuback. handles. Qed.

(** What is published at QoS 0. *)
Lemma handled_publish_payload p topic mid retain : frame (handled (Some p, None)) (publish_payload p topic 0 mid retain).
Proof.
  unfold publish_payload. handles; change (process_bad_message p 0 mid) with (mret MOSQ_ERR_SUCCESS : ST world Z); handles.
  unfold publish_accepted. cbn [Z.eqb]. handles.
Qed.
Lemma handled_publish p : frame (handled (Some p, None)) (mqtt3_handle_publish p).
Proof.
  unfold mqtt3_handle_publish. apply frame_returned; [apply _|]. apply frame_and_then; [apply _|handles|]. intros a. cbv zeta.
  apply frame_return_if; [apply _|intros _]. apply frame_return_if; [apply _|intros Hq].
  assert (Z.shiftr (Z.land (p_command (c_in_packet a)) 6) 1 = 0) as ->.
  { apply Z.ltb_ge in Hq. assert (0 <= Z.land (p_command (c_in_packet a)) 6) as Hn%(Z.shiftr_nonneg _ 1) by (apply Z.land_nonneg; lia). lia. }
  change (0 <? 0) with false. cbv iota. apply frame_and_then; [apply _|handles|]. intros topic.
  apply frame_return_if; [apply _|intros _]. apply frame_return_if; [apply _|intros _].
  apply frame_and_then; [apply _|apply frame_ret; apply _|]. intros mid. apply handled_publish_payload.
Qed.
Lemma handled_subscribe_loop fuel p rc payload : frame (handled (Some p, Some p)) (subscribe_loop fuel p rc payload).
Proof. revert rc payload. induction fuel as [|fuel IH]; intros; cbn [subscribe_loop]; unfold subscribe_one; handles; auto. Qed.
Lemma handled_subscribe p : frame (handled (Some p, Some p)) (mqtt3_handle_subscribe p).
Proof. unfold mqtt3_handle_subscribe, _mosquitto_send_suback. handles. apply handled_subscribe_loop. Qed.
Lemma handled_unsubscribe_loop fuel p : frame (handled (Some p, Some p)) (unsubscribe_loop fuel p).
Proof. induction fuel as [|fuel IH]; cbn [unsubscribe_loop]; unfold unsubscribe_one; handles; auto. Qed.
Lemma handled_unsubscribe p : frame (handled (Some p, Some p)) (mqtt3_handle_unsubscribe p).
Proof. unfold mqtt3_handle_unsubscribe, _mosquitto_send_command_with_mid. handles. apply handled_unsubscribe_loop. Qed.
End handlers.
