(* ===== verification/HandleSafety.v ===== *)
(** * The handlers are safe

    Each handler that neither opens nor closes a connection returns on any packet, reads
    nothing outside it, and leaves the broker in order and able to go on sending. *)

From S2P Require Import Prelude Topic State Packet PacketProofs Writer Database DatabaseProofs StoreProofs DeliveryProofs.
From S2P Require Import Subs SubsProofs SubscribeProofs UnsubscribeProofs SubsClaims.
From S2P Require Import PublishProofs Queue Contexts ContextProofs Handlers HandlerProofs SubscribeHandlerProofs Frames.
From stdpp Require Import options.

Section handlers.
Context `{Env} `{!EnvLaws}.
#[local] Set Default Proof Using "Type*".
Implicit Types p : ctxid.

(** Work on the queue of [p]. *)
Lemma queue_step_in_service p w c w' c' : broker_ok w → w_ctxs w !! p = Some c → queue_step p w c w' c' → out_wf c → in_service p w'.
Proof.
  intros [_ [Hwf Hlive] Hg Hroot] Hc Hs Ho. pose proof (queue_step_lookup _ _ _ _ _ Hs) as Hc'. pose proof (served_queue _ _ _ _ _ Hs Ho) as (_ & _ & _ & Ho' & _).
  destruct Hs as ((stores & e & ->) & Hm & _ & Hdb). split; [|by exists c']. split; [done| |done|done]. split; [done|].
  eapply same_ids_live; [|exact Hlive]. intros q. apply (client_id_insert w _ p c c'); [done|done|].
  unfold msgs_only in Hm. by rewrite <-Hm.
Qed.

Lemma pingreq_safe p w c : broker_ok w → w_ctxs w !! p = Some c → out_wf c → c_packet_count c + 1 < 2 ^ 64 →
  wp (_mosquitto_handle_pingreq p) (λ _ w', in_service p w') w.
Proof.
  intros Hok Hc Hwf Hroom. unfold _mosquitto_handle_pingreq, _mosquitto_send_pingresp, _mosquitto_send_simple_command.
  eapply wp_mono; [eapply (send_packet_spec p _ 0 0 _ [] w c Hc Hwf Hroom); [apply writes_fills, writes_ret|done|done]|].
  intros rc w' Hs. by eapply (sends_in_service p _ _ w c).
Qed.
Lemma pingresp_safe p w c : broker_ok w → w_ctxs w !! p = Some c → out_wf c →
  wp (_mosquitto_handle_pingresp p) (λ _ w', in_service p w') w.
Proof.
  intros Hok Hc Hwf. unfold _mosquitto_handle_pingresp. wp_step. eapply wp_reached_upd; [by apply reached_refl|done|]. intros w' Hr. wp_step.
  by apply (reached_in_service _ _ _ _ Hok Hr).
Qed.

Lemma publish_safe p w c l : broker_ok w → w_ctxs w !! p = Some c → unread (c_in_packet c) l → out_wf c →
  wp (mqtt3_handle_publish p) (λ _ w', in_service p w') w.
Proof.
  intros Hok Hc Hu Hwf. eapply wp_mono; [apply (wp_frame (handled (Some p, None))); [apply handled_publish|]|].
  { by eapply handle_publish_safe. }
  intros r w' [[Hok' _] Hh]. split; [done|]. destruct Hh as [_ Hq]. specialize (Hq p). rewrite Hc in Hq. destruct (w_ctxs w' !! p) as [c'|]; [|done].
  exists c'. split; [done|]. destruct Hq as (_ & _ & Ho & _). unfold out_wf, queued_packets. injection (Ho ltac:(done)) as -> -> ->. done.
Qed.

(** A message id, then the rest. *)
Lemma wp_read_mid {A} p w c l (k : Z → ST world (Z + A)) (Q : Z + A → world → Prop) :
  broker_ok w → w_ctxs w !! p = Some c → unread (c_in_packet c) l → out_wf c →
  (∀ rc w', in_service p w' → Q (inl rc) w') →
  (∀ mid pk w' l', broker_ok w' → w_ctxs w' !! p = Some (c <| c_in_packet := pk |>) → unread pk l' → wp (k mid) Q w') →
  wp (and_then (in_packet p _mosquitto_read_uint16) k) Q w.
Proof.
  intros Hok Hc Hu Hwf Hl Hk. apply wp_and_then. eapply wp_in_packet; [by apply reached_refl|]. eapply wp_mono; [by eapply read_uint16_safe|].
  intros r pk ((l' & Hu') & _) w1 Hr1. destruct r as [rc|mid]; [by apply Hl, (reached_in_service _ _ _ _ Hok Hr1)|].
  eapply Hk; [by eapply benign_ok; [apply Hr1|]|by eapply reached_lookup|done].
Qed.

Lemma pubackcomp_safe p w c l : broker_ok w → w_ctxs w !! p = Some c → unread (c_in_packet c) l → out_wf c →
  wp (_mosquitto_handle_pubackcomp p) (λ _ w', in_service p w') w.
Proof.
  intros Hok Hc Hu Hwf. unfold _mosquitto_handle_pubackcomp. apply wp_returned. eapply wp_read_mid; [done..|].
  intros mid pk w1 l1 Hok1 Hc1 _. apply wp_liftM. destruct (mid =? 0); [wp_step; by split; [|eexists]|].
  unfold mqtt3_db_message_delete. wp_step. eapply wp_ctx_get; [done|]. cbv beta.
  eapply wp_mono; [eapply (message_delete_loop_spec _ p mid mosq_md_out [] (map sig (c_msgs c))); [apply Hok1|done|done|by rewrite length_map]|].
  intros rc w2 (_ & c2 & j & Hs & _). by eapply queue_step_in_service.
Qed.

Lemma message_update_loop_safe msgs i p mid dir state w c : db_ok w → w_ctxs w !! p = Some c →
  wp (message_update_loop msgs i p mid dir state) (λ _ w', ∃ c', progress_step p w c w' c') w.
Proof.
  intros Hok Hc. revert i. induction msgs as [|m msgs IH]; intros i; cbn [message_update_loop]; [wp_step; by exists c; apply progress_self|].
  destruct (_ && _); [|apply IH]. wp_step. eapply wp_msg_upd; [done..|]. intros w1 H1. apply progress_upd in H1; [|done]. wp_steps. apply wp_ext. intros t e _.
  pose proof (progress_refl p w1 _ e (queue_step_ok _ _ _ _ _ (proj1 H1)) (queue_step_lookup _ _ _ _ _ (proj1 H1))) as H2. wp_steps.
  eapply wp_msg_upd; [done|apply (queue_step_ok _ _ _ _ _ (proj1 H2))|apply (queue_step_lookup _ _ _ _ _ (proj1 H2))|].
  intros w3 H3. apply progress_upd in H3; [|done]. wp_step. eexists. eapply progress_trans; [exact H1|]. eapply progress_trans; [exact H2|exact H3].
Qed.

Lemma pubrec_safe p w c l : broker_ok w → w_ctxs w !! p = Some c → unread (c_in_packet c) l → out_wf c → c_packet_count c + 1 < 2 ^ 64 →
  wp (_mosquitto_handle_pubrec p) (λ _ w', in_service p w') w.
Proof.
  intros Hok Hc Hu Hwf Hroom. unfold _mosquitto_handle_pubrec. apply wp_returned. eapply wp_read_mid; [done..|].
  intros mid pk w1 l1 Hok1 Hc1 _. apply wp_and_then, wp_liftM. unfold mqtt3_db_message_update. wp_step. eapply wp_ctx_get; [done|]. cbv beta.
  eapply wp_mono; [by apply message_update_loop_safe; [apply Hok1|]|]. intros rc w2 (c2 & Hs & _).
  pose proof (queue_step_in_service _ _ _ _ _ Hok1 Hc1 Hs Hwf) as Hin. pose proof (queue_step_lookup _ _ _ _ _ Hs) as Hc2.
  apply wp_and_then, wp_return_if; [done|]. intros _. apply wp_liftM.
  pose proof (served_queue _ _ _ _ _ Hs Hwf) as (_ & _ & _ & Hwf2 & _). destruct Hs as (_ & Ho & _). apply msgs_only_fields in Ho as (_ & _ & Hcount & _).
  eapply wp_mono; [eapply (send_command_with_mid_spec p _ mid false w2 c2 Hc2 Hwf2)|]; [rewrite Hcount; exact Hroom|].
  intros rc' w3 Hs3. by eapply (sends_in_service p _ _ w2 c2); [apply Hin|..].
Qed.

(** Nothing inbound is queued, so there is nothing to release. *)
Lemma message_release_loop_safe fuel p mid i idx deleted w c : db_ok w → w_ctxs w !! p = Some c → outwards c → (length (c_msgs c) - i <= fuel)%nat →
  wp (message_release_loop fuel p mid mosq_md_in i idx deleted) (λ _ w', ∃ c', progress_step p w c w' c') w.
Proof.
  revert i idx w c. induction fuel as [|fuel IH]; intros i idx w c Hok Hc Ho Hf; cbn [message_release_loop]; wp_steps;
    (eapply wp_msg_get; [done|]); destruct (c_msgs c !! i) as [m|] eqn:Hm; cbv beta iota.
  - apply lookup_lt_Some in Hm. lia.
  - wp_step. exists c. by apply progress_self.
  - pose proof (Forall_lookup_1 _ _ _ _ Ho Hm) as Hdir. cbn in Hdir. pose proof (lookup_lt_Some _ _ _ Hm) as Hlt. wp_steps.
    eapply (wp_mono _ (λ _ w1, ∃ c1, progress_step p w c w1 c1)).
    { destruct (_ && _); [|wp_step; exists c; by apply progress_self]. wp_step. eapply wp_mono; [by apply unqueue_spec|].
      intros b w1 (-> & c1 & H1); [|done]. wp_step. by exists c1. }
    intros _ w1 (c1 & H1). rewrite Hdir, (bool_decide_false (mosq_md_out = mosq_md_in)), andb_false_r by done. destruct (_ && _); [wp_step; by exists c1|].
    assert (length (c_msgs c1) = length (c_msgs c)) as Hlen by (rewrite <-(length_map sig), <-(length_map sig (c_msgs c)); f_equal; apply H1).
    eapply wp_mono; [apply (IH (S i) _ w1 c1)|].
    + apply (queue_step_ok _ _ _ _ _ (proj1 H1)).
    + apply (queue_step_lookup _ _ _ _ _ (proj1 H1)).
    + unfold outwards. destruct H1 as [_ Hsig]. apply (Forall_map sig (λ σ, σ.2 = mosq_md_out)). rewrite Hsig. by apply (Forall_map sig (λ σ, σ.2 = mosq_md_out)).
    + lia.
    + intros rc w2 (c2 & H2). exists c2. by eapply progress_trans.
  - wp_step. exists c. by apply progress_self.
Qed.

Lemma pubrel_safe p w c l : broker_ok w → w_ctxs w !! p = Some c → unread (c_in_packet c) l → outwards c → out_wf c → c_packet_count c + 1 < 2 ^ 64 →
  wp (_mosquitto_handle_pubrel p) (λ _ w', in_service p w') w.
Proof.
  intros Hok Hc Hu Ho Hwf Hroom. unfold _mosquitto_handle_pubrel. apply wp_returned, wp_and_then, wp_liftM. eapply wp_ctx_get; [done|].
  apply wp_and_then, wp_return_if; [by split; [|eexists]|]. intros _. eapply wp_read_mid; [done..|].
  intros mid pk w1 l1 Hok1 Hc1 _. apply wp_liftM. wp_step. unfold mqtt3_db_message_release. wp_step. eapply wp_ctx_get; [done|]. cbv beta. wp_steps.
  eapply wp_mono; [eapply (message_release_loop_safe _ p mid 0 0 false w1 _ (bo_db _ Hok1) Hc1 Ho); lia|].
  intros rc w2 (c2 & Hs & _). pose proof (queue_step_in_service _ _ _ _ _ Hok1 Hc1 Hs Hwf) as Hin. pose proof (queue_step_lookup _ _ _ _ _ Hs) as Hc2.
  pose proof (served_queue _ _ _ _ _ Hs Hwf) as (_ & _ & _ & Hwf2 & _). destruct Hs as (_ & Hm & _). apply msgs_only_fields in Hm as (_ & _ & Hcount & _).
  eapply wp_mono; [eapply (send_command_with_mid_spec p _ mid false w2 c2 Hc2 Hwf2)|]; [rewrite Hcount; exact Hroom|].
  intros rc' w3 Hs3. by eapply (sends_in_service p _ _ w2 c2); [apply Hin|..].
Qed.

(** The array of granted QoS has room for every byte that is left. *)
Lemma suback_loop_safe fuel p granted w c l : broker_ok w → w_ctxs w !! p = Some c → unread (c_in_packet c) l → out_wf c → (length l <= fuel)%nat →
  wp (suback_loop fuel p (Z.of_nat (length l)) granted) (λ _ w', in_service p w') w.
Proof.
  revert granted w c l. induction fuel as [|fuel IH]; intros granted w c l Hok Hc Hu Hwf Hf; cbn [suback_loop]; wp_step;
    (eapply wp_ctx_get; [done|]); cbv beta; pose proof (unread_length _ _ Hu) as Hl.
  - destruct (Z.ltb_spec (p_pos (c_in_packet c)) (p_remaining_length (c_in_packet c))); [lia|]. wp_step. by split; [|eexists].
  - destruct (Z.ltb_spec (p_pos (c_in_packet c)) (p_remaining_length (c_in_packet c))); [|wp_step; by split; [|eexists]].
    destruct l as [|b l]; [cbn in Hl; lia|]. apply wp_and_then. eapply wp_in_packet; [by apply reached_refl|].
    eapply wp_run; [exact (read_byte_spec _ _ Hu)|]. cbv beta iota. intros w1 Hr1. wp_step. apply wp_assert; [apply Z.ltb_lt; cbn [length]; lia|].
    replace (Z.of_nat (length (b :: l)) - 1) with (Z.of_nat (length l)) by (cbn [length]; lia).
    eapply IH; [by eapply benign_ok; [apply Hr1|]|by eapply reached_lookup|apply (unread_moved _ _ 1 Hu); cbn [length]; lia|done|cbn in Hf; lia].
Qed.
Lemma suback_safe p w c l : broker_ok w → w_ctxs w !! p = Some c → unread (c_in_packet c) l → out_wf c →
  wp (_mosquitto_handle_suback p) (λ _ w', in_service p w') w.
Proof.
  intros Hok Hc Hu Hwf. unfold _mosquitto_handle_suback. apply wp_returned. eapply wp_read_mid; [done..|].
  intros mid pk w1 l1 Hok1 Hc1 Hu1. apply wp_and_then, wp_liftM. eapply wp_ctx_get; [done|]. cbv zeta.
  assert (p_remaining_length pk - p_pos pk = Z.of_nat (length l1)) as Hl by (symmetry; by apply unread_length). cbn. rewrite Hl. apply wp_and_then. rewrite Nat2Z.id.
  eapply wp_mono; [by eapply (suback_loop_safe _ p [] w1 _ l1)|]. intros [rc|granted] w2 Hin; [done|by wp_step].
Qed.
Lemma unsuback_safe p w c l : broker_ok w → w_ctxs w !! p = Some c → unread (c_in_packet c) l → out_wf c →
  wp (_mosquitto_handle_unsuback p) (λ _ w', in_service p w') w.
Proof.
  intros Hok Hc Hu Hwf. unfold _mosquitto_handle_unsuback. apply wp_returned. eapply wp_read_mid; [done..|].
  intros mid pk w1 l1 Hok1 Hc1 Hu1. wp_step. by split; [|eexists].
Qed.
End handlers.
