(* ===== verification/Soundness.v ===== *)
(** * A sound broker

    What holds of the whole state between any two operations of the event loop: the
    invariant of the database and the subscriptions, the table of contexts, the index
    of clients by identifier, and every context by itself. Websockets are off
    ([ws.c] is not part of the model). *)

From S2P Require Import Prelude Topic State Packet PacketProofs Writer Database DatabaseProofs StoreProofs Subs SubsProofs SubscribeProofs UnsubscribeProofs SubsClaims PublishProofs Queue Contexts ContextProofs Handlers HandlerProofs SubscribeHandlerProofs Frames.
From stdpp Require Import options.

Section soundness.
Context `{Env}.

(** ** The invariant *)

(** The incoming packet: nothing, the remaining length as far as it was read, or a
    buffer with room for what is still to come. *)
Definition in_header (k : packet) : Prop :=
  p_have_remaining k = 0 ∧ p_pos k = 0 ∧ p_payload k = None ∧ p_to_process k = 0 ∧
  0 <= p_remaining_count k <= 4 ∧ p_remaining_mult k = 128 ^ p_remaining_count k ∧ 0 <= p_remaining_length k < 128 ^ p_remaining_count k.
Definition in_body (k : packet) : Prop :=
  p_have_remaining k ≠ 0 ∧ 0 <= p_pos k ∧ 0 <= p_to_process k ∧ p_pos k + p_to_process k = p_remaining_length k ∧ p_remaining_length k < 2 ^ 28 ∧ octets k ∧
  match p_payload k with Some buf => Z.of_nat (length buf) = p_remaining_length k | None => p_remaining_length k = 0 end.
Definition input_ok (c : mosquitto) : Prop := c_sock c ≠ INVALID_SOCKET →
  (in_header (c_in_packet c) ∨ in_body (c_in_packet c)) ∧
  (c_bridge c = None → c_state c = mosq_cs_new →
    p_command (c_in_packet c) = 0 ∧ p_have_remaining (c_in_packet c) = 0 ∨ Z.land (p_command (c_in_packet c)) 0xF0 = CONNECT).

Record context_ok (c : mosquitto) : Prop := {
  co_will : ∀ m, c_will c = Some m → will_ok m;
  co_output : out_wf c;
  co_wsi : c_wsi c = false;
  co_clean : c_clean_session c = true;
  co_outwards : outwards c }.
(** A client has its identifier from CONNECT on. *)
Definition client_ok (c : mosquitto) : Prop :=
  c_bridge c = None → if decide (c_state c = mosq_cs_new) then c_id c = None ∧ is_Some (c_address c) else is_Some (c_id c).

(** [x]: the context whose packet is being handled; its buffer is of no further use.
    [y]: the context that is being registered. *)
Record sound (x y : option ctxid) (w : world) : Prop := {
  so_ok : broker_ok w;
  so_slot : ∀ i p, w_contexts w !! i = Some (Some p) → ∃ c, w_ctxs w !! p = Some c ∧ c_numericId c = Z.of_nat i ∧ c_db_index c = Z.of_nat i;
  so_context : ∀ p c, w_ctxs w !! p = Some c → context_ok c;
  so_input : ∀ p c, w_ctxs w !! p = Some c → x ≠ Some p → input_ok c;
  so_client : ∀ p c, w_ctxs w !! p = Some c → y ≠ Some p → c_sock c ≠ INVALID_SOCKET → client_ok c;
  so_index : ∀ id i, (id, i) ∈ w_clientid_index_hash w → ∃ j p c, i = Z.of_nat j ∧ w_contexts w !! j = Some (Some p) ∧ w_ctxs w !! p = Some c ∧ c_id c = Some id;
  so_nodup : NoDup (w_clientid_index_hash w).*1 }.

Lemma sound_slot_unique x y w i j p : sound x y w → w_contexts w !! i = Some (Some p) → w_contexts w !! j = Some (Some p) → i = j.
Proof.
  intros Hs Hi Hj. destruct (so_slot _ _ _ Hs i p Hi) as (c & Hc & Hn & _), (so_slot _ _ _ Hs j p Hj) as (c' & Hc' & Hn' & _).
  rewrite Hc in Hc'. injection Hc' as <-. lia.
Qed.

(** ** Changes that keep it *)

(** The identity of the context in the table. *)
Definition slot (c : mosquitto) := (c_numericId c, c_db_index c, c_id c).
(** A context with its exemptions. *)
Definition context_sound (x y : option ctxid) (q : ctxid) (c : mosquitto) : Prop :=
  context_ok c ∧ (x ≠ Some q → input_ok c) ∧ (y ≠ Some q → c_sock c ≠ INVALID_SOCKET → client_ok c).
Lemma sound_context x y w q c : sound x y w → w_ctxs w !! q = Some c → context_sound x y q c.
Proof. intros Hs Hc. split_and!; intros; [by eapply so_context|by eapply so_input|by eapply so_client]. Qed.

Lemma sound_change x y x' y' w w' : sound x y w → broker_ok w' → table w' = table w →
  (∀ q, match w_ctxs w !! q, w_ctxs w' !! q with
        | Some c, Some c' => slot c' = slot c ∧ context_sound x' y' q c'
        | None, None => True | _, _ => False end) → sound x' y' w'.
Proof.
  intros Hs Hok' Ht Hq. unfold table in Ht. injection Ht as Hctx Hidx Hcl. assert (∀ p c, w_ctxs w !! p = Some c → ∃ c', w_ctxs w' !! p = Some c' ∧ slot c' = slot c) as Hmap.
  { intros p c Hc. specialize (Hq p). rewrite Hc in Hq. destruct (w_ctxs w' !! p) as [c'|]; [|done]. exists c'. by destruct Hq. }
  assert (∀ p c', w_ctxs w' !! p = Some c' → context_sound x' y' p c') as Hall.
  { intros p c' Hc'. specialize (Hq p). rewrite Hc' in Hq. destruct (w_ctxs w !! p); [|done]. by destruct Hq. }
  split; rewrite ?Hctx, ?Hidx, ?Hcl; try apply Hs; [done| |by intros; eapply Hall..|].
  - intros i p Hi. destruct (so_slot _ _ _ Hs i p Hi) as (c & Hc & Hn & Hd). destruct (Hmap p c Hc) as (c' & Hc' & Hsl). exists c'. unfold slot in Hsl. split_and!; congruence.
  - intros id i Hi. destruct (so_index _ _ _ Hs id i Hi) as (j & p & c & -> & Hj & Hc & Hid). destruct (Hmap p c Hc) as (c' & Hc' & Hsl).
    exists j, p, c'. unfold slot in Hsl. split_and!; try done. congruence.
Qed.

Lemma output_wf c c' : output c' = output c → out_wf c → out_wf c'.
Proof. unfold output, out_wf, queued_packets. intros [= -> -> ->]. done. Qed.

(** Whoever is not touched but for messages in the queue. *)
Lemma place_sound x y q c c' : place c' = place c → (x ≠ Some q → c_in_packet c' = c_in_packet c) → out_wf c' → (outwards c → outwards c') →
  context_sound x y q c → context_sound x y q c'.
Proof.
  unfold place. intros [= Hn Hd Hid Hw Hws Hcs Ha Hso Hst Hb] Hk Hwf Hout (Hc & Hin & Hcl).
  assert (c_bridge c' = None → c_bridge c = None) as Hb' by (intros E; rewrite E in Hb; by destruct (c_bridge c)).
  split_and!.
  - destruct Hc. split; try congruence; [by rewrite Hw|auto].
  - intros Hx. intros Hsock. rewrite Hso in Hsock. destruct (Hin Hx Hsock) as [H1 H2]. split; [by rewrite Hk|]. rewrite Hk, Hst by done. auto.
  - intros Hy Hs Hnb. rewrite Hst, Hid, Ha. apply Hcl; [done|congruence|auto].
Qed.

Lemma handled_lookup k w w' q c : handled k w w' → w_ctxs w !! q = Some c → ∃ c', w_ctxs w' !! q = Some c' ∧ handled_at k q c c'.
Proof. intros (_ & Hq) Hc. specialize (Hq q). rewrite Hc in Hq. destruct (w_ctxs w' !! q) as [c'|]; [|done]. by exists c'. Qed.

(** Whatever reads no packet but [x]'s and sends to [p] only. *)
Lemma sound_handled x y p w w' : sound x y w → handled (x, Some p) w w' → broker_ok w' →
  (∀ c', w_ctxs w' !! p = Some c' → out_wf c') → sound x y w'.
Proof.
  intros Hs Hh Hok' Hwf. eapply sound_change; [done|done|apply Hh|]. intros q. destruct Hh as [_ Hq]. specialize (Hq q).
  destruct (w_ctxs w !! q) as [c|] eqn:Hc, (w_ctxs w' !! q) as [c'|] eqn:Hc'; try done. destruct Hq as (Hpl & Hin & Hout & Ho).
  split; [unfold place in Hpl; unfold slot; congruence|]. apply (place_sound _ _ _ c); [done|done| |done|by eapply sound_context].
  destruct (decide (q = p)) as [->|Hne]; [by apply Hwf|]. apply (output_wf c); [apply Hout; by intros [= ->]|by eapply so_context].
Qed.

(** The same, as the handlers are specified. *)
Lemma sound_in_service {A} x y p (m : ST world A) w : sound x y w → frame (handled (x, Some p)) m →
  wp m (λ _ w', in_service p w') w → wp m (λ _ w', sound x y w' ∧ handled (x, Some p) w w') w.
Proof.
  intros Hs Hf Hm. eapply wp_mono; [by eapply wp_frame|]. intros a w' [(Hok & c & Hc & Hwf) Hh]. split; [|done]. eapply sound_handled; [done..|].
  intros c' Hc'. by simplify_eq.
Qed.

(** A step on the context of [p] alone. *)
Lemma sound_reached x y x' y' p c c' w w' : sound x y w → w_ctxs w !! p = Some c → reached p c' w w' → slot c' = slot c →
  context_sound x' y' p c' → (∀ q c, q ≠ p → context_sound x y q c → context_sound x' y' q c) → sound x' y' w'.
Proof.
  intros Hs Hc (Hb & Hreg & Hw) Hsl Hc' Hx. eapply sound_change; [done|by eapply benign_ok; [|apply Hs]| |].
  { unfold registry in Hreg. unfold table. congruence. }
  intros q. rewrite Hw.
  destruct (decide (q = p)) as [->|Hne].
  - by rewrite Hc, lookup_insert_eq.
  - rewrite lookup_insert_ne by done. destruct (w_ctxs w !! q) eqn:Hq; [|done]. split; [done|]. apply Hx; [done|]. by eapply sound_context.
Qed.

Lemma sound_frame x y w w' : sound x y w → benign w w' → table w' = table w → w_ctxs w' = w_ctxs w → sound x y w'.
Proof.
  intros Hs Hb Ht Hw. eapply sound_change; [done|by eapply benign_ok; [|apply Hs]|done|]. intros q. rewrite Hw.
  destruct (w_ctxs w !! q) eqn:Hq; [|done]. split; [done|]. by eapply sound_context.
Qed.
Lemma wp_sound_upd x y q f w c (Q : () → world → Prop) : sound x y w → w_ctxs w !! q = Some c → slot (f c) = slot c → ctx_core (f c) = ctx_core c →
  context_sound x y q (f c) →
  (∀ w', sound x y w' → w_ctxs w' = <[q := f c]> (w_ctxs w) → table w' = table w → Q tt w') → wp (ctx_upd q f) Q w.
Proof.
  intros Hs Hc Hsl Hcore Hq HQ. eapply wp_reached_upd; [by apply reached_refl|done|]. intros w' Hr. apply HQ.
  - by eapply (sound_reached x y x y q c).
  - apply Hr.
  - destruct Hr as (_ & Hreg & _). unfold registry in Hreg. unfold table. congruence.
Qed.
(** The packet is done with, and the new client registered. *)
Lemma sound_settle x y w : sound x y w → (∀ q c, x = Some q → w_ctxs w !! q = Some c → input_ok c) →
  (∀ q c, y = Some q → w_ctxs w !! q = Some c → c_sock c ≠ INVALID_SOCKET → client_ok c) → sound None None w.
Proof.
  intros Hs Hx Hy. split; try apply Hs.
  - intros p c Hc _. destruct (decide (x = Some p)); [by eapply Hx|by eapply so_input].
  - intros p c Hc _ Hsock. destruct (decide (y = Some p)); [by eapply Hy|by eapply so_client].
Qed.

(** A context goes away, with its slot and its entry of the index. *)
Lemma sound_gone p w w' : sound None None w → broker_ok w' → w_ctxs w' !! p = None → (∀ q, q ≠ p → w_ctxs w' !! q = w_ctxs w !! q) →
  (∀ i q, w_contexts w' !! i = Some (Some q) ↔ w_contexts w !! i = Some (Some q) ∧ q ≠ p) → sublist (w_clientid_index_hash w') (w_clientid_index_hash w) →
  (∀ c id, w_ctxs w !! p = Some c → c_id c = Some id → id ∉ (w_clientid_index_hash w').*1) → sound None None w'.
Proof.
  intros Hs Hok' Hp Hq Ht Hsub Hid. assert (∀ q c, w_ctxs w' !! q = Some c → w_ctxs w !! q = Some c) as Hback.
  { intros q c Hc. rewrite <-Hq; [done|]. by intros ->; rewrite Hp in Hc. }
  split; [done| | | | | |].
  - intros i q [Hi Hne]%Ht. destruct (so_slot _ _ _ Hs i q Hi) as (c & Hc & Hn). exists c. by rewrite Hq.
  - intros q c Hc%Hback. by eapply so_context.
  - intros q c Hc%Hback. by apply (so_input _ _ _ Hs).
  - intros q c Hc%Hback. by apply (so_client _ _ _ Hs).
  - intros id i Hi. destruct (so_index _ _ _ Hs id i) as (j & q & c & -> & Hj & Hc & Hidc); [by eapply elem_of_sublist|].
    assert (q ≠ p) as Hne by (intros ->; apply (Hid c id Hc Hidc), (list_elem_of_fmap_2 fst _ _ Hi)). exists j, q, c. split_and!; [done|by apply Ht|by rewrite Hq|done].
  - eapply sublist_NoDup; [apply (so_nodup _ _ _ Hs)|]. by apply fmap_sublist.
Qed.

(** ** Closing a connection *)

Definition closes_at (c c' : mosquitto) : Prop :=
  slot c' = slot c ∧ c_wsi c' = c_wsi c ∧ c_clean_session c' = c_clean_session c ∧ c_address c' = c_address c ∧
  bool_decide (is_Some (c_bridge c')) = bool_decide (is_Some (c_bridge c)) ∧
  c_in_packet c' = c_in_packet c ∧ output c' = output c ∧ (outwards c → outwards c') ∧ (c_wsi c = true ∨ c_state c' = c_state c).
Lemma closes_at_refl c : closes_at c c.
Proof. split_and!; auto. Qed.
Lemma closes_at_trans c1 c2 c3 : closes_at c1 c2 → closes_at c2 c3 → closes_at c1 c3.
Proof.
  intros (?&Hw&?&?&?&?&?&?&Hs) (?&Hw'&?&?&?&?&?&?&Hs'). split_and!; try congruence; [auto|]. rewrite Hw in Hs'.
  destruct Hs; [by left|]. destruct Hs'; [by left|right; congruence].
Qed.
Lemma handled_closes_at q c c' : handled_at (None, None) q c c' → closes_at c c'.
Proof. unfold handled_at, place. intros ([= ??????????] & Hi & Ho & Hout). unfold closes_at, slot. split_and!; first [congruence | by auto | by apply Hi | by apply Ho]. Qed.

(** Only the context [p] is closed; messages may be queued for anybody. *)
Definition closes (p : ctxid) (w w' : world) : Prop :=
  table w' = table w ∧ ∀ q, match w_ctxs w !! q, w_ctxs w' !! q with
    | Some c, Some c' => if decide (q = p) then closes_at c c' else handled_at (None, None) q c c'
    | None, None => True
    | _, _ => False
    end.
Lemma handled_closes p w w' : handled (None, None) w w' → closes p w w'.
Proof.
  intros [Ht Hq]. split; [done|]. intros q. specialize (Hq q). destruct (w_ctxs w !! q), (w_ctxs w' !! q); try done. case_decide; [by eapply handled_closes_at|done].
Qed.
Lemma closes_same p w w' : w_ctxs w' = w_ctxs w → table w' = table w → closes p w w'.
Proof. intros Hc Ht. by apply handled_closes, handled_same. Qed.
#[local] Instance closes_preorder p : PreOrder (closes p).
Proof.
  split; [intros w; by apply closes_same|]. intros w1 w2 w3 (H1 & Hc1) (H2 & Hc2). split; [congruence|]. intros q. specialize (Hc1 q). specialize (Hc2 q).
  destruct (w_ctxs w1 !! q), (w_ctxs w2 !! q), (w_ctxs w3 !! q); try done. case_decide; [by eapply closes_at_trans|by eapply handled_at_trans].
Qed.
Lemma closes_upd_at p f w c a w' : w_ctxs w !! p = Some c → closes_at c (f c) → ctx_upd p f w = Some (a, w') → closes p w w'.
Proof.
  intros Hc Hf. unfold ctx_upd, mbind, st_bind, ctx_get, deref. rewrite Hc. intros [= _ <-].
  split; [done|]. intros q. cbn. destruct (decide (q = p)) as [->|Hne]; [by rewrite Hc, lookup_insert_eq|].
  rewrite lookup_insert_ne by done. destruct (w_ctxs w !! q); [apply handled_at_refl|done].
Qed.
Lemma closes_ctx_upd p f : (∀ c, closes_at c (f c)) → frame (closes p) (ctx_upd p f).
Proof.
  intros Hf w a w' Hu. destruct (w_ctxs w !! p) as [c|] eqn:Hc; [by eapply closes_upd_at|].
  unfold ctx_upd, mbind, st_bind, ctx_get, deref in Hu. by rewrite Hc in Hu.
Qed.
#[local] Hint Extern 1 (frame (closes _) (ctx_upd _ _)) => apply closes_ctx_upd; intros ?; split_and!; auto : frames.
Ltac closing := repeat frame_step ltac:(intros; apply closes_same).
Lemma closes_easy_queue p q topic qos payloadlen payload retain : frame (closes p) (mqtt3_db_messages_easy_queue (Some q) topic qos payloadlen payload retain).
Proof. eapply frame_weaken; [apply handled_closes|]. unfold mqtt3_db_messages_easy_queue. handles. Qed.
#[local] Hint Resolve closes_easy_queue : frames.
Lemma closes_socket_close p : frame (closes p) (_mosquitto_socket_close p).
Proof.
  intros w a w' Hm. unfold _mosquitto_socket_close, mbind at 1, st_bind at 1, ctx_get, deref in Hm. destruct (w_ctxs w !! p) as [c|] eqn:Hc; [|done].
  destruct (c_wsi c) eqn:Hws.
  - unfold mbind at 1, st_bind at 1 in Hm. destruct (ctx_upd p _ w) as [[b w1]|] eqn:Hu; [|done]. injection Hm as _ <-.
    etrans; [eapply (closes_upd_at _ _ _ _ _ _ Hc); [|exact Hu]|by apply closes_same]. split_and!; auto.
  - match type of Hm with ?m w = _ => enough (frame (closes p) m) by eauto end. closing.
Qed.
#[local] Hint Resolve closes_socket_close : frames.
Lemma closes_context_disconnect p : frame (closes p) (mqtt3_context_disconnect p).
Proof. unfold mqtt3_context_disconnect, listener_leave, mosquitto_remove_context. closing. Qed.

(** What closing a connection leaves of it. *)
Definition hung_up (c c' : mosquitto) : Prop :=
  c_sock c' = INVALID_SOCKET ∧ slot c' = slot c ∧ c_state c' = c_state c ∧ c_in_packet c' = c_in_packet c ∧ output c' = output c ∧
  c_address c' = c_address c ∧ bool_decide (is_Some (c_bridge c')) = bool_decide (is_Some (c_bridge c)).
Lemma disconnect_sound x y p w c : sound x y w → w_ctxs w !! p = Some c →
  wp (mqtt3_context_disconnect p) (λ _ w', sound x y w' ∧ ∃ c', w_ctxs w' !! p = Some c' ∧ hung_up c c') w.
Proof.
  intros Hs Hc. pose proof (so_context _ _ _ Hs p c Hc) as Hcok. eapply wp_mono; [eapply wp_frame; [apply closes_context_disconnect|]|].
  { by apply (context_disconnect_spec p w c); [apply Hs| |apply Hcok]. }
  intros _ w' [(Hok' & _ & (c' & Hc' & Hd) & _) [Ht Hq]]. unfold disconnected in Hd. rewrite (co_wsi _ Hcok) in Hd. destruct Hd as (Hw' & _ & _ & Hws' & _ & _ & _ & _ & _ & Hsock & _).
  assert (closes_at c c') as (Hsl & _ & Hcs & Ha & Hb & Hk & Ho & Hout & [?|Hst]).
  { specialize (Hq p). by rewrite Hc, Hc', decide_True in Hq. }
  { pose proof (co_wsi _ Hcok). congruence. }
  split; [|by exists c'; split_and!]. eapply sound_change; [done|done|done|]. intros q. specialize (Hq q).
  destruct (w_ctxs w !! q) as [d|] eqn:Hdq, (w_ctxs w' !! q) as [d'|] eqn:Hdq'; try done. destruct (decide (q = p)) as [->|Hne].
  - rewrite Hc in Hdq. rewrite Hc' in Hdq'. injection Hdq as <-. injection Hdq' as <-. split; [done|]. split_and!; [|by intros _ []|by intros _ []]. destruct Hcok.
    split; [by rewrite Hw'|by eapply output_wf|congruence|congruence|auto].
  - destruct Hq as (Hpl & Hi & Hoq & Hou). split; [unfold place in Hpl; unfold slot; congruence|].
    apply (place_sound _ _ _ d); [done|by intros _; apply Hi| |done|by eapply sound_context]. apply (output_wf d); [by apply Hoq|by eapply so_context].
Qed.
End soundness.

(** * What cleaning up leaves

    [mqtt3_context_cleanup] touches one context, its subscriptions and its entry of the
    index of clients, and of the index nothing else. *)

Lemma clientid_del_sublist id h : sublist (clientid_del id h) h.
Proof. induction h as [|[k i] h IH]; cbn; [done|]. destruct (String.eqb k id); [by apply sublist_cons|by apply sublist_skip]. Qed.
Lemma clientid_del_gone id h : NoDup h.*1 → id ∉ (clientid_del id h).*1.
Proof.
  induction h as [|[k i] h IH]; cbn; [intros _; apply not_elem_of_nil|]. intros [Hk Hnd]%NoDup_cons. destruct (String.eqb_spec k id) as [->|Hne]; [done|].
  cbn. rewrite not_elem_of_cons. split; [done|by apply IH].
Qed.
Lemma clientid_find_in id h i : clientid_find id h = Some i → (id, i) ∈ h.
Proof.
  induction h as [|[k j] h IH]; cbn; [done|]. destruct (String.eqb_spec k id) as [->|Hne]; [intros [= ->]; by left|]. intros Hf. right. by apply IH.
Qed.
Lemma clientid_find_none id h : clientid_find id h = None → id ∉ h.*1.
Proof.
  induction h as [|[k j] h IH]; cbn; [intros _; apply not_elem_of_nil|]. destruct (String.eqb_spec k id); [done|]. intros Hf. rewrite not_elem_of_cons. by split; [|apply IH].
Qed.

Section cleanup.
Context `{Env}.
Implicit Types p q : ctxid.

(** ** What cleaning up keeps *)

(** [b]: the identifier and the index are left alone as well. *)
Definition kept_at (b : bool) (c c' : mosquitto) : Prop :=
  c_numericId c' = c_numericId c ∧ c_db_index c' = c_db_index c ∧ c_wsi c' = c_wsi c ∧ c_clean_session c' = c_clean_session c ∧
  (b = true → c_id c' = c_id c) ∧ (c_bridge c = None → c_bridge c' = None).
Definition tidies (b : bool) (p : ctxid) (w w' : world) : Prop :=
  elsewhere p w w' ∧ sublist (w_clientid_index_hash w') (w_clientid_index_hash w) ∧ (b = true → w_clientid_index_hash w' = w_clientid_index_hash w) ∧
  (∀ c, w_ctxs w !! p = Some c → ∃ c', w_ctxs w' !! p = Some c' ∧ kept_at b c c') ∧ (w_ctxs w !! p = None → w_ctxs w' !! p = None).
#[local] Instance tidies_preorder b p : PreOrder (tidies b p).
Proof.
  split.
  - intros w. split_and!; [done|done|done| |done]. intros c Hc. by exists c.
  - intros w1 w2 w3 (He1 & Hs1 & Hi1 & Hk1 & Hn1) (He2 & Hs2 & Hi2 & Hk2 & Hn2). split_and!; [by etrans|by etrans|by intros Hb; rewrite Hi2, Hi1| |by auto]. intros c Hc.
    destruct (Hk1 c Hc) as (c1 & Hc1 & ?&?&?&?&Hid1&?). destruct (Hk2 c1 Hc1) as (c2 & Hc2 & ?&?&?&?&Hid2&?). exists c2. split; [done|].
    split_and!; [congruence..| |by auto]. intros Hb. by rewrite Hid2, Hid1.
Qed.
Lemma tidies_same b p w w' : w_ctxs w' = w_ctxs w → w_contexts w' = w_contexts w → w_sessions_to_clean w' = w_sessions_to_clean w →
  sublist (w_clientid_index_hash w') (w_clientid_index_hash w) → (b = true → w_clientid_index_hash w' = w_clientid_index_hash w) → tidies b p w w'.
Proof. intros Hw Hc Hs Hi Hb. split_and!; [|done|done| |by rewrite Hw]; [by split_and!; [intros; rewrite Hw|..]|]. intros c Hp. exists c. by rewrite Hw. Qed.
Lemma tidies_ctx_upd b p f : (∀ c, kept_at b c (f c)) → frame (tidies b p) (ctx_upd p f).
Proof.
  intros Hf w a w' Hu. split; [by eapply elsewhere_ctx_upd|]. unfold ctx_upd, mbind, st_bind, ctx_get, deref in Hu.
  destruct (w_ctxs w !! p) as [c|] eqn:Hc; [|done]. injection Hu as _ <-. split_and!; [done|done| |done]. intros d [= <-]. exists (f c). split; [apply lookup_insert_eq|apply Hf].
Qed.
Lemma tidies_weaken p w w' : tidies true p w w' → tidies false p w w'.
Proof.
  intros (He & Hs & _ & Hk & Hn). split_and!; [done|done|done| |done]. intros c Hc. destruct (Hk c Hc) as (c' & Hc' & ?&?&?&?&_&?). exists c'. by split_and!.
Qed.
#[local] Hint Extern 1 (frame (tidies _ _) (ctx_upd _ _)) => apply tidies_ctx_upd; intros ?; split_and!; done : frames.
Ltac tidying := repeat frame_step ltac:(intros; apply tidies_same; first [done | apply clientid_del_sublist]).
Lemma tidies_clean_leaves b p leaves kept fulltopic : frame (tidies b p) (clean_leaves leaves kept fulltopic).
Proof.
  revert kept. induction leaves as [|leaf leaves IH]; intros; cbn [clean_leaves]; unfold _is_topic_removed; tidying; try apply IH.
  all: induction (kept ++ leaves) as [|x l IHl]; cbn [all_bridges]; tidying.
Qed.
#[local] Hint Resolve tidies_clean_leaves : frames.
Lemma tidies_clean_session b p h fulltopic depth : frame (tidies b p) (_subs_clean_session_full_topic h fulltopic depth).
Proof.
  revert fulltopic depth. induction h as [h IH] using subhier_tree_ind. intros fulltopic depth. destruct h as [topic subs retained children hash pound plus]. cbn [h_children] in IH.
  cbn [_subs_clean_session_full_topic h_children h_topic h_subs]. tidying. generalize (mk_subhier topic subs retained children hash pound plus) as root.
  induction children as [|x l IHl]; intros root; cbn [clean_children]; [tidying|]. apply Forall_cons in IH as [IHx IH]. specialize (IHl IH). tidying; first [apply IHx | apply IHl].
Qed.
#[local] Hint Resolve tidies_clean_session : frames.
Lemma tidies_subs_clean_session b p : frame (tidies b p) mqtt3_subs_clean_session.
Proof.
  unfold mqtt3_subs_clean_session. tidying. induction (h_children a) as [|x l IHl]; cbn [clean_roots]; tidying; apply IHl.
Qed.
#[local] Hint Resolve tidies_subs_clean_session : frames.
Lemma tidies_socket_close b p : frame (tidies b p) (_mosquitto_socket_close p).
Proof. unfold _mosquitto_socket_close. tidying. Qed.
#[local] Hint Resolve tidies_socket_close : frames.
Lemma tidies_release_refs b p msgs : frame (tidies b p) (release_refs msgs).
Proof. induction msgs as [|m msgs IH]; cbn [release_refs]; tidying. Qed.
#[local] Hint Resolve tidies_release_refs : frames.
Lemma tidies_cleanup_connection b p : frame (tidies b p) (cleanup_connection p).
Proof. unfold cleanup_connection, listener_leave. tidying. Qed.
Lemma tidies_cleanup_session b p clean_subs : frame (tidies b p) (cleanup_session p clean_subs).
Proof. unfold cleanup_session, mqtt3_db_messages_delete. tidying. Qed.
Lemma tidies_cleanup_identity p : frame (tidies false p) (cleanup_identity p).
Proof. unfold cleanup_identity, mqtt3_db_remove_canonical_client_id, mqtt3_context_cleanup_certs, mosquitto_remove_pending_bytes_set. tidying. Qed.
Lemma tidies_cleanup_buffers b p do_free : frame (tidies b p) (cleanup_buffers p do_free).
Proof. unfold cleanup_buffers. tidying. Qed.

(** ** What it does *)

Lemma cleanup_identity_exact p w c id : w_ctxs w !! p = Some c → c_id c = Some id → is_Some (clientid_find id (w_clientid_index_hash w)) →
  wp (cleanup_identity p) (λ _ w', w_clientid_index_hash w' = clientid_del id (w_clientid_index_hash w) ∧ ∃ c', w_ctxs w' !! p = Some c' ∧ c_id c' = None) w.
Proof.
  intros Hc Hid [i Hfind]. unfold cleanup_identity. wp_step. eapply wp_ctx_upd; [done|]. wp_step. eapply wp_ctx_get; [apply lookup_insert_eq|]. cbv beta. wp_step.
  eapply (wp_mono _ (λ _ w1, w_clientid_index_hash w1 = w_clientid_index_hash w ∧ ∃ c1, w_ctxs w1 !! p = Some c1)).
  { cbn [c_canonical_id upd]. unfold mqtt3_db_remove_canonical_client_id. destruct (c_canonical_id _); wp_step; (split; [done|]; eexists; apply lookup_insert_eq). }
  intros _ w1 (Hi1 & c1 & Hc1). wp_step. replace (c_id (c <| c_address := None |>)) with (Some id) by done. cbv iota. do 3 wp_step. rewrite Hi1, Hfind. do 3 wp_step.
  eapply wp_ctx_get; [done|]. apply wp_ext_. eapply wp_ctx_upd; [done|]. wp_step. eapply wp_ctx_upd; [apply lookup_insert_eq|]. wp_step.
  unfold mqtt3_context_cleanup_certs, mosquitto_remove_pending_bytes_set. eapply wp_ctx_upd; [apply lookup_insert_eq|]. wp_step.
  eapply wp_ctx_get; [apply lookup_insert_eq|]. cbv beta. destruct (c_pending_bytes _); [|wp_step].
  - do 2 wp_step. eapply wp_ctx_upd; [apply lookup_insert_eq|]. split; [cbn; by rewrite Hi1|]. eexists. split; [apply lookup_insert_eq|done].
  - split; [cbn; by rewrite Hi1|]. eexists. split; [apply lookup_insert_eq|done].
Qed.

(** The buffers are empty. *)
Definition fresh_buffers (c : mosquitto) : Prop :=
  in_header (c_in_packet c) ∧ p_command (c_in_packet c) = 0 ∧ output c = (None, [], 0) ∧ c_will c = None.
Lemma cleanup_buffers_exact p w c : w_ctxs w !! p = Some c → c_msgs c = [] → c_clean_session c = true →
  wp (cleanup_buffers p false) (λ _ w', ∃ c', w_ctxs w' !! p = Some c' ∧ fresh_buffers c') w.
Proof.
  intros Hc Hm Hcs. unfold cleanup_buffers. wp_step. eapply wp_ctx_upd; [done|]. wp_step. eapply wp_ctx_get; [apply lookup_insert_eq|]. cbv beta.
  replace (c_msgs _) with ([] : list client_msg) by (symmetry; exact Hm). replace (c_clean_session _) with true by (symmetry; exact Hcs).
  cbn [orb release_refs]. do 2 wp_step. eapply wp_ctx_upd; [apply lookup_insert_eq|]. eexists. split; [apply lookup_insert_eq|].
  split_and!; [|done..]. unfold in_header. cbn. split_and!; (done || lia).
Qed.

(** The old context, cleaned up: nobody's, and as good as new. *)
Definition reborn (p : ctxid) (id : string) (c : mosquitto) (w w' : world) : Prop :=
  retired p w' ∧ elsewhere p w w' ∧ sublist (w_clientid_index_hash w') (w_clientid_index_hash w) ∧ id ∉ (w_clientid_index_hash w').*1 ∧
  ∃ c', w_ctxs w' !! p = Some c' ∧ kept_at false c c' ∧ c_id c' = None ∧ fresh_buffers c'.
Lemma cleanup_reborn p w c id : broker_ok w → w_ctxs w !! p = Some c → c_clean_session c = true → c_id c = Some id →
  is_Some (clientid_find id (w_clientid_index_hash w)) → NoDup (w_clientid_index_hash w).*1 →
  wp (mqtt3_context_cleanup p false true) (λ _ w', reborn p id c w w') w.
Proof.
  intros Hok Hc Hcs Hid Hfind Hnd. unfold mqtt3_context_cleanup. wp_step.
  eapply wp_mono; [apply (wp_frame (tidies true p)); [apply tidies_cleanup_connection|by apply cleanup_connection_spec]|].
  intros _ w1 [(c1' & ((Hb1 & _) & _)) T1]. wp_step. pose proof T1 as (_ & _ & Hi1 & Hk1 & _). destruct (Hk1 c Hc) as (c1 & Hc1 & K1).
  eapply wp_mono; [apply (wp_frame (tidies true p)); [apply tidies_cleanup_session|apply (cleanup_session_spec p w1 c1 true)]|].
  { by eapply benign_ok. }
  { done. }
  { destruct K1 as (_ & _ & _ & -> & _). done. }
  { done. }
  intros _ w2 [Hr2 T2]. wp_step. assert (tidies true p w w2) as T by (by etrans). pose proof T as (_ & _ & Hi2 & Hk2 & _). destruct (Hk2 c Hc) as (c2 & Hc2 & K2).
  eapply wp_mono; [apply (wp_frame (tidies false p)); [apply tidies_cleanup_identity|apply wp_and; [by apply cleanup_identity_spec|apply (cleanup_identity_exact p w2 c2 id); [done| |by rewrite Hi2]]]|].
  { destruct K2 as (_ & _ & _ & _ & Hid2 & _). by rewrite Hid2. }
  intros _ w3 [(Hr3 & Hi3 & c3 & Hc3 & Hid3) T3]. wp_step. assert (tidies false p w w3) as T'.
  { etrans; [|exact T3]. by apply tidies_weaken. }
  pose proof T' as (_ & _ & _ & Hk3 & _). destruct (Hk3 c Hc) as (d0 & Hd0 & _ & _ & _ & Hcs3 & _). assert (d0 = c3) as -> by congruence.
  assert (c_msgs c3 = []) as Hm3 by (destruct Hr3 as (_ & _ & d & Hd' & Hm); congruence).
  eapply wp_mono; [apply (wp_frame (tidies true p)); [apply tidies_cleanup_buffers|apply wp_and; [by apply cleanup_buffers_spec|apply (cleanup_buffers_exact p w3 c3); [done|done|congruence]]]|].
  intros _ w4 [(Hr4 & c4 & Hc4 & Hf4) T4]. wp_step. pose proof T4 as (_ & _ & Hi4 & Hk4 & _). assert (tidies false p w w4) as (He & Hsub & _ & Hk & _).
  { etrans; [exact T'|]. by apply tidies_weaken. }
  split_and!; [done|done|done| |].
  - rewrite Hi4, Hi3, Hi2 by done. by apply clientid_del_gone.
  - destruct (Hk c Hc) as (d & Hd & Hkd), (Hk4 c3 Hc3) as (d' & Hd' & _ & _ & _ & _ & Hid4 & _). assert (d = c4) as -> by congruence. assert (d' = c4) as -> by congruence.
    exists c4. split; [done|]. split; [exact Hkd|]. split; [by rewrite Hid4|exact Hf4].
Qed.

(** ** A context that is freed *)

Lemma bind_run {A B} (m : ST world A) (k : A → ST world B) w b w' : (m ≫= k) w = Some (b, w') → ∃ a w1, m w = Some (a, w1) ∧ k a w1 = Some (b, w').
Proof. unfold mbind, st_bind. destruct (m w) as [[a w1]|]; [|done]. intros Hk. by exists a, w1. Qed.

(** No other context is touched, and its identifier is not in the index any more. *)
Definition freed (p : ctxid) (w w' : world) : Prop :=
  elsewhere p w w' ∧ sublist (w_clientid_index_hash w') (w_clientid_index_hash w) ∧
  ∀ c id, w_ctxs w !! p = Some c → c_id c = Some id → NoDup (w_clientid_index_hash w).*1 → id ∉ (w_clientid_index_hash w').*1.
Lemma tidies_freed p w w1 w' : tidies true p w w1 → freed p w1 w' → freed p w w'.
Proof.
  intros (He & Hs & Hi & Hk & _) (He' & Hs' & Hf). split_and!; [by etrans|by etrans|]. intros c id Hc Hid Hnd. destruct (Hk c Hc) as (c1 & Hc1 & _ & _ & _ & _ & Hid1 & _).
  apply (Hf c1); [done|by rewrite Hid1|by rewrite Hi].
Qed.
Lemma freed_tidies p w w1 w' : freed p w w1 → tidies true p w1 w' → freed p w w'.
Proof.
  intros (He & Hs & Hf) (He' & Hs' & Hi & _). split_and!; [by etrans|by etrans|]. intros c id Hc Hid Hnd. rewrite Hi by done. by eapply Hf.
Qed.
Lemma freed_delete p w w1 : freed p w w1 → freed p w (w1 <| w_ctxs ::= delete p |>).
Proof. intros ((Ho & Ht & Hcl) & Hs & Hf). split; [|done]. split; [|done]. intros q Hne. cbn. rewrite lookup_delete_ne by done. by apply Ho. Qed.
Lemma freed_cleanup_identity p : frame (freed p) (cleanup_identity p).
Proof.
  intros w a w' Hrun. destruct (tidies_cleanup_identity p _ _ _ Hrun) as (He & Hs & _). split_and!; [done|done|]. intros c id Hc Hid Hnd.
  destruct (clientid_find id (w_clientid_index_hash w)) eqn:Hfind.
  - pose proof (cleanup_identity_exact p w c id Hc Hid ltac:(by eexists)) as Hwp. eapply wp_inv in Hwp as [-> _]; [|done]. by apply clientid_del_gone.
  - apply clientid_find_none in Hfind. intros Hin. apply Hfind. eapply elem_of_sublist; [exact Hin|by apply fmap_sublist].
Qed.
Lemma freed_context_cleanup p clean_subs : frame (freed p) (mqtt3_context_cleanup p true clean_subs).
Proof.
  intros w a w' Hrun. unfold mqtt3_context_cleanup in Hrun. apply bind_run in Hrun as (? & w1 & H1 & Hrun). apply bind_run in Hrun as (? & w2 & H2 & Hrun).
  apply bind_run in Hrun as (? & w3 & H3 & Hrun). apply bind_run in Hrun as (? & w4 & H4 & Hrun). injection Hrun as _ <-. apply freed_delete.
  eapply freed_tidies; [|by eapply (tidies_cleanup_buffers true)]. eapply tidies_freed; [by eapply (tidies_cleanup_connection true)|].
  eapply tidies_freed; [by eapply (tidies_cleanup_session true)|]. by eapply freed_cleanup_identity.
Qed.
End cleanup.
