(* ===== verification/MessageClaims.v ===== *)
(** * What the message database promises

    The bounds of a client's queue, the bookkeeping of insertion, storage and
    removal, the message identifiers and the table of contexts. *)

From S2P Require Import Prelude Topic State Packet PacketProofs Writer Database DatabaseProofs StoreProofs.
From stdpp Require Import options.

(** ** Message identifiers *)

Lemma mid_next_step m : 1 <= m <= 65535 → mid_next m = if m =? 65535 then 1 else m + 1.
Proof.
  intros Hm. unfold mid_next, u16. destruct (Z.eqb_spec m 65535) as [->|Hne]; [done|].
  rewrite Z.mod_small by (change (2 ^ 16) with 65536; lia). destruct (Z.eqb_spec (m + 1) 0); [lia|done].
Qed.

Lemma mid_iter k m : 1 <= m <= 65535 → Nat.iter k mid_next m = (m - 1 + Z.of_nat k) mod 65535 + 1.
Proof.
  intros Hm. induction k as [|k IH].
  - cbn. rewrite Z.add_0_r, Z.mod_small by lia. lia.
  - rewrite Nat.iter_succ, IH. pose proof (Z.mod_pos_bound (m - 1 + Z.of_nat k) 65535 ltac:(lia)) as Hb.
    rewrite mid_next_step by lia. set (x := m - 1 + Z.of_nat k) in *.
    replace (m - 1 + Z.of_nat (S k)) with (x + 1) by lia. rewrite (Z.add_mod x 1) by lia. change (1 mod 65535) with 1.
    destruct (Z.eqb_spec (x mod 65535 + 1) 65535) as [E|E].
    + replace (x mod 65535 + 1) with 65535 by lia. done.
    + rewrite (Z.mod_small (x mod 65535 + 1)) by lia. lia.
Qed.

(** Message identifiers do not repeat early. From any identifier in
    use, 65535 consecutive calls of [_mosquitto_mid_generate] give 65535
    different identifiers, none of them 0, all of 16 bits. *)
Theorem mid_generate_distinct m :
  1 <= m <= 65535 →
  (∀ k, 1 <= Nat.iter k mid_next m <= 65535) ∧
  ∀ i j, Z.of_nat i < 65535 → Z.of_nat j < 65535 → Nat.iter i mid_next m = Nat.iter j mid_next m → i = j.
Proof.
  intros Hm. split.
  - intros k. rewrite mid_iter by done. pose proof (Z.mod_pos_bound (m - 1 + Z.of_nat k) 65535). lia.
  - intros i j Hi Hj. rewrite !mid_iter by done. intros E.
    assert ((Z.of_nat i - Z.of_nat j) mod 65535 = 0) as Hz.
    { replace (Z.of_nat i - Z.of_nat j) with ((m - 1 + Z.of_nat i) - (m - 1 + Z.of_nat j)) by lia.
      rewrite Zminus_mod. replace ((m - 1 + Z.of_nat i) mod 65535) with ((m - 1 + Z.of_nat j) mod 65535) by lia.
      by rewrite Z.sub_diag. }
    apply Z.mod_divide in Hz as [q Hq]; [|lia]. assert (q = 0) by lia. lia.
Qed.

(** ** The table of contexts *)

Lemma first_gap_full l j : (j < first_gap l)%nat → ∃ q, l !! j = Some (Some q).
Proof.
  revert j. induction l as [|[q|] l IH]; intros [|j]; cbn; try lia; [by exists q|]. intros Hj. apply IH. lia.
Qed.
Lemma first_gap_bound l : (first_gap l <= length l)%nat.
Proof. induction l as [|[q|] l IH]; cbn; lia. Qed.
Lemma first_gap_free l : mjoin (l !! first_gap l) = None.
Proof. induction l as [|[q|] l IH]; cbn; done. Qed.

Lemma mjoin_Some {A} (l : list (option A)) i x : mjoin (l !! i) = Some x ↔ l !! i = Some (Some x).
Proof. destruct (l !! i) as [[y|]|]; naive_solver. Qed.
Lemma contexts_with_lookup p l j : mjoin (contexts_with p l !! j) = if decide (j = first_gap l) then Some p else mjoin (l !! j).
Proof.
  unfold contexts_with. pose proof (first_gap_bound l) as Hb. case_decide as Hj.
  - subst j. rewrite list_lookup_insert_eq; [done|]. case_bool_decide; [|lia]. rewrite length_app, length_replicate.
    unfold CONTEXT_REALLOC_SIZE. lia.
  - rewrite list_lookup_insert_ne by done. case_bool_decide; [|done]. destruct (decide (j < length l)%nat).
    + by rewrite lookup_app_l.
    + rewrite (lookup_ge_None_2 l) by lia. rewrite lookup_app_r by lia.
      destruct (replicate CONTEXT_REALLOC_SIZE None !! (j - length l)%nat) as [x|] eqn:E; [|done].
      by apply lookup_replicate in E as [-> _].
Qed.

Section message_claims.
Context `{Env}.

(** a new context gets the first free slot of the table.
    [mqtt3_db_add_new_context] puts it there, growing the table when it is
    full, displaces no other context, and records the slot as the context's
    [numericId] and [db_index]; its socket will be registered with the event
    loop unless it is a websocket. *)
Theorem add_new_context_slot p w c :
  w_ctxs w !! p = Some c →
  wp (mqtt3_db_add_new_context p) (λ rc w', rc = 0 ∧ ∃ i c',
    mjoin (w_contexts w !! i) = None ∧ (∀ j, (j < i)%nat → is_Some (mjoin (w_contexts w !! j))) ∧
    (∀ j, mjoin (w_contexts w' !! j) = if decide (j = i) then Some p else mjoin (w_contexts w !! j)) ∧
    w_ctxs w' = <[p := c']> (w_ctxs w) ∧ c_numericId c' = Z.of_nat i ∧ c_db_index c' = Z.of_nat i ∧
    (c_wsi c = false → p ∈ w_new_clients_hash w' ∧ w_new_client w' = true)) w.
Proof.
  intros Hc. unfold mqtt3_db_add_new_context. wp_steps. eapply wp_ctx_upd; [done|]. wp_steps.
  eapply wp_ctx_get; [apply lookup_insert_eq|]. wp_steps.
  eapply (wp_mono _ (λ _ w1, w_ctxs w1 = <[p := c <| c_numericId := Z.of_nat (first_gap (w_contexts w)) |>]> (w_ctxs w) ∧
    w_contexts w1 = contexts_with p (w_contexts w) ∧
    (c_wsi c = false → p ∈ w_new_clients_hash w1 ∧ w_new_client w1 = true))).
  { cbn [c_wsi upd]. destruct (c_wsi c); [by wp_steps|]. unfold mosquitto_add_new_clients_set. wp_steps.
    split_and!; [done|done|]. intros _. split; [|done]. cbn. unfold hash_add. case_bool_decide; [done|].
    apply elem_of_app. right. apply list_elem_of_here. }
  intros _ w1 (Hw1 & Ht & Hnew). wp_steps. eapply wp_ctx_upd; [rewrite Hw1; apply lookup_insert_eq|]. wp_steps. split; [done|].
  eexists (first_gap (w_contexts w)), _. split_and!.
  - apply first_gap_free.
  - intros j Hj. destruct (first_gap_full _ _ Hj) as [q ->]. by eexists.
  - intros j. cbn. by rewrite Ht, contexts_with_lookup.
  - cbn. rewrite Hw1, insert_insert_eq. done.
  - done.
  - done.
  - done.
Qed.

(** ** Insertion *)

(** inserting a message keeps the database consistent.
    [mqtt3_db_message_insert] always returns, appends at most one entry to the
    client's queue, which refers to the stored message under the message id,
    direction and QoS asked for, and keeps all reference counts and counters
    right, whatever the broker library decides; no other client changes. *)
Theorem message_insert_keeps_invariant p mid dir qos retain stored w c :
  db_ok w → w_ctxs w !! p = Some c → is_Some (w_stores w !! stored) → 0 <= qos <= 2 →
  wp (mqtt3_db_message_insert p mid dir qos retain stored) (λ _ w', db_ok w' ∧ ∃ extra c',
    w_ctxs w' = <[p := c']> (w_ctxs w) ∧ queued_after c extra c' ∧ (length extra <= 1)%nat ∧
    Forall (entry_for mid dir qos retain stored) extra) w.
Proof.
  intros Hok Hc [s Hs] Hq. eapply wp_mono; [by eapply message_insert_spec|].
  intros rc w' (n & (Hok' & _ & _ & extra & c' & Hw & Hqa & HF & Hl & _) & Hn & _).
  split; [done|]. exists extra, c'. split_and!; [done|done|lia|done].
Qed.

(** A refused message leaves the queue alone. *)
Lemma message_insert_refused p mid dir qos retain stored w c r :
  w_ctxs w !! p = Some c → is_Some (w_stores w !! stored) →
  insert_state (w_max_inflight w) (w_max_queued w) c dir qos = inl r →
  wp (mqtt3_db_message_insert p mid dir qos retain stored) (λ _ w', ∃ c',
    w_ctxs w' !! p = Some c' ∧ c_msgs c' = c_msgs c) w.
Proof.
  intros Hc [s Hs] Hr. unfold mqtt3_db_message_insert. wp_steps. eapply wp_ctx_get; [done|]. wp_steps.
  eapply wp_store_get; [done|]. cbv beta. destruct (_ && _ && _ && _); [wp_steps; by exists c|]. wp_steps.
  eapply (wp_mono _ (λ _ w1, ∃ e, w1 = w <| w_env := e |>)).
  { destruct (negb _ && _); [apply wp_ext; intros; by eexists|wp_steps; exists (w_env w); by destruct w]. }
  intros b w1 [e ->]. destruct b; wp_steps; [by exists c|]. cbn [w_max_inflight w_max_queued upd]. rewrite Hr.
  destruct r as [rc [|]]; wp_steps; [|by exists c]. eapply wp_ctx_upd; [done|]. wp_steps.
  eexists. split; [apply lookup_insert_eq|done].
Qed.

(** The room a client's queue has for messages of QoS 1 and 2. *)
Definition queue_limit (w : world) (c : mosquitto) : Z :=
  if is_context_invalid c then w_max_queued w else w_max_inflight w + w_max_queued w.

Lemma queue_limit_same w w' c extra c' : same_rest w w' → queued_after c extra c' → queue_limit w' c' = queue_limit w c.
Proof.
  intros (?&?&?&?&->) (_ & Hs & Hw & _). unfold queue_limit, is_context_invalid. by rewrite Hs, Hw.
Qed.

(** The queues are bounded. Where limits are set, a queue that holds no
    more than [max_inflight + max_queued] messages of QoS 1 and 2 (only
    [max_queued] while the client is away) does not grow beyond that when a
    message is inserted. *)
Theorem message_insert_bounded p mid dir qos retain stored w c :
  db_ok w → w_ctxs w !! p = Some c → is_Some (w_stores w !! stored) → 1 <= qos <= 2 →
  0 < w_max_inflight w → 0 < w_max_queued w → c_msg_count12 c <= queue_limit w c →
  wp (mqtt3_db_message_insert p mid dir qos retain stored) (λ _ w', ∃ c',
    w_ctxs w' !! p = Some c' ∧ c_msg_count12 c' <= queue_limit w' c') w.
Proof.
  intros Hok Hc Hs Hq Hi Hm Hb. pose proof Hs as [s Hs'].
  assert (∀ w' extra c', db_ok w' → same_rest w w' → w_ctxs w' !! p = Some c' → queued_after c extra c' →
    c_msg_count12 c + Z.of_nat (length extra) <= queue_limit w c → ∃ c', w_ctxs w' !! p = Some c' ∧ c_msg_count12 c' <= queue_limit w' c') as Hfin.
  { intros w' extra c' Hok' Hrest Hc' Hqa Hlim. exists c'. split; [done|]. rewrite (queue_limit_same w w' c extra c') by done.
    destruct (ok_queue _ Hok p c Hc) as [_ H1]. destruct (ok_queue _ Hok' p c' Hc') as [_ H2]. destruct Hqa as [Hmsgs _].
    rewrite Hmsgs, qos12_in_app in H2. unfold qos12_in at 2 in H2. pose proof (length_filter (λ m, 0 < m_qos m) extra). lia. }
  destruct (insert_state (w_max_inflight w) (w_max_queued w) c dir qos) as [r|[st rc]] eqn:Hst.
  - eapply wp_mono; [eapply wp_and; [by eapply message_insert_spec; [..|lia]|by eapply message_insert_refused]|].
    intros rc w' [(n & (Hok' & Hrest & _ & extra & c' & Hw & Hqa & _) & _) (c2 & Hc2 & Hsame)].
    assert (w_ctxs w' !! p = Some c') as Hc' by (rewrite Hw; apply lookup_insert_eq). rewrite Hc' in Hc2. simplify_eq.
    eapply (Hfin w' extra c2); [done..|]. destruct Hqa as [Hmsgs _]. rewrite Hmsgs in Hsame.
    apply (f_equal length) in Hsame. rewrite length_app in Hsame. lia.
  - eapply wp_mono; [by eapply message_insert_spec; [..|lia]|].
    intros rc' w' (n & (Hok' & Hrest & _ & extra & c' & Hw & Hqa & _ & Hl & _) & Hn & _).
    assert (w_ctxs w' !! p = Some c') as Hc' by (rewrite Hw; apply lookup_insert_eq).
    eapply (Hfin w' extra c'); [done..|]. cut (c_msg_count12 c + 1 <= queue_limit w c); [lia|].
    revert Hst. unfold insert_state, queue_limit. destruct (is_context_invalid c).
    + destruct (Z.ltb_spec 0 (w_max_queued w)); [|lia]. destruct (Z.leb_spec (w_max_queued w) (c_msg_count12 c)); [done|lia].
    + destruct (Z.eqb_spec qos 0); [lia|]. destruct (Z.eqb_spec (w_max_inflight w) 0); [lia|]. cbn [orb].
      destruct (Z.ltb_spec (c_msg_count12 c) (w_max_inflight w)); [lia|].
      destruct (Z.eqb_spec (w_max_queued w) 0); [lia|]. cbn [orb].
      destruct (Z.ltb_spec (c_msg_count12 c - w_max_inflight w) (w_max_queued w)); [lia|done].
Qed.

(** ** Storing and dropping *)

(** Dropping a client's messages gives back exactly its references.
    [mqtt3_db_messages_delete] empties the queue and its counters, lowers the
    reference count of every stored message by the number of entries of that
    queue that referred to it, and touches no other client. *)
Theorem messages_delete_releases p w c :
  db_ok w → w_ctxs w !! p = Some c →
  wp (mqtt3_db_messages_delete p) (λ rc w', rc = MOSQ_ERR_SUCCESS ∧ db_ok w' ∧
    w_ctxs w' = <[p := emptied c]> (w_ctxs w) ∧
    ∀ x s, w_stores w !! x = Some s → ∃ s', w_stores w' !! x = Some s' ∧ store_core s' = store_core s ∧
      s_ref_count s' = s_ref_count s - refs_in x (c_msgs c)) w.
Proof.
  intros Hok Hc. eapply wp_mono; [by eapply messages_delete_spec|]. intros rc w' (-> & Hok' & Hs & stores & ->).
  split_and!; [done|done|done|]. intros x s Hx. destruct (same_stores_lookup _ _ _ _ Hs Hx) as (s' & Hx' & Hcore).
  exists s'. split_and!; [done|done|]. rewrite (ok_refs _ Hok' x s' Hx'), (ok_refs _ Hok x s Hx). cbn.
  rewrite (refs_insert _ _ c) by done. cbn. change (refs_in x []) with 0. lia.
Qed.
End message_claims.
