(* ===== verification/Net.v ===== *)
(** * New connections

    [mqtt3_socket_accept] of [src/net.c]: a connection on a listener becomes a context of
    the table, within the connection limit of the listener; and the verification of the
    certificates a client presents. *)

From S2P Require Import Prelude Topic State Packet Database Subs Queue Contexts.
From stdpp Require Import options.

(** What OpenSSL shows of a certificate: the SHA-1 digest, if there is one, and the
    extensions, of which each has a NID and its data. *)
Record x509_extension := mk_x509_extension { xe_nid : Z; xe_data : option (list Z) }.
Record x509 := mk_x509 { x_sha1 : option (list Z); x_extensions : option (list (option x509_extension)) }.

Definition hex_digit (n : Z) : string := String (ascii_of_byte (if n <? 10 then 48 + n else 87 + n)) EmptyString.
(** [sprintf("%02x")] of every byte. *)
Fixpoint sha1str_of (fprint : list Z) : string :=
  match fprint with [] => "" | b :: fprint' => hex_digit (Z.shiftr b 4) +:+ hex_digit (Z.land b 15) +:+ sha1str_of fprint' end.

(** What [mqtt3_socket_accept] needs of [struct _mqtt3_listener]. *)
Record mqtt3_listener := mk_mqtt3_listener { li_socks : list Z; li_max_connections : Z; li_ssl_ctx : bool }.

(** The operating system and OpenSSL, for a new connection; two calls of [dxl.h]. *)
Class NetEnv `{Env} := {
  net_accept : Z → env → Z * env;                   (* accept(2) *)
  net_nonblock : Z → env → bool * env;              (* _mosquitto_socket_nonblock: failed *)
  ssl_new : Z → env → bool * env;                   (* SSL_new *)
  ssl_certificates : Z → env → list (option x509) * env;     (* what the handshake verifies *)
  ssl_accept : Z → list bool → env → (Z * ssl_error) * env; (* SSL_accept, SSL_get_error *)
  asn1_get_object : list Z → Z * Z * Z;             (* ASN1_get_object: result, header, length *)
  dxl_is_cert_revoked : string → env → bool;
  dxl_is_tenant_connection_allowed : mosquitto → env → bool * env }.

Section net.
Context `{NetEnv}.
(** The object identifiers of the DXL extensions, 0 if there are none. *)
Variables NID_dxlClientGuid NID_dxlTenantGuid : Z.
Variable listeners : list mqtt3_listener.

(** ** Certificates *)

(** The thumbprint: is it revoked, and the set of hashes with it. *)
Definition process_thumbprint (p : ctxid) (cert : x509) : ST world bool :=
  match x_sha1 cert with
  | None => mret true
  | Some fprint =>
    assert_ (bool_decide (2 * length fprint < 41)%nat);;
    let sha1str := sha1str_of fprint in
    revoked ← gets (λ w, dxl_is_cert_revoked sha1str (w_env w));
    ctx_upd p (λ c, if bool_decide (sha1str ∈ c_cert_hashes c) then c else c <| c_cert_hashes ::= λ l, l ++ [sha1str] |>);;
    mret (negb revoked)
  end.

(** The GUID in the data of an extension: up to its first NUL byte. *)
Definition guid_of_extension (octets : list Z) : ST world (option string) :=
  if bool_decide (octets = []) then mret None
  else
    let '(asn1_ret, hdr, xlen) := asn1_get_object octets in
    if (Z.land asn1_ret 0x80 =? 0) && (0 <=? xlen) && (xlen <=? Z.of_nat (length octets) - hdr) then
      assert_ ((0 <=? hdr) && (hdr + xlen <=? Z.of_nat (length octets)));;
      mret (Some (cstr_of_bytes (take (Z.to_nat xlen) (drop (Z.to_nat hdr) octets))))
    else mret None.

Definition process_guid (p : ctxid) (nid : Z) (guid : string) : ST world bool :=
  if nid =? NID_dxlClientGuid then ctx_upd p (λ c, c <| c_dxl_client_guid := Some guid |>);; mret true
  else
    ctx_upd p (λ c, c <| c_dxl_tenant_guid := Some guid |>);;
    c ← ctx_get p;
    exceeded ← ext (dxl_update_sent_byte_count c 0);
    if (exceeded : bool) then mret false
    else ext (dxl_is_tenant_connection_allowed c).

Fixpoint process_extensions (p : ctxid) (l : list (option x509_extension)) (succeeded : bool) : ST world bool :=
  match l with
  | [] => mret succeeded
  | None :: l' => process_extensions p l' succeeded
  | Some x :: l' =>
    let nid := xe_nid x in
    ok ← (if negb (nid =? 0) && ((nid =? NID_dxlClientGuid) || (nid =? NID_dxlTenantGuid)) then
            match xe_data x with
            | None => mret true
            | Some octets =>
              guid ← guid_of_extension octets;
              match guid with Some guid => process_guid p nid guid | None => mret true end
            end
          else mret true);
    process_extensions p l' (succeeded && ok)
  end.

(** [cert] is the certificate the verification is at, or NULL, which passes. *)
Definition mosquitto_process_client_certificate (p : ctxid) (cert : option x509) : ST world bool :=
  match cert with
  | None => mret true
  | Some x =>
    succeeded ← process_thumbprint p x;
    if NID_dxlClientGuid =? 0 then mret succeeded
    else match x_extensions x with Some l => process_extensions p l succeeded | None => mret succeeded end
  end.

(** [client_certificate_verify], for each certificate of the chain. *)
Fixpoint client_certificate_verify (p : ctxid) (certs : list (option x509)) : ST world (list bool) :=
  match certs with
  | [] => mret []
  | cert :: certs' =>
    ok ← mosquitto_process_client_certificate p cert;
    oks ← client_certificate_verify p certs';
    mret (ok :: oks)
  end.

(** ** Accepting *)

(** [mqtt3_context_cleanup] with [do_free] and no database: the client has no identifier
    yet. *)
Definition mqtt3_context_cleanup_new (p : ctxid) : ST world () :=
  cleanup_connection p;;
  c ← ctx_get p;
  assert_ (bool_decide (c_id c = None));;
  cleanup_identity p;;
  cleanup_buffers p true;;
  modify (λ w, w <| w_ctxs ::= delete p |>).

(** The listeners whose socket this is count the client; the last one has it. *)
Fixpoint find_listener (p : ctxid) (listensock : Z) (l : list mqtt3_listener) (i : nat) : ST world () :=
  match l with
  | [] => mret tt
  | li :: l' =>
    (if bool_decide (listensock ∈ li_socks li) then
       ctx_upd p (λ c, c <| c_listener := Some i |>);;
       modify (λ w, w <| w_listener_client_count ::= alter (λ n, n + 1) i |>)
     else mret tt);;
    find_listener p listensock l' (S i)
  end.

(** TLS on a new connection; [false] when it fails. *)
Definition tls_init (p : ctxid) (sock : Z) : ST world bool :=
  created ← ext (ssl_new sock);
  if negb (created : bool) then mret false
  else
    ctx_upd p (λ c, c <| c_ssl := true |> <| c_want_write := true |>);;
    certs ← ext (ssl_certificates sock);
    oks ← client_certificate_verify p certs;
    r ← ext (ssl_accept sock oks);
    let '(rc, err) := r in
    if rc =? 1 then mret true
    else
      match err with
      | ssl_want_read => mret true
      | ssl_want_write => ctx_upd p (λ c, c <| c_want_write := true |>);; mret true
      | ssl_other => mret false
      end.
Fixpoint tls_socks (p : ctxid) (sock listensock : Z) (li : mqtt3_listener) (socks : list Z) : ST world bool :=
  match socks with
  | [] => mret true
  | s :: socks' =>
    ok ← (if (s =? listensock) && li_ssl_ctx li then tls_init p sock else mret true);
    if (ok : bool) then tls_socks p sock listensock li socks' else mret false
  end.
Fixpoint tls_listeners (p : ctxid) (sock listensock : Z) (l : list mqtt3_listener) : ST world bool :=
  match l with
  | [] => mret true
  | li :: l' =>
    ok ← tls_socks p sock listensock li (li_socks li);
    if (ok : bool) then tls_listeners p sock listensock l' else mret false
  end.

(** The client is one too many for its listener. *)
Definition too_many (li : mqtt3_listener) (client_count : Z) : bool :=
  (0 <? li_max_connections li) && (li_max_connections li <? client_count).

Definition mqtt3_socket_accept (listensock : Z) : ST world Z :=
  new_sock ← ext (net_accept listensock);
  if new_sock =? INVALID_SOCKET then mret (-1)
  else
    blocking ← ext (net_nonblock new_sock);
    if (blocking : bool) then mret INVALID_SOCKET
    else
      new ← mqtt3_context_init new_sock;
      match new with
      | None => ext (env_close new_sock);; mret (-1)
      | Some p =>
        find_listener p listensock listeners 0;;
        c ← ctx_get p;
        match c_listener c with
        | None => mqtt3_context_cleanup_new p;; mret (-1)
        | Some i =>
          li ← deref (λ _, listeners !! i);
          counts ← gets w_listener_client_count;
          if too_many li (default 0 (counts !! i)) then mqtt3_context_cleanup_new p;; mret (-1)
          else
            secure ← tls_listeners p new_sock listensock listeners;
            if negb secure then mqtt3_context_cleanup_new p;; mret (-1)
            else
              rc ← mqtt3_db_add_new_context p;
              if negb (rc =? 0) then mret (-1) else mret new_sock
        end
      end.
End net.
