(* ===== verification/NetProofs.v ===== *)
(** * New connections are safe

    A connection is accepted into a sound broker, or turned away without a trace; the
    listener does not take more clients than it may. The verification of a certificate
    stays inside its data, whatever they are. *)

From S2P Require Import Prelude Topic State Packet PacketProofs Writer Database DatabaseProofs StoreProofs Subs SubsProofs SubscribeProofs SubsClaims PublishProofs Queue Contexts ContextProofs.
From S2P Require Import UnsubscribeProofs Handlers HandlerProofs SubscribeHandlerProofs Frames Soundness MessageClaims Net.
From stdpp Require Import options.

(** A certificate as OpenSSL gives it, if it gives one: a SHA-1 digest has 20 bytes. *)
Definition x509_ok (cert : option x509) : Prop := ∀ x fprint, cert = Some x → x_sha1 x = Some fprint → length fprint = 20%nat.
(** Digests have their length; a certificate that does not verify ends the handshake.
    [ASN1_get_object] leaves the pointer inside the data, unless it reports an error. *)
Class NetLaws `{NetEnv} := {
  ssl_certificates_law s e : Forall x509_ok (ssl_certificates s e).1;
  ssl_reject_law s oks e : false ∈ oks → (ssl_accept s oks e).1.1 ≠ 1 ∧ (ssl_accept s oks e).1.2 = ssl_other;
  asn1_law octets ret hdr xlen : asn1_get_object octets = (ret, hdr, xlen) → Z.land ret 0x80 = 0 → 0 <= hdr <= Z.of_nat (length octets) }.

Section net.
Context `{NetLaws}.
#[local] Set Default Proof Using "Type*".
Variables NID_dxlClientGuid NID_dxlTenantGuid : Z.
Variable listeners : list mqtt3_listener.
Implicit Types p : ctxid.

(** ** The counts of the listeners *)

(** A client of listener [i] comes and goes. *)
Definition bump (i : option nat) (counts : gmap nat Z) : gmap nat Z :=
  match i with Some i => alter (λ n, n + 1) i counts | None => counts end.
Definition leave (i : option nat) (counts : gmap nat Z) : gmap nat Z :=
  match i with Some i => alter (λ n, n - 1) i counts | None => counts end.
Lemma leave_bump i counts : leave i (bump i counts) = counts.
Proof.
  destruct i as [i|]; [|done]. cbn. apply map_eq. intros j. destruct (decide (j = i)) as [->|]; [|by rewrite !lookup_alter_ne].
  rewrite !lookup_alter_eq. destruct (counts !! i); [|done]. cbn. f_equal. lia.
Qed.

Definition same_counts (w w' : world) : Prop := w_listener_client_count w' = w_listener_client_count w.
#[export] Instance same_counts_preorder : PreOrder same_counts.
Proof. split; [by intros w|]. unfold same_counts. intros w1 w2 w3 ??. congruence. Qed.
Lemma same_counts_upd p f : frame same_counts (ctx_upd p f).
Proof. intros w a w'. unfold ctx_upd, mbind, st_bind, ctx_get, deref. destruct (w_ctxs w !! p) as [c|]; [|done]. by intros [= _ <-]. Qed.
#[local] Hint Resolve same_counts_upd : frames.
Ltac counts := repeat frame_step ltac:(done).
Lemma same_counts_release l : frame same_counts (release_refs l).
Proof. induction l; cbn [release_refs]; counts. Qed.
#[local] Hint Resolve same_counts_release : frames.
Lemma same_counts_identity p : frame same_counts (cleanup_identity p).
Proof. unfold cleanup_identity, mqtt3_context_cleanup_certs, mosquitto_remove_pending_bytes_set, mqtt3_db_remove_canonical_client_id; counts. Qed.
Lemma same_counts_buffers p do_free : frame same_counts (cleanup_buffers p do_free).
Proof. unfold cleanup_buffers; counts. Qed.
Lemma same_counts_socket_close p : frame same_counts (_mosquitto_socket_close p).
Proof. unfold _mosquitto_socket_close, remove_new_msgs_set, remove_new_clients_set; counts. Qed.
#[local] Hint Resolve same_counts_socket_close : frames.
Lemma same_counts_init sock : frame same_counts (mqtt3_context_init sock).
Proof. unfold mqtt3_context_init, mosquitto_time; counts. Qed.
Lemma cleanup_connection_counts p c w a w' : w_ctxs w !! p = Some c → c_sock c ≠ INVALID_SOCKET → cleanup_connection p w = Some (a, w') →
  w_listener_client_count w' = leave (c_listener c) (w_listener_client_count w).
Proof.
  intros Hc Hsock%Z.eqb_neq Hrun. unfold cleanup_connection in Hrun. apply bind_run in Hrun as (? & w1 & R1 & Hrun). apply bind_run in Hrun as (c1 & w2 & R2 & Hrun).
  unfold ctx_upd, ctx_get, mbind, st_bind, deref in R1. rewrite Hc in R1. injection R1 as _ <-.
  unfold ctx_get, deref in R2. cbn in R2. rewrite lookup_insert_eq in R2. injection R2 as <- <-. cbn [c_sock c_listener upd] in Hrun. unfold INVALID_SOCKET in Hsock. rewrite Hsock in Hrun.
  apply bind_run in Hrun as (? & w3 & R3 & Hrun). apply bind_run in R3 as (? & w4 & R4 & R3).
  assert (w_listener_client_count w4 = leave (c_listener c) (w_listener_client_count w)) as <- by (destruct (c_listener c); by injection R4 as _ <-).
  assert (frame same_counts (_mosquitto_socket_close p;; ctx_upd p (λ c, c <| c_listener := None |>))) as Hf1 by counts.
  assert (frame same_counts (c ← ctx_get p; if c_wsi c then ctx_upd p (λ c, c <| c_state := mosq_cs_ws_dead |>);; ext_ (env_ws_callback p) else mret tt)) as Hf2 by counts.
  etrans; [by eapply Hf2|by eapply Hf1].
Qed.

(** ** A context that is not in the table yet *)

Definition guest (c : mosquitto) : Prop :=
  c_id c = None ∧ c_msgs c = [] ∧ c_state c = mosq_cs_new ∧ c_bridge c = None ∧ is_Some (c_address c) ∧ c_packet_count c = 0 ∧ c_sock c ≠ INVALID_SOCKET.
Definition visiting (p : ctxid) (w0 w : world) : Prop :=
  sound None None w ∧ (∀ i, w_contexts w !! i ≠ Some (Some p)) ∧ (table w = table w0 ∧ ∀ q, q ≠ p → w_ctxs w !! q = w_ctxs w0 !! q) ∧
  ∃ c, w_ctxs w !! p = Some c ∧ guest c.

(** What a step may change in it. *)
Definition guest_stays (c c' : mosquitto) : Prop := place c' = place c ∧ output c' = output c ∧ c_in_packet c' = c_in_packet c ∧ ctx_core c' = ctx_core c ∧ c_bridge c' = c_bridge c.
Lemma guest_stays_refl c : guest_stays c c.
Proof. by split_and!. Qed.
Lemma guest_stays_trans c1 c2 c3 : guest_stays c1 c2 → guest_stays c2 c3 → guest_stays c1 c3.
Proof. intros (?&?&?&?&?) (?&?&?&?&?). split_and!; congruence. Qed.
Lemma visiting_reached p w0 w w' c c' : visiting p w0 w → w_ctxs w !! p = Some c → reached p c' w w' → guest_stays c c' → visiting p w0 w'.
Proof.
  intros (Hs & Hno & [Ht Hq] & d & Hd & Hg) Hc Hr (Hpl & Ho & Hk & Hcore & Hb). assert (d = c) as -> by congruence. clear Hd.
  pose proof Hr as (_ & Hreg & Hw). unfold registry in Hreg. assert (table w' = table w) as Ht' by (unfold table; congruence). split_and!.
  - eapply (sound_reached None None None None p c); [done|done|exact Hr|unfold place in Hpl; unfold slot; congruence| |done].
    apply (place_sound _ _ _ c); [done|done|eapply output_wf, so_context; done| |by eapply sound_context]. unfold outwards, ctx_core in *. congruence.
  - unfold table in Ht'. by replace (w_contexts w') with (w_contexts w) by congruence.
  - congruence.
  - intros q Hne. rewrite Hw, lookup_insert_ne by done. by apply Hq.
  - exists c'. split; [by eapply reached_lookup|]. unfold guest, place, output, ctx_core in *. destruct Hg as (?&?&?&?&?&?&?). split_and!; try congruence.
Qed.
Lemma visiting_upd p w0 w f (Q : () → world → Prop) : visiting p w0 w → (∀ c, guest_stays c (f c)) → (∀ w', visiting p w0 w' → Q tt w') → wp (ctx_upd p f) Q w.
Proof.
  intros Hv Hf HQ. pose proof Hv as (_ & _ & _ & c & Hc & _). destruct (Hf c) as (_ & _ & _ & Hcore & _). eapply wp_reached_upd; [by apply reached_refl|done|].
  intros w' Hr. by eapply HQ, visiting_reached.
Qed.
Lemma visiting_frame p w0 w w' : visiting p w0 w → benign w w' → table w' = table w → w_ctxs w' = w_ctxs w → visiting p w0 w'.
Proof.
  intros (Hs & Hno & [Ht Hq] & c & Hc & Hg) Hb Ht' Hw. split_and!; [by eapply sound_frame|unfold table in Ht'; by replace (w_contexts w') with (w_contexts w) by congruence|congruence|by rewrite Hw|].
  exists c. by rewrite Hw.
Qed.
Lemma visiting_ext {A} p w0 w (f : env → A * env) (Q : A → world → Prop) : visiting p w0 w → (∀ a w', visiting p w0 w' → a = (f (w_env w)).1 → Q a w') → wp (ext f) Q w.
Proof. intros Hv HQ. apply wp_ext. intros a e He. apply HQ; [by eapply visiting_frame|by rewrite He]. Qed.
Lemma visiting_get p w0 w (Q : mosquitto → world → Prop) : visiting p w0 w → (∀ c, w_ctxs w !! p = Some c → guest c → Q c w) → wp (ctx_get p) Q w.
Proof. intros (_ & _ & _ & c & Hc & Hg) HQ. eapply wp_ctx_get; [done|]. by apply HQ. Qed.

(** A fresh context, of whose address nothing is left in the broker. *)
Lemma broker_ok_insert p c w : broker_ok w → w_ctxs w !! p = None → c_msgs c = [] → c_msg_count c = 0 → c_msg_count12 c = 0 →
  broker_ok (w <| w_ctxs ::= <[p := c]> |>).
Proof.
  intros [[D1 D2 D3 D4 D5 D6] [Hwf Hlive] Hg Hroot] Hp Hm Hn Hn12. assert (∀ s, refs (<[p := c]> (w_ctxs w)) s = refs (w_ctxs w) s) as Hrefs.
  { intros s. rewrite (refs_delete _ p c) by apply lookup_insert_eq. rewrite Hm, delete_insert_eq, delete_id by done. change (refs_in s []) with 0. lia. }
  split; [|split; [done|]|done|done].
  - split; try done.
    + intros q d. cbn. destruct (decide (q = p)) as [->|Hne]; [rewrite lookup_insert_eq; intros [= <-]|rewrite lookup_insert_ne by done; apply D1]. unfold queue_ok. by rewrite Hm, Hn, Hn12.
    + intros s m Hs. cbn. rewrite Hrefs. by apply D2.
    + intros q d. cbn. destruct (decide (q = p)) as [->|Hne]; [rewrite lookup_insert_eq; intros [= <-]; rewrite Hm; constructor|rewrite lookup_insert_ne by done; apply D3].
  - intros path. eapply Forall_impl; [apply (Hlive path)|]. intros leaf. unfold leaf_live, client_id. cbn. intros [id Hid].
    destruct (decide (l_context leaf = p)) as [E|Hne]; [by rewrite E, Hp in Hid|rewrite lookup_insert_ne by done; by exists id].
Qed.
Lemma visiting_new p c w : sound None None w → w_ctxs w !! p = None → guest c → c_msg_count c = 0 → c_msg_count12 c = 0 → context_sound None None p c →
  visiting p w (w <| w_ctxs ::= <[p := c]> |>).
Proof.
  intros Hs Hp Hg Hn Hn12 Hc. assert (∀ i, w_contexts w !! i ≠ Some (Some p)) as Hno.
  { intros i Hi. destruct (so_slot _ _ _ Hs i p Hi) as (d & Hd & _). congruence. }
  split_and!; [|done|done|intros; by apply lookup_insert_ne|exists c; split; [apply lookup_insert_eq|done]].
  assert (∀ q d, w_ctxs w !! q = Some d → <[p := c]> (w_ctxs w) !! q = Some d) as Hold by (intros q d Hd; rewrite lookup_insert_ne; [done|congruence]).
  assert (∀ q d, <[p := c]> (w_ctxs w) !! q = Some d → context_sound None None q d) as Hall.
  { intros q d. destruct (decide (q = p)) as [->|Hne]; [rewrite lookup_insert_eq; by intros [= <-]|rewrite lookup_insert_ne by done; by apply sound_context]. }
  split; try apply Hs; [by apply broker_ok_insert; [apply Hs|..]; try apply Hg| |by intros; eapply Hall..|].
  - intros i q Hi. destruct (so_slot _ _ _ Hs i q Hi) as (d & Hd & Hx). exists d. split; [by apply Hold|done].
  - intros id i Hi. destruct (so_index _ _ _ Hs id i Hi) as (j & q & d & -> & Hj & Hd & Hid). exists j, q, d. split_and!; try done. by apply Hold.
Qed.

(** Turned away: nothing is left. *)
Lemma freed_cleanup_new p : frame (freed p) (mqtt3_context_cleanup_new p).
Proof.
  intros w a w' Hrun. unfold mqtt3_context_cleanup_new in Hrun. apply bind_run in Hrun as (? & w1 & R1 & Hrun). apply bind_run in Hrun as (c & w2 & R2 & Hrun).
  assert (w2 = w1) as -> by (unfold ctx_get, deref in R2; by destruct (w_ctxs w1 !! p); simplify_eq).
  apply bind_run in Hrun as (? & w2 & R3 & Hrun). assert (w2 = w1) as -> by (unfold assert_ in R3; destruct (bool_decide _); [by injection R3|done]).
  apply bind_run in Hrun as (? & w3 & R4 & Hrun). apply bind_run in Hrun as (? & w4 & R5 & Hrun). injection Hrun as _ <-. apply freed_delete.
  eapply freed_tidies; [|by eapply (tidies_cleanup_buffers true)]. eapply tidies_freed; [by eapply (tidies_cleanup_connection true)|]. by eapply freed_cleanup_identity.
Qed.
Lemma cleanup_new_ok p w c : broker_ok w → w_ctxs w !! p = Some c → guest c → wp (mqtt3_context_cleanup_new p) (λ _ w', broker_ok w' ∧ w_ctxs w' !! p = None) w.
Proof.
  intros Hok Hc (Hid & Hm & _). unfold mqtt3_context_cleanup_new. wp_step. eapply wp_mono; [by apply cleanup_connection_spec|]. intros _ w1 (c1 & Hr1 & _).
  pose proof (reached_lookup _ _ _ _ Hr1) as Hc1. assert (ctx_core c1 = ctx_core c) as Hcore.
  { destruct Hr1 as ((_ & _ & _ & _ & Hq) & _). specialize (Hq p). rewrite Hc1, Hc in Hq. cbn in Hq. congruence. }
  assert (c_id c1 = None ∧ c_msgs c1 = []) as [Hid1 Hm1] by (unfold ctx_core in Hcore; split; congruence).
  assert (broker_ok w1) as Hok1 by (eapply benign_ok; [apply Hr1|done]).
  wp_step. eapply wp_ctx_get; [done|]. cbv beta. wp_step. wp_step; [by rewrite bool_decide_eq_true_2|]. wp_step. assert (retired p w1) as Hret.
  { split; [done|]. split; [|by exists c1]. intros path. destruct (bo_tree _ Hok1) as [_ Hlive]. eapply Forall_impl; [apply (Hlive path)|]. intros leaf. unfold leaf_live, client_id. intros Hl E. rewrite E, Hc1 in Hl. cbn in Hl. rewrite Hid1 in Hl. by destruct Hl. }
  eapply wp_mono; [by apply cleanup_identity_spec|]. intros ? w2 Hr2. wp_step. eapply wp_mono; [by apply cleanup_buffers_spec|]. intros ? w3 Hr3. wp_step.
  destruct (retired_change p w3 (w3 <| w_ctxs ::= delete p |>)) as [Hok3 _]; try done.
  - intros q Hne. by apply lookup_delete_ne.
  - intros d Hd. cbn in Hd. by rewrite lookup_delete_eq in Hd.
  - split; [done|apply lookup_delete_eq].
Qed.
Definition turned_off (p : ctxid) (w0 w' : world) : Prop :=
  sound None None w' ∧ (w_contexts w' = w_contexts w0 ∧ w_sessions_to_clean w' = w_sessions_to_clean w0) ∧ w_ctxs w' !! p = None ∧ ∀ q, q ≠ p → w_ctxs w' !! q = w_ctxs w0 !! q.
Lemma cleanup_new_counts p c w a w' : w_ctxs w !! p = Some c → c_sock c ≠ INVALID_SOCKET → mqtt3_context_cleanup_new p w = Some (a, w') →
  w_listener_client_count w' = leave (c_listener c) (w_listener_client_count w).
Proof.
  intros Hc Hsock Hrun. unfold mqtt3_context_cleanup_new in Hrun. apply bind_run in Hrun as (? & w1 & R1 & Hrun). rewrite <- (cleanup_connection_counts _ _ _ _ _ Hc Hsock R1).
  assert (frame same_counts (c ← ctx_get p; assert_ (bool_decide (c_id c = None));; cleanup_identity p;; cleanup_buffers p true;; modify (λ w, w <| w_ctxs ::= delete p |>))) as Hf; [|by eapply Hf].
  pose proof (same_counts_identity p). pose proof (same_counts_buffers p true). counts.
Qed.
Lemma cleanup_new_safe p w0 w : visiting p w0 w → wp (mqtt3_context_cleanup_new p) (λ _ w', turned_off p w0 w') w.
Proof.
  intros (Hs & Hno & [Ht Hq] & c & Hc & Hg). eapply wp_mono; [apply (wp_frame (freed p)); [apply freed_cleanup_new|by apply (cleanup_new_ok p w c); [apply Hs|..]]|].
  intros _ w' [[Hok' Hp'] ((Ho & Htab & Hcl) & Hsub & Hfree)]. unfold table in Ht. split_and!; [|congruence|congruence|done|intros q Hne; rewrite Ho by done; by apply Hq].
  apply (sound_gone p w); [done|done|done|done| |done|].
  - intros i q. rewrite Htab. split; [|by intros [? _]]. intros Hi. split; [done|]. intros ->. by apply (Hno i).
  - intros d id Hd Hid. eapply Hfree; [done|done|apply Hs].
Qed.

(** ** Certificates *)

(** Nothing but the TLS side of the context changes. *)
Definition tls_stays (c c' : mosquitto) : Prop := guest_stays c c' ∧ c_listener c' = c_listener c.
Lemma tls_stays_refl c : tls_stays c c.
Proof. split; [apply guest_stays_refl|done]. Qed.
Lemma tls_stays_trans c1 c2 c3 : tls_stays c1 c2 → tls_stays c2 c3 → tls_stays c1 c3.
Proof. intros [R1 D1] [R2 D2]. split; [by eapply guest_stays_trans|congruence]. Qed.

(** Hashes [l] become [l'], none twice; the new ones are of certificates that are not
    revoked, or not all is well. *)
Definition revoked (e : env) (h : string) : Prop := dxl_is_cert_revoked h e = true.
Definition ever_revoked (h : string) : Prop := ∀ e, revoked e h.
Definition noted (P : string → Prop) (c c' : mosquitto) (ok : bool) : Prop :=
  tls_stays c c' ∧ c_cert_hashes c ⊆ c_cert_hashes c' ∧ (NoDup (c_cert_hashes c) → NoDup (c_cert_hashes c')) ∧
  ∀ h, h ∈ c_cert_hashes c' → h ∈ c_cert_hashes c ∨ (P h → ok = false).
Lemma noted_same P c c' ok : tls_stays c c' → c_cert_hashes c' = c_cert_hashes c → noted P c c' ok.
Proof. intros Hs E. split; [done|]. rewrite E. split_and!; [done|done|by left]. Qed.
Lemma noted_trans P c1 c2 c3 ok1 ok2 : noted P c1 c2 ok1 → noted P c2 c3 ok2 → noted P c1 c3 (ok1 && ok2).
Proof.
  intros (R1 & S1 & N1 & V1) (R2 & S2 & N2 & V2). split_and!; [by eapply tls_stays_trans|by etrans|by auto|].
  intros h Hh. destruct (V2 h Hh) as [[?|E]%V1|E]; [by left|right; intros HP; by rewrite E|right; intros HP; rewrite E by done; by rewrite andb_comm].
Qed.
Lemma noted_weaken (P P' : string → Prop) c c' ok ok' : noted P c c' ok → (∀ h, P' h → P h) → (ok' = true → ok = true) → noted P' c c' ok'.
Proof.
  intros (R1 & S1 & N1 & V1) HP Hok. split_and!; [done..|]. intros h Hh. destruct (V1 h Hh) as [?|E]; [by left|right]. intros Hp%HP%E.
  destruct ok'; [|done]. by rewrite Hok in Hp.
Qed.

Definition thumbprint_in (cert : option x509) (c' : mosquitto) (e : env) (ok : bool) : Prop :=
  ∀ x fprint, cert = Some x → x_sha1 x = Some fprint → sha1str_of fprint ∈ c_cert_hashes c' ∧ (revoked e (sha1str_of fprint) → ok = false).
Lemma process_thumbprint_spec p x w0 w c : reached p c w0 w → x509_ok (Some x) →
  wp (process_thumbprint p x) (λ ok w', ∃ c', reached p c' w0 w' ∧ noted (revoked (w_env w)) c c' ok ∧ thumbprint_in (Some x) c' (w_env w) ok) w.
Proof.
  intros Hr Hlen. unfold process_thumbprint. destruct (x_sha1 x) as [fprint|] eqn:Hsha.
  2: { wp_step. exists c. split; [done|]. split; [by apply noted_same, eq_refl; apply tls_stays_refl|]. intros x' fprint [= <-]. congruence. }
  wp_step. wp_step; [rewrite (Hlen x fprint) by done; done|]. cbv zeta. do 3 wp_step. eapply wp_reached_upd; [done|by case_bool_decide|]. intros w' Hr'. wp_step.
  eexists. split; [exact Hr'|]. assert (∀ h, revoked (w_env w) h → negb (dxl_is_cert_revoked h (w_env w)) = false) as Hneg by (intros h Hh; by rewrite Hh).
  split; [|intros ? ? [= <-] Hf; rewrite Hsha in Hf; injection Hf as <-; split; [|by apply Hneg]; case_bool_decide; [done|cbn; set_solver]].
  case_bool_decide as Hin; [by apply noted_same; [apply tls_stays_refl|]|]. split_and!; [by split; [split_and!|]|cbn; set_solver| |].
  - cbn. intros Hnd. apply NoDup_app. split_and!; [done|set_solver|apply NoDup_singleton].
  - cbn. intros h [Hh|Hh]%elem_of_app; [by left|right]. apply list_elem_of_singleton in Hh as ->. apply Hneg.
Qed.

Lemma guid_of_extension_safe octets w (Q : option string → world → Prop) : (∀ guid, Q guid w) → wp (guid_of_extension octets) Q w.
Proof.
  intros HQ. unfold guid_of_extension. case_bool_decide; [by wp_step|]. destruct (asn1_get_object octets) as [[ret hdr] xlen] eqn:Hasn.
  destruct (_ && _ && _) eqn:Hb; [|by wp_step]. apply andb_true_iff in Hb as [[Hret Hx]%andb_true_iff Hlen].
  apply Z.eqb_eq in Hret. apply Z.leb_le in Hx, Hlen. destruct (asn1_law _ _ _ _ Hasn Hret) as [Hh0 Hh]. wp_step. wp_step; [|by wp_step].
  apply andb_true_iff. split; apply Z.leb_le; lia.
Qed.

(** What the extensions change is not even in the hashes. *)
Definition same_hashes (c c' : mosquitto) : Prop := tls_stays c c' ∧ c_cert_hashes c' = c_cert_hashes c.
Lemma process_guid_safe p nid guid w0 w c : reached p c w0 w →
  wp (process_guid NID_dxlClientGuid p nid guid) (λ _ w', ∃ c', reached p c' w0 w' ∧ same_hashes c c') w.
Proof.
  intros Hr. unfold process_guid. destruct (nid =? _).
  - wp_step. eapply wp_reached_upd; [done|done|]. intros w1 Hr1. wp_step. eexists. split; [exact Hr1|]. by split; [split; [split_and!|]|].
  - wp_step. eapply wp_reached_upd; [done|done|]. intros w1 Hr1. wp_step. eapply wp_reached_get; [done|]. cbv beta. wp_step.
    eapply wp_reached_ext; [done|]. intros exceeded w2 Hr2. assert (∀ w3, reached p (c <| c_dxl_tenant_guid := Some guid |>) w0 w3 → ∃ c', reached p c' w0 w3 ∧ same_hashes c c') as Hdone.
    { intros w3 Hr3. eexists. split; [exact Hr3|]. by split; [split; [split_and!|]|]. }
    destruct exceeded; [wp_step; by apply Hdone|]. eapply wp_reached_ext; [done|]. intros ok w3 Hr3. by apply Hdone.
Qed.
Lemma process_extensions_safe p l succeeded w0 w c : reached p c w0 w →
  wp (process_extensions NID_dxlClientGuid NID_dxlTenantGuid p l succeeded) (λ ok w', (ok = true → succeeded = true) ∧ ∃ c', reached p c' w0 w' ∧ same_hashes c c') w.
Proof.
  revert succeeded w c. induction l as [|[x|] l IH]; intros succeeded w c Hr; cbn [process_extensions].
  - wp_step. split; [done|]. exists c. split; [done|]. by split; [apply tls_stays_refl|].
  - wp_step. eapply (wp_mono _ (λ _ w', ∃ c', reached p c' w0 w' ∧ same_hashes c c')).
    + assert (∃ c', reached p c' w0 w ∧ same_hashes c c') as Hsame by (exists c; split; [done|]; by split; [apply tls_stays_refl|]).
      destruct (_ && _); [|by wp_step]. destruct (xe_data x); [|by wp_step]. wp_step. apply guid_of_extension_safe. intros [guid|]; [|by wp_step]. by apply process_guid_safe.
    + intros ok w1 (c1 & Hr1 & Hs1 & Hh1). eapply wp_mono; [by apply IH|]. intros ok' w2 (Hok & c2 & Hr2 & Hs2 & Hh2). split.
      * intros E. specialize (Hok E). by destruct succeeded.
      * exists c2. split; [done|]. split; [by eapply tls_stays_trans|congruence].
  - by apply IH.
Qed.
Lemma process_certificate_spec p cert w0 w c : reached p c w0 w → x509_ok cert →
  wp (mosquitto_process_client_certificate NID_dxlClientGuid NID_dxlTenantGuid p cert)
     (λ ok w', ∃ c', reached p c' w0 w' ∧ noted (revoked (w_env w)) c c' ok ∧ thumbprint_in cert c' (w_env w) ok) w.
Proof.
  intros Hr Hx. unfold mosquitto_process_client_certificate. destruct cert as [x|].
  2: { wp_step. exists c. split; [done|]. by split; [apply noted_same; [apply tls_stays_refl|]|]. }
  wp_step. eapply wp_mono; [by apply process_thumbprint_spec|].
  intros ok w1 (c1 & Hr1 & Hn1 & Ht1). destruct (_ =? 0); [wp_step; by exists c1|]. destruct (x_extensions x) as [l|]; [|wp_step; by exists c1].
  eapply wp_mono; [by apply process_extensions_safe|]. intros ok' w2 (Hok & c2 & Hr2 & Hs2 & Hh2). exists c2. split_and!; [done| |].
  - apply (noted_weaken (revoked (w_env w)) _ _ _ (ok && ok')); [|done|intros ->; by rewrite Hok]. eapply noted_trans; [done|by apply noted_same].
  - intros y fprint Hy Hf. destruct (Ht1 y fprint Hy Hf) as [Hin Hrev]. rewrite Hh2. split; [done|]. intros E%Hrev. destruct ok'; [|done]. by rewrite Hok in E.
Qed.
Lemma certificate_verify_spec p certs w0 w c : reached p c w0 w → Forall x509_ok certs →
  wp (client_certificate_verify NID_dxlClientGuid NID_dxlTenantGuid p certs)
     (λ oks w', ∃ c', reached p c' w0 w' ∧ noted ever_revoked c c' (forallb id oks)) w.
Proof.
  intros Hr Hx. revert w c Hr. induction Hx as [|cert certs Hcert _ IH]; intros w c Hr; cbn [client_certificate_verify].
  - wp_step. exists c. split; [done|]. by apply noted_same; [apply tls_stays_refl|].
  - wp_step. eapply wp_mono; [by apply process_certificate_spec|]. intros ok w1 (c1 & Hr1 & Hn1 & _). wp_step. eapply wp_mono; [by apply IH|]. intros oks w2 (c2 & Hr2 & Hn2).
    wp_step. exists c2. split; [done|]. cbn. eapply noted_trans; [|done]. by eapply noted_weaken; [done|intros h Hh; apply Hh|].
Qed.

(** ** TLS on the new connection *)

(** The client as it is being let in: of listener [i]; none of its certificates is one
    that is always revoked. *)
Definition admitted (p : ctxid) (i : option nat) (w0 w : world) : Prop :=
  visiting p w0 w ∧ ∃ c, w_ctxs w !! p = Some c ∧ c_listener c = i ∧ NoDup (c_cert_hashes c) ∧ ∀ h, h ∈ c_cert_hashes c → ¬ ever_revoked h.
Lemma visiting_env p w0 w e : visiting p w0 w → visiting p w0 (w <| w_env := e |>).
Proof. intros Hv. by eapply visiting_frame. Qed.
Lemma admitted_ext {A} p i w0 w (f : env → A * env) (Q : A → world → Prop) : admitted p i w0 w →
  (∀ a w', admitted p i w0 w' → a = (f (w_env w)).1 → Q a w') → wp (ext f) Q w.
Proof. intros [Hv Hc] HQ. apply wp_ext. intros a e He. apply HQ; [split; [by apply visiting_env|done]|by rewrite He]. Qed.
Lemma admitted_upd p i w0 w f (Q : () → world → Prop) : admitted p i w0 w → (∀ c, tls_stays c (f c) ∧ c_cert_hashes (f c) = c_cert_hashes c) →
  (∀ w', admitted p i w0 w' → Q tt w') → wp (ctx_upd p f) Q w.
Proof.
  intros (Hv & c & Hc & Hi & Hnd & Hh) Hf HQ. destruct (Hf c) as [[Hg Hl] Hcc]. pose proof Hg as (_ & _ & _ & Hcore & _). eapply wp_reached_upd; [by apply reached_refl|done|].
  intros w' Hr. apply HQ. split; [by eapply visiting_reached|]. exists (f c). rewrite Hl, Hcc. split_and!; [by eapply reached_lookup|done..].
Qed.

(** Whatever the handshake does, the context stays a guest; if it succeeds, with
    certificates that are not revoked. *)
Definition let_in (p : ctxid) (i : option nat) (w0 : world) (ok : bool) (w' : world) : Prop :=
  visiting p w0 w' ∧ (∃ c, w_ctxs w' !! p = Some c ∧ c_listener c = i) ∧ (ok = true → admitted p i w0 w').
Lemma let_in_admitted p i w0 ok w' : admitted p i w0 w' → let_in p i w0 ok w'.
Proof. intros Ha. split; [apply Ha|]. split; [|done]. destruct Ha as (_ & c & Hc & Hi & _). by exists c. Qed.
#[local] Hint Resolve let_in_admitted : core.

Lemma tls_init_safe p i sock w0 w : admitted p i w0 w → wp (tls_init NID_dxlClientGuid NID_dxlTenantGuid p sock) (let_in p i w0) w.
Proof.
  intros Ha. unfold tls_init. wp_step. eapply admitted_ext; [done|]. intros [|] w1 Ha1 _; [|cbn [negb]; wp_step; by auto]. cbn [negb]. wp_step.
  eapply admitted_upd; [done|by intros c; split; [split; [split_and!|]|]|]. intros w2 Ha2. wp_step. eapply admitted_ext; [done|]. intros certs w3 (Hv3 & c & Hc & Hi & Hnd & Hh) Hcerts.
  wp_step. eapply wp_mono; [apply (certificate_verify_spec p certs w3 w3 c); [by apply reached_refl|rewrite Hcerts; apply ssl_certificates_law]|].
  intros oks w4 (c4 & Hr4 & [Hg4 Hl4] & _ & Hnd4 & Hh4). pose proof (visiting_reached _ _ _ _ _ _ Hv3 Hc Hr4 Hg4) as Hv4. pose proof (reached_lookup _ _ _ _ Hr4) as Hc4.
  wp_step. apply wp_ext. intros [rc err] e He. pose proof (ssl_reject_law sock oks (w_env w4)) as Hrej. rewrite He in Hrej. cbn in Hrej.
  destruct (forallb id oks) eqn:Hall.
  - assert (admitted p i w0 (w4 <| w_env := e |>)) as Ha4.
    { split; [by apply visiting_env|]. exists c4. split_and!; [done|congruence|by apply Hnd4|]. intros h [?|Hrv]%Hh4; [by apply Hh|]. intros Hev. specialize (Hrv Hev). done. }
    destruct (_ =? _); [wp_step; by auto|]. destruct err; [wp_step; by auto| |wp_step; by auto]. wp_step.
    eapply admitted_upd; [done|by intros d; split; [split; [split_and!|]|]|]. intros w5 Ha5. wp_step. by auto.
  - destruct Hrej as [Hrc ->]. { apply not_true_iff_false in Hall. destruct (decide (false ∈ oks)) as [|Hno]; [done|]. exfalso. apply Hall. apply forallb_forall.
      intros [|] Hin; [done|]. by apply list_elem_of_In in Hin. }
    destruct (Z.eqb_spec rc 1); [done|]. wp_step. split; [by apply visiting_env|]. split; [|done]. exists c4. split; [done|congruence].
Qed.
Lemma tls_socks_safe p i sock listensock li socks w0 w : admitted p i w0 w →
  wp (tls_socks NID_dxlClientGuid NID_dxlTenantGuid p sock listensock li socks) (let_in p i w0) w.
Proof.
  revert w. induction socks as [|s socks IH]; intros w Ha; cbn [tls_socks]; [wp_step; by auto|]. wp_step. eapply (wp_mono _ (let_in p i w0)).
  { destruct (_ && _); [by apply tls_init_safe|wp_step; by auto]. }
  intros [|] w1 (Hv1 & Hc1 & Ha1); [by apply IH, Ha1|by wp_step].
Qed.
Lemma tls_listeners_safe p i sock listensock l w0 w : admitted p i w0 w →
  wp (tls_listeners NID_dxlClientGuid NID_dxlTenantGuid p sock listensock l) (let_in p i w0) w.
Proof.
  revert w. induction l as [|li l IH]; intros w Ha; cbn [tls_listeners]; [wp_step; by auto|]. wp_step. eapply wp_mono; [by apply tls_socks_safe|].
  intros [|] w1 (Hv1 & Hc1 & Ha1); [by apply IH, Ha1|by wp_step].
Qed.

(** The counts of the listeners do not change with TLS. *)
Lemma same_counts_extensions p l succeeded : frame same_counts (process_extensions NID_dxlClientGuid NID_dxlTenantGuid p l succeeded).
Proof. revert succeeded. induction l as [|[x|] l IH]; intros succeeded; cbn [process_extensions]; unfold guid_of_extension, process_guid; counts. Qed.
#[local] Hint Resolve same_counts_extensions : frames.
Lemma same_counts_verify p certs : frame same_counts (client_certificate_verify NID_dxlClientGuid NID_dxlTenantGuid p certs).
Proof. induction certs as [|cert certs IH]; cbn [client_certificate_verify]; unfold mosquitto_process_client_certificate, process_thumbprint; counts. Qed.
#[local] Hint Resolve same_counts_verify : frames.
Lemma same_counts_tls p sock listensock l : frame same_counts (tls_listeners NID_dxlClientGuid NID_dxlTenantGuid p sock listensock l).
Proof.
  induction l as [|li l IH]; cbn [tls_listeners]; [counts|]. apply frame_bind; [apply _| |intros [|]; counts].
  generalize (li_socks li). intros socks. induction socks as [|s socks IHs]; cbn [tls_socks]; unfold tls_init; counts.
Qed.

(** ** A place in the table *)

(** The first free slot is the client's; nobody else moves. *)
Definition seated (p : ctxid) (w0 w' : world) : Prop :=
  ∃ i, mjoin (w_contexts w0 !! i) = None ∧ (∀ j, mjoin (w_contexts w' !! j) = if decide (j = i) then Some p else mjoin (w_contexts w0 !! j)) ∧
  w_clientid_index_hash w' = w_clientid_index_hash w0 ∧ w_sessions_to_clean w' = w_sessions_to_clean w0 ∧ p ∈ w_new_clients_hash w'.

Lemma seat_sound p i c w w' : sound None None w → w_ctxs w !! p = Some c → guest c → (∀ j, w_contexts w !! j ≠ Some (Some p)) → benign w w' →
  mjoin (w_contexts w !! i) = None → (∀ j, mjoin (w_contexts w' !! j) = if decide (j = i) then Some p else mjoin (w_contexts w !! j)) →
  w_clientid_index_hash w' = w_clientid_index_hash w → w_sessions_to_clean w' = w_sessions_to_clean w →
  w_ctxs w' = <[p := c <| c_numericId := Z.of_nat i |> <| c_db_index := Z.of_nat i |>]> (w_ctxs w) → sound None None w'.
Proof.
  intros Hs Hc (Hid & Hg) Hno Hb Hfree Hslots Hidx Hcl Hw. set (c' := c <| c_numericId := _ |> <| c_db_index := _ |>) in *.
  assert (∀ q, q ≠ p → w_ctxs w' !! q = w_ctxs w !! q) as Hother by (intros q Hne; rewrite Hw; by apply lookup_insert_ne).
  assert (w_ctxs w' !! p = Some c') as Hp by (rewrite Hw; apply lookup_insert_eq).
  assert (∀ q d, w_ctxs w' !! q = Some d → context_sound None None q d) as Hall.
  { intros q d. destruct (decide (q = p)) as [->|Hne]; [|rewrite Hother by done; by apply sound_context]. rewrite Hp. intros [= <-].
    destruct (sound_context _ _ _ _ _ Hs Hc) as ([? ? ? ? ?] & ? & ?). split_and!; [by split|done|done]. }
  split; [eapply benign_ok; [done|apply Hs]| |by intros; eapply Hall..| |].
  - intros j q Hj. pose proof (Hslots j) as Hsl. rewrite Hj in Hsl. cbn in Hsl. case_decide as Hji.
    + injection Hsl as ->. exists c'. by subst j.
    + symmetry in Hsl. apply mjoin_Some in Hsl. destruct (so_slot _ _ _ Hs j q Hsl) as (d & Hd & Hn). exists d. rewrite Hother; [done|]. intros ->. by apply (Hno j).
  - intros id j. rewrite Hidx. intros (k & q & d & -> & Hk & Hd & Hdid)%(so_index _ _ _ Hs). assert (q ≠ p) as Hne by congruence. exists k, q, d. split_and!; [done| |by rewrite Hother|done].
    apply mjoin_Some. rewrite Hslots. case_decide as Hki; [subst k; by rewrite Hk in Hfree|]. by apply mjoin_Some.
  - rewrite Hidx. apply Hs.
Qed.

Lemma add_new_context_safe p w c : sound None None w → w_ctxs w !! p = Some c → guest c → (∀ j, w_contexts w !! j ≠ Some (Some p)) →
  wp (mqtt3_db_add_new_context p) (λ rc w', rc = 0 ∧ sound None None w' ∧ seated p w w' ∧ w_listener_client_count w' = w_listener_client_count w ∧
    ∃ n, w_ctxs w' = <[p := c <| c_numericId := n |> <| c_db_index := n |>]> (w_ctxs w)) w.
Proof.
  intros Hs Hc Hg Hno. pose proof (co_wsi _ (so_context _ _ _ Hs p c Hc)) as Hws. unfold mqtt3_db_add_new_context, mosquitto_add_new_clients_set. do 5 wp_step.
  assert (∀ x y : ST world (), (if c_wsi c then x else y) = y) as Hif by (by rewrite Hws).
  eapply wp_ctx_upd; [done|]. wp_step. eapply wp_ctx_get; [apply lookup_insert_eq|]. cbv beta. cbn [c_wsi upd]. rewrite (Hif (mret tt)). wp_steps. eapply wp_ctx_upd; [apply lookup_insert_eq|]. wp_step.
  match goal with |- _ ∧ sound _ _ ?w1 ∧ _ => set (w' := w1) end. set (i := first_gap (w_contexts w)).
  assert (w_ctxs w' = <[p := c <| c_numericId := Z.of_nat i |> <| c_db_index := Z.of_nat i |>]> (w_ctxs w)) as Hw by (unfold w'; cbn; by rewrite insert_insert_eq).
  assert (∀ j, mjoin (w_contexts w' !! j) = if decide (j = i) then Some p else mjoin (w_contexts w !! j)) as Hslots by (intros j; apply contexts_with_lookup).
  split_and!; [done| | |done|by exists (Z.of_nat i)].
  - eapply (seat_sound p i c w); try done; [|apply first_gap_free]. split_and!; [done..|]. intros q. rewrite Hw. destruct (decide (q = p)) as [->|Hne]; [by rewrite lookup_insert_eq, Hc|by rewrite lookup_insert_ne].
  - exists i. split_and!; [apply first_gap_free|done|done|done|]. cbn. unfold hash_add. case_bool_decide; [done|]. apply elem_of_app. right. apply list_elem_of_here.
Qed.

(** ** Accepting *)

(** No two listeners have the socket. *)
Definition exclusive (listensock : Z) : Prop :=
  ∀ i j li lj, listeners !! i = Some li → listeners !! j = Some lj → listensock ∈ li_socks li → listensock ∈ li_socks lj → i = j.
(** A new context, of a listener of the socket if it is of one of the first [k]; that
    listener has counted it, and no other if the socket is of one only. *)
Definition entering (p : ctxid) (listensock : Z) (k : nat) (w0 w : world) : Prop :=
  visiting p w0 w ∧ ∃ c, w_ctxs w !! p = Some c ∧ c_cert_hashes c = [] ∧
  (∀ i, c_listener c = Some i → (i < k)%nat ∧ ∃ li, listeners !! i = Some li ∧ listensock ∈ li_socks li) ∧
  (exclusive listensock → w_listener_client_count w = bump (c_listener c) (w_listener_client_count w0)).
(** Nobody came in. *)
Definition undisturbed (w0 w' : world) : Prop := sound None None w' ∧ table w' = table w0 ∧ w_ctxs w' = w_ctxs w0 ∧ same_counts w0 w'.
Lemma undisturbed_ext {A} w0 w (f : env → A * env) (Q : A → world → Prop) : undisturbed w0 w → (∀ a w', undisturbed w0 w' → Q a w') → wp (ext f) Q w.
Proof. intros (Hs & Ht & Hw & Hn) HQ. apply wp_ext. intros a e _. apply HQ. split; [by eapply sound_frame|done]. Qed.

Lemma context_new_sound p sock t_in t_out address : sock ≠ INVALID_SOCKET → is_Some address →
  guest (context_new sock t_in t_out address) ∧ context_sound None None p (context_new sock t_in t_out address).
Proof.
  intros Hsock Ha. split; [by split_and!|]. split_and!.
  - split; [done| |done|done|constructor]. split; [constructor|done].
  - intros _ _. split; [left; by split_and!|]. by left.
  - intros _ _ _. rewrite decide_True; done.
Qed.
Lemma context_init_safe sock w0 w : undisturbed w0 w → sock ≠ INVALID_SOCKET →
  wp (mqtt3_context_init sock) (λ new w', match new with Some p => w_ctxs w0 !! p = None ∧ visiting p w0 w' ∧ ∃ c, w_ctxs w' !! p = Some c ∧ c_cert_hashes c = [] ∧ c_listener c = None | None => undisturbed w0 w' end) w.
Proof.
  intros Hu Hsock. unfold mqtt3_context_init, mosquitto_time. wp_step. eapply undisturbed_ext; [done|]. intros t_in w1 Hu1. wp_step. eapply undisturbed_ext; [done|]. intros t_out w2 Hu2.
  apply Z.eqb_neq in Hsock as Hs1. unfold INVALID_SOCKET in Hs1. rewrite Hs1. cbn [negb andb]. wp_step. eapply undisturbed_ext; [done|]. intros address w3 (Hs3 & Ht3 & Hw3 & Hn3).
  case_bool_decide as Ha; [by wp_step|]. apply not_eq_None_Some in Ha. wp_steps. set (p := fresh (dom (w_ctxs w3))).
  assert (w_ctxs w3 !! p = None) as Hp by (apply not_elem_of_dom, is_fresh). destruct (context_new_sound p sock t_in t_out address Hsock Ha) as [Hg Hc].
  split; [congruence|]. split; [|eexists; split; [apply lookup_insert_eq|done]]. destruct (visiting_new p _ w3 Hs3 Hp Hg) as (Hv1 & Hv2 & (Hv3 & Hv4) & Hv5); try done.
  split_and!; [done|done|congruence|intros q Hne; by rewrite Hv4, Hw3|done].
Qed.
Lemma entering_weaken p listensock k w0 w : entering p listensock k w0 w → entering p listensock (S k) w0 w.
Proof. intros (Hv & c & Hc & Hh & Hl & Hn). split; [done|]. exists c. split_and!; try done. intros i Hi. destruct (Hl i Hi) as [? ?]. split; [lia|done]. Qed.
Lemma find_listener_safe p listensock l k w0 w : (∀ j li, l !! j = Some li → listeners !! (k + j)%nat = Some li) → entering p listensock k w0 w →
  wp (find_listener p listensock l k) (λ _ w', ∃ k', entering p listensock k' w0 w') w.
Proof.
  revert k w. induction l as [|li l IH]; intros k w Hl He; cbn [find_listener]; [wp_step; by exists k|]. wp_step.
  assert (∀ w1, entering p listensock (S k) w0 w1 → wp (find_listener p listensock l (S k)) (λ _ w', ∃ k', entering p listensock k' w0 w') w1) as Hnext.
  { intros w1 H1'. apply IH; [|done]. intros j lj Hj. rewrite Nat.add_succ_comm. by apply Hl. }
  case_bool_decide as Hin; [|wp_step; by apply Hnext, entering_weaken]. wp_step. destruct He as (Hv & c & Hc & Hh & Hlow & Hn).
  assert (listeners !! k = Some li) as Hli by (rewrite <-(Nat.add_0_r k); by apply Hl). assert (exclusive listensock → c_listener c = None) as Hnone.
  { intros Hex. destruct (c_listener c) as [i|] eqn:Hi; [|done]. destruct (Hlow i eq_refl) as (? & lj & Hlj & Hinj). assert (i = k) as -> by (by eapply Hex). lia. }
  eapply (wp_mono _ (λ _ w1, reached p (c <| c_listener := Some k |>) w w1 ∧ same_counts w w1)).
  { apply (wp_frame same_counts); [apply same_counts_upd|]. eapply wp_reached_upd; [by apply reached_refl|done|]. done. }
  intros _ w1 [Hr Hsame]. wp_step. apply Hnext. split.
  - eapply (visiting_frame _ _ w1); [eapply visiting_reached; [done|done|exact Hr|by split_and!]|by split_and!|done..].
  - eexists. split; [by eapply reached_lookup|]. split_and!; [done| |].
    + intros i [= <-]. split; [lia|by exists li].
    + intros Hex. cbn. rewrite Hsame, Hn, Hnone by done. done.
Qed.

(** What accepting a connection leads to: nothing, or a client of a listener of the
    socket, in the first free slot of the table. *)
Definition welcome (p : ctxid) (listensock : Z) (w0 w' : world) : Prop :=
  w_ctxs w0 !! p = None ∧ seated p w0 w' ∧ ∃ c i li, w_ctxs w' = <[p := c]> (w_ctxs w0) ∧ guest c ∧
  c_listener c = Some i ∧ listeners !! i = Some li ∧ listensock ∈ li_socks li ∧ too_many li (default 0 (w_listener_client_count w' !! i)) = false ∧
  (exclusive listensock → w_listener_client_count w' = bump (Some i) (w_listener_client_count w0)) ∧
  NoDup (c_cert_hashes c) ∧ ∀ h, h ∈ c_cert_hashes c → ¬ ever_revoked h.
Definition accepted (listensock : Z) (w0 : world) (rc : Z) (w' : world) : Prop :=
  sound None None w' ∧ w_sessions_to_clean w' = w_sessions_to_clean w0 ∧
  (rc = INVALID_SOCKET ∧ w_contexts w' = w_contexts w0 ∧ w_ctxs w' = w_ctxs w0 ∧ (exclusive listensock → w_listener_client_count w' = w_listener_client_count w0) ∨
   rc ≠ INVALID_SOCKET ∧ ∃ p, welcome p listensock w0 w').
Lemma accepted_undisturbed listensock w0 w' : undisturbed w0 w' → accepted listensock w0 (-1) w'.
Proof. intros (Hs & Ht & Hw & Hn). unfold table in Ht. split; [done|]. split; [congruence|left]. split_and!; [done|congruence|done|done]. Qed.
Lemma accepted_turned_off p listensock w0 w' : w_ctxs w0 !! p = None → turned_off p w0 w' → (exclusive listensock → w_listener_client_count w' = w_listener_client_count w0) → accepted listensock w0 (-1) w'.
Proof.
  intros Hp (Hs & [Ht Hm] & Hp' & Hq) Hn. split; [done|]. split; [done|left]. split_and!; [done|done| |done]. apply map_eq. intros q. destruct (decide (q = p)) as [->|]; [congruence|by apply Hq].
Qed.

Lemma socket_accept_safe listensock w : sound None None w →
  wp (mqtt3_socket_accept NID_dxlClientGuid NID_dxlTenantGuid listeners listensock) (accepted listensock w) w.
Proof.
  intros Hs. assert (undisturbed w w) as Hu by done. unfold mqtt3_socket_accept. wp_step. eapply undisturbed_ext; [done|]. intros sock w1 Hu1.
  destruct (Z.eqb_spec sock INVALID_SOCKET) as [|Hsock]; [wp_step; by apply accepted_undisturbed|]. wp_step. eapply undisturbed_ext; [done|]. intros [|] w2 Hu2; [wp_step; by apply accepted_undisturbed|].
  wp_step. eapply wp_mono; [apply (wp_frame same_counts); [apply same_counts_init|by apply (context_init_safe sock w)]|].
  intros [p|] w3 [Hinit Hn3]; [|wp_step; eapply undisturbed_ext; [exact Hinit|]; intros ? w4 Hu4; wp_step; by apply accepted_undisturbed].
  destruct Hinit as (Hp & Hv3 & c3 & Hc3 & Hh3 & Hl3). assert (entering p listensock 0 w w3) as He.
  { split; [done|]. exists c3. rewrite Hl3. split_and!; [done|done|done|]. intros _. destruct Hu2 as (_ & _ & _ & Hn2). cbn. by etrans. }
  wp_step. eapply wp_mono; [by apply (find_listener_safe p listensock listeners 0 w)|]. intros _ w4 (k4 & Hv4 & c4 & Hc4 & Hh4 & Hl4 & Hn4). wp_step. eapply wp_ctx_get; [done|]. cbv beta.
  assert (∀ w' c', visiting p w w' → w_ctxs w' !! p = Some c' → c_listener c' = c_listener c4 → same_counts w4 w' → wp (mqtt3_context_cleanup_new p;; mret (-1)) (accepted listensock w) w') as Hoff.
  { intros w' c' Hv' Hc' Hcl Hsame. wp_step. pose proof (cleanup_new_safe p w w' Hv') as (x & w'' & Hrun & Ht)%wp_Some. eapply wp_run; [exact Hrun|]. wp_step. eapply accepted_turned_off; [done|done|].
    intros Hex. rewrite (cleanup_new_counts p c' w' x w'' Hc'); [|by destruct Hv' as (_ & _ & _ & d & Hd & _ & _ & _ & _ & _ & _ & Hg); assert (d = c') as -> by congruence|exact Hrun].
    by rewrite Hsame, Hn4, Hcl, leave_bump. }
  destruct (c_listener c4) as [i|] eqn:Hi; [|by eapply Hoff]. destruct (Hl4 i eq_refl) as (_ & li & Hli & Hin). wp_step. eapply wp_deref; [done|]. cbv beta. do 2 wp_step.
  destruct (too_many _ _) eqn:Htm; [by eapply Hoff|]. wp_step. eapply wp_mono; [apply (wp_frame same_counts); [apply same_counts_tls|apply (tls_listeners_safe p (Some i) sock listensock listeners w)]|].
  { split; [done|]. exists c4. rewrite Hh4. split_and!; [done|done|constructor|set_solver]. }
  intros secure w5 [(Hv5 & (d5 & Hd5 & Hli5) & Ha5) Hcount]. destruct secure; [|cbn [negb]; by eapply Hoff]. cbn [negb]. destruct (Ha5 eq_refl) as (_ & c5 & Hc5 & Hi5 & Hnd & Hh).
  destruct Hv5 as (Hs5 & Hno & (Ht5 & Hq5) & d & Hd & Hg). assert (d = c5) as -> by congruence. wp_step.
  eapply wp_mono; [by eapply add_new_context_safe|]. intros rc w6 (-> & Hs6 & (k & Hk1 & Hk2 & Hk3 & Hkm & Hk4) & Hcnt & n & Hw6). change (0 =? 0) with true. cbn [negb]. wp_step.
  unfold table in Ht5. assert (w_contexts w5 = w_contexts w ∧ w_clientid_index_hash w5 = w_clientid_index_hash w ∧ w_sessions_to_clean w5 = w_sessions_to_clean w) as (Ht & Hidx & Hm) by (split_and!; congruence).
  split; [done|]. split; [congruence|right]. split; [done|]. exists p. split; [done|]. split; [exists k; by rewrite <-Ht, <-Hidx, <-Hm|]. exists (c5 <| c_numericId := n |> <| c_db_index := n |>), i, li. split_and!; [|exact Hg|done|done|done| | |done|done].
  - rewrite Hw6. apply map_eq. intros q. destruct (decide (q = p)) as [->|Hne]; [by rewrite !lookup_insert_eq|by rewrite !lookup_insert_ne by done; apply Hq5].
  - by rewrite Hcnt, Hcount.
  - intros Hex. by rewrite Hcnt, Hcount, Hn4.
Qed.

(** C7: a new connection is let in properly or not at all. For every answer of the
    operating system and of OpenSSL, [mqtt3_socket_accept] returns with a sound broker:
    either without a trace of the connection, the table of contexts, the contexts and the
    counts of the listeners as before, or with one new context, in the first free
    slot of the table and nowhere else, of a listener of the socket, which has counted it
    and has not more clients than its maximum, to be registered with the event loop (the
    counts are stated for a socket that is of one listener only); the hashes of the
    certificates that were verified are kept once each, and none is of a certificate
    that is always revoked. Nothing else changes. *)
Theorem connection_accepted listensock w : sound None None w →
  wp (mqtt3_socket_accept NID_dxlClientGuid NID_dxlTenantGuid listeners listensock) (accepted listensock w) w.
Proof. apply socket_accept_safe. Qed.

(** C8: certificates are checked. [mosquitto_process_client_certificate] reads a
    certificate without leaving its data, however its extensions are encoded (OpenSSL
    promises that a digest has 20 bytes and that the header of an ASN.1 object is inside the
    data); afterwards the SHA-1 thumbprint is among the hashes of the client, once, and the
    verification has failed if it is revoked. No certificate at all passes and changes
    nothing. Of the client only what TLS knows of it changes. *)
Theorem client_certificate_checked p cert w c : w_ctxs w !! p = Some c → x509_ok cert →
  wp (mosquitto_process_client_certificate NID_dxlClientGuid NID_dxlTenantGuid p cert) (λ ok w', ∃ c',
    w_ctxs w' = <[p := c']> (w_ctxs w) ∧ registry w' = registry w ∧ tls_stays c c' ∧ (NoDup (c_cert_hashes c) → NoDup (c_cert_hashes c')) ∧
    thumbprint_in cert c' (w_env w) ok ∧ (cert = None → ok = true ∧ w' = w)) w.
Proof.
  intros Hc Hx. pose proof (process_certificate_spec p cert w w c (reached_refl _ _ _ Hc) Hx) as Hspec. eapply wp_mono; [apply (wp_and _ _ (λ ok w', cert = None → ok = true ∧ w' = w) _ Hspec)|].
  - destruct cert; [|by split]. eapply wp_mono; [exact Hspec|]. done.
  - intros ok w' [(c' & (_ & Hreg & Hw) & (Hs & _ & Hnd & _) & Ht) Hnone]. exists c'. by split_and!.
Qed.
End net.
