(* ===== verification/Connect.v ===== *)
(** * The CONNECT handler

    [mqtt3_handle_connect] of [src/read_handle_server.c], one definition per
    stage of the function, and the dispatch [mqtt3_packet_handle] of
    [src/read_handle.c]. *)

From S2P Require Import Prelude Topic State Packet Database Subs Queue Contexts Handlers.
From stdpp Require Import options.

(** [strncat(dst, src, n)]. *)
Definition strncat (dst src : string) (n : nat) : string := dst +:+ str_take n src.

(** The certificate chain: the thumbprints joined with semicolons in a buffer
    of [cert_chain_len] bytes. *)
Fixpoint cert_chain_loop (cert_chain_len : nat) (certs : list string) (cert_index : nat) (cert_chain : string)
    : string :=
  match certs with
  | [] => cert_chain
  | cert :: certs' =>
    let chain := match cert_index with
                 | O => cert_chain
                 | S _ => strncat cert_chain ";" (cert_chain_len - String.length cert_chain - 1)
                 end in
    let chain := strncat chain cert (cert_chain_len - String.length chain - 1) in
    cert_chain_loop cert_chain_len certs' (S cert_index) chain
  end.
Definition cert_chain_of (certs : list string) : string := cert_chain_loop (41 * length certs + 1) certs 0 "".

(** What a CONNECT packet asks for, once it is read. *)
Record connect_flags := mk_connect_flags {
  cf_clean_session : bool; cf_will : bool; cf_will_qos : Z; cf_will_retain : bool }.

(** How the client will be known: [client_id], [canonical_client_id] and
    [cert_chain]. *)
Record identity := mk_identity {
  id_client : string; id_canonical : option string; id_cert_chain : option string }.

Section connect.
Context `{Env}.

Definition mqtt3_dxl_get_max_connect_count : ST world Z := gets w_max_connect_count.
Definition mqtt3_dxl_set_max_connect_count (count : Z) : ST world () :=
  modify (λ w, w <| w_max_connect_count := count |>).

(** Any refusal: a CONNACK if there is something to say, and the connection
    is closed. *)
Definition refuse {A} (p : ctxid) (connack : option Z) (rc : Z) : ST world (Z + A) :=
  (match connack with Some result => _mosquitto_send_connack p result;; mret tt | None => mret tt end);;
  mqtt3_context_disconnect p;;
  mret (inl rc).
Definition refuse_if (b : bool) (p : ctxid) (connack : option Z) (rc : Z) : ST world (Z + ()) :=
  if b then refuse p connack rc else mret (inr tt).
(** A read that fails closes the connection. *)
Definition read_or_refuse {A} (p : ctxid) (m : ST packet (Z + A)) : ST world (Z + A) :=
  r ← in_packet p m; match r with inl _ => refuse p None 1 | inr a => mret (inr a) end.

(** Protocol name and version; the result is the version byte. *)
Definition connect_protocol (p : ctxid) : ST world (Z + Z) :=
  c ←? liftM (ctx_get p);
  refuse_if (bool_decide (c_state c ≠ mosq_cs_new)) p None MOSQ_ERR_PROTOCOL ;?
  protocol_name ←? read_or_refuse p _mosquitto_read_string;
  protocol_version ←? read_or_refuse p _mosquitto_read_byte;
  let version := Z.land protocol_version 0x7F in
  (if String.eqb protocol_name PROTOCOL_NAME_v31 then
     refuse_if (negb (version =? PROTOCOL_VERSION_v31)) p (Some CONNACK_REFUSED_PROTOCOL_VERSION) MOSQ_ERR_PROTOCOL ;?
     liftM (ctx_upd p (λ c, c <| c_protocol := mosq_p_mqtt31 |>))
   else if String.eqb protocol_name PROTOCOL_NAME_v311 then
     refuse_if (negb (version =? PROTOCOL_VERSION_v311)) p (Some CONNACK_REFUSED_PROTOCOL_VERSION) MOSQ_ERR_PROTOCOL ;?
     refuse_if (negb (Z.land (p_command (c_in_packet c)) 0x0F =? 0)) p None MOSQ_ERR_PROTOCOL ;?
     liftM (ctx_upd p (λ c, c <| c_protocol := mosq_p_mqtt311 |>))
   else refuse p None MOSQ_ERR_PROTOCOL) ;?
  mret (inr protocol_version).

(** A bridge must show a broker's certificate; other clients are counted
    against the connection limit. *)
Definition connect_admission (p : ctxid) (protocol_version : Z) : ST world (Z + ()) :=
  liftM (ctx_upd p (λ c, c <| c_tls_certtype := cert_client |>)) ;?
  (if Z.land protocol_version 0x80 =? 0x80 then
     c ←? liftM (ctx_get p);
     broker_certs ←? liftM (gets w_broker_certs);
     (if bool_decide (Exists (λ cert, cert ∈ broker_certs) (c_cert_hashes c))
      then liftM (ctx_upd p (λ c, c <| c_tls_certtype := cert_broker |>))
      else refuse p (Some CONNACK_REFUSED_NOT_AUTHORIZED) MOSQ_ERR_PROTOCOL) ;?
     liftM (ctx_upd p (λ c, c <| c_is_bridge := true |>))
   else mret (inr tt)) ;?
  c ←? liftM (ctx_get p);
  if c_is_bridge c then mret (inr tt)
  else
    maxCount ←? liftM mqtt3_dxl_get_max_connect_count;
    clientCount ←? liftM mqtt3_dxl_db_client_count;
    refuse_if ((0 <? maxCount) && (maxCount <=? clientCount)) p
      (Some CONNACK_REFUSED_SERVER_UNAVAILABLE) MOSQ_ERR_PROTOCOL.

(** Connect flags and keepalive; persistent sessions are refused. *)
Definition connect_options (p : ctxid) : ST world (Z + connect_flags) :=
  flags ←? read_or_refuse p _mosquitto_read_byte;
  let will_qos := Z.shiftr (Z.land flags 0x18) 3 in
  refuse_if (will_qos =? 3) p None MOSQ_ERR_PROTOCOL ;?
  refuse_if (Z.land flags 0x02 =? 0) p None 1 ;?
  keepalive ←? read_or_refuse p _mosquitto_read_uint16;
  liftM (ctx_upd p (λ c, c <| c_keepalive := keepalive |>)) ;?
  mret (inr (mk_connect_flags (negb (Z.land flags 0x02 =? 0)) (negb (Z.land flags 0x04 =? 0)) will_qos
    (negb (Z.land flags 0x20 =? 0)))).

(** The client identifier: a fresh GUID unless the peer is a broker, behind
    the thumbprint of the last certificate of the chain. *)
Definition connect_identity (p : ctxid) : ST world (Z + identity) :=
  client_id ←? read_or_refuse p _mosquitto_read_string;
  c ←? liftM (ctx_get p);
  client_id ←? liftM (if bool_decide (c_tls_certtype c ≠ cert_broker) then ext env_generate_guid else mret client_id);
  refuse_if (strlen client_id =? 0) p (Some CONNACK_REFUSED_IDENTIFIER_REJECTED) MOSQ_ERR_PROTOCOL ;?
  is_multi_tenant ←? liftM (gets (λ w, dxl_is_multi_tenant_mode_enabled (w_env w)));
  refuse_if (is_multi_tenant && bool_decide (c_dxl_tenant_guid c = None)) p
    (Some CONNACK_REFUSED_NOT_AUTHORIZED) MOSQ_ERR_SUCCESS ;?
  let identity :=
    if c_is_bridge c then mk_identity client_id None None
    else
      let chain := Some (cert_chain_of (c_cert_hashes c)) in
      match last (c_cert_hashes c) with
      | Some cert => mk_identity (cert +:+ String ":" client_id) (Some cert) chain
      | None => mk_identity client_id None chain
      end in
  broker_guid ←? liftM (gets (λ w, dxl_get_broker_tenant_guid (w_env w)));
  liftM (if is_multi_tenant && bool_decide (c_dxl_tenant_guid c = Some broker_guid)
         then ctx_upd p (λ c, c <| c_dxl_flags ::= λ f, Z.lor f DXL_FLAG_OPS |>) else mret tt) ;?
  mret (inr identity).

(** The will, if the packet has one. *)
Definition connect_will (p : ctxid) (f : connect_flags) : ST world (Z + option message) :=
  if cf_will f then
    will_topic ←? read_or_refuse p _mosquitto_read_string;
    refuse_if (strlen will_topic =? 0) p None 1 ;?
    refuse_if (negb (_mosquitto_topic_wildcard_pos_check will_topic =? 0)) p None 1 ;?
    refuse_if (bool_decide (is_Some (strip_prefix "/mcafee/event/dxl/" will_topic))) p None MOSQ_ERR_PROTOCOL ;?
    will_payloadlen ←? read_or_refuse p _mosquitto_read_uint16;
    will_payload ←? (if 0 <? will_payloadlen then
                       bs ←? read_or_refuse p (_mosquitto_read_bytes will_payloadlen); mret (inr (Some bs))
                     else mret (inr None));
    mret (inr (Some (mk_message 0 (Some will_topic) will_payload will_payloadlen None 0 0 false)))
  else
    c ←? liftM (ctx_get p);
    refuse_if (bool_decide (c_protocol c = mosq_p_mqtt311)
               && (negb (cf_will_qos f =? 0) || cf_will_retain f)) p None MOSQ_ERR_PROTOCOL ;?
    mret (inr None).

(** The old context of a reconnecting client takes over the connection of
    [p]; it is the context that goes on. *)
Definition adopt_connection (p old : ctxid) (i : Z) (clean_session : bool) : ST world ctxid :=
  ctx_upd old (λ o, o <| c_clean_session := clean_session |>);;
  mqtt3_context_cleanup old false true;;
  c ← ctx_get p;
  address ← deref (λ _, c_address c);
  ctx_upd old (λ o, o <| c_state := mosq_cs_connected |> <| c_address := Some address |>
    <| c_sock := c_sock c |> <| c_listener := c_listener c |>);;
  t_in ← mosquitto_time;
  t_out ← mosquitto_time;
  ctx_upd old (λ o, o <| c_last_msg_in := t_in |> <| c_last_msg_out := t_out |>
    <| c_keepalive := c_keepalive c |> <| c_epoll_events := c_epoll_events c |>
    <| c_dxl_flags := c_dxl_flags c |> <| c_ssl := c_ssl c |>
    <| c_dxl_client_guid ::= λ g, match c_dxl_client_guid c with Some g' => Some g' | None => g end |>
    <| c_dxl_tenant_guid ::= λ g, match c_dxl_tenant_guid c with Some g' => Some g' | None => g end |>
    <| c_cert_hashes ::= λ l, l ++ c_cert_hashes c |>);;
  ctx_upd p (λ c, c <| c_listener := None |> <| c_sock := -1 |> <| c_ssl := false |>
    <| c_state := mosq_cs_disconnecting |>);;
  o ← ctx_get old;
  (match c_msgs o with [] => mret tt | _ :: _ => mqtt3_db_message_reconnect_reset old;; mret tt end);;
  mosquitto_epoll_update_context_index old i;;
  ctx_upd old (λ o, o <| c_numericId := i |> <| c_clean_subs := false |>);;
  mosquitto_remove_pending_bytes_set old;;
  mret old.

(** The client may have been here before under the same identifier. *)
Definition connect_takeover (p : ctxid) (client_id : string) (clean_session : bool) : ST world ctxid :=
  h ← gets w_clientid_index_hash;
  match clientid_find client_id h with
  | None => mret p
  | Some i =>
    l ← gets w_contexts;
    old ← deref (λ _, mjoin (l !! Z.to_nat i));
    o ← ctx_get old;
    c ← ctx_get p;
    if c_wsi o || c_wsi c then mqtt3_context_disconnect old;; mret p
    else adopt_connection p old i clean_session
  end.

(** The connection is registered and acknowledged. *)
Definition connect_finish (p : ctxid) (id : identity) (clean_session : bool) (will : option message)
    : ST world (Z + Z) :=
  let canonical := default (id_client id) (id_canonical id) in
  liftM (ctx_upd p (λ c, c <| c_id := Some (id_client id) |> <| c_canonical_id := Some canonical |>
    <| c_clean_session := clean_session |> <| c_ping_t := 0 |> <| c_is_dropping := false |>
    <| c_cert_chain := id_cert_chain id |>)) ;?
  c ←? liftM (ctx_get p);
  liftM (modify (λ w, w <| w_clientid_index_hash ::= cons (id_client id, c_db_index c) |>)) ;?
  liftM (mqtt3_add_canonical_client_id canonical) ;?
  liftM (ext_ (dxl_on_client_connected c)) ;?
  liftM (match will with Some m => ctx_upd p (λ c, c <| c_will := Some m |>) | None => mret tt end) ;?
  c ←? liftM (ctx_get p);
  allowed ←? liftM (ext (dxl_is_bridge_connect_allowed c));
  refuse_if (negb allowed) p (Some CONNACK_REFUSED_IDENTIFIER_REJECTED) MOSQ_ERR_SUCCESS ;?
  liftM (ctx_upd p (λ c, c <| c_state := mosq_cs_connected |>)) ;?
  c ←? liftM (ctx_get p);
  liftM (if c_is_bridge c then ext_ (dxl_on_bridge_connected c) else mret tt) ;?
  liftM (_mosquitto_send_connack p CONNACK_ACCEPTED).

Definition mqtt3_handle_connect (p : ctxid) : ST world Z :=
  returned (
    protocol_version ←? connect_protocol p;
    connect_admission p protocol_version ;?
    f ←? connect_options p;
    id ←? connect_identity p;
    will ←? connect_will p f;
    q ←? liftM (connect_takeover p (id_client id) (cf_clean_session f));
    connect_finish q id (cf_clean_session f) will).

(** ** The dispatch *)

Definition mqtt3_packet_handle (p : ctxid) : ST world Z :=
  c ← ctx_get p;
  let cmd := Z.land (p_command (c_in_packet c)) 0xF0 in
  if cmd =? PINGREQ then _mosquitto_handle_pingreq p
  else if cmd =? PINGRESP then _mosquitto_handle_pingresp p
  else if (cmd =? PUBACK) || (cmd =? PUBCOMP) then _mosquitto_handle_pubackcomp p
  else if cmd =? PUBLISH then mqtt3_handle_publish p
  else if cmd =? PUBREC then _mosquitto_handle_pubrec p
  else if cmd =? PUBREL then _mosquitto_handle_pubrel p
  else if cmd =? CONNECT then mqtt3_handle_connect p
  else if cmd =? DISCONNECT then mqtt3_handle_disconnect p
  else if cmd =? SUBSCRIBE then mqtt3_handle_subscribe p
  else if cmd =? UNSUBSCRIBE then mqtt3_handle_unsubscribe p
  else if cmd =? CONNACK then mqtt3_handle_connack p
  else if cmd =? SUBACK then _mosquitto_handle_suback p
  else if cmd =? UNSUBACK then _mosquitto_handle_unsuback p
  else mret MOSQ_ERR_PROTOCOL.
End connect.
