(* ===== verification/ConnectProofs.v ===== *)
(** * CONNECT

    Who is let in: a client connects once, a bridge shows a broker's
    certificate, other clients stay within the connection limit; whoever is
    refused is disconnected and leaves no trace. *)

From S2P Require Import Prelude Topic State Packet PacketProofs Writer Database DatabaseProofs StoreProofs.
From S2P Require Import Subs SubsProofs SubscribeProofs UnsubscribeProofs SubsClaims.
From S2P Require Import PublishProofs Queue Contexts ContextProofs Handlers HandlerProofs Connect.
From stdpp Require Import options.

Section connect_proofs.
Context `{Env} `{!EnvLaws}.
#[local] Set Default Proof Using "Type*".

(** A connection the broker can talk to and close. *)
Definition talking (c : mosquitto) : Prop :=
  out_wf c ∧ c_packet_count c + 1 < 2 ^ 64 ∧ ∀ m, c_will c = Some m → will_ok m.

(** Turned away: the connection is closed, nothing else changed. *)
Definition turned_away (p : ctxid) (c : mosquitto) (w w' : world) : Prop :=
  broker_ok w' ∧ registry w' = registry w ∧ ∃ c', w_ctxs w' !! p = Some c' ∧ disconnected c c'.

Lemma out_only_disconnected c c1 c' : out_only c c1 → disconnected c1 c' → disconnected c c'.
Proof. unfold out_only, disconnected. destruct c, c1; cbn. intros [=]. by subst. Qed.

Lemma refuse_spec {A} p connack rc w0 w c (Q : Z + A → world → Prop) : broker_ok w0 → reached p c w0 w → talking c →
  (∀ w', turned_away p c w0 w' → Q (inl rc) w') → wp (refuse p connack rc) Q w.
Proof.
  intros Hok Hr (Hwf & Hroom & Hwill) HQ. unfold refuse. wp_step.
  eapply (wp_mono _ (λ _ w1, ∃ c1, reached p c1 w0 w1 ∧ out_only c c1)).
  { pose proof (reached_lookup _ _ _ _ Hr) as Hc. destruct connack as [result|]; wp_step.
    - eapply wp_mono; [eapply (send_packet_spec p CONNACK 2 0 _ [0; u8 result] w c Hc Hwf Hroom); [apply fills_two|done|done]|].
      intros r w1 Hs. wp_step. by eapply sends_reached.
    - exists c. split; [done|apply out_only_refl]. }
  intros _ w1 (c1 & Hr1 & Ho1). wp_step.
  assert (c_will c1 = c_will c) as Hwl by (unfold out_only in Ho1; by rewrite <-Ho1).
  eapply wp_mono; [eapply (context_disconnect_spec p w1 c1); [by eapply benign_ok; [apply Hr1|]|by eapply reached_lookup|by rewrite Hwl]|].
  intros _ w2 (Hok2 & Hreg2 & (c2 & Hc2 & Hd) & _). wp_step. apply HQ. split_and!; [done| |].
  - etrans; [exact Hreg2|]. apply Hr1.
  - exists c2. split; [done|]. by eapply out_only_disconnected.
Qed.

(** A client connects once. A CONNECT on a connection that is not new is a
    protocol error: the client is disconnected, its will published, and the
    registry of clients and the subscriptions stay as they are. *)
Theorem second_connect_disconnects p w c :
  broker_ok w → w_ctxs w !! p = Some c → c_state c ≠ mosq_cs_new → talking c →
  wp (mqtt3_handle_connect p) (λ rc w', rc = MOSQ_ERR_PROTOCOL ∧ turned_away p c w w') w.
Proof.
  intros Hok Hc Hst Ht. unfold mqtt3_handle_connect. apply wp_returned, wp_and_then. unfold connect_protocol.
  apply wp_and_then, wp_liftM. eapply wp_ctx_get; [done|]. apply wp_and_then. unfold refuse_if.
  rewrite bool_decide_eq_true_2 by done. eapply refuse_spec; [done|by apply reached_refl|done|]. by intros w' Hw'.
Qed.

Lemma talking_same c c' : queued_packets c' = queued_packets c → c_packet_count c' = c_packet_count c →
  c_will c' = c_will c → talking c → talking c'.
Proof. unfold talking, out_wf. by intros -> -> ->. Qed.

(** Who may come in: as a bridge, who shows a broker's certificate; as a client, whoever
    comes below the limit of clients, if there is one. *)
Definition asks_to_bridge (version : Z) : bool := Z.land version 0x80 =? 0x80.
Definition may_enter (version : Z) (w : world) (c : mosquitto) : Prop :=
  if asks_to_bridge version then Exists (λ cert, cert ∈ w_broker_certs w) (c_cert_hashes c)
  else w_max_connect_count w <= 0 ∨ Z.of_nat (length (w_clientid_index_hash w)) < w_max_connect_count w.
(** What they come in as. *)
Definition admitted (version : Z) (c : mosquitto) : mosquitto :=
  c <| c_tls_certtype := if asks_to_bridge version then cert_broker else cert_client |> <| c_is_bridge := asks_to_bridge version |>.

(** C40: who is admitted. [connect_admission] lets a peer that asks to be a
    bridge pass exactly if one of its certificates is a known broker's, and a
    peer that does not ask exactly while the number of connected clients is
    below the limit (if there is one). Who passes is marked as a bridge, with a
    broker's certificate, if it asked for it, and is no bridge otherwise; nothing else
    changes. Everyone else gets a protocol error and is disconnected (the socket
    is closed; the connection of a websocket is marked as dead, for its library to
    close it), is no bridge and leaves no will, with no change to the registry or the
    subscriptions. *)
Theorem connect_admission_sound p version w c :
  broker_ok w → w_ctxs w !! p = Some c → c_is_bridge c = false → talking c →
  wp (connect_admission p version) (λ r w', match r with
    | inr _ => may_enter version w c ∧ broker_ok w' ∧ registry w' = registry w ∧ w_ctxs w' = <[p := admitted version c]> (w_ctxs w)
    | inl rc => ¬ may_enter version w c ∧ rc = MOSQ_ERR_PROTOCOL ∧ broker_ok w' ∧ registry w' = registry w ∧
      ∃ c', w_ctxs w' !! p = Some c' ∧ c_is_bridge c' = false ∧ c_listener c' = None ∧ c_will c' = None ∧
        if c_wsi c then c_state c' = mosq_cs_ws_dead else c_sock c' = INVALID_SOCKET
    end) w.
Proof.
  intros Hok Hc Hbr Ht. unfold connect_admission, may_enter, admitted. fold (asks_to_bridge version). set (c1 := c <| c_tls_certtype := cert_client |>).
  assert (∀ w', turned_away p c1 w w' → MOSQ_ERR_PROTOCOL = MOSQ_ERR_PROTOCOL ∧ broker_ok w' ∧ registry w' = registry w ∧
      ∃ c', w_ctxs w' !! p = Some c' ∧ c_is_bridge c' = false ∧ c_listener c' = None ∧ c_will c' = None ∧
        if c_wsi c then c_state c' = mosq_cs_ws_dead else c_sock c' = INVALID_SOCKET) as Hout.
  { intros w' (Hok' & Hreg & c' & Hc' & Hwl & Hli & _ & _ & _ & Hb & _ & _ & _ & Hd). split_and!; try done.
    exists c'. split_and!; try done; [by rewrite Hb|]. cbn in Hd. destruct (c_wsi c); [done|by destruct Hd]. }
  apply wp_and_then, wp_liftM. eapply wp_ctx_upd; [done|]. fold c1. set (w1 := w <| w_ctxs ::= <[p := c1]> |>).
  assert (reached p c1 w w1) as Hr1 by (split_and!; [by eapply (benign_upd w p c)|done|done]).
  pose proof (reached_lookup _ _ _ _ Hr1) as Hc1. apply wp_and_then. destruct (asks_to_bridge version).
  - apply wp_and_then, wp_liftM. eapply wp_ctx_get; [done|]. apply wp_and_then, wp_liftM, wp_gets. apply wp_and_then. case_bool_decide as Hcert.
    + apply wp_liftM. eapply (wp_reached_upd p c1 w w1); [done..|]. intros w2 Hr2. apply wp_liftM.
      eapply wp_reached_upd; [done..|]. intros w3 Hr3. apply wp_and_then, wp_liftM. eapply wp_reached_get; [done|].
      match goal with |- context [c_is_bridge ?x] => change (c_is_bridge x) with true end. cbv iota. wp_step.
      split_and!; [exact Hcert|by eapply benign_ok; [apply Hr3|]|apply Hr3|apply Hr3].
    + eapply (refuse_spec p _ _ w w1 c1); [done|done|by eapply talking_same; [..|exact Ht]|]. intros w2 H2. split; [exact Hcert|by apply Hout].
  - wp_step. apply wp_and_then, wp_liftM. eapply wp_ctx_get; [done|]. cbn [c_is_bridge upd c1]. rewrite Hbr.
    unfold mqtt3_dxl_get_max_connect_count, mqtt3_dxl_db_client_count. apply wp_and_then, wp_liftM. wp_step. apply wp_and_then, wp_liftM. wp_step. unfold refuse_if. cbn [w_max_connect_count w_clientid_index_hash upd w1].
    destruct (_ && _) eqn:Hlim.
    + apply andb_true_iff in Hlim as [Hmax%Z.ltb_lt Hfull%Z.leb_le]. eapply (refuse_spec p _ _ w w1 c1); [done|done|by eapply talking_same; [..|exact Ht]|].
      intros w2 H2. split; [lia|by apply Hout].
    + wp_step. split_and!; [|by eapply benign_ok; [apply Hr1|]|apply Hr1|].
      * destruct (Z.ltb_spec 0 (w_max_connect_count w)); [|by left]. cbn [andb] in Hlim. right. by apply Z.leb_gt in Hlim.
      * rewrite (proj2 (proj2 Hr1)). f_equal. by destruct c; cbn in *; subst.
Qed.
End connect_proofs.
