(* ===== verification/ConnectSafe.v ===== *)
(** * CONNECT is safe

    Every stage of [mqtt3_handle_connect], on any packet, either goes on with a client that
    is still new, or has refused it and left a sound broker. *)

From S2P Require Import Prelude Topic State Packet PacketProofs Writer Database DatabaseProofs StoreProofs Subs SubsProofs SubscribeProofs UnsubscribeProofs SubsClaims PublishProofs Queue Contexts ContextProofs Handlers HandlerProofs SubscribeHandlerProofs Frames HandleSafety Soundness Connect.
From stdpp Require Import options.

Section stages.
Context `{Env} `{!EnvLaws}.
#[local] Set Default Proof Using "Type*".
Implicit Types p q : ctxid.

(** A client that has not been admitted yet, in the middle of its CONNECT packet. *)
Definition newcomer (c : mosquitto) : Prop :=
  (∃ l, unread (c_in_packet c) l) ∧ octets (c_in_packet c) ∧ c_state c = mosq_cs_new ∧ c_bridge c = None ∧ c_id c = None ∧ is_Some (c_address c) ∧
  c_packet_count c + 1 < 2 ^ 64.
Definition greeting (p : ctxid) (w : world) : Prop :=
  sound (Some p) None w ∧ (∃ i, w_contexts w !! i = Some (Some p)) ∧ ∃ c, w_ctxs w !! p = Some c ∧ newcomer c.
Definition stage {A} (p : ctxid) (P : A → Prop) (m : ST world (Z + A)) : Prop := ∀ w, greeting p w →
  wp m (λ r w', match r with inl _ => sound (Some p) None w' | inr a => greeting p w' ∧ P a end) w.

Lemma stage_bind {A B} p (P : A → Prop) (Q : B → Prop) m k : stage p P m → (∀ a, P a → stage p Q (k a)) → stage p Q (and_then m k).
Proof.
  intros Hm Hk w Hg. apply wp_and_then. eapply wp_mono; [by apply Hm|]. intros [rc|a] w' Hr; [done|]. destruct Hr. by apply (Hk a).
Qed.
Lemma stage_ret {A} p (P : A → Prop) a : P a → stage p P (mret (inr a)).
Proof. intros Ha w Hg. by wp_step. Qed.
Lemma stage_weaken {A} p (P Q : A → Prop) m : (∀ a, P a → Q a) → stage p P m → stage p Q m.
Proof. intros HPQ Hm w Hg. eapply wp_mono; [by apply Hm|]. intros [rc|a] w' Hr; [done|]. destruct Hr; auto. Qed.

Lemma send_connack_sound x y q result w c : sound x y w → w_ctxs w !! q = Some c → c_packet_count c + 1 < 2 ^ 64 →
  wp (_mosquitto_send_connack q result) (λ _ w', sound x y w' ∧ handled (x, Some q) w w') w.
Proof.
  intros Hs Hc Hroom. apply sound_in_service; [done|apply handled_send_packet|].
  pose proof (co_output _ (so_context _ _ _ Hs q c Hc)) as Hwf. unfold _mosquitto_send_connack.
  eapply wp_mono; [eapply (send_packet_spec q CONNACK 2 0 _ [0; u8 result] w c Hc Hwf Hroom); [apply fills_two|done|done]|].
  intros rc w' Hs'. eapply (sends_in_service q); [apply Hs|done..].
Qed.

Lemma refuse_sound {A} x y q connack rc w c : sound x y w → w_ctxs w !! q = Some c → c_packet_count c + 1 < 2 ^ 64 →
  wp (refuse q connack rc : ST world (Z + A)) (λ r w', r = inl rc ∧ sound x y w' ∧ ∃ c', w_ctxs w' !! q = Some c' ∧ c_sock c' = INVALID_SOCKET) w.
Proof.
  intros Hs Hc Hroom. unfold refuse. wp_step. eapply (wp_mono _ (λ _ w1, sound x y w1 ∧ ∃ c1, w_ctxs w1 !! q = Some c1)).
  - destruct connack as [result|]; [|wp_step; split; [done|by exists c]]. wp_step. eapply wp_mono; [by eapply send_connack_sound|].
    intros _ w1 [Hs1 Hh]. wp_step. split; [done|]. destruct (handled_lookup _ _ _ _ _ Hh Hc) as (c1 & Hc1 & _). by exists c1.
  - intros _ w1 (Hs1 & c1 & Hc1). wp_step. eapply wp_mono; [eapply (disconnect_sound _ _ q w1 c1 Hs1 Hc1)|].
    intros _ w2 (Hs2 & c2 & Hc2 & Hsock & _). wp_step. split_and!; [done|done|]. by exists c2.
Qed.

Lemma stage_refuse {A} p (P : A → Prop) connack rc : stage p P (refuse p connack rc).
Proof.
  intros w (Hs & _ & c & Hc & Hn). eapply wp_mono; [eapply refuse_sound; [done..|apply Hn]|]. by intros r w' (-> & Hs' & _).
Qed.
Lemma stage_refuse_if p b connack rc : stage p (λ _, b = false) (refuse_if b p connack rc).
Proof. unfold refuse_if. destruct b; [apply stage_refuse|by apply stage_ret]. Qed.

(** A step that the new client does not notice. *)
Lemma stage_lift {A} p (P : A → Prop) (m : ST world A) :
  (∀ w, greeting p w → wp m (λ a w', greeting p w' ∧ P a) w) → stage p P (liftM m).
Proof. intros Hm w Hg. apply wp_liftM. by apply Hm. Qed.
Lemma greeting_frame p w w' : greeting p w → benign w w' → table w' = table w → w_ctxs w' = w_ctxs w → greeting p w'.
Proof.
  intros (Hs & Hi & Hc) Hb Ht Hw. split_and!; [by eapply sound_frame| |by rewrite Hw]. unfold table in Ht. by injection Ht as -> _ _.
Qed.
Lemma stage_gets {A} p (f : world → A) : stage p (λ _, True) (liftM (gets f)).
Proof. apply stage_lift. intros w Hg. by wp_step. Qed.
Lemma stage_ext {A} p (f : env → A * env) : stage p (λ _, True) (liftM (ext f)).
Proof. apply stage_lift. intros w Hg. apply wp_ext. intros a e _. split; [|done]. by eapply greeting_frame. Qed.
Lemma stage_skip {A} p (a : A) : stage p (λ _, True) (liftM (mret a)).
Proof. apply stage_lift. intros w Hg. by wp_step. Qed.
Lemma stage_get p : stage p newcomer (liftM (ctx_get p)).
Proof. apply stage_lift. intros w Hg. pose proof Hg as (_ & _ & c & Hc & Hn). by eapply wp_ctx_get. Qed.
Lemma greeting_upd p f w (Q : () → world → Prop) : greeting p w →
  (∀ c, place (f c) = place c ∧ output (f c) = output c ∧ c_in_packet (f c) = c_in_packet c ∧ ctx_core (f c) = ctx_core c ∧ c_bridge (f c) = c_bridge c) →
  (∀ w', greeting p w' → Q tt w') → wp (ctx_upd p f) Q w.
Proof.
  intros (Hs & Hi & c & Hc & Hn) Hf HQ. destruct (Hf c) as (Hpl & Ho & Hk & Hcore & Hb). destruct Hn as (Hu & Hoct & Hst & Hbr & Hid & Ha & Hroom).
  eapply (wp_sound_upd (Some p) None p f w c); [done|done|unfold place in Hpl; unfold slot; congruence|done| |].
  - apply (place_sound _ _ _ c); [done|done|eapply output_wf, so_context; done| |by eapply sound_context].
    unfold outwards, ctx_core in *. congruence.
  - intros w' Hs' Hw' Ht. apply HQ. split_and!; [done|unfold table in Ht; by injection Ht as -> _ _|]. exists (f c).
    split; [rewrite Hw'; apply lookup_insert_eq|]. unfold place in Hpl. unfold output in Ho. injection Ho as _ _ Hcount. unfold newcomer.
    rewrite Hk, Hcount, Hb. split_and!; try done; congruence.
Qed.
Lemma stage_upd p f :
  (∀ c, place (f c) = place c ∧ output (f c) = output c ∧ c_in_packet (f c) = c_in_packet c ∧ ctx_core (f c) = ctx_core c ∧ c_bridge (f c) = c_bridge c) →
  stage p (λ _, True) (liftM (ctx_upd p f)).
Proof. intros Hf. apply stage_lift. intros w Hg. by eapply greeting_upd. Qed.

(** A read, which fails or stays within the packet. *)
Lemma stage_read {A} p (R : A → Prop) (m : ST packet (Z + A)) :
  (∀ k l, unread k l → octets k → wp m (λ r k', read_ok k r k' ∧ ∀ a, r = inr a → R a) k) → stage p R (read_or_refuse p m).
Proof.
  intros Hm w Hg. pose proof Hg as (Hs & Hi & c & Hc & (l & Hu) & Hoct & Hst & Hbr & Hid & Ha & Hroom). unfold read_or_refuse. wp_step.
  eapply wp_in_packet; [by apply reached_refl|]. eapply wp_mono; [by eapply Hm|]. intros r k [Hr HR] w' Hr'.
  pose proof (read_ok_on _ _ _ Hr) as (Hu' & _ & _ & Hoct').
  assert (greeting p w') as Hg'.
  { pose proof Hr' as (_ & Hreg & Hw'). split_and!.
    - eapply (sound_reached _ _ _ _ p c); [done|done|exact Hr'|done| |done].
      destruct (sound_context _ _ _ _ _ Hs Hc) as (Hco & _ & Hcl). split_and!; [by destruct Hco|done|exact Hcl].
    - unfold registry in Hreg. replace (w_contexts w') with (w_contexts w) by congruence. done.
    - exists (c <| c_in_packet := k |>). split; [by eapply reached_lookup|]. unfold newcomer. split_and!; try done. by apply Hoct'. }
  destruct r as [rc|a]; [by eapply stage_refuse|]. wp_step. split; [done|by apply HR].
Qed.

Lemma read_any_string p : stage p (λ _, True) (read_or_refuse p _mosquitto_read_string).
Proof. apply stage_read. intros k l Hu _. eapply wp_mono; [by eapply read_string_safe|]. auto. Qed.
Lemma read_any_byte p : stage p (λ _, True) (read_or_refuse p _mosquitto_read_byte).
Proof. apply stage_read. intros k l Hu _. eapply wp_mono; [by eapply read_byte_safe|]. auto. Qed.
Lemma read_any_word p : stage p (λ n, 0 <= n < 2 ^ 16) (read_or_refuse p _mosquitto_read_uint16).
Proof.
  apply stage_read. intros k l Hu _. apply wp_and; [by eapply read_uint16_safe|]. unfold wp. rewrite (read_uint16_spec k l) by done.
  destruct l as [|a [|b l]]; [done..|]. intros n [= <-]. apply u16_bound.
Qed.
Lemma read_any_bytes p n : 0 < n < 2 ^ 28 → stage p (λ bs, n = Z.of_nat (length bs)) (read_or_refuse p (_mosquitto_read_bytes n)).
Proof.
  intros Hn. apply stage_read. intros k l Hu _. apply wp_and; [by eapply read_bytes_safe|]. unfold wp. rewrite (read_bytes_spec k l) by done.
  destruct (Z.ltb_spec (Z.of_nat (length l)) n); [done|]. intros bs [= <-]. rewrite length_take. lia.
Qed.
Lemma count_clients p : stage p (λ _, True) (liftM mqtt3_dxl_db_client_count).
Proof. unfold mqtt3_dxl_db_client_count. apply stage_gets. Qed.

(** One step of a proof of [stage]; what is read is any value. *)
Ltac stage_step :=
  lazymatch goal with
  | |- stage _ _ (mret (inr _)) => apply stage_ret; done
  | |- stage _ _ (and_then _ _) => eapply stage_bind; [|intros ? ?]
  | |- stage _ _ (refuse _ _ _) => apply stage_refuse
  | |- stage _ _ (refuse_if _ _ _ _) => eapply stage_weaken; [|apply stage_refuse_if]; done
  | |- stage _ _ (liftM (gets _)) => apply stage_gets
  | |- stage _ _ (liftM mqtt3_dxl_get_max_connect_count) => apply stage_gets
  | |- stage _ _ (liftM (ext _)) => apply stage_ext
  | |- stage _ _ (liftM (ctx_get _)) => apply stage_get
  | |- stage _ _ (liftM (mret _)) => apply stage_skip
  | |- stage _ _ (liftM (ctx_upd _ _)) => apply stage_upd; intros ?; split_and!; done
  | |- stage _ _ (liftM (if ?b then _ else _)) => destruct b
  | |- stage _ _ (if ?b then _ else _) => destruct b
  | |- stage _ _ (match ?x with _ => _ end) => destruct x
  | |- stage _ _ (read_or_refuse _ _) => first [apply read_any_string | apply read_any_byte | apply read_any_word]
  end.
Lemma connect_protocol_safe p : stage p (λ _, True) (connect_protocol p).
Proof. unfold connect_protocol. repeat stage_step. Qed.
Lemma connect_admission_safe p version : stage p (λ _, True) (connect_admission p version).
Proof. unfold connect_admission. repeat first [stage_step | apply count_clients]. Qed.
Lemma connect_options_safe p : stage p (λ f, cf_clean_session f = true) (connect_options p).
Proof.
  unfold connect_options. stage_step; [repeat stage_step|]. cbv zeta. stage_step; [repeat stage_step|].
  eapply stage_bind; [apply stage_refuse_if|]. intros ? Hb. do 2 (stage_step; [repeat stage_step|]).
  apply stage_ret. cbn. cbv beta in Hb. by rewrite Hb.
Qed.
Lemma connect_identity_safe p : stage p (λ _, True) (connect_identity p).
Proof. unfold connect_identity. repeat stage_step. Qed.

Definition will_sound (will : option message) : Prop := ∀ m, will = Some m → will_ok m.
Lemma connect_will_safe p f : stage p will_sound (connect_will p f).
Proof.
  unfold connect_will. destruct (cf_will f).
  - do 4 (stage_step; [repeat stage_step|]). eapply stage_bind; [apply read_any_word|]. intros n Hn. cbv beta in Hn.
    eapply (stage_bind _ (λ pl, ∃ bs, payload_bytes n pl bs)).
    + destruct (Z.ltb_spec 0 n).
      * eapply stage_bind; [apply read_any_bytes; lia|]. intros bs Hbs. apply stage_ret. exists bs. split; [done|by left].
      * apply stage_ret. exists []. split; [cbn; lia|right; lia].
    + intros pl [bs Hbs]. apply stage_ret. intros m [= <-]. split_and!; [by eexists|done|done|done|by exists bs].
  - do 2 (stage_step; [repeat stage_step|]). apply stage_ret. done.
Qed.
End stages.

(** * A client that comes back

    [connect_takeover]: the old context of a reconnecting client is cleaned up and takes
    over the new connection; its entry of the index is gone until it is registered again. *)

Section takeover.
Context `{Env} `{!EnvLaws}.
#[local] Set Default Proof Using "Type*".
Implicit Types p q : ctxid.

(** ** The connection changes hands *)

(** [q] will be the client [id], whose packet came over [p]. *)
Record registering (p q : ctxid) (id : string) (w : world) : Prop := {
  rg_sound : sound (Some p) (Some q) w;
  rg_entry : ∃ j, w_contexts w !! j = Some (Some q);
  rg_free : id ∉ (w_clientid_index_hash w).*1;
  rg_context : ∃ c, w_ctxs w !! q = Some c ∧ c_id c = None ∧ c_packet_count c + 1 < 2 ^ 64 }.

Lemma reborn_registering p q id c j w w' : sound (Some p) None w → q ≠ p → w_contexts w !! j = Some (Some q) → w_ctxs w !! q = Some c → c_id c = Some id →
  reborn q id c w w' → registering p q id w'.
Proof.
  intros Hs Hne Hj Hc Hid ((Hok' & _ & d & Hd & Hm) & (Hother & Htab & Hclean) & Hsub & Hfree & c' & Hc' & (Kn & Kd & Kw & Kc & _) & Hid' & (Hh & Hcmd & Hout & Hwill)).
  assert (d = c') as -> by congruence. pose proof (so_context _ _ _ Hs q c Hc) as Hco. unfold output in Hout. injection Hout as Ho1 Ho2 Ho3.
  assert (∀ r e, r ≠ q → w_ctxs w' !! r = Some e → w_ctxs w !! r = Some e) as Hback by (intros r e Hr He; by rewrite <-Hother).
  split; [|exists j; by rewrite Htab|done|exists c'; split_and!; [done..|lia]].
  split; rewrite ?Htab; [done| | | | | |].
  - intros i r Hr. destruct (so_slot _ _ _ Hs i r Hr) as (e & He & Hn & Hdb). destruct (decide (r = q)) as [->|Hrq].
    + exists c'. assert (e = c) as -> by congruence. split_and!; [done|congruence..].
    + exists e. by rewrite Hother.
  - intros r e He. destruct (decide (r = q)) as [->|Hrq]; [|by eapply so_context; [|apply Hback]]. assert (e = c') as -> by congruence.
    split; [by rewrite Hwill| |rewrite Kw; apply Hco|rewrite Kc; apply Hco|unfold outwards; by rewrite Hm].
    unfold out_wf, queued_packets. rewrite Ho1, Ho2, Ho3. split_and!; [constructor|done|lia].
  - intros r e He Hr. destruct (decide (r = q)) as [->|Hrq]; [|by eapply so_input; [|apply Hback|]]. assert (e = c') as -> by congruence.
    intros _. split; [by left|]. intros _ _. left. split; [done|]. apply Hh.
  - intros r e He Hr. apply (so_client _ _ _ Hs r e); [apply Hback; [by intros ->|done]|done].
  - intros id' i Hi. assert ((id', i) ∈ w_clientid_index_hash w) as Hi' by (by eapply elem_of_sublist).
    destruct (so_index _ _ _ Hs id' i Hi') as (k & r & e & -> & Hk & He & Hide). exists k, r, e. split_and!; try done. rewrite Hother; [done|]. intros ->.
    assert (id' = id) as -> by congruence. apply Hfree. apply (list_elem_of_fmap_2 fst _ _ Hi).
  - eapply sublist_NoDup; [apply (so_nodup _ _ _ Hs)|]. by apply fmap_sublist.
Qed.

(** Nothing of a packet has been read. *)
Definition idle (c : mosquitto) : Prop := in_header (c_in_packet c) ∧ p_command (c_in_packet c) = 0.
(** In the middle of it: the queue of [q] is empty, its place in the table [i]. *)
Definition adopting (p q : ctxid) (id : string) (i : Z) (w : world) : Prop :=
  registering p q id w ∧ is_Some (w_ctxs w !! p) ∧ ∃ o, w_ctxs w !! q = Some o ∧ c_msgs o = [] ∧ c_numericId o = i ∧ idle o.
Lemma adopting_frame p q id i w w' : adopting p q id i w → benign w w' → table w' = table w → w_ctxs w' = w_ctxs w → adopting p q id i w'.
Proof.
  intros ([Hs He Hf Hc] & Hp & Ho) Hb Ht Hw. unfold adopting. rewrite Hw. split_and!; [|done|done]. pose proof Ht as Ht'. unfold table in Ht'. injection Ht' as Ht1 Ht2 _.
  split; [by eapply sound_frame|by rewrite Ht1|by rewrite Ht2|by rewrite Hw].
Qed.
Lemma adopting_ext {A} p q id i (f : env → A * env) w (Q : A → world → Prop) : adopting p q id i w → (∀ a w', adopting p q id i w' → Q a w') → wp (ext f) Q w.
Proof. intros Had HQ. apply wp_ext. intros a e _. apply HQ. by eapply adopting_frame. Qed.
Lemma adopting_ext_ p q id i (f : env → env) w (Q : () → world → Prop) : adopting p q id i w → (∀ w', adopting p q id i w' → Q tt w') → wp (ext_ f) Q w.
Proof. intros Had HQ. apply wp_ext_. apply HQ. by eapply adopting_frame. Qed.
Lemma adopting_upd p q id i f w (Q : () → world → Prop) : adopting p q id i w →
  (∀ o, (slot (f o), ctx_core (f o), output (f o), c_in_packet (f o), c_will (f o), c_wsi (f o), c_clean_session (f o)) =
        (slot o, ctx_core o, output o, c_in_packet o, c_will o, c_wsi o, c_clean_session o) ) →
  (∀ w', adopting p q id i w' → Q tt w') → wp (ctx_upd q f) Q w.
Proof.
  intros ([Hs He Hf (o & Ho & Hid & Hroom)] & Hp & o' & Ho' & Hm & Hn & Hidle) Hfo HQ. assert (o' = o) as -> by congruence.
  pose proof (Hfo o) as Hsame. assert (c_msgs (f o) = c_msgs o ∧ c_id (f o) = c_id o ∧ c_numericId (f o) = c_numericId o ∧ c_packet_count (f o) = c_packet_count o) as (Km & Ki & Kn & Kp).
  { unfold slot, ctx_core, output in Hsame. split_and!; congruence. }
  destruct (sound_context _ _ _ _ _ Hs Ho) as ([C1 C2 C3 C4 C5] & _). eapply (wp_sound_upd (Some p) (Some q) q f w o); [done|done|congruence|congruence| |].
  - split_and!; [|intros Hx|done].
    + split; [replace (c_will (f o)) with (c_will o) by congruence; done|apply (output_wf o); [congruence|done]|congruence|congruence|unfold outwards; by rewrite Km].
    + intros _. unfold idle in Hidle. assert (c_in_packet (f o) = c_in_packet o) as -> by congruence. destruct Hidle as [Hh Hcmd]. split; [by left|]. intros _ _. left. split; [done|apply Hh].
  - intros w' Hs' Hw' Ht. unfold table in Ht. injection Ht as Ht1 Ht2 Ht3. apply HQ. split_and!.
    + split; [done|by rewrite Ht1|by rewrite Ht2|]. exists (f o). split_and!; [rewrite Hw'; apply lookup_insert_eq|congruence|lia].
    + rewrite Hw'. destruct (decide (p = q)) as [->|Hne]; [rewrite lookup_insert_eq; by eexists|by rewrite lookup_insert_ne].
    + exists (f o). split_and!; [rewrite Hw'; apply lookup_insert_eq|congruence..|]. unfold idle. by assert (c_in_packet (f o) = c_in_packet o) as -> by congruence.
Qed.

Lemma adopting_index p q id i w (Q : () → world → Prop) : adopting p q id i w → (∀ w', adopting p q id i w' → Q tt w') →
  wp (ctx_upd q (λ o, o <| c_numericId := i |> <| c_clean_subs := false |>)) Q w.
Proof.
  intros Had HQ. pose proof Had as (_ & _ & o & Ho & _ & Hn & _). unfold ctx_upd. wp_step. eapply wp_ctx_get; [done|]. cbv beta.
  enough (wp (ctx_upd q (λ o, o <| c_clean_subs := false |>)) Q w) as Hwp.
  { revert Hwp. unfold wp, ctx_upd, mbind, st_bind, ctx_get, deref. rewrite Ho. subst i. by destruct o. }
  eapply adopting_upd; [done|done|done].
Qed.
(** The connection is not [p]'s any more. *)
Lemma adopting_hang_up p q id i w (Q : () → world → Prop) : adopting p q id i w → q ≠ p → (∀ w', adopting p q id i w' → Q tt w') →
  wp (ctx_upd p (λ c, c <| c_listener := None |> <| c_sock := -1 |> <| c_ssl := false |> <| c_state := mosq_cs_disconnecting |>)) Q w.
Proof.
  intros ([Hs He Hf (d & Hd & Hid & Hroom)] & [c Hc] & o & Ho & Hm & Hn) Hne HQ.
  destruct (sound_context _ _ _ _ _ Hs Hc) as ([C1 C2 C3 C4 C5] & _ & _). eapply (wp_sound_upd (Some p) (Some q) p); [done|done|done|done| |].
  { by split_and!. }
  intros w' Hs' Hw' Ht. unfold table in Ht. injection Ht as Ht1 Ht2 Ht3.
  assert (w_ctxs w' !! q = w_ctxs w !! q) as Hq by (rewrite Hw'; by apply lookup_insert_ne). apply HQ. split_and!.
  - split; [done|by rewrite Ht1|by rewrite Ht2|]. exists d. by rewrite Hq.
  - rewrite Hw', lookup_insert_eq. by eexists.
  - exists o. by rewrite Hq.
Qed.
Lemma adopt_connection_safe p q id i w o c j : sound (Some p) None w → w_ctxs w !! p = Some c → c_id c = None → is_Some (c_address c) →
  w_contexts w !! j = Some (Some q) → i = Z.of_nat j → w_ctxs w !! q = Some o → c_id o = Some id → clientid_find id (w_clientid_index_hash w) = Some i →
  wp (adopt_connection p q i true) (λ r w', registering p r id w') w.
Proof.
  intros Hs Hc Hcid [address Haddr] Hj -> Ho Hid Hfind. assert (q ≠ p) as Hne by congruence. unfold adopt_connection. wp_step.
  eapply (wp_sound_upd (Some p) None q); [done|done|done|done| |].
  { apply (place_sound _ _ _ o); [|done|by apply (so_context _ _ _ Hs q o Ho)|done|by eapply sound_context]. unfold place. cbn. by rewrite (co_clean _ (so_context _ _ _ Hs q o Ho)). }
  intros w1 Hs1 Hw1 Ht1. unfold table in Ht1. injection Ht1 as Ht1 Hi1 Hcl1. set (o1 := o <| c_clean_session := true |>) in *.
  assert (w_ctxs w1 !! q = Some o1 ∧ w_ctxs w1 !! p = Some c) as [Ho1 Hc1] by (rewrite Hw1; split; [apply lookup_insert_eq|by rewrite lookup_insert_ne]).
  wp_step. eapply wp_mono; [eapply (cleanup_reborn q w1 o1 id); [apply Hs1|done|done|exact Hid|by rewrite Hi1; eexists|apply (so_nodup _ _ _ Hs1)]|].
  intros ? w2 Hreb. assert (w_contexts w1 !! j = Some (Some q)) as Hj1 by (by rewrite Ht1).
  assert (adopting p q id (Z.of_nat j) w2 ∧ w_ctxs w2 !! p = Some c) as [Had Hc2].
  { pose proof (reborn_registering _ _ _ _ _ _ _ Hs1 Hne Hj1 Ho1 Hid Hreb) as Hreg.
    destruct Hreb as ((_ & _ & d & Hd & Hm) & (Hother & _) & _ & _ & d' & Hd' & (Kn & _) & _ & Hf1 & Hf2 & _). assert (w_ctxs w2 !! p = Some c) as Hc2 by (by rewrite Hother).
    split; [|done]. split_and!; [done|by eexists|]. assert (d = d') as -> by congruence. exists d'. split_and!; [done|done| |done].
    destruct (so_slot _ _ _ Hs1 j q Hj1) as (e & He & Hn & _). assert (e = o1) as -> by congruence. by rewrite Kn. }
  wp_step. eapply wp_ctx_get; [done|]. cbv beta. wp_step. eapply wp_deref; [exact Haddr|]. cbv beta. wp_step.
  eapply adopting_upd; [done|done|]. intros w3 Had3. wp_step. unfold mosquitto_time.
  eapply adopting_ext; [done|]. intros t1 w4 Had4. wp_step. eapply adopting_ext; [done|]. intros t2 w5 Had5. wp_step.
  eapply adopting_upd; [done|done|]. intros w6 Had6. wp_step.
  eapply adopting_hang_up; [done|done|]. intros w7 Had7. wp_step. pose proof Had7 as (_ & _ & o7 & Ho7 & Hm7 & _). eapply wp_ctx_get; [done|]. cbv beta. rewrite Hm7. do 2 wp_step.
  unfold mosquitto_epoll_update_context_index. do 2 wp_step. eapply wp_ctx_get; [done|]. cbv beta. eapply adopting_ext_; [done|]. intros w8 Had8. wp_step.
  eapply adopting_index; [done|]. intros w9 Had9. wp_step. unfold mosquitto_remove_pending_bytes_set. wp_step. pose proof Had9 as (_ & _ & o9 & Ho9 & _).
  eapply wp_ctx_get; [done|]. cbv beta. destruct (c_pending_bytes o9); wp_steps; [|apply Had9]. eapply adopting_upd; [by eapply adopting_frame|done|].
  intros w10 Had10. wp_step. apply Had10.
Qed.
End takeover.
