(* ===== verification/PacketSafe.v ===== *)
(** * No packet breaks the broker

    [mqtt3_packet_handle] on whatever a client sends: CONNECT registers the client or
    refuses it, every other handler leaves the broker sound. *)

From S2P Require Import Prelude Topic State Packet PacketProofs Writer Database DatabaseProofs StoreProofs Subs SubsProofs SubscribeProofs SubsClaims PublishProofs Queue Contexts ContextProofs.
From S2P Require Import UnsubscribeProofs Handlers HandlerProofs SubscribeHandlerProofs Frames HandleSafety Soundness Connect ConnectSafe.
From stdpp Require Import options.

Section connect.
Context `{Env} `{!EnvLaws}.
#[local] Set Default Proof Using "Type*".
Implicit Types p q : ctxid.

(** ** The client is registered *)

(** It gets its identifier. *)
Lemma sound_named x q w c c' id : sound x (Some q) w → w_ctxs w !! q = Some c → c_id c = None → c_id c' = Some id → c_clean_session c' = true →
  (c_numericId c', c_db_index c', c_msgs c', c_msg_count c', c_msg_count12 c', c_in_packet c', output c', c_will c', c_wsi c', c_state c', c_sock c', c_bridge c') =
  (c_numericId c, c_db_index c, c_msgs c, c_msg_count c, c_msg_count12 c, c_in_packet c, output c, c_will c, c_wsi c, c_state c, c_sock c, c_bridge c) →
  sound x (Some q) (w <| w_ctxs ::= <[q := c']> |>).
Proof.
  intros Hs Hc Hid Hid' Hcs [= Kn Kd Km K1 K2 Kk Ko1 Ko2 Ko3 Kw Kws Kst Kso Kb]. set (w' := w <| w_ctxs ::= <[q := c']> |>). assert (w_ctxs w' !! q = Some c') as Hc' by apply lookup_insert_eq.
  assert (∀ r, r ≠ q → w_ctxs w' !! r = w_ctxs w !! r) as Hother by (intros; by apply lookup_insert_ne).
  destruct (sound_context _ _ _ _ _ Hs Hc) as ([C1 C2 C3 C4 C5] & Hin & _). pose proof (so_ok _ _ _ Hs) as [Hdb [Hwf Hlive] Hg Hroot].
  split; [| | | | | |apply Hs..].
  - split; [| |done|done].
    + eapply (db_ok_same w w' q c c'); try done. by rewrite Km.
    + split; [done|]. intros path. eapply Forall_impl; [apply (Hlive path)|]. intros leaf. unfold leaf_live, client_id.
      destruct (decide (l_context leaf = q)) as [->|Hne]; [by rewrite Hc', Hc; cbn; rewrite Hid'|by rewrite Hother].
  - intros i r Hr. destruct (so_slot _ _ _ Hs i r Hr) as (e & He & Hn & Hd). destruct (decide (r = q)) as [->|Hne]; [|exists e; by rewrite Hother].
    exists c'. assert (e = c) as -> by congruence. split_and!; [done|congruence..].
  - intros r e He. destruct (decide (r = q)) as [->|Hne]; [|rewrite Hother in He by done; by eapply so_context]. assert (e = c') as -> by congruence.
    split; [by rewrite Kw|apply (output_wf c); [unfold output; congruence|done]|congruence|done|unfold outwards; by rewrite Km].
  - intros r e He Hx. destruct (decide (r = q)) as [->|Hne]; [|rewrite Hother in He by done; by eapply so_input]. assert (e = c') as -> by congruence.
    intros Hsock. rewrite Kso in Hsock. destruct (Hin Hx Hsock) as [I1 I2]. split; rewrite Kk; [done|]. intros S2 S3. apply I2; congruence.
  - intros r e He Hy. rewrite Hother in He by (intros ->; by apply Hy). by eapply so_client.
  - intros id' i Hi. destruct (so_index _ _ _ Hs id' i Hi) as (j & r & e & -> & Hj & He & Hide). exists j, r, e. split_and!; try done.
    rewrite Hother; [done|]. intros ->. congruence.
Qed.
(** Its entry of the index is that of the table. *)
Lemma sound_indexed x y q w c id j : sound x y w → w_ctxs w !! q = Some c → c_id c = Some id → w_contexts w !! j = Some (Some q) →
  id ∉ (w_clientid_index_hash w).*1 → sound x y (w <| w_clientid_index_hash ::= cons (id, c_db_index c) |>).
Proof.
  intros Hs Hc Hid Hj Hfree. split; try apply Hs.
  - by eapply benign_ok; [|apply Hs].
  - intros id' i Hi. cbn in Hi. apply elem_of_cons in Hi as [[= -> ->]|Hi]; [|by apply (so_index _ _ _ Hs)].
    destruct (so_slot _ _ _ Hs j q Hj) as (e & He & _ & Hd). assert (e = c) as -> by congruence. by exists j, q, c.
  - cbn. apply NoDup_cons. split; [done|apply Hs].
Qed.

Lemma connect_takeover_safe p id w : greeting p w → wp (connect_takeover p id true) (λ q w', registering p q id w') w.
Proof.
  intros (Hs & [i Hi] & c & Hc & (_ & _ & _ & _ & Hcid & Ha & Hroom)). unfold connect_takeover. wp_steps.
  destruct (clientid_find id (w_clientid_index_hash w)) as [n|] eqn:Hfind.
  - destruct (so_index _ _ _ Hs id n (clientid_find_in _ _ _ Hfind)) as (j & q & o & -> & Hj & Ho & Hoid). wp_steps.
    eapply wp_deref; [rewrite Nat2Z.id, Hj; done|]. cbv beta. wp_step. eapply wp_ctx_get; [done|]. cbv beta. wp_step. eapply wp_ctx_get; [done|]. cbv beta.
    rewrite (co_wsi _ (so_context _ _ _ Hs q o Ho)), (co_wsi _ (so_context _ _ _ Hs p c Hc)). cbn [orb]. by eapply adopt_connection_safe.
  - wp_step. split; [|by exists i|by apply clientid_find_none|by exists c]. split; try apply Hs. intros r e He _. by eapply so_client.
Qed.

(** Registered, but not yet connected. *)
Definition enrolled (p q : ctxid) (id : string) (w : world) : Prop :=
  sound (Some p) (Some q) w ∧ ∃ c, w_ctxs w !! q = Some c ∧ c_id c = Some id ∧ c_packet_count c + 1 < 2 ^ 64.
Lemma enrolled_frame p q id w w' : enrolled p q id w → benign w w' → table w' = table w → w_ctxs w' = w_ctxs w → enrolled p q id w'.
Proof. intros [Hs Hc] Hb Ht Hw. split; [by eapply sound_frame|by rewrite Hw]. Qed.
Lemma sound_client_settle x q w : sound x (Some q) w → (∀ c, w_ctxs w !! q = Some c → c_sock c ≠ INVALID_SOCKET → client_ok c) → sound x None w.
Proof.
  intros Hs Hq. split; try apply Hs. intros r c Hc _ Hsock. destruct (decide (r = q)) as [->|Hne]; [by apply Hq|]. eapply (so_client _ _ _ Hs); [done|congruence|done].
Qed.

Lemma connect_finish_safe p q id will w : registering p q (id_client id) w → will_sound will →
  wp (connect_finish q id true will) (λ _ w', sound (Some p) None w') w.
Proof.
  intros [Hs [j Hj] Hfree (c & Hc & Hcid & Hroom)] Hwill. unfold connect_finish. cbv zeta. apply wp_and_then, wp_liftM. eapply wp_ctx_upd; [done|].
  set (c1 := c <| c_id := _ |> <| c_canonical_id := _ |> <| c_clean_session := _ |> <| c_ping_t := _ |> <| c_is_dropping := _ |> <| c_cert_chain := _ |>).
  pose proof (sound_named _ q w c c1 (id_client id) Hs Hc Hcid eq_refl eq_refl eq_refl) as Hs1. set (w1 := w <| w_ctxs ::= <[q := c1]> |>) in *.
  assert (w_ctxs w1 !! q = Some c1) as Hc1 by apply lookup_insert_eq. apply wp_and_then, wp_liftM. eapply wp_ctx_get; [done|]. apply wp_and_then, wp_liftM. wp_step.
  pose proof (sound_indexed _ _ q w1 c1 (id_client id) j Hs1 Hc1 eq_refl Hj Hfree) as Hs2. set (w2 := w1 <| w_clientid_index_hash ::= _ |>) in *.
  assert (enrolled p q (id_client id) w2) as Hr2 by (split; [done|]; by exists c1). clearbody w2. clear -Hr2 Hwill H0.
  apply wp_and_then, wp_liftM. unfold mqtt3_add_canonical_client_id. wp_step. set (w3 := w2 <| w_canonical_client_id_index_hash ::= _ |>).
  assert (enrolled p q (id_client id) w3) as Hr3 by (by eapply enrolled_frame). clearbody w3. clear Hr2.
  apply wp_and_then, wp_liftM, wp_ext_. set (w4 := w3 <| w_env ::= _ |>). assert (enrolled p q (id_client id) w4) as Hr4 by (by eapply enrolled_frame). clearbody w4. clear Hr3.
  apply wp_and_then, wp_liftM. eapply (wp_mono _ (λ _ w', enrolled p q (id_client id) w')).
  { destruct will as [m|]; [|by wp_step]. destruct Hr4 as (Hs4 & c4 & Hc4 & Hid4 & Hroom4). eapply (wp_sound_upd (Some p) (Some q) q); [done|done|done|done| |].
    - destruct (sound_context _ _ _ _ _ Hs4 Hc4) as ([C1 C2 C3 C4 C5] & Hin & _). split_and!; [split; try done; cbn; intros ? [= <-]; by apply Hwill|exact Hin|done].
    - intros w' Hs' Hw' _. split; [done|]. eexists. split; [rewrite Hw'; apply lookup_insert_eq|done]. }
  intros _ w5 (Hs5 & c5 & Hc5 & Hid5 & Hroom5). apply wp_and_then, wp_liftM. eapply wp_ctx_get; [done|]. apply wp_and_then, wp_liftM, wp_ext. intros allowed e _.
  set (w6 := w5 <| w_env := e |>). assert (sound (Some p) (Some q) w6) as Hs6 by (by eapply sound_frame). assert (w_ctxs w6 !! q = Some c5) as Hc6 by done. clearbody w6.
  apply wp_and_then. unfold refuse_if. destruct (negb allowed).
  { eapply wp_mono; [by eapply refuse_sound|]. intros r w7 (-> & Hs7 & c7 & Hc7 & Hsock). eapply sound_client_settle; [done|]. intros d Hd. congruence. }
  wp_step. apply wp_and_then, wp_liftM. eapply (wp_sound_upd (Some p) (Some q) q); [done|done|done|done| |].
  { destruct (sound_context _ _ _ _ _ Hs6 Hc6) as ([C1 C2 C3 C4 C5] & Hin & _). split_and!; [done|intros Hx Hsock; split; [by apply Hin|by intros _ ?]|done]. }
  intros w7 Hs7 Hw7 _. set (c7 := c5 <| c_state := mosq_cs_connected |>) in *. assert (w_ctxs w7 !! q = Some c7) as Hc7 by (rewrite Hw7; apply lookup_insert_eq).
  apply wp_and_then, wp_liftM. eapply wp_ctx_get; [done|]. apply wp_and_then, wp_liftM. eapply (wp_mono _ (λ _ w', sound (Some p) (Some q) w' ∧ w_ctxs w' !! q = Some c7)).
  { destruct (c_is_bridge c7); [|by wp_step]. apply wp_ext_. split; [by eapply sound_frame|done]. }
  intros _ w8 [Hs8 Hc8]. apply wp_liftM. eapply wp_mono; [by eapply send_connack_sound|]. intros rc w9 [Hs9 Hh].
  eapply sound_client_settle; [done|]. intros d Hd _ _. destruct (handled_lookup _ _ _ _ _ Hh Hc8) as (d' & Hd' & Hpl & _). assert (d' = d) as -> by congruence.
  unfold place in Hpl. assert (c_state d = mosq_cs_connected ∧ c_id d = Some (id_client id)) as [-> ->]; [|by rewrite decide_False].
  split; [by replace (c_state d) with (c_state c7) by congruence|by replace (c_id d) with (c_id c7) by congruence].
Qed.

Lemma wp_stage {A B} p (P : A → Prop) (m : ST world (Z + A)) (k : A → ST world (Z + B)) w : stage p P m → greeting p w →
  (∀ a w', greeting p w' → P a → wp (k a) (λ _ w', sound (Some p) None w') w') → wp (and_then m k) (λ _ w', sound (Some p) None w') w.
Proof.
  intros Hm Hg Hk. apply wp_and_then. eapply wp_mono; [by apply Hm|]. intros [rc|a] w' Hr; [done|]. destruct Hr. by apply Hk.
Qed.
(** CONNECT, whatever it asks for. *)
Lemma handle_connect_safe p w : greeting p w → wp (mqtt3_handle_connect p) (λ _ w', sound (Some p) None w') w.
Proof.
  intros Hg. unfold mqtt3_handle_connect. apply wp_returned.
  eapply wp_stage; [apply connect_protocol_safe|exact Hg|]. clear w Hg. intros version w Hg _.
  eapply wp_stage; [apply connect_admission_safe|exact Hg|]. clear w Hg. intros [] w Hg _.
  eapply wp_stage; [apply connect_options_safe|exact Hg|]. clear w Hg. intros f w Hg Hf. cbv beta in Hf. rewrite Hf.
  eapply wp_stage; [apply connect_identity_safe|exact Hg|]. clear w Hg. intros id w Hg _.
  eapply wp_stage; [apply connect_will_safe|exact Hg|]. clear w Hg. intros will w Hg Hwill.
  apply wp_and_then, wp_liftM. eapply wp_mono; [by apply connect_takeover_safe|]. intros q w' Hr. cbv beta iota. by apply connect_finish_safe.
Qed.
End connect.

(** ** The dispatch *)

Section dispatch.
Context `{Env} `{!EnvLaws}.
#[local] Set Default Proof Using "Type*".
Implicit Types p : ctxid.

(** A client of the table whose packet is complete, with room for the answer. Before its
    CONNECT it has sent nothing else. *)
Definition packet_ready (c : mosquitto) : Prop :=
  (∃ l, unread (c_in_packet c) l) ∧ octets (c_in_packet c) ∧ c_bridge c = None ∧ client_ok c ∧
  (c_state c = mosq_cs_new → Z.land (p_command (c_in_packet c)) 0xF0 = CONNECT) ∧ c_packet_count c + 1 < 2 ^ 64.

(** A handler of [HandleSafety]. *)
Lemma handler_sound {A} p (m : ST world A) w : sound (Some p) None w → frame (handled (Some p, Some p)) m →
  wp m (λ _ w', in_service p w') w → wp m (λ _ w', sound (Some p) None w') w.
Proof. intros Hs Hf Hm. eapply wp_mono; [by eapply sound_in_service|]. by intros a w' [? _]. Qed.
Lemma handled_to r p w w' : handled (r, None) w w' → handled (r, Some p) w w'.
Proof.
  intros [Ht Hq]. split; [done|]. intros q. specialize (Hq q). destruct (w_ctxs w !! q), (w_ctxs w' !! q); try done. destruct Hq as (?&?&Ho&?).
  split_and!; try done. intros _. by apply Ho.
Qed.

(** A CONNECT on a connection that is not new. *)
Lemma second_connect_safe p w c : sound (Some p) None w → w_ctxs w !! p = Some c → c_state c ≠ mosq_cs_new → c_packet_count c + 1 < 2 ^ 64 →
  wp (mqtt3_handle_connect p) (λ _ w', sound (Some p) None w') w.
Proof.
  intros Hs Hc Hst Hroom. unfold mqtt3_handle_connect. apply wp_returned, wp_and_then. unfold connect_protocol. apply wp_and_then, wp_liftM.
  eapply wp_ctx_get; [done|]. apply wp_and_then. unfold refuse_if. rewrite bool_decide_eq_true_2 by done.
  eapply wp_mono; [by eapply refuse_sound|]. by intros r w' (-> & Hs' & _).
Qed.

(** Past its CONNECT, a client may change the state of its connection. *)
Lemma state_sound p c s : context_sound (Some p) None p c → c_state c ≠ mosq_cs_new → s ≠ mosq_cs_new → context_sound (Some p) None p (c <| c_state := s |>).
Proof.
  intros ([C1 C2 C3 C4 C5] & _ & Hcl) Hst Hs. split_and!; [done|done|]. intros Hy Hsock Hb. specialize (Hcl Hy Hsock Hb).
  rewrite decide_False in Hcl by done. cbn. by rewrite decide_False.
Qed.

Lemma handle_disconnect_safe p w c : sound (Some p) None w → w_ctxs w !! p = Some c → c_state c ≠ mosq_cs_new →
  wp (mqtt3_handle_disconnect p) (λ _ w', sound (Some p) None w') w.
Proof.
  intros Hs Hc Hst. assert (∀ w c, sound (Some p) None w → w_ctxs w !! p = Some c → wp (mqtt3_context_disconnect p) (λ _ w', sound (Some p) None w') w) as Hd.
  { intros w' c' Hs' Hc'. eapply wp_mono; [by eapply disconnect_sound|]. by intros ? ? [? _]. }
  unfold mqtt3_handle_disconnect. wp_step. eapply wp_ctx_get; [done|]. cbv beta. destruct (negb _); [by wp_step|]. destruct (bad_flags c 0).
  { wp_step. eapply wp_mono; [by eapply Hd|]. intros ? w' Hs'. by wp_step. }
  wp_step. eapply (wp_sound_upd (Some p) None p); [done|done|done|done|by apply state_sound; [eapply sound_context|..]|].
  intros w1 Hs1 Hw1 _. wp_step. eapply wp_mono; [eapply Hd; [done|rewrite Hw1; apply lookup_insert_eq]|]. intros ? w' Hs'. by wp_step.
Qed.

Lemma handle_connack_safe p w c l : sound (Some p) None w → w_ctxs w !! p = Some c → unread (c_in_packet c) l → c_bridge c = None → c_state c ≠ mosq_cs_new →
  wp (mqtt3_handle_connack p) (λ _ w', sound (Some p) None w') w.
Proof.
  intros Hs Hc Hu Hb Hst. pose proof (sound_context _ _ _ _ _ Hs Hc) as Hcs.
  assert (∀ k w', reached p (c <| c_in_packet := k |>) w w' → sound (Some p) None w') as Hread.
  { intros k w' Hr. eapply (sound_reached _ _ _ _ p c); [done|done|exact Hr|done| |done]. destruct Hcs as ([C1 C2 C3 C4 C5] & _ & Hcl). by split_and!. }
  assert (∀ k w', reached p (c <| c_in_packet := k |>) w w' → wp (ctx_upd p (λ c, c <| c_state := mosq_cs_connected |>)) (λ _ w', sound (Some p) None w') w') as Hconn.
  { intros k w' Hr. eapply (wp_sound_upd (Some p) None p); [by eapply Hread|by eapply reached_lookup|done|done|apply state_sound; [|done..]|done].
    eapply sound_context; [by eapply Hread|by eapply reached_lookup]. }
  unfold mqtt3_handle_connack. apply wp_returned, wp_and_then, wp_or_return. eapply wp_in_packet; [by apply reached_refl|]. eapply wp_mono; [by eapply read_byte_safe|].
  intros r k ((l1 & Hu1) & _) w1 Hr1. destruct r as [rc|byte]; [by eapply Hread|]. apply wp_and_then, wp_or_return.
  eapply wp_in_packet; [exact Hr1|]. eapply wp_mono; [by eapply read_byte_safe|]. intros r k2 _ w2 Hr2.
  change (c <| c_in_packet := k |> <| c_in_packet := k2 |>) with (c <| c_in_packet := k2 |>) in Hr2.
  destruct r as [rc|code]; [by eapply Hread|]. apply wp_and_then, wp_liftM. eapply wp_reached_get; [exact Hr2|].
  destruct (code =? CONNACK_ACCEPTED).
  - apply wp_and_then. replace (c_bridge _) with (@None bridge) by (by symmetry). wp_step. apply wp_and_then, wp_liftM.
    eapply wp_mono; [by eapply Hconn|]. intros ? w3 Hs3. by wp_step.
  - destruct (code =? CONNACK_REFUSED_PROTOCOL_VERSION); [|wp_step; by eapply Hread]. apply wp_and_then, wp_liftM.
    eapply wp_reached_upd; [exact Hr2|done|]. intros w3 Hr3. wp_step. eapply (Hread k2). 
    match type of Hr3 with reached _ ?d _ _ => assert (d = c <| c_in_packet := k2 |>) as <-; [|done] end. destruct c; cbn in *. by subst.
Qed.

(** No packet of a client breaks the broker. *)
Lemma packet_handle_safe p w c : sound (Some p) None w → (∃ i, w_contexts w !! i = Some (Some p)) → w_ctxs w !! p = Some c → packet_ready c →
  wp (mqtt3_packet_handle p) (λ _ w', sound (Some p) None w') w.
Proof.
  intros Hs Hi Hc ((l & Hu) & Hoct & Hb & Hcl & Hnew & Hroom). pose proof (so_ok _ _ _ Hs) as Hok. pose proof (sound_context _ _ _ _ _ Hs Hc) as ([_ Hwf _ _ Hout] & _).
  unfold mqtt3_packet_handle. wp_step. eapply wp_ctx_get; [done|]. cbv zeta beta. set (cmd := Z.land _ _) in *.
  destruct (decide (cmd = CONNECT)) as [->|Hcmd].
  { cbn [Z.eqb Pos.eqb orb]. change (wp (mqtt3_handle_connect p) (λ _ w', sound (Some p) None w') w). destruct (decide (c_state c = mosq_cs_new)) as [Hst|Hst]; [|by eapply second_connect_safe].
    apply handle_connect_safe. split_and!; [done|done|]. exists c. specialize (Hcl Hb). rewrite decide_True in Hcl by done. destruct Hcl. split; [done|]. split_and!; try done. by exists l. }
  assert (c_state c ≠ mosq_cs_new) as Hst by (intros E; by apply Hcmd, Hnew).
  assert (is_Some (c_id c)) as [id Hid] by (specialize (Hcl Hb); by rewrite decide_False in Hcl).
  rewrite (proj2 (Z.eqb_neq cmd CONNECT)) by done.
  repeat match goal with |- wp (if ?b then _ else _) _ _ => destruct b end.
  - apply handler_sound; [done|apply handled_pingreq|by eapply pingreq_safe].
  - apply handler_sound; [done|apply handled_pingresp|by eapply pingresp_safe].
  - apply handler_sound; [done|apply handled_pubackcomp|by eapply pubackcomp_safe].
  - apply handler_sound; [done|eapply frame_weaken; [apply handled_to|apply handled_publish]|by eapply publish_safe].
  - apply handler_sound; [done|apply handled_pubrec|by eapply pubrec_safe].
  - apply handler_sound; [done|apply handled_pubrel|by eapply pubrel_safe].
  - by eapply handle_disconnect_safe.
  - apply handler_sound; [done|apply handled_subscribe|by eapply handle_subscribe_safe].
  - apply handler_sound; [done|apply handled_unsubscribe|by eapply handle_unsubscribe_safe].
  - by eapply handle_connack_safe.
  - apply handler_sound; [done|apply handled_suback|by eapply suback_safe].
  - apply handler_sound; [done|apply handled_unsuback|by eapply unsuback_safe].
  - by wp_step.
Qed.

(** C2: no packet of a client breaks the broker. Whatever complete packet a client of the
    table has sent, of whatever command, length and contents, in whatever state of its
    connection (a first packet being a CONNECT), [mqtt3_packet_handle] returns: it reads
    nothing outside the packet, follows no dangling pointer and meets no failing
    assertion; and all of the broker is sound afterwards, with the database, the
    subscriptions, the table of contexts, the index of identifiers and every other
    client's connection. That includes a CONNECT that takes over the session of another
    connection. *)
Theorem packet_never_undefined p w c : sound (Some p) None w → (∃ i, w_contexts w !! i = Some (Some p)) → w_ctxs w !! p = Some c → packet_ready c →
  ∃ rc w', mqtt3_packet_handle p w = Some (rc, w') ∧ sound (Some p) None w'.
Proof.
  intros Hs Hi Hc Hr. pose proof (packet_handle_safe p w c Hs Hi Hc Hr) as Hw. unfold wp in Hw. destruct (mqtt3_packet_handle p w) as [[rc w']|]; [|done]. by exists rc, w'.
Qed.
End dispatch.
