(* ===== verification/PacketRead.v ===== *)
(** * The packet reader

    [_mosquitto_net_read] and [_mosquitto_packet_read] of [lib/net_mosq.c]:
    the state machine kept in [in_packet] that assembles packets from a
    socket or from a websocket buffer and hands them to the handlers. *)

From S2P Require Import Prelude Topic State Packet PacketProofs Writer Database DatabaseProofs StoreProofs Subs SubsProofs SubscribeProofs UnsubscribeProofs SubsClaims PublishProofs Queue Contexts ContextProofs Handlers HandlerProofs Connect.
From stdpp Require Import options.

(** Where the bytes come from: the socket, or [ws_buf] read up to [ws_pos]. *)
Inductive source := from_socket | from_ws (ws_buf : list Z) (ws_pos : Z).

Definition ws_len (buf : list Z) : Z := Z.of_nat (length buf).
(** [ws_buf && (ws_pos < ws_len)]. *)
Definition ws_more (src : source) : bool :=
  match src with from_socket => false | from_ws buf pos => pos <? ws_len buf end.

(** What a read that brought nothing returns; 0 bytes are an end of file while
    the header is read. *)
Definition read_failed (errno : Z) : Z :=
  if errno =? EAGAIN then MOSQ_ERR_SUCCESS
  else if errno =? ECONNRESET then MOSQ_ERR_CONN_LOST else MOSQ_ERR_ERRNO.
Definition header_failed (read_length errno : Z) : Z :=
  if read_length =? 0 then MOSQ_ERR_CONN_LOST else read_failed errno.

Section reader.
Context `{Env}.

(** [_mosquitto_net_read]: the result, [errno] and the bytes. What it logs
    about TLS errors is left out. *)
Definition _mosquitto_net_read (p : ctxid) (count : Z) : ST world (Z * Z * list Z) :=
  c ← ctx_get p;
  if c_ssl c then
    r ← ext (env_ssl_read (c_sock c) count);
    let '(ret, err, bytes) := r in
    if ret <=? 0 then
      match err with
      | ssl_want_read => mret (-1, EAGAIN, [])
      | ssl_want_write => ctx_upd p (λ c, c <| c_want_write := true |>);; mret (-1, EAGAIN, [])
      | ssl_other => mret (ret, EPROTO, [])
      end
    else mret (ret, 0, bytes)
  else ext (env_read (c_sock c) count).

(** Up to [count] bytes from either source. *)
Definition read_some (p : ctxid) (src : source) (count : Z) : ST world (Z * Z * list Z * source) :=
  match src with
  | from_socket => r ← _mosquitto_net_read p count; mret (r, from_socket)
  | from_ws buf pos =>
    if pos <? ws_len buf then
      let n := if u32 (pos + count) <? ws_len buf then count else ws_len buf - pos in
      mret (n, 0, take (Z.to_nat n) (drop (Z.to_nat pos) buf), from_ws buf (pos + n))
    else mret (-1, EAGAIN, [], src)
  end.

(** The command byte; a new client must begin with CONNECT. *)
Definition read_command (p : ctxid) (src : source) : ST world (Z + source) :=
  c ← ctx_get p;
  if negb (p_command (c_in_packet c) =? 0) then mret (inr src)
  else
    r ← read_some p src 1;
    let '(read_length, errno, bytes, src) := r in
    if read_length =? 1 then
      byte ← deref (λ _, head bytes);
      ctx_upd p (λ c, c <| c_in_packet ::= λ k, k <| p_command := byte |> |>);;
      c ← ctx_get p;
      mret (if bool_decide (c_bridge c = None ∧ c_state c = mosq_cs_new) && negb (Z.land byte 0xF0 =? CONNECT)
            then inl MOSQ_ERR_PROTOCOL else inr src)
    else mret (inl (header_failed read_length errno)).

(** The bytes of the remaining length, of which there are at most four. *)
Fixpoint read_remaining (fuel : nat) (p : ctxid) (src : source) : ST world (Z + source) :=
  match fuel with
  | O => ub
  | S fuel' =>
    r ← read_some p src 1;
    let '(read_length, errno, bytes, src) := r in
    if read_length =? 1 then
      byte ← deref (λ _, head bytes);
      c ← ctx_get p;
      let '(f, k) := remaining_step (c_in_packet c) byte in
      ctx_upd p (λ c, c <| c_in_packet := k |>);;
      match f with
      | Return rc => mret (inl rc)
      | Continue => if Z.land byte 128 =? 0 then mret (inr src) else read_remaining fuel' p src
      end
    else mret (inl (header_failed read_length errno))
  end.

(** A packet that is too large, or one too many, disconnects the client; the
    buffer is allocated all the same. *)
Definition start_payload (p : ctxid) : ST world () :=
  c ← ctx_get p;
  let len := p_remaining_length (c_in_packet c) in
  limit ← gets (λ w, cfg_message_size_limit (w_config w));
  (if Z.land (p_command (c_in_packet c)) 0xF0 =? CONNECT then mret tt
   else
     exceeded ← (if negb (limit =? 0) && (u32 limit <? len) then mret true
                 else ext (dxl_update_sent_byte_count c len));
     if (exceeded : bool) then mqtt3_context_disconnect p else mret tt);;
  (if 0 <? len then
     ctx_upd p (λ c, c <| c_in_packet ::= λ k,
       k <| p_payload := Some (replicate (Z.to_nat len) 0) |> <| p_to_process := len |> |>)
   else mret tt);;
  ctx_upd p (λ c, c <| c_in_packet ::= λ k, k <| p_have_remaining := 1 |> |>).

Definition read_header (p : ctxid) (src : source) : ST world (Z + source) :=
  c ← ctx_get p;
  if negb (p_have_remaining (c_in_packet c) =? 0) then mret (inr src)
  else
    src ←? read_remaining 5 p src;
    liftM (start_payload p) ;?
    mret (inr src).

(** The payload, in as many reads as it takes. *)
Fixpoint read_payload (fuel : nat) (p : ctxid) (src : source) : ST world (Z + source) :=
  c ← ctx_get p;
  let to_process := p_to_process (c_in_packet c) in
  if 0 <? to_process then
    match fuel with
    | O => ub
    | S fuel' =>
      r ← read_some p src to_process;
      let '(read_length, errno, bytes, src) := r in
      if 0 <? read_length then
        in_packet p (pos ← gets p_pos;
                     write_at pos (take (Z.to_nat read_length) bytes);;
                     modify (λ k, k <| p_to_process ::= λ n, u32 (n - read_length) |>
                                    <| p_pos ::= λ n, u32 (n + read_length) |>));;
        read_payload fuel' p src
      else
        (if (errno =? EAGAIN) && (1000 <? to_process) then
           t ← mosquitto_time; ctx_upd p (λ c, c <| c_last_msg_in := t |>)
         else mret tt);;
        mret (inl (read_failed errno))
    end
  else mret (inr src).

(** A packet is assembled as far as the bytes go: [inl rc] when they do not
    reach, or are refused. *)
Definition read_packet (p : ctxid) (src : source) : ST world (Z + source) :=
  src ←? read_command p src;
  src ←? read_header p src;
  c ←? liftM (ctx_get p);
  src ←? read_payload (Z.to_nat (p_to_process (c_in_packet c))) p src;
  liftM (ctx_upd p (λ c, c <| c_in_packet ::= λ k, k <| p_pos := 0 |> |>)) ;?
  mret (inr src).

(** One turn of the [do .. while]: [inl rc] when it returns, else the result of
    the handler. *)
Definition read_one (p : ctxid) (src : source) : ST world (Z + (Z * source)) :=
  src ←? read_packet p src;
  rc ←? liftM (mqtt3_packet_handle p);
  liftM (ctx_upd p (λ c, c <| c_in_packet ::= _mosquitto_packet_cleanup |>)) ;?
  t ←? liftM mosquitto_time;
  liftM (ctx_upd p (λ c, c <| c_last_msg_in := t |>)) ;?
  mret (inr (rc, src)).

Fixpoint read_packets (fuel : nat) (p : ctxid) (src : source) : ST world (Z + Z) :=
  match fuel with
  | O => ub
  | S fuel' =>
    r ←? read_one p src;
    if ws_more r.2 then read_packets fuel' p r.2 else mret (inr r.1)
  end.

(** [_mosquitto_packet_read]; every turn takes at least one byte of a websocket
    buffer. *)
Definition _mosquitto_packet_read (p : ctxid) (ws_buf : option (list Z)) : ST world Z :=
  returned (
    c ←? liftM (ctx_get p);
    return_if (is_context_invalid c) MOSQ_ERR_NO_CONN ;?
    rc ←? (match ws_buf with
           | None => read_packets 1 p from_socket
           | Some buf => read_packets (S (length buf)) p (from_ws buf 0)
           end);
    c ←? liftM (ctx_get p);
    liftM (if c_ssl c then
             pending ← gets (λ w, env_ssl_pending (c_sock c) (w_env w));
             if 0 <? pending then mosquitto_add_pending_bytes_set p else mosquitto_remove_pending_bytes_set p
           else mret tt) ;?
    mret (inr rc)).
End reader.

(** * Reading packets

    The reader assembles from a websocket buffer exactly the packets a sender
    framed, byte for byte, and stops behind them; a new client that does not
    begin with CONNECT is cut off at the first byte. *)

(** [l] is what is left of the buffer. *)
Definition at_ws (buf : list Z) (pos : Z) (l : list Z) : Prop :=
  0 <= pos <= ws_len buf ∧ drop (Z.to_nat pos) buf = l ∧ ws_len buf < 2 ^ 32 - 2 ^ 28.

Lemma at_ws_length buf pos l : at_ws buf pos l → Z.of_nat (length l) = ws_len buf - pos.
Proof. intros (Hp & <- & _). unfold ws_len in *. rewrite length_drop. lia. Qed.
Lemma at_ws_advance buf pos l n : at_ws buf pos l → 0 <= n <= Z.of_nat (length l) →
  at_ws buf (pos + n) (drop (Z.to_nat n) l).
Proof.
  intros Hl Hn. pose proof (at_ws_length _ _ _ Hl). destruct Hl as (Hp & <- & Hb). split_and!; [lia|lia| |done].
  rewrite drop_drop. f_equal. lia.
Qed.

Section reader_proofs.
Context `{Env}.

Lemma read_some_ws p buf pos l n w : at_ws buf pos l → 0 < n <= Z.of_nat (length l) → n < 2 ^ 28 →
  read_some p (from_ws buf pos) n w = Some (n, 0, take (Z.to_nat n) l, from_ws buf (pos + n), w).
Proof.
  intros Hl Hn Hlt. pose proof (at_ws_length _ _ _ Hl). destruct Hl as (Hp & <- & Hb). unfold read_some.
  destruct (Z.ltb_spec pos (ws_len buf)); [|lia]. rewrite u32_id by lia.
  destruct (Z.ltb_spec (pos + n) (ws_len buf)); [done|]. by replace (ws_len buf - pos) with n by lia.
Qed.

Lemma read_remaining_ws fuel p buf pos l rest k k' c w0 w : at_ws buf pos l →
  reached p (c <| c_in_packet := k |>) w0 w → RemainingLength.decode l k = Some (inr k', rest) →
  (length l <= fuel + length rest)%nat →
  wp (read_remaining fuel p (from_ws buf pos)) (λ r w', ∃ pos', r = inr (from_ws buf pos') ∧ at_ws buf pos' rest ∧
    reached p (c <| c_in_packet := k' |>) w0 w') w.
Proof.
  revert fuel pos k w. induction l as [|b l IH]; intros fuel pos k w Hl Hr Hd Hf; [done|]. cbn [RemainingLength.decode] in Hd.
  assert (∀ r k2 rest2, RemainingLength.decode l k2 = Some (r, rest2) → (length rest2 <= length l)%nat) as Hshort.
  { clear. induction l as [|b l IH]; intros r k2 rest2; [done|]. cbn. destruct (remaining_step k2 b) as [[|rc] k3].
    - destruct (_ =? 0); [intros [= _ <-]; lia|]. intros Hd%IH. lia.
    - intros [= _ <-]. lia. }
  destruct fuel as [|fuel].
  { exfalso. destruct (remaining_step k b) as [[|rc] k2]; [|done]. destruct (_ =? 0); [simplify_eq; cbn in Hf; lia|].
    apply Hshort in Hd. cbn in Hf. lia. }
  cbn [read_remaining]. wp_step. eapply wp_run; [apply (read_some_ws p buf pos (b :: l) 1); [done|cbn; lia|lia]|].
  cbv beta iota. cbn [Z.eqb Pos.eqb]. wp_step. eapply wp_deref; [done|]. wp_step. eapply wp_reached_get; [done|].
  cbn [c_in_packet upd]. destruct (remaining_step k b) as [f k2]. wp_step.
  eapply wp_reached_upd; [done|done|]. intros w1 Hr1.
  assert (reached p (c <| c_in_packet := k2 |>) w0 w1) as Hr2 by exact Hr1.
  pose proof (at_ws_advance _ _ _ 1 Hl ltac:(cbn; lia)) as Hl1. cbn [drop Z.to_nat Pos.to_nat Pos.iter_op] in Hl1.
  destruct f as [|rc]; [|done]. destruct (Z.land b 128 =? 0).
  - simplify_eq. wp_step. by exists (pos + 1).
  - eapply wp_mono; [eapply (IH fuel (pos + 1) k2 w1); [done|done|done|cbn in Hf; lia]|]. done.
Qed.

(** The packet of a frame, header read, [body] still to come. *)
Definition header_read (command : Z) (body : list Z) (k : packet) : Prop :=
  p_command k = command ∧ p_pos k = 0 ∧ p_remaining_length k = Z.of_nat (length body) ∧
  p_to_process k = Z.of_nat (length body) ∧
  (p_payload k = Some (replicate (length body) 0) ∨ body = [] ∧ p_payload k = None).

(** The packet is within the limits and will not get its sender disconnected. *)
Definition within_limits (w : world) (command len : Z) : Prop :=
  Z.land command 0xF0 = CONNECT ∨
  (cfg_message_size_limit (w_config w) = 0 ∨ len <= u32 (cfg_message_size_limit (w_config w))) ∧
  ∀ c e, (dxl_update_sent_byte_count c len e).1 = false.

Lemma start_payload_spec p c w0 w command body : reached p c w0 w → Z.of_nat (length body) < 2 ^ 28 →
  p_command (c_in_packet c) = command → p_pos (c_in_packet c) = 0 → p_to_process (c_in_packet c) = 0 →
  p_payload (c_in_packet c) = None → p_remaining_length (c_in_packet c) = Z.of_nat (length body) →
  within_limits w0 command (Z.of_nat (length body)) →
  wp (start_payload p) (λ _ w', ∃ k, reached p (c <| c_in_packet := k |>) w0 w' ∧ header_read command body k) w.
Proof.
  intros Hr Hlen Hcmd Hpos Htp Hpl Hrl Hlim. unfold within_limits in Hlim. unfold start_payload. wp_step. eapply wp_reached_get; [done|]. cbv zeta.
  rewrite Hcmd, Hrl. do 2 wp_step.
  assert (w_config w = w_config w0) as -> by (destruct Hr as (_ & Hreg & _); unfold registry in Hreg; congruence).
  set (limit := cfg_message_size_limit (w_config w0)) in *. wp_step.
  eapply (wp_mono _ (λ _ w1, reached p c w0 w1)).
  { destruct (Z.eqb_spec (Z.land command 240) CONNECT) as [E|E]; [by wp_step|]. destruct Hlim as [?|[Hl Hupd]]; [done|]. wp_step.
    destruct (_ && _) eqn:Hb.
    - exfalso. destruct (Z.eqb_spec limit 0); [done|]. destruct (Z.ltb_spec (u32 limit) (Z.of_nat (length body))); [|done].
      destruct Hl as [?|Hl]; [done|lia].
    - eapply wp_reached_ext_eq; [done|]. intros b w1 Hr1 Hbv. rewrite Hupd in Hbv. subst b. by wp_step. }
  intros _ w1 Hr1. wp_step. eapply (wp_mono _ (λ _ w2, ∃ k, reached p (c <| c_in_packet := k |>) w0 w2 ∧ header_read command body k)).
  { destruct (Z.ltb_spec 0 (Z.of_nat (length body))).
    - eapply wp_reached_upd; [done..|]. intros w2 Hr2. eexists. split; [exact Hr2|]. split_and!; try done. left. cbn. by rewrite Nat2Z.id.
    - wp_step. exists (c_in_packet c). destruct body; [|cbn in *; lia]. split; [by destruct c|].
      split_and!; try done. by right. }
  intros _ w2 (k & Hr2 & Hk). eapply wp_reached_upd; [done..|]. intros w3 Hr3.
  exists (k <| p_have_remaining := 1 |>). split; [exact Hr3|]. exact Hk.
Qed.

Lemma read_payload_ws p buf pos body rest c w0 w command : at_ws buf pos (body ++ rest) → Z.of_nat (length body) < 2 ^ 28 →
  reached p c w0 w → header_read command body (c_in_packet c) →
  wp (read_payload (Z.to_nat (p_to_process (c_in_packet c))) p (from_ws buf pos)) (λ r w', 
    r = inr (from_ws buf (pos + Z.of_nat (length body))) ∧ ∃ k, reached p (c <| c_in_packet := k |>) w0 w' ∧
    p_command k = command ∧ p_remaining_length k = Z.of_nat (length body) ∧
    (p_payload k = Some body ∨ body = [] ∧ p_payload k = None)) w.
Proof.
  intros Hl Hlen Hr (Hcmd & Hpos & Hrl & Htp & Hpl). destruct body as [|b body].
  { rewrite Htp. change (Z.to_nat (Z.of_nat (length []))) with 0%nat. cbn [read_payload]. wp_step. eapply wp_reached_get; [done|]. cbv zeta. rewrite Htp.
    change (0 <? Z.of_nat (@length Z [])) with false. cbv iota. wp_step. split; [by rewrite Z.add_0_r|]. exists (c_in_packet c). split; [by destruct c|]. by split_and!. }
  set (n := Z.of_nat (length (b :: body))) in *. assert (0 < n) as Hn0 by (subst n; cbn; lia).
  rewrite Htp. destruct (Z.to_nat n) as [|fuel] eqn:Hfuel; [lia|]. cbn [read_payload]. wp_step.
  eapply wp_reached_get; [done|]. cbv zeta. rewrite Htp. destruct (Z.ltb_spec 0 n); [|lia]. wp_step.
  eapply wp_run; [apply (read_some_ws p buf pos ((b :: body) ++ rest) n); [done|rewrite length_app; lia|done]|].
  cbv beta iota. destruct (Z.ltb_spec 0 n); [|lia]. wp_step. destruct Hpl as [Hpl|[? _]]; [|done].
  assert (take (Z.to_nat n) (take (Z.to_nat n) ((b :: body) ++ rest)) = b :: body) as Htake.
  { rewrite take_take, Nat.min_id. subst n. by rewrite Nat2Z.id, take_app_length. }
  eapply wp_in_packet; [done|]. do 3 wp_step. eapply (wp_run _ _ _ tt (c_in_packet c <| p_payload := Some (b :: body) |>)).
  { unfold write_at, blit. rewrite Hpl, Hpos, Htake, length_replicate, Z.add_0_l. fold n. rewrite Z.leb_refl. cbn [Z.leb Z.compare andb].
    rewrite drop_ge, app_nil_r by (rewrite length_replicate; subst n; cbn; lia). by rewrite Z.leb_refl. }
  wp_step. intros w1 Hr1. assert (∃ k1, reached p (c <| c_in_packet := k1 |>) w0 w1 ∧ p_to_process k1 = 0 ∧ p_command k1 = command ∧
    p_remaining_length k1 = n ∧ p_payload k1 = Some (b :: body)) as (k1 & Hr2 & Htp1 & Hcmd1 & Hrl1 & Hp1).
  { eexists. split; [exact Hr1|]. cbn. rewrite Htp, Z.sub_diag. by split_and!. }
  assert (∀ f, wp (read_payload f p (from_ws buf (pos + n))) (λ r w', r = inr (from_ws buf (pos + n)) ∧ w' = w1) w1) as Hdone.
  { intros f. destruct f; cbn [read_payload]; wp_step; (eapply wp_reached_get; [done|]); cbn [c_in_packet upd]; rewrite Htp1; cbn [Z.ltb Z.compare]; by wp_step. }
  eapply wp_mono; [apply Hdone|]. intros r w2 [-> ->]. split; [done|]. exists k1. split_and!; try done. by left.
Qed.

(** The reader inverts the framing. A websocket buffer that holds, at the
    current position, a packet as the senders frame it (for any command and
    any body below 2^28 bytes, within the limits in force), is read by
    [_mosquitto_packet_read] into exactly that command and body, ready for the
    handlers, and the position moves exactly behind the packet. *)
Theorem framed_packet_read_back p w c k0 command body rest buf pos :
  w_ctxs w !! p = Some c → c_in_packet c = _mosquitto_packet_cleanup k0 →
  at_ws buf pos (frame command body ++ rest) → 0 < command < 256 → Z.of_nat (length body) < 2 ^ 28 →
  (is_Some (c_bridge c) ∨ c_state c ≠ mosq_cs_new ∨ Z.land command 0xF0 = CONNECT) →
  within_limits w command (Z.of_nat (length body)) →
  wp (read_packet p (from_ws buf pos)) (λ r w',
    r = inr (from_ws buf (pos + Z.of_nat (length (frame command body)))) ∧ ∃ c', reached p c' w w' ∧
    p_command (c_in_packet c') = command ∧ unread (c_in_packet c') body) w.
Proof.
  intros Hc Hk Hl Hcmd Hlen Hfirst Hlim. unfold frame in *. rewrite u8_id in * by lia. cbn [app] in Hl. rewrite <-app_assoc in Hl.
  set (rl := remaining_bytes_loop 5 (Z.of_nat (length body))) in *. unfold read_packet. apply wp_and_then. unfold read_command.
  wp_step. eapply wp_ctx_get; [done|]. cbv beta. rewrite Hk. cbn [p_command _mosquitto_packet_cleanup upd Z.eqb negb]. wp_step.
  eapply wp_run; [apply (read_some_ws p buf pos (command :: rl ++ body ++ rest) 1); [done|cbn; lia|lia]|].
  cbv beta iota. cbn [Z.eqb Pos.eqb]. wp_step. eapply wp_deref; [done|]. wp_step.
  eapply wp_reached_upd; [by apply reached_refl|done|]. intros w1 Hr1. wp_step. eapply wp_reached_get; [done|]. wp_step.
  cbn [c_bridge c_state upd]. assert (bool_decide (c_bridge c = None ∧ c_state c = mosq_cs_new) && negb (Z.land command 240 =? CONNECT) = false) as ->.
  { case_bool_decide as Hb; [|done]. destruct Hb as [Hb1 Hb2]. destruct Hfirst as [[? Hf]|[Hf|Hf]]; [congruence|done|]. by rewrite Hf, Z.eqb_refl. }
  pose proof (at_ws_advance _ _ _ 1 Hl ltac:(cbn; lia)) as Hl1. change (at_ws buf (pos + 1) (rl ++ body ++ rest)) in Hl1.
  set (k1 := _mosquitto_packet_cleanup k0 <| p_command := command |>).
  assert (reached p (c <| c_in_packet := k1 |>) w w1) as Hr2 by (subst k1; rewrite <-Hk; exact Hr1). clear Hr1.
  apply wp_and_then. unfold read_header. wp_step. eapply wp_reached_get; [done|].
  cbn [c_in_packet upd k1 p_have_remaining _mosquitto_packet_cleanup Z.eqb negb]. apply wp_and_then.
  assert (∃ k2, RemainingLength.decode (rl ++ body ++ rest) k1 = Some (inr k2, body ++ rest) ∧
    p_remaining_length k2 = Z.of_nat (length body) ∧ p_command k2 = command ∧ p_pos k2 = 0 ∧ p_to_process k2 = 0 ∧ p_payload k2 = None)
    as (k2 & Hdec & Hk2).
  { pose proof (RemainingLength.decode_loop 5 k1 0 (Z.of_nat (length body)) (body ++ rest)) as Hd.
    cbn -[RemainingLength.decode remaining_bytes_loop Z.pow k1] in Hd. change (128 ^ (4 - (5 - Z.of_nat 5))) with (2 ^ 28) in Hd.
    eexists. split; [apply Hd; lia|]. cbn. split_and!; (done || lia). }
  eapply wp_mono; [eapply (read_remaining_ws 5 p buf (pos + 1) _ _ k1 k2 c w w1 Hl1 Hr2 Hdec)|].
  { assert (length rl <= 4)%nat by (apply RemainingLength.remaining_bytes_short; lia). rewrite !length_app. lia. }
  intros r w2 (pos2 & -> & Hl2 & Hr3). apply wp_and_then, wp_liftM.
  eapply wp_mono; [eapply (start_payload_spec p (c <| c_in_packet := k2 |>) w w2 command body); try done; cbn; by destruct Hk2 as (?&?&?&?&?)|].
  intros _ w3 (k3 & Hr4 & Hk3). wp_step. apply wp_and_then, wp_liftM. eapply wp_reached_get; [exact Hr4|]. apply wp_and_then.
  eapply wp_mono; [eapply (read_payload_ws p buf pos2 body rest _ w w3 command Hl2 Hlen Hr4 Hk3)|].
  intros r w4 (-> & k4 & Hr5 & Hcmd4 & Hrl4 & Hpl4). apply wp_and_then, wp_liftM. eapply wp_reached_upd; [done..|]. intros w5 Hr6.
  wp_step. split.
  - do 2 f_equal. pose proof (at_ws_length _ _ _ Hl2) as E2. pose proof (at_ws_length _ _ _ Hl1) as E1.
    rewrite !length_app in E1. rewrite !length_app in E2. cbn [length]. rewrite length_app. lia.
  - eexists. split; [exact Hr6|]. cbn. split; [done|]. exists []. cbn. split_and!; try done; [|lia].
    destruct Hpl4 as [->|[-> ->]]; [by left|by right].
Qed.

(** A new client must begin with CONNECT. If the first byte a websocket
    client sends is of any other packet type, the reader returns a protocol
    error, upon which the connection is closed, without reading further. *)
Theorem first_packet_must_be_connect p w c k0 byte rest buf pos :
  w_ctxs w !! p = Some c → c_in_packet c = _mosquitto_packet_cleanup k0 →
  c_bridge c = None → c_state c = mosq_cs_new →
  at_ws buf pos (byte :: rest) → Z.land byte 0xF0 ≠ CONNECT →
  wp (read_packet p (from_ws buf pos)) (λ r w', r = inl MOSQ_ERR_PROTOCOL ∧ benign w w') w.
Proof.
  intros Hc Hk Hb Hst Hl Hne. unfold read_packet. apply wp_and_then. unfold read_command.
  wp_step. eapply wp_ctx_get; [done|]. cbv beta. rewrite Hk. cbn [p_command _mosquitto_packet_cleanup upd Z.eqb negb]. wp_step.
  eapply wp_run; [apply (read_some_ws p buf pos (byte :: rest) 1); [done|cbn; lia|lia]|].
  cbv beta iota. cbn [Z.eqb Pos.eqb]. wp_step. eapply wp_deref; [done|]. wp_step.
  eapply wp_reached_upd; [by apply reached_refl|done|]. intros w1 Hr1. wp_step. eapply wp_reached_get; [done|]. wp_step.
  cbn [c_bridge c_state upd]. rewrite bool_decide_eq_true_2 by done. apply Z.eqb_neq in Hne. rewrite Hne. cbn. split; [done|apply Hr1].
Qed.
End reader_proofs.
