(* ===== verification/ReadSafe.v ===== *)
(** * Whatever comes in from a socket

    [_mosquitto_packet_read] on a socket that delivers any bytes at any pace, or none, or
    an error: the broker stays sound, and a client whose input is not a packet is cut off. *)

From S2P Require Import Prelude Topic State Packet PacketProofs Writer Database DatabaseProofs StoreProofs Subs SubsProofs SubscribeProofs SubsClaims PublishProofs Queue Contexts ContextProofs.
From S2P Require Import UnsubscribeProofs Handlers HandlerProofs SubscribeHandlerProofs Frames HandleSafety Soundness Connect ConnectSafe PacketSafe PacketRead.
From stdpp Require Import options.

(** What [read] and [SSL_read] promise: no more than was asked for, and all of it bytes. *)
Definition read_promise (n : Z) (r : Z) (bs : list Z) : Prop :=
  0 < r → r <= n ∧ Z.of_nat (length bs) = r ∧ Forall (λ b, 0 <= b < 256) bs.
Class ReadLaws `{Env} := {
  env_read_law s n e : read_promise n (env_read s n e).1.1.1 (env_read s n e).1.2;
  env_ssl_read_law s n e : read_promise n (env_ssl_read s n e).1.1.1 (env_ssl_read s n e).1.2 }.

Section reading.
Context `{Env} `{!EnvLaws} `{!ReadLaws}.
#[local] Set Default Proof Using "Type*".
Implicit Types p : ctxid.

(** ** In the middle of a packet *)

(** A client of the table; [Φ] tells what has been read so far. *)
Definition reading (p : ctxid) (Φ : packet → client_state → Prop) (w : world) : Prop :=
  sound (Some p) None w ∧ (∃ i, w_contexts w !! i = Some (Some p)) ∧
  ∃ c, w_ctxs w !! p = Some c ∧ c_bridge c = None ∧ client_ok c ∧ c_packet_count c + 1 < 2 ^ 64 ∧ Φ (c_in_packet c) (c_state c).

Lemma reading_reached p Φ Ψ c c' w w' : reading p Φ w → w_ctxs w !! p = Some c → reached p c' w w' →
  place c' = place c → output c' = output c → c_bridge c' = c_bridge c → c_msgs c' = c_msgs c → Ψ (c_in_packet c') (c_state c') → reading p Ψ w'.
Proof.
  intros (Hs & Hi & d & Hd & Hb & Hcl & Hroom & _) Hc Hr Hpl Hout Hbr Hm HΨ. assert (d = c) as -> by congruence. split_and!.
  - eapply (sound_reached _ _ _ _ p c); [done|done|exact Hr|unfold place in Hpl; unfold slot; congruence| |done].
    apply (place_sound _ _ _ c); [done|done|eapply output_wf, so_context; done|unfold outwards; by rewrite Hm|by eapply sound_context].
  - destruct Hr as (_ & Hreg & _). unfold registry in Hreg. by replace (w_contexts w') with (w_contexts w) by congruence.
  - exists c'. unfold place in Hpl. unfold output in Hout. split_and!; [by eapply reached_lookup|congruence| |congruence|done].
    intros Hb'. replace (c_state c') with (c_state c) by congruence. replace (c_id c') with (c_id c) by congruence. replace (c_address c') with (c_address c) by congruence. by apply Hcl.
Qed.
Lemma reading_weaken p (Φ Ψ : packet → client_state → Prop) w : (∀ k s, Φ k s → Ψ k s) → reading p Φ w → reading p Ψ w.
Proof. intros HΦ (Hs & Hi & c & Hc & Hb & Hcl & Hroom & Hk). split_and!; [done|done|]. exists c. split_and!; auto. Qed.
Lemma reading_get p Φ w (Q : mosquitto → world → Prop) : reading p Φ w →
  (∀ c, w_ctxs w !! p = Some c → Φ (c_in_packet c) (c_state c) → c_bridge c = None → Q c w) → wp (ctx_get p) Q w.
Proof. intros (_ & _ & c & Hc & Hb & _ & _ & Hk) HQ. eapply wp_ctx_get; [done|]. by apply HQ. Qed.
(** What has been read changes. *)
Lemma reading_upd p Φ Ψ g w (Q : () → world → Prop) : reading p Φ w → (∀ k s, Φ k s → Ψ (g k) s) → (∀ w', reading p Ψ w' → Q tt w') →
  wp (ctx_upd p (λ c, c <| c_in_packet ::= g |>)) Q w.
Proof.
  intros Hr Hg HQ. pose proof Hr as (_ & _ & c & Hc & _ & _ & _ & Hk). eapply wp_reached_upd; [by apply reached_refl|done|]. intros w' Hr'. apply HQ.
  eapply (reading_reached p Φ Ψ c); [done|done|exact Hr'|done..|]. by apply Hg.
Qed.
Lemma reading_ext {A} p Φ (f : env → A * env) w (Q : A → world → Prop) : reading p Φ w → (∀ a w', reading p Φ w' → a = (f (w_env w)).1 → Q a w') → wp (ext f) Q w.
Proof.
  intros Hr HQ. pose proof Hr as (_ & _ & c & Hc & _ & _ & _ & Hk). eapply wp_reached_ext_eq; [by apply reached_refl|]. intros a w' Hr' Ha. apply HQ; [|done].
  by eapply (reading_reached p Φ Φ c).
Qed.

(** Some bytes, or a reason why not. *)
Lemma read_some_safe p Φ n w : reading p Φ w →
  wp (read_some p from_socket n) (λ r w', r.2 = from_socket ∧ reading p Φ w' ∧ read_promise n r.1.1.1 r.1.2) w.
Proof.
  intros Hr. unfold read_some. wp_step. unfold _mosquitto_net_read. wp_step. eapply reading_get; [done|]. intros c Hc Hk _. cbv beta. destruct (c_ssl c).
  - wp_step. eapply reading_ext; [done|]. intros r w1 Hr1 ->. pose proof (env_ssl_read_law (c_sock c) n (w_env w)) as Hlaw. destruct (env_ssl_read _ _ _) as [[[ret err] bs] e]. cbn in Hlaw |- *.
    destruct (Z.leb_spec ret 0); [|by wp_steps]. destruct err; wp_steps; try (split_and!; [done|done|unfold read_promise; cbn; lia]).
    pose proof Hr1 as (_ & _ & c1 & Hc1 & _ & _ & _ & Hk1). eapply wp_reached_upd; [by apply reached_refl|done|]. intros w2 Hr2. wp_steps. split_and!; [done| |unfold read_promise; cbn; lia].
    by eapply (reading_reached p Φ Φ c1).
  - eapply reading_ext; [done|]. intros r w1 Hr1 ->. pose proof (env_read_law (c_sock c) n (w_env w)) as Hlaw. destruct (env_read _ _ _) as [[[ret err] bs] e]. wp_step. by split_and!.
Qed.

(** A step that does not touch what has been read. *)
Lemma reading_touch p Φ f w (Q : () → world → Prop) : reading p Φ w →
  (∀ c, place (f c) = place c ∧ output (f c) = output c ∧ c_in_packet (f c) = c_in_packet c ∧ ctx_core (f c) = ctx_core c ∧ c_bridge (f c) = c_bridge c) →
  (∀ w', reading p Φ w' → Q tt w') → wp (ctx_upd p f) Q w.
Proof.
  intros Hr Hf HQ. pose proof Hr as (_ & _ & c & Hc & _ & _ & _ & Hk). destruct (Hf c) as (Hpl & Ho & Hi & Hcore & Hb).
  eapply wp_reached_upd; [by apply reached_refl|done|]. intros w' Hr'. apply HQ. eapply (reading_reached p Φ Φ c); [done|done|exact Hr'|done|done|done| |].
  - unfold ctx_core in Hcore. congruence.
  - unfold place in Hpl. rewrite Hi. by replace (c_state (f c)) with (c_state c) by congruence.
Qed.
Lemma reading_disconnect p Φ w : reading p Φ w → wp (mqtt3_context_disconnect p) (λ _ w', reading p Φ w') w.
Proof.
  intros (Hs & Hi & c & Hc & Hb & Hcl & Hroom & Hk). eapply wp_mono.
  { apply wp_and; [by eapply disconnect_sound|]. eapply (context_disconnect_spec p w c); [apply Hs|done|]. by eapply co_will, so_context. }
  intros _ w' [(Hs' & c' & Hc' & (_ & Hsl & Hst & Hin & Hout & Ha & Hbr)) (_ & Hreg & _)]. unfold registry in Hreg. unfold slot in Hsl. unfold output in Hout.
  assert (c_bridge c' = None) as Hb' by (rewrite Hb in Hbr; by destruct (c_bridge c')). split_and!; [done|by replace (w_contexts w') with (w_contexts w) by congruence|].
  exists c'. split_and!; [done|done| |congruence|by rewrite Hin, Hst]. intros _. rewrite Hst, Ha. replace (c_id c') with (c_id c) by congruence. by apply Hcl.
Qed.

(** ** The stages of a packet *)

Definition first (k : packet) (s : client_state) : Prop := s = mosq_cs_new → Z.land (p_command k) 0xF0 = CONNECT.
Definition started (k : packet) (s : client_state) : Prop :=
  (in_header k ∨ in_body k) ∧ (s = mosq_cs_new → p_command k = 0 ∧ p_have_remaining k = 0 ∨ Z.land (p_command k) 0xF0 = CONNECT).
Definition named (k : packet) (s : client_state) : Prop := (in_header k ∨ in_body k) ∧ first k s.
Definition loaded (k : packet) (s : client_state) : Prop := in_body k ∧ first k s.

(** The reader gives up, for now or for good. *)
Definition stopped (p : ctxid) (rc : Z) (w : world) : Prop :=
  sound (Some p) None w ∧ ∃ c, w_ctxs w !! p = Some c ∧ (rc = MOSQ_ERR_SUCCESS → input_ok c).
Lemma reading_stopped p rc w : reading p started w → stopped p rc w.
Proof. intros (Hs & _ & c & Hc & _ & _ & _ & Hk & Hf). split; [done|]. exists c. split; [done|]. by intros _ _. Qed.
Lemma reading_refused p Φ rc w : reading p Φ w → rc ≠ MOSQ_ERR_SUCCESS → stopped p rc w.
Proof. intros (Hs & _ & c & Hc & _) Hrc. split; [done|]. by exists c. Qed.
Lemma named_started k s : named k s → started k s.
Proof. intros [Hk Hf]. split; [done|]. intros Hn. right. by apply Hf. Qed.

Lemma read_command_safe p w : reading p started w →
  wp (read_command p from_socket) (λ r w', match r with inl rc => stopped p rc w' | inr src => src = from_socket ∧ reading p named w' end) w.
Proof.
  intros Hr. unfold read_command. wp_step. pose proof Hr as (Hs & Hi & c & Hc & Hb & Hcl & Hroom & Hk). eapply wp_ctx_get; [done|]. cbv beta.
  destruct (Z.eqb_spec (p_command (c_in_packet c)) 0) as [Hcmd|Hcmd]; cbn [negb].
  2: { wp_step. split; [done|]. split_and!; [done|done|]. exists c. split_and!; try done. destruct Hk as [Hk Hf]. split; [done|]. intros Hn. destruct (Hf Hn) as [[? _]|?]; done. }
  clear c Hc Hb Hcl Hroom Hk Hcmd Hs Hi. wp_step. eapply wp_mono; [by apply read_some_safe|]. intros [[[len err] bs] src] w1 (Hsrc & Hr1 & Hp). cbn in Hsrc, Hp. subst src. cbv beta iota zeta.
  destruct (Z.eqb_spec len 1) as [->|Hne]; [|wp_step; by apply reading_stopped].
  destruct (Hp eq_refl) as (_ & Hlen & _). destruct bs as [|b [|? ?]]; [done| |cbn in Hlen; lia]. wp_step. eapply wp_deref; [done|]. cbv beta. wp_step.
  eapply (reading_upd p started (λ k s, (in_header k ∨ in_body k) ∧ p_command k = b)); [done|by intros k s [Hk _]|]. intros w2 Hr2. wp_step.
  eapply reading_get; [done|]. intros c Hc [Hk Hcmd] Hb. cbv beta. wp_step. destruct (bool_decide _ && negb _) eqn:Hrej.
  - by eapply reading_refused.
  - split; [done|]. destruct Hr2 as (Hs2 & Hi2 & d & Hd & Hb2 & Hcl2 & Hroom2 & _). assert (d = c) as -> by congruence. split_and!; [done|done|]. exists c. split_and!; try done.
    split; [done|]. intros Hn. rewrite bool_decide_eq_true_2 in Hrej by done. rewrite Hcmd. apply Z.eqb_eq. by destruct (_ =? _).
Qed.

(** One more byte of the remaining length keeps its bounds. *)
Lemma remaining_step_header k byte : in_header k → 0 <= byte < 256 → match remaining_step k byte with
  | (Continue, k') => in_header k' ∧ p_remaining_count k' = p_remaining_count k + 1 ∧ p_command k' = p_command k
  | (Return rc, k') => rc = MOSQ_ERR_PROTOCOL
  end.
Proof.
  intros (Hhr & Hpos & Hpl & Htp & Hcnt & Hmult & Hlen) Hb. unfold remaining_step. cbn [p_remaining_count upd].
  change (p_remaining_count (k <| p_remaining_count ::= λ n, u8 (n + 1) |>)) with (u8 (p_remaining_count k + 1)). rewrite u8_id by lia.
  destruct (Z.ltb_spec 4 (p_remaining_count k + 1)); [done|]. set (n := p_remaining_count k) in *.
  assert (0 <= Z.land byte 127 < 128) as Hd by (change 127 with (Z.ones 7); rewrite Z.land_ones by lia; apply Z.mod_pos_bound; lia).
  assert (128 ^ (n + 1) = 128 * 128 ^ n) as Hpow by (rewrite Z.pow_add_r by lia; lia). assert (0 < 128 ^ n) by (apply Z.pow_pos_nonneg; lia).
  assert (128 ^ (n + 1) <= 128 ^ 4) by (apply Z.pow_le_mono_r; lia). change (128 ^ 4) with 268435456 in *.
  unfold in_header. cbn. change (p_remaining_count k) with n. rewrite Hmult. rewrite !u32_id by nia. rewrite ?u8_id by lia. split_and!; try done; try lia; nia.
Qed.

Definition counted (n : nat) (k : packet) (s : client_state) : Prop := in_header k ∧ first k s ∧ 5 <= Z.of_nat n + p_remaining_count k.
Lemma counted_started n k s : counted n k s → started k s.
Proof. intros (Hk & Hf & _). apply named_started. split; [by left|done]. Qed.
Lemma read_remaining_safe fuel p w : reading p (counted fuel) w →
  wp (read_remaining fuel p from_socket) (λ r w', match r with inl rc => stopped p rc w' | inr src => src = from_socket ∧ reading p (λ k s, in_header k ∧ first k s) w' end) w.
Proof.
  revert w. induction fuel as [|fuel IH]; intros w Hr; cbn [read_remaining].
  { destruct Hr as (_ & _ & c & _ & _ & _ & _ & (_ & _ & _ & _ & Hcnt & _) & _ & Hn). lia. }
  wp_step. eapply wp_mono; [by apply read_some_safe|]. intros [[[len err] bs] src] w1 (Hsrc & Hr1 & Hp). cbn in Hsrc, Hp. subst src. cbv beta iota zeta.
  destruct (Z.eqb_spec len 1) as [->|Hne].
  2: { wp_step. apply reading_stopped. eapply reading_weaken; [apply counted_started|done]. }
  destruct (Hp eq_refl) as (_ & Hlen & Hoct). destruct bs as [|b [|? ?]]; [done| |cbn in Hlen; lia]. apply Forall_cons in Hoct as [Hb _].
  wp_step. eapply wp_deref; [done|]. cbv beta. wp_step. eapply reading_get; [done|]. intros c Hc (Hk & Hf & Hn) _. cbv beta.
  pose proof (remaining_step_header _ b Hk Hb) as Hstep. destruct (remaining_step (c_in_packet c) b) as [f k]. wp_step.
  eapply wp_reached_upd; [by apply reached_refl|done|]. intros w2 Hr2.
  assert (∀ Ψ : packet → client_state → Prop, Ψ k (c_state c) → reading p Ψ w2) as Hset.
  { intros Ψ HΨ. by eapply (reading_reached p (counted (S fuel)) Ψ c). }
  destruct f as [|rc].
  - destruct Hstep as (Hk' & Hcnt & Hcmd). assert (first k (c_state c)) as Hf' by (intros Hs; rewrite Hcmd; by apply Hf).
    destruct (Z.land b 128 =? 0); [wp_step; split; [done|by apply Hset]|]. apply IH, Hset. split_and!; [done|done|lia].
  - wp_step. subst rc. eapply (reading_refused p (λ _ _, True)); [by apply Hset|done].
Qed.

Lemma start_payload_safe p w : reading p (λ k s, in_header k ∧ first k s) w → wp (start_payload p) (λ _ w', reading p loaded w') w.
Proof.
  intros Hr. unfold start_payload. wp_step. eapply reading_get; [done|]. intros c Hc [Hk Hf] _. cbv zeta beta. do 2 wp_step. set (len := p_remaining_length (c_in_packet c)).
  set (Φ := λ (k : packet) (s : client_state), in_header k ∧ first k s ∧ p_remaining_length k = len).
  assert (reading p Φ w) as Hr0.
  { destruct Hr as (Hs & Hi & d & Hd & Hb & Hcl & Hroom & _). assert (d = c) as -> by congruence. split_and!; [done|done|]. exists c. split_and!; try done. }
  wp_step. eapply (wp_mono _ (λ _ w', reading p Φ w')).
  { destruct (_ =? CONNECT); [by wp_step|]. wp_step. destruct (_ && _).
    - wp_step. by apply reading_disconnect.
    - eapply reading_ext; [done|]. intros b w1 Hr1 _. destruct b; [by apply reading_disconnect|by wp_step]. }
  intros _ w1 Hr1. wp_step. assert (0 <= len < 2 ^ 28) as Hlen.
  { destruct Hk as (_ & _ & _ & _ & Hcnt & _ & Hlt). assert (128 ^ p_remaining_count (c_in_packet c) <= 128 ^ 4) by (apply Z.pow_le_mono_r; lia). change (128 ^ 4) with (2 ^ 28) in *. fold len in Hlt. lia. }
  set (Ψ := λ (k : packet) (s : client_state), first k s ∧ p_pos k = 0 ∧ p_to_process k = len ∧ p_remaining_length k = len ∧
    match p_payload k with Some buf => buf = replicate (Z.to_nat len) 0 | None => len = 0 end).
  eapply (wp_mono _ (λ _ w', reading p Ψ w')).
  { destruct (Z.ltb_spec 0 len).
    - eapply (reading_upd p Φ Ψ); [exact Hr1| |by intros]. intros k s ((_ & Hpos & _) & Hfk & Hl). by split_and!.
    - wp_step. eapply reading_weaken; [|exact Hr1]. intros k s ((_ & Hpos & Hpl & Htp & _) & Hfk & Hl). split_and!; try done; [lia|]. rewrite Hpl. lia. }
  intros _ w2 Hr2. eapply (reading_upd p Ψ loaded); [exact Hr2| |by intros]. intros k s (Hfk & Hpos & Htp & Hl & Hpl). split; [|done]. unfold in_body, octets. cbn. rewrite Hpos, Htp, Hl. 
  split_and!; try done; try lia.
  - destruct (p_payload k); [|constructor]. cbn. subst. apply Forall_replicate. lia.
  - destruct (p_payload k); [|done]. subst. rewrite length_replicate. lia.
Qed.

(** The bytes land in the buffer. *)
Lemma write_body k bs : in_body k → octets k → 0 < Z.of_nat (length bs) <= p_to_process k → Forall (λ b, 0 <= b < 256) bs →
  ∃ k', (pos ← gets p_pos; write_at pos (take (Z.to_nat (Z.of_nat (length bs))) bs);;
         modify (λ k, k <| p_to_process ::= λ n, u32 (n - Z.of_nat (length bs)) |> <| p_pos ::= λ n, u32 (n + Z.of_nat (length bs)) |>)) k = Some (tt, k') ∧
    in_body k' ∧ p_command k' = p_command k ∧ p_to_process k' = p_to_process k - Z.of_nat (length bs).
Proof.
  intros (Hhr & Hpos & Htp & Hsum & Hlt & Hoct & Hpl) _ Hlen Hbs. destruct (p_payload k) as [buf|] eqn:Hbuf; [|lia]. rewrite Nat2Z.id, firstn_all.
  unfold mbind, st_bind, gets, write_at, blit, modify. rewrite Hbuf. destruct (Z.leb_spec 0 (p_pos k)); [|lia]. destruct (Z.leb_spec (p_pos k + Z.of_nat (length bs)) (Z.of_nat (length buf))); [|lia].
  cbn [andb]. eexists. split; [done|]. unfold in_body, octets. cbn. rewrite !u32_id by lia. split_and!; try done; try lia.
  - unfold octets in Hoct. rewrite Hbuf in Hoct. cbn in Hoct. apply Forall_app_2; [by apply Forall_take|]. apply Forall_app_2; [done|by apply Forall_drop].
  - rewrite !length_app, length_take, length_drop. lia.
Qed.

Definition processed (n : nat) (k : packet) (s : client_state) : Prop := loaded k s ∧ p_to_process k <= Z.of_nat n.
Lemma read_payload_safe fuel p w : reading p (processed fuel) w →
  wp (read_payload fuel p from_socket) (λ r w', match r with inl rc => stopped p rc w' | inr src => src = from_socket ∧ reading p (processed 0) w' end) w.
Proof.
  revert w. induction fuel as [|fuel IH]; intros w Hr; cbn [read_payload]; wp_step; (eapply reading_get; [done|]); intros c Hc [[Hk Hf] Hn] _; cbv zeta beta.
  { destruct (Z.ltb_spec 0 (p_to_process (c_in_packet c))); [lia|]. by wp_step. }
  set (n := p_to_process (c_in_packet c)) in *. destruct (Z.ltb_spec 0 n).
  2: { wp_step. split; [done|]. destruct Hr as (Hs & Hi & d & Hd & Hb & Hcl & Hroom & _). assert (d = c) as -> by congruence. split_and!; [done|done|]. exists c. split_and!; try done. }
  set (Φ := λ (k : packet) (s : client_state), loaded k s ∧ p_to_process k = n ∧ n <= Z.of_nat (S fuel)). assert (reading p Φ w) as Hr0.
  { destruct Hr as (Hs & Hi & d & Hd & Hb & Hcl & Hroom & _). assert (d = c) as -> by congruence. split_and!; [done|done|]. exists c. split_and!; try done. }
  assert (∀ k s, Φ k s → started k s) as Hstart by (intros k s [[Hk' Hf'] _]; apply named_started; split; [by right|done]).
  wp_step. eapply wp_mono; [by apply read_some_safe|]. intros [[[len err] bs] src] w1 (Hsrc & Hr1 & Hp). cbn in Hsrc, Hp. subst src. cbv beta iota zeta.
  destruct (Z.ltb_spec 0 len) as [Hpos|_].
  - destruct (Hp Hpos) as (Hle & Hlen & Hoct). pose proof Hr1 as (_ & _ & d & Hd & _ & _ & _ & ([Hdk Hdf] & Hdn & Hfu)). wp_step.
    destruct (write_body (c_in_packet d) bs Hdk) as (k' & Hrun & Hk' & Hcmd & Hleft); [by destruct Hdk as (_&_&_&_&_&?&_)|lia|done|]. rewrite Hlen in Hrun.
    eapply wp_in_packet; [by apply reached_refl|]. eapply wp_run; [exact Hrun|]. intros w2 Hr2. apply IH.
    eapply (reading_reached p Φ _ d); [done|done|exact Hr2|done..|]. cbn [c_in_packet c_state upd]. split; [split; [done|]|].
    + change (first k' (c_state d)). intros Hs. rewrite Hcmd. by apply Hdf.
    + change (p_to_process k' <= Z.of_nat fuel). lia.
  - wp_step. eapply (wp_mono _ (λ _ w', reading p Φ w')).
    + destruct (_ && _); [|by wp_step]. wp_step. unfold mosquitto_time. eapply reading_ext; [done|]. intros t w2 Hr2 _. eapply reading_touch; [done|done|by intros].
    + intros _ w2 Hr2. wp_step. apply reading_stopped. by eapply reading_weaken.
Qed.

(** The packet is complete: it is ready for its handler. *)
Lemma body_unread k : in_body k → p_to_process k <= 0 → ∃ l, unread (k <| p_pos := 0 |>) l.
Proof.
  intros (_ & Hpos & Htp & Hsum & Hlt & _ & Hpl) Hdone. destruct (p_payload k) as [buf|] eqn:Hb.
  - exists buf, []. cbn. split_and!; [by left|done|lia|done].
  - exists [], []. cbn. split_and!; [by right|done|lia|done].
Qed.
Lemma read_packet_safe p w : reading p started w →
  wp (read_packet p from_socket) (λ r w', match r with inl rc => stopped p rc w' | inr src => src = from_socket ∧ reading p (λ k s, (∃ l, unread k l) ∧ octets k ∧ first k s) w' end) w.
Proof.
  intros Hr. unfold read_packet. apply wp_and_then. eapply wp_mono; [by apply read_command_safe|]. intros [rc|src] w1 Hr1; [done|]. destruct Hr1 as [-> Hr1].
  apply wp_and_then. eapply (wp_mono _ (λ r w', match r with inl rc => stopped p rc w' | inr src => src = from_socket ∧ reading p loaded w' end)).
  { unfold read_header. wp_step. pose proof Hr1 as (Hs & Hi & c & Hc & Hb & Hcl & Hroom & [Hk Hf]). eapply wp_ctx_get; [done|]. cbv beta.
    destruct (Z.eqb_spec (p_have_remaining (c_in_packet c)) 0) as [Hh|Hh]; cbn [negb].
    - apply wp_and_then. eapply wp_mono; [apply read_remaining_safe|].
      + split_and!; [done|done|]. exists c. split_and!; try done. destruct Hk as [Hk|[? _]]; [|done]. pose proof Hk as (_&_&_&_&Hcnt&_). split_and!; [done|done|lia].
      + intros [rc|src] w2 Hr2; [done|]. destruct Hr2 as [-> Hr2]. apply wp_and_then, wp_liftM. eapply wp_mono; [by apply start_payload_safe|]. intros ? w3 Hr3. by wp_step.
    - wp_step. split; [done|]. split_and!; [done|done|]. exists c. split_and!; try done. destruct Hk as [[? _]|Hk]; done. }
  intros [rc|src] w2 Hr2; [done|]. destruct Hr2 as [-> Hr2]. apply wp_and_then, wp_liftM. pose proof Hr2 as (Hs & Hi & c & Hc & Hb & Hcl & Hroom & Hk). eapply wp_ctx_get; [done|].
  apply wp_and_then. eapply wp_mono; [apply read_payload_safe|].
  { split_and!; [done|done|]. exists c. split_and!; try done. split; [done|]. destruct Hk as [(_&_&Htp&_) _]. lia. }
  intros [rc|src] w3 Hr3; [done|]. destruct Hr3 as [-> Hr3]. apply wp_and_then, wp_liftM. eapply reading_upd; [exact Hr3| |].
  2: { intros w4 Hr4. wp_step. split; [done|exact Hr4]. }
  intros k s [[Hbody Hfk] Hn]. split_and!; [by apply body_unread|by destruct Hbody as (_&_&_&_&_&?&_)|done].
Qed.

(** ** No context goes away *)

(** No context comes or goes, in the table or elsewhere, and none becomes a bridge. *)
Definition keeps_at (x y : option mosquitto) : Prop :=
  match x, y with Some c, Some c' => c_bridge c = None → c_bridge c' = None | None, None => True | _, _ => False end.
Definition keeps (w w' : world) : Prop :=
  (w_contexts w' = w_contexts w ∧ w_sessions_to_clean w' = w_sessions_to_clean w) ∧ ∀ q, keeps_at (w_ctxs w !! q) (w_ctxs w' !! q).
Lemma keeps_at_refl x : keeps_at x x.
Proof. by destruct x; cbn. Qed.
Lemma keeps_at_lookup w w' q c : keeps w w' → w_ctxs w !! q = Some c → is_Some (w_ctxs w' !! q).
Proof. intros [_ Hk] Hc. specialize (Hk q). rewrite Hc in Hk. destruct (w_ctxs w' !! q); [by eexists|done]. Qed.
#[export] Instance keeps_preorder : PreOrder keeps.
Proof.
  split; [intros w; split; [done|intros q; apply keeps_at_refl]|]. intros w1 w2 w3 [[E1 S1] K1] [[E2 S2] K2]. split; [split; congruence|]. intros q.
  specialize (K1 q). specialize (K2 q). unfold keeps_at in *. destruct (w_ctxs w1 !! q), (w_ctxs w2 !! q), (w_ctxs w3 !! q); by auto.
Qed.
Lemma keeps_same w w' : w_ctxs w' = w_ctxs w → w_contexts w' = w_contexts w → w_sessions_to_clean w' = w_sessions_to_clean w → keeps w w'.
Proof. intros Hw Ht Hm. split; [done|]. intros q. rewrite Hw. apply keeps_at_refl. Qed.
Lemma no_bridge (c c' : mosquitto) : bool_decide (is_Some (c_bridge c')) = bool_decide (is_Some (c_bridge c)) → c_bridge c = None → c_bridge c' = None.
Proof. intros E F. rewrite F in E. by destruct (c_bridge c'). Qed.
Lemma keeps_handled k w w' : handled k w w' → keeps w w'.
Proof.
  intros [Ht Hq]. unfold table in Ht. split; [split; congruence|]. intros q. specialize (Hq q). unfold keeps_at. destruct (w_ctxs w !! q), (w_ctxs w' !! q); try done.
  destruct Hq as ([= _ _ _ _ _ _ _ _ _ Hb] & _). by apply no_bridge.
Qed.
Lemma keeps_closes p w w' : closes p w w' → keeps w w'.
Proof.
  intros [Ht Hq]. unfold table in Ht. split; [split; congruence|]. intros q. specialize (Hq q). unfold keeps_at. destruct (w_ctxs w !! q), (w_ctxs w' !! q); try done.
  case_decide; [by destruct Hq as (_ & _ & _ & _ & Hb & _); apply no_bridge|destruct Hq as ([= _ _ _ _ _ _ _ _ _ Hb] & _); by apply no_bridge].
Qed.
Lemma keeps_tidies b p w w' : tidies b p w w' → keeps w w'.
Proof.
  intros ((Hother & Ht & Hm) & _ & _ & Hp & Hn). split; [done|]. intros q. destruct (decide (q = p)) as [->|Hne]; [|rewrite Hother by done; apply keeps_at_refl].
  destruct (w_ctxs w !! p) as [c|]; [|by rewrite Hn]. destruct (Hp c eq_refl) as (c' & -> & _ & _ & _ & _ & _ & Hb). exact Hb.
Qed.
Lemma keeps_ctx_upd q f : (∀ c, c_bridge c = None → c_bridge (f c) = None) → frame keeps (ctx_upd q f).
Proof.
  intros Hf w a w'. unfold ctx_upd, mbind, st_bind, ctx_get, deref. destruct (w_ctxs w !! q) as [c|] eqn:Hc; [|done]. intros [= _ <-]. split; [done|].
  intros r. cbn. destruct (decide (r = q)) as [->|]; [rewrite lookup_insert_eq, Hc; exact (Hf c)|rewrite lookup_insert_ne by done; apply keeps_at_refl].
Qed.
Lemma keeps_in_packet {A} p (m : ST packet A) : frame keeps (in_packet p m).
Proof. eapply frame_weaken; [apply keeps_handled|apply (handled_in_packet p None)]. Qed.
Lemma keeps_send_packet p command len mid body : frame keeps (send_packet p command len mid body).
Proof. eapply frame_weaken; [apply keeps_handled|apply (handled_send_packet None)]. Qed.
Lemma keeps_context_disconnect p : frame keeps (mqtt3_context_disconnect p).
Proof. eapply frame_weaken; [apply keeps_closes|apply closes_context_disconnect]. Qed.
Lemma keeps_tidied {A} b p (m : ST world A) : frame (tidies b p) m → frame keeps m.
Proof. apply frame_weaken, keeps_tidies. Qed.
#[local] Hint Resolve keeps_in_packet keeps_send_packet keeps_context_disconnect : frames.
#[local] Hint Extern 1 (frame keeps (ctx_upd _ _)) => apply keeps_ctx_upd; intros ?; solve [done | by repeat case_match | let Hb := fresh in intros Hb; cbn; by rewrite Hb] : frames.
Ltac keeping := repeat frame_step ltac:(intros; apply keeps_same).
Lemma keeps_refuse {A} p connack rc : frame keeps (refuse p connack rc : ST world (Z + A)).
Proof. unfold refuse, _mosquitto_send_connack. keeping. Qed.
Lemma keeps_refuse_if b p connack rc : frame keeps (refuse_if b p connack rc).
Proof. unfold refuse_if. destruct b; [apply keeps_refuse|apply frame_ret, _]. Qed.
#[local] Hint Resolve keeps_refuse keeps_refuse_if : frames.
Lemma keeps_read_or_refuse {A} p (m : ST packet (Z + A)) : frame keeps (read_or_refuse p m).
Proof. unfold read_or_refuse. keeping. Qed.
#[local] Hint Resolve keeps_read_or_refuse : frames.
Lemma keeps_cleanup_connection p : frame keeps (cleanup_connection p).
Proof. by eapply keeps_tidied, (tidies_cleanup_connection true). Qed.
Lemma keeps_cleanup_session p clean_subs : frame keeps (cleanup_session p clean_subs).
Proof. by eapply keeps_tidied, (tidies_cleanup_session true). Qed.
Lemma keeps_cleanup_identity p : frame keeps (cleanup_identity p).
Proof. by eapply keeps_tidied, tidies_cleanup_identity. Qed.
Lemma keeps_cleanup_buffers p do_free : frame keeps (cleanup_buffers p do_free).
Proof. by eapply keeps_tidied, (tidies_cleanup_buffers true). Qed.
#[local] Hint Resolve keeps_cleanup_connection keeps_cleanup_session keeps_cleanup_identity keeps_cleanup_buffers : frames.
Lemma keeps_context_cleanup p : frame keeps (mqtt3_context_cleanup p false true).
Proof. unfold mqtt3_context_cleanup. keeping. Qed.
#[local] Hint Resolve keeps_context_cleanup : frames.
Lemma keeps_message_remove p i : frame keeps (_message_remove p i).
Proof. eapply frame_weaken; [apply keeps_handled|apply (handled_message_remove (None, None))]. Qed.
#[local] Hint Resolve keeps_message_remove : frames.
Lemma keeps_reset_loop fuel p i stale : frame keeps (reconnect_reset_loop fuel p i stale).
Proof. revert i stale. induction fuel as [|fuel IH]; intros; cbn [reconnect_reset_loop]; unfold msg_get, msg_upd; keeping; apply IH. Qed.
Lemma keeps_reconnect_reset p : frame keeps (mqtt3_db_message_reconnect_reset p).
Proof. unfold mqtt3_db_message_reconnect_reset. keeping. apply keeps_reset_loop. Qed.
#[local] Hint Resolve keeps_reconnect_reset : frames.
Lemma keeps_connect p : frame keeps (mqtt3_handle_connect p).
Proof.
  unfold mqtt3_handle_connect, connect_protocol, connect_admission, connect_options, connect_identity, connect_will, connect_takeover, adopt_connection, connect_finish,
    mqtt3_dxl_get_max_connect_count, mqtt3_dxl_db_client_count, mqtt3_add_canonical_client_id, _mosquitto_send_connack, mosquitto_epoll_update_context_index, mosquitto_remove_pending_bytes_set.
  keeping.
Qed.
Lemma keeps_handled_at {A} k (m : ST world A) : frame (handled k) m → frame keeps m.
Proof. apply frame_weaken, keeps_handled. Qed.
Lemma keeps_disconnect p : frame keeps (mqtt3_handle_disconnect p).
Proof. unfold mqtt3_handle_disconnect. keeping. Qed.
Lemma keeps_connack_topics p topics : frame keeps (connack_topics p topics).
Proof.
  induction topics as [|t topics IH]; cbn [connack_topics]; [apply frame_ret, _|]. unfold _mosquitto_send_subscribe, _mosquitto_send_unsubscribe. keeping.
  all: first [apply IH | eapply keeps_handled_at, (handled_send_sub_packet None)].
Qed.
#[local] Hint Resolve keeps_connack_topics : frames.
Lemma keeps_handle_connack p : frame keeps (mqtt3_handle_connack p).
Proof. unfold mqtt3_handle_connack. keeping. Qed.
Lemma keeps_packet_handle p : frame keeps (mqtt3_packet_handle p).
Proof.
  unfold mqtt3_packet_handle. apply frame_bind; [apply _|apply frame_ctx_get, _|]. intros c. cbv zeta.
  repeat match goal with |- frame _ (if ?b then _ else _) => destruct b end.
  - eapply keeps_handled_at, handled_pingreq.
  - eapply keeps_handled_at, handled_pingresp.
  - eapply keeps_handled_at, handled_pubackcomp.
  - eapply keeps_handled_at, handled_publish.
  - eapply keeps_handled_at, handled_pubrec.
  - eapply keeps_handled_at, handled_pubrel.
  - apply keeps_connect.
  - apply keeps_disconnect.
  - eapply keeps_handled_at, handled_subscribe.
  - eapply keeps_handled_at, handled_unsubscribe.
  - apply keeps_handle_connack.
  - eapply keeps_handled_at, handled_suback.
  - eapply keeps_handled_at, handled_unsuback.
  - apply frame_ret, _.
Qed.

Lemma keeps_net_read p n : frame keeps (_mosquitto_net_read p n).
Proof. unfold _mosquitto_net_read. keeping. Qed.
#[local] Hint Resolve keeps_net_read : frames.
Lemma keeps_read_some p src n : frame keeps (read_some p src n).
Proof. unfold read_some. keeping. Qed.
#[local] Hint Resolve keeps_read_some : frames.
Lemma keeps_read_command p src : frame keeps (read_command p src).
Proof. unfold read_command. keeping. Qed.
Lemma keeps_read_remaining fuel p src : frame keeps (read_remaining fuel p src).
Proof. revert src. induction fuel as [|fuel IH]; intros; cbn [read_remaining]; keeping; apply IH. Qed.
#[local] Hint Resolve keeps_read_command keeps_read_remaining : frames.
Lemma keeps_start_payload p : frame keeps (start_payload p).
Proof. unfold start_payload. keeping. Qed.
#[local] Hint Resolve keeps_start_payload : frames.
Lemma keeps_read_payload fuel p src : frame keeps (read_payload fuel p src).
Proof. revert src. induction fuel as [|fuel IH]; intros; cbn [read_payload]; keeping; apply IH. Qed.
#[local] Hint Resolve keeps_read_payload keeps_packet_handle : frames.
Lemma keeps_read_one p src : frame keeps (read_one p src).
Proof. unfold read_one, read_packet, read_header. keeping. Qed.
#[local] Hint Resolve keeps_read_one : frames.
Lemma keeps_packet_read p buf : frame keeps (_mosquitto_packet_read p buf).
Proof.
  unfold _mosquitto_packet_read, mosquitto_add_pending_bytes_set, mosquitto_remove_pending_bytes_set. keeping.
  - generalize (S (length l)) as n, (from_ws l 0) as src. induction n as [|n IH]; intros src; cbn [read_packets]; keeping; apply IH.
  - cbn [read_packets]. keeping.
Qed.

(** ** A turn of the reader *)

Lemma input_cleaned c : input_ok (c <| c_in_packet ::= _mosquitto_packet_cleanup |>).
Proof. intros _. split; [left; unfold in_header; cbn; split_and!; (done || lia)|]. intros _ _. by left. Qed.

(** A client of the table, with room for an answer. *)
Definition client_at (p : ctxid) (c : mosquitto) (w : world) : Prop :=
  (∃ i, w_contexts w !! i = Some (Some p)) ∧ w_ctxs w !! p = Some c ∧ c_bridge c = None ∧ c_packet_count c + 1 < 2 ^ 64.

Lemma sound_stop p w : sound (Some p) None w → (∀ c, w_ctxs w !! p = Some c → input_ok c) → sound None None w.
Proof. intros Hs Hin. eapply sound_settle; [done|intros q c [= <-]; apply Hin|done]. Qed.
Lemma sound_start p w : sound None None w → sound (Some p) None w.
Proof. intros Hs. split; try apply Hs. intros q c Hc _. by eapply so_input. Qed.

Lemma pending_sound p w c : sound None None w → w_ctxs w !! p = Some c →
  wp (mosquitto_add_pending_bytes_set p) (λ _ w', sound None None w' ∧ is_Some (w_ctxs w' !! p)) w ∧
  wp (mosquitto_remove_pending_bytes_set p) (λ _ w', sound None None w' ∧ is_Some (w_ctxs w' !! p)) w.
Proof.
  intros Hs Hc. assert (∀ g b, wp (modify (λ w : world, w <| w_pending_bytes_hash ::= g |>);; ctx_upd p (λ c, c <| c_pending_bytes := b |>)) (λ _ w', sound None None w' ∧ is_Some (w_ctxs w' !! p)) w) as Hset.
  { intros g b. wp_steps. assert (sound None None (w <| w_pending_bytes_hash ::= g |>)) as Hs' by (by eapply sound_frame). eapply (wp_sound_upd None None p); [done|done|done|done| |].
    - pose proof (sound_context _ _ _ _ _ Hs Hc) as ([C1 C2 C3 C4 C5] & Hin & Hcl). split_and!; [done|exact Hin|exact Hcl].
    - intros w' Hs2 Hw2 _. split; [done|]. rewrite Hw2, lookup_insert_eq. by eexists. }
  unfold mosquitto_add_pending_bytes_set, mosquitto_remove_pending_bytes_set. split; wp_step; (eapply wp_ctx_get; [done|]); cbv beta; (destruct (c_pending_bytes c); [|]).
  all: first [apply Hset | wp_step; split; [done|by eexists]].
Qed.

(** The connection cannot be trusted any more ([rc] is not 0), or all is well. *)
Lemma packet_read_safe p w c : sound None None w → client_at p c w →
  wp (_mosquitto_packet_read p None) (λ rc w', sound (Some p) None w' ∧ is_Some (w_ctxs w' !! p) ∧ (rc = MOSQ_ERR_SUCCESS → sound None None w')) w.
Proof.
  intros Hs (Hi & Hc & Hb & Hroom). unfold _mosquitto_packet_read. apply wp_returned, wp_and_then, wp_liftM. eapply wp_ctx_get; [done|].
  pose proof (so_context _ _ _ Hs p c Hc) as Hco. destruct (is_context_invalid c) eqn:Hinv; unfold return_if.
  { apply wp_and_then. wp_step. split_and!; [by apply sound_start|by eexists|done]. }
  assert (c_sock c ≠ INVALID_SOCKET) as Hsock.
  { unfold is_context_invalid in Hinv. rewrite (co_wsi _ Hco), andb_true_r in Hinv. by apply bool_decide_eq_false in Hinv. }
  apply wp_and_then. wp_step. apply wp_and_then. cbn [read_packets].
  assert (reading p started w) as Hr.
  { split_and!; [by apply sound_start|done|]. exists c. split; [done|]. split; [done|]. split; [by apply (so_client _ _ _ Hs p c)|]. split; [done|].
    destruct (so_input _ _ _ Hs p c Hc ltac:(done) Hsock) as [Hk Hin]. split; [done|]. by apply Hin. }
  clear Hs Hi c Hc Hb Hroom Hco Hinv Hsock. apply wp_and_then. unfold read_one. apply wp_and_then. eapply wp_mono; [by apply read_packet_safe|].
  intros [rc|src] w1 Hr1.
  { destruct Hr1 as (Hs1 & c1 & Hc1 & Hin). split_and!; [done|by eexists|]. intros Hrc. apply (sound_stop p); [done|]. intros d Hd. assert (d = c1) as -> by congruence. by apply Hin. }
  destruct Hr1 as (-> & Hs1 & Hi1 & c1 & Hc1 & Hb1 & Hcl1 & Hroom1 & Hu & Hoct & Hf). apply wp_and_then, wp_liftM.
  eapply wp_mono; [apply (wp_frame keeps); [apply keeps_packet_handle|apply (packet_handle_safe p w1 c1 Hs1 Hi1 Hc1)]|]; [by split_and!|].
  intros rc w2 [Hs2 Hk2]. destruct (keeps_at_lookup _ _ _ _ Hk2 Hc1) as [c2 Hc2]. clear Hk2.
  apply wp_and_then, wp_liftM. eapply (wp_sound_upd (Some p) None p); [done|done|done|done| |].
  { destruct (sound_context _ _ _ _ _ Hs2 Hc2) as ([C1 C2 C3 C4 C5] & _ & Hcl). split_and!; [done|done|exact Hcl]. }
  intros w3 Hs3 Hw3 _. assert (sound None None w3) as Hs3'.
  { apply (sound_stop p); [done|]. intros d Hd. rewrite Hw3, lookup_insert_eq in Hd. injection Hd as <-. apply input_cleaned. }
  assert (is_Some (w_ctxs w3 !! p)) as Hc3 by (rewrite Hw3, lookup_insert_eq; by eexists). clear Hs3 Hw3 Hs2 Hc2 Hs1 Hc1.
  apply wp_and_then, wp_liftM. unfold mosquitto_time. apply wp_ext. intros t e _. assert (sound None None (w3 <| w_env := e |>)) as Hs4 by (by eapply sound_frame).
  destruct Hc3 as [c3 Hc3]. apply wp_and_then, wp_liftM. eapply (wp_sound_upd None None p _ _ c3); [done|done|done|done| |].
  { pose proof (sound_context _ _ _ _ _ Hs4 Hc3) as ([C1 C2 C3 C4 C5] & Hin & Hcl). split_and!; [done|exact Hin|exact Hcl]. }
  intros w5 Hs5 Hw5 _. assert (is_Some (w_ctxs w5 !! p)) as [c5 Hc5] by (rewrite Hw5, lookup_insert_eq; by eexists). wp_step. cbn [ws_more snd fst]. wp_step.
  apply wp_and_then, wp_liftM. eapply wp_ctx_get; [done|]. apply wp_and_then, wp_liftM.
  eapply (wp_mono _ (λ _ w', sound None None w' ∧ is_Some (w_ctxs w' !! p))).
  - destruct (c_ssl c5); [|wp_step; split; [done|by eexists]]. wp_steps. destruct (0 <? _).
    + by eapply pending_sound.
    + by eapply pending_sound.
  - intros _ w6 [Hs6 Hc6]. wp_step. split_and!; [by apply sound_start|done|done].
Qed.
End reading.
#[export] Hint Resolve keeps_context_disconnect keeps_packet_read : frames.
#[export] Hint Extern 1 (frame keeps (ctx_upd _ _)) => apply keeps_ctx_upd; intros ?; solve [done | by repeat case_match] : frames.
Ltac keeping := repeat frame_step ltac:(intros; apply keeps_same).
