(* ===== verification/CoreUtil.v ===== *)
(** * Wildcards above a topic

    [brokerlib/core/src/CoreUtil.cpp]: the broker library enumerates, for a
    topic, the multi-level wildcard filters above it, from the closest to
    ["#"]. The loops that use the enumeration stop at the first hit. *)

From S2P Require Import Prelude Topic.
From stdpp Require Import options.

(** ** The code *)

(** [CoreUtil::isWildcard]. *)
Definition isWildcard (topic : string) : bool :=
  match String.length topic with
  | O => false
  | S n => bool_decide (String.get n topic = Some hash)
  end.

(** The loop of [iterateWildcardNext] from [searchPos = n - 1] down: the
    position behind the last slash, or 0. *)
Fixpoint slash_search (modifiedTopic : string) (n : nat) : nat :=
  match n with
  | O => O
  | S searchPos =>
    if bool_decide (String.get searchPos modifiedTopic = Some slash) then S searchPos
    else slash_search modifiedTopic searchPos
  end.

(** [CoreUtil::iterateWildcardNext]: the buffer after the call, or [None] when
    it returns false. *)
Definition iterateWildcardNext (modifiedTopic : string) : option string :=
  let length := String.length modifiedTopic in
  if bool_decide (length = 1%nat) && bool_decide (String.get 0 modifiedTopic = Some hash) then None
  else
    let n := if bool_decide (2 <= length)%nat && bool_decide (String.get (length - 1) modifiedTopic = Some hash)
                && bool_decide (String.get (length - 2) modifiedTopic = Some slash)
             then (length - 2)%nat else length in
    let poundPos := slash_search modifiedTopic n in
    Some (String.substring 0 poundPos modifiedTopic +:+ "#").

(** The loop [while( iterateWildcardNext( wcTopic ) ) if( p( wcTopic ) ) ..
    break]: whether a wildcard satisfies [p]; [None] without fuel. *)
Fixpoint wildcard_loop (fuel : nat) (p : string → bool) (wcTopic : string) : option bool :=
  match fuel with
  | O => None
  | S fuel' =>
    match iterateWildcardNext wcTopic with
    | None => Some false
    | Some wcTopic' => if p wcTopic' then Some true else wildcard_loop fuel' p wcTopic'
    end
  end.

(** The whole loop from [iterateWildcardBegin] on. *)
Definition any_wildcard (p : string → bool) (topic : string) : option bool :=
  wildcard_loop (String.length topic + 2) p topic.

(** ** Strings by position *)

Lemma get_app_l a b n : (n < String.length a)%nat → String.get n (a +:+ b) = String.get n a.
Proof. revert n. induction a as [|c a IH]; intros [|n] Hn; simpl in *; [lia|lia|done|apply IH; lia]. Qed.
Lemma get_app_r a b n : String.get (String.length a + n) (a +:+ b) = String.get n b.
Proof. induction a as [|c a IH]; [done|]. exact IH. Qed.
Lemma length_str_app a b : String.length (a +:+ b) = (String.length a + String.length b)%nat.
Proof. induction a as [|c a IH]; [done|]. simpl. by rewrite IH. Qed.
Lemma substring_app a b : String.substring 0 (String.length a) (a +:+ b) = a.
Proof. induction a as [|c a IH]; simpl; [by destruct b|]. by rewrite IH. Qed.
Lemma has_char_app c a b : has_char c (a +:+ b) = has_char c a || has_char c b.
Proof. induction a as [|d a IH]; [done|]. simpl. by rewrite IH, orb_assoc. Qed.
Lemma get_has_char c s n : String.get n s = Some c → has_char c s = true.
Proof.
  revert n. induction s as [|d s IH]; intros n Hn; [by destruct n|]. destruct n as [|n]; simpl in *.
  - simplify_eq. by rewrite Ascii.eqb_refl.
  - by rewrite (IH n), orb_true_r.
Qed.

(** ** Levels by position *)

(** The levels above the last one, each with its slash. *)
Fixpoint above (ls : list string) : string :=
  match ls with [] => "" | l :: ls' => l +:+ (String slash "" +:+ above ls') end.

Lemma above_snoc ls l : above (ls ++ [l]) = above ls +:+ (l +:+ String slash "").
Proof. induction ls as [|m ls IH]; simpl; [by rewrite ?str_app_nil_r|]. by rewrite IH, str_app_cons, !str_app_assoc. Qed.
Lemma join_above ls l : join_levels (ls ++ [l]) = above ls +:+ l.
Proof.
  induction ls as [|m ls IH]; [done|]. cbn [app above]. rewrite join_levels_cons by (by destruct ls).
  by rewrite IH, str_app_cons, str_app_assoc.
Qed.
Lemma above_ends ls : above ls = "" ∨ ∃ a, above ls = a +:+ String slash "".
Proof.
  destruct ls as [|l ls _] using rev_ind; [by left|]. right. exists (above ls +:+ l). by rewrite above_snoc, str_app_assoc.
Qed.

Lemma slash_search_spec a b n : (a = "" ∨ ∃ a', a = a' +:+ String slash "") → has_char slash b = false →
  (String.length a <= n <= String.length a + String.length b)%nat → slash_search (a +:+ b) n = String.length a.
Proof.
  intros Ha Hb. induction n as [|n IH]; intros Hn.
  { destruct a; [done|simpl in Hn; lia]. }
  simpl. destruct (decide (n < String.length a)%nat) as [Hlt|Hge].
  - destruct Ha as [->|[a' ->]]; [simpl in *; lia|]. rewrite length_str_app in *. simpl in *.
    assert (n = String.length a') as -> by lia. rewrite str_app_assoc.
    pose proof (get_app_r a' (String slash "" +:+ b) 0) as Hg. rewrite Nat.add_0_r in Hg.
    rewrite Hg, bool_decide_eq_true_2 by done. lia.
  - pose proof (get_app_r a b (n - String.length a)) as Hg. replace (String.length a + (n - String.length a))%nat with n in Hg by lia.
    rewrite Hg, bool_decide_eq_false_2; [apply IH; lia|]. intros Hs%get_has_char. congruence.
Qed.

(** The buffer is cut behind the last slash of its first [n] characters. *)
Lemma cut_spec ls b : has_char slash b = false →
  ∀ n, (String.length (above ls) <= n <= String.length (above ls) + String.length b)%nat →
  String.substring 0 (slash_search (above ls +:+ b) n) (above ls +:+ b) +:+ "#" = join_levels (ls ++ ["#"]).
Proof.
  intros Hb n Hn. rewrite slash_search_spec; [|apply above_ends|done|done]. by rewrite substring_app, join_above.
Qed.

(** From a topic whose last level is not [#]. *)
Lemma next_topic ls l : has_char slash l = false → l ≠ "#" →
  iterateWildcardNext (join_levels (ls ++ [l])) = Some (join_levels (ls ++ ["#"])).
Proof.
  intros Hl Hne. unfold iterateWildcardNext. rewrite join_above. set (s := above ls +:+ l).
  assert (∀ n, String.get n l = Some hash → String.length l = S n → n ≠ O ∧ String.get (n - 1) l ≠ Some slash) as Hend.
  { intros n Hg Hn. split.
    - intros ->. destruct l as [|c [|d l]]; simpl in *; [done| |done]. by simplify_eq.
    - intros Hs%get_has_char. congruence. }
  assert (¬ (String.length s = 1%nat ∧ String.get 0 s = Some hash)) as H1.
  { intros [Hlen Hg]. unfold s in *. rewrite length_str_app in Hlen. destruct (above_ends ls) as [E|[a E]]; rewrite E in *.
    - destruct (Hend 0%nat Hg Hlen) as [Hz _]. done.
    - rewrite length_str_app in Hlen. simpl in Hlen. assert (String.length a = 0%nat ∧ String.length l = 0%nat) as [Ha _] by lia.
      destruct a; [|done]. done. }
  assert (bool_decide (String.length s = 1%nat) && bool_decide (String.get 0 s = Some hash) = false) as ->.
  { apply not_true_iff_false. intros Hb. apply andb_true_iff in Hb as [Hb1%bool_decide_eq_true Hb2%bool_decide_eq_true]. by apply H1. }
  destruct (_ && _ && _) eqn:Hs; f_equal; [exfalso|apply cut_spec; [done|unfold s; rewrite length_str_app; lia]].
  apply andb_true_iff in Hs as [Hs Hsl%bool_decide_eq_true]. apply andb_true_iff in Hs as [Hlen%bool_decide_eq_true Hh%bool_decide_eq_true].
  unfold s in *. rewrite length_str_app in *. destruct (String.length l) as [|n] eqn:En.
  - destruct l; [|done]. destruct (above_ends ls) as [E|[a E]]; rewrite E, ?length_str_app in *; simpl in *; [lia|].
    rewrite str_app_nil_r in Hh. replace (String.length a + 1 + 0 - 1)%nat with (String.length a + 0)%nat in Hh by lia.
    by rewrite get_app_r in Hh.
  - replace (String.length (above ls) + S n - 1)%nat with (String.length (above ls) + n)%nat in Hh by lia. rewrite get_app_r in Hh.
    destruct (Hend n Hh eq_refl) as [Hn Hb]. replace (String.length (above ls) + S n - 2)%nat with (String.length (above ls) + (n - 1))%nat in Hsl by lia.
    by rewrite get_app_r in Hsl.
Qed.

(** From a wildcard to the one above it. *)
Lemma next_wildcard ls l : has_char slash l = false →
  iterateWildcardNext (join_levels ((ls ++ [l]) ++ ["#"])) = Some (join_levels (ls ++ ["#"])).
Proof.
  intros Hl. unfold iterateWildcardNext. rewrite join_above, above_snoc. set (s := _ +:+ "#").
  assert (String.length s = String.length (above ls) + String.length l + 2)%nat as Hlen.
  { unfold s. rewrite !length_str_app. simpl. lia. }
  assert (s = above ls +:+ (l +:+ "/#")) as Hs by (unfold s; by rewrite !str_app_assoc).
  assert (∀ k, String.get (String.length (above ls) + String.length l + k) s = String.get k "/#") as Hget.
  { intros k. rewrite Hs, <-Nat.add_assoc, !get_app_r. done. }
  rewrite Hlen. rewrite bool_decide_eq_false_2 by lia. cbn [andb]. rewrite bool_decide_eq_true_2 by lia.
  replace (String.length (above ls) + String.length l + 2 - 1)%nat with (String.length (above ls) + String.length l + 1)%nat by lia.
  replace (String.length (above ls) + String.length l + 2 - 2)%nat with (String.length (above ls) + String.length l + 0)%nat by lia.
  rewrite !Hget, !bool_decide_eq_true_2 by done. cbn [andb]. rewrite Nat.add_0_r, Hs.
  rewrite <-(str_app_assoc _ l). assert (∀ n, (n <= String.length (above ls) + String.length l)%nat →
    slash_search ((above ls +:+ l) +:+ "/#") n = slash_search (above ls +:+ l) n) as Hsearch.
  { induction n as [|n IH]; intros Hn; [done|]. simpl. rewrite get_app_l by (rewrite length_str_app; lia). by rewrite IH by lia. }
  rewrite Hsearch by lia. rewrite slash_search_spec; [|apply above_ends|done|lia].
  by rewrite str_app_assoc, substring_app, join_above.
Qed.

Lemma next_end : iterateWildcardNext "#" = None.
Proof. done. Qed.

(** ** The enumeration *)

(** The wildcards above [ls]: all proper prefixes of the levels, longest first. *)
Fixpoint wildcards_above (ls : list string) (k : nat) : list string :=
  match k with O => [] | S k' => join_levels (take k' ls ++ ["#"]) :: wildcards_above ls k' end.

Lemma wildcards_above_elem ls k w : w ∈ wildcards_above ls k ↔ ∃ n, (n < k)%nat ∧ w = join_levels (take n ls ++ ["#"]).
Proof.
  induction k as [|k IH]; cbn [wildcards_above]; [rewrite elem_of_nil; split; [done|intros (?&?&_); lia]|].
  rewrite elem_of_cons, IH. split.
  - intros [->|(n & Hn & ->)]; eexists; (split; [|done]); lia.
  - intros (n & Hn & ->). destruct (decide (n = k)) as [->|]; [by left|right]. exists n. split; [lia|done].
Qed.

(** The levels of a string have no slash. *)
Lemma levels_slash_free s : Forall (λ l, has_char slash l = false) (levels s).
Proof.
  induction s as [|c s IH]; [by repeat constructor|]. simpl. destruct (Ascii.eqb_spec c slash) as [->|Hc]; [by constructor|].
  destruct (levels s) as [|l ls]; simpl.
  - constructor; [|done]. simpl. apply Ascii.eqb_neq in Hc. by rewrite Hc.
  - apply Forall_cons in IH as [Hl IH]. constructor; [|done]. simpl. apply Ascii.eqb_neq in Hc. by rewrite Hc.
Qed.

(** The buffers that follow [wcTopic]. *)
Fixpoint iterates (fuel : nat) (wcTopic : string) : option (list string) :=
  match fuel with
  | O => None
  | S fuel' =>
    match iterateWildcardNext wcTopic with
    | None => Some []
    | Some wcTopic' => cons wcTopic' <$> iterates fuel' wcTopic'
    end
  end.

Lemma iterates_above fuel ls k : Forall (λ l, has_char slash l = false) ls → (k < length ls)%nat → (k < fuel)%nat →
  iterates fuel (join_levels (take k ls ++ ["#"])) = Some (wildcards_above ls k).
Proof.
  intros Hls. revert k. induction fuel as [|fuel IH]; intros k Hk Hf; [lia|]. destruct k as [|k]; [done|].
  destruct (lookup_lt_is_Some_2 ls k ltac:(lia)) as [l Hl]. cbn [iterates wildcards_above].
  pose proof (Forall_lookup_1 _ _ _ _ Hls Hl) as Hs. cbv beta in Hs. rewrite (take_S_r _ _ _ Hl), next_wildcard by done.
  by rewrite IH by lia.
Qed.

Lemma wildcard_loop_iterates fuel p topic ws : iterates fuel topic = Some ws → wildcard_loop fuel p topic = Some (existsb p ws).
Proof.
  revert topic ws. induction fuel as [|fuel IH]; intros topic ws; [done|]. cbn.
  destruct (iterateWildcardNext topic) as [w|]; [|by intros [= <-]]. destruct (iterates fuel w) as [ws'|] eqn:Hw; [|done]. intros [= <-]. cbn.
  destruct (p w); [done|]. by apply IH.
Qed.

Lemma levels_length s : (length (levels s) <= S (String.length s))%nat.
Proof.
  induction s as [|c s IH]; [done|]. simpl. destruct (Ascii.eqb c slash); simpl; [lia|]. destruct (levels s); simpl in *; lia.
Qed.

(** The wildcards the loop tries: a topic that is itself a wildcard is not
    tried again. *)
Definition wildcards_of (topic : string) : list string :=
  wildcards_above (levels topic)
    (if bool_decide (last (levels topic) = Some "#") then pred (length (levels topic)) else length (levels topic)).

(** The enumeration terminates: the proper prefixes of the topic's levels with
    [#] behind them, longest first. *)
Lemma iterates_spec topic : iterates (String.length topic + 2) topic = Some (wildcards_of topic).
Proof.
  unfold wildcards_of. pose proof (levels_length topic) as Hlen. pose proof (levels_slash_free topic) as Hls.
  destruct (levels topic) as [|l ls _] eqn:E using rev_ind; [by destruct (levels_nonempty topic) as (?&?&?); congruence|].
  assert (topic = join_levels (ls ++ [l])) as Ht by (by rewrite <-E, join_levels_levels).
  pose proof Hls as Hls'. apply Forall_app in Hls' as [_ Hl%Forall_inv]. rewrite length_app in *. cbn [length] in *.
  rewrite last_snoc. replace (length ls + 1)%nat with (S (length ls)) in * by lia. case_bool_decide as Hp.
  - injection Hp as ->. pose proof (iterates_above (String.length topic + 2) (ls ++ ["#"]) (length ls) Hls) as Hloop.
    rewrite take_app_length, <-Ht in Hloop. cbn [pred]. apply Hloop; [rewrite length_app; cbn; lia|lia].
  - replace (String.length topic + 2)%nat with (S (S (String.length topic))) by lia. cbn [iterates wildcards_above].
    assert (iterateWildcardNext topic = Some (join_levels (ls ++ ["#"]))) as ->.
    { rewrite Ht. apply next_topic; [exact Hl|congruence]. }
    rewrite take_app_length.
    pose proof (iterates_above (S (String.length topic)) (ls ++ [l]) (length ls) Hls) as Hloop.
    rewrite take_app_length in Hloop. cbn [iterates] in Hloop. rewrite Hloop; [done|rewrite length_app; cbn; lia|lia].
Qed.

Lemma any_wildcard_spec p topic : any_wildcard p topic = Some (existsb p (wildcards_of topic)).
Proof. apply wildcard_loop_iterates, iterates_spec. Qed.

Lemma wildcards_of_isWildcard topic w : w ∈ wildcards_of topic → isWildcard w = true.
Proof.
  unfold wildcards_of. rewrite wildcards_above_elem. intros (n & _ & ->). rewrite join_above. unfold isWildcard.
  rewrite length_str_app, Nat.add_comm. cbn [String.length Nat.add].
  pose proof (get_app_r (above (take n (levels topic))) "#" 0) as Hg. rewrite Nat.add_0_r in Hg. rewrite Hg. by apply bool_decide_eq_true.
Qed.

Lemma any_wildcard_Some p topic : is_Some (any_wildcard p topic).
Proof. rewrite any_wildcard_spec. by eexists. Qed.

(** ** The enumeration and MQTT matching *)

(** A filter whose only wildcard is a final [#]. *)
Definition pound_filter (sub : string) : Prop :=
  ∃ ls, levels sub = ls ++ ["#"] ∧ Forall (λ l, l ≠ "+" ∧ l ≠ "#") ls.

Lemma level_match_pound ls ts : Forall (λ l, l ≠ "+" ∧ l ≠ "#") ls →
  level_match (ls ++ ["#"]) ts ↔ ∃ ts', ts = ls ++ ts'.
Proof.
  intros Hls. revert ts. induction Hls as [|l ls [Hp Hh] _ IH]; intros ts; cbn [app].
  - split; [intros _; by exists ts|intros _; constructor].
  - destruct ts as [|t ts].
    + split; [inversion 1; by destruct ls|intros (ts' & [=])].
    + rewrite level_match_lit_inv by done. rewrite IH. split; [intros [-> (ts' & ->)]; by exists ts'|intros (ts' & [= -> ->]); split; [done|by exists ts']].
Qed.

Lemma join_levels_inj ls ls' : ls ≠ [] → ls' ≠ [] → Forall (λ l, has_char slash l = false) ls →
  Forall (λ l, has_char slash l = false) ls' → join_levels ls = join_levels ls' → ls = ls'.
Proof.
  assert (∀ ls, ls ≠ [] → Forall (λ l, has_char slash l = false) ls → levels (join_levels ls) = ls) as Hl.
  { clear. assert (∀ l s, has_char slash l = false → levels (l +:+ String slash s) = l :: levels s) as Hone.
    { intros l s. induction l as [|c l IH]; intros Hl; [done|]. cbn [has_char] in Hl. apply orb_false_iff in Hl as [Hc Hl].
      rewrite str_app_cons. apply levels_char; [by apply Ascii.eqb_neq|by apply IH]. }
    assert (∀ l, has_char slash l = false → levels l = [l]) as Hlast.
    { intros l. induction l as [|c l IH]; intros Hl; [done|]. cbn [has_char] in Hl. apply orb_false_iff in Hl as [Hc Hl].
      apply levels_char; [by apply Ascii.eqb_neq|by apply IH]. }
    intros ls Hne Hf. induction Hf as [|l ls Hs Hf IH]; [done|]. destruct ls as [|m ls]; [by apply Hlast|].
    rewrite join_levels_cons, Hone by done. by rewrite IH. }
  intros H1 H2 Hf1 Hf2 Hj. rewrite <-(Hl ls H1 Hf1), <-(Hl ls' H2 Hf2). by rewrite Hj.
Qed.

(** Topic routing between brokers against MQTT matching. For a filter
    whose only wildcard is a final [#], the loop of the broker library finds
    the filter exactly when it matches the topic by the MQTT rules on levels,
    except the filter one level below the topic (["a/#"] for ["a"]), which
    matches but is never tried. *)
Theorem any_wildcard_matches topic sub : has_char hash topic = false → pound_filter sub →
  any_wildcard (String.eqb sub) topic = Some true ↔
    level_match (levels sub) (levels topic) ∧ sub ≠ topic +:+ "/#".
Proof.
  intros Hh (ls & Hsub & Hls). rewrite any_wildcard_spec. unfold wildcards_of. rewrite bool_decide_eq_false_2.
  2: { intros Hlast. pose proof (join_levels_levels topic) as Hj. apply last_Some in Hlast as [l' Hl'].
       rewrite Hl', join_above in Hj. rewrite <-Hj, has_char_app in Hh. simpl in Hh. by rewrite orb_true_r in Hh. }
  rewrite Hsub, level_match_pound by done.
  assert (sub = join_levels (ls ++ ["#"])) as Hjoin by (by rewrite <-Hsub, join_levels_levels).
  assert (Forall (λ l, has_char slash l = false) ls) as Hfree.
  { pose proof (levels_slash_free sub) as Hf. rewrite Hsub in Hf. by apply Forall_app in Hf as [Hf _]. }
  pose proof (levels_slash_free topic) as Hft.
  assert (topic +:+ "/#" = join_levels (levels topic ++ ["#"])) as Hbelow.
  { rewrite <-(join_levels_levels topic) at 1. destruct (levels topic) as [|l ts _] eqn:E using rev_ind; [by destruct (levels_nonempty topic) as (?&?&?); congruence|].
    rewrite (join_above (ts ++ [l])), above_snoc, join_above, !str_app_assoc. done. }
  assert (∀ ts, Forall (λ l, has_char slash l = false) ts → sub = join_levels (ts ++ ["#"]) ↔ ls = ts) as Heq.
  { intros ts Hts. rewrite Hjoin. split; [|by intros ->]. intros Hj.
    apply join_levels_inj in Hj; [by simplify_list_eq|by destruct ls|by destruct ts|by apply Forall_app_2; [|repeat constructor]..]. }
  rewrite Hbelow, (Heq _ Hft). transitivity (sub ∈ wildcards_above (levels topic) (length (levels topic))).
  { split.
    - intros [= Hex]. apply existsb_exists in Hex as (w & Hin & Hw). apply String.eqb_eq in Hw as ->. by apply list_elem_of_In.
    - intros Hin. f_equal. apply existsb_exists. exists sub. split; [by apply list_elem_of_In|by apply String.eqb_refl]. }
  rewrite wildcards_above_elem. split.
  - intros (n & Hn & Hw). apply Heq in Hw as ->; [|by apply Forall_take]. split.
    + exists (drop n (levels topic)). by rewrite take_drop.
    + intros Ht. apply (f_equal length) in Ht. rewrite length_take in Ht. lia.
  - intros [(ts & Hts) Hne]. exists (length ls). rewrite Hts in *. rewrite take_app_length.
    split; [|done]. rewrite length_app. destruct ts; [|simpl; lia]. by rewrite app_nil_r in Hne.
Qed.
