(* ===== verification/Authorization.v ===== *)
(** * Topic authorization

    [brokerlib/topicauthorization]: who may publish on a topic and who may
    subscribe to it. The policy maps topics, and wildcards, to the keys of
    clients; a topic that is not in the policy is open. *)

From S2P Require Import Prelude Topic CoreUtil.
From stdpp Require Import options.

(** ** The policy ([topicauthorizationstate.cpp]) *)

Notation TopicAuthorizationStateData := (gmap string (gset string)).

Record TopicAuthorizationState := mk_TopicAuthorizationState {
  ta_publishers : TopicAuthorizationStateData; ta_subscribers : TopicAuthorizationStateData;
  ta_isWildcardingEnabled : bool }.

Definition hasWildcards (stateData : TopicAuthorizationStateData) : bool :=
  existsb (λ e, isWildcard e.1) (map_to_list stateData).

(** The constructor. *)
Definition TopicAuthorizationState_new (publishers subscribers : TopicAuthorizationStateData) : TopicAuthorizationState :=
  mk_TopicAuthorizationState publishers subscribers (hasWildcards publishers || hasWildcards subscribers).

(** [isAuthorized]: the answer and whether the topic is in the policy. *)
Definition isAuthorized (state : TopicAuthorizationStateData) (key topic : string) : bool * bool :=
  match state !! topic with
  | None => (true, false)
  | Some keys => (bool_decide (key ∈ keys), true)
  end.
Definition state_isAuthorizedToPublish (s : TopicAuthorizationState) := isAuthorized (ta_publishers s).
Definition state_isAuthorizedToSubscribe (s : TopicAuthorizationState) := isAuthorized (ta_subscribers s).

(** ** The service ([topicauthorizationservice.cpp]) *)

(** The loop over the wildcards above the topic. *)
Fixpoint authorize_loop (fuel : nat) (isAuthorized : string → bool * bool) (wcTopic : string) (authorized : bool) : option bool :=
  match fuel with
  | O => None
  | S fuel' =>
    match iterateWildcardNext wcTopic with
    | None => Some authorized
    | Some wcTopic' =>
      let '(allowed, hit) := isAuthorized wcTopic' in
      if (allowed : bool) then if (hit : bool) then Some true else authorize_loop fuel' isAuthorized wcTopic' authorized
      else authorize_loop fuel' isAuthorized wcTopic' false
    end
  end.

(** [_isAuthorizedToSubscribe] and [_isAuthorizedToPublish], which differ in the
    map they consult. *)
Definition authorize (wildcarding : bool) (isAuthorized : string → bool * bool) (topic : string) : option bool :=
  let '(authorized, hit) := isAuthorized topic in
  if wildcarding then
    if hit && authorized then Some true
    else authorize_loop (String.length topic + 2) isAuthorized topic authorized
  else Some authorized.
Definition _isAuthorizedToSubscribe (s : TopicAuthorizationState) (key topic : string) : option bool :=
  authorize (ta_isWildcardingEnabled s) (state_isAuthorizedToSubscribe s key) topic.
Definition _isAuthorizedToPublish (s : TopicAuthorizationState) (key topic : string) : option bool :=
  authorize (ta_isWildcardingEnabled s) (state_isAuthorizedToPublish s key) topic.

(** The certificates of a client in turn ([HASH_ITER]). *)
Fixpoint any_cert (authorized : string → option bool) (certHashes : list string) : option bool :=
  match certHashes with
  | [] => Some false
  | cert :: certHashes' => b ← authorized cert; if (b : bool) then Some true else any_cert authorized certHashes'
  end.
(** A client by its certificates; without any, by the empty key. *)
Definition isAuthorizedToSubscribe_certs (s : TopicAuthorizationState) (certHashes : list string) (topic : string) : option bool :=
  match certHashes with [] => _isAuthorizedToSubscribe s "" topic | _ => any_cert (λ c, _isAuthorizedToSubscribe s c topic) certHashes end.
Definition isAuthorizedToPublish_certs (s : TopicAuthorizationState) (certHashes : list string) (topic : string) : option bool :=
  match certHashes with [] => _isAuthorizedToPublish s "" topic | _ => any_cert (λ c, _isAuthorizedToPublish s c topic) certHashes end.

(** [TopicAuthorizationService::setTopicState]: equal states are not replaced. *)
Definition setTopicState (newState : TopicAuthorizationState) (m_state : option TopicAuthorizationState) : option TopicAuthorizationState :=
  match m_state with
  | Some s => if bool_decide (ta_publishers newState = ta_publishers s) && bool_decide (ta_subscribers newState = ta_subscribers s)
              then m_state else Some newState
  | None => Some newState
  end.

(** ** What it means *)

(** [key] is let in by the topic or a wildcard above it, or nothing restricts
    the topic. *)
Definition permitted (policy : TopicAuthorizationStateData) (key topic : string) : Prop :=
  (∃ t keys, t ∈ topic :: wildcards_of topic ∧ policy !! t = Some keys ∧ key ∈ keys) ∨
  (∀ t, t ∈ topic :: wildcards_of topic → policy !! t = None).

Lemma hasWildcards_spec policy : hasWildcards policy = false ↔ ∀ t, isWildcard t = true → policy !! t = None.
Proof.
  unfold hasWildcards. rewrite <-not_true_iff_false, existsb_exists. split.
  - intros Hn t Ht. destruct (policy !! t) as [keys|] eqn:Hp; [|done]. exfalso. apply Hn. exists (t, keys).
    split; [by apply list_elem_of_In, elem_of_map_to_list|done].
  - intros Hall ([t keys] & Hin%list_elem_of_In%elem_of_map_to_list & Ht). cbn in Ht. rewrite Hall in Hin; done.
Qed.

(** The loop on the list of wildcards. *)
Lemma authorize_loop_spec policy key fuel topic ws b : iterates fuel topic = Some ws →
  ∃ b', authorize_loop fuel (isAuthorized policy key) topic b = Some b' ∧
  (b' = true ↔ (∃ t keys, t ∈ ws ∧ policy !! t = Some keys ∧ key ∈ keys) ∨ b = true ∧ ∀ t, t ∈ ws → policy !! t = None).
Proof.
  revert topic ws b. induction fuel as [|fuel IH]; intros topic ws b; [done|]. cbn. destruct (iterateWildcardNext topic) as [w|].
  2: { intros [= <-]. exists b. split; [done|]. split; [intros ->; right; split; [done|]; by intros t ?%elem_of_nil|].
       intros [(t & keys & ?%elem_of_nil & _)|[-> _]]; done. }
  destruct (iterates fuel w) as [ws'|] eqn:Hw; [|done]. intros [= <-]. unfold isAuthorized at 1. destruct (policy !! w) as [keys|] eqn:Hp.
  - case_bool_decide as Hk.
    + exists true. split; [done|]. split; [intros _|done]. left. exists w, keys. split; [by left|done].
    + destruct (IH w ws' false Hw) as (b' & -> & Hb'). exists b'. split; [done|]. rewrite Hb'. split.
      * intros [(t & ks & Ht & ?)|[? _]]; [left; exists t, ks; split; [by right|done]|done].
      * intros [(t & ks & [->|Ht]%elem_of_cons & Hpt & Hkt)|[_ Hall]]; [congruence|left; by exists t, ks|].
        rewrite Hall in Hp; [done|by left].
  - destruct (IH w ws' b Hw) as (b' & -> & Hb'). exists b'. split; [done|]. rewrite Hb'. split.
    + intros [(t & ks & Ht & ?)|[? Hall]]; [left; exists t, ks; split; [by right|done]|right]. split; [done|].
      intros t [->|Ht]%elem_of_cons; [done|by apply Hall].
    + intros [(t & ks & [->|Ht]%elem_of_cons & Hpt & Hkt)|[? Hall]]; [congruence|left; by exists t, ks|right]. split; [done|].
      intros t Ht. apply Hall. by right.
Qed.

Lemma authorize_spec policy key topic wildcarding : (wildcarding = false → hasWildcards policy = false) →
  ∃ b, authorize wildcarding (isAuthorized policy key) topic = Some b ∧ (b = true ↔ permitted policy key topic).
Proof.
  intros Hwild. unfold authorize, permitted. destruct wildcarding.
  - destruct (authorize_loop_spec policy key _ topic _ (isAuthorized policy key topic).1 (iterates_spec topic)) as (b & Hb & Hspec).
    unfold isAuthorized at 1. unfold isAuthorized at 2 in Hb. unfold isAuthorized in Hspec. destruct (policy !! topic) as [keys|] eqn:Hp; cbn [fst] in *.
    + case_bool_decide as Hk; cbn [andb].
      * exists true. split; [done|]. split; [intros _|done]. left. exists topic, keys. split; [by left|done].
      * exists b. split; [done|]. rewrite Hspec. split.
        -- intros [(t & ks & Ht & ?)|[? _]]; [left; exists t, ks; split; [by right|done]|done].
        -- intros [(t & ks & [->|Ht]%elem_of_cons & Hpt & Hkt)|Hall]; [congruence|left; by exists t, ks|]. rewrite Hall in Hp; [done|by left].
    + exists b. split; [done|]. rewrite Hspec. split.
      * intros [(t & ks & Ht & ?)|[_ Hall]]; [left; exists t, ks; split; [by right|done]|right]. intros t [->|Ht]%elem_of_cons; [done|by apply Hall].
      * intros [(t & ks & [->|Ht]%elem_of_cons & Hpt & Hkt)|Hall]; [congruence|left; by exists t, ks|right]. split; [done|].
        intros t Ht. apply Hall. by right.
  - pose proof (proj1 (hasWildcards_spec policy) (Hwild eq_refl)) as Hno. unfold isAuthorized.
    assert (∀ t, t ∈ wildcards_of topic → policy !! t = None) as Hw by (intros t Ht; by eapply Hno, wildcards_of_isWildcard).
    destruct (policy !! topic) as [keys|] eqn:Hp; eexists; (split; [done|]).
    + rewrite bool_decide_eq_true. split; [intros Hk; left; exists topic, keys; split; [by left|done]|].
      intros [(t & ks & [->|Ht]%elem_of_cons & Hpt & Hkt)|Hall]; [congruence|by rewrite Hw in Hpt|]. rewrite Hall in Hp; [done|by left].
    + split; [intros _; right|done]. intros t [->|Ht]%elem_of_cons; [done|by apply Hw].
Qed.

Lemma any_cert_spec f certs P : (∀ c, ∃ b, f c = Some b ∧ (b = true ↔ P c)) →
  ∃ b, any_cert f certs = Some b ∧ (b = true ↔ ∃ c, c ∈ certs ∧ P c).
Proof.
  intros Hf. induction certs as [|c certs (b & Hb & Hspec)]; [exists false; split; [done|]; split; [done|]; by intros (c & ?%elem_of_nil & _)|].
  cbn. destruct (Hf c) as (bc & -> & Hc). cbn. destruct bc.
  - exists true. split; [done|]. split; [intros _|done]. exists c. split; [by left|by apply Hc].
  - exists b. split; [done|]. rewrite Hspec. split; [intros (d & Hd & ?); exists d; split; [by right|done]|].
    intros (d & [->|Hd]%elem_of_cons & HP); [by apply Hc in HP|by exists d].
Qed.

(** C35: A client may publish on a topic exactly if the policy lets one of its
    keys in, by the topic or any wildcard above it, or if nothing in the policy
    restricts the topic; a permission by a wildcard stands even where the topic
    itself has a list without the client. The same goes for subscribing. That
    wildcards are searched only if the policy has some makes no difference. *)
Theorem authorization_correct publishers subscribers certHashes topic :
  let keys := match certHashes with [] => [""] | _ => certHashes end in
  let s := TopicAuthorizationState_new publishers subscribers in
  ∃ pub sub, isAuthorizedToPublish_certs s certHashes topic = Some pub ∧ isAuthorizedToSubscribe_certs s certHashes topic = Some sub ∧
    (pub = true ↔ ∃ key, key ∈ keys ∧ permitted publishers key topic) ∧
    (sub = true ↔ ∃ key, key ∈ keys ∧ permitted subscribers key topic).
Proof.
  intros keys s.
  assert (∀ key, ∃ b, _isAuthorizedToPublish s key topic = Some b ∧ (b = true ↔ permitted publishers key topic)) as Hpub.
  { intros key. apply authorize_spec. by intros [? _]%orb_false_iff. }
  assert (∀ key, ∃ b, _isAuthorizedToSubscribe s key topic = Some b ∧ (b = true ↔ permitted subscribers key topic)) as Hsub.
  { intros key. apply authorize_spec. by intros [_ ?]%orb_false_iff. }
  assert (∀ P : string → Prop, (∃ key, key ∈ [""] ∧ P key) ↔ P "") as Hone.
  { intros P. split; [intros (key & ->%list_elem_of_singleton & ?); done|intros ?; exists ""; split; [by left|done]]. }
  destruct certHashes as [|c certs].
  - destruct (Hpub "") as (p & Hp & Hp'), (Hsub "") as (q & Hq & Hq'). exists p, q. unfold keys. rewrite !Hone. by split_and!.
  - destruct (any_cert_spec _ (c :: certs) _ Hpub) as (p & Hp & Hp'), (any_cert_spec _ (c :: certs) _ Hsub) as (q & Hq & Hq').
    exists p, q. by split_and!.
Qed.
