(* ===== verification/Fabric.v ===== *)
(** * The broker registry

    [brokerlib/brokerregistry]: what a broker knows about the fabric of
    brokers. Every broker has a state ([brokerstate.cpp]): its connections,
    the topics somebody subscribes to on it, when it was last heard of. The
    registry ([brokerregistry.cpp]) finds routes through the fabric (with a
    cache, [cache.cpp]) and decides whether an event has a subscriber behind a
    bridge. The topic cache is in [TopicCache]. *)

From S2P Require Import Prelude Topic CoreUtil.
From stdpp Require Import options.

(** ** What the registry runs on *)

(** The settings it consults ([BrokerSettings]). *)
Record BrokerSettings := mk_BrokerSettings {
  set_guid : string; set_ttlInterval : Z; set_ttlGracePeriod : Z; set_topicRoutingEnabled : bool;
  set_topicRoutingCacheEnabled : bool; set_topicRoutingCacheClearDelay : Z; set_multiTenantModeEnabled : bool;
  set_tenantGuid : string; set_tenantByteLimit : Z; set_tenantConnectionLimit : Z; set_tenantServiceLimit : Z;
  set_tenantClientSubscriptionLimit : Z; set_instanceGuid : string; set_testModeEnabled : bool;
  set_messageSampleSecs : Z; set_brokerTtlMins : Z; set_brokerStateTopicsCharsBatchSize : Z; set_webSocketsListenPort : Z;
  set_sendConnectEvents : bool }.

(** The order in which an [unordered_set] or the keys of an [unordered_map]
    are iterated: not specified, but every element comes up once. *)
Class HashOrder := {
  hash_order : gset string → list string;
  hash_order_perm X : hash_order X ≡ₚ elements X }.

(** ** Brokers ([broker.h], [broker.cpp]) *)

Record Broker := mk_Broker {
  br_id : string; br_hostname : string; br_port : Z; br_ttl : Z; br_startTime : Z;
  br_policyHostname : string; br_policyIpAddress : string; br_policyHubName : string; br_policyPort : Z;
  br_webSocketPort : Z; br_brokerVersion : string; br_connectionLimit : Z; br_topicRoutingEnabled : bool }.
#[export] Instance eta_Broker : Eta Broker := λ r,
  mk_Broker (br_id r) (br_hostname r) (br_port r) (br_ttl r) (br_startTime r) (br_policyHostname r)
    (br_policyIpAddress r) (br_policyHubName r) (br_policyPort r) (br_webSocketPort r) (br_brokerVersion r)
    (br_connectionLimit r) (br_topicRoutingEnabled r).

(** ** Broker states ([brokerstate.h], [brokerstate.cpp]) *)

Record BrokerState := mk_BrokerState {
  bs_broker : Broker; bs_countedConnections : gmap string Z; bs_childConnections : gset string;
  bs_subscriptions : gset string; bs_subscriptionsWildcardCount : Z; bs_pendingSubscriptions : gset string;
  bs_pendingSubscriptionsWildcardCount : Z; bs_subscriptionsChangeCount : Z; bs_regTime : Z }.
#[export] Instance eta_BrokerState : Eta BrokerState := λ r,
  mk_BrokerState (bs_broker r) (bs_countedConnections r) (bs_childConnections r) (bs_subscriptions r)
    (bs_subscriptionsWildcardCount r) (bs_pendingSubscriptions r) (bs_pendingSubscriptionsWildcardCount r)
    (bs_subscriptionsChangeCount r) (bs_regTime r).

(** [BrokerState::BrokerState] for a broker without connections. *)
Definition BrokerState_new (broker : Broker) (now : Z) : BrokerState :=
  mk_BrokerState broker ∅ ∅ ∅ 0 ∅ 0 0 now.

Section state.
Context (settings : BrokerSettings) `{HashOrder}.

Definition isLocalBroker (b : Broker) : bool := String.eqb (br_id b) (set_guid settings).
Definition isTopicRoutingEnabled (b : Broker) : bool :=
  if isLocalBroker b then set_topicRoutingEnabled settings else br_topicRoutingEnabled b.

Definition BrokerState_addConnection (connectionId : string) (isChild : bool) (s : BrokerState) : BrokerState :=
  s <| bs_countedConnections ::= λ m,
      <[connectionId := match m !! connectionId with Some n => u32 (n + 1) | None => 1 end]> m |>
    <| bs_childConnections ::= λ c, if isChild then {[connectionId]} ∪ c else c |>.

Definition BrokerState_removeConnection (connectionId : string) (s : BrokerState) : BrokerState :=
  match bs_countedConnections s !! connectionId with
  | Some n =>
    if u32 (n - 1) =? 0
    then s <| bs_countedConnections ::= delete connectionId |>
           <| bs_childConnections ::= λ c, c ∖ {[connectionId]} |>
    else s <| bs_countedConnections ::= <[connectionId := u32 (n - 1)]> |>
  | None => s
  end.

Definition getConnections (s : BrokerState) : gset string := dom (bs_countedConnections s).

(** Whether anything changed, and the state. *)
Definition BrokerState_setConnections (connectionIds childConnectionIds : gset string) (s : BrokerState)
    : bool * BrokerState :=
  if bool_decide (connectionIds ≠ getConnections s) || bool_decide (childConnectionIds ≠ bs_childConnections s)
  then (true, foldl (λ s c, BrokerState_addConnection c (bool_decide (c ∈ childConnectionIds)) s)
                (s <| bs_countedConnections := ∅ |> <| bs_childConnections := ∅ |>) (hash_order connectionIds))
  else (false, s).

Definition BrokerState_addTopic (topic : string) (s : BrokerState) : bool * BrokerState :=
  if bool_decide (topic ∈ bs_subscriptions s) then (false, s)
  else (true, s <| bs_subscriptions ::= λ t, {[topic]} ∪ t |>
                <| bs_subscriptionsChangeCount ::= λ n, if isLocalBroker (bs_broker s) then u32 (n + 1) else n |>
                <| bs_subscriptionsWildcardCount ::= λ n, if isWildcard topic then u32 (n + 1) else n |>).

Definition BrokerState_removeTopic (topic : string) (s : BrokerState) : bool * BrokerState :=
  if bool_decide (topic ∈ bs_subscriptions s)
  then (true, s <| bs_subscriptions ::= λ t, t ∖ {[topic]} |>
                <| bs_subscriptionsChangeCount ::= λ n, if isLocalBroker (bs_broker s) then u32 (n + 1) else n |>
                <| bs_subscriptionsWildcardCount ::= λ n, if isWildcard topic then u32 (n - 1) else n |>)
  else (false, s).

Definition BrokerState_hasTopics (topics : gset string) (s : BrokerState) : bool :=
  forallb (λ t, bool_decide (t ∈ bs_subscriptions s)) (hash_order topics).

(** [difftime] against unsigned 32-bit arithmetic. *)
Definition isExpired (current : Z) (s : BrokerState) : bool :=
  if String.eqb (br_id (bs_broker s)) (set_guid settings) then false
  else u32 (u32 (br_ttl (bs_broker s) + set_ttlGracePeriod settings) * 60) <? current - bs_regTime s.

(** One call of [TopicsCallback::handleBatch]. *)
Record topics_batch := mk_topics_batch { tb_topics : gset string; tb_index : Z; tb_isFirst : bool; tb_isLast : bool }.

Fixpoint batch_loop (charCount size : Z) (topics : list string) (batch : gset string) (curCharCount count index : Z)
    (isFirst : bool) : list topics_batch :=
  match topics with
  | [] => []
  | t :: topics' =>
    let batch := {[t]} ∪ batch in
    let curCharCount := curCharCount + strlen t in
    let isLast := count =? size - 1 in
    if (charCount <=? curCharCount) || isLast
    then mk_topics_batch batch index isFirst isLast :: batch_loop charCount size topics' ∅ 0 (count + 1) (index + 1) false
    else batch_loop charCount size topics' batch curCharCount (count + 1) index isFirst
  end.

(** The calls [batchTopics] makes, in order. *)
Definition BrokerState_batchTopics (charCount : Z) (s : BrokerState) : list topics_batch :=
  let size := Z.of_nat (length (hash_order (bs_subscriptions s))) in
  if size =? 0 then [mk_topics_batch ∅ 0 true true]
  else batch_loop charCount size (hash_order (bs_subscriptions s)) ∅ 0 0 0 true.

Definition BrokerState_clearPendingTopics (s : BrokerState) : BrokerState :=
  s <| bs_pendingSubscriptions := ∅ |> <| bs_pendingSubscriptionsWildcardCount := 0 |>.
Definition BrokerState_addPendingTopics (subs : gset string) (wildcardCount : Z) (s : BrokerState) : BrokerState :=
  s <| bs_pendingSubscriptions ::= λ t, t ∪ subs |>
    <| bs_pendingSubscriptionsWildcardCount ::= λ n, u32 (n + wildcardCount) |>.
Definition BrokerState_swapPendingTopics (s : BrokerState) : BrokerState :=
  BrokerState_clearPendingTopics
    (s <| bs_subscriptions := bs_pendingSubscriptions s |>
       <| bs_subscriptionsWildcardCount := bs_pendingSubscriptionsWildcardCount s |>).
End state.

(** ** Reading the registry *)

Section reads.
Context (settings : BrokerSettings) `{HashOrder} (m_registry : gmap string BrokerState).

Definition registered (brokerId : string) : bool :=
  negb (String.eqb brokerId "") && bool_decide (is_Some (m_registry !! brokerId)).

Definition registry_hasConnection (brokerId connectionId : string) : bool :=
  negb (String.eqb brokerId "") && negb (String.eqb connectionId "") &&
  match m_registry !! brokerId with
  | Some s => bool_decide (is_Some (bs_countedConnections s !! connectionId))
  | None => false
  end.

Definition registry_hasTopic (brokerId topic : string) : bool :=
  match m_registry !! brokerId with Some s => bool_decide (topic ∈ bs_subscriptions s) | None => false end.

(** [FindPathToBrokerHelper::visitConnection] over the connections of
    [start]: the first route found stays. *)
Fixpoint find_from (findPathToBroker : string → ST (gset string) (option (list string))) (start : string)
    (connections : list string) (found : option (list string)) : ST (gset string) (option (list string)) :=
  match connections with
  | [] => mret found
  | connectionId :: connections' =>
    visited ← gets id;
    found ← (if bool_decide (found = None) && bool_decide (connectionId ∉ visited)
             then r ← findPathToBroker connectionId; mret (fmap (cons start) r)
             else mret found);
    find_from findPathToBroker start connections' found
  end.

(** [findPathToBroker]: a stack with [start] on top, or no route. *)
Fixpoint findPathToBroker (fuel : nat) (finish start : string) : ST (gset string) (option (list string)) :=
  if String.eqb start finish then mret (Some [finish])
  else match fuel with
  | O => ub
  | S fuel' =>
    modify (λ visited, {[start]} ∪ visited);;
    match m_registry !! start with
    | Some s => find_from (findPathToBroker fuel' finish) start (hash_order (getConnections s)) None
    | None => mret None
    end
  end.

(** [BrokerRegistry::FabricVisitor]: [visit] also returns whether to go on. *)
Record FabricVisitor (A : Type) := mk_FabricVisitor {
  allowVisit : string → bool;
  visit : string → A → bool * A }.
#[global] Arguments allowVisit {A}.
#[global] Arguments visit {A}.
#[global] Arguments mk_FabricVisitor {A}.

(** [DepthFirstTraversalHelper::visitConnection] over the connections. *)
Fixpoint traverse_from {A} (visitor : FabricVisitor A) (traverse : string → ST (gset string * A) bool)
    (connections : list string) : ST (gset string * A) bool :=
  match connections with
  | [] => mret true
  | connectionId :: connections' =>
    s ← gets id;
    go ← (if bool_decide (connectionId ∉ s.1) && allowVisit visitor connectionId
          then traverse connectionId else mret true);
    if (go : bool) then traverse_from visitor traverse connections' else mret false
  end.

Fixpoint _depthFirstTraversal {A} (fuel : nat) (visitor : FabricVisitor A) (start : string)
    : ST (gset string * A) bool :=
  match fuel with
  | O => ub
  | S fuel' =>
    modify (λ s, ({[start]} ∪ s.1, s.2));;
    go ← (λ s, let '(b, a) := visit visitor start s.2 in Some (b, (s.1, a)));
    if negb go then mret false
    else match m_registry !! start with
         | Some s => traverse_from visitor (_depthFirstTraversal fuel' visitor) (hash_order (getConnections s))
         | None => mret true
         end
  end.

(** [depthFirstTraversal]: the visitor's state at the end. *)
Definition depthFirstTraversal {A} (visitor : FabricVisitor A) (start : string) (a : A) : option A :=
  if allowVisit visitor start
  then (λ r, r.2.2) <$> _depthFirstTraversal (S (size m_registry)) visitor start (∅, a)
  else Some a.

(** [isSubscriberInBroker]. *)
Definition isSubscriberInBroker (brokerId topic : string) : option bool :=
  match m_registry !! brokerId with
  | None => Some false
  | Some state =>
    if negb (isTopicRoutingEnabled settings (bs_broker state)) || bool_decide (topic ∈ bs_subscriptions state)
    then Some true
    else if 0 <? bs_subscriptionsWildcardCount state
    then any_wildcard (λ wcTopic, bool_decide (wcTopic ∈ bs_subscriptions state)) topic
    else Some false
  end.

(** [FindSubscriberVisitor]; its state is [m_found] ([None] if a wildcard loop
    ran out of fuel). *)
Definition FindSubscriberVisitor (broker topic : string) : FabricVisitor (option bool) :=
  mk_FabricVisitor (λ to_, negb (String.eqb to_ broker))
    (λ to_ found, match isSubscriberInBroker to_ topic with
                  | Some true => (false, Some true)
                  | Some false => (true, found)
                  | None => (false, None)
                  end).

(** The traversal of [isSubscriberInHierarchy]. *)
Definition findSubscriber (brokerId connection topic : string) : option bool :=
  found ← depthFirstTraversal (FindSubscriberVisitor brokerId topic) connection (Some false); found.
End reads.
