(* ===== verification/TopicCache.v ===== *)
(** * The topic cache

    [brokerlib/brokerregistry/topiccache]: for every broker and every bridge
    of it, the topics somebody behind the bridge subscribes to, so that
    routing an event does not search the fabric. A bridge's cache
    ([BrokerBridgeTopicCache.cpp]) is built in steps, one broker per query; the
    service ([TopicCacheService.cpp]) is switched off for a while whenever the
    fabric changes. *)

From S2P Require Import Prelude Topic CoreUtil Fabric.
From stdpp Require Import options.

Inductive CacheState := Start | Building | Completed.
#[export] Instance CacheState_eq_dec : EqDecision CacheState.
Proof. solve_decision. Defined.

(** [BrokerBridgeTopicCache]; [bc_brokersIter] is what [m_brokersIter] has
    still to visit. *)
Record BrokerBridgeTopicCache := mk_BrokerBridgeTopicCache {
  bc_brokerId : string; bc_bridgeId : string; bc_brokers : gset string; bc_cachedBrokers : gset string;
  bc_topics : gset string; bc_wildcardCount : Z; bc_topicRoutingEnabled : bool; bc_state : CacheState;
  bc_brokersIter : list string }.
#[export] Instance eta_BrokerBridgeTopicCache : Eta BrokerBridgeTopicCache := λ r,
  mk_BrokerBridgeTopicCache (bc_brokerId r) (bc_bridgeId r) (bc_brokers r) (bc_cachedBrokers r) (bc_topics r)
    (bc_wildcardCount r) (bc_topicRoutingEnabled r) (bc_state r) (bc_brokersIter r).

Definition BrokerBridgeTopicCache_new (brokerId bridgeId : string) : BrokerBridgeTopicCache :=
  mk_BrokerBridgeTopicCache brokerId bridgeId ∅ ∅ ∅ 0 true Start [].

Section bridge_cache.
Context (settings : BrokerSettings) `{HashOrder} (m_registry : gmap string BrokerState).

(** [FindBrokersVisitor]: the brokers seen and whether all of them route by
    topic. *)
Definition FindBrokersVisitor (broker : string) : FabricVisitor (gset string * bool) :=
  mk_FabricVisitor (λ to_, negb (String.eqb to_ broker))
    (λ to_ s,
      match m_registry !! to_ with
      | Some state =>
        if isTopicRoutingEnabled settings (bs_broker state) then (true, ({[to_]} ∪ s.1, s.2))
        else (false, ({[to_]} ∪ s.1, false))
      | None => (true, ({[to_]} ∪ s.1, s.2))
      end).

(** [BrokerBridgeTopicCache::_addTopic]. *)
Definition cache_insert (c : BrokerBridgeTopicCache) (topic : string) : BrokerBridgeTopicCache :=
  if bool_decide (topic ∈ bc_topics c) then c
  else c <| bc_topics ::= λ t, {[topic]} ∪ t |> <| bc_wildcardCount ::= λ n, if isWildcard topic then n + 1 else n |>.

(** The [Start] step. *)
Definition cache_start (c : BrokerBridgeTopicCache) : option BrokerBridgeTopicCache :=
  r ← depthFirstTraversal m_registry (FindBrokersVisitor (bc_brokerId c)) (bc_bridgeId c) (bc_brokers c, bc_topicRoutingEnabled c);
  let iter := hash_order r.1 in
  Some (c <| bc_brokers := r.1 |> <| bc_topicRoutingEnabled := r.2 |> <| bc_brokersIter := iter |>
          <| bc_state := if r.2 && bool_decide (iter ≠ []) then Building else Completed |>).

(** The [Building] step: the topics of the next broker; [None] past the end. *)
Definition cache_build (c : BrokerBridgeTopicCache) : option BrokerBridgeTopicCache :=
  match bc_brokersIter c with
  | [] => None
  | b :: iter =>
    let c := match m_registry !! b with
             | Some state => foldl cache_insert c (hash_order (bs_subscriptions state)) <| bc_cachedBrokers ::= λ s, {[b]} ∪ s |>
             | None => c
             end in
    Some (c <| bc_brokersIter := iter |> <| bc_state := if bool_decide (iter = []) then Completed else bc_state c |>)
  end.

(** [buildCacheIncrement]; the result is whether the cache is complete. *)
Definition buildCacheIncrement (c : BrokerBridgeTopicCache) : option (bool * BrokerBridgeTopicCache) :=
  c ← (match bc_state c with Completed => Some c | Start => cache_start c | Building => cache_build c end);
  Some (bool_decide (bc_state c = Completed), c).

Definition containsBroker (brokerId : string) (c : BrokerBridgeTopicCache) : bool := bool_decide (brokerId ∈ bc_brokers c).
Definition isBrokerCached (brokerId : string) (c : BrokerBridgeTopicCache) : bool :=
  if bool_decide (bc_state c = Completed) then containsBroker brokerId c else bool_decide (brokerId ∈ bc_cachedBrokers c).

(** [addTopic], [removeTopic]: whether the broker belongs to this cache. *)
Definition bridge_addTopic (brokerId topic : string) (c : BrokerBridgeTopicCache) : bool * BrokerBridgeTopicCache :=
  if containsBroker brokerId c then
    (true,
     if bc_topicRoutingEnabled c && isBrokerCached brokerId c && bool_decide (topic ∉ bc_topics c)
        && registry_hasTopic m_registry brokerId topic
     then cache_insert c topic else c)
  else (false, c).

Definition bridge_removeTopic (brokerId topic : string) (c : BrokerBridgeTopicCache) : bool * BrokerBridgeTopicCache :=
  if containsBroker brokerId c then
    (true,
     if bc_topicRoutingEnabled c && isBrokerCached brokerId c && bool_decide (topic ∈ bc_topics c)
        && negb (registry_hasTopic m_registry brokerId topic)
        && negb (existsb (λ b, registry_hasTopic m_registry b topic) (hash_order (bc_cachedBrokers c)))
     then c <| bc_topics ::= λ t, t ∖ {[topic]} |> <| bc_wildcardCount ::= λ n, if isWildcard topic then n - 1 else n |>
     else c)
  else (false, c).

(** [isSubscriber]: whether the cache could answer, and its answer. *)
Definition bridge_isSubscriber (topic : string) (c : BrokerBridgeTopicCache) : option (bool * bool * BrokerBridgeTopicCache) :=
  r ← buildCacheIncrement c;
  let '(complete, c) := r in
  if negb complete then Some (false, false, c)
  else
    found ← (if negb (bc_topicRoutingEnabled c) || bool_decide (topic ∈ bc_topics c) then Some true
             else if 0 <? bc_wildcardCount c then any_wildcard (λ wcTopic, bool_decide (wcTopic ∈ bc_topics c)) topic
             else Some false);
    Some (true, found, c).
End bridge_cache.

(** ** The caches of a broker ([BrokerTopicCache]) *)

Record BrokerTopicCache := mk_BrokerTopicCache {
  tc_brokerId : string; tc_bridges : gmap string BrokerBridgeTopicCache }.
#[export] Instance eta_BrokerTopicCache : Eta BrokerTopicCache := λ r, mk_BrokerTopicCache (tc_brokerId r) (tc_bridges r).

(** ** The service ([TopicCacheService]) *)

Record TopicCacheService := mk_TopicCacheService {
  ts_brokerCacheById : gmap string BrokerTopicCache; ts_wasEnabled : bool; ts_enabledTime : Z }.
#[export] Instance eta_TopicCacheService : Eta TopicCacheService := λ r,
  mk_TopicCacheService (ts_brokerCacheById r) (ts_wasEnabled r) (ts_enabledTime r).

Section service.
Context (settings : BrokerSettings) `{HashOrder} (m_registry : gmap string BrokerState).

(** The bridge caches of a broker in turn, up to the one that takes the topic. *)
Fixpoint first_bridge (f : BrokerBridgeTopicCache → bool * BrokerBridgeTopicCache) (bridges : list string)
    (m : gmap string BrokerBridgeTopicCache) : gmap string BrokerBridgeTopicCache :=
  match bridges with
  | [] => m
  | b :: bridges' =>
    match m !! b with
    | Some c => let '(taken, c') := f c in
                if (taken : bool) then <[b := c']> m else first_bridge f bridges' (<[b := c']> m)
    | None => first_bridge f bridges' m
    end
  end.
Definition broker_addTopic (brokerId topic : string) (t : BrokerTopicCache) : BrokerTopicCache :=
  t <| tc_bridges ::= λ m, first_bridge (bridge_addTopic m_registry brokerId topic) (hash_order (dom m)) m |>.
Definition broker_removeTopic (brokerId topic : string) (t : BrokerTopicCache) : BrokerTopicCache :=
  t <| tc_bridges ::= λ m, first_bridge (bridge_removeTopic m_registry brokerId topic) (hash_order (dom m)) m |>.

(** [checkEnabled( true )] and [clearCache], which call each other no further. *)
Definition now_enabled (now : Z) (s : TopicCacheService) : bool :=
  set_topicRoutingCacheEnabled settings && ((ts_enabledTime s =? 0) || (ts_enabledTime s <? now)).
Definition check_for_clear (now : Z) (s : TopicCacheService) : bool * TopicCacheService :=
  let enabled := now_enabled now s in
  (enabled, s <| ts_enabledTime ::= λ t, if enabled then 0 else t |> <| ts_wasEnabled := enabled |>).
Definition clearCache (now : Z) (s : TopicCacheService) : TopicCacheService :=
  let '(enabled, s) := check_for_clear now s in
  if (enabled : bool) then s <| ts_brokerCacheById := ∅ |> else s.

(** [checkEnabled()]; [now] is read when it looks at the clock. *)
Definition checkEnabled (now : Z) (s : TopicCacheService) : bool * TopicCacheService :=
  let enabled := now_enabled now s in
  let s := s <| ts_enabledTime ::= λ t, if enabled then 0 else t |> in
  let s := if negb (ts_wasEnabled s) && enabled then clearCache now s else s in
  (enabled, s <| ts_wasEnabled := enabled |>).

(** [clearCacheWithDelay()], which looks at the clock a second time. *)
Definition clearCacheWithDelay (now later : Z) (s : TopicCacheService) : TopicCacheService :=
  let d := set_topicRoutingCacheClearDelay settings in
  clearCache now s <| ts_enabledTime := if 0 <? d then u32 (later + d) else 0 |>.

Definition service_addTopic (now : Z) (brokerId topic : string) (s : TopicCacheService) : TopicCacheService :=
  let '(enabled, s) := checkEnabled now s in
  if (enabled : bool) then s <| ts_brokerCacheById ::= fmap (broker_addTopic brokerId topic) |> else s.
Definition service_removeTopic (now : Z) (brokerId topic : string) (s : TopicCacheService) : TopicCacheService :=
  let '(enabled, s) := checkEnabled now s in
  if (enabled : bool) then s <| ts_brokerCacheById ::= fmap (broker_removeTopic brokerId topic) |> else s.

(** [getBrokerCache] and [getBridgeCache]: found or made, if they may be. *)
Definition getBrokerCache (brokerId : string) (s : TopicCacheService) : option BrokerTopicCache :=
  match ts_brokerCacheById s !! brokerId with
  | Some t => Some t
  | None => if registered m_registry brokerId then Some (mk_BrokerTopicCache brokerId ∅) else None
  end.
Definition getBridgeCache (bridgeId : string) (t : BrokerTopicCache) : option BrokerBridgeTopicCache :=
  match tc_bridges t !! bridgeId with
  | Some c => Some c
  | None => if registry_hasConnection m_registry (tc_brokerId t) bridgeId
            then Some (BrokerBridgeTopicCache_new (tc_brokerId t) bridgeId) else None
  end.

(** [TopicCacheService::isSubscriber]: whether the cache answers, its answer. *)
Definition service_isSubscriber (now : Z) (brokerId bridgeId topic : string) (s : TopicCacheService)
    : option (bool * bool * TopicCacheService) :=
  let '(enabled, s) := checkEnabled now s in
  if negb enabled then Some (false, false, s)
  else match getBrokerCache brokerId s with
  | None => Some (false, false, s)
  | Some t =>
    let put (t : BrokerTopicCache) := s <| ts_brokerCacheById ::= <[brokerId := t]> |> in
    match getBridgeCache bridgeId t with
    | None => Some (false, false, put t)
    | Some c =>
      r ← bridge_isSubscriber settings m_registry topic c;
      let '(answered, found, c) := r in
      Some (answered, found, put (t <| tc_bridges ::= <[bridgeId := c]> |>))
    end
  end.
End service.
