(* ===== verification/Registry.v ===== *)
(** * The operations of the broker registry

    [brokerlib/brokerregistry/src/brokerregistry.cpp] and the routing cache of
    [cache.cpp]; the decisions [brokerlib/core/src/CoreInterface.cpp] takes with
    them when a bridge comes or goes. *)

From S2P Require Import Prelude Topic CoreUtil Fabric TopicCache.
From stdpp Require Import options.

(** [BrokerRegistry]. [rg_clock] is what later looks at the clock will show. *)
Record BrokerRegistry := mk_BrokerRegistry {
  rg_registry : gmap string BrokerState; rg_ttlCheckTime : Z; rg_cache : gmap (string * string) string;
  rg_topicCacheService : TopicCacheService; rg_localBrokerHostName : string; rg_localBrokerIpAddress : string;
  rg_localBrokerHub : string; rg_localBrokerPort : Z; rg_localBrokerWebSocketPort : Z;
  rg_localManagingEpoName : string; rg_localBrokerConnectionLimit : Z; rg_clock : nat → Z }.
#[export] Instance eta_BrokerRegistry : Eta BrokerRegistry := λ r,
  mk_BrokerRegistry (rg_registry r) (rg_ttlCheckTime r) (rg_cache r) (rg_topicCacheService r)
    (rg_localBrokerHostName r) (rg_localBrokerIpAddress r) (rg_localBrokerHub r) (rg_localBrokerPort r)
    (rg_localBrokerWebSocketPort r) (rg_localManagingEpoName r) (rg_localBrokerConnectionLimit r) (rg_clock r).

Section registry.
Context (settings : BrokerSettings) `{HashOrder}.

(** [time(2)], [TimeUtil::getCurrentTimeSeconds]. *)
Definition look_at_clock : ST BrokerRegistry Z := λ r, Some (rg_clock r 0%nat, r <| rg_clock := λ n, rg_clock r (S n) |>).

(** ** The routing cache ([cache.cpp]) *)

Definition Cache_add (from_ to_ next : string) (m : gmap (string * string) string) : gmap (string * string) string :=
  if negb (String.eqb from_ "") && negb (String.eqb to_ "") && negb (String.eqb next "")
  then <[(from_, to_) := next]> m else m.
Definition Cache_get (from_ to_ : string) (m : gmap (string * string) string) : string :=
  if negb (String.eqb from_ "") && negb (String.eqb to_ "") then default "" (m !! (from_, to_)) else "".
(** [invalidate( from, to )]: the path and the routes over it. *)
Definition Cache_invalidate (from_ to_ : string) (m : gmap (string * string) string) : gmap (string * string) string :=
  if negb (String.eqb from_ "") && negb (String.eqb to_ "")
  then filter (λ e, ¬ ((e.1.1 = to_ ∨ e.1.2 = to_) ∧ e.2 = from_)) (delete (from_, to_) m) else m.

Definition clear_topic_cache : ST BrokerRegistry () :=
  now ← look_at_clock; later ← look_at_clock;
  modify (λ r, r <| rg_topicCacheService ::= clearCacheWithDelay settings now later |>).

Definition clearAllCaches : ST BrokerRegistry () :=
  modify (λ r, r <| rg_cache := ∅ |>);; clear_topic_cache.

(** Changing the state of a broker. *)
Definition put_state (brokerId : string) (s : BrokerState) : ST BrokerRegistry () :=
  modify (λ r, r <| rg_registry ::= <[brokerId := s]> |>).
(** The pattern of most operations: look the broker up, false if absent. *)
Definition with_broker (brokerId : string) (f : BrokerState → ST BrokerRegistry bool) : ST BrokerRegistry bool :=
  r ← gets rg_registry;
  match r !! brokerId with Some s => f s | None => mret false end.

(** ** Brokers *)

(** [addBroker]: [b] carries the arguments. *)
Definition addBroker (b : Broker) : ST BrokerRegistry bool :=
  if negb (String.eqb (br_id b) "") && negb (String.eqb (br_hostname b) "") then
    r ← gets rg_registry;
    (match r !! br_id b with
     | Some s =>
       if br_startTime (bs_broker s) =? br_startTime b then
         (if negb (Bool.eqb (isTopicRoutingEnabled settings (bs_broker s)) (br_topicRoutingEnabled b))
          then clear_topic_cache else mret tt);;
         put_state (br_id b) (s <| bs_broker := b <| br_id := br_id (bs_broker s) |> |>)
       else now ← look_at_clock; put_state (br_id b) (BrokerState_new b now);; clearAllCaches
     | None => now ← look_at_clock; put_state (br_id b) (BrokerState_new b now);; clearAllCaches
     end);;
    gets (λ r, registered (rg_registry r) (br_id b))
  else mret false.

Definition removeBroker (brokerId : string) : ST BrokerRegistry bool :=
  r ← gets rg_registry;
  if registered r brokerId then
    modify (λ g, g <| rg_registry ::= λ m, delete brokerId (map_imap (λ id s,
      Some (if String.eqb id (set_guid settings) then s else BrokerState_removeConnection brokerId s)) m) |>);;
    clearAllCaches;;
    mret true
  else mret false.

Definition registry_updateTtl (brokerId : string) (ttl : Z) : ST BrokerRegistry bool :=
  with_broker brokerId (λ s, put_state brokerId (s <| bs_broker ::= λ b, b <| br_ttl := ttl |> |>);; mret true).

Definition updateRegistrationTime (brokerId : string) : ST BrokerRegistry bool :=
  with_broker brokerId (λ s, now ← look_at_clock; put_state brokerId (s <| bs_regTime := now |>);; mret true).

(** ** Connections *)

Definition addConnection (brokerId connectionId : string) (isChild : bool) : ST BrokerRegistry bool :=
  if String.eqb connectionId "" then mret false
  else with_broker brokerId (λ s,
    put_state brokerId (BrokerState_addConnection connectionId isChild s);; clearAllCaches;; mret true).

Definition removeConnection (brokerId connectionId : string) : ST BrokerRegistry bool :=
  if String.eqb connectionId "" then mret false
  else with_broker brokerId (λ s,
    put_state brokerId (BrokerState_removeConnection connectionId s);; clearAllCaches;; mret true).

Definition setConnections (brokerId : string) (connectionIds childConnectionIds : gset string) : ST BrokerRegistry bool :=
  with_broker brokerId (λ s,
    let '(changed, s') := BrokerState_setConnections connectionIds childConnectionIds s in
    put_state brokerId s';; (if (changed : bool) then clearAllCaches else mret tt);; mret true).

(** ** Routes *)

(** [getNextBroker]; [pop] and [top] of an empty stack are undefined. *)
Definition getNextBroker (from_ to_ : string) : ST BrokerRegistry string :=
  r ← gets rg_registry;
  if negb (String.eqb from_ "") && negb (String.eqb to_ "") && registered r from_ && registered r to_ then
    if String.eqb from_ to_ then mret to_
    else
      cached ← gets (λ g, Cache_get from_ to_ (rg_cache g));
      if negb (String.eqb cached "") then mret cached
      else
        ret ← deref (λ _, findPathToBroker r (S (size r)) to_ from_ ∅);
        match ret.1 with
        | None => mret ""
        | Some path =>
          next ← deref (λ _, head (tail path));
          modify (λ g, g <| rg_cache ::= Cache_add from_ to_ next |>);;
          mret next
        end
  else mret "".

(** [CoreInterface::isBridgeConnectAllowed]: no second route to a broker. *)
Definition isBridgeConnectAllowed (brokerId : string) : ST BrokerRegistry bool :=
  nextBroker ← getNextBroker (set_guid settings) brokerId;
  mret (String.eqb nextBroker "").

(** ** Maintenance *)

Fixpoint expire_loop (ids : list string) : ST BrokerRegistry () :=
  match ids with
  | [] => mret tt
  | id :: ids' =>
    now ← look_at_clock;
    r ← gets rg_registry;
    (match r !! id with
     | Some s => if isExpired settings now s then removeBroker id;; mret tt else mret tt
     | None => mret tt
     end);;
    expire_loop ids'
  end.

Definition onCoreMaintenance (time : Z) : ST BrokerRegistry () :=
  last ← gets rg_ttlCheckTime;
  if set_ttlInterval settings * 60 <=? time - last then
    modify (λ r, r <| rg_ttlCheckTime := time |>);;
    r ← gets rg_registry;
    expire_loop (hash_order (dom r))
  else mret tt.

(** ** Topics *)

Definition addTopic (brokerId topic : string) : ST BrokerRegistry bool :=
  with_broker brokerId (λ s,
    let '(changed, s') := BrokerState_addTopic settings topic s in
    put_state brokerId s';;
    if (changed : bool) then
      now ← look_at_clock;
      modify (λ r, r <| rg_topicCacheService ::= service_addTopic settings (rg_registry r) now brokerId topic |>);;
      mret true
    else mret false).

Definition removeTopic (brokerId topic : string) : ST BrokerRegistry bool :=
  with_broker brokerId (λ s,
    let '(changed, s') := BrokerState_removeTopic settings topic s in
    put_state brokerId s';;
    if (changed : bool) then
      now ← look_at_clock;
      modify (λ r, r <| rg_topicCacheService ::= service_removeTopic settings (rg_registry r) now brokerId topic |>);;
      mret true
    else mret false).

Definition batchTopics (brokerId : string) (charCount : Z) : ST BrokerRegistry (option (list topics_batch)) :=
  r ← gets rg_registry;
  mret (match r !! brokerId with Some s => Some (BrokerState_batchTopics charCount s) | None => None end).

Definition clearPendingTopics (brokerId : string) : ST BrokerRegistry bool :=
  with_broker brokerId (λ s, put_state brokerId (BrokerState_clearPendingTopics s);; mret true).
Definition addPendingTopics (brokerId : string) (subs : gset string) (wildcardCount : Z) : ST BrokerRegistry bool :=
  with_broker brokerId (λ s, put_state brokerId (BrokerState_addPendingTopics subs wildcardCount s);; mret true).
Definition swapPendingTopics (brokerId : string) : ST BrokerRegistry bool :=
  with_broker brokerId (λ s, put_state brokerId (BrokerState_swapPendingTopics s);; clear_topic_cache;; mret true).
Definition setTopicsChangeCount (brokerId : string) (changeCount : Z) : ST BrokerRegistry bool :=
  with_broker brokerId (λ s, put_state brokerId (s <| bs_subscriptionsChangeCount := changeCount |>);; mret true).

(** [isSubscriberInHierarchy]: from the topic cache, or by search. *)
Definition isSubscriberInHierarchy (brokerId connection topic : string) : ST BrokerRegistry bool :=
  now ← look_at_clock;
  r ← gets id;
  res ← deref (λ _, service_isSubscriber settings (rg_registry r) now brokerId connection topic (rg_topicCacheService r));
  let '(answered, found, service) := res in
  modify (λ r, r <| rg_topicCacheService := service |>);;
  if (answered : bool) then mret (found : bool)
  else deref (λ _, findSubscriber settings (rg_registry r) brokerId connection topic).

(** ** The local broker *)

Definition setLocalBrokerProperties (hostName ipAddress hub : string) (port webSocketPort : Z) : ST BrokerRegistry () :=
  modify (λ r, r <| rg_localBrokerHostName := hostName |> <| rg_localBrokerIpAddress := ipAddress |>
    <| rg_localBrokerHub := hub |> <| rg_localBrokerPort := port |> <| rg_localBrokerWebSocketPort := webSocketPort |>).
Definition setLocalManagingEpoName (managingEpoName : string) : ST BrokerRegistry () :=
  modify (λ r, r <| rg_localManagingEpoName := managingEpoName |>).
Definition setLocalBrokerConnectionLimit (limit : Z) : ST BrokerRegistry () :=
  modify (λ r, r <| rg_localBrokerConnectionLimit := u32 limit |>).

(** ** Messages about brokers *)

(** [BrokerStateEventHandler]: a broker announces itself. *)
Definition on_broker_state (isLocalBrokerSource : bool) (b : Broker) (connections childConnections : gset string)
    : ST BrokerRegistry () :=
  if isLocalBrokerSource then mret tt
  else addBroker b;; setConnections (br_id b) connections childConnections;; updateRegistrationTime (br_id b);; mret tt.

(** A batch of topics in transit ([BrokerStateTopicsSender],
    [BrokerStateTopicsEventPayload] and its message headers). *)
Record topics_event := mk_topics_event {
  te_startTime : Z; te_changeCount : Z; te_stateStart : bool; te_stateEnd : bool; te_topics : list string }.

(** The events the sender makes of the batches of its state. *)
Definition topics_events (charCount : Z) (s : BrokerState) : list topics_event :=
  map (λ b, mk_topics_event (br_startTime (bs_broker s)) (bs_subscriptionsChangeCount s) (tb_isFirst b) (tb_isLast b)
              (hash_order (tb_topics b)))
    (BrokerState_batchTopics charCount s).

(** [BrokerStateTopicsEventPayload::read]: the set of topics and how many of
    those read have a wildcard. *)
Definition read_topics (topics : list string) : gset string * Z :=
  foldl (λ r t, ({[t]} ∪ r.1, if isWildcard t then u32 (r.2 + 1) else r.2)) (∅, 0) topics.

(** [BrokerStateTopicsEventHandler]. *)
Definition on_broker_topics (isLocalBrokerSource : bool) (brokerGuid : string) (e : topics_event) : ST BrokerRegistry () :=
  if negb (set_topicRoutingEnabled settings) || isLocalBrokerSource then mret tt
  else
    r ← gets rg_registry;
    match r !! brokerGuid with
    | None => mret tt
    | Some s =>
      if negb (br_startTime (bs_broker s) =? te_startTime e) || negb (bs_subscriptionsChangeCount s =? te_changeCount e) then
        let payload := read_topics (te_topics e) in
        (if te_stateStart e then clearPendingTopics brokerGuid else mret false);;
        addPendingTopics brokerGuid payload.1 payload.2;;
        if te_stateEnd e then swapPendingTopics brokerGuid;; setTopicsChangeCount brokerGuid (te_changeCount e);; mret tt
        else mret tt
      else mret tt
    end.

(** [BrokerTopicEventHandler]: a broker got or lost a topic. *)
Definition on_broker_topic (isLocalBrokerSource isAdd : bool) (sourceBrokerGuid topic : string) (startTime changeCount : Z)
    : ST BrokerRegistry () :=
  if negb (set_topicRoutingEnabled settings) || isLocalBrokerSource then mret tt
  else
    r ← gets rg_registry;
    let validState := match r !! sourceBrokerGuid with
                      | Some s => (br_startTime (bs_broker s) =? startTime)
                                  && (bs_subscriptionsChangeCount s =? u32 (changeCount - 1))
                      | None => true
                      end in
    (if isAdd then addTopic sourceBrokerGuid topic else removeTopic sourceBrokerGuid topic);;
    if (validState : bool) then setTopicsChangeCount sourceBrokerGuid changeCount;; mret tt else mret tt.
End registry.
