(* ===== verification/FabricProofs.v ===== *)
(** * Routes and searches through the fabric

    The depth-first searches of the registry against the graph of connections:
    a route is found if and only if there is one, it follows connections and
    never passes a broker twice; a search for a subscriber finds one if and
    only if there is one behind the bridge. *)

From S2P Require Import Prelude Topic CoreUtil Fabric.
From stdpp Require Import options.

Section fabric_proofs.
Context (settings : BrokerSettings) `{HashOrder} (m_registry : gmap string BrokerState).

(** Broker [x] is connected to [y]. *)
Definition edge (x y : string) : Prop := ∃ s, m_registry !! x = Some s ∧ y ∈ getConnections s.
Definition reachable : string → string → Prop := rtc edge.

(** [p] leads from [x] to [y] over connections, without a loop. *)
Inductive route : string → string → list string → Prop :=
| route_here x : route x x [x]
| route_step x y z p : edge x y → route y z p → x ∉ p → route x z (x :: p).

Lemma route_reachable x y p : route x y p → reachable x y.
Proof. induction 1 as [x|x y z p He _ IH _]; [done|]. by eapply rtc_l. Qed.
Lemma route_head x y p : route x y p → head p = Some x.
Proof. by destruct 1. Qed.

(** [X] is closed under connections that [ok] allows, from the brokers that
    are not in [V]. *)
Definition closed_from (ok : string → Prop) (V X : gset string) : Prop :=
  ∀ x y, x ∈ X → x ∉ V → edge x y → ok y → y ∈ X.

Lemma closed_from_trans ok V1 V2 X : V1 ⊆ V2 → V2 ⊆ X → closed_from ok V1 V2 → closed_from ok V2 X → closed_from ok V1 X.
Proof. intros H1 H2 Hc1 Hc2 x y Hx Hn He Hy. destruct (decide (x ∈ V2)); [|by eapply Hc2]. by eapply H2, Hc1. Qed.
Lemma closed_reach (ok : string → Prop) X x y : closed_from ok ∅ X → x ∈ X → rtc (λ a b, edge a b ∧ ok b) x y → y ∈ X.
Proof. intros Hc Hx Hr. induction Hr as [|x z y [He Hz] _ IH]; [done|]. apply IH. eapply Hc; [done|set_solver|done|done]. Qed.

(** What is left to visit shrinks. *)
Lemma fuel_visit V start s fuel : m_registry !! start = Some s → start ∉ V →
  (size (dom m_registry ∖ V) < S fuel)%nat → (size (dom m_registry ∖ ({[start]} ∪ V)) < fuel)%nat.
Proof.
  intros Hs Hv Hf. assert (size (dom m_registry ∖ ({[start]} ∪ V)) < size (dom m_registry ∖ V))%nat; [|lia].
  apply subset_size. apply elem_of_dom_2 in Hs. split; [set_solver|]. intros Hsub.
  assert (start ∈ dom m_registry ∖ ({[start]} ∪ V)) by (apply Hsub; set_solver). set_solver.
Qed.
Lemma fuel_mono V X : V ⊆ X → (size (dom m_registry ∖ X) <= size (dom m_registry ∖ V))%nat.
Proof. intros HV. apply subseteq_size. set_solver. Qed.
Lemma connections_elem s c : c ∈ hash_order (getConnections s) ↔ c ∈ getConnections s.
Proof. by rewrite hash_order_perm, elem_of_elements. Qed.

(** ** Routes *)

Definition found_or_closed (finish start : string) (V : gset string) (r : option (list string)) (V' : gset string) : Prop :=
  V ⊆ V' ∧
  match r with
  | Some p => route start finish p ∧ Forall (λ x, x ∉ V) p
  | None => start ∈ V' ∧ finish ∉ V' ∧ closed_from (λ _, True) V V'
  end.

Lemma find_from_found rec start cs p V : find_from rec start cs (Some p) V = Some (Some p, V).
Proof. induction cs as [|c cs IH]; [done|]. cbn. exact IH. Qed.

Lemma find_from_spec rec finish start cs V fuel :
  (∀ c V, c ∉ V → finish ∉ V → (size (dom m_registry ∖ V) < fuel)%nat → wp (rec c) (found_or_closed finish c V) V) →
  (size (dom m_registry ∖ V) < fuel)%nat → finish ∉ V →
  wp (find_from rec start cs None) (λ r V', V ⊆ V' ∧
    match r with
    | Some p => ∃ c q, p = start :: q ∧ c ∈ cs ∧ route c finish q ∧ Forall (λ x, x ∉ V) q
    | None => finish ∉ V' ∧ Forall (λ c, c ∈ V') cs ∧ closed_from (λ _, True) V V'
    end) V.
Proof.
  intros Hrec. revert V. induction cs as [|c cs IH]; intros V Hf Hn; cbn [find_from].
  { wp_step. split_and!; [done|done|constructor|]. intros x y Hx Hn'. done. }
  wp_steps. unfold id at 1. rewrite bool_decide_eq_true_2 by done. cbn [andb].
  case_bool_decide as Hc; wp_steps.
  - eapply wp_mono; [by apply Hrec|]. intros [p|] V1 [HV1 Hr]; wp_step; cbn [fmap option_fmap option_map].
    + destruct Hr as [Hp Hq]. unfold wp. rewrite find_from_found. split; [done|]. exists c, p. split; [done|]. split; [by left|]. split; [exact Hp|exact Hq].
    + destruct Hr as (Hc1 & Hn1 & Hcl). eapply wp_mono; [apply IH; [pose proof (fuel_mono V V1 HV1); lia|done]|].
      intros [p|] V2 [HV2 Hr].
      * split; [set_solver|]. destruct Hr as (c' & q & -> & Hc' & Hq & Hfree). exists c', q. split_and!; [done|by right|done|].
        eapply Forall_impl; [exact Hfree|]. intros x Hx. set_solver.
      * split; [set_solver|]. destruct Hr as (Hn2 & Hall & Hcl2). split_and!; [done|constructor; [set_solver|done]|].
        by apply (closed_from_trans _ _ V1).
  - eapply wp_mono; [by apply IH|]. intros [p|] V2 [HV2 Hr]; (split; [done|]).
    + destruct Hr as (c' & q & -> & Hc' & Hq & Hfree). exists c', q. split_and!; [done|by right|done|done].
    + destruct Hr as (Hn2 & Hall & Hcl2). split_and!; [done|constructor; [|done]|done]. by apply HV2.
Qed.

Lemma findPathToBroker_spec fuel finish start V :
  start ∉ V → finish ∉ V → (size (dom m_registry ∖ V) < fuel)%nat →
  wp (findPathToBroker m_registry fuel finish start) (found_or_closed finish start V) V.
Proof.
  revert start V. induction fuel as [|fuel IH]; intros start V Hs Hn Hf; [lia|]. cbn [findPathToBroker].
  destruct (String.eqb_spec start finish) as [->|Hne].
  { wp_step. split; [done|]. split; [constructor|by repeat constructor]. }
  wp_steps. destruct (m_registry !! start) as [s|] eqn:Hl.
  - eapply wp_mono; [apply (find_from_spec _ finish start _ _ fuel); [by intros; apply IH|by eapply fuel_visit|set_solver]|].
    intros [p|] V' [HV' Hr]; (split; [set_solver|]).
    + destruct Hr as (c & q & -> & Hc & Hq & Hfree). split.
      * apply (route_step start c); [exists s; split; [done|by apply connections_elem]|done|].
        intros Hin. apply (proj1 (Forall_forall _ _) Hfree) in Hin. set_solver.
      * constructor; [done|]. eapply Forall_impl; [exact Hfree|]. intros x Hx. set_solver.
    + destruct Hr as (Hn' & Hall & Hcl). split_and!; [set_solver|done|]. intros x y Hx Hv (s' & Hs' & Hy) _.
      destruct (decide (x = start)) as [->|Hxs].
      * simplify_eq. apply (proj1 (Forall_forall _ _) Hall), connections_elem, Hy.
      * eapply Hcl; [done|set_solver|by exists s'|done].
  - wp_step. split; [set_solver|]. split_and!; [set_solver|set_solver|]. intros x y Hx Hv (s' & Hs' & Hy) _.
    assert (x = start) as -> by set_solver. congruence.
Qed.

(** From scratch: a loop-free route, exactly if the broker is reachable. *)
Lemma find_route_spec finish start : ∃ r V', findPathToBroker m_registry (S (size m_registry)) finish start ∅ = Some (r, V') ∧
  match r with Some p => route start finish p | None => ¬ reachable start finish end.
Proof.
  pose proof (findPathToBroker_spec (S (size m_registry)) finish start ∅ ltac:(set_solver) ltac:(set_solver)) as Hw.
  apply wp_Some in Hw as (r & V' & Hrun & _ & Hr).
  - exists r, V'. split; [done|]. destruct r as [p|]; [apply Hr|]. destruct Hr as (Hs & Hn & Hcl). intros Hreach. apply Hn.
    eapply closed_reach; [exact Hcl|exact Hs|]. eapply rtc_subrel; [|exact Hreach]. by intros x y He.
  - rewrite difference_empty_L, size_dom. lia.
Qed.

(** ** Traversals *)

(** The visitor at the brokers of [tr], until it stops. *)
Fixpoint visit_all {A} (visitor : FabricVisitor A) (tr : list string) (a : A) : bool * A :=
  match tr with
  | [] => (true, a)
  | x :: tr' => let '(b, a') := visit visitor x a in if b then visit_all visitor tr' a' else (false, a')
  end.

Lemma visit_all_app {A} (visitor : FabricVisitor A) tr1 tr2 a :
  visit_all visitor (tr1 ++ tr2) a = let '(b, a') := visit_all visitor tr1 a in if b then visit_all visitor tr2 a' else (b, a').
Proof. revert a. induction tr1 as [|x tr1 IH]; intros a; [done|]. cbn. destruct (visit visitor x a) as [[] a']; [apply IH|done]. Qed.

Section traversal.
Context {A : Type} (visitor : FabricVisitor A).

Definition allowed (x : string) : Prop := allowVisit visitor x = true.
Definition reach_allowed : string → string → Prop := rtc (λ x y, edge x y ∧ allowed y).

(** [tr] was visited, all of it reachable over allowed brokers from one in
    [from]; a visitor that did not stop has seen everything there is. *)
Definition traversed (from : list string) (V : gset string) (a : A) (go : bool) (V' : gset string) (a' : A) : Prop :=
  ∃ tr, V' = V ∪ list_to_set tr ∧ visit_all visitor tr a = (go, a') ∧
    Forall (λ x, ∃ c, c ∈ from ∧ allowed c ∧ reach_allowed c x) tr ∧
    (go = true → Forall (λ c, allowed c → c ∈ V') from ∧ closed_from allowed V V').

Lemma traverse_from_spec rec cs V a fuel :
  (∀ c V a, c ∉ V → allowed c → (size (dom m_registry ∖ V) < fuel)%nat →
    wp (rec c) (λ go s, traversed [c] V a go s.1 s.2) (V, a)) →
  (size (dom m_registry ∖ V) < fuel)%nat →
  wp (traverse_from visitor rec cs) (λ go s, traversed cs V a go s.1 s.2) (V, a).
Proof.
  intros Hrec. revert V a. induction cs as [|c cs IH]; intros V a Hf; cbn [traverse_from].
  { wp_step. exists []. split_and!; [set_solver|done|constructor|]. intros _. split; [constructor|]. intros x y Hx Hn. done. }
  wp_steps. unfold id at 1. cbn [fst]. destruct (bool_decide (c ∉ V) && allowVisit visitor c) eqn:Hb.
  - apply andb_true_iff in Hb as [Hc%bool_decide_eq_true Hal]. eapply wp_mono; [by apply Hrec|].
    intros go [V1 a1] (tr1 & HV1 & Hrun1 & Hre1 & Hgo1). cbn [fst snd] in *.
    assert (Forall (λ x, ∃ c', c' ∈ c :: cs ∧ allowed c' ∧ reach_allowed c' x) tr1) as Hre1'.
    { eapply Forall_impl; [exact Hre1|]. intros x (c' & Hc' & ?). exists c'. split; [|done]. apply list_elem_of_singleton in Hc' as ->. by left. }
    destruct go; [|wp_step; exists tr1; by split_and!]. destruct (Hgo1 eq_refl) as [Hall1 Hcl1].
    eapply wp_mono; [apply IH; pose proof (fuel_mono V V1 ltac:(set_solver)); lia|].
    intros go [V2 a2] (tr2 & HV2 & Hrun2 & Hre2 & Hgo2). cbn [fst snd] in *. exists (tr1 ++ tr2). split_and!.
    + rewrite list_to_set_app_L. set_solver.
    + by rewrite visit_all_app, Hrun1.
    + apply Forall_app. split; [done|]. eapply Forall_impl; [exact Hre2|]. intros x (c' & Hc' & ?). exists c'. split; [by right|done].
    + intros Hg. destruct (Hgo2 Hg) as [Hall2 Hcl2]. apply Forall_inv in Hall1. assert (V ⊆ V1 ∧ V1 ⊆ V2) as [HV HV'] by (rewrite HV2, HV1; clear; set_solver).
      split; [constructor; [by intros Hac; apply HV', Hall1|done]|]. by apply (closed_from_trans _ _ V1).
  - wp_step. eapply wp_mono; [by apply IH|]. intros go [V2 a2] (tr2 & HV2 & Hrun2 & Hre2 & Hgo2). cbn [fst snd] in *.
    exists tr2. split_and!; [done|done| |].
    + eapply Forall_impl; [exact Hre2|]. intros x (c' & Hc' & ?). exists c'. split; [by right|done].
    + intros Hg. destruct (Hgo2 Hg) as [Hall2 Hcl2]. split; [|done]. constructor; [|done]. intros Hal. unfold allowed in Hal.
      rewrite Hal, andb_true_r in Hb. apply bool_decide_eq_false, dec_stable in Hb. set_solver.
Qed.

Lemma traversal_spec fuel start V a : start ∉ V → allowed start → (size (dom m_registry ∖ V) < fuel)%nat →
  wp (_depthFirstTraversal m_registry fuel visitor start) (λ go s, traversed [start] V a go s.1 s.2) (V, a).
Proof.
  revert start V a. induction fuel as [|fuel IH]; intros start V a Hs Hal Hf; [lia|]. cbn [_depthFirstTraversal].
  do 2 wp_step. apply wp_bind. unfold wp at 1. cbn [fst snd]. destruct (visit visitor start a) as [go a1] eqn:Hv.
  assert (∀ x, x = start → ∃ c, c ∈ [start] ∧ allowed c ∧ reach_allowed c x) as Hself.
  { intros x ->. exists start. split; [by left|]. split; [done|constructor]. }
  destruct go; cbn [negb].
  2: { wp_step. exists [start]. cbn. rewrite Hv. split_and!; [set_solver|done|constructor; [by apply Hself|constructor]|done]. }
  destruct (m_registry !! start) as [s|] eqn:Hl.
  - eapply wp_mono; [apply (traverse_from_spec _ _ _ _ fuel); [by intros; apply IH|by eapply fuel_visit]|].
    intros go [V' a'] (tr & HV' & Hrun & Hre & Hgo). cbn [fst snd] in *. exists (start :: tr). split_and!.
    + rewrite list_to_set_cons. set_solver.
    + cbn. by rewrite Hv.
    + constructor; [by apply Hself|]. eapply Forall_impl; [exact Hre|]. intros x (c & Hc & Hac & Hrc). exists start.
      split; [by left|]. split; [done|]. eapply rtc_l; [|exact Hrc]. split; [|done]. exists s. split; [done|by apply connections_elem].
    + intros Hg. destruct (Hgo Hg) as [Hall Hcl]. split; [constructor; [set_solver|constructor]|].
      intros x y Hx Hn (s' & Hs' & Hy) Hok. destruct (decide (x = start)) as [->|Hxs].
      * simplify_eq. apply (proj1 (Forall_forall _ _) Hall); [by apply connections_elem|done].
      * eapply Hcl; [done|set_solver|by exists s'|done].
  - wp_step. exists [start]. cbn. rewrite Hv. split_and!; [set_solver|done|constructor; [by apply Hself|constructor]|].
    intros _. split; [constructor; [set_solver|constructor]|]. intros x y Hx Hn (s' & Hs' & Hy) _.
    assert (x = start) as -> by set_solver. congruence.
Qed.

(** A traversal visits brokers reachable over allowed ones, and unless the
    visitor stops it, all of them. *)
Lemma depthFirstTraversal_spec start a : ∃ tr go a', depthFirstTraversal m_registry visitor start a = Some a' ∧
  visit_all visitor tr a = (go, a') ∧
  (∀ x, x ∈ tr → allowed start ∧ reach_allowed start x) ∧
  (go = true → allowed start → ∀ x, reach_allowed start x → x ∈ tr).
Proof.
  unfold depthFirstTraversal. destruct (allowVisit visitor start) eqn:Hal.
  - pose proof (traversal_spec (S (size m_registry)) start ∅ a ltac:(set_solver) Hal) as Hw.
    apply wp_Some in Hw as (go & [V' a'] & Hrun & tr & HV' & Hv & Hre & Hgo).
    + exists tr, go, a'. rewrite Hrun. split_and!; [done|done| |].
      * intros x Hx. apply (proj1 (Forall_forall _ _) Hre) in Hx as (c & Hc & Hac & Hrc).
        apply list_elem_of_singleton in Hc as ->. done.
      * intros Hg _ x Hx. destruct (Hgo Hg) as [Hall Hcl]. apply Forall_inv in Hall. cbn [fst] in *.
        assert (x ∈ V') as Hin by (eapply closed_reach; [exact Hcl|by apply Hall|exact Hx]). set_solver.
    + rewrite difference_empty_L, size_dom. lia.
  - exists [], true, a. split_and!; [done|done|by intros x Hx%elem_of_nil|]. intros _ Hc. unfold allowed in Hc. congruence.
Qed.
End traversal.

(** ** Subscribers *)

Lemma isSubscriberInBroker_Some b topic : is_Some (isSubscriberInBroker settings m_registry b topic).
Proof.
  unfold isSubscriberInBroker. destruct (m_registry !! b) as [s|]; [|by eexists]. destruct (_ || _); [by eexists|].
  destruct (0 <? _); [apply any_wildcard_Some|by eexists].
Qed.

Lemma visit_subscriber broker topic tr : ∃ go found,
  visit_all (FindSubscriberVisitor settings m_registry broker topic) tr (Some false) = (go, Some found) ∧ found = negb go ∧
  (found = true ↔ ∃ x, x ∈ tr ∧ isSubscriberInBroker settings m_registry x topic = Some true).
Proof.
  induction tr as [|x tr (go & found & Hv & Hg & Hf)]; cbn.
  { exists true, false. split_and!; [done|done|]. split; [done|]. intros (x & Hx%elem_of_nil & _). done. }
  destruct (isSubscriberInBroker_Some x topic) as [[] Hx]; rewrite Hx.
  - exists false, true. split_and!; [done|done|]. split; [|done]. intros _. exists x. split; [by left|done].
  - exists go, found. split_and!; [done|done|]. rewrite Hf. split.
    + intros (y & Hy & ?). exists y. split; [by right|done].
    + intros (y & Hy & Hs). apply elem_of_cons in Hy as [->|Hy]; [congruence|]. by exists y.
Qed.

(** Some broker reachable from [connection] without passing [brokerId] has a
    subscriber for [topic]. *)
Definition subscriber_behind (brokerId connection topic : string) : Prop :=
  ∃ x, connection ≠ brokerId ∧ rtc (λ a b, edge a b ∧ b ≠ brokerId) connection x ∧
    isSubscriberInBroker settings m_registry x topic = Some true.

Lemma findSubscriber_spec brokerId connection topic : ∃ found,
  findSubscriber settings m_registry brokerId connection topic = Some found ∧
  (found = true ↔ subscriber_behind brokerId connection topic).
Proof.
  unfold findSubscriber. set (visitor := FindSubscriberVisitor settings m_registry brokerId topic).
  destruct (depthFirstTraversal_spec visitor connection (Some false)) as (tr & go & a' & -> & Hv & Hin & Hall).
  destruct (visit_subscriber brokerId topic tr) as (go' & found & Hv' & Hg & Hf). fold visitor in Hv'.
  assert (go' = go ∧ a' = Some found) as [-> ->] by (rewrite Hv in Hv'; by simplify_eq).
  assert (∀ x, allowed visitor x ↔ x ≠ brokerId) as Hal.
  { intros x. unfold allowed. cbn. rewrite negb_true_iff. apply String.eqb_neq. }
  assert (∀ x y, reach_allowed visitor x y ↔ rtc (λ a b, edge a b ∧ b ≠ brokerId) x y) as Hre.
  { intros x y. split; (apply rtc_subrel; intros a b [He Hb]; split; [done|by apply Hal]). }
  exists found. split; [done|]. rewrite Hf. unfold subscriber_behind. split.
  - intros (x & Hx & Hs). destruct (Hin x Hx) as [Hc Hr]. exists x. split_and!; [by apply Hal|by apply Hre|done].
  - intros (x & Hc & Hr & Hs). destruct go.
    + exists x. split; [|done]. apply Hall; [done|by apply Hal|by apply Hre].
    + apply Hf. by rewrite Hg.
Qed.
End fabric_proofs.
