(* ===== verification/TopicCacheProofs.v ===== *)
(** * The topic cache is coherent

    What a bridge's cache holds is, at every stage of its construction, what
    the registry says about the brokers behind the bridge; so a complete cache
    answers like the search it replaces. *)

From S2P Require Import Prelude Topic CoreUtil Fabric FabricProofs TopicCache.
From stdpp Require Import options.

(** ** Wildcards in a set of topics *)

Definition wildcards_in (topics : gset string) : gset string := filter (λ t, isWildcard t = true) topics.

(** A topic has a subscriber among [topics]: itself or a wildcard above it. *)
Definition subscribed_in (topics : gset string) (topic : string) : Prop :=
  topic ∈ topics ∨ ∃ w, w ∈ wildcards_of topic ∧ w ∈ topics.

Lemma any_wildcard_in (topics : gset string) topic : ∃ b, any_wildcard (λ w, bool_decide (w ∈ topics)) topic = Some b ∧
  (b = true ↔ ∃ w, w ∈ wildcards_of topic ∧ w ∈ topics).
Proof.
  eexists. split; [apply any_wildcard_spec|]. rewrite existsb_exists. split.
  - intros (w & Hw & Hin%bool_decide_eq_true). exists w. split; [by apply list_elem_of_In|done].
  - intros (w & Hw & Hin). exists w. split; [by apply list_elem_of_In|by apply bool_decide_eq_true].
Qed.

(** Without wildcards there is nothing to enumerate. *)
Lemma no_wildcards (topics : gset string) topic : wildcards_in topics = ∅ → ¬ ∃ w, w ∈ wildcards_of topic ∧ w ∈ topics.
Proof.
  intros He (w & Hw & Hin). apply wildcards_of_isWildcard in Hw.
  assert (w ∈ wildcards_in topics) as Hx by (by apply elem_of_filter). rewrite He in Hx. set_solver.
Qed.

Lemma wildcards_in_insert t topics : t ∉ topics →
  Z.of_nat (size (wildcards_in ({[t]} ∪ topics))) = Z.of_nat (size (wildcards_in topics)) + (if isWildcard t then 1 else 0).
Proof.
  intros Hn. assert (wildcards_in ({[t]} ∪ topics) = (if isWildcard t then {[t]} else ∅) ∪ wildcards_in topics) as ->.
  { apply set_eq. intros x. unfold wildcards_in. rewrite elem_of_filter, !elem_of_union, elem_of_filter, elem_of_singleton.
    destruct (isWildcard t) eqn:Hw.
    - rewrite elem_of_singleton. split; [intros [? [|]]; by auto|intros [->|[]]; by auto].
    - rewrite elem_of_empty. split; [intros [? [->|]]; [congruence|by auto]|intros [[]|[]]; by auto]. }
  rewrite size_union; [destruct (isWildcard t); rewrite ?size_singleton, ?size_empty; lia|].
  intros x Hx Hf. unfold wildcards_in in Hf. apply elem_of_filter in Hf as [_ Hf].
  destruct (isWildcard t); [apply elem_of_singleton in Hx as ->; done|by apply elem_of_empty in Hx].
Qed.
Lemma wildcards_in_delete t topics : t ∈ topics →
  Z.of_nat (size (wildcards_in (topics ∖ {[t]}))) = Z.of_nat (size (wildcards_in topics)) - (if isWildcard t then 1 else 0).
Proof.
  intros Hin. pose proof (wildcards_in_insert t (topics ∖ {[t]}) ltac:(set_solver)) as Hs.
  rewrite <-union_difference_singleton_L in Hs by done. lia.
Qed.

Section coherence.
Context (settings : BrokerSettings) `{HashOrder}.
Implicit Types reg : gmap string BrokerState.

(** [x] is behind the bridge from [brokerId] to [bridgeId]. *)
Definition behind reg (brokerId bridgeId x : string) : Prop :=
  bridgeId ≠ brokerId ∧ rtc (λ a b, edge reg a b ∧ b ≠ brokerId) bridgeId x.

(** Whether [x], if known, routes by topic. *)
Definition routes_by_topic reg (x : string) : bool :=
  match reg !! x with Some s => isTopicRoutingEnabled settings (bs_broker s) | None => true end.

(** The wildcard count of a state may be too high but misses none. *)
Definition counts_ok (s : BrokerState) : Prop :=
  Z.of_nat (size (wildcards_in (bs_subscriptions s))) <= bs_subscriptionsWildcardCount s < 2 ^ 32 ∧
  Z.of_nat (size (wildcards_in (bs_pendingSubscriptions s))) <= bs_pendingSubscriptionsWildcardCount s < 2 ^ 32.

Lemma isSubscriberInBroker_spec reg x topic : (∀ s, reg !! x = Some s → counts_ok s) →
  isSubscriberInBroker settings reg x topic = Some true ↔
    routes_by_topic reg x = false ∨ ∃ s, reg !! x = Some s ∧ subscribed_in (bs_subscriptions s) topic.
Proof.
  intros Hc. unfold isSubscriberInBroker, routes_by_topic, subscribed_in. destruct (reg !! x) as [s|]; [|split; [done|intros [|(?&?&_)]; done]].
  destruct (Hc s eq_refl) as [[Hle _] _]. destruct (isTopicRoutingEnabled settings (bs_broker s)); cbn [negb orb].
  - case_bool_decide as Hin; [split; [intros _; right; exists s; by auto|done]|].
    destruct (any_wildcard_in (bs_subscriptions s) topic) as (b & Hb & Hbw).
    destruct (Z.ltb_spec 0 (bs_subscriptionsWildcardCount s)).
    + rewrite Hb. split; [intros [= ->]; right; exists s; split; [done|right; by apply Hbw]|].
      intros [|(s' & [= <-] & [|Hw])]; [done|done|]. f_equal. by apply Hbw.
    + split; [done|]. intros [|(s' & [= <-] & [|Hw])]; [done|done|]. exfalso. eapply no_wildcards; [|exact Hw].
      apply leibniz_equiv_iff, size_empty_inv. lia.
  - split; [by left|done].
Qed.

(** ** Coherence *)

(** A cache that has brokers to take topics from, or is done with them. *)
Record gathered reg (c : BrokerBridgeTopicCache) : Prop := {
  ga_enabled : bc_topicRoutingEnabled c = true;
  ga_brokers x : x ∈ bc_brokers c ↔ behind reg (bc_brokerId c) (bc_bridgeId c) x;
  ga_routes x : x ∈ bc_brokers c → routes_by_topic reg x = true;
  ga_iter : NoDup (bc_brokersIter c) ∧ ∀ x, x ∈ bc_brokersIter c → x ∈ bc_brokers c;
  ga_cached x : x ∈ bc_cachedBrokers c ↔ x ∈ bc_brokers c ∧ x ∉ bc_brokersIter c ∧ is_Some (reg !! x);
  ga_topics t : t ∈ bc_topics c ↔ ∃ x, x ∈ bc_cachedBrokers c ∧ registry_hasTopic reg x t = true;
  ga_wildcards : bc_wildcardCount c = Z.of_nat (size (wildcards_in (bc_topics c))) }.

(** Some broker behind the bridge takes everything. *)
Definition wide_open reg (c : BrokerBridgeTopicCache) : Prop :=
  (∀ x, x ∈ bc_brokers c → behind reg (bc_brokerId c) (bc_bridgeId c) x) ∧
  ∃ x, behind reg (bc_brokerId c) (bc_bridgeId c) x ∧ routes_by_topic reg x = false.

Definition coherent reg (c : BrokerBridgeTopicCache) : Prop :=
  edge reg (bc_brokerId c) (bc_bridgeId c) ∧
  match bc_state c with
  | Start => c = BrokerBridgeTopicCache_new (bc_brokerId c) (bc_bridgeId c)
  | Building => gathered reg c ∧ bc_brokersIter c ≠ []
  | Completed => if bc_topicRoutingEnabled c then gathered reg c ∧ bc_brokersIter c = [] else wide_open reg c
  end.

(** ** Building *)

Lemma visit_brokers reg brokerId tr B : ∃ go B',
  visit_all (FindBrokersVisitor settings reg brokerId) tr (B, true) = (go, (B', go)) ∧ B' ⊆ B ∪ list_to_set tr ∧
  if go then B' = B ∪ list_to_set tr ∧ ∀ x, x ∈ tr → routes_by_topic reg x = true
  else ∃ x, x ∈ tr ∧ routes_by_topic reg x = false.
Proof.
  revert B. induction tr as [|x tr IH]; intros B.
  { exists true, B. split_and!; [done|set_solver|set_solver|]. by intros x Hx%elem_of_nil. }
  cbn [visit_all]. assert (visit (FindBrokersVisitor settings reg brokerId) x (B, true) =
    (routes_by_topic reg x, ({[x]} ∪ B, routes_by_topic reg x))) as ->.
  { unfold FindBrokersVisitor, routes_by_topic. cbn. destruct (reg !! x) as [s|]; [|done].
    by destruct (isTopicRoutingEnabled settings (bs_broker s)). }
  destruct (routes_by_topic reg x) eqn:Hx.
  - destruct (IH ({[x]} ∪ B)) as (go & B' & -> & Hsub & Hgo). exists go, B'. split_and!; [done|set_solver|]. destruct go.
    + destruct Hgo as [-> Hall]. split; [set_solver|]. intros y [->|Hy]%elem_of_cons; auto.
    + destruct Hgo as (y & Hy & ?). exists y. split; [by right|done].
  - exists false, ({[x]} ∪ B). split_and!; [done|set_solver|]. exists x. split; [by left|done].
Qed.

Lemma hash_order_NoDup X : NoDup (hash_order X).
Proof. rewrite hash_order_perm. apply NoDup_elements. Qed.
Lemma hash_order_elem X x : x ∈ hash_order X ↔ x ∈ X.
Proof. by rewrite hash_order_perm, elem_of_elements. Qed.

Lemma coherent_new reg b g : edge reg b g → coherent reg (BrokerBridgeTopicCache_new b g).
Proof. by split. Qed.

Lemma cache_start_coherent reg c : coherent reg c → bc_state c = Start → ∃ c', cache_start settings reg c = Some c' ∧
  coherent reg c' ∧ bc_brokerId c' = bc_brokerId c ∧ bc_bridgeId c' = bc_bridgeId c.
Proof.
  intros [He Hc] Hst. rewrite Hst in Hc. set (b := bc_brokerId c) in *. set (g := bc_bridgeId c) in *.
  unfold cache_start. fold b g. rewrite Hc. cbn [bc_brokers bc_topicRoutingEnabled BrokerBridgeTopicCache_new].
  set (visitor := FindBrokersVisitor settings reg b).
  destruct (depthFirstTraversal_spec reg visitor g (∅, true)) as (tr & go & a' & -> & Hv & Hin & Hall).
  destruct (visit_brokers reg b tr ∅) as (go' & B' & Hv' & Hsub & Hgo). fold visitor in Hv'.
  rewrite Hv in Hv'. injection Hv' as <- ->.
  assert (∀ x, allowed visitor x ↔ x ≠ b) as Hal.
  { intros x. unfold allowed. cbn. rewrite negb_true_iff. apply String.eqb_neq. }
  assert (∀ x y, reach_allowed reg visitor x y ↔ rtc (λ x y, edge reg x y ∧ y ≠ b) x y) as Hre.
  { intros x y. split; (apply rtc_subrel; intros z w [Hz Hw]; split; [done|by apply Hal]). }
  assert (∀ x, x ∈ tr → behind reg b g x) as Hbeh.
  { intros x Hx. destruct (Hin x Hx) as [Hg Hr]. split; [by apply Hal|by apply Hre]. }
  eexists. split; [reflexivity|]. cbn. split; [|done]. split; [exact He|]. cbn.
  destruct go; cbn [andb].
  - destruct Hgo as [-> Hroutes]. assert (gathered reg (mk_BrokerBridgeTopicCache b g (∅ ∪ list_to_set tr) ∅ ∅ 0 true
      (if bool_decide (hash_order (∅ ∪ list_to_set tr) ≠ []) then Building else Completed) (hash_order (∅ ∪ list_to_set tr)))) as Hga.
    { assert (∀ x, x ∈ ((∅ : gset string) ∪ list_to_set tr) ↔ x ∈ tr) as Hset by set_solver.
      split; cbn; [done| | |split; [apply hash_order_NoDup|by intros x ?%hash_order_elem]| | |done].
      - intros x. rewrite Hset. split; [apply Hbeh|]. intros [Hne Hr]. apply Hall; [done|by apply Hal|by apply Hre].
      - intros x Hx%Hset. by apply Hroutes.
      - intros x. rewrite hash_order_elem. set_solver.
      - intros t. split; [set_solver|]. intros (x & Hx & _). set_solver. }
    case_bool_decide as Hne; cbn; (split; [exact Hga|]); [exact Hne|]. destruct (hash_order _) eqn:E in Hne |- *; [done|]. by destruct Hne.
  - destruct Hgo as (x & Hx & Hrx). split; cbn.
    + intros y Hy. apply Hbeh. set_solver.
    + exists x. split; [by apply Hbeh|done].
Qed.

(** Inserting topics. *)
Lemma cache_insert_fold l c : bc_wildcardCount c = Z.of_nat (size (wildcards_in (bc_topics c))) →
  let c' := foldl cache_insert c l in
  (∀ t, t ∈ bc_topics c' ↔ t ∈ bc_topics c ∨ t ∈ l) ∧ bc_wildcardCount c' = Z.of_nat (size (wildcards_in (bc_topics c'))) ∧
  c' = c <| bc_topics := bc_topics c' |> <| bc_wildcardCount := bc_wildcardCount c' |>.
Proof.
  revert c. induction l as [|t l IH]; intros c Hw; cbn [foldl].
  { split_and!; [intros t; rewrite elem_of_nil; tauto|done|by destruct c]. }
  assert (bc_wildcardCount (cache_insert c t) = Z.of_nat (size (wildcards_in (bc_topics (cache_insert c t)))) ∧
    (∀ u, u ∈ bc_topics (cache_insert c t) ↔ u = t ∨ u ∈ bc_topics c) ∧
    cache_insert c t = c <| bc_topics := bc_topics (cache_insert c t) |> <| bc_wildcardCount := bc_wildcardCount (cache_insert c t) |>) as (Hw1 & Ht1 & Hc1).
  { unfold cache_insert. case_bool_decide as Ht.
    - split_and!; [done| |by destruct c]. intros u. split; [by right|by intros [->|]].
    - cbn. split_and!; [|set_solver|by destruct c]. rewrite wildcards_in_insert, Hw by done. destruct (isWildcard t); lia. }
  destruct (IH _ Hw1) as (Ht2 & Hw2 & Hc2). split_and!; [|done|].
  - intros u. rewrite Ht2, Ht1, elem_of_cons. tauto.
  - rewrite Hc2 at 1. rewrite Hc1. done.
Qed.

(** A cache that gathers keeps doing so with other topics. *)
Lemma gathered_update reg reg' c c' : gathered reg c →
  (∀ x, behind reg' (bc_brokerId c) (bc_bridgeId c) x ↔ behind reg (bc_brokerId c) (bc_bridgeId c) x) →
  (∀ x, routes_by_topic reg' x = routes_by_topic reg x) → (∀ x, is_Some (reg' !! x) ↔ is_Some (reg !! x)) →
  c' = c <| bc_topics := bc_topics c' |> <| bc_wildcardCount := bc_wildcardCount c' |> →
  (∀ t, t ∈ bc_topics c' ↔ ∃ x, x ∈ bc_cachedBrokers c ∧ registry_hasTopic reg' x t = true) →
  bc_wildcardCount c' = Z.of_nat (size (wildcards_in (bc_topics c'))) → gathered reg' c'.
Proof.
  intros [Hen Hbr Hro Hit Hca Hto Hwi] Hb Hr Hs Hc' Ht Hw.
  split; rewrite Hc'; cbn; [done| | |done| |done|done]; intros x.
  - by rewrite Hb.
  - rewrite Hr. apply Hro.
  - by rewrite Hs.
Qed.

Lemma cache_build_coherent reg c : coherent reg c → bc_state c = Building → ∃ c', cache_build reg c = Some c' ∧
  coherent reg c' ∧ bc_brokerId c' = bc_brokerId c ∧ bc_bridgeId c' = bc_bridgeId c.
Proof.
  intros [He Hc] Hst. rewrite Hst in Hc. destruct Hc as [[Hen Hbr Hro [Hnd Hit] Hca Hto Hwi] Hne].
  unfold cache_build. destruct (bc_brokersIter c) as [|b iter] eqn:Hi; [done|]. apply NoDup_cons in Hnd as [Hb Hnd].
  eexists. split; [reflexivity|].
  set (c1 := match reg !! b with Some state => _ | None => c end).
  assert ((∀ x, x ∈ bc_cachedBrokers c1 ↔ x ∈ bc_brokers c ∧ x ∉ iter ∧ is_Some (reg !! x)) ∧
    (∀ t, t ∈ bc_topics c1 ↔ ∃ x, x ∈ bc_cachedBrokers c1 ∧ registry_hasTopic reg x t = true) ∧
    bc_wildcardCount c1 = Z.of_nat (size (wildcards_in (bc_topics c1))) ∧
    c1 = c <| bc_topics := bc_topics c1 |> <| bc_wildcardCount := bc_wildcardCount c1 |> <| bc_cachedBrokers := bc_cachedBrokers c1 |>)
    as (Hca1 & Hto1 & Hwi1 & Hc1).
  { subst c1. destruct (reg !! b) as [s|] eqn:Hs.
    - destruct (cache_insert_fold (hash_order (bs_subscriptions s)) c Hwi) as (Ht & Hw & Hc').
      set (c' := foldl _ _ _) in *. assert (bc_cachedBrokers c' = bc_cachedBrokers c) as Hcc by (by rewrite Hc'). cbn.
      assert (∀ x, x ∈ {[b]} ∪ bc_cachedBrokers c' ↔ x = b ∨ x ∈ bc_cachedBrokers c) as Hun.
      { intros x. by rewrite Hcc, elem_of_union, elem_of_singleton. }
      split_and!; [| |done|by rewrite Hc'].
      + intros x. rewrite Hun, Hca, elem_of_cons. split.
        * intros [->|(Hx & Hn & ?)]; [|split; [done|]; split; [intros ?; apply Hn; by right|done]]. split; [apply Hit; by left|]. split; [done|]. by rewrite Hs.
        * intros (Hx & Hn & ?). destruct (decide (x = b)) as [->|]; [by left|right]. split; [done|]. split; [|done]. by intros [|].
      + intros t. rewrite Ht, hash_order_elem, Hto. split.
        * intros [(x & Hx & Ht')|Ht']; [exists x; by rewrite Hun; auto|]. exists b. rewrite Hun. split; [by left|].
          unfold registry_hasTopic. rewrite Hs. by apply bool_decide_eq_true.
        * intros (x & [->|Hx]%Hun & Ht'); [|left; by exists x]. right. unfold registry_hasTopic in Ht'. rewrite Hs in Ht'.
          by apply bool_decide_eq_true in Ht'.
    - split_and!; [|done|done|by destruct c]. intros x. rewrite Hca, elem_of_cons. split; [naive_solver|].
      intros (Hx & Hn & Hr). split; [done|]. split; [|done]. intros [->|]; [|done]. rewrite Hs in Hr. by destruct Hr. }
  cbn. rewrite Hc1. cbn. split; [|done]. split; [exact He|]. cbn.
  assert (gathered reg (c1 <| bc_brokersIter := iter |> <| bc_state := if bool_decide (iter = []) then Completed else bc_state c1 |>)) as Hga.
  { split; rewrite Hc1; cbn; [done|done|done| |done|done|done]. split; [done|]. intros x Hx. apply Hit. by right. }
  rewrite Hc1 in Hga. cbn in Hga. case_bool_decide as Hiter; cbn.
  - rewrite Hen in Hga |- *. split; [exact Hga|exact Hiter].
  - rewrite Hst in Hga |- *. split; [exact Hga|exact Hiter].
Qed.

Lemma buildCacheIncrement_coherent reg c : coherent reg c → ∃ complete c', buildCacheIncrement settings reg c = Some (complete, c') ∧
  (complete = true → bc_state c' = Completed) ∧
  coherent reg c' ∧ bc_brokerId c' = bc_brokerId c ∧ bc_bridgeId c' = bc_bridgeId c.
Proof.
  intros Hc. unfold buildCacheIncrement. assert (∃ c', (match bc_state c with Completed => Some c | Start => cache_start settings reg c
    | Building => cache_build reg c end) = Some c' ∧ coherent reg c' ∧ bc_brokerId c' = bc_brokerId c ∧ bc_bridgeId c' = bc_bridgeId c)
    as (c' & -> & Hc').
  { destruct (bc_state c) eqn:Hst; [by apply cache_start_coherent|by apply cache_build_coherent|by exists c]. }
  cbn. eexists _, c'. split; [done|]. split; [by intros ?%bool_decide_eq_true|done].
Qed.

(** ** Answers *)

Lemma completed_answers reg c topic : (∀ x s, reg !! x = Some s → counts_ok s) → coherent reg c → bc_state c = Completed →
  (bc_topicRoutingEnabled c = false ∨ subscribed_in (bc_topics c) topic) ↔
    subscriber_behind settings reg (bc_brokerId c) (bc_bridgeId c) topic.
Proof.
  intros Hcnt [_ Hc] Hst. rewrite Hst in Hc. unfold subscriber_behind. destruct (bc_topicRoutingEnabled c) eqn:Hen.
  - destruct Hc as [[_ Hbr Hro _ Hca Hto _] Hit].
    assert (∀ t, t ∈ bc_topics c ↔ ∃ x s, behind reg (bc_brokerId c) (bc_bridgeId c) x ∧ reg !! x = Some s ∧ t ∈ bs_subscriptions s) as Ht.
    { intros t. rewrite Hto. split.
      - intros (x & (Hx & _ & s & Hs)%Hca & Ht). exists x, s. split; [by apply Hbr|]. split; [done|].
        unfold registry_hasTopic in Ht. rewrite Hs in Ht. by apply bool_decide_eq_true in Ht.
      - intros (x & s & Hx & Hs & Ht). exists x. split.
        + apply Hca. rewrite Hit, Hs. split; [by apply Hbr|]. split; [by apply not_elem_of_nil|done].
        + unfold registry_hasTopic. rewrite Hs. by apply bool_decide_eq_true. }
    split.
    + intros [|Hsub]; [done|]. assert (∃ x s, behind reg (bc_brokerId c) (bc_bridgeId c) x ∧ reg !! x = Some s ∧
        subscribed_in (bs_subscriptions s) topic) as (x & s & [Hne Hr] & Hs & Hx).
      { destruct Hsub as [Hin|(w & Hw & Hin)]; apply Ht in Hin as (x & s & Hb & Hs & Hin); exists x, s; (split; [done|]);
          (split; [done|]); [by left|right; by exists w]. }
      exists x. split_and!; [done|done|]. apply isSubscriberInBroker_spec; [by apply Hcnt|]. right. by exists s.
    + intros (x & Hne & Hr & Hx). right. apply isSubscriberInBroker_spec in Hx; [|by apply Hcnt].
      assert (behind reg (bc_brokerId c) (bc_bridgeId c) x) as Hb by (by split).
      destruct Hx as [Hx|(s & Hs & Hx)]; [rewrite Hro in Hx; [done|by apply Hbr]|].
      destruct Hx as [Hin|(w & Hw & Hin)]; [left|right; exists w; split; [done|]]; apply Ht; by exists x, s.
  - destruct Hc as [_ (x & [Hne Hr] & Hx)]. split; [intros _|by left]. exists x. split_and!; [done|done|].
    apply isSubscriberInBroker_spec; [by apply Hcnt|by left].
Qed.

Lemma bridge_isSubscriber_spec reg c topic : (∀ x s, reg !! x = Some s → counts_ok s) → coherent reg c →
  ∃ answered found c', bridge_isSubscriber settings reg topic c = Some (answered, found, c') ∧
    coherent reg c' ∧ bc_brokerId c' = bc_brokerId c ∧ bc_bridgeId c' = bc_bridgeId c ∧
    (answered = true → (found = true ↔ subscriber_behind settings reg (bc_brokerId c) (bc_bridgeId c) topic)).
Proof.
  intros Hcnt Hc. unfold bridge_isSubscriber. destruct (buildCacheIncrement_coherent reg c Hc) as (complete & c' & -> & Hcomp & Hc' & Hb & Hg).
  cbn. destruct complete; cbn [negb]; [|by exists false, false, c'].
  specialize (Hcomp eq_refl). pose proof (completed_answers reg c' topic Hcnt Hc' Hcomp) as Hans. rewrite Hb, Hg in Hans.
  assert (∃ found, (if negb (bc_topicRoutingEnabled c') || bool_decide (topic ∈ bc_topics c') then Some true
     else if 0 <? bc_wildcardCount c' then any_wildcard (λ w, bool_decide (w ∈ bc_topics c')) topic else Some false) = Some found ∧
     (found = true ↔ bc_topicRoutingEnabled c' = false ∨ subscribed_in (bc_topics c') topic)) as (found & -> & Hf).
  { destruct (bc_topicRoutingEnabled c') eqn:Hen; cbn [negb orb]; [|exists true; split; [done|]; by split; [left|]].
    case_bool_decide as Hin; [exists true; split; [done|]; split; [by right; left|done]|].
    destruct (any_wildcard_in (bc_topics c') topic) as (b & Hany & Hb'). destruct Hc' as [_ Hc'].
    rewrite Hcomp, Hen in Hc'. destruct Hc' as [[_ _ _ _ _ _ Hwi] _]. destruct (Z.ltb_spec 0 (bc_wildcardCount c')).
    - exists b. split; [done|]. rewrite Hb'. split; [by right; right|]. by intros [|[|]].
    - exists false. split; [done|]. split; [done|]. intros [|[|Hw]]; [done|done|]. exfalso. eapply no_wildcards; [|exact Hw].
      apply leibniz_equiv_iff, size_empty_inv. lia. }
  cbn. exists true, found, c'. split_and!; [done|done|done|done|]. intros _. by rewrite Hf.
Qed.

(** ** Topics that come and go *)

(** [reg'] is [reg] but for the subscription of [id] to [topic]. *)
Record topic_changed reg reg' (id topic : string) : Prop := {
  tch_edge x y : edge reg' x y ↔ edge reg x y;
  tch_routes x : routes_by_topic reg' x = routes_by_topic reg x;
  tch_known x : is_Some (reg' !! x) ↔ is_Some (reg !! x);
  tch_self : is_Some (reg !! id);
  tch_other x t : x ≠ id ∨ t ≠ topic → registry_hasTopic reg' x t = registry_hasTopic reg x t }.

Lemma topic_added reg reg' id topic x t : topic_changed reg reg' id topic → registry_hasTopic reg' id topic = true →
  registry_hasTopic reg' x t = true ↔ registry_hasTopic reg x t = true ∨ x = id ∧ t = topic.
Proof.
  intros Hch Hnew. destruct (decide (x = id)) as [->|Hx]; [|rewrite (tch_other _ _ _ _ Hch) by (by left); naive_solver].
  destruct (decide (t = topic)) as [->|Ht]; [naive_solver|]. rewrite (tch_other _ _ _ _ Hch) by (by right). naive_solver.
Qed.
Lemma topic_removed reg reg' id topic x t : topic_changed reg reg' id topic → registry_hasTopic reg' id topic = false →
  registry_hasTopic reg' x t = true ↔ registry_hasTopic reg x t = true ∧ ¬ (x = id ∧ t = topic).
Proof.
  intros Hch Hnew. destruct (decide (x = id)) as [->|Hx]; [|rewrite (tch_other _ _ _ _ Hch) by (by left); naive_solver].
  destruct (decide (t = topic)) as [->|Ht]; [rewrite Hnew; naive_solver|]. rewrite (tch_other _ _ _ _ Hch) by (by right). naive_solver.
Qed.

Lemma behind_ext reg reg' b g x : (∀ x y, edge reg' x y ↔ edge reg x y) → behind reg' b g x ↔ behind reg b g x.
Proof.
  intros He. unfold behind. split; intros [Hne Hr]; (split; [exact Hne|]); (eapply rtc_subrel; [|exact Hr]); intros y z [Hy Hz];
    (split; [by apply He|exact Hz]).
Qed.

Lemma coherent_transfer reg reg' id topic c c' : topic_changed reg reg' id topic → coherent reg c →
  c' = c <| bc_topics := bc_topics c' |> <| bc_wildcardCount := bc_wildcardCount c' |> → (bc_state c = Start → c' = c) →
  (gathered reg c → (∀ t, t ∈ bc_topics c' ↔ ∃ x, x ∈ bc_cachedBrokers c ∧ registry_hasTopic reg' x t = true) ∧
    bc_wildcardCount c' = Z.of_nat (size (wildcards_in (bc_topics c')))) → coherent reg' c'.
Proof.
  intros [He Hro Hk _ _] [Hedge Hc] Hc' Hstart Hga.
  assert (gathered reg c → gathered reg' c') as Hup.
  { intros Hg. destruct (Hga Hg) as [Ht Hw]. apply (gathered_update reg reg' c); [done| |done|done|done|done|done].
    intros x. by apply behind_ext. }
  assert (bc_brokerId c' = bc_brokerId c ∧ bc_bridgeId c' = bc_bridgeId c ∧ bc_state c' = bc_state c ∧ bc_brokers c' = bc_brokers c ∧
    bc_topicRoutingEnabled c' = bc_topicRoutingEnabled c ∧ bc_brokersIter c' = bc_brokersIter c) as (E1 & E2 & E3 & E4 & E5 & E6)
    by (rewrite Hc'; done).
  split; [rewrite E1, E2; by apply He|]. rewrite E3. destruct (bc_state c) eqn:Hst.
  - by rewrite Hstart, <-Hc.
  - rewrite E6. destruct Hc as [Hg Hi]. by auto.
  - rewrite E5, E6. destruct (bc_topicRoutingEnabled c).
    + destruct Hc as [Hg Hi]. by auto.
    + unfold wide_open. rewrite E1, E2, E4. destruct Hc as [Hall (x & Hb & Hx)]. split.
      * intros y Hy. apply (behind_ext reg); [done|by apply Hall].
      * exists x. split; [by apply (behind_ext reg)|by rewrite Hro].
Qed.

(** A cache of another bridge does not change. *)
Lemma coherent_elsewhere reg reg' id topic c : topic_changed reg reg' id topic → coherent reg c →
  ¬ behind reg (bc_brokerId c) (bc_bridgeId c) id → coherent reg' c.
Proof.
  intros Hch Hc Hn. eapply coherent_transfer; [exact Hch|exact Hc|by destruct c|done|]. intros [_ Hbr _ _ Hca Hto Hwi].
  split; [|done]. intros t. rewrite Hto. apply exist_proper. intros x. split; intros [Hx Ht]; (split; [done|]).
  - rewrite (tch_other _ _ _ _ Hch); [done|]. left. intros ->. by apply Hn, Hbr, Hca.
  - rewrite (tch_other _ _ _ _ Hch) in Ht; [done|]. left. intros ->. by apply Hn, Hbr, Hca.
Qed.

Lemma contains_behind reg id c : coherent reg c → containsBroker id c = true → behind reg (bc_brokerId c) (bc_bridgeId c) id.
Proof.
  intros [_ Hc] Hin%bool_decide_eq_true. destruct (bc_state c).
  - rewrite Hc in Hin. by apply elem_of_empty in Hin.
  - destruct Hc as [Hg _]. by apply (ga_brokers _ _ Hg).
  - destruct (bc_topicRoutingEnabled c); [destruct Hc as [Hg _]; by apply (ga_brokers _ _ Hg)|by apply Hc].
Qed.

Lemma gathered_enabled reg c : coherent reg c → bc_state c ≠ Start → bc_topicRoutingEnabled c = true → gathered reg c.
Proof. intros [_ Hc] Hst Hen. rewrite Hen in Hc. destruct (bc_state c); [done|by apply Hc|by apply Hc]. Qed.

(** [isBrokerCached] says that the topics of a known broker are in. *)
Lemma isBrokerCached_spec reg id c : coherent reg c → gathered reg c → is_Some (reg !! id) → containsBroker id c = true →
  isBrokerCached id c = true ↔ id ∈ bc_cachedBrokers c.
Proof.
  intros [_ Hc] Hg Hid Hin. unfold isBrokerCached. case_bool_decide as Hst; [|by rewrite bool_decide_eq_true].
  rewrite Hst, (ga_enabled _ _ Hg) in Hc. destruct Hc as [_ Hit]. rewrite (ga_cached _ _ Hg), Hin, Hit.
  apply bool_decide_eq_true in Hin. split; [intros _|done]. split; [done|]. split; [by apply not_elem_of_nil|done].
Qed.

Lemma bridge_addTopic_coherent reg reg' id topic c : topic_changed reg reg' id topic →
  registry_hasTopic reg' id topic = true → coherent reg c →
  let '(taken, c') := bridge_addTopic reg' id topic c in
  bc_brokerId c' = bc_brokerId c ∧ bc_bridgeId c' = bc_bridgeId c ∧
  if taken then behind reg (bc_brokerId c) (bc_bridgeId c) id ∧ coherent reg' c' else c' = c.
Proof.
  intros Hch Hnew Hc. unfold bridge_addTopic. destruct (containsBroker id c) eqn:Hin; [|done].
  pose proof (contains_behind _ _ _ Hc Hin) as Hb. pose proof (tch_self _ _ _ _ Hch) as Hid.
  assert (bc_state c ≠ Start) as Hst.
  { intros Hst. destruct Hc as [_ Hc]. rewrite Hst in Hc. rewrite Hc in Hin. apply bool_decide_eq_true in Hin. by apply elem_of_empty in Hin. }
  set (c' := if _ && _ && _ && _ then cache_insert c topic else c).
  assert (c' = c <| bc_topics := bc_topics c' |> <| bc_wildcardCount := bc_wildcardCount c' |>) as Hc'.
  { subst c'. unfold cache_insert. destruct (_ && _ && _ && _); [case_bool_decide|]; by destruct c. }
  split; [by rewrite Hc'|]. split; [by rewrite Hc'|]. split; [exact Hb|].
  eapply coherent_transfer; [exact Hch|exact Hc|exact Hc'|done|]. intros Hg.
  pose proof (isBrokerCached_spec _ _ _ Hc Hg Hid Hin) as Hcached. destruct Hg as [Hen Hbr _ _ Hca Hto Hwi].
  pose proof (cache_insert_fold [topic] c Hwi) as (Ht & Hw & _). cbn [foldl] in Ht, Hw.
  assert (∀ t, t ∈ bc_topics c' ↔ t ∈ bc_topics c ∨ t = topic ∧ id ∈ bc_cachedBrokers c) as Htopics.
  { intros t. subst c'. rewrite Hen, Hnew. cbn [andb]. rewrite andb_true_r. destruct (isBrokerCached id c) eqn:Hcc; cbn [andb].
    - case_bool_decide as Hnt; [rewrite Ht, list_elem_of_singleton; naive_solver|]. naive_solver.
    - split; [by left|]. intros [|[_ Hx]]; [done|]. by apply Hcached in Hx. }
  split; [|subst c'; by destruct (_ && _ && _ && _)].
  intros t. rewrite Htopics, Hto. split.
  - intros [(x & Hx & Hxt)|[-> Hx]]; [|by exists id]. exists x. split; [done|]. apply (topic_added _ _ _ _ _ _ Hch Hnew). by left.
  - intros (x & Hx & Hxt). apply (topic_added _ _ _ _ _ _ Hch Hnew) in Hxt as [Hxt|[-> ->]]; [left; by exists x|by right].
Qed.

Lemma existsb_has reg X t : existsb (λ b, registry_hasTopic reg b t) (hash_order X) = true ↔
  ∃ x, x ∈ X ∧ registry_hasTopic reg x t = true.
Proof. rewrite existsb_exists. apply exist_proper. intros x. by rewrite <-list_elem_of_In, hash_order_elem. Qed.

Lemma bridge_removeTopic_coherent reg reg' id topic c : topic_changed reg reg' id topic →
  registry_hasTopic reg' id topic = false → coherent reg c →
  let '(taken, c') := bridge_removeTopic reg' id topic c in
  bc_brokerId c' = bc_brokerId c ∧ bc_bridgeId c' = bc_bridgeId c ∧
  if taken then behind reg (bc_brokerId c) (bc_bridgeId c) id ∧ coherent reg' c' else c' = c.
Proof.
  intros Hch Hnew Hc. unfold bridge_removeTopic. destruct (containsBroker id c) eqn:Hin; [|done].
  pose proof (contains_behind _ _ _ Hc Hin) as Hb. pose proof (tch_self _ _ _ _ Hch) as Hid.
  assert (bc_state c ≠ Start) as Hst.
  { intros Hst. destruct Hc as [_ Hc]. rewrite Hst in Hc. rewrite Hc in Hin. apply bool_decide_eq_true in Hin. by apply elem_of_empty in Hin. }
  set (erase := _ && _ && _ && _ && _). set (c' := if erase then _ else c).
  assert (c' = c <| bc_topics := bc_topics c' |> <| bc_wildcardCount := bc_wildcardCount c' |>) as Hc'.
  { subst c'. destruct erase; by destruct c. }
  split; [by rewrite Hc'|]. split; [by rewrite Hc'|]. split; [exact Hb|].
  eapply coherent_transfer; [exact Hch|exact Hc|exact Hc'|done|]. intros Hg.
  pose proof (isBrokerCached_spec _ _ _ Hc Hg Hid Hin) as Hcached. destruct Hg as [Hen Hbr _ _ Hca Hto Hwi].
  pose proof (existsb_has reg' (bc_cachedBrokers c) topic) as Hex.
  set (some := existsb _ _) in *.
  assert (erase = true ↔ id ∈ bc_cachedBrokers c ∧ topic ∈ bc_topics c ∧ some = false) as Herase.
  { unfold erase. rewrite Hen, Hnew. cbn [andb negb]. rewrite andb_true_r, !andb_true_iff, Hcached, bool_decide_eq_true, negb_true_iff. tauto. }
  assert (∀ x t, registry_hasTopic reg' x t = true ↔ registry_hasTopic reg x t = true ∧ ¬ (x = id ∧ t = topic)) as Hrem.
  { intros x t. by apply topic_removed. }
  destruct erase eqn:Her.
  - destruct (proj1 Herase eq_refl) as (Hidc & Htop & Hno). subst c'. cbn. split.
    + intros t. rewrite elem_of_difference, elem_of_singleton, Hto. split.
      * intros [(x & Hx & Hxt) Hne]. exists x. split; [done|]. apply Hrem. split; [done|]. by intros [_ ?].
      * intros (x & Hx & Hxt). split; [exists x; split; [done|]; by apply Hrem|]. intros ->.
        assert (some = true) by (apply Hex; by exists x). congruence.
    + rewrite wildcards_in_delete, Hwi by done. destruct (isWildcard topic); lia.
  - subst c'. split; [|done]. intros t. rewrite Hto. split.
    + intros (x & Hx & Hxt). destruct (decide (x = id ∧ t = topic)) as [[-> ->]|Hne]; [|exists x; split; [done|]; by apply Hrem].
      destruct some eqn:Hsome; [by apply Hex|].
      exfalso. assert (false = true) as Hf; [|done]. apply Herase. split; [done|]. split; [|done]. apply Hto. by exists id.
    + intros (x & Hx & Hxt). exists x. split; [done|]. by apply Hrem in Hxt as [? _].
Qed.

(** ** The caches of a broker *)

(** No broker is behind two bridges of [b]. *)
Definition one_way reg (b : string) : Prop := ∀ g1 g2 x,
  edge reg b g1 → edge reg b g2 → behind reg b g1 x → behind reg b g2 x → g1 = g2.

Definition bridges_ok reg (b : string) (m : gmap string BrokerBridgeTopicCache) : Prop :=
  ∀ g c, m !! g = Some c → bc_brokerId c = b ∧ bc_bridgeId c = g ∧ coherent reg c.

Lemma first_bridge_spec reg reg' id topic b f l m : topic_changed reg reg' id topic → one_way reg b →
  (∀ c, coherent reg c → let '(taken, c') := f c in bc_brokerId c' = bc_brokerId c ∧ bc_bridgeId c' = bc_bridgeId c ∧
    if (taken : bool) then behind reg (bc_brokerId c) (bc_bridgeId c) id ∧ coherent reg' c' else c' = c) →
  (∀ c, coherent reg c → (f c).1 = false → coherent reg' c) → bridges_ok reg b m → NoDup l →
  (∀ g c, m !! g = Some c → g ∉ l → coherent reg' c) → bridges_ok reg' b (first_bridge f l m).
Proof.
  intros Hch How Hf Hf' Hm. induction l as [|g l IH]; intros Hnd Hdone; cbn [first_bridge].
  { intros g c Hc. destruct (Hm g c Hc) as (? & ? & _). split_and!; [done|done|]. eapply Hdone; [done|]. apply not_elem_of_nil. }
  apply NoDup_cons in Hnd as [Hg Hnd]. destruct (m !! g) as [c|] eqn:Hc.
  - destruct (Hm g c Hc) as (Hb & Hgc & Hco). pose proof (Hf c Hco) as Hfc. pose proof (Hf' c Hco) as Hfc'.
    destruct (f c) as [taken c'] eqn:E. destruct taken.
    + destruct Hfc as (Hb' & Hg' & Hbeh & Hco'). intros g2 c2 Hc2. destruct (decide (g2 = g)) as [->|Hne].
      * rewrite lookup_insert in Hc2. rewrite decide_True in Hc2 by done. simplify_eq. by split_and!.
      * rewrite lookup_insert_ne in Hc2 by done. destruct (Hm g2 c2 Hc2) as (Hb2 & Hgc2 & Hco2). split_and!; [done|done|].
        apply (coherent_elsewhere reg reg' id topic); [done|done|]. rewrite Hb2, Hgc2. rewrite Hb, Hgc in Hbeh. intros Hbeh2. apply Hne.
        apply (How g2 g id); [|rewrite <-Hb, <-Hgc; apply Hco|done|done]. rewrite <-Hb2, <-Hgc2. apply Hco2.
    + destruct Hfc as (_ & _ & ->). rewrite insert_id by done. apply IH; [done|]. intros g2 c2 Hc2 Hn.
      destruct (decide (g2 = g)) as [->|Hne]; [|apply (Hdone g2); [done|]; by intros [|]%elem_of_cons].
      simplify_eq. by apply Hfc'.
  - apply IH; [done|]. intros g2 c2 Hc2 Hn. apply (Hdone g2); [done|]. by intros [->|]%elem_of_cons; [congruence|].
Qed.

Lemma not_taken reg reg' id topic c : topic_changed reg reg' id topic → coherent reg c → containsBroker id c = false → coherent reg' c.
Proof.
  intros Hch Hc Hn. eapply coherent_transfer; [exact Hch|exact Hc|by destruct c|done|]. intros [_ Hbr _ _ Hca Hto Hwi].
  split; [|done]. apply bool_decide_eq_false in Hn.
  intros t. rewrite Hto. apply exist_proper. intros x. split; intros [Hx Ht]; (split; [done|]).
  - rewrite (tch_other _ _ _ _ Hch); [done|]. left. intros ->. by apply Hn, Hca.
  - rewrite (tch_other _ _ _ _ Hch) in Ht; [done|]. left. intros ->. by apply Hn, Hca.
Qed.

(** A broker's caches stay coherent when a topic comes or goes. *)
Definition broker_cache_ok reg (b : string) (t : BrokerTopicCache) : Prop := tc_brokerId t = b ∧ bridges_ok reg b (tc_bridges t).

Lemma bridges_rest reg (m : gmap string BrokerBridgeTopicCache) : ∀ g c, m !! g = Some c → g ∉ hash_order (dom m) → coherent reg c.
Proof. intros g c Hc Hn. exfalso. apply Hn. rewrite hash_order_elem. by apply elem_of_dom_2 in Hc. Qed.

Lemma broker_addTopic_ok reg reg' id topic b t : topic_changed reg reg' id topic → registry_hasTopic reg' id topic = true →
  one_way reg b → broker_cache_ok reg b t → broker_cache_ok reg' b (broker_addTopic reg' id topic t).
Proof.
  intros Hch Hnew How [Hb Hm]. split; [done|]. cbn. apply (first_bridge_spec reg reg' id topic); [done|done| | |done|apply hash_order_NoDup|apply bridges_rest].
  - intros c Hc. by apply (bridge_addTopic_coherent reg).
  - intros c Hc Hf. apply (not_taken reg reg' id topic); [done|done|]. unfold bridge_addTopic in Hf. by destruct (containsBroker id c).
Qed.
Lemma broker_removeTopic_ok reg reg' id topic b t : topic_changed reg reg' id topic → registry_hasTopic reg' id topic = false →
  one_way reg b → broker_cache_ok reg b t → broker_cache_ok reg' b (broker_removeTopic reg' id topic t).
Proof.
  intros Hch Hnew How [Hb Hm]. split; [done|]. cbn. apply (first_bridge_spec reg reg' id topic); [done|done| | |done|apply hash_order_NoDup|apply bridges_rest].
  - intros c Hc. by apply (bridge_removeTopic_coherent reg).
  - intros c Hc Hf. apply (not_taken reg reg' id topic); [done|done|]. unfold bridge_removeTopic in Hf. by destruct (containsBroker id c).
Qed.

(** ** The service *)

(** While the service is enabled, all caches are coherent. *)
Definition service_ok reg (s : TopicCacheService) : Prop :=
  ts_wasEnabled s = true → ∀ b t, ts_brokerCacheById s !! b = Some t → broker_cache_ok reg b t.

Lemma checkEnabled_ok reg now s enabled s' : service_ok reg s → checkEnabled settings now s = (enabled, s') →
  service_ok reg s' ∧ ts_wasEnabled s' = enabled.
Proof.
  unfold checkEnabled. destruct (now_enabled settings now s) eqn:He; cbn.
  - assert (now_enabled settings now (s <| ts_enabledTime := 0 |>) = true) as He0.
    { unfold now_enabled in *. by apply andb_true_iff in He as [-> _]. }
    unfold clearCache, check_for_clear. cbn in He0. rewrite He0. destruct (ts_wasEnabled s) eqn:Hw; cbn; intros Hok [= <- <-]; (split; [|done]).
    + intros _. exact (Hok Hw).
    + intros _ b t Hb. cbn in Hb. by rewrite lookup_empty in Hb.
  - rewrite andb_false_r. intros _ [= <- <-]. split; [|done]. by intros [=].
Qed.

(** Clearing establishes coherence with whatever the registry says. *)
Lemma clearCacheWithDelay_ok reg now later s : service_ok reg (clearCacheWithDelay settings now later s).
Proof.
  unfold service_ok, clearCacheWithDelay, clearCache, check_for_clear. destruct (now_enabled settings now s); cbn; [|done].
  intros _ b t Hb. by rewrite lookup_empty in Hb.
Qed.

(** A change of the registry that no cache depends on. *)
Lemma service_ok_ext reg reg' s : (∀ x y, edge reg' x y ↔ edge reg x y) → (∀ x, routes_by_topic reg' x = routes_by_topic reg x) →
  (∀ x, is_Some (reg' !! x) ↔ is_Some (reg !! x)) → (∀ x t, registry_hasTopic reg' x t = registry_hasTopic reg x t) →
  service_ok reg s → service_ok reg' s.
Proof.
  intros He Hr Hk Ht Hs Hen b t Hb. destruct (Hs Hen b t Hb) as [Hid Hm]. split; [done|]. intros g c Hc.
  destruct (Hm g c Hc) as (Hbc & Hgc & Hco). split_and!; [done|done|]. destruct Hco as [Hedge Hco]. split; [by apply He|].
  assert (gathered reg c → gathered reg' c) as Hup.
  { intros Hg. pose proof Hg as [_ _ _ _ _ Hto Hwi]. apply (gathered_update reg reg' c c); [done| |done|done|by destruct c| |done].
    - intros x. by apply behind_ext.
    - intros u. rewrite Hto. apply exist_proper. intros x. by rewrite Ht. }
  destruct (bc_state c); [done|destruct Hco; by auto|]. destruct (bc_topicRoutingEnabled c); [destruct Hco; by auto|].
  destruct Hco as [Hall (x & Hx & Hxr)]. split.
  - intros y Hy. apply (behind_ext reg); [done|by apply Hall].
  - exists x. split; [by apply (behind_ext reg)|by rewrite Hr].
Qed.

Lemma service_addTopic_ok reg reg' now id topic s : topic_changed reg reg' id topic → registry_hasTopic reg' id topic = true →
  (∀ b, one_way reg b) → service_ok reg s → service_ok reg' (service_addTopic settings reg' now id topic s).
Proof.
  intros Hch Hnew How Hs. unfold service_addTopic. destruct (checkEnabled settings now s) as [enabled s'] eqn:He.
  destruct (checkEnabled_ok _ _ _ _ _ Hs He) as [Hs' Hen]. destruct enabled.
  - intros _ b t Hb. cbn in Hb. apply lookup_fmap_Some in Hb as (t0 & <- & Hb). apply (broker_addTopic_ok reg); by auto.
  - intros Hen'. congruence.
Qed.
Lemma service_removeTopic_ok reg reg' now id topic s : topic_changed reg reg' id topic → registry_hasTopic reg' id topic = false →
  (∀ b, one_way reg b) → service_ok reg s → service_ok reg' (service_removeTopic settings reg' now id topic s).
Proof.
  intros Hch Hnew How Hs. unfold service_removeTopic. destruct (checkEnabled settings now s) as [enabled s'] eqn:He.
  destruct (checkEnabled_ok _ _ _ _ _ Hs He) as [Hs' Hen]. destruct enabled.
  - intros _ b t Hb. cbn in Hb. apply lookup_fmap_Some in Hb as (t0 & <- & Hb). apply (broker_removeTopic_ok reg); by auto.
  - intros Hen'. congruence.
Qed.

(** What the service answers is what a search would find. *)
Lemma service_isSubscriber_spec reg now brokerId bridgeId topic s : (∀ x s, reg !! x = Some s → counts_ok s) → service_ok reg s →
  ∃ answered found s', service_isSubscriber settings reg now brokerId bridgeId topic s = Some (answered, found, s') ∧ service_ok reg s' ∧
    (answered = true → (found = true ↔ subscriber_behind settings reg brokerId bridgeId topic)).
Proof.
  intros Hcnt Hs. unfold service_isSubscriber. destruct (checkEnabled settings now s) as [enabled s1] eqn:He.
  destruct (checkEnabled_ok _ _ _ _ _ Hs He) as [Hs1 Hen]. destruct enabled; cbn [negb]; [|by exists false, false, s1].
  specialize (Hs1 Hen). assert (∀ t, getBrokerCache reg brokerId s1 = Some t → broker_cache_ok reg brokerId t) as Hget.
  { unfold getBrokerCache. destruct (ts_brokerCacheById s1 !! brokerId) eqn:Hb; [intros t [= <-]; by apply Hs1|].
    destruct (registered reg brokerId); [|done]. intros t [= <-]. split; [done|]. intros g c Hc. cbn in Hc. by rewrite lookup_empty in Hc. }
  destruct (getBrokerCache reg brokerId s1) as [t|]; [|exists false, false, s1; split_and!; [done|by intros _|done]].
  destruct (Hget t eq_refl) as [Hid Hm].
  assert (∀ t', broker_cache_ok reg brokerId t' → service_ok reg (s1 <| ts_brokerCacheById ::= <[brokerId := t']> |>)) as Hput.
  { intros t' Ht' _ b t2 Hb. cbn in Hb. apply lookup_insert_Some in Hb as [[<- <-]|[_ Hb]]; [done|by apply Hs1]. }
  assert (∀ c, getBridgeCache reg bridgeId t = Some c → bc_brokerId c = brokerId ∧ bc_bridgeId c = bridgeId ∧ coherent reg c) as Hgetb.
  { unfold getBridgeCache. destruct (tc_bridges t !! bridgeId) eqn:Hb; [intros c [= <-]; by apply Hm|].
    destruct (registry_hasConnection reg (tc_brokerId t) bridgeId) eqn:Hconn; [|done]. intros c [= <-]. rewrite Hid in *. split_and!; [done|done|].
    apply coherent_new. unfold registry_hasConnection in Hconn. destruct (reg !! brokerId) as [st|] eqn:Hst; [|by rewrite andb_false_r in Hconn].
    apply andb_true_iff in Hconn as [_ Hconn%bool_decide_eq_true]. exists st. split; [done|]. by apply elem_of_dom. }
  destruct (getBridgeCache reg bridgeId t) as [c|]; [|eexists false, false, _; split_and!; [done|by apply Hput|done]].
  destruct (Hgetb c eq_refl) as (Hcb & Hcg & Hco).
  destruct (bridge_isSubscriber_spec reg c topic Hcnt Hco) as (answered & found & c' & -> & Hco' & Hcb' & Hcg' & Hans). cbn.
  eexists answered, found, _. split; [reflexivity|]. split; [|by rewrite <-Hcb, <-Hcg]. apply Hput. split; [done|]. cbn.
  intros g c2 Hc2. apply lookup_insert_Some in Hc2 as [[<- <-]|[_ Hc2]]; [|by apply Hm]. split_and!; [congruence|congruence|done].
Qed.
End coherence.
