(* ===== verification/RegistryProofs.v ===== *)
(** * The registry keeps its caches right

    The invariant of the broker registry, that every operation keeps it, and
    what it makes true: routes from the cache are routes of the fabric, and the
    topic cache answers like a search. *)

From S2P Require Import Prelude Topic CoreUtil Fabric FabricProofs TopicCache TopicCacheProofs Registry.
From stdpp Require Import options.

(** ** Routes and edges *)

Lemma edge_insert reg id s s' : reg !! id = Some s → getConnections s' = getConnections s →
  ∀ x y, edge (<[id := s']> reg) x y ↔ edge reg x y.
Proof.
  intros Hs Hc x y. unfold edge. destruct (decide (x = id)) as [->|Hne].
  - rewrite lookup_insert. rewrite decide_True by done. split; intros (s2 & Hs2 & Hy); simplify_eq.
    + exists s. by rewrite <-Hc.
    + exists s'. by rewrite Hc.
  - by rewrite lookup_insert_ne.
Qed.

Lemma route_ext reg reg' x y p : (∀ x y, edge reg' x y ↔ edge reg x y) → route reg x y p → route reg' x y p.
Proof. intros He. induction 1 as [x|x y z p Hxy _ IH Hn]; [constructor|]. apply (route_step reg' x y); [by apply He|done|done]. Qed.

Lemma reachable_ext reg reg' x y : (∀ x y, edge reg' x y ↔ edge reg x y) → reachable reg x y ↔ reachable reg' x y.
Proof. intros He. split; (apply rtc_subrel; intros a b; apply He). Qed.

Lemma known_insert (reg : gmap string BrokerState) id s s' x : reg !! id = Some s →
  is_Some (<[id := s']> reg !! x) ↔ is_Some (reg !! x).
Proof.
  intros Hs. destruct (decide (x = id)) as [->|Hne]; [|by rewrite lookup_insert_ne].
  rewrite lookup_insert, decide_True, Hs by done. done.
Qed.

(** The first broker of a route: a registered one, unless it is the end. *)
Lemma route_first reg n t p : route reg n t p → n = t ∨ is_Some (reg !! n).
Proof. destruct 1 as [|? ? ? ? (s & Hs & _)]; [by left|right]. by rewrite Hs. Qed.

Section registry_proofs.
Context (settings : BrokerSettings) `{HashOrder}.

(** ** The invariant *)

(** [n] is the first broker on a loop-free route from [f] to [t]. *)
Definition next_hop (reg : gmap string BrokerState) (f t n : string) : Prop :=
  ∃ p, edge reg f n ∧ route reg n t p ∧ f ∉ p.

Definition states_ok (reg : gmap string BrokerState) : Prop :=
  ∀ id s, reg !! id = Some s → id ≠ "" ∧ br_id (bs_broker s) = id ∧ counts_ok s.

Record registry_ok (r : BrokerRegistry) : Prop := {
  ro_states : states_ok (rg_registry r);
  ro_cache f t n : rg_cache r !! (f, t) = Some n → f ≠ t ∧ n ≠ "" ∧ next_hop (rg_registry r) f t n;
  ro_topics : service_ok settings (rg_registry r) (rg_topicCacheService r) }.

Lemma states_counts reg : states_ok reg → ∀ x s, reg !! x = Some s → counts_ok s.
Proof. intros Hok x s Hs. by apply Hok in Hs as (_ & _ & ?). Qed.

Lemma states_ok_insert reg id s : states_ok reg → id ≠ "" → br_id (bs_broker s) = id → counts_ok s → states_ok (<[id := s]> reg).
Proof.
  intros Hok Hid Hb Hc x s' Hs. apply lookup_insert_Some in Hs as [[<- <-]|[_ Hs]]; [done|by apply Hok].
Qed.

Lemma next_hop_ext reg reg' f t n : (∀ x y, edge reg' x y ↔ edge reg x y) → next_hop reg f t n → next_hop reg' f t n.
Proof. intros He (p & Hf & Hr & Hn). exists p. split_and!; [by apply He|by eapply route_ext|done]. Qed.

Lemma cache_ext r reg' cache : (∀ x y, edge reg' x y ↔ edge (rg_registry r) x y) → cache = rg_cache r → registry_ok r →
  ∀ f t n, cache !! (f, t) = Some n → f ≠ t ∧ n ≠ "" ∧ next_hop reg' f t n.
Proof. intros He -> Hok f t n Hn. apply (ro_cache _ Hok) in Hn as (? & ? & ?). split_and!; [done|done|by eapply next_hop_ext]. Qed.

(** ** Clearing *)

Lemma look_at_clock_ok (Q : Z → BrokerRegistry → Prop) r :
  Q (rg_clock r 0%nat) (r <| rg_clock := λ n, rg_clock r (S n) |>) → wp look_at_clock Q r.
Proof. done. Qed.

(** Only states matter once the caches are cleared. *)
Lemma clear_topic_cache_ok r : states_ok (rg_registry r) →
  (∀ f t n, rg_cache r !! (f, t) = Some n → f ≠ t ∧ n ≠ "" ∧ next_hop (rg_registry r) f t n) →
  wp (clear_topic_cache settings) (λ _ r', registry_ok r' ∧ rg_registry r' = rg_registry r) r.
Proof.
  intros Hs Hc. unfold clear_topic_cache. wp_step. apply look_at_clock_ok. wp_step. apply look_at_clock_ok. wp_step. cbn.
  split; [|done]. split; cbn; [done|done|]. apply clearCacheWithDelay_ok.
Qed.
Lemma clearAllCaches_ok r : states_ok (rg_registry r) →
  wp (clearAllCaches settings) (λ _ r', registry_ok r' ∧ rg_registry r' = rg_registry r) r.
Proof.
  intros Hs. unfold clearAllCaches. wp_steps. eapply wp_mono; [apply clear_topic_cache_ok|by intros _ r' []].
  - exact Hs.
  - intros f t n Hn. cbn in Hn. by rewrite lookup_empty in Hn.
Qed.

(** ** Changes of one state *)

(** A state that differs in nothing the caches depend on. *)
Definition same_view (s s' : BrokerState) : Prop :=
  br_id (bs_broker s') = br_id (bs_broker s) ∧ getConnections s' = getConnections s ∧ bs_subscriptions s' = bs_subscriptions s ∧
  isTopicRoutingEnabled settings (bs_broker s') = isTopicRoutingEnabled settings (bs_broker s).

Lemma put_same_ok r id s s' : registry_ok r → rg_registry r !! id = Some s → same_view s s' → counts_ok s' →
  registry_ok (r <| rg_registry ::= <[id := s']> |>).
Proof.
  intros Hok Hs (Hid & Hcon & Hsub & Hrout) Hcnt. destruct (ro_states _ Hok id s Hs) as (Hne & Hbr & _).
  pose proof (edge_insert _ _ _ _ Hs Hcon) as He. split; cbn.
  - apply states_ok_insert; [apply Hok|done|congruence|done].
  - by apply (cache_ext r).
  - apply (service_ok_ext settings (rg_registry r)); [done| | | |apply Hok].
    + intros x. unfold routes_by_topic. destruct (decide (x = id)) as [->|]; [|by rewrite lookup_insert_ne].
      rewrite lookup_insert, decide_True, Hs by done. exact Hrout.
    + intros x. by eapply known_insert.
    + intros x t. unfold registry_hasTopic. destruct (decide (x = id)) as [->|]; [|by rewrite lookup_insert_ne].
      rewrite lookup_insert, decide_True, Hs by done. by rewrite Hsub.
Qed.

(** An operation on a known broker that ends by clearing the caches. *)
Lemma put_clear_ok {A} r id s' (a : A) : registry_ok r → id ≠ "" → br_id (bs_broker s') = id → counts_ok s' →
  wp (put_state id s';; clearAllCaches settings;; mret a)
    (λ a' r', a' = a ∧ registry_ok r' ∧ rg_registry r' = <[id := s']> (rg_registry r)) r.
Proof.
  intros Hok Hid Hb Hc. wp_step. unfold put_state. wp_step. wp_step. eapply wp_mono; [apply clearAllCaches_ok|].
  - cbn. by apply states_ok_insert; [apply Hok|..].
  - intros _ r' [Hok' Hr']. wp_step. by rewrite Hr'.
Qed.

Lemma counts_new b now : counts_ok (BrokerState_new b now).
Proof. split; (split; [by vm_compute|done]). Qed.

(** A change of the broker record clears the topic cache if routing changes. *)
Lemma addBroker_ok b r : registry_ok r → wp (addBroker settings b) (λ _ r', registry_ok r') r.
Proof.
  intros Hok. unfold addBroker. destruct (String.eqb_spec (br_id b) "") as [|Hid]; cbn [negb andb]; [by wp_steps|].
  destruct (negb (String.eqb (br_hostname b) "")); [|by wp_steps]. do 2 wp_step. wp_step.
  assert (∀ now, wp (put_state (br_id b) (BrokerState_new b now);; clearAllCaches settings) (λ _ r', registry_ok r')
    (r <| rg_clock := λ n, rg_clock r (S n) |>)) as Hnew.
  { intros now. wp_step. unfold put_state. wp_step. eapply wp_mono; [apply clearAllCaches_ok|by intros _ r' [? _]].
    cbn. by apply states_ok_insert; [apply Hok|done|done|apply counts_new]. }
  eapply (wp_mono _ (λ _ r', registry_ok r')); [|intros _ r' ?; by wp_step].
  destruct (rg_registry r !! br_id b) as [s|] eqn:Hs.
  2: { wp_step. apply look_at_clock_ok. apply Hnew. }
  destruct (br_startTime (bs_broker s) =? br_startTime b); [|wp_step; apply look_at_clock_ok; apply Hnew].
  destruct (ro_states _ Hok _ _ Hs) as (_ & Hbr & Hcnt). set (s' := s <| bs_broker := _ |>).
  destruct (Bool.eqb _ _) eqn:Heq; cbn [negb].
  - wp_step. wp_step. unfold put_state. wp_step. apply (put_same_ok _ _ s); [done|done| |done].
    apply Bool.eqb_prop in Heq. unfold same_view. cbn. split_and!; [done|done|done|]. rewrite Hbr.
    unfold isTopicRoutingEnabled, isLocalBroker in *. cbn. rewrite Hbr in *. by destruct (String.eqb (br_id b) (set_guid settings)).
  - wp_step. unfold clear_topic_cache. wp_step. apply look_at_clock_ok. wp_step. apply look_at_clock_ok. wp_step.
    unfold put_state. wp_step. split; cbn.
    + apply states_ok_insert; [apply Hok|done|done|done].
    + by apply (cache_ext r); [apply (edge_insert _ _ s)|..].
    + apply clearCacheWithDelay_ok.
Qed.

(** Connections do not touch what the broker says of itself and its topics. *)
Definition same_topics (s s' : BrokerState) : Prop :=
  bs_broker s' = bs_broker s ∧ bs_subscriptions s' = bs_subscriptions s ∧
  bs_subscriptionsWildcardCount s' = bs_subscriptionsWildcardCount s ∧ bs_pendingSubscriptions s' = bs_pendingSubscriptions s ∧
  bs_pendingSubscriptionsWildcardCount s' = bs_pendingSubscriptionsWildcardCount s ∧
  bs_subscriptionsChangeCount s' = bs_subscriptionsChangeCount s ∧ bs_regTime s' = bs_regTime s.

Lemma same_topics_counts s s' : same_topics s s' → counts_ok s → counts_ok s'.
Proof. intros (_ & Hs & Hw & Hp & Hpw & _ & _) Hc. unfold counts_ok. by rewrite Hs, Hw, Hp, Hpw. Qed.
Lemma same_topics_trans s1 s2 s3 : same_topics s1 s2 → same_topics s2 s3 → same_topics s1 s3.
Proof. intros (?&?&?&?&?&?&?) (?&?&?&?&?&?&?). unfold same_topics. by split_and!; etrans. Qed.

Lemma addConnection_topics c b s : same_topics s (BrokerState_addConnection c b s).
Proof. done. Qed.
Lemma removeConnection_topics c s : same_topics s (BrokerState_removeConnection c s).
Proof.
  unfold BrokerState_removeConnection. destruct (bs_countedConnections s !! c) as [n|]; [|done]. by destruct (u32 (n - 1) =? 0).
Qed.
Lemma setConnections_topics X Y s : same_topics s (BrokerState_setConnections X Y s).2.
Proof.
  unfold BrokerState_setConnections. destruct (_ || _); [|done]. cbn [snd]. set (s0 := s <| bs_countedConnections := ∅ |> <| bs_childConnections := ∅ |>).
  assert (same_topics s s0) as H0 by done. revert H0. generalize s0. clear s0.
  induction (hash_order X) as [|c cs IH]; intros s0 H0; cbn [foldl]; [done|]. apply IH. by eapply same_topics_trans; [|apply addConnection_topics].
Qed.

(** [with_broker]: an unknown broker is no change. *)
Lemma with_broker_ok id f r (Q : bool → BrokerRegistry → Prop) : registry_ok r →
  (rg_registry r !! id = None → Q false r) →
  (∀ s, rg_registry r !! id = Some s → id ≠ "" → br_id (bs_broker s) = id → counts_ok s → wp (f s) Q r) →
  wp (with_broker id f) Q r.
Proof.
  intros Hok Hn Hf. unfold with_broker. wp_step. wp_step. destruct (rg_registry r !! id) as [s|] eqn:Hs; [|wp_step; by apply Hn].
  destruct (ro_states _ Hok _ _ Hs) as (? & ? & ?). by apply Hf.
Qed.

Lemma removeBroker_spec id r : registry_ok r → wp (removeBroker settings id) (λ b r', registry_ok r' ∧
  b = registered (rg_registry r) id ∧
  rg_registry r' = if b then delete id (map_imap (λ x s, Some (if String.eqb x (set_guid settings) then s else BrokerState_removeConnection id s)) (rg_registry r))
                   else rg_registry r) r.
Proof.
  intros Hok. unfold removeBroker. wp_step. wp_step. destruct (registered (rg_registry r) id) eqn:Hreg; [|by wp_step].
  wp_step. wp_step. wp_step. eapply wp_mono; [apply clearAllCaches_ok|].
  - cbn. intros x s' Hs'. apply lookup_delete_Some in Hs' as [_ Hs']. rewrite map_lookup_imap in Hs'.
    destruct (rg_registry r !! x) as [s|] eqn:Hs; [|done]. cbn in Hs'. simplify_eq.
    destruct (ro_states _ Hok _ _ Hs) as (? & ? & ?). destruct (String.eqb x (set_guid settings)); [done|].
    pose proof (removeConnection_topics id s) as Hst. split; [done|]. split; [|by eapply same_topics_counts].
    destruct Hst as [-> _]. done.
  - intros _ r' [Hok' Hr']. wp_step. split_and!; [done|done|]. by rewrite Hr'.
Qed.
Lemma removeBroker_ok id r : registry_ok r → wp (removeBroker settings id) (λ _ r', registry_ok r') r.
Proof. intros Hok. eapply wp_mono; [by apply removeBroker_spec|by intros b r' []]. Qed.

Lemma registry_updateTtl_ok id ttl r : registry_ok r → wp (registry_updateTtl id ttl) (λ _ r', registry_ok r') r.
Proof.
  intros Hok. apply with_broker_ok; [done|done|]. intros s Hs _ _ Hc. unfold put_state. wp_steps. by eapply put_same_ok.
Qed.
Lemma updateRegistrationTime_ok id r : registry_ok r → wp (updateRegistrationTime id) (λ _ r', registry_ok r') r.
Proof.
  intros Hok. apply with_broker_ok; [done|done|]. intros s Hs _ _ Hc. wp_step. apply look_at_clock_ok. unfold put_state. wp_steps.
  pose proof (put_same_ok _ _ _ (s <| bs_regTime := rg_clock r 0%nat |>) Hok Hs) as [Hst Hca Hto]; [done|done|]. by split.
Qed.

(** The outcome of an operation on a connection. *)
Definition with_state (r : BrokerRegistry) (id : string) (f : BrokerState → BrokerState) : gmap string BrokerState :=
  match rg_registry r !! id with Some s => <[id := f s]> (rg_registry r) | None => rg_registry r end.

Lemma addConnection_spec id c b r : registry_ok r → c ≠ "" → wp (addConnection settings id c b) (λ _ r', registry_ok r' ∧
  rg_registry r' = with_state r id (BrokerState_addConnection c b)) r.
Proof.
  intros Hok Hc. unfold addConnection, with_state. destruct (String.eqb_spec c "") as [|_]; [done|].
  apply with_broker_ok; [done|by intros ->|]. intros s Hs Hne Hb Hcnt.
  eapply wp_mono; [apply put_clear_ok; [done|done|done|exact Hcnt]|]. intros x r' (_ & Hok' & Hr'). split; [done|]. by rewrite Hs.
Qed.
Lemma addConnection_ok id c b r : registry_ok r → wp (addConnection settings id c b) (λ _ r', registry_ok r') r.
Proof.
  intros Hok. destruct (decide (c = "")) as [->|Hc]; [done|]. eapply wp_mono; [by apply addConnection_spec|by intros ? ? []].
Qed.
Lemma removeConnection_spec id c r : registry_ok r → c ≠ "" → wp (removeConnection settings id c) (λ _ r', registry_ok r' ∧
  rg_registry r' = with_state r id (BrokerState_removeConnection c)) r.
Proof.
  intros Hok Hc. unfold removeConnection, with_state. destruct (String.eqb_spec c "") as [|_]; [done|].
  apply with_broker_ok; [done|by intros ->|]. intros s Hs Hne Hb Hcnt. pose proof (removeConnection_topics c s) as Hst.
  eapply wp_mono; [apply put_clear_ok; [done|done| |by eapply same_topics_counts]|].
  - destruct Hst as [-> _]. done.
  - intros x r' (_ & Hok' & Hr'). split; [done|]. by rewrite Hs.
Qed.
Lemma removeConnection_ok id c r : registry_ok r → wp (removeConnection settings id c) (λ _ r', registry_ok r') r.
Proof.
  intros Hok. destruct (decide (c = "")) as [->|Hc]; [done|]. eapply wp_mono; [by apply removeConnection_spec|by intros ? ? []].
Qed.

Lemma setConnections_spec id X Y r : registry_ok r → wp (setConnections settings id X Y) (λ _ r', registry_ok r' ∧
  rg_registry r' = with_state r id (λ s, (BrokerState_setConnections X Y s).2)) r.
Proof.
  intros Hok. unfold setConnections, with_state. apply with_broker_ok; [done|by intros ->|]. intros s Hs Hne Hb Hcnt. rewrite Hs.
  pose proof (setConnections_topics X Y s) as Hst. pose proof (same_topics_counts _ _ Hst Hcnt) as Hcnt'.
  destruct (BrokerState_setConnections X Y s) as [changed s'] eqn:E. cbn [snd] in *. destruct Hst as [Hbr _]. destruct changed.
  - eapply wp_mono; [apply put_clear_ok; [done|done|by rewrite Hbr|done]|]. by intros x r' (_ & ? & ?).
  - assert (s' = s) as ->. { unfold BrokerState_setConnections in E. destruct (_ || _); by simplify_eq. }
    unfold put_state. wp_steps. split; [|done]. by eapply put_same_ok.
Qed.

(** ** Routes *)

Lemma registered_spec (reg : gmap string BrokerState) id : states_ok reg → registered reg id = true ↔ is_Some (reg !! id).
Proof.
  intros Hok. unfold registered. rewrite andb_true_iff, bool_decide_eq_true, negb_true_iff, String.eqb_neq.
  split; [by intros [_ ?]|]. intros [s Hs]. split; [by apply Hok in Hs as [? _]|by rewrite Hs].
Qed.

Lemma next_hop_reachable reg f t n : next_hop reg f t n → reachable reg f t.
Proof. intros (p & He & Hr & _). eapply rtc_l; [done|by eapply route_reachable]. Qed.

(** What [getNextBroker] answers. *)
Definition next_broker (reg : gmap string BrokerState) (f t n : string) : Prop :=
  (n ≠ "" ↔ is_Some (reg !! f) ∧ is_Some (reg !! t) ∧ reachable reg f t) ∧
  (n ≠ "" → f = t ∧ n = t ∨ f ≠ t ∧ next_hop reg f t n).

Lemma next_hop_nonempty reg f t n : states_ok reg → is_Some (reg !! t) → next_hop reg f t n → n ≠ "".
Proof.
  intros Hst Ht (p & _ & Hr & _) ->. apply route_first in Hr as [<-|[s Hs]]; [destruct Ht as [s Hs]|]; by apply Hst in Hs as [? _].
Qed.

Lemma getNextBroker_wp f t r : registry_ok r → wp (getNextBroker f t) (λ n r',
  registry_ok r' ∧ rg_registry r' = rg_registry r ∧ next_broker (rg_registry r) f t n) r.
Proof.
  intros Hok. pose proof (ro_states _ Hok) as Hst. unfold getNextBroker. wp_step. wp_step.
  pose proof (registered_spec _ f Hst) as Hf. pose proof (registered_spec _ t Hst) as Ht.
  destruct (negb (String.eqb f "") && negb (String.eqb t "") && registered (rg_registry r) f && registered (rg_registry r) t) eqn:Hb.
  2: { wp_step. split_and!; [done|done|]. split; [|done]. split; [done|]. intros (Hfk & Htk & _).
       assert (∀ x, is_Some (rg_registry r !! x) → String.eqb x "" = false) as Hne.
       { intros x [s Hs]. apply String.eqb_neq. by apply Hst in Hs as [? _]. }
       rewrite !Hne, (proj2 Hf), (proj2 Ht) in Hb; done. }
  apply andb_true_iff in Hb as [Hb Htk%Ht]. apply andb_true_iff in Hb as [Hb Hfk%Hf].
  apply andb_true_iff in Hb as [Hfne%negb_true_iff Htne%negb_true_iff].
  destruct (String.eqb_spec f t) as [->|Hne].
  { wp_step. split_and!; [done|done|]. split; [|by left]. split; [intros _; split_and!; [done|done|constructor]|]. intros _. by apply String.eqb_neq. }
  assert (∀ n, next_hop (rg_registry r) f t n → next_broker (rg_registry r) f t n) as Hhop.
  { intros n Hn. pose proof (next_hop_nonempty _ _ _ _ Hst Htk Hn). split; [|by right].
    split; [|done]. intros _. split_and!; [done|done|by eapply next_hop_reachable]. }
  wp_step. wp_step. unfold Cache_get. rewrite Hfne, Htne. cbn [negb andb].
  destruct (rg_cache r !! (f, t)) as [n|] eqn:Hcache; cbn [default].
  { apply (ro_cache _ Hok) in Hcache as (_ & Hn & Hhopn). apply String.eqb_neq in Hn. unfold Datatypes.id, id. rewrite Hn. cbn [negb].
    wp_step. split_and!; [done|done|by apply Hhop]. }
  cbn. wp_step. destruct (find_route_spec (rg_registry r) t f) as (res & V & Hrun & Hres).
  eapply wp_deref; [exact Hrun|]. cbn [fst]. destruct res as [p|].
  2: { wp_step. split_and!; [done|done|]. split; [|done]. split; [done|]. by intros (_ & _ & ?). }
  inversion Hres as [|x y z q He Hr Hn]; subst; [done|]. cbn [tail]. wp_step. eapply wp_deref; [by eapply route_head|].
  assert (next_hop (rg_registry r) f t y) as Hy by (by exists q). pose proof (next_hop_nonempty _ _ _ _ Hst Htk Hy) as Hyne.
  wp_step. wp_step. wp_step. cbn. split_and!; [|done|by apply Hhop]. destruct Hok as [Hs1 Hc1 Ht1]. split; cbn; [done| |done].
  intros f' t' n' Hl. unfold Cache_add in Hl. destruct (_ && _ && _); [|by apply Hc1].
  apply lookup_insert_Some in Hl as [[[= <- <-] <-]|[_ Hl]]; [by split_and!|by apply Hc1].
Qed.

Lemma isBridgeConnectAllowed_wp id r : registry_ok r → wp (isBridgeConnectAllowed settings id) (λ b r',
  registry_ok r' ∧ rg_registry r' = rg_registry r ∧
  (b = true ↔ ¬ (is_Some (rg_registry r !! set_guid settings) ∧ is_Some (rg_registry r !! id) ∧ reachable (rg_registry r) (set_guid settings) id))) r.
Proof.
  intros Hok. unfold isBridgeConnectAllowed. wp_step. eapply wp_mono; [by apply getNextBroker_wp|]. intros n r' (Hok' & Hr' & [Hn _]).
  wp_step. split_and!; [done|done|]. rewrite <-Hn, String.eqb_eq. split; [intros -> Hx; by apply Hx|]. intros Hnn. destruct (String.eqb_spec n ""); [done|by destruct Hnn].
Qed.

(** ** Topics *)

Lemma isSubscriberInHierarchy_wp brokerId c topic r : registry_ok r → wp (isSubscriberInHierarchy settings brokerId c topic) (λ b r',
  registry_ok r' ∧ rg_registry r' = rg_registry r ∧ (b = true ↔ subscriber_behind settings (rg_registry r) brokerId c topic)) r.
Proof.
  intros Hok. unfold isSubscriberInHierarchy. wp_step. apply look_at_clock_ok. wp_step. wp_step. unfold id at 1. cbn [rg_registry rg_topicCacheService].
  destruct (service_isSubscriber_spec settings (rg_registry r) (rg_clock r 0%nat) brokerId c topic (rg_topicCacheService r)) as (answered & found & svc & Hrun & Hsvc & Hans).
  { apply states_counts, Hok. }
  { apply Hok. }
  wp_step. eapply wp_deref; [exact Hrun|]. cbv beta iota zeta. wp_step. wp_step.
  set (r' := _ <| rg_topicCacheService := svc |>). assert (registry_ok r') as Hok' by (split; cbn; [apply Hok|apply Hok|done]).
  destruct answered.
  - wp_step. split_and!; [done|done|by apply Hans].
  - destruct (findSubscriber_spec settings (rg_registry r) brokerId c topic) as (b & Hb & Hspec). eapply wp_deref; [exact Hb|]. by split_and!.
Qed.

Lemma isTopicRoutingEnabled_same b b' : br_id b' = br_id b → br_topicRoutingEnabled b' = br_topicRoutingEnabled b →
  isTopicRoutingEnabled settings b' = isTopicRoutingEnabled settings b.
Proof. unfold isTopicRoutingEnabled, isLocalBroker. by intros -> ->. Qed.

(** A subscription of a known broker, changed in the registry. *)
Lemma topic_changed_insert reg id s s' topic : reg !! id = Some s → bs_broker s' = bs_broker s → getConnections s' = getConnections s →
  (∀ t, t ≠ topic → t ∈ bs_subscriptions s' ↔ t ∈ bs_subscriptions s) → topic_changed settings reg (<[id := s']> reg) id topic.
Proof.
  intros Hs Hb Hc Ht. split.
  - by apply (edge_insert _ _ s).
  - intros x. unfold routes_by_topic. destruct (decide (x = id)) as [->|]; [|by rewrite lookup_insert_ne].
    rewrite lookup_insert, decide_True, Hs by done. by rewrite Hb.
  - intros x. by eapply known_insert.
  - by rewrite Hs.
  - intros x t Hxt. unfold registry_hasTopic. destruct (decide (x = id)) as [->|]; [|by rewrite lookup_insert_ne].
    rewrite lookup_insert, decide_True, Hs by done. apply bool_decide_ext, Ht. by destruct Hxt.
Qed.

Lemma counts_add topic s : counts_ok s → bs_subscriptionsWildcardCount s + 1 < 2 ^ 32 → counts_ok (BrokerState_addTopic settings topic s).2.
Proof.
  intros [[Hle Hlt] Hp] Hb. unfold BrokerState_addTopic. case_bool_decide as Hin; [done|]. split; [|done]. cbn.
  rewrite wildcards_in_insert by done. destruct (isWildcard topic); rewrite ?u32_id by lia; lia.
Qed.
Lemma counts_remove topic s : counts_ok s → counts_ok (BrokerState_removeTopic settings topic s).2.
Proof.
  intros [[Hle Hlt] Hp]. unfold BrokerState_removeTopic. case_bool_decide as Hin; [|done]. split; [|done]. cbn.
  rewrite wildcards_in_delete by done. pose proof (wildcards_in_delete _ _ Hin). destruct (isWildcard topic); rewrite ?u32_id by lia; lia.
Qed.

Lemma addTopic_spec id topic r : registry_ok r → (∀ b, one_way (rg_registry r) b) →
  (∀ s, rg_registry r !! id = Some s → bs_subscriptionsWildcardCount s + 1 < 2 ^ 32) →
  wp (addTopic settings id topic) (λ _ r', registry_ok r' ∧
    rg_registry r' = with_state r id (λ s, (BrokerState_addTopic settings topic s).2)) r.
Proof.
  intros Hok How Hfit. unfold addTopic, with_state. apply with_broker_ok; [done|by intros ->|]. intros s Hs Hne Hb Hcnt. rewrite Hs.
  pose proof (counts_add topic s Hcnt (Hfit s Hs)) as Hcnt'. unfold BrokerState_addTopic in *. case_bool_decide as Hin; cbn [snd] in *.
  { unfold put_state. wp_steps. split; [|done]. by eapply put_same_ok. }
  set (s' := s <| bs_subscriptions ::= _ |> <| bs_subscriptionsChangeCount ::= _ |> <| bs_subscriptionsWildcardCount ::= _ |>) in *.
  assert (topic_changed settings (rg_registry r) (<[id := s']> (rg_registry r)) id topic) as Hch.
  { apply (topic_changed_insert _ _ s); [done|done|done|]. intros t Ht. subst s'. cbn. set_solver. }
  wp_step. unfold put_state. wp_step. wp_step. apply look_at_clock_ok. wp_steps. cbn. split; [|done]. split; cbn.
  - by apply states_ok_insert; [apply Hok|..].
  - by apply (cache_ext r); [apply Hch|..].
  - apply (service_addTopic_ok settings (rg_registry r)); [done| |done|apply Hok].
    unfold registry_hasTopic. rewrite lookup_insert, decide_True by done. apply bool_decide_eq_true. subst s'. cbn. set_solver.
Qed.
Lemma removeTopic_spec id topic r : registry_ok r → (∀ b, one_way (rg_registry r) b) →
  wp (removeTopic settings id topic) (λ _ r', registry_ok r' ∧
    rg_registry r' = with_state r id (λ s, (BrokerState_removeTopic settings topic s).2)) r.
Proof.
  intros Hok How. unfold removeTopic, with_state. apply with_broker_ok; [done|by intros ->|]. intros s Hs Hne Hb Hcnt. rewrite Hs.
  pose proof (counts_remove topic s Hcnt) as Hcnt'. unfold BrokerState_removeTopic in *. case_bool_decide as Hin; cbn [snd] in *.
  2: { unfold put_state. wp_steps. split; [|done]. by eapply put_same_ok. }
  set (s' := s <| bs_subscriptions ::= _ |> <| bs_subscriptionsChangeCount ::= _ |> <| bs_subscriptionsWildcardCount ::= _ |>) in *.
  assert (topic_changed settings (rg_registry r) (<[id := s']> (rg_registry r)) id topic) as Hch.
  { apply (topic_changed_insert _ _ s); [done|done|done|]. intros t Ht. subst s'. cbn. set_solver. }
  wp_step. unfold put_state. wp_step. wp_step. apply look_at_clock_ok. wp_steps. cbn. split; [|done]. split; cbn.
  - by apply states_ok_insert; [apply Hok|..].
  - by apply (cache_ext r); [apply Hch|..].
  - apply (service_removeTopic_ok settings (rg_registry r)); [done| |done|apply Hok].
    unfold registry_hasTopic. rewrite lookup_insert, decide_True by done. apply bool_decide_eq_false. subst s'. cbn. set_solver.
Qed.
End registry_proofs.
