(* ===== verification/TopicSync.v ===== *)
(** * Topics travel between brokers

    A broker tells the others its topics in batches ([BrokerState::batchTopics],
    [BrokerStateTopicsSender], [BrokerStateTopicsEventHandler]); later changes
    one at a time ([BrokerTopicEventHandler]). The receiver ends up with the
    sender's topics. *)

From S2P Require Import Prelude Topic CoreUtil Fabric FabricProofs TopicCache TopicCacheProofs Registry RegistryProofs.
From stdpp Require Import options.

(** ** Batches *)

(** Batches with one first and one last. *)
Fixpoint batch_stream (isFirst : bool) (bs : list topics_batch) : Prop :=
  match bs with
  | [] => False
  | b :: bs' => tb_isFirst b = isFirst ∧
    match bs' with [] => tb_isLast b = true | _ => tb_isLast b = false ∧ batch_stream false bs' end
  end.

Lemma batch_stream_cons isFirst b bs : bs ≠ [] → tb_isFirst b = isFirst → tb_isLast b = false → batch_stream false bs →
  batch_stream isFirst (b :: bs).
Proof. intros Hbs Hf Hl Hs. split; [done|]. by destruct bs. Qed.

Lemma elements_add (t : string) (X : gset string) : t ∉ X → elements ({[t]} ∪ X) ≡ₚ t :: elements X.
Proof. intros Hn. by rewrite elements_union_singleton. Qed.

Lemma batch_loop_spec charCount size l batch cur count index isFirst : l ≠ [] → NoDup l → (∀ t, t ∈ l → t ∉ batch) →
  count + Z.of_nat (length l) = size →
  batch_stream isFirst (batch_loop charCount size l batch cur count index isFirst) ∧
  concat (map (elements ∘ tb_topics) (batch_loop charCount size l batch cur count index isFirst)) ≡ₚ elements batch ++ l.
Proof.
  revert batch cur count index isFirst. induction l as [|t l IH]; intros batch cur count index isFirst Hne Hnd Hdis Hsize; [done|].
  apply NoDup_cons in Hnd as [Ht Hnd]. cbn [length] in Hsize. cbn [batch_loop].
  assert (t ∉ batch) as Htb by (apply Hdis; by left). pose proof (elements_add _ _ Htb) as Hel.
  destruct l as [|u l].
  - assert (count =? size - 1 = true) as -> by (apply Z.eqb_eq; cbn in Hsize; lia). rewrite orb_true_r. cbn.
    split; [done|]. rewrite app_nil_r, Hel. apply Permutation_cons_append.
  - assert (count =? size - 1 = false) as -> by (apply Z.eqb_neq; cbn in Hsize; lia). rewrite orb_false_r.
    destruct (charCount <=? cur + strlen t).
    + destruct (IH ∅ 0 (count + 1) (index + 1) false) as [Hs Hp]; [done|done|set_solver|lia|]. split.
      * apply batch_stream_cons; [by intros E; rewrite E in Hs|done|done|done].
      * cbn [map concat compose]. rewrite Hp, Hel, elements_empty. cbn [app]. by rewrite Permutation_middle.
    + destruct (IH ({[t]} ∪ batch) (cur + strlen t) (count + 1) index isFirst) as [Hs Hp]; [done|done| |lia|].
      * intros v Hv. rewrite elem_of_union, elem_of_singleton. intros [->|Hvb]; [done|]. apply (Hdis v); [by right|done].
      * split; [done|]. rewrite Hp, Hel. cbn [app]. by rewrite Permutation_middle.
Qed.

Section sync.
Context `{HashOrder}.
Implicit Types s : BrokerState.

(** The batches partition the topics. *)
Lemma batchTopics_spec charCount s : batch_stream true (BrokerState_batchTopics charCount s) ∧
  concat (map (elements ∘ tb_topics) (BrokerState_batchTopics charCount s)) ≡ₚ elements (bs_subscriptions s).
Proof.
  unfold BrokerState_batchTopics. destruct (Z.eqb_spec (Z.of_nat (length (hash_order (bs_subscriptions s)))) 0) as [Hz|Hz].
  - assert (hash_order (bs_subscriptions s) = []) as E by (destruct (hash_order _); [done|cbn in Hz; lia]).
    split; [done|]. cbn. rewrite elements_empty. cbn. by rewrite <-hash_order_perm, E.
  - destruct (batch_loop_spec charCount (Z.of_nat (length (hash_order (bs_subscriptions s)))) (hash_order (bs_subscriptions s)) ∅ 0 0 0 true) as [Hs Hp].
    + intros E. by rewrite E in Hz.
    + apply hash_order_NoDup.
    + set_solver.
    + lia.
    + split; [done|]. rewrite Hp, elements_empty. apply hash_order_perm.
Qed.

(** ** Events *)

Fixpoint event_stream (isFirst : bool) (startTime changeCount : Z) (es : list topics_event) : Prop :=
  match es with
  | [] => False
  | e :: es' => te_stateStart e = isFirst ∧ te_startTime e = startTime ∧ te_changeCount e = changeCount ∧
    match es' with [] => te_stateEnd e = true | _ => te_stateEnd e = false ∧ event_stream false startTime changeCount es' end
  end.

Lemma topics_events_stream charCount s :
  event_stream true (br_startTime (bs_broker s)) (bs_subscriptionsChangeCount s) (topics_events charCount s) ∧
  concat (map te_topics (topics_events charCount s)) ≡ₚ elements (bs_subscriptions s).
Proof.
  destruct (batchTopics_spec charCount s) as [Hs Hp]. unfold topics_events. split.
  - clear Hp. revert Hs. generalize true. induction (BrokerState_batchTopics charCount s) as [|b bs IH]; intros first Hs; [done|].
    destruct Hs as [Hf Hs]. cbn [map event_stream te_stateStart te_startTime te_changeCount te_stateEnd]. split_and!; [done|done|done|].
    destruct bs as [|b2 bs]; [done|]. destruct Hs as [Hl Hs]. split; [done|]. by apply IH.
  - rewrite <-Hp. clear. induction (BrokerState_batchTopics charCount s) as [|b bs IH]; [done|].
    cbn [map concat te_topics]. rewrite IH, hash_order_perm. done.
Qed.

(** What reading a payload yields. *)
Lemma read_topics_spec l : NoDup l → Z.of_nat (length l) < 2 ^ 32 →
  read_topics l = (list_to_set l, Z.of_nat (size (wildcards_in (list_to_set l)))) ∧
  Z.of_nat (size (wildcards_in (list_to_set l))) <= Z.of_nat (length l).
Proof.
  unfold read_topics. intros Hnd. assert (∀ X : gset string, (∀ t, t ∈ l → t ∉ X) →
    Z.of_nat (size (wildcards_in X)) + Z.of_nat (length l) < 2 ^ 32 →
    foldl (λ (r : gset string * Z) t, ({[t]} ∪ r.1, if isWildcard t then u32 (r.2 + 1) else r.2)) (X, Z.of_nat (size (wildcards_in X))) l =
      (X ∪ list_to_set l, Z.of_nat (size (wildcards_in (X ∪ list_to_set l)))) ∧
    Z.of_nat (size (wildcards_in (X ∪ list_to_set l))) <= Z.of_nat (size (wildcards_in X)) + Z.of_nat (length l)) as Hgen.
  { induction Hnd as [|t l Ht Hnd IH]; intros X Hdis Hb.
    - cbn. assert (X ∪ ∅ = X) as -> by set_solver. split; [done|]. lia.
    - cbn [length] in Hb |- *. cbn [foldl fst snd list_to_set]. assert (t ∉ X) as HtX by (apply Hdis; by left).
      pose proof (wildcards_in_insert t X HtX) as Hw. assert (X ∪ ({[t]} ∪ list_to_set l) = ({[t]} ∪ X) ∪ list_to_set l) as -> by set_solver.
      assert ((if isWildcard t then u32 (Z.of_nat (size (wildcards_in X)) + 1) else Z.of_nat (size (wildcards_in X))) =
        Z.of_nat (size (wildcards_in ({[t]} ∪ X)))) as ->.
      { rewrite Hw. destruct (isWildcard t); [by rewrite u32_id by lia|lia]. }
      destruct (IH ({[t]} ∪ X)) as [-> Hle].
      + intros u Hu. rewrite elem_of_union, elem_of_singleton. intros [->|HuX]; [done|]. apply (Hdis u); [by right|done].
      + destruct (isWildcard t); lia.
      + split; [done|]. destruct (isWildcard t); lia. }
  intros Hb. destruct (Hgen ∅) as [Hr Hle]; [set_solver| |].
  - change (size (wildcards_in ∅)) with 0%nat. lia.
  - change (size (wildcards_in ∅)) with 0%nat in Hr, Hle. cbn [Z.of_nat] in Hr, Hle. rewrite union_empty_l_L in Hr, Hle. split; [exact Hr|]. lia.
Qed.

(** With repeated topics the count may be too high, never too low. *)
Lemma read_topics_le l : Z.of_nat (length l) < 2 ^ 32 →
  Z.of_nat (size (wildcards_in (read_topics l).1)) <= (read_topics l).2 <= Z.of_nat (length l).
Proof.
  unfold read_topics. assert (∀ (X : gset string) n, Z.of_nat (size (wildcards_in X)) <= n → n + Z.of_nat (length l) < 2 ^ 32 →
    let r := foldl (λ (r : gset string * Z) t, ({[t]} ∪ r.1, if isWildcard t then u32 (r.2 + 1) else r.2)) (X, n) l in
    Z.of_nat (size (wildcards_in r.1)) <= r.2 <= n + Z.of_nat (length l)) as Hgen.
  { induction l as [|t l IH]; intros X n Hn Hb; [cbn; lia|]. cbn [length] in Hb |- *. cbn [foldl fst snd].
    assert (Z.of_nat (size (wildcards_in ({[t]} ∪ X))) <= Z.of_nat (size (wildcards_in X)) + (if isWildcard t then 1 else 0)) as Hw.
    { destruct (decide (t ∈ X)) as [Ht|Ht]; [|by rewrite wildcards_in_insert].
      replace ({[t]} ∪ X) with X by set_solver. destruct (isWildcard t); lia. }
    pose proof (IH ({[t]} ∪ X) (if isWildcard t then u32 (n + 1) else n)) as IH'. cbv zeta in IH' |- *.
    destruct (isWildcard t); rewrite ?u32_id in IH' |- * by lia; [destruct IH'; lia|]. destruct IH'; lia. }
  intros Hb. apply (Hgen ∅ 0); [done|lia].
Qed.
End sync.

(** ** Reception *)

Section reception.
Context (settings : BrokerSettings) `{HashOrder}.

(** What a batch does to the receiver's state of the sender. *)
Definition receive (e : topics_event) (s : BrokerState) : BrokerState :=
  let payload := read_topics (te_topics e) in
  let s := BrokerState_addPendingTopics payload.1 payload.2 (if te_stateStart e then BrokerState_clearPendingTopics s else s) in
  if te_stateEnd e then BrokerState_swapPendingTopics s <| bs_subscriptionsChangeCount := te_changeCount e |> else s.

Lemma clearPendingTopics_wp guid s r : registry_ok settings r → rg_registry r !! guid = Some s →
  wp (clearPendingTopics guid) (λ _ r', registry_ok settings r' ∧ rg_registry r' = <[guid := BrokerState_clearPendingTopics s]> (rg_registry r)) r.
Proof.
  intros Hok Hs. apply (with_broker_ok settings); [done|congruence|]. intros s' Hs' _ _ Hc. rewrite Hs in Hs'. simplify_eq.
  unfold put_state. wp_steps. split; [|done]. eapply (put_same_ok settings); [done|done|done|]. destruct Hc as [? _]. by split.
Qed.

Lemma addPendingTopics_wp guid s X n r : registry_ok settings r → rg_registry r !! guid = Some s →
  Z.of_nat (size (wildcards_in X)) <= n → bs_pendingSubscriptionsWildcardCount s + n < 2 ^ 32 →
  wp (addPendingTopics guid X n) (λ _ r', registry_ok settings r' ∧ rg_registry r' = <[guid := BrokerState_addPendingTopics X n s]> (rg_registry r)) r.
Proof.
  intros Hok Hs Hn Hb. apply (with_broker_ok settings); [done|congruence|]. intros s' Hs' _ _ [Hc1 Hc2]. rewrite Hs in Hs'. simplify_eq.
  unfold put_state. wp_steps. split; [|done]. eapply (put_same_ok settings); [done|done|done|]. split; [done|]. cbn. rewrite u32_id by lia.
  assert (wildcards_in (bs_pendingSubscriptions s' ∪ X) = wildcards_in (bs_pendingSubscriptions s') ∪ wildcards_in X) as ->.
  { apply set_eq. intros t. unfold wildcards_in. rewrite elem_of_union, !elem_of_filter, elem_of_union. tauto. }
  rewrite size_union_alt. assert (size (wildcards_in X ∖ wildcards_in (bs_pendingSubscriptions s')) <= size (wildcards_in X))%nat.
  { apply subseteq_size. set_solver. }
  lia.
Qed.

Lemma swapPendingTopics_wp guid s r : registry_ok settings r → rg_registry r !! guid = Some s →
  wp (swapPendingTopics settings guid) (λ _ r', registry_ok settings r' ∧ rg_registry r' = <[guid := BrokerState_swapPendingTopics s]> (rg_registry r)) r.
Proof.
  intros Hok Hs. apply (with_broker_ok settings); [done|congruence|]. intros s' Hs' Hne Hb [Hc1 Hc2]. rewrite Hs in Hs'. simplify_eq.
  unfold put_state. wp_step. wp_step. wp_step. eapply wp_mono; [apply (clear_topic_cache_ok settings)|].
  - cbn. apply states_ok_insert; [apply Hok|done|done|]. by split.
  - cbn. by apply (cache_ext settings r); [apply (edge_insert _ _ s')|..].
  - intros _ r' [Hok' Hr']. wp_step. by rewrite Hr'.
Qed.

Lemma setTopicsChangeCount_wp guid s n r : registry_ok settings r → rg_registry r !! guid = Some s →
  wp (setTopicsChangeCount guid n) (λ _ r', registry_ok settings r' ∧
    rg_registry r' = <[guid := s <| bs_subscriptionsChangeCount := n |>]> (rg_registry r)) r.
Proof.
  intros Hok Hs. apply (with_broker_ok settings); [done|congruence|]. intros s' Hs' _ _ Hc. rewrite Hs in Hs'. simplify_eq.
  unfold put_state. wp_steps. split; [|done]. by eapply (put_same_ok settings).
Qed.

Lemma lookup_insert_here {A} (m : gmap string A) k v : <[k := v]> m !! k = Some v.
Proof. by rewrite lookup_insert, decide_True. Qed.

Lemma insert_again {A} (m : gmap string A) k u v : <[k := v]> (<[k := u]> m) = <[k := v]> m.
Proof. by rewrite insert_insert, decide_True. Qed.

(** The handler, on a state that is out of date. *)
Lemma on_broker_topics_wp guid s e r : registry_ok settings r → set_topicRoutingEnabled settings = true →
  rg_registry r !! guid = Some s →
  br_startTime (bs_broker s) ≠ te_startTime e ∨ bs_subscriptionsChangeCount s ≠ te_changeCount e →
  Z.of_nat (size (wildcards_in (read_topics (te_topics e)).1)) <= (read_topics (te_topics e)).2 →
  (if te_stateStart e then 0 else bs_pendingSubscriptionsWildcardCount s) + (read_topics (te_topics e)).2 < 2 ^ 32 →
  wp (on_broker_topics settings false guid e) (λ _ r', registry_ok settings r' ∧
    rg_registry r' = <[guid := receive e s]> (rg_registry r)) r.
Proof.
  intros Hok Hset Hs Hold Hle Hfit. unfold on_broker_topics. rewrite Hset. cbn [negb orb]. wp_step. wp_step. rewrite Hs.
  assert (negb (br_startTime (bs_broker s) =? te_startTime e) || negb (bs_subscriptionsChangeCount s =? te_changeCount e) = true) as ->.
  { apply orb_true_iff. rewrite !negb_true_iff, !Z.eqb_neq. done. }
  unfold receive. destruct (read_topics (te_topics e)) as [X n] eqn:Hread. cbn [fst snd] in *. wp_step.
  set (s1 := if te_stateStart e then BrokerState_clearPendingTopics s else s).
  eapply (wp_mono _ (λ _ r', registry_ok settings r' ∧ rg_registry r' = <[guid := s1]> (rg_registry r))).
  { subst s1. destruct (te_stateStart e); [by apply clearPendingTopics_wp|]. wp_step. split; [done|]. by rewrite insert_id. }
  intros _ r1 [Hok1 Hr1]. assert (rg_registry r1 !! guid = Some s1) as Hs1 by (rewrite Hr1; apply lookup_insert_here).
  wp_step. eapply wp_mono; [apply addPendingTopics_wp; [done|exact Hs1|done|]|].
  { subst s1. by destruct (te_stateStart e). }
  intros _ r2 [Hok2 Hr2]. set (s2 := BrokerState_addPendingTopics X n s1) in *.
  assert (rg_registry r2 !! guid = Some s2) as Hs2 by (rewrite Hr2; apply lookup_insert_here).
  destruct (te_stateEnd e); [|wp_step; split; [done|]; rewrite Hr2, Hr1, insert_again; reflexivity].
  wp_step. eapply wp_mono; [by apply swapPendingTopics_wp|]. intros _ r3 [Hok3 Hr3].
  assert (rg_registry r3 !! guid = Some (BrokerState_swapPendingTopics s2)) as Hs3 by (rewrite Hr3; apply lookup_insert_here).
  wp_step. eapply wp_mono; [by apply setTopicsChangeCount_wp|]. intros _ r4 [Hok4 Hr4]. wp_step. split; [done|].
  rewrite Hr4, Hr3, Hr2, Hr1, !insert_again. reflexivity.
Qed.

(** A stream of events in the order they were sent. *)
Fixpoint on_topics_events (guid : string) (es : list topics_event) : ST BrokerRegistry () :=
  match es with [] => mret tt | e :: es' => on_broker_topics settings false guid e;; on_topics_events guid es' end.

Lemma wildcards_in_union (X Y : gset string) : (∀ t, t ∈ Y → t ∉ X) →
  Z.of_nat (size (wildcards_in (X ∪ Y))) = Z.of_nat (size (wildcards_in X)) + Z.of_nat (size (wildcards_in Y)).
Proof.
  intros Hdis. assert (wildcards_in (X ∪ Y) = wildcards_in X ∪ wildcards_in Y) as ->.
  { apply set_eq. intros t. unfold wildcards_in. rewrite elem_of_union, !elem_of_filter, elem_of_union. tauto. }
  rewrite size_union; [lia|]. unfold wildcards_in. intros t [_ Hx]%elem_of_filter [_ Hy]%elem_of_filter. by apply (Hdis t).
Qed.

(** The receiver's state of the sender once [topics] have arrived. *)
Definition synced (topics : gset string) (changeCount : Z) (s : BrokerState) : BrokerState :=
  s <| bs_subscriptions := topics |> <| bs_subscriptionsWildcardCount := Z.of_nat (size (wildcards_in topics)) |>
    <| bs_pendingSubscriptions := ∅ |> <| bs_pendingSubscriptionsWildcardCount := 0 |>
    <| bs_subscriptionsChangeCount := changeCount |>.

Lemma receive_stream first startTime changeCount es guid s r P : event_stream first startTime changeCount es →
  registry_ok settings r → set_topicRoutingEnabled settings = true → rg_registry r !! guid = Some s →
  br_startTime (bs_broker s) ≠ startTime ∨ bs_subscriptionsChangeCount s ≠ changeCount →
  (if first then P = ∅ else bs_pendingSubscriptions s = P ∧ bs_pendingSubscriptionsWildcardCount s = Z.of_nat (size (wildcards_in P))) →
  NoDup (concat (map te_topics es)) → (∀ t, t ∈ concat (map te_topics es) → t ∉ P) →
  Z.of_nat (size (wildcards_in P)) + Z.of_nat (length (concat (map te_topics es))) < 2 ^ 32 →
  wp (on_topics_events guid es) (λ _ r', registry_ok settings r' ∧
    rg_registry r' = <[guid := synced (P ∪ list_to_set (concat (map te_topics es))) changeCount s]> (rg_registry r)) r.
Proof.
  revert first s r P. induction es as [|e es IH]; intros first s r P Hes Hok Hset Hs Hold HP Hnd Hdis Hlen; [done|].
  destruct Hes as (Hf & Hst & Hcc & Hrest). cbn [map concat] in *. rewrite length_app in Hlen.
  apply NoDup_app in Hnd as (Hnd1 & Hdis12 & Hnd2).
  destruct (read_topics_spec (te_topics e) Hnd1 ltac:(lia)) as [Hread Hle]. set (X := list_to_set (te_topics e)) in *.
  assert (∀ t, t ∈ X → t ∉ P) as HdisX.
  { intros t Ht. apply Hdis. apply elem_of_app. left. by apply elem_of_list_to_set in Ht. }
  pose proof (wildcards_in_union P X HdisX) as Hw. cbn [on_topics_events]. wp_step. eapply wp_mono; [apply (on_broker_topics_wp _ s)|].
  1-3: done.
  { rewrite Hst, Hcc. exact Hold. }
  { rewrite Hread. cbn. lia. }
  { rewrite Hread, Hf. cbn [snd]. destruct first; [subst P; lia|]. destruct HP as [_ ->]. lia. }
  intros _ r1 [Hok1 Hr1]. assert (receive e s = if te_stateEnd e then synced (P ∪ X) changeCount s
    else s <| bs_pendingSubscriptions := P ∪ X |> <| bs_pendingSubscriptionsWildcardCount := Z.of_nat (size (wildcards_in (P ∪ X))) |>) as Hrec.
  { unfold receive. rewrite Hread, Hf, Hcc. cbn [fst snd]. destruct first.
    - subst P. change (Z.of_nat (size (wildcards_in ∅))) with 0 in Hw, Hlen. rewrite Z.add_0_l in Hw.
      unfold BrokerState_addPendingTopics, BrokerState_clearPendingTopics, synced. cbn. rewrite Hw, Z.add_0_l, u32_id by lia.
      destruct (te_stateEnd e); reflexivity.
    - destruct HP as [<- HP]. unfold BrokerState_addPendingTopics. cbn. rewrite HP, Hw. rewrite u32_id by lia.
      unfold synced. cbn. rewrite Hw. destruct (te_stateEnd e); reflexivity. }
  rewrite Hrec in Hr1. destruct es as [|e2 es].
  - rewrite Hrest in Hr1. cbn [on_topics_events map concat]. wp_step. split; [done|]. rewrite Hr1, app_nil_r. done.
  - destruct Hrest as [Hend Hrest]. rewrite Hend in Hr1. set (s1 := s <| bs_pendingSubscriptions := _ |> <| bs_pendingSubscriptionsWildcardCount := _ |>) in *.
    eapply wp_mono; [apply (IH false s1 r1 (P ∪ X)); [done|done|done|rewrite Hr1; apply lookup_insert_here|done|done|done| |]|].
    + intros t Ht. rewrite elem_of_union. intros [HtP|HtX].
      * apply (Hdis t); [apply elem_of_app; by right|done].
      * apply elem_of_list_to_set in HtX. by apply (Hdis12 t).
    + lia.
    + intros _ r2 [Hok2 Hr2]. split; [done|]. rewrite Hr2, Hr1, insert_again, list_to_set_app_L, (assoc_L (∪)). reflexivity.
Qed.

(** C19: A broker that announces its topics in batches, however large they may
    be, is understood: when the other broker has handled the events, and
    its record of the sender was out of date, the record has the sender's
    topics, the number of wildcards among them and the sender's change count,
    and is otherwise unchanged, like the rest of the registry. *)
Theorem topics_arrive charCount sender guid s r : registry_ok settings r → set_topicRoutingEnabled settings = true →
  rg_registry r !! guid = Some s →
  br_startTime (bs_broker s) ≠ br_startTime (bs_broker sender) ∨
    bs_subscriptionsChangeCount s ≠ bs_subscriptionsChangeCount sender →
  Z.of_nat (size (bs_subscriptions sender)) < 2 ^ 32 →
  wp (on_topics_events guid (topics_events charCount sender)) (λ _ r', registry_ok settings r' ∧
    rg_registry r' = <[guid := synced (bs_subscriptions sender) (bs_subscriptionsChangeCount sender) s]> (rg_registry r)) r.
Proof.
  intros Hok Hset Hs Hold Hsize. destruct (topics_events_stream charCount sender) as [Hst Hp].
  eapply wp_mono; [apply (receive_stream true (br_startTime (bs_broker sender)) (bs_subscriptionsChangeCount sender) _ _ s r ∅); [exact Hst|done|done|done|done|done| |set_solver|]|].
  - rewrite Hp. apply NoDup_elements.
  - change (size (wildcards_in ∅)) with 0%nat. rewrite Hp. exact Hsize.
  - intros _ r' [Hok' Hr']. split; [done|]. rewrite Hr', union_empty_l_L. f_equal. f_equal. apply set_eq. intros t.
    by rewrite elem_of_list_to_set, Hp, elem_of_elements.
Qed.

(** ** One change at a time *)

(** The receiver's record agrees with the sender's state. *)
Definition in_sync (sender s : BrokerState) : Prop :=
  bs_subscriptions s = bs_subscriptions sender ∧ bs_subscriptionsChangeCount s = bs_subscriptionsChangeCount sender ∧
  br_startTime (bs_broker s) = br_startTime (bs_broker sender).

(** A broker's change to its own topics, told to another one that was in
    sync, leaves the other in sync: both sides change their set and count the
    change alike, also when the counter wraps around. *)
Theorem topic_event_keeps_sync sender_settings (isAdd : bool) topic guid sender s r :
  registry_ok settings r → (∀ b, one_way (rg_registry r) b) → set_topicRoutingEnabled settings = true →
  isLocalBroker sender_settings (bs_broker sender) = true → rg_registry r !! guid = Some s → guid ≠ set_guid settings →
  bs_subscriptionsWildcardCount s + 1 < 2 ^ 32 → 0 <= bs_subscriptionsChangeCount sender < 2 ^ 32 → in_sync sender s →
  let op := if isAdd then BrokerState_addTopic sender_settings topic else BrokerState_removeTopic sender_settings topic in
  (op sender).1 = true →
  wp (on_broker_topic settings false isAdd guid topic (br_startTime (bs_broker sender)) (bs_subscriptionsChangeCount (op sender).2))
    (λ _ r', registry_ok settings r' ∧ ∃ s', rg_registry r' !! guid = Some s' ∧ in_sync (op sender).2 s') r.
Proof.
  intros Hok How Hset Hloc Hs Hg Hw Hcc (Hsub & Hcnt & Hst) op Hch.
  destruct (ro_states _ _ Hok _ _ Hs) as (_ & Hid & _).
  assert (isLocalBroker settings (bs_broker s) = false) as Hrem by (unfold isLocalBroker; rewrite Hid; by apply String.eqb_neq).
  assert (bs_subscriptionsChangeCount (op sender).2 = u32 (bs_subscriptionsChangeCount sender + 1) ∧
    bs_broker (op sender).2 = bs_broker sender) as [Hcc' Hbr'].
  { subst op. destruct isAdd; unfold BrokerState_addTopic, BrokerState_removeTopic in *; case_bool_decide; try done; cbn; by rewrite Hloc. }
  unfold on_broker_topic. rewrite Hset. cbn [negb orb]. wp_step. wp_step. rewrite Hs, Hst, Z.eqb_refl, Hcnt, Hcc'. cbn [andb].
  assert (bs_subscriptionsChangeCount sender =? u32 (u32 (bs_subscriptionsChangeCount sender + 1) - 1) = true) as ->.
  { apply Z.eqb_eq. unfold u32. rewrite Zminus_mod_idemp_l, Z.mod_small; lia. }
  set (s1 := (if isAdd then BrokerState_addTopic settings topic s else BrokerState_removeTopic settings topic s).2).
  assert (bs_subscriptions s1 = bs_subscriptions (op sender).2 ∧ bs_broker s1 = bs_broker s) as [Hsub1 Hbr1].
  { subst s1 op. destruct isAdd; unfold BrokerState_addTopic, BrokerState_removeTopic; rewrite Hsub; case_bool_decide; (split; [cbn; by rewrite ?Hsub|done]). }
  wp_step. eapply (wp_mono _ (λ _ r', registry_ok settings r' ∧ rg_registry r' !! guid = Some s1)).
  { subst s1. destruct isAdd.
    - eapply wp_mono; [apply addTopic_spec; [done|done|congruence]|]. intros b r' [Hok' ->]. split; [done|].
      unfold with_state. rewrite Hs. apply lookup_insert_here.
    - eapply wp_mono; [by apply removeTopic_spec|]. intros b r' [Hok' ->]. split; [done|].
      unfold with_state. rewrite Hs. apply lookup_insert_here. }
  intros _ r1 [Hok1 Hr1]. wp_step. eapply wp_mono; [by apply setTopicsChangeCount_wp|]. intros _ r2 [Hok2 Hr2]. wp_step. split; [done|].
  eexists. split; [rewrite Hr2; apply lookup_insert_here|]. unfold in_sync. cbn. rewrite Hsub1, Hbr1, Hbr', Hcc'. done.
Qed.
End reception.
