(* ===== verification/RegistryClaims.v ===== *)
(** * What the broker registry promises

    The registry as a transition system: whatever operations run, in whatever
    order, none fails and the invariant holds. Then what a caller may rely on:
    routes, the admission of bridges, subscribers behind a bridge, expiry. *)

From S2P Require Import Prelude Topic CoreUtil Fabric FabricProofs TopicCache TopicCacheProofs Registry RegistryProofs TopicSync.
From stdpp Require Import options.

(** The operations on the registry and the messages that lead to them. *)
Inductive registry_op :=
| OpAddBroker (b : Broker)
| OpRemoveBroker (brokerId : string)
| OpUpdateTtl (brokerId : string) (ttl : Z)
| OpUpdateRegistrationTime (brokerId : string)
| OpAddConnection (brokerId connectionId : string) (isChild : bool)
| OpRemoveConnection (brokerId connectionId : string)
| OpSetConnections (brokerId : string) (connectionIds childConnectionIds : gset string)
| OpGetNextBroker (from_ to_ : string)
| OpIsBridgeConnectAllowed (brokerId : string)
| OpMaintenance (time : Z)
| OpAddTopic (brokerId topic : string)
| OpRemoveTopic (brokerId topic : string)
| OpIsSubscriber (brokerId connection topic : string)
| OpBrokerState (isLocal : bool) (b : Broker) (connections childConnections : gset string)
| OpBrokerTopics (isLocal : bool) (brokerGuid : string) (e : topics_event)
| OpBrokerTopic (isLocal isAdd : bool) (brokerGuid topic : string) (startTime changeCount : Z).

Section claims.
Context (settings : BrokerSettings) `{HashOrder}.

Definition ignore {A} (m : ST BrokerRegistry A) : ST BrokerRegistry () := m;; mret tt.

Definition run_op (op : registry_op) : ST BrokerRegistry () :=
  match op with
  | OpAddBroker b => ignore (addBroker settings b)
  | OpRemoveBroker id => ignore (removeBroker settings id)
  | OpUpdateTtl id ttl => ignore (registry_updateTtl id ttl)
  | OpUpdateRegistrationTime id => ignore (updateRegistrationTime id)
  | OpAddConnection id c b => ignore (addConnection settings id c b)
  | OpRemoveConnection id c => ignore (removeConnection settings id c)
  | OpSetConnections id X Y => ignore (setConnections settings id X Y)
  | OpGetNextBroker f t => ignore (getNextBroker f t)
  | OpIsBridgeConnectAllowed id => ignore (isBridgeConnectAllowed settings id)
  | OpMaintenance time => onCoreMaintenance settings time
  | OpAddTopic id t => ignore (addTopic settings id t)
  | OpRemoveTopic id t => ignore (removeTopic settings id t)
  | OpIsSubscriber id c t => ignore (isSubscriberInHierarchy settings id c t)
  | OpBrokerState l b X Y => on_broker_state settings l b X Y
  | OpBrokerTopics l id e => on_broker_topics settings l id e
  | OpBrokerTopic l a id t st cc => on_broker_topic settings l a id t st cc
  end.

(** What an operation needs: room in the 32-bit counters, and for a change of
    one topic that no broker is behind two bridges of another. *)
Definition topic_fits (id : string) (r : BrokerRegistry) : Prop :=
  (∀ b, one_way (rg_registry r) b) ∧ ∀ s, rg_registry r !! id = Some s → bs_subscriptionsWildcardCount s + 1 < 2 ^ 32.
Definition op_fits (op : registry_op) (r : BrokerRegistry) : Prop :=
  match op with
  | OpAddTopic id _ | OpRemoveTopic id _ | OpBrokerTopic _ _ id _ _ _ => topic_fits id r
  | OpBrokerTopics _ id e =>
    ∀ s, rg_registry r !! id = Some s → bs_pendingSubscriptionsWildcardCount s + Z.of_nat (length (te_topics e)) < 2 ^ 32
  | _ => True
  end.

(** ** Maintenance *)

(** The clock moved on, nothing else that expiry depends on changed. *)
Definition ticked (r r' : BrokerRegistry) : Prop :=
  rg_ttlCheckTime r' = rg_ttlCheckTime r ∧ ∃ k, ∀ n, rg_clock r' n = rg_clock r (k + n)%nat.

Lemma removeBroker_ticked id r : wp (removeBroker settings id) (λ _ r', ticked r r') r.
Proof.
  unfold removeBroker. wp_step. wp_step. destruct (registered _ _); [|wp_step; split; [done|by exists 0%nat]].
  wp_step. wp_step. wp_step. unfold clearAllCaches. wp_step. wp_step. unfold clear_topic_cache.
  wp_step. apply look_at_clock_ok. wp_step. apply look_at_clock_ok. wp_step. wp_step. split; [done|]. by exists 2%nat.
Qed.

Lemma isExpired_same now s s' : bs_broker s' = bs_broker s → bs_regTime s' = bs_regTime s → isExpired settings now s' = isExpired settings now s.
Proof. unfold isExpired. by intros -> ->. Qed.

(** What removing a broker leaves. *)
Lemma removeBroker_lookup id (reg : gmap string BrokerState) x :
  (delete id (map_imap (λ x s, Some (if String.eqb x (set_guid settings) then s else BrokerState_removeConnection id s)) reg)) !! x =
  if decide (x = id) then None
  else (λ s, if String.eqb x (set_guid settings) then s else BrokerState_removeConnection id s) <$> reg !! x.
Proof.
  destruct (decide (x = id)) as [->|Hne]; [by rewrite lookup_delete, decide_True|]. rewrite lookup_delete_ne by done.
  rewrite map_lookup_imap. by destruct (reg !! x).
Qed.

(** The loop over [ids]: survivors were not expired when they were looked at,
    the others were. *)
Definition expired_to (ids : list string) (r r' : BrokerRegistry) : Prop :=
  (∀ x s', rg_registry r' !! x = Some s' → ∃ s, rg_registry r !! x = Some s ∧ same_topics s s' ∧
    (x ∈ ids → ∃ n, isExpired settings (rg_clock r n) s = false)) ∧
  (∀ x s, rg_registry r !! x = Some s → rg_registry r' !! x = None → ∃ n, isExpired settings (rg_clock r n) s = true).

Lemma expire_loop_spec ids r : registry_ok settings r → NoDup ids →
  wp (expire_loop settings ids) (λ _ r', registry_ok settings r' ∧ rg_ttlCheckTime r' = rg_ttlCheckTime r ∧ expired_to ids r r') r.
Proof.
  intros Hok Hnd. revert r Hok. induction Hnd as [|id ids Hid _ IH]; intros r Hok; cbn [expire_loop].
  { wp_step. split_and!; [done|done|]. split; [|congruence]. intros x s' Hs'. exists s'. split_and!; [done|done|]. by intros ?%elem_of_nil. }
  wp_step. apply look_at_clock_ok. wp_step. wp_step. set (r0 := r <| rg_clock := _ |>).
  assert (registry_ok settings r0) as Hok0 by (destruct Hok; by split). wp_step.
  eapply (wp_mono _ (λ _ r1, registry_ok settings r1 ∧ ticked r0 r1 ∧
    (∀ x s', rg_registry r1 !! x = Some s' → ∃ s, rg_registry r !! x = Some s ∧ same_topics s s' ∧
      (x = id → isExpired settings (rg_clock r 0%nat) s = false)) ∧
    (∀ x s, rg_registry r !! x = Some s → rg_registry r1 !! x = None → isExpired settings (rg_clock r 0%nat) s = true))).
  - assert (registered (rg_registry r) id = true ↔ is_Some (rg_registry r !! id)) as Hreg by (by apply registered_spec, Hok).
    assert (∀ P, (∀ s, rg_registry r !! id = Some s → P s) → ∀ x s', rg_registry r0 !! x = Some s' →
      ∃ s, rg_registry r !! x = Some s ∧ same_topics s s' ∧ (x = id → P s)) as Hkeep.
    { intros P HP x s' Hs'. exists s'. split_and!; [done|done|]. intros ->. by apply HP. }
    assert (∀ x s, rg_registry r !! x = Some s → rg_registry r0 !! x = None → isExpired settings (rg_clock r 0%nat) s = true) as Hnone.
    { intros x s Hs Hn. change (rg_registry r0) with (rg_registry r) in Hn. congruence. }
    change (rg_registry r0) with (rg_registry r). destruct (rg_registry r !! id) as [s|] eqn:Hs.
    + destruct (isExpired settings (rg_clock r 0%nat) s) eqn:Hexp.
      * wp_step. eapply wp_mono; [apply wp_and; [apply removeBroker_spec, Hok0|apply removeBroker_ticked]|].
        intros b r1 [(Hok1 & -> & Hr1) Htick]. wp_step. split; [done|]. split; [done|]. change (rg_registry r0) with (rg_registry r) in Hr1.
        rewrite (proj2 Hreg) in Hr1 by done. split; intros x s' Hs'; rewrite Hr1, removeBroker_lookup in *.
        -- destruct (decide (x = id)) as [->|Hne]; [done|]. destruct (rg_registry r !! x) as [s0|]; [|done]. cbn in Hs'. simplify_eq.
           exists s0. split_and!; [done| |done]. destruct (String.eqb x (set_guid settings)); [done|apply removeConnection_topics].
        -- destruct (decide (x = id)) as [->|Hne]; [congruence|]. by rewrite Hs'.
      * wp_step. split; [done|]. split; [split; [done|by exists 0%nat]|]. split; [|exact Hnone].
        apply (Hkeep (λ s, isExpired settings (rg_clock r 0%nat) s = false)). intros s0 Hs0. by simplify_eq.
    + wp_step. split; [done|]. split; [split; [done|by exists 0%nat]|]. split; [|exact Hnone].
      apply (Hkeep (λ s, isExpired settings (rg_clock r 0%nat) s = false)). intros s0 Hs0. by simplify_eq.
  - intros _ r1 (Hok1 & [Httl [k Hk]] & Hsur & Hgone). eapply wp_mono; [by apply IH|]. intros _ r2 (Hok2 & Httl2 & Hsur2 & Hgone2).
    assert (∀ n, rg_clock r1 n = rg_clock r (S (k + n))) as Hclock by (intros n; by rewrite Hk).
    split_and!; [done|by rewrite Httl2, Httl|]. split.
    + intros x s2 Hs2. destruct (Hsur2 x s2 Hs2) as (s1 & Hs1 & Hst2 & Hexp2). destruct (Hsur x s1 Hs1) as (s & Hs & Hst1 & Hexp1).
      exists s. split_and!; [done|by eapply same_topics_trans|]. intros [->|Hx]%elem_of_cons; [exists 0%nat; by apply Hexp1|].
      destruct (Hexp2 Hx) as [n Hn]. exists (S (k + n)). rewrite <-Hclock. destruct Hst1 as (Hb & _ & _ & _ & _ & _ & Ht).
      by rewrite <-(isExpired_same _ s s1).
    + intros x s Hs Hn2. destruct (rg_registry r1 !! x) as [s1|] eqn:Hs1; [|exists 0%nat; by eapply Hgone].
      destruct (Hgone2 x s1 Hs1 Hn2) as [n Hn]. destruct (Hsur x s1 Hs1) as (s' & Hs' & (Hb & _ & _ & _ & _ & _ & Ht) & _).
      assert (s' = s) as -> by congruence. exists (S (k + n)). rewrite <-Hclock. by rewrite <-(isExpired_same _ s s1).
Qed.

Lemma onCoreMaintenance_ok time r : registry_ok settings r → wp (onCoreMaintenance settings time) (λ _ r', registry_ok settings r') r.
Proof.
  intros Hok. unfold onCoreMaintenance. wp_step. wp_step. destruct (_ <=? _); [|by wp_step]. wp_step. wp_step. wp_step. wp_step.
  eapply wp_mono; [apply expire_loop_spec|by intros _ r' []]; [destruct Hok; by split|apply hash_order_NoDup].
Qed.

(** ** Every operation *)

Lemma ignore_ok {A} (m : ST BrokerRegistry A) r : wp m (λ _ r', registry_ok settings r') r → wp (ignore m) (λ _ r', registry_ok settings r') r.
Proof. intros Hm. unfold ignore. wp_step. eapply wp_mono; [exact Hm|]. intros a r' Hok. by wp_step. Qed.

Lemma setTopicsChangeCount_ok id n r : registry_ok settings r → wp (setTopicsChangeCount id n) (λ _ r', registry_ok settings r') r.
Proof.
  intros Hok. destruct (rg_registry r !! id) as [s|] eqn:Hs.
  - eapply wp_mono; [by apply (setTopicsChangeCount_wp settings)|by intros _ r' []].
  - unfold setTopicsChangeCount, with_broker. wp_step. wp_step. rewrite Hs. by wp_step.
Qed.

Lemma on_broker_topics_ok l id e r : registry_ok settings r → op_fits (OpBrokerTopics l id e) r →
  wp (on_broker_topics settings l id e) (λ _ r', registry_ok settings r') r.
Proof.
  intros Hok Hfit. cbn in Hfit. destruct (set_topicRoutingEnabled settings) eqn:Hset.
  2: { unfold on_broker_topics. rewrite Hset. cbn [negb orb]. by wp_step. }
  destruct l; [unfold on_broker_topics; rewrite orb_true_r; by wp_step|].
  destruct (rg_registry r !! id) as [s|] eqn:Hs.
  2: { unfold on_broker_topics. rewrite Hset. cbn [negb orb]. wp_step. wp_step. rewrite Hs. by wp_step. }
  destruct (ro_states _ _ Hok _ _ Hs) as (_ & _ & _ & Hpend). specialize (Hfit s eq_refl).
  pose proof (read_topics_le (te_topics e) ltac:(lia)) as Hread.
  destruct (decide (br_startTime (bs_broker s) = te_startTime e ∧ bs_subscriptionsChangeCount s = te_changeCount e)) as [[Hst Hcc]|Hold].
  - unfold on_broker_topics. rewrite Hset. cbn [negb orb]. wp_step. wp_step. rewrite Hs, Hst, Hcc, !Z.eqb_refl. cbn [negb orb]. by wp_step.
  - eapply wp_mono; [apply (on_broker_topics_wp settings id s); [done|done|done| | |]|by intros _ r' []].
    + destruct (decide (br_startTime (bs_broker s) = te_startTime e)); [right; naive_solver|by left].
    + lia.
    + destruct (te_stateStart e); lia.
Qed.

Lemma on_broker_topic_ok l a id t st cc r : registry_ok settings r → topic_fits id r →
  wp (on_broker_topic settings l a id t st cc) (λ _ r', registry_ok settings r') r.
Proof.
  intros Hok [How Hfit]. unfold on_broker_topic. destruct (_ || _); [by wp_step|]. wp_step. wp_step. wp_step.
  eapply (wp_mono _ (λ _ r', registry_ok settings r')).
  - destruct a; (eapply wp_mono; [first [by apply addTopic_spec|by apply removeTopic_spec]|by intros ? ? []]).
  - intros _ r1 Hok1. destruct (match rg_registry r !! id with Some _ => _ | None => _ end); [|by wp_step].
    wp_step. eapply wp_mono; [by apply setTopicsChangeCount_ok|]. intros b r2 Hok2. by wp_step.
Qed.

Lemma on_broker_state_ok l b X Y r : registry_ok settings r → wp (on_broker_state settings l b X Y) (λ _ r', registry_ok settings r') r.
Proof.
  intros Hok. unfold on_broker_state. destruct l; [by wp_step|]. wp_step. eapply wp_mono; [by apply addBroker_ok|]. intros b1 r1 Hok1.
  wp_step. eapply wp_mono; [by apply setConnections_spec|]. intros b2 r2 [Hok2 _]. wp_step.
  eapply wp_mono; [by apply updateRegistrationTime_ok|]. intros b3 r3 Hok3. by wp_step.
Qed.

Lemma run_op_ok op r : registry_ok settings r → op_fits op r → wp (run_op op) (λ _ r', registry_ok settings r') r.
Proof.
  intros Hok Hfit. destruct op; cbn [run_op] in *; try apply ignore_ok.
  - by apply addBroker_ok.
  - by apply removeBroker_ok.
  - by apply registry_updateTtl_ok.
  - by apply updateRegistrationTime_ok.
  - by apply addConnection_ok.
  - by apply removeConnection_ok.
  - eapply wp_mono; [by apply setConnections_spec|by intros ? ? []].
  - eapply wp_mono; [by apply getNextBroker_wp|by intros ? ? []].
  - eapply wp_mono; [by apply isBridgeConnectAllowed_wp|by intros ? ? []].
  - by apply onCoreMaintenance_ok.
  - destruct Hfit. eapply wp_mono; [by apply addTopic_spec|by intros ? ? []].
  - destruct Hfit. eapply wp_mono; [by apply removeTopic_spec|by intros ? ? []].
  - eapply wp_mono; [by apply isSubscriberInHierarchy_wp|by intros ? ? []].
  - by apply on_broker_state_ok.
  - by apply on_broker_topics_ok.
  - by apply on_broker_topic_ok.
Qed.

(** A registry that starts empty, after any operations that fit. *)
Inductive registry_reachable : BrokerRegistry → Prop :=
| registry_start r : rg_registry r = ∅ → rg_cache r = ∅ → ts_brokerCacheById (rg_topicCacheService r) = ∅ → registry_reachable r
| registry_step op r r' : registry_reachable r → op_fits op r → run_op op r = Some (tt, r') → registry_reachable r'.

Lemma registry_reachable_ok r : registry_reachable r → registry_ok settings r.
Proof.
  induction 1 as [r Hr Hc Ht|op r r' _ Hok Hfit Hrun].
  - split; [intros id s Hs|intros f t n Hn|intros _ b t Hb].
    + by rewrite Hr, lookup_empty in Hs.
    + by rewrite Hc, lookup_empty in Hn.
    + by rewrite Ht, lookup_empty in Hb.
  - exact (wp_inv _ _ _ _ _ (run_op_ok op r Hok Hfit) Hrun).
Qed.

(** C16: The caches of the registry stay true. Through any sequence of operations that
    fit, in any order, with any clock and otherwise any arguments, no operation fails,
    every route in the routing cache is the first hop of a loop-free route of the fabric
    as it is now, and the topic cache, while enabled, holds for every bridge what the
    brokers behind it subscribe to. Two things have to fit ([op_fits]). When a single
    topic comes or goes, no broker may be behind two bridges of another ([one_way], as
    in a fabric without loops): the caches pass the topic to the first bridge that
    takes it, so that with two the cache of the second would go stale. And the counters
    of wildcards need room in 32 bits, for the topic and for the topics of a batch.
    Changes of brokers and connections, searches, maintenance and whole batches are not
    restricted in any other way. *)
Theorem registry_invariant r : registry_reachable r →
  registry_ok settings r ∧ ∀ op, op_fits op r → is_Some (run_op op r).
Proof.
  intros Hok%registry_reachable_ok.
  split; [done|]. intros op Hfit. pose proof (run_op_ok op r Hok Hfit) as Hrun. apply wp_Some in Hrun as (a & r' & -> & _). by eexists.
Qed.

(** C18: A caller that asks for the next broker on the way gets one exactly when
    both brokers are known and connections lead from one to the other; it is the
    first broker on a loop-free route, from the cache or from a search, and
    asking does not change what is known of the fabric. *)
Theorem getNextBroker_correct from_ to_ r : registry_ok settings r →
  ∃ next r', getNextBroker from_ to_ r = Some (next, r') ∧ registry_ok settings r' ∧ rg_registry r' = rg_registry r ∧
    (next ≠ "" ↔ is_Some (rg_registry r !! from_) ∧ is_Some (rg_registry r !! to_) ∧ reachable (rg_registry r) from_ to_) ∧
    (next ≠ "" → from_ = to_ ∧ next = to_ ∨
       ∃ p, edge (rg_registry r) from_ next ∧ route (rg_registry r) next to_ p ∧ from_ ∉ p).
Proof.
  intros Hok. pose proof (getNextBroker_wp settings from_ to_ r Hok) as Hw. apply wp_Some in Hw as (n & r' & Hrun & Hok' & Hr' & Hiff & Hhop).
  exists n, r'. split_and!; [done|done|done|exact Hiff|]. intros Hn. destruct (Hhop Hn) as [?|[_ ?]]; [by left|by right].
Qed.

(** A bridge to a broker is admitted exactly when the fabric does not
    connect the local broker to it already. *)
Theorem isBridgeConnectAllowed_correct brokerId r : registry_ok settings r →
  ∃ allowed r', isBridgeConnectAllowed settings brokerId r = Some (allowed, r') ∧ registry_ok settings r' ∧
    (allowed = false ↔ is_Some (rg_registry r !! set_guid settings) ∧ is_Some (rg_registry r !! brokerId) ∧
      reachable (rg_registry r) (set_guid settings) brokerId).
Proof.
  intros Hok. pose proof (isBridgeConnectAllowed_wp settings brokerId r Hok) as Hw. apply wp_Some in Hw as (b & r' & Hrun & Hok' & _ & Hiff).
  exists b, r'. split_and!; [done|done|]. destruct b; [|split; [intros _|done]].
  - split; [done|]. intros Hx. by destruct (proj1 Hiff eq_refl).
  - pose proof (getNextBroker_wp settings (set_guid settings) brokerId r Hok) as Hn. unfold isBridgeConnectAllowed in Hrun.
    apply wp_Some in Hn as (n & r2 & Hget & _ & _ & Hnext & _). unfold mbind, st_bind in Hrun. rewrite Hget in Hrun. injection Hrun as Hn _.
    apply Hnext. by apply String.eqb_neq.
Qed.

(** C17: Whether an event has a subscriber behind a bridge: the answer is the
    same whether it comes from the topic cache, at whatever stage that cache
    is, or from a search of the fabric. It is yes exactly if a broker that
    connections lead to from the bridge, without passing the broker that asks,
    subscribes to the topic or a wildcard above it, or takes all topics. *)
Theorem isSubscriberInHierarchy_correct brokerId connection topic r : registry_ok settings r →
  ∃ found r', isSubscriberInHierarchy settings brokerId connection topic r = Some (found, r') ∧ registry_ok settings r' ∧
    (found = true ↔ ∃ x, behind (rg_registry r) brokerId connection x ∧
       (routes_by_topic settings (rg_registry r) x = false ∨
        ∃ s, rg_registry r !! x = Some s ∧ subscribed_in (bs_subscriptions s) topic)).
Proof.
  intros Hok. pose proof (isSubscriberInHierarchy_wp settings brokerId connection topic r Hok) as Hw.
  apply wp_Some in Hw as (found & r' & Hrun & Hok' & _ & Hiff). exists found, r'. split_and!; [done|done|].
  rewrite Hiff. unfold subscriber_behind, behind. split.
  - intros (x & Hne & Hr & Hx). exists x. split; [done|]. apply isSubscriberInBroker_spec in Hx; [done|]. apply states_counts, Hok.
  - intros (x & [Hne Hr] & Hx). exists x. split_and!; [done|done|]. apply isSubscriberInBroker_spec; [|done]. apply states_counts, Hok.
Qed.

(** When maintenance is due, every broker whose time ran out is dropped and
    no other: what stays was not expired when maintenance began, what goes was
    expired when it was looked at; what stays keeps its topics. *)
Theorem onCoreMaintenance_expires time r : registry_ok settings r → (∀ m n, (m <= n)%nat → rg_clock r m <= rg_clock r n) →
  set_ttlInterval settings * 60 <= time - rg_ttlCheckTime r →
  wp (onCoreMaintenance settings time) (λ _ r', registry_ok settings r' ∧ rg_ttlCheckTime r' = time ∧
    (∀ x s', rg_registry r' !! x = Some s' → ∃ s, rg_registry r !! x = Some s ∧ same_topics s s' ∧
       isExpired settings (rg_clock r 0%nat) s = false) ∧
    (∀ x s, rg_registry r !! x = Some s → rg_registry r' !! x = None → ∃ n, isExpired settings (rg_clock r n) s = true)) r.
Proof.
  intros Hok Hmono Hdue. unfold onCoreMaintenance. wp_step. wp_step. rewrite (proj2 (Z.leb_le _ _) Hdue). wp_step. wp_step. wp_step. wp_step.
  eapply wp_mono; [apply expire_loop_spec; [destruct Hok; by split|apply hash_order_NoDup]|].
  intros _ r' (Hok' & Httl & Hsur & Hgone). split_and!; [done|done| |exact Hgone].
  intros x s' Hs'. destruct (Hsur x s' Hs') as (s & Hs & Hst & Hexp). exists s. split_and!; [done|done|].
  destruct Hexp as [n Hn]; [apply hash_order_elem; by apply elem_of_dom_2 in Hs|]. cbn in Hn.
  unfold isExpired in *. destruct (String.eqb _ _); [done|]. apply Z.ltb_ge in Hn. apply Z.ltb_ge. specialize (Hmono 0%nat n ltac:(lia)). lia.
Qed.
End claims.
