(* ===== verification/Metrics.v ===== *)
(** * Tenant metrics

    [brokerlib/metrics]: how much the tenants of a broker use: bytes sent,
    connections, services; and who has reached a limit. *)

From S2P Require Import Prelude Fabric.
From stdpp Require Import options.

(** The limits a tenant can exceed ([TenantExceedsLimitEventPayload]). *)
Inductive tenant_limit := TENANT_LIMIT_BYTE | TENANT_LIMIT_CONNECTIONS | TENANT_LIMIT_SERVICES | TENANT_LIMIT_SUBSCRIPTIONS.

#[export] Instance tenant_limit_eq_dec : EqDecision tenant_limit.
Proof. solve_decision. Defined.

(** [TenantMetricsService]. [tm_sent] is what [sendLimitExceededEvent] sent. *)
Record TenantMetricsService := mk_TenantMetricsService {
  tm_sentBytesPerTenant : gmap string Z; tm_connectionsPerTenant : gmap string Z; tm_servicesPerTenant : gmap string Z;
  tm_sent : list (string * tenant_limit) }.
#[export] Instance eta_TenantMetricsService : Eta TenantMetricsService := λ r,
  mk_TenantMetricsService (tm_sentBytesPerTenant r) (tm_connectionsPerTenant r) (tm_servicesPerTenant r) (tm_sent r).

Definition i32 (x : Z) : Z := (x + 2 ^ 31) mod 2 ^ 32 - 2 ^ 31.
Lemma i32_range x : -2 ^ 31 <= i32 x < 2 ^ 31.
Proof. unfold i32. pose proof (Z.mod_pos_bound (x + 2 ^ 31) (2 ^ 32)). lia. Qed.

Section metrics.
Context (settings : BrokerSettings) (isInfoEnabled : bool).

Definition sendLimitExceededEvent (tenantId : string) (limitType : tenant_limit) (m : TenantMetricsService) : TenantMetricsService :=
  m <| tm_sent ::= λ l, l ++ [(tenantId, limitType)] |>.

(** [updateTenantSentByteCount]: whether the limit is exceeded. *)
Definition updateTenantSentByteCount (tenantId : string) (byteCount : Z) (m : TenantMetricsService) : bool * TenantMetricsService :=
  let limit := set_tenantByteLimit settings in
  if limit =? 0 then (false, m)
  else
    let '(oldTotal, total) :=
      match tm_sentBytesPerTenant m !! tenantId with
      | None => (0, byteCount)
      | Some t => (t, if t <=? limit then u32 (t + byteCount) else t)
      end in
    let m := m <| tm_sentBytesPerTenant ::= <[tenantId := total]> |> in
    let exceeded := limit <? total in
    (exceeded, if negb (oldTotal =? total) && exceeded then sendLimitExceededEvent tenantId TENANT_LIMIT_BYTE m else m).

Definition checkTenantWithinLimit (tenantId : string) (limit : Z) (counts : gmap string Z) : bool :=
  if limit =? 0 then true else match counts !! tenantId with None => true | Some n => n <? limit end.

(** [updateTenantLimitCount]: false if the limit has just been reached. *)
Definition updateTenantLimitCount (tenantId : string) (adjCount limit : Z) (counts : gmap string Z) : bool * gmap string Z :=
  if limit =? 0 then (true, counts)
  else
    let oldCount := default 0 (counts !! tenantId) in
    let n := oldCount + adjCount in
    let n := if n <? 0 then 0 else if limit <? n then limit else n in
    (negb (negb (oldCount =? n) && (limit <=? n)), <[tenantId := n]> counts).

(** The event goes out only if the log level is at least info. *)
Definition updateTenantConnectionCount (tenantId : string) (adjCount : Z) (m : TenantMetricsService) : TenantMetricsService :=
  let '(within, counts) := updateTenantLimitCount tenantId adjCount (i32 (set_tenantConnectionLimit settings)) (tm_connectionsPerTenant m) in
  let m := m <| tm_connectionsPerTenant := counts |> in
  if negb within && isInfoEnabled then sendLimitExceededEvent tenantId TENANT_LIMIT_CONNECTIONS m else m.
Definition isConnectionAllowed (tenantId : string) (m : TenantMetricsService) : bool :=
  checkTenantWithinLimit tenantId (i32 (set_tenantConnectionLimit settings)) (tm_connectionsPerTenant m).

Definition updateTenantServiceCount (tenantId : string) (adjCount : Z) (m : TenantMetricsService) : TenantMetricsService :=
  let '(within, counts) := updateTenantLimitCount tenantId adjCount (i32 (set_tenantServiceLimit settings)) (tm_servicesPerTenant m) in
  let m := m <| tm_servicesPerTenant := counts |> in
  if negb within && isInfoEnabled then sendLimitExceededEvent tenantId TENANT_LIMIT_SERVICES m else m.
Definition isServiceRegistrationAllowed (tenantId : string) (m : TenantMetricsService) : bool :=
  checkTenantWithinLimit tenantId (i32 (set_tenantServiceLimit settings)) (tm_servicesPerTenant m).

(** The comparison converts the count to an unsigned integer. *)
Definition isTenantSubscriptionAllowed (tenantGuid : string) (subscriptionCount : Z) (m : TenantMetricsService) : bool * TenantMetricsService :=
  let limit := set_tenantClientSubscriptionLimit settings in
  let allowed := (limit =? 0) || (u32 subscriptionCount <? limit) in
  (allowed, if allowed then m else sendLimitExceededEvent tenantGuid TENANT_LIMIT_SUBSCRIPTIONS m).

Definition markTenantExceedsByteCount (tenantId : string) (m : TenantMetricsService) : TenantMetricsService :=
  let limit := set_tenantByteLimit settings in
  if limit =? 0 then m else m <| tm_sentBytesPerTenant ::= <[tenantId := u32 (limit + 1)]> |>.
Definition resetTenantByteCounts (m : TenantMetricsService) : TenantMetricsService := m <| tm_sentBytesPerTenant := ∅ |>.

(** ** Bytes against the limit *)

(** Counts for one tenant in turn: the answers and the state. *)
Fixpoint count_bytes (tenantId : string) (ns : list Z) (m : TenantMetricsService) : list bool * TenantMetricsService :=
  match ns with
  | [] => ([], m)
  | n :: ns' =>
    let '(b, m) := updateTenantSentByteCount tenantId n m in
    let '(bs, m) := count_bytes tenantId ns' m in (b :: bs, m)
  end.

(** Whether the sum of each prefix exceeds the limit. *)
Fixpoint over (sum : Z) (ns : list Z) : list bool :=
  match ns with [] => [] | n :: ns' => (set_tenantByteLimit settings <? sum + n) :: over (sum + n) ns' end.

(** Events about bytes of the tenant. *)
Definition byte_events (tenantId : string) (m : TenantMetricsService) : nat :=
  length (filter (λ e, e = (tenantId, TENANT_LIMIT_BYTE)) (tm_sent m)).

(** What is recorded: the sum, until it exceeds the limit. *)
Definition recorded (tenantId : string) (sum : Z) (m : TenantMetricsService) : Prop :=
  let t := default 0 (tm_sentBytesPerTenant m !! tenantId) in
  if sum <=? set_tenantByteLimit settings then t = sum else set_tenantByteLimit settings < t.

Lemma update_bytes_spec tenantId n sum m : 0 < set_tenantByteLimit settings → 0 <= n → 0 <= sum →
  set_tenantByteLimit settings + n < 2 ^ 32 → recorded tenantId sum m →
  let '(b, m') := updateTenantSentByteCount tenantId n m in
  b = (set_tenantByteLimit settings <? sum + n) ∧ recorded tenantId (sum + n) m' ∧
  byte_events tenantId m' = (byte_events tenantId m + Nat.b2n ((sum <=? set_tenantByteLimit settings)%Z && (set_tenantByteLimit settings <? sum + n)%Z))%nat.
Proof.
  set (limit := set_tenantByteLimit settings). intros Hl Hn Hsum Hfit Hrec. unfold updateTenantSentByteCount, recorded in *. fold limit in Hrec |- *.
  destruct (Z.eqb_spec limit 0) as [|_]; [lia|]. set (t := default 0 (tm_sentBytesPerTenant m !! tenantId)) in *.
  assert (match tm_sentBytesPerTenant m !! tenantId with None => (0, n) | Some t => (t, if t <=? limit then u32 (t + n) else t) end =
    (t, if sum <=? limit then sum + n else t)) as ->.
  { unfold t in *. destruct (tm_sentBytesPerTenant m !! tenantId) as [t0|]; cbn in *.
    - destruct (Z.leb_spec sum limit); [subst t0; rewrite (proj2 (Z.leb_le sum limit)) by lia; by rewrite u32_id by lia|].
      by rewrite (proj2 (Z.leb_gt t0 limit)) by lia.
    - destruct (Z.leb_spec sum limit); [by subst sum|lia]. }
  cbn. set (total := if sum <=? limit then sum + n else t).
  assert ((limit <? total) = (limit <? sum + n)) as Hex.
  { unfold total. destruct (Z.leb_spec sum limit); [done|]. rewrite (proj2 (Z.ltb_lt limit t)), (proj2 (Z.ltb_lt limit (sum + n))) by lia. done. }
  assert (negb (t =? total) && (limit <? total) = (sum <=? limit) && (limit <? sum + n)) as Hev.
  { rewrite Hex. unfold total. destruct (Z.leb_spec sum limit); [|by rewrite Z.eqb_refl]. subst t. rewrite Hrec.
    destruct (Z.ltb_spec limit (sum + n)); [|by rewrite !andb_false_r]. destruct (Z.eqb_spec sum (sum + n)); [lia|done]. }
  split; [exact Hex|]. rewrite Hev. split.
  - assert (∀ m' : TenantMetricsService, tm_sentBytesPerTenant m' = <[tenantId := total]> (tm_sentBytesPerTenant m) →
      if sum + n <=? limit then default 0 (tm_sentBytesPerTenant m' !! tenantId) = sum + n else limit < default 0 (tm_sentBytesPerTenant m' !! tenantId)) as Hm'.
    { intros m' ->. rewrite lookup_insert, decide_True by done. cbn. unfold total.
      destruct (Z.leb_spec (sum + n) limit), (Z.leb_spec sum limit); lia. }
    cbv zeta. apply Hm'. clear. by destruct (_ && _).
  - clear Hex Hev. unfold byte_events. destruct ((sum <=? limit) && (limit <? sum + n)); cbn [Nat.b2n]; [|cbn; lia]. cbn. rewrite filter_app, length_app. cbn. rewrite decide_True by done. done.
Qed.

(** C36: While a tenant's byte counter is not reset, sending is reported as over
    the limit exactly when the bytes sent so far exceed it, and the fabric is
    told once, when the limit is passed; this needs the limit and a message
    together to stay below 2^32. *)
Theorem tenant_bytes_limited tenantId ns m : 0 < set_tenantByteLimit settings →
  Forall (λ n, 0 <= n ∧ set_tenantByteLimit settings + n < 2 ^ 32) ns → tm_sentBytesPerTenant m !! tenantId = None →
  let '(bs, m') := count_bytes tenantId ns m in
  bs = over 0 ns ∧ byte_events tenantId m' = (byte_events tenantId m + Nat.b2n (existsb id bs))%nat.
Proof.
  intros Hl Hns Hnew. assert (∀ sum m, 0 <= sum → recorded tenantId sum m →
    let '(bs, m') := count_bytes tenantId ns m in bs = over sum ns ∧
    byte_events tenantId m' = (byte_events tenantId m + Nat.b2n ((sum <=? set_tenantByteLimit settings)%Z && existsb id bs))%nat) as Hgen.
  { clear m Hnew. induction Hns as [|n ns [Hn Hfit] _ IH]; intros sum m Hsum Hrec; cbn.
    { split; [done|]. destruct (sum <=? set_tenantByteLimit settings); cbn; lia. }
    pose proof (update_bytes_spec tenantId n sum m Hl Hn Hsum Hfit Hrec) as Hup.
    destruct (updateTenantSentByteCount tenantId n m) as [b m1]. destruct Hup as (-> & Hrec1 & Hev1).
    specialize (IH (sum + n) m1 ltac:(lia) Hrec1). destruct (count_bytes tenantId ns m1) as [bs m2]. destruct IH as [-> Hev2].
    split; [done|]. rewrite Hev2, Hev1. cbn [existsb]. generalize (existsb id (over (sum + n) ns)). intros e. unfold id.
    destruct (Z.leb_spec sum (set_tenantByteLimit settings)), (Z.ltb_spec (set_tenantByteLimit settings) (sum + n)),
      (Z.leb_spec (sum + n) (set_tenantByteLimit settings)); cbn [andb orb Nat.b2n]; lia. }
  specialize (Hgen 0 m ltac:(lia)). unfold recorded in Hgen. rewrite Hnew in Hgen. cbn [default] in Hgen.
  rewrite (proj2 (Z.leb_le 0 _)) in Hgen by lia. specialize (Hgen eq_refl). destruct (count_bytes tenantId ns m). exact Hgen.
Qed.
End metrics.
