(* ===== verification/Services.v ===== *)
(** * The service registry

    [brokerlib/serviceregistry]: the services clients offer on request topics,
    here and on other brokers, and which of them gets the next request. A
    registration is an object that several indices share; the indices are by
    identifier, by type and by topic ([ServiceRegistry.cpp]), and the services
    of a topic are grouped by the service zones the local broker prefers
    ([TopicServices.cpp], [ZoneServices.cpp]). *)

From S2P Require Import Prelude Topic CoreUtil Authorization Fabric TopicCache Registry Metrics.
From stdpp Require Import options.

(** ** Registrations ([ServiceRegistration.h], [ServiceRegistration.cpp]) *)

(** The address of a registration ([serviceRegistrationPtr_t]). *)
Notation regptr := positive.

(** The order of a [std::set] of such pointers. *)
Class PtrOrder := {
  ptr_order : gset regptr → list regptr;
  ptr_order_perm X : ptr_order X ≡ₚ elements X }.

(** The hash-table form of the certificates ([m_certsUthash]) is made from
    [sr_certificates] where it is used. *)
Record ServiceRegistration := mk_ServiceRegistration {
  sr_serviceType : string; sr_serviceGuid : string; sr_clientGuid : string; sr_clientInstanceGuid : string;
  sr_brokerGuid : string; sr_ttlMins : Z; sr_requestChannels : gset string; sr_metaData : gmap string string;
  sr_isLocal : bool; sr_regTime : Z; sr_brokerService : bool; sr_clientTenantGuid : string; sr_serviceIsOps : bool;
  sr_targetTenantGuids : gset string; sr_certificates : gset string; sr_managedClient : bool }.
#[export] Instance eta_ServiceRegistration : Eta ServiceRegistration := λ r,
  mk_ServiceRegistration (sr_serviceType r) (sr_serviceGuid r) (sr_clientGuid r) (sr_clientInstanceGuid r)
    (sr_brokerGuid r) (sr_ttlMins r) (sr_requestChannels r) (sr_metaData r) (sr_isLocal r) (sr_regTime r)
    (sr_brokerService r) (sr_clientTenantGuid r) (sr_serviceIsOps r) (sr_targetTenantGuids r) (sr_certificates r)
    (sr_managedClient r).

Section registration.
Context (settings : BrokerSettings).

Definition setBrokerGuid (guid : string) (r : ServiceRegistration) : ServiceRegistration :=
  r <| sr_brokerGuid := guid |> <| sr_isLocal := String.eqb guid (set_guid settings) |>.
Definition setClientTenantGuid (tenantGuid : string) (r : ServiceRegistration) : ServiceRegistration :=
  r <| sr_clientTenantGuid := tenantGuid |>
    <| sr_serviceIsOps := if set_multiTenantModeEnabled settings then String.eqb tenantGuid (set_tenantGuid settings) else false |>.

(** The constructor; [now] is the time it reads. *)
Definition ServiceRegistration_new (serviceType serviceGuid clientGuid clientInstanceGuid brokerGuid : string) (ttlMins : Z)
    (requestChannels : gset string) (metaData : gmap string string) (clientTenantGuid : string)
    (targetTenantGuids certificates : gset string) (managedClient : bool) (now : Z) : ServiceRegistration :=
  setClientTenantGuid clientTenantGuid (setBrokerGuid brokerGuid
    (mk_ServiceRegistration serviceType serviceGuid clientGuid clientInstanceGuid "" ttlMins requestChannels metaData
      false now false "" false targetTenantGuids certificates managedClient)).

Definition getClientInstanceGuid (r : ServiceRegistration) : string :=
  if String.eqb (sr_clientInstanceGuid r) "" then sr_clientGuid r else sr_clientInstanceGuid r.

Definition reg_isExpired (current : Z) (r : ServiceRegistration) : bool :=
  u32 (u32 (sr_ttlMins r + set_ttlGracePeriod settings) * 60) <? current - sr_regTime r.

(** [getAdjustedTtlMins( time )]: the conversion to an integer truncates. *)
Definition getAdjustedTtlMins (time : Z) (r : ServiceRegistration) : Z :=
  let minDiff := Z.quot (time - sr_regTime r + 30) 60 in
  let ttlDiff := i32 (u32 (sr_ttlMins r - minDiff)) in
  if 0 <? ttlDiff then ttlDiff else 0.

Definition resetRegistrationTime (current : Z) (r : ServiceRegistration) : ServiceRegistration :=
  r <| sr_ttlMins := getAdjustedTtlMins current r |> <| sr_regTime := current |>.

Definition isServiceAvailable (tenantGuid : string) (r : ServiceRegistration) : bool :=
  if negb (set_multiTenantModeEnabled settings) then true
  else if sr_serviceIsOps r
       then bool_decide (sr_targetTenantGuids r = ∅) || bool_decide (tenantGuid ∈ sr_targetTenantGuids r)
       else String.eqb (sr_clientTenantGuid r) tenantGuid.
End registration.

(** ** The services of a zone and of a topic *)

(** [ZoneServices]; [zs_next] is the distance of [m_nextServiceIter] from
    [begin()], the size for [end()]. *)
Record ZoneServices := mk_ZoneServices {
  zs_zone : string; zs_topic : string; zs_services : gset regptr; zs_next : nat }.
#[export] Instance eta_ZoneServices : Eta ZoneServices := λ r,
  mk_ZoneServices (zs_zone r) (zs_topic r) (zs_services r) (zs_next r).

(** A zone to which [services] are added one by one; each addition resets the
    iterator. *)
Definition ZoneServices_with (zone topic : string) (services : gset regptr) : ZoneServices :=
  mk_ZoneServices zone topic services (size services).

(** [TopicServices]; [None] for a null [m_servicesByZone]. *)
Record TopicServices := mk_TopicServices {
  tv_topic : string; tv_services : gset regptr; tv_servicesByZone : option (list ZoneServices) }.
#[export] Instance eta_TopicServices : Eta TopicServices := λ r,
  mk_TopicServices (tv_topic r) (tv_services r) (tv_servicesByZone r).

Definition TopicServices_clearServiceZones (t : TopicServices) : TopicServices := t <| tv_servicesByZone := None |>.
Definition TopicServices_addService (reg : regptr) (t : TopicServices) : TopicServices :=
  TopicServices_clearServiceZones (t <| tv_services ::= λ s, {[reg]} ∪ s |>).
Definition TopicServices_removeService (reg : regptr) (t : TopicServices) : TopicServices :=
  TopicServices_clearServiceZones (t <| tv_services ::= λ s, s ∖ {[reg]} |>).

(** The loop over the local broker's zones: each takes those of the remaining
    services whose broker is in the zone. *)
Fixpoint zones_loop (topic : string) (in_zone : string → regptr → bool) (zones : list string) (services : gset regptr)
    : list ZoneServices * gset regptr :=
  match zones with
  | [] => ([], services)
  | zone :: zones' =>
    let found := filter (λ p, in_zone zone p = true) services in
    let '(zs, rest) := zones_loop topic in_zone zones' (services ∖ found) in
    (if bool_decide (found = ∅) then zs else ZoneServices_with zone topic found :: zs, rest)
  end.

(** [calculateServiceZones]. *)
Definition calculateServiceZones (localGuid topic : string) (heap : gmap regptr ServiceRegistration)
    (zonesByNode : gmap string (list string)) (services : gset regptr) : list ZoneServices :=
  let local := filter (λ p, (sr_brokerService <$> heap !! p) = Some true) services in
  let in_zone zone p := match heap !! p with
                        | Some r => match zonesByNode !! sr_brokerGuid r with Some zones => bool_decide (zone ∈ zones) | None => false end
                        | None => false
                        end in
  let '(zs, rest) := zones_loop topic in_zone (default [] (zonesByNode !! localGuid)) (services ∖ local) in
  (if bool_decide (local = ∅) then [] else [ZoneServices_with "(local)" topic local]) ++ zs
  ++ (if bool_decide (rest = ∅) then [] else [ZoneServices_with "" topic rest]).

(** ** The registry ([ServiceRegistry.h]) *)

(** What is sent to the other brokers, with the tenant it is restricted to. *)
Inductive service_event :=
| RegisterEvent (reg : ServiceRegistration) (tenant : option string)
| UnregisterEvent (serviceGuid : string) (tenant : option string).

(** [ServiceRegistry], with the heap of registrations, the other singletons it
    calls, the events it has sent ([sv_sent]) and the clock. *)
Record ServiceRegistry := mk_ServiceRegistry {
  sv_heap : gmap regptr ServiceRegistration; sv_servicesById : gmap string regptr;
  sv_servicesByType : list (string * regptr); sv_servicesByTopic : gmap string TopicServices;
  sv_zonesByNode : gmap string (list string); sv_ttlCheckTime : Z; sv_brokerConfigChanged : bool;
  sv_localSvcCounter : Z; sv_eventToRequestPrefix : gmap string string;
  sv_brokerRegistry : BrokerRegistry; sv_authorization : option TopicAuthorizationState; sv_metrics : TenantMetricsService;
  sv_sent : list service_event; sv_clock : nat → Z }.
#[export] Instance eta_ServiceRegistry : Eta ServiceRegistry := λ r,
  mk_ServiceRegistry (sv_heap r) (sv_servicesById r) (sv_servicesByType r) (sv_servicesByTopic r) (sv_zonesByNode r)
    (sv_ttlCheckTime r) (sv_brokerConfigChanged r) (sv_localSvcCounter r) (sv_eventToRequestPrefix r)
    (sv_brokerRegistry r) (sv_authorization r) (sv_metrics r) (sv_sent r) (sv_clock r).

Definition EVENT_TO_REQUEST_TOPIC_PROP : string := "eventToRequestTopic".
Definition EVENT_TO_REQUEST_PREFIX_PROP : string := "eventToRequestPrefix".
Definition DXL_BROKER_EVENT_PREFIX : string := "/mcafee/event/dxl/".

Section services.
Context (settings : BrokerSettings) (isInfoEnabled : bool) `{HashOrder} `{PtrOrder}.

Definition svc_time : ST ServiceRegistry Z := λ r, Some (sv_clock r 0%nat, r <| sv_clock := λ n, sv_clock r (S n) |>).
(** Dereferencing a registration. *)
Definition reg_get (p : regptr) : ST ServiceRegistry ServiceRegistration := deref (λ s, sv_heap s !! p).
Definition reg_upd (p : regptr) (f : ServiceRegistration → ServiceRegistration) : ST ServiceRegistry () :=
  modify (λ s, s <| sv_heap ::= alter f p |>).
(** [new ServiceRegistration]. *)
Definition reg_new (r : ServiceRegistration) : ST ServiceRegistry regptr := λ s,
  let p := fresh (dom (sv_heap s)) in Some (p, s <| sv_heap ::= <[p := r]> |>).

Definition findService (serviceGuid : string) : ST ServiceRegistry (option regptr) := gets (λ s, sv_servicesById s !! serviceGuid).

(** *** Events *)

Definition restricted_to (r : ServiceRegistration) : option string :=
  if set_multiTenantModeEnabled settings && negb (sr_serviceIsOps r) then Some (sr_clientTenantGuid r) else None.
Definition sendServiceRegistrationEvent (r : ServiceRegistration) : ST ServiceRegistry () :=
  if sr_isLocal r then modify (λ s, s <| sv_sent ::= λ l, l ++ [RegisterEvent r (restricted_to r)] |>) else mret tt.
Definition sendServiceUnregistrationEvent (r : ServiceRegistration) : ST ServiceRegistry () :=
  if sr_isLocal r then modify (λ s, s <| sv_sent ::= λ l, l ++ [UnregisterEvent (sr_serviceGuid r) (restricted_to r)] |>) else mret tt.

(** *** Events that become requests *)

Definition event_topic_ok (eventTopic : string) : bool :=
  negb (String.eqb eventTopic "" || has_char hash eventTopic || has_char plus eventTopic || String.prefix DXL_BROKER_EVENT_PREFIX eventTopic).
Definition addEventToRequestPrefix (r : ServiceRegistration) (m : gmap string string) : gmap string string :=
  if negb (sr_serviceIsOps r) && negb (sr_managedClient r) then m
  else match sr_metaData r !! EVENT_TO_REQUEST_PREFIX_PROP with
  | None => m
  | Some prefix => map_fold (λ key eventTopic m,
      if String.prefix EVENT_TO_REQUEST_TOPIC_PROP key && event_topic_ok eventTopic then <[eventTopic := prefix]> m else m)
      m (sr_metaData r)
  end.
Definition may_map_events (r : ServiceRegistration) : bool :=
  (negb (set_multiTenantModeEnabled settings) || sr_serviceIsOps r) && (sr_serviceIsOps r || sr_managedClient r).

Fixpoint rebuild_loop (guids : list string) (heap : gmap regptr ServiceRegistration) (byId : gmap string regptr)
    (m : gmap string string) : option (gmap string string) :=
  match guids with
  | [] => Some m
  | g :: guids' =>
    p ← byId !! g; r ← heap !! p;
    rebuild_loop guids' heap byId (if may_map_events r then addEventToRequestPrefix r m else m)
  end.
Definition rebuildEventToRequestPrefixMap : ST ServiceRegistry () :=
  m ← deref (λ s, rebuild_loop (hash_order (dom (sv_servicesById s))) (sv_heap s) (sv_servicesById s) ∅);
  modify (λ s, s <| sv_eventToRequestPrefix := m |>).
Definition getRequestPrefixForEvent (eventTopic : string) (s : ServiceRegistry) : string :=
  default "" (sv_eventToRequestPrefix s !! eventTopic).

(** *** Registration *)

Definition incLocalSvc (r : ServiceRegistration) : ST ServiceRegistry () :=
  modify (λ s, s <| sv_localSvcCounter ::= λ n, if sr_isLocal r then u32 (n + 1) else n |>).
Definition decLocalSvc (r : ServiceRegistration) : ST ServiceRegistry () :=
  modify (λ s, s <| sv_localSvcCounter ::= λ n, if sr_isLocal r then u32 (n - 1) else n |>).

Definition topic_add (reg : regptr) (m : gmap string TopicServices) (topic : string) : gmap string TopicServices :=
  <[topic := TopicServices_addService reg (default (mk_TopicServices topic ∅ None) (m !! topic))]> m.
Definition addService (reg : regptr) : ST ServiceRegistry () :=
  r ← reg_get reg;
  modify (λ s, s <| sv_servicesById ::= <[sr_serviceGuid r := reg]> |>
                 <| sv_servicesByType ::= λ l, l ++ [(sr_serviceType r, reg)] |>
                 <| sv_servicesByTopic ::= λ m, foldl (topic_add reg) m (hash_order (sr_requestChannels r)) |>);;
  incLocalSvc r.

Definition topic_remove (reg : regptr) (m : gmap string TopicServices) (topic : string) : gmap string TopicServices :=
  match m !! topic with
  | None => m
  | Some t => let t := TopicServices_removeService reg t in
              if bool_decide (tv_services t = ∅) then delete topic m else <[topic := t]> m
  end.
(** The first entry of the type whose registration has the identifier. *)
Fixpoint type_remove (heap : gmap regptr ServiceRegistration) (serviceType serviceGuid : string) (l : list (string * regptr))
    : option (list (string * regptr)) :=
  match l with
  | [] => Some []
  | (t, p) :: l' =>
    if String.eqb t serviceType then
      r ← heap !! p;
      if String.eqb (sr_serviceGuid r) serviceGuid then Some l' else cons (t, p) <$> type_remove heap serviceType serviceGuid l'
    else cons (t, p) <$> type_remove heap serviceType serviceGuid l'
  end.
Definition doUnregisterService (reg : regptr) (fireEvent : bool) : ST ServiceRegistry () :=
  r ← reg_get reg;
  modify (λ s, s <| sv_servicesById ::= delete (sr_serviceGuid r) |>);;
  byType ← deref (λ s, type_remove (sv_heap s) (sr_serviceType r) (sr_serviceGuid r) (sv_servicesByType s));
  modify (λ s, s <| sv_servicesByType := byType |>
                 <| sv_servicesByTopic ::= λ m, foldl (topic_remove reg) m (hash_order (sr_requestChannels r)) |>);;
  decLocalSvc r;;
  (if (negb (set_multiTenantModeEnabled settings) || sr_serviceIsOps r) &&
      bool_decide (is_Some (sr_metaData r !! EVENT_TO_REQUEST_PREFIX_PROP))
   then rebuildEventToRequestPrefixMap else mret tt);;
  (if fireEvent then sendServiceUnregistrationEvent r else mret tt).

(** The count of a tenant that is not the operator. *)
Definition adjust_tenant (r : ServiceRegistration) (n : Z) : ST ServiceRegistry () :=
  if set_multiTenantModeEnabled settings && negb (sr_serviceIsOps r)
  then modify (λ s, s <| sv_metrics ::= updateTenantServiceCount settings isInfoEnabled (sr_clientTenantGuid r) n |>)
  else mret tt.

(** [unregisterService( serviceGuid, fireEvent )]: by other brokers, expiry and
    updates. *)
Definition unregisterService (serviceGuid : string) (fireEvent : bool) : ST ServiceRegistry () :=
  p ← findService serviceGuid;
  match p with
  | None => mret tt
  | Some reg => doUnregisterService reg fireEvent;; r ← reg_get reg; adjust_tenant r (-1)
  end.
(** [unregisterService( serviceGuid, clientGuid, clientTenantGuid, fireEvent )]:
    by clients. *)
Definition unregisterService_client (serviceGuid clientGuid clientTenantGuid : string) (fireEvent : bool) : ST ServiceRegistry () :=
  p ← findService serviceGuid;
  match p with
  | None => mret tt
  | Some reg =>
    r ← reg_get reg;
    if String.eqb clientGuid (sr_clientGuid r) && String.eqb clientTenantGuid (sr_clientTenantGuid r)
    then doUnregisterService reg fireEvent else mret tt
  end.

(** Whether a registration only renews another. *)
Definition same_service (e r : ServiceRegistration) : bool :=
  bool_decide (sr_requestChannels e = sr_requestChannels r) && String.eqb (sr_brokerGuid e) (sr_brokerGuid r)
  && String.eqb (sr_clientGuid e) (sr_clientGuid r) && String.eqb (getClientInstanceGuid e) (getClientInstanceGuid r)
  && String.eqb (sr_serviceType e) (sr_serviceType r) && bool_decide (sr_metaData e = sr_metaData r)
  && bool_decide (sr_targetTenantGuids e = sr_targetTenantGuids r) && Bool.eqb (sr_managedClient e) (sr_managedClient r)
  && bool_decide (sr_certificates e = sr_certificates r).

Definition updateService (existingReg reg : regptr) : ST ServiceRegistry () :=
  e ← reg_get existingReg; r ← reg_get reg;
  ignored ← (if String.eqb (sr_brokerGuid e) (sr_brokerGuid r) then mret false
             else now ← svc_time; mret (sr_ttlMins r <? getAdjustedTtlMins now e));
  if (ignored : bool) then mret tt
  else if same_service e r
  then reg_upd existingReg (λ e, e <| sr_ttlMins := sr_ttlMins r |> <| sr_metaData := sr_metaData r |> <| sr_regTime := sr_regTime r |>)
  else unregisterService (sr_serviceGuid r) false;; addService reg.

(** [registerService]: false if it throws. *)
Definition registerService (reg : regptr) : ST ServiceRegistry bool :=
  r ← reg_get reg;
  if String.eqb (sr_serviceGuid r) "" then mret false
  else
    existing ← findService (sr_serviceGuid r);
    ok ← (match existing with
          | None => addService reg;; mret true
          | Some existingReg =>
            e ← reg_get existingReg;
            if String.eqb (sr_clientGuid r) (sr_clientGuid e) && String.eqb (sr_clientTenantGuid r) (sr_clientTenantGuid e)
            then updateService existingReg reg;; mret true else mret false
          end);
    if negb (ok : bool) then mret false
    else
      r ← reg_get reg;
      (if may_map_events r then modify (λ s, s <| sv_eventToRequestPrefix ::= addEventToRequestPrefix r |>) else mret tt);;
      sendServiceRegistrationEvent r;;
      adjust_tenant r 1;;
      mret true.

(** *** Requests *)

(** [m_brokerRegistry.getNextBroker]. *)
Definition next_broker_of (from_ to_ : string) : ST ServiceRegistry string := λ s,
  match getNextBroker from_ to_ (sv_brokerRegistry s) with
  | Some (n, r) => Some (n, s <| sv_brokerRegistry := r |>)
  | None => None
  end.
(** [isAuthorizedToSubscribe] for the client that hosts the service. *)
Definition may_receive (topic : string) (r : ServiceRegistration) : ST ServiceRegistry bool :=
  auth ← deref sv_authorization;
  deref (λ _, if sr_managedClient r then _isAuthorizedToSubscribe auth (sr_clientGuid r) topic
              else isAuthorizedToSubscribe_certs auth (hash_order (sr_certificates r)) topic).

(** The four conditions of [ZoneServices::getNextService]. *)
Definition serves (topic tenant : string) (p : regptr) : ST ServiceRegistry bool :=
  r ← reg_get p;
  reached ← (if sr_isLocal r then mret true
             else n ← next_broker_of (set_guid settings) (sr_brokerGuid r); mret (negb (String.eqb n "")));
  if negb (reached : bool) then mret false
  else
    now ← svc_time;
    if reg_isExpired settings now r then mret false
    else
      authorized ← may_receive topic r;
      if negb (authorized : bool) then mret false else mret (isServiceAvailable settings tenant r).

(** The loop of [ZoneServices::getNextService]: from the service behind the last
    one chosen, around to it. *)
Fixpoint zone_loop (n : nat) (tenant : string) (z : ZoneServices) : ST ServiceRegistry (option regptr * ZoneServices) :=
  match n with
  | O => mret (None, z)
  | S n' =>
    let order := ptr_order (zs_services z) in
    let i := if bool_decide (zs_next z = length order) then 0%nat else zs_next z in
    p ← deref (λ _, order !! i);
    let z := z <| zs_next := S i |> in
    b ← serves (zs_topic z) tenant p;
    if (b : bool) then mret (Some p, z) else zone_loop n' tenant z
  end.
Definition zone_getNextService (tenant : string) (z : ZoneServices) : ST ServiceRegistry (option regptr * ZoneServices) :=
  zone_loop (size (zs_services z)) tenant z.

(** The zones of a topic in turn. *)
Fixpoint zones_search (tenant : string) (zones : list ZoneServices) : ST ServiceRegistry (option regptr * list ZoneServices) :=
  match zones with
  | [] => mret (None, [])
  | z :: zones' =>
    res ← zone_getNextService tenant z;
    match res.1 with
    | Some p => mret (Some p, res.2 :: zones')
    | None => rest ← zones_search tenant zones'; mret (rest.1, res.2 :: rest.2)
    end
  end.
Definition topic_zones (t : TopicServices) (s : ServiceRegistry) : list ZoneServices :=
  match tv_servicesByZone t with
  | Some zs => zs
  | None => calculateServiceZones (set_guid settings) (tv_topic t) (sv_heap s) (sv_zonesByNode s) (tv_services t)
  end.
(** [ServiceRegistry::getNextService] and [TopicServices::getNextService]. *)
Definition getNextService (topic tenant : string) : ST ServiceRegistry (option regptr) :=
  s ← gets (λ s, s);
  match sv_servicesByTopic s !! topic with
  | None => mret None
  | Some t =>
    res ← zones_search tenant (topic_zones t s);
    modify (λ s, s <| sv_servicesByTopic ::= <[topic := t <| tv_servicesByZone := Some res.2 |>]> |>);;
    mret res.1
  end.

(** *** Queries *)

Definition findService_for (serviceGuid tenant : string) (s : ServiceRegistry) : option regptr :=
  p ← sv_servicesById s !! serviceGuid; r ← sv_heap s !! p;
  if isServiceAvailable settings tenant r then Some p else None.
Definition available (tenant : string) (s : ServiceRegistry) (p : regptr) : bool :=
  match sv_heap s !! p with Some r => isServiceAvailable settings tenant r | None => false end.
Definition findServicesByType (serviceType tenant : string) (s : ServiceRegistry) : list regptr :=
  filter (λ p, available tenant s p = true) (map snd (filter (λ e, e.1 = serviceType) (sv_servicesByType s))).
Definition getAllServices (tenant : string) (s : ServiceRegistry) : list regptr :=
  filter (λ p, available tenant s p = true) (omap (λ g, sv_servicesById s !! g) (hash_order (dom (sv_servicesById s)))).

(** *** Maintenance *)

Fixpoint ttl_loop (guids : list string) : ST ServiceRegistry () :=
  match guids with
  | [] => mret tt
  | g :: guids' =>
    p ← findService g;
    (match p with
     | None => mret tt
     | Some reg => now ← svc_time; r ← reg_get reg;
                   if reg_isExpired settings now r then unregisterService g true else mret tt
     end);;
    ttl_loop guids'
  end.
Definition checkServiceTtls : ST ServiceRegistry () :=
  s ← gets (λ s, s); ttl_loop (hash_order (dom (sv_servicesById s))).

Fixpoint announce_loop (guids : list string) : ST ServiceRegistry () :=
  match guids with
  | [] => mret tt
  | g :: guids' =>
    p ← findService g;
    (match p with
     | None => mret tt
     | Some reg => now ← svc_time; r ← reg_get reg;
                   if reg_isExpired settings now r then mret tt
                   else now ← svc_time; sendServiceRegistrationEvent (resetRegistrationTime now r)
     end);;
    announce_loop guids'
  end.
Definition sendServiceRegistrationEvents : ST ServiceRegistry () :=
  s ← gets (λ s, s); announce_loop (hash_order (dom (sv_servicesById s))).

Definition setServiceZonesByNode (zonesByNode : gmap string (list string)) : ST ServiceRegistry () :=
  modify (λ s, s <| sv_zonesByNode := zonesByNode |>).
(** With the zones of the nodes of the configuration. *)
Definition onConfigurationUpdated (zonesByNode : gmap string (list string)) : ST ServiceRegistry () :=
  setServiceZonesByNode zonesByNode;; modify (λ s, s <| sv_brokerConfigChanged := true |>).
Definition clearServiceZones : ST ServiceRegistry () :=
  modify (λ s, s <| sv_servicesByTopic ::= fmap TopicServices_clearServiceZones |>).
Definition svc_onCoreMaintenance (time : Z) : ST ServiceRegistry () :=
  last ← gets sv_ttlCheckTime;
  (if set_ttlInterval settings * 60 <=? time - last
   then modify (λ s, s <| sv_ttlCheckTime := time |>);; checkServiceTtls else mret tt);;
  changed ← gets sv_brokerConfigChanged;
  if (changed : bool) then modify (λ s, s <| sv_brokerConfigChanged := false |>);; clearServiceZones else mret tt.
End services.
