(* ===== verification/ServiceProofs.v ===== *)
(** * The indices of the service registry agree

    The invariant of the service registry: the indices by identifier, by type
    and by topic hold the same registrations, the zones of a topic its services,
    and the counter of local services counts them. Every operation keeps it. *)

From S2P Require Import Prelude Topic CoreUtil Authorization Fabric TopicCache TopicCacheProofs Registry RegistryProofs Metrics Services.
From stdpp Require Import options.

Section service_proofs.
Context (settings : BrokerSettings) (isInfoEnabled : bool) `{HashOrder} `{PtrOrder}.
Implicit Types s : ServiceRegistry.

Lemma ptr_order_elem X p : p ∈ ptr_order X ↔ p ∈ X.
Proof. by rewrite ptr_order_perm, elem_of_elements. Qed.
Lemma ptr_order_length X : length (ptr_order X) = size X.
Proof. by rewrite ptr_order_perm. Qed.

(** ** The invariant *)

(** [p] is the registration [r] of service [g]. *)
Definition registration s (g : string) (p : regptr) (r : ServiceRegistration) : Prop :=
  sv_servicesById s !! g = Some p ∧ sv_heap s !! p = Some r.

(** [p] is among the services of the topic. *)
Definition serves_topic s (topic : string) (p : regptr) : Prop :=
  ∃ t, sv_servicesByTopic s !! topic = Some t ∧ p ∈ tv_services t.

Definition local_count (heap : gmap regptr ServiceRegistration) (byId : gmap string regptr) : Z :=
  Z.of_nat (size (filter (λ e, sr_isLocal <$> heap !! e.2 = Some true) byId)).

(** The zones are made of the services of the topic. *)
Definition zones_ok (t : TopicServices) : Prop :=
  match tv_servicesByZone t with
  | None => True
  | Some zs => (∀ p, p ∈ tv_services t ↔ ∃ z, z ∈ zs ∧ p ∈ zs_services z) ∧
               ∀ z, z ∈ zs → zs_topic z = tv_topic t ∧ (zs_next z <= size (zs_services z))%nat
  end.

Record services_ok s : Prop := {
  so_guid g p : sv_servicesById s !! g = Some p → ∃ r, sv_heap s !! p = Some r ∧ sr_serviceGuid r = g;
  so_type ty p : (ty, p) ∈ sv_servicesByType s ↔ ∃ g r, registration s g p r ∧ sr_serviceType r = ty;
  so_type_once : NoDup (sv_servicesByType s);
  so_topic topic p : serves_topic s topic p ↔ ∃ g r, registration s g p r ∧ topic ∈ sr_requestChannels r;
  so_topics topic t : sv_servicesByTopic s !! topic = Some t → tv_topic t = topic ∧ tv_services t ≠ ∅ ∧ zones_ok t;
  so_count : sv_localSvcCounter s = u32 (local_count (sv_heap s) (sv_servicesById s)) }.

Lemma registration_guid s g p r : services_ok s → registration s g p r → sr_serviceGuid r = g.
Proof. intros Hok [Hg Hp]. destruct (so_guid _ Hok g p Hg) as (r' & Hr' & <-). congruence. Qed.
Lemma registration_inj s g g' p r r' : services_ok s → registration s g p r → registration s g' p r' → g = g'.
Proof.
  intros Hok Hr Hr'. rewrite <-(registration_guid _ _ _ _ Hok Hr), <-(registration_guid _ _ _ _ Hok Hr'). f_equal.
  destruct Hr, Hr'. congruence.
Qed.

(** ** Topics *)

Lemma topic_adds reg l (m : gmap string TopicServices) topic : NoDup l →
  foldl (topic_add reg) m l !! topic =
    if decide (topic ∈ l) then Some (TopicServices_addService reg (default (mk_TopicServices topic ∅ None) (m !! topic))) else m !! topic.
Proof.
  intros Hnd. revert m. induction Hnd as [|t l Ht Hnd IH]; intros m; cbn [foldl]; [by rewrite decide_False by (by apply not_elem_of_nil)|].
  rewrite IH. unfold topic_add. destruct (decide (topic = t)) as [->|Hne].
  - rewrite (decide_False (P := t ∈ l)), (decide_True (P := t ∈ t :: l)) by (done || by left). by rewrite lookup_insert, decide_True.
  - rewrite lookup_insert_ne by done. destruct (decide (topic ∈ l)) as [Hin|Hin].
    + by rewrite decide_True by (by right).
    + rewrite decide_False; [done|]. by intros [|]%elem_of_cons.
Qed.

Lemma topic_removes reg l (m : gmap string TopicServices) topic : NoDup l →
  foldl (topic_remove reg) m l !! topic =
    if decide (topic ∈ l)
    then t ← m !! topic; let t' := TopicServices_removeService reg t in if decide (tv_services t' = ∅) then None else Some t'
    else m !! topic.
Proof.
  intros Hnd. revert m. induction Hnd as [|t l Ht Hnd IH]; intros m; cbn [foldl]; [by rewrite decide_False by (by apply not_elem_of_nil)|].
  rewrite IH. unfold topic_remove. destruct (decide (topic = t)) as [->|Hne].
  - rewrite (decide_False (P := t ∈ l)), (decide_True (P := t ∈ t :: l)) by (done || by left).
    destruct (m !! t) as [ts|] eqn:Hm; cbn; [|done]. case_bool_decide as He.
    + by rewrite lookup_delete, !decide_True by done.
    + by rewrite lookup_insert, decide_True, decide_False by done.
  - assert (∀ m' : gmap string TopicServices, (match m !! t with None => m | Some ts => if bool_decide (tv_services (TopicServices_removeService reg ts) = ∅)
      then delete t m else <[t := TopicServices_removeService reg ts]> m end) !! topic = m !! topic) as Hother.
    { intros _. destruct (m !! t); [|done]. case_bool_decide; [by rewrite lookup_delete_ne|by rewrite lookup_insert_ne]. }
    cbv zeta in *. rewrite !(Hother m). destruct (decide (topic ∈ l)) as [Hin|Hin].
    + by rewrite (decide_True (P := topic ∈ t :: l)) by (by right).
    + rewrite (decide_False (P := topic ∈ t :: l)); [done|]. by intros [|]%elem_of_cons.
Qed.

Lemma type_remove_spec heap ty g p r l : (∀ t q, (t, q) ∈ l → is_Some (heap !! q)) → (ty, p) ∈ l → heap !! p = Some r → sr_serviceGuid r = g →
  (∀ q r', (ty, q) ∈ l → heap !! q = Some r' → sr_serviceGuid r' = g → q = p) →
  ∃ l', type_remove heap ty g l = Some l' ∧ l ≡ₚ (ty, p) :: l'.
Proof.
  intros Hheap Hin Hp Hg Huniq. induction l as [|[t q] l IH]; [by apply elem_of_nil in Hin|]. cbn [type_remove].
  assert ((ty, p) ∈ l → ∃ l', type_remove heap ty g l = Some l' ∧ l ≡ₚ (ty, p) :: l') as IH'.
  { intros Hin'. apply IH; [|done|]; [intros t' q' ?; eapply Hheap; by right|intros q' r' ?; apply Huniq; by right]. }
  assert ((t, q) ≠ (ty, p) → ∃ l', (cons (t, q) <$> type_remove heap ty g l) = Some l' ∧ (t, q) :: l ≡ₚ (ty, p) :: l') as Hskip.
  { intros Hne. apply elem_of_cons in Hin as [|Hin]; [congruence|]. destruct (IH' Hin) as (l' & -> & Hl). exists ((t, q) :: l').
    split; [done|]. rewrite Hl. apply Permutation_swap. }
  destruct (String.eqb_spec t ty) as [->|Ht]; [|apply Hskip; congruence].
  destruct (Hheap ty q) as [r' Hq]; [by left|]. rewrite Hq. cbn. destruct (String.eqb_spec (sr_serviceGuid r') g) as [Hg'|Hg'].
  - exists l. split; [done|]. by rewrite (Huniq q r' ltac:(by left) Hq Hg').
  - apply Hskip. intros [= ->]. congruence.
Qed.

(** ** Counting local services *)

Lemma local_count_insert heap byId g p r : byId !! g = None → heap !! p = Some r →
  local_count heap (<[g := p]> byId) = local_count heap byId + (if sr_isLocal r then 1 else 0).
Proof.
  intros Hg Hp. unfold local_count. rewrite map_filter_insert. cbn [snd]. rewrite Hp. cbn [fmap option_fmap option_map]. destruct (sr_isLocal r).
  - rewrite decide_True by done. rewrite map_size_insert_None; [lia|]. rewrite map_lookup_filter, Hg. done.
  - rewrite decide_False by done. rewrite delete_id by done. lia.
Qed.
Lemma local_count_delete heap byId g p r : byId !! g = Some p → heap !! p = Some r →
  local_count heap (delete g byId) = local_count heap byId - (if sr_isLocal r then 1 else 0).
Proof.
  intros Hg Hp. pose proof (local_count_insert heap (delete g byId) g p r) as Hi. rewrite insert_delete_id in Hi by done.
  rewrite Hi; [lia|by rewrite lookup_delete, decide_True|done].
Qed.

(** ** Adding and removing *)

(** Everything but the indices. *)
Definition svc_frame s s' : Prop :=
  sv_heap s' = sv_heap s ∧ sv_zonesByNode s' = sv_zonesByNode s ∧ sv_brokerRegistry s' = sv_brokerRegistry s ∧
  sv_authorization s' = sv_authorization s ∧ sv_metrics s' = sv_metrics s ∧ sv_clock s' = sv_clock s.
Lemma svc_frame_refl s : svc_frame s s.
Proof. done. Qed.
Lemma svc_frame_trans s1 s2 s3 : svc_frame s1 s2 → svc_frame s2 s3 → svc_frame s1 s3.
Proof. intros (?&?&?&?&?&?) (?&?&?&?&?&?). unfold svc_frame. by split_and!; etrans. Qed.

Lemma wp_reg_get p r (Q : ServiceRegistration → ServiceRegistry → Prop) s : sv_heap s !! p = Some r → Q r s → wp (reg_get p) Q s.
Proof. intros Hp HQ. by eapply wp_deref. Qed.

Lemma addService_spec s p r : services_ok s → sv_heap s !! p = Some r → (∀ g, sv_servicesById s !! g ≠ Some p) →
  sv_servicesById s !! sr_serviceGuid r = None →
  wp (addService p) (λ _ s', services_ok s' ∧ svc_frame s s' ∧
    sv_servicesById s' = <[sr_serviceGuid r := p]> (sv_servicesById s) ∧ sv_sent s' = sv_sent s) s.
Proof.
  intros Hok Hp Hfree Hnew. unfold addService. wp_step. eapply wp_reg_get; [done|]. wp_step. wp_step. unfold incLocalSvc. wp_step.
  set (g := sr_serviceGuid r) in *. set (s' := upd _ _ _). split; [|split; [done|split; done]].
  assert (∀ g' q r', registration s' g' q r' ↔ registration s g' q r' ∨ g' = g ∧ q = p ∧ r' = r) as Hreg.
  { intros g' q r'. unfold registration. cbn. rewrite lookup_insert_Some. split.
    - intros [[[<- <-]|[Hne Hg']] Hq]; [right; split_and!; [done|done|congruence]|by left].
    - intros [[Hg' Hq]|(-> & -> & ->)]; [|by auto]. split; [|done]. right. split; [intros <-; congruence|done]. }
  assert (∀ topic q, serves_topic s' topic q ↔ serves_topic s topic q ∨ q = p ∧ topic ∈ sr_requestChannels r) as Htop.
  { intros topic q. unfold serves_topic. cbn. rewrite topic_adds by apply hash_order_NoDup. destruct (decide _) as [Hin|Hin]; rewrite hash_order_elem in Hin.
    - split.
      + intros (t & [= <-] & Hq). cbn in Hq. apply elem_of_union in Hq as [->%elem_of_singleton|Hq]; [by right|left].
        destruct (sv_servicesByTopic s !! topic) as [t|]; [by exists t|by apply elem_of_empty in Hq].
      + intros [(t & Ht & Hq)|[-> _]]; eexists; (split; [done|]); cbn; apply elem_of_union; [right; by rewrite Ht|left; by apply elem_of_singleton].
    - split; [by left|]. intros [|[_ ?]]; done. }
  split.
  - intros g' q Hq. cbn in Hq |- *. apply lookup_insert_Some in Hq as [[<- <-]|[_ Hq]]; [by exists r|by apply Hok].
  - intros ty q. cbn. rewrite elem_of_app, list_elem_of_singleton, (so_type _ Hok). setoid_rewrite Hreg. split.
    + intros [(g' & r' & Hr & Hty)|[= -> ->]]; [exists g', r'; by auto|exists g, r; by auto].
    + intros (g' & r' & [Hr|(-> & -> & ->)] & Hty); [left; by exists g', r'|right; by rewrite Hty].
  - cbn. apply NoDup_app. split; [apply Hok|]. split; [|apply NoDup_singleton]. intros [ty q] Hin Hx%list_elem_of_singleton.
    injection Hx as -> ->. apply (so_type _ Hok) in Hin as (g' & r' & [Hg' _] & _). by apply (Hfree g').
  - intros topic q. rewrite Htop, (so_topic _ Hok). setoid_rewrite Hreg. split.
    + intros [(g' & r' & Hr & Hc)|[-> Hc]]; [exists g', r'; by auto|exists g, r; by auto].
    + intros (g' & r' & [Hr|(-> & -> & ->)] & Hc); [left; by exists g', r'|by right].
  - intros topic t Ht. cbn in Ht. rewrite topic_adds in Ht by apply hash_order_NoDup. destruct (decide _); [|by apply Hok].
    injection Ht as <-. cbn. split; [|split; [set_solver|done]]. destruct (sv_servicesByTopic s !! topic) as [t|] eqn:Ht; [|done]. by apply Hok in Ht as [? _].
  - cbn. rewrite (so_count _ Hok), (local_count_insert _ _ _ _ r) by done. destruct (sr_isLocal r); [|by rewrite Z.add_0_r].
    unfold u32. by rewrite Zplus_mod_idemp_l.
Qed.

(** Rebuilding the event map finds every registration. *)
Lemma rebuild_loop_Some s l m : services_ok s → (∀ g, g ∈ l → is_Some (sv_servicesById s !! g)) →
  is_Some (rebuild_loop settings l (sv_heap s) (sv_servicesById s) m).
Proof.
  intros Hok. revert m. induction l as [|g l IH]; intros m Hl; [by eexists|]. cbn.
  destruct (Hl g ltac:(by left)) as [p Hp]. rewrite Hp. cbn. destruct (so_guid _ Hok g p Hp) as (r & -> & _). cbn.
  apply IH. intros g' Hg'. apply Hl. by right.
Qed.

(** A state that differs in what the invariant does not mention. *)
Definition same_indices s s' : Prop :=
  sv_heap s' = sv_heap s ∧ sv_servicesById s' = sv_servicesById s ∧ sv_servicesByType s' = sv_servicesByType s ∧
  sv_servicesByTopic s' = sv_servicesByTopic s ∧ sv_localSvcCounter s' = sv_localSvcCounter s.
Lemma services_ok_same s s' : same_indices s s' → services_ok s → services_ok s'.
Proof.
  intros (Hh & Hi & Hty & Hto & Hc) Hok. destruct Hok as [H1 H2 H3 H4 H5 H6].
  assert (∀ g p r, registration s' g p r ↔ registration s g p r) as Hreg by (intros; unfold registration; by rewrite Hh, Hi).
  assert (∀ t p, serves_topic s' t p ↔ serves_topic s t p) as Htop by (intros; unfold serves_topic; by rewrite Hto).
  split; rewrite ?Hh, ?Hi, ?Hty, ?Hto, ?Hc; try done.
  - intros ty p. rewrite H2. by setoid_rewrite Hreg.
  - intros t p. rewrite Htop, H4. by setoid_rewrite Hreg.
Qed.

Lemma rebuild_spec s : services_ok s → wp (rebuildEventToRequestPrefixMap settings) (λ _ s', same_indices s s' ∧ svc_frame s s' ∧ sv_sent s' = sv_sent s) s.
Proof.
  intros Hok. unfold rebuildEventToRequestPrefixMap. wp_step.
  destruct (rebuild_loop_Some s (hash_order (dom (sv_servicesById s))) ∅ Hok) as [m Hm].
  { intros g Hg%hash_order_elem. by apply elem_of_dom. }
  eapply wp_deref; [exact Hm|]. wp_step. split_and!; [done|done|done].
Qed.

(** What leaves with a registration: the unregister event, if it is local. *)
Definition unregister_events (fireEvent : bool) (r : ServiceRegistration) : list service_event :=
  if fireEvent && sr_isLocal r then [UnregisterEvent (sr_serviceGuid r) (restricted_to settings r)] else [].

Lemma unregistered_ok s s' g p r byType : services_ok s → registration s g p r → sv_servicesByType s ≡ₚ (sr_serviceType r, p) :: byType →
  sv_heap s' = sv_heap s → sv_servicesById s' = delete g (sv_servicesById s) → sv_servicesByType s' = byType →
  sv_servicesByTopic s' = foldl (topic_remove p) (sv_servicesByTopic s) (hash_order (sr_requestChannels r)) →
  sv_localSvcCounter s' = (if sr_isLocal r then u32 (sv_localSvcCounter s - 1) else sv_localSvcCounter s) → services_ok s'.
Proof.
  intros Hok Hr Hperm Hh Hi Hty Hto Hc.
  assert (∀ g' q r', registration s' g' q r' ↔ registration s g' q r' ∧ q ≠ p) as Hreg.
  { intros g' q r'. unfold registration. rewrite Hh, Hi, lookup_delete_Some. split.
    - intros [[Hne Hg'] Hq]. split; [done|]. intros ->. apply Hne. by eapply registration_inj; [exact Hok|exact Hr|split].
    - intros [[Hg' Hq] Hne]. split; [|done]. split; [|done]. intros <-. destruct Hr. congruence. }
  assert (∀ topic q, serves_topic s' topic q ↔ serves_topic s topic q ∧ (q ≠ p ∨ topic ∉ sr_requestChannels r)) as Htop.
  { intros topic q. unfold serves_topic. rewrite Hto, topic_removes by apply hash_order_NoDup. destruct (decide _) as [Hin|Hin]; rewrite hash_order_elem in Hin.
    - split.
      + intros (t' & Ht' & Hq). destruct (sv_servicesByTopic s !! topic) as [t|]; [|done]. cbn in Ht'. destruct (decide _); [done|].
        injection Ht' as <-. cbn in Hq. apply elem_of_difference in Hq as [Hq Hn%not_elem_of_singleton]. split; [by exists t|by left].
      + intros [(t & Ht & Hq) [Hne|?]]; [|done]. rewrite Ht. cbn. destruct (decide _) as [He|He]; [set_solver|].
        eexists. split; [done|]. cbn. set_solver.
    - split; [intros (t & Ht & Hq); split; [by exists t|by right]|by intros [? _]]. }
  assert (∀ g' r', registration s g' p r' → g' = g ∧ r' = r) as Hmine.
  { intros g' r' Hr'. split; [by eapply registration_inj|]. destruct Hr, Hr'. congruence. }
  pose proof (so_type_once _ Hok) as Hnd. rewrite Hperm in Hnd. apply NoDup_cons in Hnd as [Hnin Hnd]. split.
  - intros g' q Hq. rewrite Hi in Hq. apply lookup_delete_Some in Hq as [_ Hq]. rewrite Hh. by apply Hok.
  - intros ty q. rewrite Hty. assert ((ty, q) ∈ byType ↔ (ty, q) ∈ sv_servicesByType s ∧ q ≠ p) as ->.
    { rewrite Hperm, elem_of_cons. split.
      - intros Hin. split; [by right|]. intros ->. apply Hnin. assert ((ty, p) ∈ sv_servicesByType s) as Hin' by (rewrite Hperm; by right).
        apply (so_type _ Hok) in Hin' as (g' & r' & Hr' & <-). apply Hmine in Hr' as [_ ->]. done.
      - intros [[[= -> ->]|]]; done. }
    rewrite (so_type _ Hok). setoid_rewrite Hreg. split.
    + intros [(g' & r' & ? & ?) Hne]. by exists g', r'.
    + intros (g' & r' & [? ?] & ?). split; [by exists g', r'|done].
  - by rewrite Hty.
  - intros topic q. rewrite Htop, (so_topic _ Hok). setoid_rewrite Hreg. split.
    + intros [(g' & r' & Hr' & Hch) [Hne|Hn]]; [by exists g', r'|]. exists g', r'. split; [|done]. split; [done|].
      intros ->. apply Hmine in Hr' as [_ ->]. done.
    + intros (g' & r' & [Hr' Hne] & Hch). split; [by exists g', r'|by left].
  - intros topic t Ht. rewrite Hto, topic_removes in Ht by apply hash_order_NoDup. destruct (decide _); [|by apply Hok].
    destruct (sv_servicesByTopic s !! topic) as [t0|] eqn:Ht0; [|done]. cbn in Ht. destruct (decide _) as [|Hne]; [done|]. injection Ht as <-.
    cbn. split; [by apply Hok in Ht0 as [? _]|by split].
  - rewrite Hc, Hh, Hi. destruct Hr as [Hg Hp]. rewrite (local_count_delete _ _ _ p r) by done. rewrite (so_count _ Hok).
    destruct (sr_isLocal r); [|by rewrite Z.sub_0_r]. unfold u32. by rewrite Zminus_mod_idemp_l.
Qed.

Lemma doUnregisterService_spec s g p r fire : services_ok s → registration s g p r →
  wp (doUnregisterService settings p fire) (λ _ s', services_ok s' ∧ svc_frame s s' ∧ sv_servicesById s' = delete g (sv_servicesById s) ∧
    sv_sent s' = sv_sent s ++ unregister_events fire r) s.
Proof.
  intros Hok Hr. pose proof (registration_guid _ _ _ _ Hok Hr) as Hg. pose proof Hr as [Hid Hp].
  unfold doUnregisterService. wp_step. eapply wp_reg_get; [done|]. wp_step. wp_step. wp_step.
  destruct (type_remove_spec (sv_heap s) (sr_serviceType r) (sr_serviceGuid r) p r (sv_servicesByType s)) as (byType & Hty & Hperm).
  { intros t q Hin. apply (so_type _ Hok) in Hin as (g' & r' & [_ Hq] & _). by rewrite Hq. }
  { apply (so_type _ Hok). by exists g, r. }
  { done. }
  { done. }
  { intros q r' Hin Hq Hg'. apply (so_type _ Hok) in Hin as (g' & r'' & Hr'' & _). assert (g' = g) as ->.
    { rewrite <-(registration_guid _ _ _ _ Hok Hr''), <-Hg, <-Hg'. f_equal. destruct Hr''. congruence. }
    destruct Hr''. congruence. }
  eapply wp_deref; [exact Hty|]. wp_step. wp_step. wp_step. unfold decLocalSvc. wp_step. set (s1 := upd _ _ _).
  assert (services_ok s1) as Hok1.
  { eapply (unregistered_ok s s1 g p r byType); [done|done|done|done|cbn; by rewrite Hg|done|done|]. cbn. by destruct (sr_isLocal r). }
  wp_step. eapply (wp_mono _ (λ _ s2, same_indices s1 s2 ∧ svc_frame s1 s2 ∧ sv_sent s2 = sv_sent s1)).
  { destruct (_ && _); [by apply rebuild_spec|]. wp_step. by split_and!. }
  intros _ s2 (Hsame & Hframe & Hsent). pose proof (services_ok_same _ _ Hsame Hok1) as Hok2. destruct Hsame as (_ & Hi2 & _).
  assert (sv_servicesById s2 = delete g (sv_servicesById s)) as Hdel by (rewrite Hi2; cbn; by rewrite Hg).
  assert (svc_frame s s2) as Hfr by (eapply svc_frame_trans; [|exact Hframe]; done).
  assert (sv_sent s2 = sv_sent s) as Hs2 by (rewrite Hsent; done).
  unfold unregister_events, sendServiceUnregistrationEvent. destruct fire; cbn [andb]; [destruct (sr_isLocal r)|]; wp_step.
  - split_and!; [by eapply services_ok_same; [|exact Hok2]|done|done|]. cbn. by rewrite Hs2.
  - split_and!; [done|done|done|]. by rewrite app_nil_r.
  - split_and!; [done|done|done|]. by rewrite app_nil_r.
Qed.

(** ** Unregistering *)

(** The same without the metrics. *)
Definition svc_env s s' : Prop :=
  sv_heap s' = sv_heap s ∧ sv_zonesByNode s' = sv_zonesByNode s ∧ sv_brokerRegistry s' = sv_brokerRegistry s ∧
  sv_authorization s' = sv_authorization s ∧ sv_clock s' = sv_clock s.
Lemma svc_frame_env s s' : svc_frame s s' → svc_env s s'.
Proof. by intros (?&?&?&?&?&?). Qed.
Lemma svc_env_trans s1 s2 s3 : svc_env s1 s2 → svc_env s2 s3 → svc_env s1 s3.
Proof. intros (?&?&?&?&?) (?&?&?&?&?). unfold svc_env. by split_and!; etrans. Qed.

(** Counting services of tenants. *)
Definition tenant_adjusted (r : ServiceRegistration) (n : Z) (m : TenantMetricsService) : TenantMetricsService :=
  if set_multiTenantModeEnabled settings && negb (sr_serviceIsOps r)
  then updateTenantServiceCount settings isInfoEnabled (sr_clientTenantGuid r) n m else m.
Lemma adjust_tenant_spec r n s : wp (adjust_tenant settings isInfoEnabled r n) (λ _ s', same_indices s s' ∧ svc_env s s' ∧
  sv_sent s' = sv_sent s ∧ sv_metrics s' = tenant_adjusted r n (sv_metrics s)) s.
Proof. unfold adjust_tenant, tenant_adjusted. destruct (_ && _); by wp_step. Qed.

Lemma unregisterService_spec s g fire : services_ok s → wp (unregisterService settings isInfoEnabled g fire) (λ _ s',
  services_ok s' ∧ svc_env s s' ∧ sv_servicesById s' = delete g (sv_servicesById s) ∧
  match sv_servicesById s !! g ≫= (sv_heap s !!.) with
  | Some r => sv_sent s' = sv_sent s ++ unregister_events fire r ∧ sv_metrics s' = tenant_adjusted r (-1) (sv_metrics s)
  | None => s' = s
  end) s.
Proof.
  intros Hok. unfold unregisterService, findService. wp_step. wp_step. destruct (sv_servicesById s !! g) as [p|] eqn:Hg.
  2: { wp_step. split_and!; [done|done|by rewrite delete_id|done]. }
  destruct (so_guid _ Hok g p Hg) as (r & Hp & _). cbn. rewrite Hp. wp_step.
  eapply wp_mono; [by eapply doUnregisterService_spec|]. intros _ s1 (Hok1 & Hfr1 & Hi1 & Hs1). wp_step.
  eapply wp_reg_get; [destruct Hfr1 as [-> _]; exact Hp|]. eapply wp_mono; [apply adjust_tenant_spec|].
  intros _ s2 (Hsame & Henv & Hs2 & Hm2). split_and!.
  - by eapply services_ok_same.
  - by eapply svc_env_trans; [apply svc_frame_env|].
  - destruct Hsame as (_ & -> & _). done.
  - by rewrite Hs2.
  - rewrite Hm2. destruct Hfr1 as (_ & _ & _ & _ & -> & _). done.
Qed.

(** A client's request, which leaves the tenant's count alone. *)
Lemma unregisterService_client_spec s g client tenant fire : services_ok s →
  wp (unregisterService_client settings g client tenant fire) (λ _ s', services_ok s' ∧ svc_frame s s' ∧
    match sv_servicesById s !! g ≫= (sv_heap s !!.) with
    | Some r => if String.eqb client (sr_clientGuid r) && String.eqb tenant (sr_clientTenantGuid r)
                then sv_servicesById s' = delete g (sv_servicesById s) ∧ sv_sent s' = sv_sent s ++ unregister_events fire r
                else s' = s
    | None => s' = s
    end) s.
Proof.
  intros Hok. unfold unregisterService_client, findService. wp_step. wp_step. destruct (sv_servicesById s !! g) as [p|] eqn:Hg; [|by wp_step].
  destruct (so_guid _ Hok g p Hg) as (r & Hp & _). cbn. rewrite Hp. wp_step. eapply wp_reg_get; [exact Hp|].
  destruct (_ && _); [|by wp_step]. eapply wp_mono; [by eapply doUnregisterService_spec|]. by intros _ s1 (Hok1 & Hfr1 & Hi1 & Hs1).
Qed.

(** ** Registering *)

(** Renewing a registration in place. *)
Lemma services_ok_alter s s' q f : (∀ r, sr_serviceGuid (f r) = sr_serviceGuid r ∧ sr_serviceType (f r) = sr_serviceType r ∧
    sr_requestChannels (f r) = sr_requestChannels r ∧ sr_isLocal (f r) = sr_isLocal r) →
  sv_heap s' = alter f q (sv_heap s) → sv_servicesById s' = sv_servicesById s → sv_servicesByType s' = sv_servicesByType s →
  sv_servicesByTopic s' = sv_servicesByTopic s → sv_localSvcCounter s' = sv_localSvcCounter s → services_ok s → services_ok s'.
Proof.
  intros Hf Hh Hi Hty Hto Hc Hok.
  assert (∀ p, sv_heap s' !! p = (λ r, if decide (p = q) then f r else r) <$> sv_heap s !! p) as Hheap.
  { intros p. rewrite Hh. destruct (decide (p = q)) as [->|Hne]; [by rewrite lookup_alter, decide_True|].
    rewrite lookup_alter_ne by done. by destruct (sv_heap s !! p). }
  set (F := λ p r, if decide (p = q) then f r else r).
  assert (∀ p r, sr_serviceGuid (F p r) = sr_serviceGuid r ∧ sr_serviceType (F p r) = sr_serviceType r ∧
    sr_requestChannels (F p r) = sr_requestChannels r ∧ sr_isLocal (F p r) = sr_isLocal r) as HF.
  { intros p r. unfold F. destruct (decide (p = q)); [apply Hf|done]. }
  assert (∀ g p r', registration s' g p r' ↔ ∃ r, registration s g p r ∧ r' = F p r) as Hreg.
  { intros g p r'. unfold registration. rewrite Hi, Hheap, fmap_Some. unfold F. naive_solver. }
  destruct Hok as [H1 H2 H3 H4 H5 H6]. split; rewrite ?Hi, ?Hty, ?Hto, ?Hc; try done.
  - intros g p Hg. destruct (H1 g p Hg) as (r & Hr & <-). exists (F p r). rewrite Hheap, Hr. split; [done|]. apply HF.
  - intros ty p. rewrite H2. setoid_rewrite Hreg. split.
    + intros (g & r & Hr & <-). exists g, (F p r). split; [by exists r|]. apply HF.
    + intros (g & r' & (r & Hr & ->) & <-). exists g, r. split; [done|]. symmetry. apply HF.
  - intros t p. unfold serves_topic. rewrite Hto. fold (serves_topic s t p). rewrite H4. setoid_rewrite Hreg. split.
    + intros (g & r & Hr & Hch). exists g, (F p r). split; [by exists r|]. by destruct (HF p r) as (_ & _ & -> & _).
    + intros (g & r' & (r & Hr & ->) & Hch). exists g, r. split; [done|]. by destruct (HF p r) as (_ & _ & <- & _).
  - rewrite H6. f_equal. unfold local_count. f_equal. f_equal. apply map_filter_ext. intros g p _. cbn. rewrite Hheap.
    destruct (sv_heap s !! p) as [r|]; [|done]. cbn. destruct (HF p r) as (_ & _ & _ & Hl). unfold F in Hl. by rewrite Hl.
Qed.

(** What an update does: nothing for a service that another broker offers for
    a shorter time, a renewal, or a replacement. *)
Definition updated s s' (q p : regptr) (e r : ServiceRegistration) : Prop :=
  same_indices s s' ∨
  (sv_servicesById s' = sv_servicesById s ∧
   sv_heap s' = alter (λ e, e <| sr_ttlMins := sr_ttlMins r |> <| sr_metaData := sr_metaData r |> <| sr_regTime := sr_regTime r |>) q (sv_heap s) ∧
   same_service e r = true) ∨
  (sv_servicesById s' = <[sr_serviceGuid r := p]> (sv_servicesById s) ∧ sv_heap s' = sv_heap s ∧ same_service e r = false).

(** The registries a service registry works with do not change. *)
Definition svc_kept s s' : Prop :=
  sv_zonesByNode s' = sv_zonesByNode s ∧ sv_brokerRegistry s' = sv_brokerRegistry s ∧ sv_authorization s' = sv_authorization s.
Lemma svc_kept_trans s1 s2 s3 : svc_kept s1 s2 → svc_kept s2 s3 → svc_kept s1 s3.
Proof. intros (?&?&?) (?&?&?). unfold svc_kept. by split_and!; etrans. Qed.
Lemma svc_env_kept s s' : svc_env s s' → svc_kept s s'.
Proof. by intros (?&?&?&?&?). Qed.

Lemma updateService_spec s q p e r : services_ok s → registration s (sr_serviceGuid r) q e → sv_heap s !! p = Some r →
  (∀ g, sv_servicesById s !! g ≠ Some p) →
  wp (updateService settings isInfoEnabled q p) (λ _ s', services_ok s' ∧ svc_kept s s' ∧ updated s s' q p e r ∧ sv_sent s' = sv_sent s) s.
Proof.
  intros Hok [Hq He] Hp Hfree. unfold updateService. wp_step. eapply wp_reg_get; [done|]. wp_step. eapply wp_reg_get; [done|]. wp_step.
  eapply (wp_mono _ (λ _ s1, same_indices s s1 ∧ svc_kept s s1 ∧ sv_sent s1 = sv_sent s)).
  { destruct (String.eqb _ _); by wp_step. }
  intros ignored s1 (Hsame & Hkept & Hsent). pose proof (services_ok_same _ _ Hsame Hok) as Hok1. destruct ignored.
  { wp_step. split_and!; [done|done|by left|done]. }
  pose proof Hsame as (Hh1 & Hi1 & Hty1 & Hto1 & Hc1). destruct (same_service e r) eqn:Hsrv.
  - unfold reg_upd. wp_step. split_and!; [|destruct Hkept; by split|right; left; split_and!; [done|cbn; by rewrite Hh1|done]|done].
    eapply (services_ok_alter s1); [|reflexivity..|exact Hok1]. done.
  - wp_step. eapply wp_mono; [by apply unregisterService_spec|]. intros _ s2 (Hok2 & Henv2 & Hi2 & Hm2).
    pose proof Henv2 as (Hh2 & _). eapply wp_mono; [apply (addService_spec _ p r); [done|by rewrite Hh2, Hh1| |]|].
    + intros g. rewrite Hi2, Hi1, lookup_delete_Some. intros [_ Hg]. by apply (Hfree g).
    + by rewrite Hi2, lookup_delete, decide_True.
    + intros _ s3 (Hok3 & Hfr3 & Hi3 & Hs3). split_and!; [done| | |].
      * eapply svc_kept_trans; [exact Hkept|]. eapply svc_kept_trans; [by apply svc_env_kept|]. by apply svc_env_kept, svc_frame_env.
      * right. right. split_and!; [|destruct Hfr3 as [-> _]; by rewrite Hh2|done].
        rewrite Hi3, Hi2, Hi1. by rewrite insert_delete_eq.
      * rewrite Hi1, Hq, Hh1 in Hm2. cbn in Hm2. rewrite He in Hm2. destruct Hm2 as [Hs2 _].
        by rewrite Hs3, Hs2, app_nil_r, Hsent.
Qed.
End service_proofs.
