(* ===== verification/ServiceTurns.v ===== *)
(** * Services take turns

    Who may serve a request ([may_serve]), how the loop of
    [ZoneServices::getNextService] goes around a zone from the service behind
    the last one chosen ([turns]), and that the zones made by
    [TopicServices::calculateServiceZones] hold the services of the topic. *)

From S2P Require Import Prelude Topic CoreUtil Authorization Fabric FabricProofs TopicCache TopicCacheProofs Registry RegistryProofs Metrics Services ServiceProofs.
From stdpp Require Import options.

Section service_turns.
Context (settings : BrokerSettings) (isInfoEnabled : bool) `{HashOrder} `{PtrOrder}.
Implicit Types s : ServiceRegistry.

(** ** Who may serve a request *)

(** The keys by which the client of a service is authorized. *)
Definition client_keys (r : ServiceRegistration) : list string :=
  if sr_managedClient r then [sr_clientGuid r]
  else match hash_order (sr_certificates r) with [] => [""] | certs => certs end.

(** The service is here, or the fabric leads to its broker; it has not expired
    at [now]; its client may receive on the topic; the tenant may use it. *)
Definition may_serve s (topic tenant : string) (now : Z) (p : regptr) : Prop :=
  ∃ r a, sv_heap s !! p = Some r ∧ sv_authorization s = Some a ∧
    (sr_isLocal r = true ∨
     let reg := rg_registry (sv_brokerRegistry s) in
     is_Some (reg !! set_guid settings) ∧ is_Some (reg !! sr_brokerGuid r) ∧ reachable reg (set_guid settings) (sr_brokerGuid r)) ∧
    reg_isExpired settings now r = false ∧
    (∃ key, key ∈ client_keys r ∧ permitted (ta_subscribers a) key topic) ∧
    isServiceAvailable settings tenant r = true.

(** The other singletons are in order. *)
Definition surroundings_ok s : Prop :=
  registry_ok settings (sv_brokerRegistry s) ∧
  ∃ publishers subscribers, sv_authorization s = Some (TopicAuthorizationState_new publishers subscribers).

(** Time passes and routes get cached. *)
Definition svc_moves s s' : Prop :=
  sv_heap s' = sv_heap s ∧ sv_servicesById s' = sv_servicesById s ∧ sv_servicesByType s' = sv_servicesByType s ∧
  sv_servicesByTopic s' = sv_servicesByTopic s ∧ sv_localSvcCounter s' = sv_localSvcCounter s ∧
  sv_zonesByNode s' = sv_zonesByNode s ∧ sv_authorization s' = sv_authorization s ∧ sv_sent s' = sv_sent s ∧ sv_metrics s' = sv_metrics s ∧
  rg_registry (sv_brokerRegistry s') = rg_registry (sv_brokerRegistry s) ∧
  ∃ k, ∀ n, sv_clock s' n = sv_clock s (k + n)%nat.

Lemma svc_moves_refl s : svc_moves s s.
Proof. unfold svc_moves. split_and!; try done. by exists 0%nat. Qed.
Lemma svc_moves_trans s1 s2 s3 : svc_moves s1 s2 → svc_moves s2 s3 → svc_moves s1 s3.
Proof.
  intros (?&?&?&?&?&?&?&?&?&?& k & Hk) (?&?&?&?&?&?&?&?&?&?& l & Hl). unfold svc_moves. split_and!; try by etrans.
  exists (k + l)%nat. intros n. rewrite Hl, Hk. f_equal. lia.
Qed.
(** What matters to who may serve. *)
Definition svc_looks s s' : Prop :=
  sv_heap s' = sv_heap s ∧ sv_servicesById s' = sv_servicesById s ∧ sv_authorization s' = sv_authorization s ∧
  rg_registry (sv_brokerRegistry s') = rg_registry (sv_brokerRegistry s) ∧ ∃ k, ∀ n, sv_clock s' n = sv_clock s (k + n)%nat.
Lemma svc_looks_refl s : svc_looks s s.
Proof. unfold svc_looks. split_and!; try done. by exists 0%nat. Qed.
Lemma svc_looks_trans s1 s2 s3 : svc_looks s1 s2 → svc_looks s2 s3 → svc_looks s1 s3.
Proof.
  intros (?&?&?&?& k & Hk) (?&?&?&?& l & Hl). unfold svc_looks. split_and!; try by etrans.
  exists (k + l)%nat. intros n. rewrite Hl, Hk. f_equal. lia.
Qed.
Lemma svc_moves_looks s s' : svc_moves s s' → svc_looks s s'.
Proof. by intros (?&?&?&?&?&?&?&?&?&?&?). Qed.
Lemma may_serve_looks s s' topic tenant now p : svc_looks s s' → may_serve s' topic tenant now p ↔ may_serve s topic tenant now p.
Proof. intros (Hh & _ & Ha & Hr & _). unfold may_serve. by rewrite Hh, Ha, Hr. Qed.

(** At some look at the clock. *)
Definition served s topic tenant p : Prop := ∃ n, may_serve s topic tenant (sv_clock s n) p.
Definition refused s topic tenant p : Prop := ∃ n, ¬ may_serve s topic tenant (sv_clock s n) p.
Lemma served_looks s s' topic tenant p : svc_looks s s' → served s' topic tenant p → served s topic tenant p.
Proof.
  intros Hm [n Hn]. pose proof Hm as (_&_&_&_& k & Hk). exists (k + n)%nat. rewrite <-Hk. by apply (may_serve_looks s s').
Qed.
Lemma refused_looks s s' topic tenant p : svc_looks s s' → refused s' topic tenant p → refused s topic tenant p.
Proof.
  intros Hm [n Hn]. pose proof Hm as (_&_&_&_& k & Hk). exists (k + n)%nat. rewrite <-Hk. intros Hs. apply Hn.
  by apply (may_serve_looks s s').
Qed.
Lemma may_serve_moves s s' topic tenant now p : svc_moves s s' → may_serve s' topic tenant now p ↔ may_serve s topic tenant now p.
Proof. intros Hm. by apply may_serve_looks, svc_moves_looks. Qed.
Lemma served_moves s s' topic tenant p : svc_moves s s' → served s' topic tenant p → served s topic tenant p.
Proof. intros Hm. by apply served_looks, svc_moves_looks. Qed.
Lemma refused_moves s s' topic tenant p : svc_moves s s' → refused s' topic tenant p → refused s topic tenant p.
Proof. intros Hm. by apply refused_looks, svc_moves_looks. Qed.

Lemma may_receive_spec s topic r publishers subscribers (Q : bool → ServiceRegistry → Prop) :
  sv_authorization s = Some (TopicAuthorizationState_new publishers subscribers) →
  (∀ b, (b = true ↔ ∃ key, key ∈ client_keys r ∧ permitted subscribers key topic) → Q b s) → wp (may_receive topic r) Q s.
Proof.
  intros Ha HQ. unfold may_receive. wp_step. eapply wp_deref; [exact Ha|]. set (a := TopicAuthorizationState_new publishers subscribers).
  assert (∀ key, ∃ b, _isAuthorizedToSubscribe a key topic = Some b ∧ (b = true ↔ permitted subscribers key topic)) as Hsub.
  { intros key. apply authorize_spec. by intros [_ ?]%orb_false_iff. }
  assert (∀ k (P : string → Prop), (∃ key, key ∈ [k] ∧ P key) ↔ P k) as Hone.
  { intros k P. split; [by intros (key & ->%list_elem_of_singleton & ?)|intros ?; exists k; split; [by left|done]]. }
  unfold client_keys in HQ. destruct (sr_managedClient r).
  - destruct (Hsub (sr_clientGuid r)) as (b & Hb & Hspec). eapply wp_deref; [exact Hb|]. apply HQ. by rewrite Hone.
  - unfold isAuthorizedToSubscribe_certs. destruct (hash_order (sr_certificates r)) as [|c certs].
    + destruct (Hsub "") as (b & Hb & Hspec). eapply wp_deref; [exact Hb|]. apply HQ. by rewrite Hone.
    + destruct (any_cert_spec _ (c :: certs) _ Hsub) as (b & Hb & Hspec). eapply wp_deref; [exact Hb|]. by apply HQ.
Qed.

Lemma serves_spec s topic tenant p r : surroundings_ok s → sv_heap s !! p = Some r →
  wp (serves settings topic tenant p) (λ b s', svc_moves s s' ∧ surroundings_ok s' ∧
    if b then served s topic tenant p else refused s topic tenant p) s.
Proof.
  intros [Hreg (pubs & subs & Ha)] Hp. unfold serves. wp_step. eapply wp_reg_get; [done|]. wp_step.
  set (reach := sr_isLocal r = true ∨ let reg := rg_registry (sv_brokerRegistry s) in
     is_Some (reg !! set_guid settings) ∧ is_Some (reg !! sr_brokerGuid r) ∧ reachable reg (set_guid settings) (sr_brokerGuid r)).
  eapply (wp_mono _ (λ b s1, svc_moves s s1 ∧ surroundings_ok s1 ∧ (b = true ↔ reach))).
  { destruct (sr_isLocal r) eqn:Hl.
    - wp_step. split_and!; [apply svc_moves_refl|split; [done|by exists pubs, subs]|]. split; [intros _; by left|done].
    - wp_step. unfold next_broker_of. pose proof (getNextBroker_wp settings (set_guid settings) (sr_brokerGuid r) _ Hreg) as Hn.
      apply wp_Some in Hn as (n & br & Hrun & Hok & Hsame & Hnext & _). unfold wp. rewrite Hrun. cbn. split_and!.
      + unfold svc_moves. cbn. split_and!; try done. by exists 0%nat.
      + split; [done|]. by exists pubs, subs.
      + unfold reach. rewrite negb_true_iff, String.eqb_neq, Hnext. split; [by right|by intros [|]]. }
  intros reached s1 (Hm1 & [Hreg1 _] & Hreached). pose proof Hm1 as (_&_&_&_&_&_&Ha1&_&_&_&k & Hk).
  assert (∀ P, (¬ reach ∨ P) → (P → refused s topic tenant p) → refused s topic tenant p) as Hno.
  { intros P [Hn|HP] Himp; [|by apply Himp]. exists 0%nat. intros (r' & a & Hr' & _ & Hre & _). apply Hn. by simplify_eq. }
  rewrite Ha in Ha1. destruct reached; cbn [negb].
  2: { wp_step. split_and!; [done|split; [done|by exists pubs, subs]|]. apply (Hno False); [left; by rewrite <-Hreached|done]. }
  wp_step. unfold svc_time. cbv beta. unfold wp at 1. set (now := sv_clock s1 0%nat). set (s2 := s1 <| sv_clock := λ n, sv_clock s1 (S n) |>).
  assert (svc_moves s s2) as Hm2.
  { eapply svc_moves_trans; [exact Hm1|]. unfold svc_moves. cbn. split_and!; try done. by exists 1%nat. }
  assert (surroundings_ok s2) as Hs2 by (split; [done|by exists pubs, subs]).
  assert (now = sv_clock s k) as Hnow by (unfold now; by rewrite Hk, Nat.add_0_r). destruct (reg_isExpired settings now r) eqn:Hexp.
  { wp_step. split_and!; [done|done|]. exists k. intros (r' & a & Hr' & _ & _ & He & _). simplify_eq. congruence. }
  wp_step. eapply may_receive_spec; [exact Ha1|]. intros authorized Hauth. destruct authorized; cbn [negb].
  - wp_step. split_and!; [done|done|]. destruct (isServiceAvailable settings tenant r) eqn:Hav.
    + exists k. exists r, (TopicAuthorizationState_new pubs subs). rewrite <-Hnow. split_and!; [done|done|by apply Hreached|done|by apply Hauth|done].
    + exists k. intros (r' & a & Hr' & _ & _ & _ & _ & Ht). simplify_eq. congruence.
  - wp_step. split_and!; [done|done|]. exists k. intros (r' & a & Hr' & Ha' & _ & _ & Hk' & _). simplify_eq.
    assert (false = true) by (by apply Hauth). done.
Qed.

(** ** Turns *)

(** The service [j] places behind the last one chosen, around the zone. *)
Definition turn (z : ZoneServices) (j : nat) : option regptr :=
  ptr_order (zs_services z) !! ((zs_next z + j) mod size (zs_services z))%nat.

Lemma turn_elem z j p : turn z j = Some p → p ∈ zs_services z.
Proof. intros Hp%list_elem_of_lookup_2. by apply ptr_order_elem. Qed.
Lemma turn_Some z j : zs_services z ≠ ∅ → is_Some (turn z j).
Proof.
  intros Hne. unfold turn. apply lookup_lt_is_Some_2. rewrite ptr_order_length. apply Nat.mod_upper_bound.
  intros He. by apply Hne, leibniz_equiv_iff, size_empty_inv.
Qed.
(** In one round everyone has a turn. *)
Lemma turn_all z p : p ∈ zs_services z → (zs_next z <= size (zs_services z))%nat → ∃ j, (j < size (zs_services z))%nat ∧ turn z j = Some p.
Proof.
  intros Hp Hn. apply ptr_order_elem, list_elem_of_lookup in Hp as [l Hl]. pose proof (lookup_lt_Some _ _ _ Hl) as Hlt. rewrite ptr_order_length in Hlt.
  unfold turn. set (k := size (zs_services z)) in *. destruct (decide (zs_next z <= l)%nat).
  - exists (l - zs_next z)%nat. split; [lia|]. replace (zs_next z + (l - zs_next z))%nat with l by lia. by rewrite Nat.mod_small.
  - exists (l + k - zs_next z)%nat. split; [lia|]. replace (zs_next z + (l + k - zs_next z))%nat with (l + 1 * k)%nat by lia.
    by rewrite Nat.Div0.mod_add, Nat.mod_small.
Qed.

(** Counting on from the service behind [a]. *)
Lemma turn_shift k a j : ((S (a mod k) + j) mod k = (a + S j) mod k)%nat.
Proof. rewrite Nat.add_succ_l, <-Nat.add_succ_r. by rewrite Nat.Div0.add_mod_idemp_l. Qed.

(** The outcome of [n] turns from [z]. *)
Definition turns s (n : nat) (tenant : string) (z : ZoneServices) (res : option regptr * ZoneServices) : Prop :=
  res.2 = z <| zs_next := zs_next res.2 |> ∧ (zs_next res.2 <= size (zs_services z))%nat ∧
  match res.1 with
  | Some p => ∃ j, (j < n)%nat ∧ turn z j = Some p ∧ served s (zs_topic z) tenant p ∧
      zs_next res.2 = S ((zs_next z + j) mod size (zs_services z)) ∧
      ∀ i q, (i < j)%nat → turn z i = Some q → refused s (zs_topic z) tenant q
  | None => ∀ i q, (i < n)%nat → turn z i = Some q → refused s (zs_topic z) tenant q
  end.

Lemma zone_loop_spec s n tenant z : surroundings_ok s → (∀ p, p ∈ zs_services z → is_Some (sv_heap s !! p)) →
  (zs_next z <= size (zs_services z))%nat → (n = 0%nat ∨ zs_services z ≠ ∅) →
  wp (zone_loop settings n tenant z) (λ res s', svc_moves s s' ∧ surroundings_ok s' ∧ turns s n tenant z res) s.
Proof.
  revert s z. induction n as [|n IH]; intros s z Hs Hheap Hnext Hne.
  { cbn [zone_loop]. wp_step. split_and!; [apply svc_moves_refl|done|]. split_and!; [by destruct z|done|]. cbn. intros; lia. }
  destruct Hne as [|Hne]; [done|]. cbn [zone_loop]. set (k := size (zs_services z)) in *. set (order := ptr_order (zs_services z)).
  assert (length order = k) as Hlen by apply ptr_order_length. assert (k ≠ 0)%nat as Hk.
  { intros He. by apply Hne, leibniz_equiv_iff, size_empty_inv. }
  set (i := if bool_decide (zs_next z = length order) then 0%nat else zs_next z).
  assert (i = (zs_next z + 0) mod k)%nat as Hi.
  { rewrite Nat.add_0_r. unfold i. rewrite Hlen. case_bool_decide as He; [by rewrite He, Nat.Div0.mod_same|]. rewrite Nat.mod_small; lia. }
  assert (i < k)%nat as Hik by (rewrite Hi; by apply Nat.mod_upper_bound).
  destruct (turn_Some z 0 Hne) as [p Hp]. assert (order !! i = Some p) as Hop by (rewrite Hi; exact Hp).
  wp_step. eapply wp_deref; [exact Hop|]. destruct (Hheap p) as [r Hr]; [by eapply turn_elem|]. wp_step.
  eapply wp_mono; [by eapply serves_spec|]. intros b s1 (Hm1 & Hs1 & Hb). set (z1 := z <| zs_next := S i |>). destruct b.
  - wp_step. split_and!; [done|done|]. split_and!; [done|cbn; lia|]. cbn. exists 0%nat. split_and!; [lia|done|done|by fold k; rewrite <-Hi|intros; lia].
  - assert (∀ j, turn z1 j = turn z (S j)) as Hturn.
    { intros j. unfold turn. cbn. f_equal. rewrite Hi, Nat.add_0_r. apply turn_shift. }
    eapply wp_mono; [apply (IH s1 z1 Hs1)|].
    + intros q Hq. destruct Hm1 as [-> _]. by apply Hheap.
    + cbn. fold k. lia.
    + by right.
    + intros res s2 (Hm2 & Hs2 & Hz2 & Hn2 & Hres). split_and!; [by eapply svc_moves_trans|done|]. split_and!; [by rewrite Hz2|done|].
      destruct res as [[q|] z2]; cbn [fst snd] in *.
      * destruct Hres as (j & Hj & Hq & Hsv & Hz & Hbefore). exists (S j). rewrite <-Hturn. split_and!; [lia|done|by eapply served_moves| |].
        -- rewrite Hz. f_equal. cbn. rewrite Hi, Nat.add_0_r. apply turn_shift.
        -- intros [|i'] q' Hi' Hq'; [by simplify_eq|]. eapply refused_moves; [exact Hm1|]. apply (Hbefore i'); [lia|by rewrite Hturn].
      * intros [|i'] q' Hi' Hq'; [by simplify_eq|]. eapply refused_moves; [exact Hm1|]. apply (Hres i'); [lia|by rewrite Hturn].
Qed.

Lemma zone_getNextService_wp s tenant z : surroundings_ok s → (∀ p, p ∈ zs_services z → is_Some (sv_heap s !! p)) →
  (zs_next z <= size (zs_services z))%nat →
  wp (zone_getNextService settings tenant z) (λ res s', svc_moves s s' ∧ surroundings_ok s' ∧ turns s (size (zs_services z)) tenant z res) s.
Proof.
  intros Hs Hheap Hn. apply zone_loop_spec; [done|done|done|]. destruct (decide (zs_services z = ∅)) as [->|]; [by left|by right].
Qed.

(** All of a zone refuse when a round of turns finds none. *)
Lemma turns_refused s tenant z z' p : turns s (size (zs_services z)) tenant z (None, z') → (zs_next z <= size (zs_services z))%nat →
  p ∈ zs_services z → refused s (zs_topic z) tenant p.
Proof. intros (_ & _ & Hres) Hn Hp. destruct (turn_all z p Hp Hn) as (j & Hj & Hturn). by apply (Hres j). Qed.

(** ** Several requests *)

(** The answers to [n] requests in a row. *)
Fixpoint zone_requests (n : nat) (tenant : string) (z : ZoneServices) : ST ServiceRegistry (list (option regptr)) :=
  match n with
  | O => mret []
  | S n' => res ← zone_getNextService settings tenant z; rest ← zone_requests n' tenant res.2; mret (res.1 :: rest)
  end.

(** Everyone in the zone may serve, whenever one looks. *)
Definition all_serve s (tenant : string) (z : ZoneServices) : Prop :=
  ∀ p, p ∈ zs_services z → ∀ n, may_serve s (zs_topic z) tenant (sv_clock s n) p.

Lemma zone_requests_wp n s tenant z : surroundings_ok s → all_serve s tenant z → zs_services z ≠ ∅ →
  (zs_next z <= size (zs_services z))%nat → wp (zone_requests n tenant z) (λ l _, l = turn z <$> seq 0 n) s.
Proof.
  revert s z. induction n as [|n IH]; intros s z Hs Hall Hne Hn; cbn [zone_requests]; [by wp_step|]. wp_step.
  eapply wp_mono; [apply zone_getNextService_wp; [done| |done]|].
  { intros p Hp. destruct (Hall p Hp 0%nat) as (r & _ & Hr & _). by exists r. }
  intros [res z'] s1 (Hm1 & Hs1 & Hz' & Hn' & Hres). cbn [fst snd] in *.
  assert (∀ q i, turn z i = Some q → ¬ refused s (zs_topic z) tenant q) as Hno by (intros q i Hq [k Hk]; apply Hk, Hall; by eapply turn_elem).
  destruct (turn_Some z 0 Hne) as [p Hp]. assert (0 < size (zs_services z))%nat as Hpos.
  { destruct (size (zs_services z)) eqn:He; [|lia]. by apply size_empty_inv, leibniz_equiv_iff in He. }
  assert (res = Some p ∧ zs_next z' = S ((zs_next z + 0) mod size (zs_services z))) as [-> Hnext].
  { destruct res as [q|]; [|destruct (Hno p 0%nat Hp); by apply (Hres 0%nat)]. destruct Hres as (j & Hj & Hq & _ & Hnext & Hbefore).
    destruct j as [|j]; [by simplify_eq|]. destruct (Hno p 0%nat Hp). apply (Hbefore 0%nat); [lia|done]. }
  assert (zs_services z' = zs_services z ∧ zs_topic z' = zs_topic z) as [Hsv Hto] by (rewrite Hz'; by split).
  wp_step. eapply wp_mono; [apply IH; [done| |by rewrite Hsv|by rewrite Hsv]|].
  { intros q Hq k. rewrite Hto. rewrite Hsv in Hq. pose proof Hm1 as (_&_&_&_&_&_&_&_&_&_& m & Hclock). rewrite Hclock.
    apply (may_serve_moves s s1); [done|]. by apply Hall. }
  intros l s2 ->. wp_step. cbn [seq fmap list_fmap]. f_equal; [done|]. rewrite <-fmap_S_seq, <-list_fmap_compose. apply list_fmap_ext.
  intros _ j _. unfold turn. cbn [compose]. rewrite Hsv, Hnext, Nat.add_0_r. by rewrite turn_shift.
Qed.

(** Once around is everyone once. *)
Lemma one_round z : (zs_next z <= size (zs_services z))%nat → turn z <$> seq 0 (size (zs_services z)) ≡ₚ Some <$> ptr_order (zs_services z).
Proof.
  intros Hn. set (k := size (zs_services z)) in *. symmetry.
  apply submseteq_length_Permutation; [|by rewrite !length_fmap, length_seq, ptr_order_length].
  apply NoDup_submseteq.
  - apply NoDup_fmap; [apply _|]. rewrite ptr_order_perm. apply NoDup_elements.
  - intros q (p & -> & Hp)%list_elem_of_fmap. apply ptr_order_elem in Hp. destruct (turn_all z p Hp Hn) as (j & Hj & Ht).
    apply list_elem_of_fmap. exists j. split; [done|]. apply elem_of_seq. fold k in Hj. lia.
Qed.

(** ** Zones in order *)

(** [zones'] are [zones] with other turns. *)
Definition same_zones (zones zones' : list ZoneServices) : Prop :=
  Forall2 (λ z z', z' = z <| zs_next := zs_next z' |> ∧ (zs_next z' <= size (zs_services z))%nat) zones zones'.

Lemma zones_search_spec s tenant zones : surroundings_ok s →
  (∀ z, z ∈ zones → (zs_next z <= size (zs_services z))%nat ∧ ∀ p, p ∈ zs_services z → is_Some (sv_heap s !! p)) →
  wp (zones_search settings tenant zones) (λ res s', svc_moves s s' ∧ surroundings_ok s' ∧ same_zones zones res.2 ∧
    match res.1 with
    | Some p => ∃ before z after, zones = before ++ z :: after ∧ p ∈ zs_services z ∧ served s (zs_topic z) tenant p ∧
        ∀ z' q, z' ∈ before → q ∈ zs_services z' → refused s (zs_topic z') tenant q
    | None => ∀ z q, z ∈ zones → q ∈ zs_services z → refused s (zs_topic z) tenant q
    end) s.
Proof.
  revert s. induction zones as [|z zones IH]; intros s Hs Hz; cbn [zones_search].
  { wp_step. split_and!; [apply svc_moves_refl|done|constructor|]. cbn. by intros z q ?%elem_of_nil. }
  destruct (Hz z ltac:(by left)) as [Hn Hheap]. wp_step. eapply wp_mono; [by apply zone_getNextService_wp|].
  intros [res z'] s1 (Hm1 & Hs1 & Hturns). pose proof Hturns as (Hz' & Hn' & Hres). cbn [fst snd] in *. destruct res as [p|].
  - wp_step. split_and!; [done|done| |].
    + constructor; [by split|]. cbn. clear -Hz. induction zones as [|y ys IHy]; [constructor|]. constructor.
      * split; [by destruct y|]. by destruct (Hz y ltac:(by right; left)).
      * apply IHy. intros x [->|Hx]%elem_of_cons; apply Hz; [by left|by right; right].
    + cbn. destruct Hres as (j & _ & Hp & Hsv & _). exists [], z, zones. split_and!; [done|by eapply turn_elem|done|]. by intros z0 q ?%elem_of_nil.
  - wp_step. eapply wp_mono; [apply IH; [done|]|].
    + intros y Hy. destruct Hm1 as [-> _]. apply Hz. by right.
    + intros [res2 zs2] s2 (Hm2 & Hs2 & Hsame & Hres2). cbn [fst snd] in *. wp_step.
      assert (∀ q, q ∈ zs_services z → refused s (zs_topic z) tenant q) as Hfirst by (intros q Hq; by eapply turns_refused).
      split_and!; [by eapply svc_moves_trans|done|by constructor|]. cbn. destruct res2 as [p|].
      * destruct Hres2 as (before & y & after & -> & Hp & Hsv & Hbefore). exists (z :: before), y, after. split_and!; [done|done|by eapply served_moves|].
        intros x q [->|Hx]%elem_of_cons Hq; [by apply Hfirst|]. eapply refused_moves; [exact Hm1|by apply Hbefore].
      * intros x q [->|Hx]%elem_of_cons Hq; [by apply Hfirst|]. eapply refused_moves; [exact Hm1|by apply Hres2].
Qed.

(** ** The zones are made of the services *)

Lemma zones_loop_spec topic in_zone zones services :
  let '(zs, rest) := zones_loop topic in_zone zones services in
  (∀ p, p ∈ services ↔ p ∈ rest ∨ ∃ z, z ∈ zs ∧ p ∈ zs_services z) ∧
  ∀ z, z ∈ zs → zs_topic z = topic ∧ (zs_next z <= size (zs_services z))%nat.
Proof.
  revert services. induction zones as [|zone zones IH]; intros services; cbn [zones_loop].
  { split; [|by intros z ?%elem_of_nil]. intros p. split; [by left|]. intros [|(z & ?%elem_of_nil & _)]; done. }
  set (found := filter _ services). specialize (IH (services ∖ found)). destruct (zones_loop topic in_zone zones (services ∖ found)) as [zs rest].
  destruct IH as [Hcov Hz]. assert (∀ p, p ∈ services ↔ p ∈ found ∨ p ∈ services ∖ found) as Hsplit.
  { intros p. rewrite elem_of_difference. unfold found. destruct (decide (p ∈ filter (λ p, in_zone zone p = true) services)) as [Hp|Hp].
    - split; [by left|intros _]. by apply elem_of_filter in Hp as [_ ?].
    - split; [intros ?; right; done|]. by intros [|[? _]]. }
  case_bool_decide as He.
  - split; [|exact Hz]. intros p. rewrite Hsplit, Hcov, He. set_solver.
  - split.
    + intros p. rewrite Hsplit, Hcov. setoid_rewrite elem_of_cons. split.
      * intros [Hp|[Hp|(z & ? & ?)]]; [right; eexists; split; [by left|done]|by left|right; exists z; by auto].
      * intros [Hp|(z & [->|?] & Hp)]; [by auto|by left|right; right; by exists z].
    + intros z [->|]%elem_of_cons; [done|by apply Hz].
Qed.

Lemma calculate_zones_ok guid topic heap zonesByNode services :
  zones_ok (mk_TopicServices topic services (Some (calculateServiceZones guid topic heap zonesByNode services))).
Proof.
  unfold zones_ok, calculateServiceZones. cbn [tv_servicesByZone tv_services tv_topic]. set (local := filter _ services).
  set (in_zone := λ (zone : string) (p : regptr), _).
  pose proof (zones_loop_spec topic in_zone (default [] (zonesByNode !! guid)) (services ∖ local)) as Hloop.
  destruct (zones_loop _ _ _ _) as [zs rest]. destruct Hloop as [Hcov Hz].
  assert (∀ p, p ∈ services ↔ p ∈ local ∨ p ∈ services ∖ local) as Hsplit.
  { intros p. rewrite elem_of_difference. destruct (decide (p ∈ local)) as [Hp|Hp]; [|naive_solver].
    split; [by left|intros _]. unfold local in Hp. by apply elem_of_filter in Hp as [_ ?]. }
  assert (∀ (zone : string) (X : gset regptr) z, z ∈ (if bool_decide (X = ∅) then [] else [ZoneServices_with zone topic X]) ↔
    X ≠ ∅ ∧ z = ZoneServices_with zone topic X) as Hone.
  { intros zone X z. case_bool_decide; [rewrite elem_of_nil|rewrite list_elem_of_singleton]; naive_solver. }
  split.
  - intros p. rewrite Hsplit, Hcov. setoid_rewrite elem_of_app. setoid_rewrite elem_of_app. setoid_rewrite Hone. split.
    + intros [Hp|[Hp|(z & ? & ?)]].
      * eexists. split; [left; split; [|reflexivity]; set_solver|done].
      * eexists. split; [right; right; split; [|reflexivity]; set_solver|done].
      * exists z. by auto.
    + intros (z & [[_ ->]|[Hin|[_ ->]]] & Hp); [by left|right; right; by exists z|right; by left].
  - intros z. rewrite !elem_of_app, !Hone. intros [[_ ->]|[?|[_ ->]]]; [done|by apply Hz|done].
Qed.
End service_turns.
