(* ===== verification/ServiceClaims.v ===== *)
(** * What the service registry promises

    The registry as a transition system: whatever operations run, none fails
    and its indices agree. Then what clients may rely on: a request goes to a
    service that may serve it whenever there is one, the services of a zone
    take turns, a service that is withdrawn leaves no trace, and exactly the
    expired services are removed. *)

From S2P Require Import Prelude Topic CoreUtil Authorization Fabric FabricProofs TopicCache TopicCacheProofs Registry RegistryProofs Metrics Services ServiceProofs ServiceTurns.
From stdpp Require Import options.

(** The operations on the registry, and what changes around it. *)
Inductive service_op :=
| SvcRegister (r : ServiceRegistration)
| SvcUnregister (serviceGuid : string) (fireEvent : bool)
| SvcUnregisterClient (serviceGuid clientGuid clientTenantGuid : string) (fireEvent : bool)
| SvcGetNext (topic tenant : string)
| SvcMaintenance (time : Z)
| SvcAnnounce
| SvcConfiguration (zonesByNode : gmap string (list string))
| SvcTopicState (publishers subscribers : gmap string (gset string))
| SvcFabric (r : BrokerRegistry)
| SvcMetrics (m : TenantMetricsService).

Section service_claims.
Context (settings : BrokerSettings) (isInfoEnabled : bool) `{HashOrder} `{PtrOrder}.
Implicit Types s : ServiceRegistry.

(** ** Requests *)

(** Other zones, the same services. *)
Definition rezoned s s' : Prop := ∀ topic,
  match sv_servicesByTopic s !! topic, sv_servicesByTopic s' !! topic with
  | Some t, Some t' => tv_topic t' = tv_topic t ∧ tv_services t' = tv_services t ∧ zones_ok t'
  | None, None => True
  | _, _ => False
  end.
Lemma services_ok_rezoned s s' : rezoned s s' → sv_heap s' = sv_heap s → sv_servicesById s' = sv_servicesById s →
  sv_servicesByType s' = sv_servicesByType s → sv_localSvcCounter s' = sv_localSvcCounter s → services_ok s → services_ok s'.
Proof.
  intros Hz Hh Hi Hty Hc [H1 H2 H3 H4 H5 H6].
  assert (∀ g p r, registration s' g p r ↔ registration s g p r) as Hreg by (intros; unfold registration; by rewrite Hh, Hi).
  assert (∀ t p, serves_topic s' t p ↔ serves_topic s t p) as Htop.
  { intros t p. unfold serves_topic. specialize (Hz t).
    destruct (sv_servicesByTopic s !! t) as [u|], (sv_servicesByTopic s' !! t) as [u'|]; try done; try (by split; intros (? & ? & _)).
    destruct Hz as (_ & Hsv & _). split; intros (v & [= <-] & Hp); [exists u|exists u']; (split; [done|]); [by rewrite <-Hsv|by rewrite Hsv]. }
  split; rewrite ?Hh, ?Hi, ?Hty, ?Hc; try done.
  - intros ty p. rewrite H2. by setoid_rewrite Hreg.
  - intros t p. rewrite Htop, H4. by setoid_rewrite Hreg.
  - intros topic t' Ht'. specialize (Hz topic). rewrite Ht' in Hz. destruct (sv_servicesByTopic s !! topic) as [t|] eqn:Ht; [|done].
    destruct Hz as (-> & -> & Hok). by destruct (H5 topic t Ht) as (? & ? & _).
Qed.

Lemma topic_zones_ok s topic t : services_ok s → sv_servicesByTopic s !! topic = Some t →
  zones_ok (t <| tv_servicesByZone := Some (topic_zones settings t s) |>).
Proof.
  intros Hok Ht. apply Hok in Ht as (_ & _ & Hz). unfold topic_zones. unfold zones_ok in Hz. destruct t as [to sv [zs|]]; [done|].
  apply calculate_zones_ok.
Qed.
Lemma same_zones_ok t zones zones' : same_zones zones zones' → zones_ok (t <| tv_servicesByZone := Some zones |>) →
  zones_ok (t <| tv_servicesByZone := Some zones' |>).
Proof.
  intros Hsame [Hcov Hz]. cbn in *. split; cbn.
  - intros p. rewrite Hcov. clear -Hsame. induction Hsame as [|z z' zs zs' [Hz Hn] Hsame IH]; [done|]. setoid_rewrite elem_of_cons.
    assert (zs_services z' = zs_services z) as Heq by (by rewrite Hz). destruct IH as [IH1 IH2]. split.
    + intros (y & [->|Hy] & Hp); [exists z'; rewrite Heq; by auto|]. destruct IH1 as (x & ? & ?); [by exists y|]. exists x. by auto.
    + intros (y & [->|Hy] & Hp); [exists z; rewrite <-Heq; by auto|]. destruct IH2 as (x & ? & ?); [by exists y|]. exists x. by auto.
  - clear Hcov. induction Hsame as [|z z' zs zs' [Hz' Hn] Hsame IH]; [by intros z ?%elem_of_nil|].
    intros y [->|Hy]%elem_of_cons; [|apply IH; [|done]; intros x Hx; apply Hz; by right].
    destruct (Hz z ltac:(by left)) as [<- _]. by rewrite Hz'.
Qed.

(** Time and cached routes apart, a request changes only the turns. *)
Lemma getNextService_wp s topic tenant : services_ok s → surroundings_ok settings s →
  wp (getNextService settings topic tenant) (λ res s', services_ok s' ∧ surroundings_ok settings s' ∧
    (sv_heap s' = sv_heap s ∧ sv_servicesById s' = sv_servicesById s ∧ sv_sent s' = sv_sent s ∧ sv_metrics s' = sv_metrics s ∧ svc_looks s s') ∧
    match res with
    | Some p => (∃ g r, registration s g p r ∧ topic ∈ sr_requestChannels r) ∧ served settings s topic tenant p
    | None => ∀ g p r, registration s g p r → topic ∈ sr_requestChannels r → refused settings s topic tenant p
    end) s.
Proof.
  intros Hok Hs. unfold getNextService. wp_step. wp_step. destruct (sv_servicesByTopic s !! topic) as [t|] eqn:Ht.
  2: { wp_step. split_and!; try done; [apply svc_looks_refl|]. intros g p r Hr Hch. destruct (proj2 (so_topic _ Hok topic p)) as (t & Ht' & _); [by exists g, r|congruence]. }
  pose proof (topic_zones_ok s topic t Hok Ht) as Hz. set (zones := topic_zones settings t s) in *. destruct (so_topics _ Hok topic t Ht) as (Hto & _ & _).
  assert (∀ p, p ∈ tv_services t ↔ ∃ g r, registration s g p r ∧ topic ∈ sr_requestChannels r) as Hsvc.
  { intros p. rewrite <-(so_topic _ Hok). split; [by exists t|]. intros (t' & Ht' & ?). by simplify_eq. }
  destruct Hz as [Hcov Hzs]. cbn in Hcov, Hzs. wp_step. eapply wp_mono; [apply zones_search_spec; [done|]|].
  { intros z Hin. destruct (Hzs z Hin) as [_ Hn]. split; [done|]. intros p Hp.
    destruct (proj1 (Hsvc p)) as (g & r & [_ Hr] & _); [|by exists r]. apply Hcov. by exists z. }
  intros [res zones'] s1 (Hm1 & Hs1 & Hsame & Hres). cbn [fst snd] in *. wp_step. wp_step.
  pose proof Hm1 as (Hh & Hi & Hty & Htop & Hc & _ & _ & Hsent & Hmet & _ & _). split_and!; try done.
  - eapply (services_ok_rezoned s); [|done..]. intros topic'. cbn. rewrite Htop. destruct (decide (topic' = topic)) as [->|Hne].
    + rewrite lookup_insert, decide_True, Ht by done. split_and!; [done|done|]. by eapply same_zones_ok; [|split].
    + rewrite lookup_insert_ne by done. destruct (sv_servicesByTopic s !! topic') as [t'|] eqn:Ht'; [|done]. split_and!; [done|done|by eapply so_topics].
  - exact (svc_moves_looks _ _ Hm1).
  - destruct res as [p|].
    + destruct Hres as (before & z & after & Hzones & Hp & Hsv & _). assert (z ∈ zones) as Hin by (rewrite Hzones; set_solver).
      destruct (Hzs z Hin) as [Hzt _]. rewrite Hzt, Hto in Hsv. split; [|done]. apply Hsvc, Hcov. by exists z.
    + intros g p r Hr Hch. assert (p ∈ tv_services t) as Hp by (apply Hsvc; by exists g, r). apply Hcov in Hp as (z & Hin & Hp).
      destruct (Hzs z Hin) as [Hzt _]. specialize (Hres z p Hin Hp). by rewrite Hzt, Hto in Hres.
Qed.

Lemma clearServiceZones_ok s : services_ok s → wp clearServiceZones (λ _ s', services_ok s' ∧ svc_kept s s' ∧ sv_servicesById s' = sv_servicesById s) s.
Proof.
  intros Hok. unfold clearServiceZones. wp_step. split_and!; try done. eapply (services_ok_rezoned s); [|done..].
  intros topic. cbn. rewrite lookup_fmap. by destruct (sv_servicesByTopic s !! topic).
Qed.

(** ** Registering *)

Definition register_events (r : ServiceRegistration) : list service_event :=
  if sr_isLocal r then [RegisterEvent r (restricted_to settings r)] else [].

Lemma sendServiceRegistrationEvent_wp s r : wp (sendServiceRegistrationEvent settings r) (λ _ s', same_indices s s' ∧ svc_env s s' ∧
  sv_metrics s' = sv_metrics s ∧ sv_sent s' = sv_sent s ++ register_events r) s.
Proof.
  unfold sendServiceRegistrationEvent, register_events. destruct (sr_isLocal r); wp_step; [by split_and!|]. split_and!; try done. by rewrite app_nil_r.
Qed.

Lemma same_indices_trans s1 s2 s3 : same_indices s1 s2 → same_indices s2 s3 → same_indices s1 s3.
Proof. intros (?&?&?&?&?) (?&?&?&?&?). unfold same_indices. by split_and!; etrans. Qed.
Lemma updated_same s s1 s2 q p e r : updated s s1 q p e r → same_indices s1 s2 → updated s s2 q p e r.
Proof.
  intros Hup Hsame. pose proof Hsame as (Hh & Hi & _). destruct Hup as [Hs|[(? & ? & ?)|(? & ? & ?)]].
  - left. by eapply same_indices_trans.
  - right. left. by rewrite Hh, Hi.
  - right. right. by rewrite Hh, Hi.
Qed.

(** What follows once the registration is in the indices. *)
Lemma registered_wp s p r : sv_heap s !! p = Some r →
  wp (r ← reg_get p;
      (if may_map_events settings r then modify (λ s, s <| sv_eventToRequestPrefix ::= addEventToRequestPrefix r |>) else mret tt);;
      sendServiceRegistrationEvent settings r;; adjust_tenant settings isInfoEnabled r 1;; mret true)
    (λ ok s', ok = true ∧ same_indices s s' ∧ svc_kept s s' ∧ sv_metrics s' = tenant_adjusted settings isInfoEnabled r 1 (sv_metrics s) ∧
      sv_sent s' = sv_sent s ++ register_events r) s.
Proof.
  intros Hp. wp_step. eapply wp_reg_get; [exact Hp|]. wp_step.
  eapply (wp_mono _ (λ _ s1, same_indices s s1 ∧ svc_kept s s1 ∧ sv_metrics s1 = sv_metrics s ∧ sv_sent s1 = sv_sent s)).
  { destruct (may_map_events _ _); by wp_step. }
  intros _ s1 (Hs1 & Hk1 & Hm1 & He1). wp_step. eapply wp_mono; [apply sendServiceRegistrationEvent_wp|].
  intros _ s2 (Hs2 & Hk2%svc_env_kept & Hm2 & He2). wp_step. eapply wp_mono; [apply adjust_tenant_spec|].
  intros _ s3 (Hs3 & Hk3%svc_env_kept & He3 & Hm3). wp_step. split_and!; [done| | |by rewrite Hm3, Hm2, Hm1|by rewrite He3, He2, He1].
  - eapply same_indices_trans; [done|]. by eapply same_indices_trans.
  - eapply svc_kept_trans; [done|]. by eapply svc_kept_trans.
Qed.

(** A registration that is refused changes nothing. *)
Lemma registerService_wp s p r : services_ok s → sv_heap s !! p = Some r → (∀ g, sv_servicesById s !! g ≠ Some p) →
  wp (registerService settings isInfoEnabled p) (λ ok s', services_ok s' ∧ svc_kept s s' ∧
    if String.eqb (sr_serviceGuid r) "" then ok = false ∧ s' = s
    else match sv_servicesById s !! sr_serviceGuid r with
    | None => ok = true ∧ sv_servicesById s' = <[sr_serviceGuid r := p]> (sv_servicesById s) ∧ sv_heap s' = sv_heap s ∧
              sv_metrics s' = tenant_adjusted settings isInfoEnabled r 1 (sv_metrics s) ∧ sv_sent s' = sv_sent s ++ register_events r
    | Some q => ∃ e, sv_heap s !! q = Some e ∧
        if String.eqb (sr_clientGuid r) (sr_clientGuid e) && String.eqb (sr_clientTenantGuid r) (sr_clientTenantGuid e)
        then ok = true ∧ updated s s' q p e r ∧ sv_sent s' = sv_sent s ++ register_events r
        else ok = false ∧ s' = s
    end) s.
Proof.
  intros Hok Hp Hfree. unfold registerService. wp_step. eapply wp_reg_get; [done|]. destruct (String.eqb_spec (sr_serviceGuid r) "") as [|Hne].
  { by wp_step. }
  unfold findService. wp_step. wp_step. wp_step. destruct (sv_servicesById s !! sr_serviceGuid r) as [q|] eqn:Hq.
  - destruct (so_guid _ Hok _ q Hq) as (e & He & Heg). wp_step. eapply wp_reg_get; [done|].
    destruct (_ && _) eqn:Hcl.
    2: { wp_step. cbn [negb]. wp_step. split_and!; [done|done|]. exists e. by rewrite Hcl. }
    wp_step. eapply wp_mono; [by apply updateService_spec|]. intros _ s1 (Hok1 & Hk1 & Hup & Hs1). wp_step. cbn [negb].
    assert (sv_heap s1 !! p = Some r) as Hp1.
    { destruct Hup as [(-> & _)|[(_ & -> & _)|(_ & -> & _)]]; [done| |done]. rewrite lookup_alter_ne; [done|]. intros <-. by apply (Hfree (sr_serviceGuid r)). }
    eapply wp_mono; [by apply registered_wp|]. intros ok s2 (-> & Hsame & Hk2 & _ & He2). split_and!.
    + by eapply services_ok_same.
    + by eapply svc_kept_trans.
    + exists e. rewrite Hcl. split_and!; [done|done|by eapply updated_same|by rewrite He2, Hs1].
  - wp_step. eapply wp_mono; [by apply addService_spec|]. intros _ s1 (Hok1 & Hfr1 & Hi1 & Hs1). wp_step. cbn [negb].
    pose proof Hfr1 as (Hh1 & _ & _ & _ & Hm1 & _). eapply wp_mono; [apply registered_wp; by rewrite Hh1|].
    intros ok s2 (-> & Hsame & Hk2 & Hm2 & He2). pose proof Hsame as (Hh2 & Hi2 & _). split_and!.
    + by eapply services_ok_same.
    + eapply svc_kept_trans; [|exact Hk2]. by apply svc_env_kept, svc_frame_env.
    + done.
    + by rewrite Hi2.
    + by rewrite Hh2.
    + by rewrite Hm2, Hm1.
    + by rewrite He2, Hs1.
Qed.

(** The clients' [new ServiceRegistration] and [registerService]. *)
Definition registerNewService (r : ServiceRegistration) : ST ServiceRegistry bool :=
  p ← reg_new r; registerService settings isInfoEnabled p.

(** A new address is in no index, and nothing an index holds is at it. *)
Lemma reg_new_ok s r (Q : regptr → ServiceRegistry → Prop) : services_ok s →
  (∀ p s', services_ok s' → sv_heap s' !! p = Some r → (∀ g, sv_servicesById s' !! g ≠ Some p) →
    sv_heap s !! p = None → s' = s <| sv_heap ::= <[p := r]> |> → Q p s') → wp (reg_new r) Q s.
Proof.
  intros Hok HQ. unfold reg_new, wp. set (p := fresh (dom (sv_heap s))).
  assert (sv_heap s !! p = None) as Hp by apply not_elem_of_dom, is_fresh. assert (∀ g, sv_servicesById s !! g ≠ Some p) as Hfree.
  { intros g Hg. destruct (so_guid _ Hok g p Hg) as (r' & Hr' & _). congruence. }
  apply HQ; [|cbn; by rewrite lookup_insert, decide_True|done|done|done].
  set (s' := upd _ _ _). assert (∀ g q, sv_servicesById s !! g = Some q → sv_heap s' !! q = sv_heap s !! q) as Hsame.
  { intros g q Hg. cbn. rewrite lookup_insert_ne; [done|]. intros <-. by apply (Hfree g). }
  assert (∀ g q r', registration s' g q r' ↔ registration s g q r') as Hreg.
  { intros g q r'. unfold registration. split; intros [Hg Hq]; (split; [done|]); cbn in Hg; [by rewrite <-(Hsame g q)|by rewrite (Hsame g q)]. }
  destruct Hok as [H1 H2 H3 H4 H5 H6]. split; try done.
  - intros g q Hg. cbn in Hg. rewrite (Hsame g q Hg). by apply H1.
  - intros ty q. setoid_rewrite Hreg. apply H2.
  - intros t q. setoid_rewrite Hreg. apply H4.
  - change (sv_localSvcCounter s') with (sv_localSvcCounter s). rewrite H6. unfold local_count. f_equal. f_equal. f_equal.
    apply map_filter_ext. intros g q Hg. cbn [snd]. by rewrite <-(Hsame g q Hg).
Qed.

(** ** Maintenance *)

(** At one of the [k] looks at the clock, each service stayed or went as it had
    expired or not. *)
Definition expired_at s s' (k : nat) (g : string) : Prop := ∀ p r, registration s g p r →
  ∃ i, (i < k)%nat ∧ sv_servicesById s' !! g = if reg_isExpired settings (sv_clock s i) r then None else Some p.

Lemma ttl_loop_spec l s : services_ok s → NoDup l →
  wp (ttl_loop settings isInfoEnabled l) (λ _ s', services_ok s' ∧ svc_kept s s' ∧ sv_heap s' = sv_heap s ∧
    (∀ g, g ∉ l → sv_servicesById s' !! g = sv_servicesById s !! g) ∧
    ∃ k, (∀ n, sv_clock s' n = sv_clock s (k + n)%nat) ∧ ∀ g, g ∈ l → expired_at s s' k g) s.
Proof.
  intros Hok Hnd. revert s Hok. induction Hnd as [|g l Hg Hnd IH]; intros s Hok; cbn [ttl_loop].
  { wp_step. split_and!; try done. exists 0%nat. split; [done|]. by intros g ?%elem_of_nil. }
  unfold findService. wp_step. wp_step. wp_step.
  eapply (wp_mono _ (λ _ s1, services_ok s1 ∧ svc_kept s s1 ∧ sv_heap s1 = sv_heap s ∧
    (∀ g', g' ≠ g → sv_servicesById s1 !! g' = sv_servicesById s !! g') ∧
    ∃ k, (∀ n, sv_clock s1 n = sv_clock s (k + n)%nat) ∧ expired_at s s1 k g)).
  { destruct (sv_servicesById s !! g) as [p|] eqn:Hp.
    2: { wp_step. split_and!; try done. exists 0%nat. split; [done|]. intros p r [Hp' _]. congruence. }
    destruct (so_guid _ Hok g p Hp) as (r & Hr & _). wp_step. unfold svc_time, wp at 1. set (s0 := upd _ _ _).
    assert (services_ok s0) as Hok0 by (by eapply services_ok_same; [|exact Hok]). wp_step. eapply wp_reg_get; [exact Hr|].
    destruct (reg_isExpired settings (sv_clock s 0%nat) r) eqn:Hexp.
    - eapply wp_mono; [by apply unregisterService_spec|]. intros _ s1 (Hok1 & Henv & Hi1 & _). pose proof Henv as (Hh1 & _ & _ & _ & Hc1).
      split_and!; [done|exact (svc_env_kept _ _ Henv)|done| |].
      + intros g' Hne. by rewrite Hi1, lookup_delete_ne.
      + exists 1%nat. split; [by rewrite Hc1|]. intros p' r' [Hp' Hr']. simplify_eq. exists 0%nat. rewrite Hexp, Hi1, lookup_delete, decide_True by done. split; [lia|done].
    - wp_step. split_and!; try done. exists 1%nat. split; [done|]. intros p' r' [Hp' Hr']. simplify_eq. exists 0%nat. rewrite Hexp. split; [lia|done]. }
  intros _ s1 (Hok1 & Hk1 & Hh1 & Hi1 & k1 & Hc1 & Hex1). eapply wp_mono; [by apply IH|].
  intros _ s2 (Hok2 & Hk2 & Hh2 & Hi2 & k2 & Hc2 & Hex2). split_and!; [done|by eapply svc_kept_trans|by rewrite Hh2| |].
  - intros g' [Hne Hn]%not_elem_of_cons. by rewrite Hi2, Hi1.
  - exists (k1 + k2)%nat. split; [intros n; rewrite Hc2, Hc1; f_equal; lia|]. intros g' [->|Hin]%elem_of_cons p r Hr.
    + destruct (Hex1 p r Hr) as (i & Hi & He). exists i. split; [lia|]. by rewrite Hi2.
    + assert (g' ≠ g) as Hne by (intros ->; done). destruct (Hex2 g' Hin p r) as (i & Hi & He).
      { destruct Hr. split; [by rewrite Hi1|by rewrite Hh1]. }
      exists (k1 + i)%nat. split; [lia|]. by rewrite He, Hc1.
Qed.

Lemma checkServiceTtls_wp s : services_ok s →
  wp (checkServiceTtls settings isInfoEnabled) (λ _ s', services_ok s' ∧ svc_kept s s' ∧ sv_heap s' = sv_heap s ∧
    ∃ k, (∀ n, sv_clock s' n = sv_clock s (k + n)%nat) ∧ ∀ g, expired_at s s' k g ∧ (sv_servicesById s !! g = None → sv_servicesById s' !! g = None)) s.
Proof.
  intros Hok. unfold checkServiceTtls. wp_step. wp_step. eapply wp_mono; [apply ttl_loop_spec; [done|apply hash_order_NoDup]|].
  intros _ s' (Hok' & Hk & Hh & Hout & k & Hc & Hex). split_and!; try done. exists k. split; [done|]. intros g. split.
  - intros p r Hr. apply (Hex g); [|done]. destruct Hr as [Hg _]. apply hash_order_elem, elem_of_dom. by exists p.
  - intros Hg. rewrite Hout; [done|]. rewrite hash_order_elem, not_elem_of_dom. done.
Qed.

Lemma svc_onCoreMaintenance_wp time s : services_ok s → wp (svc_onCoreMaintenance settings isInfoEnabled time) (λ _ s', services_ok s' ∧ svc_kept s s') s.
Proof.
  intros Hok. unfold svc_onCoreMaintenance. wp_step. wp_step. wp_step. eapply (wp_mono _ (λ _ s1, services_ok s1 ∧ svc_kept s s1)).
  { destruct (_ <=? _); [|by wp_step]. wp_step. wp_step.
    eapply wp_mono; [apply checkServiceTtls_wp; by eapply services_ok_same; [|exact Hok]|]. by intros _ s1 (? & ? & _). }
  intros _ s1 (Hok1 & Hk1). wp_step. wp_step. destruct (sv_brokerConfigChanged s1); [|by wp_step]. wp_step. wp_step.
  eapply wp_mono; [apply clearServiceZones_ok; by eapply services_ok_same; [|exact Hok1]|]. intros _ s2 (Hok2 & Hk2 & _). split; [done|].
  by eapply svc_kept_trans.
Qed.

Lemma announce_loop_wp l s : services_ok s → wp (announce_loop settings l) (λ _ s', services_ok s' ∧ svc_kept s s') s.
Proof.
  revert s. induction l as [|g l IH]; intros s Hok; cbn [announce_loop]; [by wp_step|]. unfold findService. wp_step. wp_step. wp_step.
  eapply (wp_mono _ (λ _ s1, services_ok s1 ∧ svc_kept s s1)).
  { destruct (sv_servicesById s !! g) as [p|] eqn:Hp; [|by wp_step]. destruct (so_guid _ Hok g p Hp) as (r & Hr & _).
    wp_step. unfold svc_time, wp at 1. set (s0 := upd _ _ _). assert (services_ok s0) as Hok0 by (by eapply services_ok_same; [|exact Hok]).
    wp_step. eapply wp_reg_get; [exact Hr|]. destruct (reg_isExpired _ _ _); [by wp_step|]. wp_step. unfold wp at 1.
    eapply wp_mono; [apply sendServiceRegistrationEvent_wp|]. intros _ s1 (Hs1 & Hk1%svc_env_kept & _). split; [|done].
    eapply services_ok_same; [exact Hs1|]. by eapply services_ok_same; [|exact Hok0]. }
  intros _ s1 (Hok1 & Hk1). eapply wp_mono; [by apply IH|]. intros _ s2 (Hok2 & Hk2). split; [done|]. by eapply svc_kept_trans.
Qed.

(** ** The registry as a transition system *)

Definition run_service_op (op : service_op) : ST ServiceRegistry () :=
  match op with
  | SvcRegister r => registerNewService r;; mret tt
  | SvcUnregister g fire => unregisterService settings isInfoEnabled g fire
  | SvcUnregisterClient g c t fire => unregisterService_client settings g c t fire
  | SvcGetNext topic tenant => getNextService settings topic tenant;; mret tt
  | SvcMaintenance time => svc_onCoreMaintenance settings isInfoEnabled time
  | SvcAnnounce => sendServiceRegistrationEvents settings
  | SvcConfiguration zones => onConfigurationUpdated zones
  | SvcTopicState pubs subs => modify (λ s, s <| sv_authorization ::= setTopicState (TopicAuthorizationState_new pubs subs) |>)
  | SvcFabric r => modify (λ s, s <| sv_brokerRegistry := r |>)
  | SvcMetrics m => modify (λ s, s <| sv_metrics := m |>)
  end.

(** The broker registry keeps its own invariant. *)
Definition service_op_fits (op : service_op) : Prop :=
  match op with SvcFabric r => registry_ok settings r | _ => True end.

Lemma surroundings_kept s s' : svc_kept s s' → surroundings_ok settings s → surroundings_ok settings s'.
Proof. intros (_ & Hb & Ha) [Hr Hs]. unfold surroundings_ok. by rewrite Hb, Ha. Qed.

Definition services_safe s : Prop := services_ok s ∧ surroundings_ok settings s.
Lemma services_safe_kept s s' : services_safe s → services_ok s' ∧ svc_kept s s' → services_safe s'.
Proof. intros [_ Hs] [Hok Hk]. split; [done|by eapply surroundings_kept]. Qed.

Lemma run_service_op_ok op s : services_safe s → service_op_fits op → wp (run_service_op op) (λ _ s', services_safe s') s.
Proof.
  intros Hsafe Hfit. pose proof Hsafe as [Hok Hs]. destruct op as [r|g fire|g c t fire|topic tenant|time| |zones|pubs subs|rg|m]; cbn [run_service_op service_op_fits] in *.
  - wp_step. unfold registerNewService. wp_step. apply reg_new_ok; [done|]. intros p s1 Hok1 Hp1 Hfree _ Hs1.
    eapply wp_mono; [by apply registerService_wp|]. intros ok s2 (Hok2 & Hk2 & _). wp_step. apply (services_safe_kept s); [done|].
    split; [done|]. subst s1. exact Hk2.
  - eapply wp_mono; [by apply unregisterService_spec|]. intros _ s1 (? & ?%svc_env_kept & _). by apply (services_safe_kept s).
  - eapply wp_mono; [by apply unregisterService_client_spec|]. intros _ s1 (? & ?%svc_frame_env%svc_env_kept & _). by apply (services_safe_kept s).
  - wp_step. eapply wp_mono; [by apply getNextService_wp|]. intros res s1 (? & ? & _). by wp_step.
  - eapply wp_mono; [by apply svc_onCoreMaintenance_wp|]. intros u s1 Hu. by apply (services_safe_kept s).
  - unfold sendServiceRegistrationEvents. wp_step. wp_step. eapply wp_mono; [by apply announce_loop_wp|]. intros u s1 Hu. by apply (services_safe_kept s).
  - unfold onConfigurationUpdated, setServiceZonesByNode. wp_step. wp_step. wp_step. split; [by eapply services_ok_same; [|exact Hok]|exact Hs].
  - wp_step. split; [by eapply services_ok_same; [|exact Hok]|]. destruct Hs as [Hr (ps & ss & Ha)]. split; [exact Hr|]. cbn. rewrite Ha.
    unfold setTopicState. destruct (_ && _); [by exists ps, ss|by exists pubs, subs].
  - wp_step. split; [by eapply services_ok_same; [|exact Hok]|]. destruct Hs as [_ Ha]. by split.
  - wp_step. split; [by eapply services_ok_same; [|exact Hok]|exact Hs].
Qed.

(** From an empty registry, once there is a topic authorization state. *)
Inductive services_reachable : ServiceRegistry → Prop :=
| services_start s : sv_servicesById s = ∅ → sv_servicesByType s = [] → sv_servicesByTopic s = ∅ → sv_localSvcCounter s = 0 →
    surroundings_ok settings s → services_reachable s
| services_next op s s' : services_reachable s → service_op_fits op → run_service_op op s = Some (tt, s') → services_reachable s'.

Lemma services_reachable_safe s : services_reachable s → services_safe s.
Proof.
  induction 1 as [s Hi Hty Hto Hc Hs|op s s' _ IH Hfit Hrun].
  - split; [|done]. assert (∀ g p r, ¬ registration s g p r) as Hreg by (intros g p r [Hg _]; by rewrite Hi in Hg).
    assert (∀ t p, ¬ serves_topic s t p) as Htop by (intros t p (u & Hu & _); by rewrite Hto in Hu). split.
    + intros g p. by rewrite Hi.
    + intros ty p. rewrite Hty. split; [by intros ?%elem_of_nil|]. intros (g & r & Hr & _). by destruct (Hreg g p r).
    + rewrite Hty. constructor.
    + intros t p. split; [intros Ht; by destruct (Htop t p)|]. intros (g & r & Hr & _). by destruct (Hreg g p r).
    + intros t u. by rewrite Hto.
    + rewrite Hc, Hi. unfold local_count. by rewrite map_filter_empty, map_size_empty.
  - pose proof (run_service_op_ok op s IH Hfit) as Hwp. unfold wp in Hwp. by rewrite Hrun in Hwp.
Qed.

(** ** The claims *)

(** C20: the service registry never fails, and its indices agree: in every state
    that operations lead to from an empty registry, the indices by type and by
    topic hold exactly the services of the index by identifier, each once, the
    cached zones of a topic split its services, the counter counts the local
    services, and every operation returns. *)
Theorem services_invariant s : services_reachable s →
  services_ok s ∧ ∀ op, service_op_fits op → ∃ s', run_service_op op s = Some (tt, s') ∧ services_reachable s'.
Proof.
  intros Hr. pose proof (services_reachable_safe s Hr) as Hsafe. split; [by destruct Hsafe|]. intros op Hfit.
  pose proof (run_service_op_ok op s Hsafe Hfit) as ([] & s' & Hrun & _)%wp_Some. exists s'. split; [done|]. by eapply services_next.
Qed.

(** C21: [getNextService] finds a service whenever one may serve: what it returns
    is registered for the topic and was local or reachable, unexpired, hosted by a
    client that may receive on the topic and available to the tenant when it was
    looked at; when it returns none, each service of the topic was refused for
    one of these reasons. No service is changed. *)
Theorem getNextService_correct s topic tenant : services_reachable s → ∃ res s',
  getNextService settings topic tenant s = Some (res, s') ∧ services_reachable s' ∧
  sv_heap s' = sv_heap s ∧ sv_servicesById s' = sv_servicesById s ∧
  match res with
  | Some p => (∃ g r, registration s g p r ∧ topic ∈ sr_requestChannels r) ∧ served settings s topic tenant p
  | None => ∀ g p r, registration s g p r → topic ∈ sr_requestChannels r → refused settings s topic tenant p
  end.
Proof.
  intros Hr. pose proof (services_reachable_safe s Hr) as [Hok Hs].
  pose proof (getNextService_wp s topic tenant Hok Hs) as (res & s' & Hrun & _ & _ & (Hh & Hi & _) & Hres)%wp_Some. exists res, s'.
  split_and!; [done| |done|done|done]. apply (services_next (SvcGetNext topic tenant) s); [done|done|].
  cbn [run_service_op]. unfold mbind, st_bind. by rewrite Hrun.
Qed.

(** C22: the services of a zone take turns: as long as they all may serve, as many
    requests as the zone has services reach each of them exactly once, wherever
    the round starts. *)
Theorem zone_round_robin s tenant z : services_reachable s → (zs_next z <= size (zs_services z))%nat → all_serve settings s tenant z →
  ∃ l s', zone_requests settings (size (zs_services z)) tenant z s = Some (l, s') ∧ l ≡ₚ Some <$> elements (zs_services z).
Proof.
  intros Hr Hn Hall. destruct (services_reachable_safe s Hr) as [_ Hs].
  assert (Some <$> ptr_order (zs_services z) ≡ₚ Some <$> elements (zs_services z)) as Hperm by (by rewrite ptr_order_perm).
  destruct (decide (zs_services z = ∅)) as [He|Hne].
  - exists [], s. rewrite He. split; [by rewrite size_empty|]. by rewrite elements_empty.
  - pose proof (zone_requests_wp settings (size (zs_services z)) s tenant z Hs Hall Hne Hn) as (l & s' & Hrun & ->)%wp_Some.
    exists (turn z <$> seq 0 (size (zs_services z))), s'. split; [done|]. rewrite <-Hperm. by apply one_round.
Qed.

(** C34: a service that is registered and withdrawn by its client leaves no trace
    in the indices: they hold what they held before, the counter is restored and
    the other brokers are told of both. The count of the tenant's services is not:
    the withdrawal of a client does not lower it, although the registration raised
    it. *)
Theorem register_unregister s r fire : services_reachable s → sr_serviceGuid r ≠ "" → sv_servicesById s !! sr_serviceGuid r = None →
  ∃ s1 s2, registerNewService r s = Some (true, s1) ∧
    is_Some (sv_servicesById s1 !! sr_serviceGuid r) ∧
    unregisterService_client settings (sr_serviceGuid r) (sr_clientGuid r) (sr_clientTenantGuid r) fire s1 = Some (tt, s2) ∧
    sv_servicesById s2 = sv_servicesById s ∧ sv_servicesByType s2 ≡ₚ sv_servicesByType s ∧
    (∀ topic p, serves_topic s2 topic p ↔ serves_topic s topic p) ∧ sv_localSvcCounter s2 = sv_localSvcCounter s ∧
    sv_sent s2 = sv_sent s ++ register_events r ++ unregister_events settings fire r ∧
    sv_metrics s2 = tenant_adjusted settings isInfoEnabled r 1 (sv_metrics s).
Proof.
  intros Hr Hne Hnew. pose proof (services_reachable_safe s Hr) as [Hok _]. set (g := sr_serviceGuid r) in *.
  assert (wp (registerNewService r) (λ ok s1, ok = true ∧ services_ok s1 ∧ ∃ p, sv_heap s !! p = None ∧ sv_heap s1 = <[p := r]> (sv_heap s) ∧
    sv_servicesById s1 = <[g := p]> (sv_servicesById s) ∧ sv_metrics s1 = tenant_adjusted settings isInfoEnabled r 1 (sv_metrics s) ∧
    sv_sent s1 = sv_sent s ++ register_events r) s) as (ok & s1 & Hrun1 & -> & Hok1 & p & Hp & Hh1 & Hi1 & Hm1 & He1)%wp_Some.
  { unfold registerNewService. wp_step. apply reg_new_ok; [done|]. intros p s0 Hok0 Hp0 Hfree Hnone ->.
    eapply wp_mono; [by apply registerService_wp|]. intros ok s1 (Hok1 & _ & Hres). fold g in Hres. rewrite (proj2 (String.eqb_neq _ _) Hne) in Hres.
    cbn in Hres. rewrite Hnew in Hres. destruct Hres as (-> & Hi & Hh & Hm & He). split_and!; [done|done|]. by exists p. }
  pose proof (unregisterService_client_spec settings s1 g (sr_clientGuid r) (sr_clientTenantGuid r) fire Hok1) as ([] & s2 & Hrun2 & Hok2 & Hfr & Hres)%wp_Some.
  rewrite Hi1, lookup_insert, decide_True in Hres by done. cbn in Hres. rewrite Hh1, lookup_insert, decide_True in Hres by done.
  rewrite !String.eqb_refl in Hres. destruct Hres as [Hi2 He2]. destruct Hfr as (Hh2 & _ & _ & _ & Hm2 & _).
  rewrite delete_insert_id in Hi2 by done. exists s1, s2. assert (∀ g' q, sv_servicesById s !! g' = Some q → sv_heap s2 !! q = sv_heap s !! q) as Hsame.
  { intros g' q Hq. rewrite Hh2, Hh1, lookup_insert_ne; [done|]. intros <-. destruct (so_guid _ Hok g' p Hq) as (? & ? & _). congruence. }
  assert (∀ g' q r', registration s2 g' q r' ↔ registration s g' q r') as Hreg.
  { intros g' q r'. unfold registration. rewrite Hi2. split; intros [Hg Hq]; (split; [done|]); [by rewrite <-(Hsame g' q)|by rewrite (Hsame g' q)]. }
  split_and!; [done|by rewrite Hi1, lookup_insert, decide_True|done|done| | | | |].
  - apply NoDup_Permutation; [apply Hok2|apply Hok|]. intros [ty q]. rewrite (so_type _ Hok2), (so_type _ Hok). by setoid_rewrite Hreg.
  - intros topic q. rewrite (so_topic _ Hok2), (so_topic _ Hok). by setoid_rewrite Hreg.
  - rewrite (so_count _ Hok2), (so_count _ Hok), Hi2. f_equal. unfold local_count. f_equal. f_equal. apply map_filter_ext.
    intros g' q Hg. cbn [snd]. by rewrite (Hsame g' q Hg).
  - by rewrite He2, He1, <-app_assoc.
  - by rewrite Hm2.
Qed.

(** Maintenance removes exactly the expired services: with a clock that does
    not run back, a service that had expired when the check began is gone, one that
    has not expired when it ends is still registered, and none is added. *)
Theorem checkServiceTtls_correct s : services_reachable s → (∀ m n, (m <= n)%nat → sv_clock s m <= sv_clock s n) →
  ∃ s', checkServiceTtls settings isInfoEnabled s = Some (tt, s') ∧ services_ok s' ∧ sv_heap s' = sv_heap s ∧
    ∀ g, (sv_servicesById s !! g = None → sv_servicesById s' !! g = None) ∧
      ∀ p r, registration s g p r →
        (reg_isExpired settings (sv_clock s 0%nat) r = true → sv_servicesById s' !! g = None) ∧
        (reg_isExpired settings (sv_clock s' 0%nat) r = false → sv_servicesById s' !! g = Some p).
Proof.
  intros Hr Hclock. pose proof (services_reachable_safe s Hr) as [Hok _].
  pose proof (checkServiceTtls_wp s Hok) as ([] & s' & Hrun & Hok' & _ & Hh & k & Hc & Hex)%wp_Some. exists s'. split_and!; [done|done|done|].
  intros g. destruct (Hex g) as [Hexp Hnone]. split; [done|]. intros p r Hreg. destruct (Hexp p r Hreg) as (i & Hi & He).
  assert (∀ m n, (m <= n)%nat → reg_isExpired settings (sv_clock s m) r = true → reg_isExpired settings (sv_clock s n) r = true) as Hmono.
  { intros m n Hmn. unfold reg_isExpired. rewrite !Z.ltb_lt. specialize (Hclock m n Hmn). lia. }
  rewrite He. split.
  - intros Hbefore. by rewrite (Hmono 0%nat i ltac:(lia) Hbefore).
  - rewrite Hc. intros Hk. destruct (reg_isExpired settings (sv_clock s i) r) eqn:Hei; [|done].
    by rewrite (Hmono i (k + 0)%nat ltac:(lia) Hei) in Hk.
Qed.
End service_claims.
