(* ===== verification/RegistryExamples.v ===== *)
(** * The broker registry at work

    A fabric of three brokers in a line, told to the registry of the first by
    messages, and the theorems on the registry applied to it. *)

From S2P Require Import Prelude Topic CoreUtil Authorization Fabric TopicCache Registry FabricProofs TopicCacheProofs RegistryProofs TopicSync RegistryClaims Metrics Services ServiceProofs ServiceTurns ServiceClaims.
From stdpp Require Import options.

(** Sets in the order of their elements. *)
#[export] Instance elements_order : HashOrder := { hash_order X := elements X; hash_order_perm X := reflexivity _ }.

Definition ex_settings : BrokerSettings := mk_BrokerSettings "A" 1 1 true true 0 true "ops" 100 2 3 2 "A:1" false 60 30 16 443 true.
Definition ex_broker (id : string) : Broker := mk_Broker id "host" 8883 10 7 "" "" "" 0 443 "1" 100 true.
Definition ex_start : BrokerRegistry :=
  mk_BrokerRegistry ∅ 0 ∅ (mk_TopicCacheService ∅ true 0) "" "" "" 0 0 "" 0 (λ n, 1000 + Z.of_nat n).

(** A broker's events about its topics. *)
Definition ex_topics (changeCount : Z) (topics : list string) : topics_event := mk_topics_event 7 changeCount true true topics.

(** A - B - C; B subscribes to ["x"], C to ["a/#"]. *)
Definition ex_ops : list registry_op :=
  [OpAddBroker (ex_broker "A"); OpAddConnection "A" "B" true;
   OpBrokerState false (ex_broker "B") {["A"; "C"]} {["C"]}; OpBrokerState false (ex_broker "C") {["B"]} ∅;
   OpBrokerTopics false "B" (ex_topics 3 ["x"]); OpBrokerTopics false "C" (ex_topics 5 ["a/#"])].

Fixpoint run_ops (settings : BrokerSettings) (ops : list registry_op) (r : BrokerRegistry) : BrokerRegistry :=
  match ops with
  | [] => r
  | op :: ops' => match run_op settings op r with Some (_, r') => run_ops settings ops' r' | None => r end
  end.

(** Every operation finds what it needs. *)
Fixpoint ops_fit (settings : BrokerSettings) (ops : list registry_op) (r : BrokerRegistry) : Prop :=
  match ops with
  | [] => True
  | op :: ops' => op_fits op r ∧ match run_op settings op r with Some (_, r') => ops_fit settings ops' r' | None => True end
  end.

Lemma run_ops_reachable settings ops r : registry_reachable settings r → ops_fit settings ops r → registry_reachable settings (run_ops settings ops r).
Proof.
  revert r. induction ops as [|op ops IH]; intros r Hr Hfit; [done|]. cbn in *. destruct Hfit as [Hop Hfit].
  destruct (run_op settings op r) as [[[] r']|] eqn:Hrun; [|done]. apply IH; [|done]. by apply (registry_step _ op r).
Qed.

Definition ex_fabric : BrokerRegistry := run_ops ex_settings ex_ops ex_start.

Example ex_next : (λ p, p.1) <$> getNextBroker "A" "C" ex_fabric = Some "B".
Proof. vm_compute. reflexivity. Qed.
Example ex_subscriber : (λ p, p.1) <$> isSubscriberInHierarchy ex_settings "A" "B" "a/b" ex_fabric = Some true.
Proof. vm_compute. reflexivity. Qed.

Ltac fits := first [exact I | intros s Hs; vm_compute in Hs; injection Hs as <-; vm_compute; reflexivity].

Lemma ops_fit_cons settings op ops r r' : op_fits op r → run_op settings op r = Some (tt, r') → ops_fit settings ops r' → ops_fit settings (op :: ops) r.
Proof. intros Hop Hrun Hops. cbn. by rewrite Hrun. Qed.

Lemma ex_reachable : registry_reachable ex_settings ex_fabric.
Proof.
  apply run_ops_reachable; [by eapply registry_start|].
  repeat (eapply ops_fit_cons; [fits|vm_compute; reflexivity|]). exact I.
Qed.
Lemma ex_ok : registry_ok ex_settings ex_fabric.
Proof. eapply registry_reachable_ok, ex_reachable. Qed.

(** The connections of a registry, as a list. *)
Definition edges_of (reg : gmap string BrokerState) : list (string * string) :=
  flat_map (λ e, map (pair e.1) (elements (getConnections e.2))) (map_to_list reg).
Lemma edge_in reg x y : edge reg x y → (x, y) ∈ edges_of reg.
Proof.
  intros (s & Hs & Hy). apply list_elem_of_In, in_flat_map. exists (x, s). split.
  - apply list_elem_of_In, elem_of_map_to_list, Hs.
  - apply in_map, list_elem_of_In, elem_of_elements, Hy.
Qed.
Lemma ex_edges : edges_of (rg_registry ex_fabric) = [("C", "B"); ("A", "B"); ("B", "C"); ("B", "A")].
Proof. vm_compute. reflexivity. Qed.
Lemma ex_edge x y : edge (rg_registry ex_fabric) x y → x = "B" ∧ (y = "A" ∨ y = "C") ∨ y = "B" ∧ (x = "A" ∨ x = "C").
Proof. intros Hxy%edge_in. rewrite ex_edges in Hxy. set_solver. Qed.

(** Behind an end of the line there is nothing else. *)
Lemma ex_behind g x : g = "A" ∨ g = "C" → behind (rg_registry ex_fabric) "B" g x → x = g.
Proof.
  intros Hg [_ Hr]. inversion Hr as [|? y ? [Hy Hn] _]; [done|]. apply ex_edge in Hy as [[-> _]|[-> _]]; [|done]. by destruct Hg.
Qed.
Lemma ex_one_way b : one_way (rg_registry ex_fabric) b.
Proof.
  intros g1 g2 x Hg1 Hg2 Hx1 Hx2. apply ex_edge in Hg1 as [[-> Hg1]|[-> Hg1]]; apply ex_edge in Hg2 as [[Hb Hg2]|[-> Hg2]]; simplify_eq.
  - apply ex_behind in Hx1 as ->; [|done]. by apply ex_behind in Hx2.
  - by destruct Hg2.
  - by destruct Hg1.
  - done.
Qed.
Lemma ex_clock n : rg_clock ex_fabric n = 1000 + Z.of_nat (21 + n).
Proof. reflexivity. Qed.

(** ** The theorems at these states *)

Lemma any_wildcard_matches_witness : any_wildcard (String.eqb "a/#") "a/b" = Some true ↔
  level_match (levels "a/#") (levels "a/b") ∧ "a/#" ≠ "a/b" +:+ "/#".
Proof.
  apply any_wildcard_matches.
  - reflexivity.
  - exists ["a"]. split; [reflexivity|]. constructor; [|constructor]. split; discriminate.
Defined.

Lemma registry_invariant_witness : registry_ok ex_settings ex_fabric ∧ ∀ op, op_fits op ex_fabric → is_Some (run_op ex_settings op ex_fabric).
Proof. exact (registry_invariant ex_settings ex_fabric ex_reachable). Defined.

Lemma getNextBroker_correct_witness : ∃ next r', getNextBroker "A" "C" ex_fabric = Some (next, r') ∧ registry_ok ex_settings r' ∧
  rg_registry r' = rg_registry ex_fabric ∧
  (next ≠ "" ↔ is_Some (rg_registry ex_fabric !! "A") ∧ is_Some (rg_registry ex_fabric !! "C") ∧ reachable (rg_registry ex_fabric) "A" "C") ∧
  (next ≠ "" → "A" = "C" ∧ next = "C" ∨
     ∃ p, edge (rg_registry ex_fabric) "A" next ∧ route (rg_registry ex_fabric) next "C" p ∧ "A" ∉ p).
Proof. exact (getNextBroker_correct ex_settings "A" "C" ex_fabric ex_ok). Defined.

Lemma isBridgeConnectAllowed_correct_witness : ∃ allowed r', isBridgeConnectAllowed ex_settings "C" ex_fabric = Some (allowed, r') ∧
  registry_ok ex_settings r' ∧
  (allowed = false ↔ is_Some (rg_registry ex_fabric !! set_guid ex_settings) ∧ is_Some (rg_registry ex_fabric !! "C") ∧
    reachable (rg_registry ex_fabric) (set_guid ex_settings) "C").
Proof. exact (isBridgeConnectAllowed_correct ex_settings "C" ex_fabric ex_ok). Defined.

Lemma isSubscriberInHierarchy_correct_witness : ∃ found r',
  isSubscriberInHierarchy ex_settings "A" "B" "a/b" ex_fabric = Some (found, r') ∧ registry_ok ex_settings r' ∧
  (found = true ↔ ∃ x, behind (rg_registry ex_fabric) "A" "B" x ∧
     (routes_by_topic ex_settings (rg_registry ex_fabric) x = false ∨
      ∃ s, rg_registry ex_fabric !! x = Some s ∧ subscribed_in (bs_subscriptions s) "a/b")).
Proof. exact (isSubscriberInHierarchy_correct ex_settings "A" "B" "a/b" ex_fabric ex_ok). Defined.

Lemma onCoreMaintenance_expires_witness : wp (onCoreMaintenance ex_settings 2000) (λ _ r',
  registry_ok ex_settings r' ∧ rg_ttlCheckTime r' = 2000 ∧
  (∀ x s', rg_registry r' !! x = Some s' → ∃ s, rg_registry ex_fabric !! x = Some s ∧ same_topics s s' ∧
     isExpired ex_settings (rg_clock ex_fabric 0%nat) s = false) ∧
  (∀ x s, rg_registry ex_fabric !! x = Some s → rg_registry r' !! x = None →
     ∃ n, isExpired ex_settings (rg_clock ex_fabric n) s = true)) ex_fabric.
Proof.
  apply onCoreMaintenance_expires.
  - exact ex_ok.
  - intros m n Hmn. rewrite !ex_clock. lia.
  - vm_compute. discriminate.
Defined.

(** Broker C with new topics, and as it is known. *)
Definition ex_sender : BrokerState :=
  mk_BrokerState (ex_broker "C") ∅ ∅ {["a/#"; "p"; "q"]} 1 ∅ 0 9 0.
Definition ex_synced : BrokerState := mk_BrokerState (ex_broker "C") ∅ ∅ {["a/#"]} 1 ∅ 0 5 0.
Definition ex_C : BrokerState := default ex_sender (rg_registry ex_fabric !! "C").

Lemma topics_arrive_witness : wp (on_topics_events ex_settings "C" (topics_events 1 ex_sender)) (λ _ r',
  registry_ok ex_settings r' ∧
  rg_registry r' = <["C" := synced (bs_subscriptions ex_sender) (bs_subscriptionsChangeCount ex_sender) ex_C]> (rg_registry ex_fabric)) ex_fabric.
Proof.
  apply topics_arrive.
  - exact ex_ok.
  - reflexivity.
  - vm_compute. reflexivity.
  - right. vm_compute. discriminate.
  - vm_compute. reflexivity.
Defined.

Lemma topic_event_keeps_sync_witness : wp (on_broker_topic ex_settings false true "C" "p" 7 6) (λ _ r',
  registry_ok ex_settings r' ∧ ∃ s', rg_registry r' !! "C" = Some s' ∧
    in_sync (BrokerState_addTopic (mk_BrokerSettings "C" 1 1 true true 0 false "" 0 0 0 0 "C:1" false 60 30 16 443 true) "p" ex_synced).2 s') ex_fabric.
Proof.
  apply (topic_event_keeps_sync ex_settings (mk_BrokerSettings "C" 1 1 true true 0 false "" 0 0 0 0 "C:1" false 60 30 16 443 true) true "p" "C" ex_synced ex_C ex_fabric).
  - exact ex_ok.
  - exact ex_one_way.
  - reflexivity.
  - reflexivity.
  - vm_compute. reflexivity.
  - discriminate.
  - vm_compute. reflexivity.
  - vm_compute. split; [discriminate|reflexivity].
  - vm_compute. by split_and!.
  - reflexivity.
Defined.

(** * The service registry at work

    Two services of a tenant on one request topic and one that has expired, at
    the broker of [RegistryExamples.v], and the theorems on the service registry
    and on tenants applied to them. *)

(** Registrations in the order of their addresses. *)
#[export] Instance elements_ptr_order : PtrOrder := { ptr_order X := elements X; ptr_order_perm X := reflexivity _ }.

(** A managed client of tenant ["t1"] offers [topics] at the local broker. *)
Definition ex_service (guid : string) (ttlMins : Z) (topics : gset string) (now : Z) : ServiceRegistration :=
  ServiceRegistration_new ex_settings "/svc/type" guid "client" "" "A" ttlMins topics ∅ "t1" ∅ ∅ true now.
Definition ex_sa : ServiceRegistration := ex_service "sa" 60 {["/req"]} 10000.
Definition ex_sb : ServiceRegistration := ex_service "sb" 60 {["/req"; "/other"]} 10000.
Definition ex_sx : ServiceRegistration := ex_service "sx" 1 {["/old"]} 0.

Definition ex_svc_start : ServiceRegistry :=
  mk_ServiceRegistry ∅ ∅ [] ∅ ∅ 0 false 0 ∅ ex_fabric (Some (TopicAuthorizationState_new ∅ ∅)) (mk_TenantMetricsService ∅ ∅ ∅ []) [] (λ _, 10000).
Definition svc_run (op : service_op) (s : ServiceRegistry) : ServiceRegistry :=
  match run_service_op ex_settings true op s with Some (_, s') => s' | None => s end.
Definition ex_services : ServiceRegistry :=
  svc_run (SvcRegister ex_sx) (svc_run (SvcRegister ex_sb) (svc_run (SvcRegister ex_sa) ex_svc_start)).

Lemma ex_surroundings : surroundings_ok ex_settings ex_svc_start.
Proof. split; [exact ex_ok|]. by exists ∅, ∅. Qed.
Lemma svc_run_reachable op s : services_reachable ex_settings true s → service_op_fits ex_settings op →
  services_reachable ex_settings true (svc_run op s).
Proof.
  intros Hs Hfit. pose proof (run_service_op_ok ex_settings true op s (services_reachable_safe _ _ _ Hs) Hfit) as ([] & s' & Hrun & _)%wp_Some.
  unfold svc_run. rewrite Hrun. by eapply services_next.
Qed.
Lemma ex_services_reachable : services_reachable ex_settings true ex_services.
Proof. repeat (apply svc_run_reachable; [|exact I]). apply services_start; try reflexivity. exact ex_surroundings. Qed.

Example ex_two_requests : (λ p, p.1) <$> zone_requests ex_settings 3 "t1" (ZoneServices_with "" "/req" {[1; 2]}%positive) ex_services
  = Some [Some 2; Some 1; Some 2]%positive.
Proof. vm_compute. reflexivity. Qed.
Example ex_tenant_refused : (λ p, p.1) <$> getNextService ex_settings "/req" "t2" ex_services = Some None.
Proof. vm_compute. reflexivity. Qed.
Example ex_expiry : (λ p, map fst (map_to_list (sv_servicesById p.2))) <$> checkServiceTtls ex_settings true ex_services = Some ["sa"; "sb"].
Proof. vm_compute. reflexivity. Qed.
(** The tenant may have three services; the fourth registration is allowed no
    more, although one has been withdrawn before. *)
Example ex_leak : let s := svc_run (SvcUnregisterClient "sa" "client" "t1" true) ex_services in
  (sv_localSvcCounter s, isServiceRegistrationAllowed ex_settings "t1" (sv_metrics ex_svc_start),
   isServiceRegistrationAllowed ex_settings "t1" (sv_metrics s)) = (2, true, false).
Proof. vm_compute. reflexivity. Qed.

(** ** The theorems at these states *)

Lemma services_invariant_witness : services_ok ex_services ∧ ∀ op, service_op_fits ex_settings op →
  ∃ s', run_service_op ex_settings true op ex_services = Some (tt, s') ∧ services_reachable ex_settings true s'.
Proof. exact (services_invariant ex_settings true ex_services ex_services_reachable). Defined.

Lemma getNextService_correct_witness : ∃ res s', getNextService ex_settings "/req" "t1" ex_services = Some (res, s') ∧
  services_reachable ex_settings true s' ∧ sv_heap s' = sv_heap ex_services ∧ sv_servicesById s' = sv_servicesById ex_services ∧
  match res with
  | Some p => (∃ g r, registration ex_services g p r ∧ "/req" ∈ sr_requestChannels r) ∧ served ex_settings ex_services "/req" "t1" p
  | None => ∀ g p r, registration ex_services g p r → "/req" ∈ sr_requestChannels r → refused ex_settings ex_services "/req" "t1" p
  end.
Proof. exact (getNextService_correct ex_settings true ex_services "/req" "t1" ex_services_reachable). Defined.

Lemma zone_round_robin_witness : let z := ZoneServices_with "" "/req" {[1; 2]}%positive in
  ∃ l s', zone_requests ex_settings (size (zs_services z)) "t1" z ex_services = Some (l, s') ∧ l ≡ₚ Some <$> elements (zs_services z).
Proof.
  apply (zone_round_robin ex_settings true ex_services "t1" (ZoneServices_with "" "/req" {[1; 2]}%positive)).
  - exact ex_services_reachable.
  - vm_compute. lia.
  - intros p Hp n. assert (p = 1%positive ∨ p = 2%positive) as Hp' by (unfold ZoneServices_with in Hp; cbn in Hp; set_solver).
    assert (permitted ∅ "client" "/req") as Hany by (right; intros; apply lookup_empty).
    destruct Hp' as [-> | ->]; [exists ex_sa|exists ex_sb]; exists (TopicAuthorizationState_new ∅ ∅);
      (split_and!; [vm_compute; reflexivity|reflexivity|left; reflexivity|vm_compute; reflexivity|exists "client"; split; [by left|exact Hany]|vm_compute; reflexivity]).
Defined.

Definition ex_new : ServiceRegistration := ex_service "sn" 5 {["/new"]} 10000.
Lemma register_unregister_witness : ∃ s1 s2, registerNewService ex_settings true ex_new ex_services = Some (true, s1) ∧
  is_Some (sv_servicesById s1 !! "sn") ∧
  unregisterService_client ex_settings "sn" "client" "t1" true s1 = Some (tt, s2) ∧
  sv_servicesById s2 = sv_servicesById ex_services ∧ sv_servicesByType s2 ≡ₚ sv_servicesByType ex_services ∧
  (∀ topic p, serves_topic s2 topic p ↔ serves_topic ex_services topic p) ∧ sv_localSvcCounter s2 = sv_localSvcCounter ex_services ∧
  sv_sent s2 = sv_sent ex_services ++ register_events ex_settings ex_new ++ unregister_events ex_settings true ex_new ∧
  sv_metrics s2 = tenant_adjusted ex_settings true ex_new 1 (sv_metrics ex_services).
Proof.
  apply (register_unregister ex_settings true ex_services ex_new true ex_services_reachable); [discriminate|vm_compute; reflexivity].
Defined.

Lemma checkServiceTtls_correct_witness : ∃ s', checkServiceTtls ex_settings true ex_services = Some (tt, s') ∧ services_ok s' ∧ sv_heap s' = sv_heap ex_services ∧
  ∀ g, (sv_servicesById ex_services !! g = None → sv_servicesById s' !! g = None) ∧
    ∀ p r, registration ex_services g p r →
      (reg_isExpired ex_settings (sv_clock ex_services 0%nat) r = true → sv_servicesById s' !! g = None) ∧
      (reg_isExpired ex_settings (sv_clock s' 0%nat) r = false → sv_servicesById s' !! g = Some p).
Proof.
  apply (checkServiceTtls_correct ex_settings true ex_services ex_services_reachable).
  assert (∀ n, sv_clock ex_services n = 10000) as Hclock by (intros n; vm_compute; reflexivity). intros m n _. by rewrite !Hclock.
Defined.

Lemma tenant_bytes_limited_witness : let '(bs, m') := count_bytes ex_settings "t1" [40; 50; 30; 5] (sv_metrics ex_svc_start) in
  bs = over ex_settings 0 [40; 50; 30; 5] ∧ byte_events "t1" m' = (byte_events "t1" (sv_metrics ex_svc_start) + Nat.b2n (existsb id bs))%nat.
Proof.
  apply tenant_bytes_limited; [reflexivity| |reflexivity]. repeat (constructor; [split; [discriminate|reflexivity]|]). constructor.
Defined.
