(* ===== verification/Configuration.v ===== *)
(** * The configuration of the fabric

    [brokerlib/brokerconfiguration]: brokers and hubs (pairs of brokers that stand
    for each other) with their parents and service zones, and the zones that each
    of them inherits ([Hub.cpp], [ConfigBroker.cpp], [BrokerConfiguration.cpp]).
    [brokerlib/core/src/CoreBridgeConfigurationFactory.cpp]: which brokers a broker
    connects to. [BrokerConfigurationService.cpp]: the configuration in force. *)

From S2P Require Import Prelude Fabric Services.
From stdpp Require Import options.

(** ** Nodes *)

Record Hub := mk_Hub {
  hub_id : string; hub_primaryBrokerId : string; hub_secondaryBrokerId : string; hub_parentId : string;
  hub_serviceZone : string; hub_name : string }.
#[export] Instance Hub_eq_dec : EqDecision Hub.
Proof. solve_decision. Defined.

(** With the fields of [BrokerBase]. *)
Record ConfigBroker := mk_ConfigBroker {
  cb_id : string; cb_hostname : string; cb_port : Z; cb_serviceZone : string; cb_parentId : string; cb_ipAddress : string }.
#[export] Instance ConfigBroker_eq_dec : EqDecision ConfigBroker.
Proof. solve_decision. Defined.

(** A [ConfigNode] is the hub or the broker of this number. *)
Inductive nodeptr := HubNode (i : nat) | BrokerNode (j : nat).
#[export] Instance nodeptr_eq_dec : EqDecision nodeptr.
Proof. solve_decision. Defined.
Definition nodeptr_code (n : nodeptr) : nat + nat := match n with HubNode i => inl i | BrokerNode j => inr j end.
#[export] Instance nodeptr_countable : Countable nodeptr.
Proof. apply (inj_countable' nodeptr_code (λ s, match s with inl i => HubNode i | inr j => BrokerNode j end)). by intros []. Defined.
Definition node_isHub (n : nodeptr) : bool := match n with HubNode _ => true | BrokerNode _ => false end.

(** [bc_serviceZones] has the [m_serviceZones] of the nodes whose
    [m_calculatedServiceZones] is set. *)
Record BrokerConfiguration := mk_BrokerConfiguration {
  bc_hubs : list Hub; bc_brokers : list ConfigBroker; bc_nodeMap : gmap string nodeptr; bc_serviceZones : gmap nodeptr (list string) }.
#[export] Instance eta_BrokerConfiguration : Eta BrokerConfiguration := λ r,
  mk_BrokerConfiguration (bc_hubs r) (bc_brokers r) (bc_nodeMap r) (bc_serviceZones r).

Definition getConfigNode (id : string) (bc : BrokerConfiguration) : option nodeptr := bc_nodeMap bc !! id.
(** [PtrHubContainsId]. *)
Definition hub_contains (brokerId : string) (h : Hub) : bool :=
  String.eqb (hub_primaryBrokerId h) brokerId || String.eqb (hub_secondaryBrokerId h) brokerId.
Definition getContainingHub (brokerId : string) (bc : BrokerConfiguration) : option nat :=
  fst <$> list_find (λ h, hub_contains brokerId h = true) (bc_hubs bc).

(** ** Service zones ([generateServiceZoneList]) *)

Definition zones_get (n : nodeptr) : ST BrokerConfiguration (list string) := deref (λ bc, bc_serviceZones bc !! n).
Definition zones_insert (n : nodeptr) (zones : list string) : ST BrokerConfiguration () :=
  modify (λ bc, bc <| bc_serviceZones ::= alter (λ l, l ++ zones) n |>).
Definition zone_push (n : nodeptr) (zone : string) : ST BrokerConfiguration () :=
  if String.eqb zone "" then mret tt else zones_insert n [zone].

(** The zones of the parent, if there is one. *)
Definition parent_zones (generate : nodeptr → ST BrokerConfiguration (list string)) (parentId : string) : ST BrokerConfiguration (list string) :=
  if String.eqb parentId "" then mret []
  else
    parent ← gets (getConfigNode parentId);
    match parent with
    | None => mret []
    | Some p => generate p
    end.
Fixpoint generateServiceZoneList (fuel : nat) (n : nodeptr) : ST BrokerConfiguration (list string) :=
  match fuel with
  | O => ub
  | S fuel' =>
    calculated ← gets (λ bc, bc_serviceZones bc !! n);
    match calculated with
    | Some zones => mret zones
    | None =>
      modify (λ bc, bc <| bc_serviceZones ::= <[n := []]> |>);;
      parents ← match n with
                | HubNode i =>
                  h ← deref (λ bc, bc_hubs bc !! i);
                  zone_push n (hub_serviceZone h);;
                  parent_zones (generateServiceZoneList fuel') (hub_parentId h)
                | BrokerNode j =>
                  b ← deref (λ bc, bc_brokers bc !! j);
                  hub ← gets (getContainingHub (cb_id b));
                  match hub with
                  | Some i => generateServiceZoneList fuel' (HubNode i)
                  | None => zone_push n (cb_serviceZone b);; parent_zones (generateServiceZoneList fuel') (cb_parentId b)
                  end
                end;
      (if bool_decide (parents = []) then mret tt else zones_insert n parents);;
      zones_get n
    end
  end.

Section configuration.
Context `{HashOrder}.

(** ** Creation: [insert] keeps the node that has the identifier *)

Definition node_insert (m : gmap string nodeptr) (e : string * nodeptr) : gmap string nodeptr :=
  match m !! e.1 with Some _ => m | None => <[e.1 := e.2]> m end.
Definition config_nodes (hubs : list Hub) (brokers : list ConfigBroker) : list (string * nodeptr) :=
  imap (λ i h, (hub_id h, HubNode i)) hubs ++ imap (λ j b, (cb_id b, BrokerNode j)) brokers.
Definition node_map (hubs : list Hub) (brokers : list ConfigBroker) : gmap string nodeptr :=
  foldl node_insert ∅ (config_nodes hubs brokers).

Fixpoint generate_loop (fuel : nat) (ids : list string) : ST BrokerConfiguration () :=
  match ids with
  | [] => mret tt
  | id :: ids' =>
    n ← deref (getConfigNode id);
    generateServiceZoneList fuel n;;
    generate_loop fuel ids'
  end.
Definition BrokerConfiguration_new (hubs : list Hub) (brokers : list ConfigBroker) : option BrokerConfiguration :=
  let m := node_map hubs brokers in
  snd <$> generate_loop (S (length hubs + length brokers)) (hash_order (dom m)) (mk_BrokerConfiguration hubs brokers m ∅).
(** What [ServiceRegistry::onConfigurationUpdated] takes from a configuration. *)
Definition zones_by_node (bc : BrokerConfiguration) : gmap string (list string) := (λ n, default [] (bc_serviceZones bc !! n)) <$> bc_nodeMap bc.
End configuration.

(** ** Equality *)

(** [dynamic_pointer_cast]. *)
Definition node_hub (bc : BrokerConfiguration) (id : string) : option Hub :=
  match getConfigNode id bc with Some (HubNode i) => bc_hubs bc !! i | _ => None end.
Definition node_broker (bc : BrokerConfiguration) (id : string) : option ConfigBroker :=
  match getConfigNode id bc with Some (BrokerNode j) => bc_brokers bc !! j | _ => None end.
Definition config_eqb (lhs rhs : BrokerConfiguration) : bool :=
  (length (bc_hubs lhs) =? length (bc_hubs rhs))%nat && (length (bc_brokers lhs) =? length (bc_brokers rhs))%nat
  && forallb (λ h, bool_decide (node_hub rhs (hub_id h) = Some h)) (bc_hubs lhs)
  && forallb (λ b, bool_decide (node_broker rhs (cb_id b) = Some b)) (bc_brokers lhs).

(** [BrokerConfigurationService::setBrokerConfiguration]: whether the listeners
    are told. *)
Definition setBrokerConfiguration (config : BrokerConfiguration) (m_config : option BrokerConfiguration) : bool * option BrokerConfiguration :=
  match m_config with
  | Some old => if config_eqb old config then (false, m_config) else (true, Some config)
  | None => (true, Some config)
  end.

(** ** Bridges ([CoreBridgeConfiguration.cpp]) *)

(** [CoreBridgeConfiguration::Broker]. *)
Record CoreBroker := mk_CoreBroker { co_guid : string; co_host : string; co_port : Z }.
#[export] Instance CoreBroker_eq_dec : EqDecision CoreBroker.
Proof. solve_decision. Defined.

Record CoreBridgeConfiguration := mk_CoreBridgeConfiguration {
  cf_brokers : list CoreBroker; cf_guid : string; cf_port : Z; cf_hostName : string; cf_ipAddress : string; cf_hubName : string;
  cf_primaryBrokerCount : Z }.
#[export] Instance eta_CoreBridgeConfiguration : Eta CoreBridgeConfiguration := λ r,
  mk_CoreBridgeConfiguration (cf_brokers r) (cf_guid r) (cf_port r) (cf_hostName r) (cf_ipAddress r) (cf_hubName r) (cf_primaryBrokerCount r).
Definition CoreBridgeConfiguration_new (guid : string) : CoreBridgeConfiguration := mk_CoreBridgeConfiguration [] guid 0 "" "" "" 0.
Definition isEnabled (c : CoreBridgeConfiguration) : bool := bool_decide (cf_brokers c ≠ []).
Definition isRoundRobin (c : CoreBridgeConfiguration) : bool := cf_primaryBrokerCount c =? 0.
Definition setBrokerProperties (hostName ipAddress : string) (port : Z) (c : CoreBridgeConfiguration) : CoreBridgeConfiguration :=
  c <| cf_hostName := hostName |> <| cf_ipAddress := ipAddress |> <| cf_port := port |>.
Definition getBridgeId (c : CoreBridgeConfiguration) : string :=
  if isEnabled c then foldl (λ s b, (s +:+ ":") +:+ co_guid b) (cf_guid c) (cf_brokers c) else "".
(** [random] is what [rand] returns. *)
Definition getInitialBrokerIndex (random : Z) (c : CoreBridgeConfiguration) : Z :=
  let brokerCount := Z.of_nat (length (cf_brokers c)) in
  u16 (if isRoundRobin c && (1 <? brokerCount) then random mod brokerCount else 0).

(** ** Whom to connect to ([CoreBridgeConfigurationFactory.cpp]) *)

(** A broker by its host and, if there is one, by its address. *)
Definition broker_entries (b : ConfigBroker) : list CoreBroker :=
  mk_CoreBroker (cb_id b) (cb_hostname b) (cb_port b)
    :: (if String.eqb (cb_ipAddress b) "" then [] else [mk_CoreBroker (cb_id b) (cb_ipAddress b) (cb_port b)]).
Definition addBroker (bc : BrokerConfiguration) (brokerId : string) (c : CoreBridgeConfiguration) : CoreBridgeConfiguration :=
  if String.eqb brokerId "" then c
  else match node_broker bc brokerId with Some b => c <| cf_brokers ::= λ l, l ++ broker_entries b |> | None => c end.
Definition containing_hub (bc : BrokerConfiguration) (brokerId : string) : option Hub :=
  i ← getContainingHub brokerId bc; bc_hubs bc !! i.
Definition addPrimaryHub (bc : BrokerConfiguration) (local : ConfigBroker) (c : CoreBridgeConfiguration) : CoreBridgeConfiguration :=
  match containing_hub bc (cb_id local) with
  | None => c
  | Some hub =>
    let c := c <| cf_hubName := hub_name hub |> in
    let other := if String.eqb (cb_id local) (hub_primaryBrokerId hub) then hub_secondaryBrokerId hub else hub_primaryBrokerId hub in
    if negb (String.eqb other "") && String.ltb other (cb_id local) then
      let c := addBroker bc other c in
      c <| cf_primaryBrokerCount := u32 (Z.of_nat (length (cf_brokers c))) |>
    else c
  end.
Definition addParents (bc : BrokerConfiguration) (local : ConfigBroker) (c : CoreBridgeConfiguration) : CoreBridgeConfiguration :=
  let parentId := match containing_hub bc (cb_id local) with Some hub => hub_parentId hub | None => cb_parentId local end in
  if String.eqb parentId "" then c
  else
    match getConfigNode parentId bc with
    | None => c
    | Some (BrokerNode _) => addBroker bc parentId c
    | Some (HubNode i) =>
      match bc_hubs bc !! i with
      | None => c
      | Some hub =>
        let p := hub_primaryBrokerId hub in
        let s := hub_secondaryBrokerId hub in
        if String.ltb p s then addBroker bc s (addBroker bc p c) else addBroker bc p (addBroker bc s c)
      end
    end.
Definition createConfiguration (guid : string) (bc : BrokerConfiguration) : CoreBridgeConfiguration :=
  let c := CoreBridgeConfiguration_new guid in
  match node_broker bc guid with
  | Some local => addParents bc local (addPrimaryHub bc local (setBrokerProperties (cb_hostname local) (cb_ipAddress local) (cb_port local) c))
  | None => c
  end.
