(* ===== verification/DxlMessages.v ===== *)
(** * DXL messages

    [brokerlib/message]: the structure of a message and its wire format
    ([dx_message_types.h], [messageImpl.cpp]), the creation of messages
    ([messageinterface.cpp]) and the class [DxlMessage] with the sets it makes
    of the arrays of the structure ([DxlMessage.cpp] and its subclasses). The
    wire format is a sequence of MessagePack objects; the MessagePack library
    is a parameter ([MsgPack]). *)

From S2P Require Import Prelude Fabric Metrics.
From stdpp Require Import options.

(** ** C strings *)

Fixpoint cstr (s : string) : string :=
  match s with
  | EmptyString => EmptyString
  | String c s' => if Ascii.eqb c Ascii.zero then EmptyString else String c (cstr s')
  end.
Definition str_len (s : string) : Z := Z.of_nat (String.length s).

(** ** The structure *)

(** Success ([DXLMP_OK]) is a value of the other kind. *)
Inductive dxl_message_error_t :=
| DXLMP_INIT_FAILED | DXLMP_INVALID_OP_FOR_MESSAGE_TYPE | DXLMP_NOT_IMPLEMENTED | DXLMP_BAD_DATA | DXLMP_WRONG_MESSAGE_TYPE
| DXLMP_NO_MEMORY | DXLMP_INVALID_PARAMS.

Inductive dxl_message_type_t := DXLMP_REQUEST | DXLMP_RESPONSE | DXLMP_EVENT | DXLMP_RESPONSE_ERROR.
#[export] Instance dxl_message_type_t_eq_dec : EqDecision dxl_message_type_t.
Proof. solve_decision. Defined.
Definition type_code (t : dxl_message_type_t) : Z :=
  match t with DXLMP_REQUEST => 0 | DXLMP_RESPONSE => 1 | DXLMP_EVENT => 2 | DXLMP_RESPONSE_ERROR => 3 end.

(** The union [dxl_message_specificData]. *)
Inductive dxl_message_specific :=
| requestData (replyToTopic serviceInstanceId : string)
| responseData (requestMessageId serviceInstanceId : string)
| eventData
| responseErrorData (requestMessageId serviceInstanceId errorMessage : string) (code : Z).

(** The payload: NULL, allocated, or freed and not reset. *)
Inductive payload_ptr := PayloadNull | Payload (bytes : string) | PayloadFreed (size : nat).

(** [dxl_message_t]. The message type is that of the specific data; an array
    and its count are a list. [destinationTopic] and [userData] are never set. *)
Record dxl_message_t := mk_dxl_message_t {
  dm_version : Z; dm_messageId : string; dm_sourceClientId : string; dm_sourceBrokerGuid : string;
  dm_brokerGuids : list string; dm_clientGuids : list string; dm_payload : payload_ptr; dm_specificData : dxl_message_specific;
  dm_otherFields : list string; dm_sourceTenantGuid : string; dm_tenantGuids : list string; dm_sourceClientInstanceId : string }.
#[export] Instance eta_dxl_message_t : Eta dxl_message_t := λ r,
  mk_dxl_message_t (dm_version r) (dm_messageId r) (dm_sourceClientId r) (dm_sourceBrokerGuid r) (dm_brokerGuids r)
    (dm_clientGuids r) (dm_payload r) (dm_specificData r) (dm_otherFields r) (dm_sourceTenantGuid r) (dm_tenantGuids r)
    (dm_sourceClientInstanceId r).

Definition dm_messageType (m : dxl_message_t) : dxl_message_type_t :=
  match dm_specificData m with
  | requestData _ _ => DXLMP_REQUEST | responseData _ _ => DXLMP_RESPONSE
  | eventData => DXLMP_EVENT | responseErrorData _ _ _ _ => DXLMP_RESPONSE_ERROR
  end.

Definition DXL_MSG_VERSION : Z := 3.
(** [createDxlMessage]; [uuid] is what [generateMessageId] makes. *)
Definition createDxlMessage (uuid : string) (messageType : dxl_message_type_t) (clientId : string)
    (clientInstanceId messageId : option string) : dxl_message_t :=
  mk_dxl_message_t DXL_MSG_VERSION (default uuid messageId) clientId "" [] [] PayloadNull
    (match messageType with
     | DXLMP_REQUEST => requestData "" "" | DXLMP_RESPONSE => responseData "" ""
     | DXLMP_EVENT => eventData | DXLMP_RESPONSE_ERROR => responseErrorData "" "" "" 0
     end)
    [] "" [] (default "" clientInstanceId).

(** *** Setters: a NULL string becomes the empty one *)

Definition setDxlMessageSourceBrokerGuid (v : option string) (m : dxl_message_t) : dxl_message_t := m <| dm_sourceBrokerGuid := default "" v |>.
Definition setDxlMessageSourceClientId (v : option string) (m : dxl_message_t) : dxl_message_t := m <| dm_sourceClientId := default "" v |>.
Definition setDxlMessageSourceClientInstanceId (v : option string) (m : dxl_message_t) : dxl_message_t :=
  m <| dm_sourceClientInstanceId := default "" v |>.
Definition setDxlMessageSourceTenantGuid (v : option string) (m : dxl_message_t) : dxl_message_t := m <| dm_sourceTenantGuid := default "" v |>.
Definition setDxlMessageBrokerGuids (v : list string) (m : dxl_message_t) : dxl_message_t := m <| dm_brokerGuids := v |>.
Definition setDxlMessageClientGuids (v : list string) (m : dxl_message_t) : dxl_message_t := m <| dm_clientGuids := v |>.
Definition setDxlMessageOtherFields (v : list string) (m : dxl_message_t) : dxl_message_t := m <| dm_otherFields := v |>.
Definition setDxlMessageTenantGuids (v : list string) (m : dxl_message_t) : dxl_message_t := m <| dm_tenantGuids := v |>.

(** The old payload is freed, but the pointer only replaced if there are bytes;
    freeing it twice is undefined. *)
Definition setDxlMessagePayload (bytes : string) (m : dxl_message_t) : option dxl_message_t :=
  match dm_payload m with
  | PayloadFreed _ => None
  | old => Some (if bool_decide (bytes = "")
                 then m <| dm_payload := match old with Payload b => PayloadFreed (String.length b) | _ => old end |>
                 else m <| dm_payload := Payload bytes |>)
  end.

Inductive dxl_request_attribute_t := reply_to_topic | service_instance_id.
Definition setDxlRequestMessageAttributes (type : dxl_request_attribute_t) (value : string) (m : dxl_message_t) : dxl_message_t :=
  match dm_specificData m with
  | requestData r s => m <| dm_specificData := match type with reply_to_topic => requestData value s | service_instance_id => requestData r value end |>
  | _ => m
  end.
Definition setDxlResponseMessageAttributes (requestMessageId : string) (m : dxl_message_t) : dxl_message_t :=
  match dm_specificData m with
  | responseData _ s => m <| dm_specificData := responseData requestMessageId s |>
  | responseErrorData _ s e c => m <| dm_specificData := responseErrorData requestMessageId s e c |>
  | _ => m
  end.
Definition setDxlResponseMessageServiceId (serviceId : string) (m : dxl_message_t) : dxl_message_t :=
  match dm_specificData m with
  | responseData r _ => m <| dm_specificData := responseData r serviceId |>
  | responseErrorData r _ e c => m <| dm_specificData := responseErrorData r serviceId e c |>
  | _ => m
  end.
Definition setDxlErrorResponseMessageAttributes (errorCode : Z) (errorMessage : string) (m : dxl_message_t) : dxl_message_t :=
  match dm_specificData m with
  | responseErrorData r s _ _ => m <| dm_specificData := responseErrorData r s errorMessage errorCode |>
  | _ => m
  end.

(** ** The wire format *)

(** What [msgpack_unpacker_next] finds; an integer with its [via.i64]. *)
Inductive msgpack_object :=
| MSGPACK_OBJECT_POSITIVE_INTEGER (i64 : Z)
| MSGPACK_OBJECT_NEGATIVE_INTEGER (i64 : Z)
| MSGPACK_OBJECT_STR (bytes : string)
| MSGPACK_OBJECT_BIN (bytes : string)
| MSGPACK_OBJECT_ARRAY (objects : list msgpack_object)
| MSGPACK_OBJECT_OTHER.

(** The library: what each call appends to the buffer, and the next object of a
    buffer with the bytes behind it, unless there is none. *)
Class MsgPack := {
  msgpack_pack_int32 : Z → string;
  msgpack_pack_int8 : Z → string;
  msgpack_pack_v4raw : Z → string;
  msgpack_pack_v4raw_body : string → string;
  msgpack_pack_array : Z → string;
  msgpack_unpacker_next : string → option (msgpack_object * string) }.

Section wire.
Context `{MsgPack}.

Definition pack_string (s : string) : string := msgpack_pack_v4raw (str_len s) +:+ msgpack_pack_v4raw_body s.
Fixpoint pack_strings (l : list string) : string :=
  match l with [] => "" | s :: l' => pack_string s +:+ pack_strings l' end.
Definition pack_string_array (l : list string) : string := msgpack_pack_array (Z.of_nat (length l)) +:+ pack_strings l.

Definition pack_payload (p : payload_ptr) : option string :=
  match p with PayloadNull | PayloadFreed O => Some (pack_string "") | Payload b => Some (pack_string b) | PayloadFreed _ => None end.
Definition pack_specific (d : dxl_message_specific) : string :=
  match d with
  | requestData replyToTopic serviceInstanceId => pack_string replyToTopic +:+ pack_string serviceInstanceId
  | responseData requestMessageId serviceInstanceId => pack_string requestMessageId +:+ pack_string serviceInstanceId
  | eventData => ""
  | responseErrorData requestMessageId serviceInstanceId errorMessage code =>
    pack_string requestMessageId +:+ pack_string serviceInstanceId +:+ msgpack_pack_int32 code +:+ pack_string errorMessage
  end.

Definition dxlMessageToBytes (stripClientGuids : bool) (m : dxl_message_t) : option string :=
  payload ← pack_payload (dm_payload m);
  Some (msgpack_pack_int32 (i32 (dm_version m)) +:+ msgpack_pack_int8 (type_code (dm_messageType m)) +:+ pack_string (dm_messageId m)
    +:+ pack_string (dm_sourceClientId m) +:+ pack_string (dm_sourceBrokerGuid m) +:+ pack_string_array (dm_brokerGuids m)
    +:+ pack_string_array (if stripClientGuids then [] else dm_clientGuids m) +:+ payload +:+ pack_specific (dm_specificData m)
    +:+ (if 0 <? dm_version m then pack_string_array (dm_otherFields m) else "")
    +:+ (if 1 <? dm_version m then pack_string (dm_sourceTenantGuid m) +:+ pack_string_array (dm_tenantGuids m) else "")
    +:+ (if 2 <? dm_version m then pack_string (dm_sourceClientInstanceId m) else "")).

(** Reading: an error, or a value and the bytes left. *)
Definition unpacker (A : Type) : Type := string → dxl_message_error_t + A * string.
#[export] Instance unpacker_ret : MRet unpacker := λ A a b, inr (a, b).
#[export] Instance unpacker_bind : MBind unpacker := λ A B k m b,
  match m b with inr (a, b') => k a b' | inl e => inl e end.
Definition unpack_error {A} (e : dxl_message_error_t) : unpacker A := λ _, inl e.

Definition unpacker_next : unpacker msgpack_object := λ b,
  match msgpack_unpacker_next b with Some r => inr r | None => inl DXLMP_INIT_FAILED end.
Definition unpackUInt32 : unpacker Z :=
  o ← unpacker_next;
  match o with
  | MSGPACK_OBJECT_POSITIVE_INTEGER i64 | MSGPACK_OBJECT_NEGATIVE_INTEGER i64 => mret (u32 i64)
  | _ => unpack_error DXLMP_BAD_DATA
  end.
Definition unpackInt : unpacker Z :=
  o ← unpacker_next;
  match o with
  | MSGPACK_OBJECT_POSITIVE_INTEGER i64 | MSGPACK_OBJECT_NEGATIVE_INTEGER i64 => mret (i32 i64)
  | _ => unpack_error DXLMP_BAD_DATA
  end.
Definition unpackRaw : unpacker string :=
  o ← unpacker_next;
  match o with MSGPACK_OBJECT_STR b | MSGPACK_OBJECT_BIN b => mret b | _ => unpack_error DXLMP_BAD_DATA end.
Fixpoint unpack_strings (l : list msgpack_object) : option (list string) :=
  match l with
  | [] => Some []
  | MSGPACK_OBJECT_STR b :: l' | MSGPACK_OBJECT_BIN b :: l' => cons (cstr b) <$> unpack_strings l'
  | _ => None
  end.
Definition unpackStringArray : unpacker (list string) :=
  o ← unpacker_next;
  match o with
  | MSGPACK_OBJECT_ARRAY l => match unpack_strings l with Some a => mret a | None => unpack_error DXLMP_BAD_DATA end
  | _ => unpack_error DXLMP_BAD_DATA
  end.

(** Every failure to read is reported as bad data. *)
Definition read_field {A} (m : unpacker A) : unpacker A := λ b,
  match m b with inl _ => inl DXLMP_BAD_DATA | r => r end.
Definition read_cstr : unpacker string := s ← read_field unpackRaw; mret (cstr s).

Definition message_type_of (type : Z) : option dxl_message_type_t :=
  if type =? 0 then Some DXLMP_REQUEST else if type =? 1 then Some DXLMP_RESPONSE
  else if type =? 2 then Some DXLMP_EVENT else if type =? 3 then Some DXLMP_RESPONSE_ERROR else None.

Definition read_specific (type : dxl_message_type_t) : unpacker dxl_message_specific :=
  match type with
  | DXLMP_REQUEST => r ← read_cstr; s ← read_cstr; mret (requestData r s)
  | DXLMP_RESPONSE => r ← read_cstr; s ← read_cstr; mret (responseData r s)
  | DXLMP_EVENT => mret eventData
  | DXLMP_RESPONSE_ERROR =>
    r ← read_cstr; s ← read_cstr; code ← read_field unpackInt; e ← read_cstr; mret (responseErrorData r s e code)
  end.

(** The fields that later versions added. *)
Definition read_versioned (version : Z) (m : dxl_message_t) : unpacker dxl_message_t :=
  m ← (if 0 <? version then otherFields ← read_field unpackStringArray; mret (m <| dm_otherFields := otherFields |>) else mret m);
  m ← (if 1 <? version
       then sourceTenantGuid ← read_cstr; tenantGuids ← read_field unpackStringArray;
            mret (m <| dm_sourceTenantGuid := sourceTenantGuid |> <| dm_tenantGuids := tenantGuids |>)
       else mret m);
  if 2 <? version then sourceClientInstanceId ← read_cstr; mret (m <| dm_sourceClientInstanceId := sourceClientInstanceId |>) else mret m.
Definition read_message : unpacker dxl_message_t :=
  version ← read_field unpackUInt32;
  type ← read_field unpackInt;
  match message_type_of type with
  | None => unpack_error DXLMP_BAD_DATA
  | Some type =>
    messageId ← read_cstr;
    clientId ← read_cstr;
    let m := createDxlMessage "" type clientId None (Some messageId) in
    sourceBrokerGuid ← read_cstr;
    brokerGuids ← read_field unpackStringArray;
    clientGuids ← read_field unpackStringArray;
    payload ← read_field unpackRaw;
    specific ← read_specific type;
    let m := m <| dm_sourceBrokerGuid := sourceBrokerGuid |> <| dm_brokerGuids := brokerGuids |> <| dm_clientGuids := clientGuids |>
               <| dm_payload := Payload payload |> <| dm_specificData := specific |> in
    read_versioned version m
  end.
(** What is left of the buffer is ignored. *)
Definition createDxlMessageFromBytes (bytes : string) : dxl_message_error_t + dxl_message_t :=
  match read_message bytes with inl e => inl e | inr (m, _) => inr m end.
End wire.

(** ** The class [DxlMessage]

    [None] for a set that has not been made. *)

Record DxlMessage := mk_DxlMessage {
  dx_msg : dxl_message_t; dx_isDirty : bool; dx_destBrokerGuids : option (gset string); dx_destClientGuids : option (gset string);
  dx_nextBrokerGuids : option (gset string); dx_otherFields : option (gmap string string); dx_otherFieldsPending : bool;
  dx_destTenantGuids : option (gset string) }.
#[export] Instance eta_DxlMessage : Eta DxlMessage := λ r,
  mk_DxlMessage (dx_msg r) (dx_isDirty r) (dx_destBrokerGuids r) (dx_destClientGuids r) (dx_nextBrokerGuids r)
    (dx_otherFields r) (dx_otherFieldsPending r) (dx_destTenantGuids r).
Definition DxlMessage_new (msg : dxl_message_t) : DxlMessage := mk_DxlMessage msg false None None None None false None.

Definition isRequestMessage (d : DxlMessage) : bool := bool_decide (dm_messageType (dx_msg d) = DXLMP_REQUEST).
Definition isEventMessage (d : DxlMessage) : bool := bool_decide (dm_messageType (dx_msg d) = DXLMP_EVENT).
Definition isErrorMessage (d : DxlMessage) : bool := bool_decide (dm_messageType (dx_msg d) = DXLMP_RESPONSE_ERROR).

(** A change of the structure, which marks the message. *)
Definition markDirty (f : dxl_message_t → dxl_message_t) (d : DxlMessage) : DxlMessage := d <| dx_msg ::= f |> <| dx_isDirty := true |>.

Definition setSourceBrokerGuid (v : option string) : DxlMessage → DxlMessage := markDirty (setDxlMessageSourceBrokerGuid v).
Definition setSourceClientId (v : option string) : DxlMessage → DxlMessage := markDirty (setDxlMessageSourceClientId v).
Definition setSourceClientInstanceId (v : option string) : DxlMessage → DxlMessage := markDirty (setDxlMessageSourceClientInstanceId v).
Definition setSourceTenantGuid (v : option string) : DxlMessage → DxlMessage := markDirty (setDxlMessageSourceTenantGuid v).
Definition getSourceClientInstanceId (d : DxlMessage) : string :=
  if String.eqb (dm_sourceClientInstanceId (dx_msg d)) "" then dm_sourceClientId (dx_msg d) else dm_sourceClientInstanceId (dx_msg d).

Definition setPayload (bytes : string) (d : DxlMessage) : option DxlMessage :=
  m ← setDxlMessagePayload bytes (dx_msg d); Some (markDirty (λ _, m) d).
(** [getPayloadStr]; [None] when the bytes are gone. *)
Definition getPayloadStr (d : DxlMessage) : option string :=
  match dm_payload (dx_msg d) with PayloadNull => Some "" | Payload b => Some b | PayloadFreed O => Some "" | PayloadFreed _ => None end.

(** A set made once, from a nonempty array. *)
Definition guid_set (made : option (gset string)) (l : list string) : option (gset string) :=
  match made, l with Some s, _ => Some s | None, [] => None | None, _ => Some (list_to_set l) end.

Definition getDestinationBrokerGuids (d : DxlMessage) : option (gset string) * DxlMessage :=
  let s := guid_set (dx_destBrokerGuids d) (dm_brokerGuids (dx_msg d)) in (s, d <| dx_destBrokerGuids := s |>).
Definition getDestinationClientGuids (d : DxlMessage) : option (gset string) * DxlMessage :=
  let s := guid_set (dx_destClientGuids d) (dm_clientGuids (dx_msg d)) in (s, d <| dx_destClientGuids := s |>).
Definition getDestinationTenantGuids (d : DxlMessage) : option (gset string) * DxlMessage :=
  let s := guid_set (dx_destTenantGuids d) (dm_tenantGuids (dx_msg d)) in (s, d <| dx_destTenantGuids := s |>).

Definition setDestinationBrokerGuid (guid : string) (d : DxlMessage) : DxlMessage :=
  markDirty (setDxlMessageBrokerGuids [guid]) (d <| dx_destBrokerGuids := None |> <| dx_nextBrokerGuids := None |>).
Definition setDestinationClientGuid (guid : string) (d : DxlMessage) : DxlMessage :=
  markDirty (setDxlMessageClientGuids [guid]) (d <| dx_destClientGuids := None |>).
Definition setDestinationTenantGuids (guids : list string) (d : DxlMessage) : DxlMessage :=
  markDirty (setDxlMessageTenantGuids guids) (d <| dx_destTenantGuids := None |>).

(** [unordered_map::insert] keeps the value of a key that is there. *)
Definition insert_new (name value : string) (m : gmap string string) : gmap string string :=
  match m !! name with Some _ => m | None => <[name := value]> m end.
(** Name and value alternate. *)
Fixpoint field_pairs (l : list string) (m : gmap string string) : gmap string string :=
  match l with n :: v :: l' => field_pairs l' (insert_new n v m) | _ => m end.
Definition getOtherFields (d : DxlMessage) : option (gmap string string) * DxlMessage :=
  let l := dm_otherFields (dx_msg d) in
  let s := match dx_otherFields d, l with
           | Some m, _ => Some m
           | None, [] => None
           | None, _ => if Nat.even (length l) then Some (field_pairs l ∅) else None
           end in
  (s, d <| dx_otherFields := s |>).
Definition setOtherField (name value : string) (d : DxlMessage) : DxlMessage :=
  let '(fields, d) := getOtherFields d in
  markDirty id (d <| dx_otherFields := Some (insert_new name value (default ∅ fields)) |> <| dx_otherFieldsPending := true |>).
Definition getOtherField (name : string) (d : DxlMessage) : option string * DxlMessage :=
  let '(fields, d) := getOtherFields d in (fields ≫= λ m, m !! name, d).

Section dxl_messages.
Context `{HashOrder} `{MsgPack}.

Definition onPreToBytes (d : DxlMessage) : DxlMessage :=
  if dx_otherFieldsPending d then
    let d := d <| dx_otherFieldsPending := false |> in
    match dx_otherFields d with
    | Some m => if bool_decide (m = ∅) then d
                else d <| dx_msg ::= setDxlMessageOtherFields (flat_map (λ k, [cstr k; cstr (default "" (m !! k))]) (hash_order (dom m))) |>
    | None => d
    end
  else d.

(** [DxlMessageService::toBytes] and [fromBytes]. *)
Definition toBytes (stripClientGuids : bool) (d : DxlMessage) : option (string * DxlMessage) :=
  let d := onPreToBytes d in
  bytes ← dxlMessageToBytes stripClientGuids (dx_msg d); Some (bytes, d).
Definition fromBytes (bytes : string) : option DxlMessage :=
  match createDxlMessageFromBytes bytes with inr m => Some (DxlMessage_new m) | inl _ => None end.
End dxl_messages.

(** *** Requests and responses ([DxlRequest.cpp], [DxlResponse.cpp], [DxlErrorResponse.cpp]) *)

Definition getReplyToTopic (d : DxlMessage) : string :=
  match dm_specificData (dx_msg d) with requestData r _ => r | _ => "" end.
Definition getDestinationServiceId (d : DxlMessage) : string :=
  match dm_specificData (dx_msg d) with
  | requestData _ s | responseData _ s | responseErrorData _ s _ _ => s
  | eventData => ""
  end.
Definition setDestinationServiceId (s : string) : DxlMessage → DxlMessage :=
  markDirty (λ m, match dm_messageType m with
                  | DXLMP_REQUEST => setDxlRequestMessageAttributes service_instance_id s m
                  | _ => setDxlResponseMessageServiceId s m
                  end).
Definition getErrorCode (d : DxlMessage) : Z :=
  match dm_specificData (dx_msg d) with responseErrorData _ _ _ code => u32 code | _ => 0 end.

(** The constructor from a request: where the response goes. *)
Definition DxlResponse_new (request : DxlMessage) (msg : dxl_message_t) : DxlMessage :=
  let d := DxlMessage_new msg in
  let sourceBrokerGuid := dm_sourceBrokerGuid (dx_msg request) in
  let d := if String.eqb sourceBrokerGuid "" then d else setDestinationBrokerGuid sourceBrokerGuid d in
  let sourceClientId := getSourceClientInstanceId request in
  let d := if String.eqb sourceClientId "" then d else setDestinationClientGuid sourceClientId d in
  let serviceId := getDestinationServiceId request in
  if String.eqb serviceId "" then d else setDestinationServiceId serviceId d.

(** ** Creation ([messageinterface.cpp], [DxlMessageService.cpp])

    [None] where the source throws; [uuid] is the identifier of the message. *)

Definition createMessage (type : dxl_message_type_t) (uuid clientId clientInstanceId : string) (msgId : option string) : option dxl_message_t :=
  if String.eqb clientId "" then None else Some (createDxlMessage uuid type clientId (Some clientInstanceId) msgId).
Definition createRequestMessage (uuid clientId clientInstanceId : string) (msgId : option string) (replyToTopic : string) : option dxl_message_t :=
  setDxlRequestMessageAttributes reply_to_topic replyToTopic <$> createMessage DXLMP_REQUEST uuid clientId clientInstanceId msgId.
Definition createEventMessage (uuid clientId clientInstanceId : string) (msgId : option string) : option dxl_message_t :=
  createMessage DXLMP_EVENT uuid clientId clientInstanceId msgId.
Definition createResponseMessage (uuid clientId clientInstanceId requestId : string) : option dxl_message_t :=
  setDxlResponseMessageAttributes requestId <$> createMessage DXLMP_RESPONSE uuid clientId clientInstanceId None.
Definition createErrorResponseMessage (uuid clientId clientInstanceId requestId : string) (errorCode : Z) (errorMessage : string) : option dxl_message_t :=
  (λ m, setDxlErrorResponseMessageAttributes (i32 errorCode) errorMessage (setDxlResponseMessageAttributes requestId m))
    <$> createMessage DXLMP_RESPONSE_ERROR uuid clientId clientInstanceId None.

Section creation.
Context (settings : BrokerSettings).

(** [BrokerSettings::getTenantGuid( false )]. *)
Definition tenant_or_null : option string := if String.eqb (set_tenantGuid settings) "" then None else Some (set_tenantGuid settings).
Definition from_broker (d : DxlMessage) : DxlMessage :=
  setSourceTenantGuid tenant_or_null (setSourceBrokerGuid (Some (set_guid settings)) d).
Definition createEvent (uuid : string) : option DxlMessage :=
  from_broker ∘ DxlMessage_new <$> createEventMessage uuid (set_guid settings) (set_guid settings) None.
Definition createRequest (uuid : string) (messageId : option string) (replyToTopic : string) : option DxlMessage :=
  from_broker ∘ DxlMessage_new <$> createRequestMessage uuid (set_guid settings) (set_guid settings) messageId replyToTopic.
Definition createResponse (uuid : string) (request : DxlMessage) : option DxlMessage :=
  from_broker ∘ DxlResponse_new request <$> createResponseMessage uuid (set_guid settings) (set_guid settings) (dm_messageId (dx_msg request)).
Definition createErrorResponse (uuid : string) (request : DxlMessage) (errorCode : Z) (errorMessage : string) : option DxlMessage :=
  from_broker ∘ DxlResponse_new request
    <$> createErrorResponseMessage uuid (set_guid settings) (set_guid settings) (dm_messageId (dx_msg request)) errorCode errorMessage.
End creation.

(** [getMessage] of [dxl_error_message.cpp]. *)
Definition FABRICSERVICEUNAVAILABLE : Z := 0x80000001.
Definition FABRICSERVICEOVERLOADED : Z := 0x80000002.
Definition FABRICTIMEOUTRESPONSE : Z := 0x80000003.
Definition FABRICSERVICELIMITEXCEEDED : Z := 0x80000011.
Definition FABRICSUBLIMITEXCEEDED : Z := 0x80000012.
Definition getMessage (errorNumber : Z) : string :=
  if errorNumber =? FABRICSERVICEUNAVAILABLE then "unable to locate service for request"
  else if errorNumber =? FABRICSERVICEOVERLOADED then "service is overloaded"
  else if errorNumber =? FABRICTIMEOUTRESPONSE then "response timeout"
  else if errorNumber =? FABRICSERVICELIMITEXCEEDED then "service limit exceeded"
  else if errorNumber =? FABRICSUBLIMITEXCEEDED then "subscription limit exceeded"
  else "unknown error code".
