(* ===== verification/DxlMessageProofs.v ===== *)
(** * DXL messages survive the wire

    Reading inverts writing, for every version of the wire format, given what
    the MessagePack library promises ([MsgPackLaws]); and what the setters of
    [DxlMessage] leave in a message. *)

From S2P Require Import Prelude Fabric Metrics DxlMessages.
From stdpp Require Import options.

(** An object that is packed is the next object of the buffer. *)
Class MsgPackLaws `{MsgPack} := {
  next_int32 z rest : -2 ^ 31 <= z < 2 ^ 31 →
    ∃ o, msgpack_unpacker_next (msgpack_pack_int32 z +:+ rest) = Some (o, rest) ∧
      (o = MSGPACK_OBJECT_POSITIVE_INTEGER z ∨ o = MSGPACK_OBJECT_NEGATIVE_INTEGER z);
  next_int8 z rest : -128 <= z < 128 →
    ∃ o, msgpack_unpacker_next (msgpack_pack_int8 z +:+ rest) = Some (o, rest) ∧
      (o = MSGPACK_OBJECT_POSITIVE_INTEGER z ∨ o = MSGPACK_OBJECT_NEGATIVE_INTEGER z);
  next_raw s rest : str_len s < 2 ^ 32 →
    msgpack_unpacker_next (msgpack_pack_v4raw (str_len s) +:+ msgpack_pack_v4raw_body s +:+ rest) = Some (MSGPACK_OBJECT_STR s, rest);
  next_array l rest : Z.of_nat (length l) < 2 ^ 32 → Forall (λ s, str_len s < 2 ^ 32) l →
    msgpack_unpacker_next (msgpack_pack_array (Z.of_nat (length l)) +:+ pack_strings l +:+ rest)
      = Some (MSGPACK_OBJECT_ARRAY (map MSGPACK_OBJECT_STR l), rest) }.

(** ** What fits the wire *)

(** A C string of a length the format can express. *)
Definition string_ok (s : string) : Prop := cstr s = s ∧ str_len s < 2 ^ 32.
Definition strings_ok (l : list string) : Prop := Forall string_ok l ∧ Z.of_nat (length l) < 2 ^ 32.
Definition specific_ok (d : dxl_message_specific) : Prop :=
  match d with
  | requestData r s | responseData r s => string_ok r ∧ string_ok s
  | eventData => True
  | responseErrorData r s e code => string_ok r ∧ string_ok s ∧ string_ok e ∧ -2 ^ 31 <= code < 2 ^ 31
  end.
Definition payload_bytes (p : payload_ptr) : string := match p with Payload b => b | _ => "" end.
Record wire_ok (m : dxl_message_t) : Prop := {
  wk_version : 0 <= dm_version m < 2 ^ 31;
  wk_messageId : string_ok (dm_messageId m);
  wk_sourceClientId : string_ok (dm_sourceClientId m);
  wk_sourceBrokerGuid : string_ok (dm_sourceBrokerGuid m);
  wk_brokerGuids : strings_ok (dm_brokerGuids m);
  wk_clientGuids : strings_ok (dm_clientGuids m);
  wk_payload : (∀ n, dm_payload m ≠ PayloadFreed n) ∧ str_len (payload_bytes (dm_payload m)) < 2 ^ 32;
  wk_specific : specific_ok (dm_specificData m);
  wk_otherFields : strings_ok (dm_otherFields m);
  wk_sourceTenantGuid : string_ok (dm_sourceTenantGuid m);
  wk_tenantGuids : strings_ok (dm_tenantGuids m);
  wk_sourceClientInstanceId : string_ok (dm_sourceClientInstanceId m) }.

(** What arrives: the fields of the version it was written with, as a message of
    the current version; without the client identifiers if they were stripped. *)
Definition wire_view (strip : bool) (m : dxl_message_t) : dxl_message_t :=
  let v := dm_version m in
  mk_dxl_message_t DXL_MSG_VERSION (dm_messageId m) (dm_sourceClientId m) (dm_sourceBrokerGuid m) (dm_brokerGuids m)
    (if strip then [] else dm_clientGuids m) (Payload (payload_bytes (dm_payload m))) (dm_specificData m)
    (if 0 <? v then dm_otherFields m else []) (if 1 <? v then dm_sourceTenantGuid m else "")
    (if 1 <? v then dm_tenantGuids m else []) (if 2 <? v then dm_sourceClientInstanceId m else "").

#[local] Set Default Proof Using "Type*".

Section wire_proofs.
Context `{MsgPackLaws}.

(** ** Each field is read back *)

(** [m] reads [a] off what [packed] put there. *)
Definition reads {A} (m : unpacker A) (packed : string) (a : A) : Prop := ∀ rest, m (packed +:+ rest) = inr (a, rest).

Lemma reads_bind {A B} (m : unpacker A) (k : A → unpacker B) p q a b :
  reads m p a → reads (k a) q b → reads (m ≫= k) (p +:+ q) b.
Proof. intros Hm Hk rest. unfold mbind, unpacker_bind. by rewrite str_app_assoc, Hm. Qed.
Lemma reads_ret {A} (a : A) : reads (mret a) "" a.
Proof. by intros rest. Qed.
Lemma reads_bind_ret {A B} (m : unpacker A) (f : A → B) p a : reads m p a → reads (x ← m; mret (f x)) p (f a).
Proof. intros Hm. rewrite <-(str_app_nil_r p). eapply reads_bind; [exact Hm|apply reads_ret]. Qed.
Lemma reads_field {A} (m : unpacker A) p a : reads m p a → reads (read_field m) p a.
Proof. intros Hm rest. unfold read_field. by rewrite Hm. Qed.

Lemma reads_int32 z : -2 ^ 31 <= z < 2 ^ 31 → reads unpackInt (msgpack_pack_int32 z) z.
Proof.
  intros Hz rest. destruct (next_int32 z rest Hz) as (o & Ho & Ho'). unfold unpackInt, mbind, unpacker_bind, unpacker_next. rewrite Ho.
  assert (i32 z = z) as Hi by (unfold i32; rewrite Z.mod_small; lia). by destruct Ho' as [-> | ->]; unfold mret, unpacker_ret; rewrite Hi.
Qed.
Lemma reads_int8 z : -128 <= z < 128 → reads unpackInt (msgpack_pack_int8 z) z.
Proof.
  intros Hz rest. destruct (next_int8 z rest Hz) as (o & Ho & Ho'). unfold unpackInt, mbind, unpacker_bind, unpacker_next. rewrite Ho.
  assert (i32 z = z) as Hi by (unfold i32; rewrite Z.mod_small; lia). by destruct Ho' as [-> | ->]; unfold mret, unpacker_ret; rewrite Hi.
Qed.
Lemma reads_uint32 z : 0 <= z < 2 ^ 31 → reads unpackUInt32 (msgpack_pack_int32 z) z.
Proof.
  intros Hz rest. destruct (next_int32 z rest) as (o & Ho & Ho'); [lia|]. unfold unpackUInt32, mbind, unpacker_bind, unpacker_next. rewrite Ho.
  assert (u32 z = z) as Hi by (apply u32_id; lia). by destruct Ho' as [-> | ->]; unfold mret, unpacker_ret; rewrite Hi.
Qed.
Lemma reads_raw s : str_len s < 2 ^ 32 → reads unpackRaw (pack_string s) s.
Proof.
  intros Hs rest. unfold unpackRaw, mbind, unpacker_bind, unpacker_next, pack_string. rewrite str_app_assoc. by rewrite (next_raw s rest Hs).
Qed.
Lemma reads_cstr s : string_ok s → reads read_cstr (pack_string s) s.
Proof. intros [Hc Hs]. unfold read_cstr. rewrite <-Hc at 2. by apply (reads_bind_ret _ cstr), reads_field, reads_raw. Qed.

Lemma unpack_packed l : Forall string_ok l → unpack_strings (map MSGPACK_OBJECT_STR l) = Some l.
Proof. induction 1 as [|s l [Hc _] _ IH]; [done|]. cbn. by rewrite IH, Hc. Qed.
Lemma reads_array l : strings_ok l → reads (read_field unpackStringArray) (pack_string_array l) l.
Proof.
  intros [Hl Hn]. apply reads_field. intros rest. unfold unpackStringArray, mbind, unpacker_bind, unpacker_next, pack_string_array.
  rewrite str_app_assoc, next_array; [|done|]; [by rewrite unpack_packed|]. eapply Forall_impl; [exact Hl|]. by intros s [_ ?].
Qed.

Lemma reads_specific d : specific_ok d →
  reads (read_specific (match d with requestData _ _ => DXLMP_REQUEST | responseData _ _ => DXLMP_RESPONSE
    | eventData => DXLMP_EVENT | responseErrorData _ _ _ _ => DXLMP_RESPONSE_ERROR end)) (pack_specific d) d.
Proof.
  destruct d as [r s|r s| |r s e code]; cbn [specific_ok read_specific pack_specific].
  - intros [Hr Hs]. eapply reads_bind; [by apply reads_cstr|]. by apply (reads_bind_ret _ (requestData r)), reads_cstr.
  - intros [Hr Hs]. eapply reads_bind; [by apply reads_cstr|]. by apply (reads_bind_ret _ (responseData r)), reads_cstr.
  - intros _. apply reads_ret.
  - intros (Hr & Hs & He & Hc). eapply reads_bind; [by apply reads_cstr|]. eapply reads_bind; [by apply reads_cstr|].
    eapply reads_bind; [by apply reads_field, reads_int32|]. by apply (reads_bind_ret _ (λ e, responseErrorData r s e code)), reads_cstr.
Qed.

Lemma reads_if {A} (b : bool) (m : unpacker A) p a a' : (b = true → reads m p a) → (b = false → a = a') →
  reads (if b then m else mret a') (if b then p else "") a.
Proof. destruct b; [by auto|]. intros _ ->; [apply reads_ret|done]. Qed.

Lemma type_code_of t : message_type_of (type_code t) = Some t.
Proof. by destruct t. Qed.

(** ** The message is read back *)

Lemma reads_message strip m : wire_ok m →
  ∃ bytes, dxlMessageToBytes strip m = Some bytes ∧ reads read_message bytes (wire_view strip m).
Proof.
  intros Hok. destruct (wk_payload _ Hok) as [Hfreed Hlen].
  assert (pack_payload (dm_payload m) = Some (pack_string (payload_bytes (dm_payload m)))) as Hp.
  { destruct (dm_payload m) as [|b|n]; [done|done|]. by destruct (Hfreed n). }
  unfold dxlMessageToBytes. rewrite Hp. cbn [mbind option_bind]. eexists. split; [done|]. unfold read_message.
  assert (i32 (dm_version m) = dm_version m) as -> by (pose proof (wk_version _ Hok); unfold i32; rewrite Z.mod_small; lia).
  eapply reads_bind; [apply reads_field, reads_uint32, Hok|]. eapply reads_bind; [apply reads_field, reads_int8|].
  { destruct (dm_messageType m); cbn; lia. }
  rewrite type_code_of. eapply reads_bind; [apply reads_cstr, Hok|]. eapply reads_bind; [apply reads_cstr, Hok|]. cbv zeta.
  eapply reads_bind; [apply reads_cstr, Hok|]. eapply reads_bind; [apply reads_array, Hok|].
  eapply reads_bind; [apply (reads_array (if strip then [] else dm_clientGuids m))|].
  { destruct strip; [|apply Hok]. split; [constructor|done]. }
  eapply reads_bind; [apply reads_field, reads_raw, Hlen|]. eapply reads_bind; [apply reads_specific, Hok|].
  eapply reads_bind.
  { eapply (reads_if _ _ _ (createDxlMessage _ _ _ _ _ <| dm_sourceBrokerGuid := _ |> <| dm_brokerGuids := _ |> <| dm_clientGuids := _ |>
      <| dm_payload := _ |> <| dm_specificData := _ |> <| dm_otherFields := if 0 <? dm_version m then dm_otherFields m else [] |>)).
    - intros ->. apply (reads_bind_ret _ (λ o, _ <| dm_otherFields := o |>)). apply reads_array, Hok.
    - intros ->. reflexivity. }
  eapply reads_bind.
  { eapply (reads_if _ _ _ (_ <| dm_sourceTenantGuid := if 1 <? dm_version m then dm_sourceTenantGuid m else "" |>
      <| dm_tenantGuids := if 1 <? dm_version m then dm_tenantGuids m else [] |>)).
    - intros ->. eapply reads_bind; [apply reads_cstr, Hok|]. apply (reads_bind_ret _ (λ g, _ <| dm_tenantGuids := g |>)). apply reads_array, Hok.
    - intros ->. reflexivity. }
  eapply (reads_if _ _ _ (wire_view strip m)); intros Hv.
  - replace (wire_view strip m) with (wire_view strip m <| dm_sourceClientInstanceId := dm_sourceClientInstanceId m |>) by (unfold wire_view; cbn; by rewrite Hv).
    exact (reads_bind_ret read_cstr (λ i, wire_view strip m <| dm_sourceClientInstanceId := i |>) _ _ (reads_cstr _ (wk_sourceClientInstanceId m Hok))).
  - unfold wire_view. cbn. by rewrite Hv.
Qed.

(** C26: a message that is written can be read: [createDxlMessageFromBytes] gives
    back what [dxlMessageToBytes] wrote, whatever follows it in the buffer: every
    field of the version the message was written with, as a message of the current
    version, and no client identifiers if they were to be stripped. Strings must be
    C strings and lengths fit 32 bits; the payload must not have been freed. *)
Theorem dxl_message_roundtrip strip m rest : wire_ok m → ∃ bytes,
  dxlMessageToBytes strip m = Some bytes ∧ createDxlMessageFromBytes (bytes +:+ rest) = inr (wire_view strip m).
Proof.
  intros Hok. destruct (reads_message strip m Hok) as (bytes & Hbytes & Hread). exists bytes. split; [done|].
  unfold createDxlMessageFromBytes. by rewrite Hread.
Qed.
End wire_proofs.

(** ** The messages of the broker *)

Section creation_proofs.
Context `{HashOrder} (settings : BrokerSettings).

Lemma string_ok_nil : string_ok "".
Proof. done. Qed.
Lemma strings_ok_nil : strings_ok [].
Proof. split; [constructor|done]. Qed.
Lemma strings_ok_one s : string_ok s → strings_ok [s].
Proof. intros Hs. split; [by apply Forall_singleton|done]. Qed.
Lemma service_id_ok d : specific_ok (dm_specificData (dx_msg d)) → string_ok (getDestinationServiceId d).
Proof. unfold getDestinationServiceId. destruct (dm_specificData (dx_msg d)); cbn; [tauto|tauto|done|tauto]. Qed.
Lemma instance_id_ok d : wire_ok (dx_msg d) → string_ok (getSourceClientInstanceId d).
Proof. intros [] . unfold getSourceClientInstanceId. by destruct (String.eqb _ _). Qed.

Definition settings_ok : Prop := string_ok (set_guid settings) ∧ string_ok (set_tenantGuid settings).

(** The message of this broker to the brokers and the clients named: its own
    identifier is that of the source's broker, client and connection, the tenant is
    its own, and there is no payload. *)
Definition own_message (messageId : string) (brokers clients : list string) (specific : dxl_message_specific) : dxl_message_t :=
  mk_dxl_message_t 3 messageId (set_guid settings) (set_guid settings) brokers clients PayloadNull specific [] (set_tenantGuid settings) [] (set_guid settings).
(** Who a response goes to: the source of the request, as far as it is named. *)
Definition named (guid : string) : list string := if String.eqb guid "" then [] else [guid].
Definition own_reply (uuid : string) (request : DxlMessage) (specific : dxl_message_specific) : dxl_message_t :=
  own_message uuid (named (dm_sourceBrokerGuid (dx_msg request))) (named (getSourceClientInstanceId request)) specific.

Lemma named_ok guid : string_ok guid → strings_ok (named guid).
Proof. intros Hg. unfold named. destruct (String.eqb guid ""); [apply strings_ok_nil|by apply strings_ok_one]. Qed.
Lemma own_message_ok messageId brokers clients specific : settings_ok → string_ok messageId → strings_ok brokers → strings_ok clients →
  specific_ok specific → wire_ok (own_message messageId brokers clients specific).
Proof. intros [Hg Ht] Hid Hb Hc Hs. constructor; cbn; try done; [apply strings_ok_nil..]. Qed.
Lemma own_reply_ok uuid request specific : settings_ok → string_ok uuid → wire_ok (dx_msg request) → specific_ok specific → wire_ok (own_reply uuid request specific).
Proof. intros Hs Hu Hreq Hspec. apply own_message_ok; try done; apply named_ok; [apply Hreq|by apply instance_id_ok]. Qed.

(** What the creation ends with, whatever the message is. *)
Lemma from_broker_fields d messageId brokers clients specific :
  dx_msg d = createDxlMessage messageId DXLMP_EVENT (set_guid settings) (Some (set_guid settings)) None
    <| dm_brokerGuids := brokers |> <| dm_clientGuids := clients |> <| dm_specificData := specific |> →
  dx_msg (from_broker settings d) = own_message messageId brokers clients specific.
Proof.
  intros Hd. unfold from_broker, setSourceTenantGuid, setSourceBrokerGuid, markDirty, tenant_or_null. cbn. rewrite Hd.
  destruct (String.eqb_spec (set_tenantGuid settings) "") as [He|]; [by unfold own_message; rewrite He|done].
Qed.
Lemma response_fields request m service : dm_brokerGuids m = [] → dm_clientGuids m = [] → dm_specificData m = service "" →
  dm_specificData (setDxlResponseMessageServiceId (getDestinationServiceId request) m) = service (getDestinationServiceId request) →
  dm_messageType m ≠ DXLMP_REQUEST →
  dx_msg (DxlResponse_new request m) = m <| dm_brokerGuids := named (dm_sourceBrokerGuid (dx_msg request)) |>
    <| dm_clientGuids := named (getSourceClientInstanceId request) |> <| dm_specificData := service (getDestinationServiceId request) |>.
Proof.
  destruct m as [v mid sc sb bg cg pl sp ofs st tg si]. unfold dm_messageType. cbn. intros -> -> -> Hset Htype. unfold DxlResponse_new, named.
  destruct (String.eqb (dm_sourceBrokerGuid (dx_msg request)) ""), (String.eqb (getSourceClientInstanceId request) "");
    (destruct (String.eqb_spec (getDestinationServiceId request) "") as [He|]; [by rewrite He|]);
    unfold setDestinationServiceId, setDestinationBrokerGuid, setDestinationClientGuid, markDirty, dm_messageType; cbn;
    unfold setDxlResponseMessageServiceId in *; cbn in *; destruct (service ""); cbn in *; by rewrite <-?Hset.
Qed.

(** [o] is the message [m], which is well formed, or nothing without an identifier. *)
Definition makes (o : option DxlMessage) (m : dxl_message_t) : Prop :=
  if String.eqb (set_guid settings) "" then o = None else ∃ e, o = Some e ∧ dx_msg e = m ∧ wire_ok m.

(** C27: what the broker says is what it means, and well formed: every response and
    every error that it makes for a well-formed request, whatever the error code, and
    every event and request of its own has the broker's identifier as the broker, the
    client and the connection that it comes from, the broker's tenant, an identifier
    of its own (but for a request that is given one) and no payload; a response names
    the request, its service, and the broker and the client that sent it, an error
    the code (as 32 bits) and the text, a request the topic of its reply. All of it
    keeps to what the wire format can express, so that [dxlMessageToBytes] does not
    fail and the receiver reads back what was written. Without an identifier the
    broker makes no message at all (the source throws). *)
Theorem broker_messages_well_formed uuid request code message messageId replyTo : settings_ok → string_ok uuid → string_ok message →
  string_ok replyTo → (∀ s, messageId = Some s → string_ok s) → wire_ok (dx_msg request) →
  makes (createResponse settings uuid request)
    (own_reply uuid request (responseData (dm_messageId (dx_msg request)) (getDestinationServiceId request))) ∧
  makes (createErrorResponse settings uuid request code message)
    (own_reply uuid request (responseErrorData (dm_messageId (dx_msg request)) (getDestinationServiceId request) message (i32 code))) ∧
  makes (createEvent settings uuid) (own_message uuid [] [] eventData) ∧
  makes (createRequest settings uuid messageId replyTo) (own_message (default uuid messageId) [] [] (requestData replyTo "")).
Proof.
  intros Hs Huuid Hmessage Hreply Hmsgid Hreq. pose proof (service_id_ok request (wk_specific _ Hreq)) as Hservice. pose proof (wk_messageId _ Hreq) as Hid.
  unfold makes, createResponse, createErrorResponse, createEvent, createRequest, createResponseMessage, createErrorResponseMessage, createEventMessage,
    createRequestMessage, createMessage. destruct (String.eqb (set_guid settings) ""); [done|].
  split_and!; eexists; (split; [reflexivity|]); unfold compose.
  - split; [|by apply own_reply_ok]. apply from_broker_fields.
    by rewrite (response_fields _ _ (λ s, responseData (dm_messageId (dx_msg request)) s)).
  - split; [|apply own_reply_ok; try done; split_and!; try done; apply i32_range]. apply from_broker_fields.
    by rewrite (response_fields _ _ (λ s, responseErrorData (dm_messageId (dx_msg request)) s message (i32 code))).
  - split; [by apply from_broker_fields|]. apply own_message_ok; try done; apply strings_ok_nil.
  - split; [|apply own_message_ok; try done; [|apply strings_ok_nil..]; destruct messageId as [s|]; [by apply Hmsgid|done]].
    rewrite <-(from_broker_fields (DxlMessage_new (createDxlMessage (default uuid messageId) DXLMP_EVENT (set_guid settings) (Some (set_guid settings)) None
      <| dm_specificData := requestData replyTo "" |>))); [|done]. by destruct messageId.
Qed.
End creation_proofs.
