(* ===== verification/MessageCore.v ===== *)
(** * The passage of a message through the broker library

    [brokerlib/core] and [brokerlib/message/handler]: the C core asks the
    library whether a client may publish, tells it of every stored message, asks
    for every destination whether it gets the message, and tells it when the
    message is gone ([CoreMessageHandlerService.cpp]). Between the second and
    the last call the library keeps a context of the message
    ([CoreMessageContext.cpp]). Handlers decide: who may send and receive
    ([AuthorizationHandler.cpp]), where a request goes
    ([ServiceLookupHandler.cpp]), which bridges and clients get a message
    ([MessageRoutingHandler.cpp]), what services register
    ([ServiceRegistry...Handler.cpp]). *)

From S2P Require Import Prelude Topic CoreUtil Authorization Fabric TopicCache Registry Metrics Services Configuration DxlMessages.
From stdpp Require Import options.

(** ** State *)

(** [CoreMessageContext]. *)
Record CoreMessageContext := mk_CoreMessageContext {
  cc_sourceId : string; cc_canonicalSourceId : string; cc_isSourceBridge : bool; cc_contextFlags : Z; cc_topic : string;
  cc_originalPayload : string; cc_dxlMessageParsed : bool; cc_dxlMessage : option DxlMessage; cc_messageInsertEnabled : bool;
  cc_serviceNotFoundEnabled : bool; cc_destCount : Z; cc_clientSpecificMessageGenerated : bool }.
#[export] Instance eta_CoreMessageContext : Eta CoreMessageContext := λ r,
  mk_CoreMessageContext (cc_sourceId r) (cc_canonicalSourceId r) (cc_isSourceBridge r) (cc_contextFlags r) (cc_topic r)
    (cc_originalPayload r) (cc_dxlMessageParsed r) (cc_dxlMessage r) (cc_messageInsertEnabled r)
    (cc_serviceNotFoundEnabled r) (cc_destCount r) (cc_clientSpecificMessageGenerated r).
Definition CoreMessageContext_new (sourceId canonicalSourceId : string) (isSourceBridge : bool) (contextFlags : Z)
    (topic payload : string) : CoreMessageContext :=
  mk_CoreMessageContext sourceId canonicalSourceId isSourceBridge contextFlags topic payload false None true true 0 false.

(** The library: the service registry (which holds the broker registry, the topic
    authorization and the tenants' counts), [CoreMessageHandlerService], what was
    handed to the core for sending (channel and bytes), the identifiers
    [generateMessageId] will make, and [CoreInterface]: the configuration of the
    bridges, the configurations that were handed to the core, and when the state of
    this broker was last sent. *)
Record Library := mk_Library {
  lib_services : ServiceRegistry; lib_contexts : gmap Z CoreMessageContext; lib_publishMessageCount : Z;
  lib_destinationMessageCount : Z; lib_messageTimingStart : Z; lib_outbox : list (string * string); lib_uuids : nat → string;
  lib_bridgeConfig : CoreBridgeConfiguration; lib_bridgeTasks : list CoreBridgeConfiguration; lib_lastLocalBrokerStateSend : Z }.
#[export] Instance eta_Library : Eta Library := λ r,
  mk_Library (lib_services r) (lib_contexts r) (lib_publishMessageCount r) (lib_destinationMessageCount r)
    (lib_messageTimingStart r) (lib_outbox r) (lib_uuids r) (lib_bridgeConfig r) (lib_bridgeTasks r) (lib_lastLocalBrokerStateSend r).

(** ** Code that may throw

    An exception leaves the changes made before it. *)

Inductive thrown := Thrown.
Definition EX (A : Type) : Type := ST Library (thrown + A).
#[export] Instance ex_ret : MRet EX := λ A a s, Some (inr a, s).
#[export] Instance ex_bind : MBind EX := λ A B k m s,
  match m s with
  | Some (inr a, s') => k a s'
  | Some (inl e, s') => Some (inl e, s')
  | None => None
  end.
Definition throw {A} : EX A := λ s, Some (inl Thrown, s).
Definition call {A} (m : ST Library A) : EX A := λ s, match m s with Some (a, s') => Some (inr a, s') | None => None end.
Definition of_option {A} (o : option A) : EX A := match o with Some a => mret a | None => throw end.
(** [try { m } catch( .. ) { h }]. *)
Definition catch {A} (m : EX A) (h : ST Library A) : ST Library A := λ s,
  match m s with Some (inr a, s') => Some (a, s') | Some (inl _, s') => h s' | None => None end.

(** Flags of a context ([DxlFlags.h]). *)
Definition DXL_FLAG_LOCAL : Z := 0x01.
Definition DXL_FLAG_ADMIN : Z := 0x02.
Definition DXL_FLAG_OPS : Z := 0x04.
Definition DXL_FLAG_MANAGED : Z := 0x80.
Definition has_flag (flags flag : Z) : bool := negb (Z.land flags flag =? 0).

Definition DXL_BROKER_REQUEST_PREFIX : string := "/mcafee/service/dxl/".
Definition DXL_CLIENT_PREFIX : string := "/mcafee/client/".
Definition DXL_CLIENT_PREFIX_BRACKET : string := DXL_CLIENT_PREFIX +:+ "{".

(** What is reported of a client's connection ([CoreInterface.h]). *)
Record ClientConnectionInfo := mk_ClientConnectionInfo {
  ci_tlsVersion : string; ci_cipher : string; ci_certThumbprint : string; ci_remoteAddress : string; ci_transport : string }.

(** *** What the payloads hold

    JSON is read by a library; [None] where it throws. *)
Class Json := {
  fromJson_service : Z → string → option ServiceRegistration;
  fromJson_serviceGuid : string → option string;
  fromJson_tenantLimit : string → option (string * tenant_limit);
  fromJson_brokerState : string → option (Broker * gset string * gset string);
  fromJson_topics : string → option (Z * list string);
  fromJson_topic : string → option string;
  toJson_eventSubscriberNotFound : string → string;
  toJson_brokerState : BrokerState → string;
  toJson_topics : Z → list string → Z → string;
  toJson_topic : string → string;
  toJson_fabricChange : string;
  toJson_clientConnect : string → ClientConnectionInfo → string }.

Section core.
Context (settings : BrokerSettings) (isInfoEnabled : bool) `{HashOrder} `{PtrOrder} `{MsgPack} `{Json}.

Definition on_services {A} (m : ST ServiceRegistry A) : ST Library A := λ l,
  match m (lib_services l) with Some (a, s) => Some (a, l <| lib_services := s |>) | None => None end.
Definition on_fabric {A} (m : ST BrokerRegistry A) : ST Library A := on_services (λ s,
  match m (sv_brokerRegistry s) with Some (a, r) => Some (a, s <| sv_brokerRegistry := r |>) | None => None end).
Definition new_uuid : ST Library string := λ l, Some (lib_uuids l 0%nat, l <| lib_uuids := λ n, lib_uuids l (S n) |>).

(** ** Contexts *)

Definition ctx_get (dbId : Z) : ST Library CoreMessageContext := deref (λ l, lib_contexts l !! dbId).
Definition ctx_upd (dbId : Z) (f : CoreMessageContext → CoreMessageContext) : ST Library () :=
  modify (λ l, l <| lib_contexts ::= alter f dbId |>).
Definition setMessageInsertEnabled (dbId : Z) (b : bool) : ST Library () := ctx_upd dbId (λ c, c <| cc_messageInsertEnabled := b |>).

Definition isSourceOps (c : CoreMessageContext) : bool := has_flag (cc_contextFlags c) DXL_FLAG_OPS.
Definition isLocalBrokerSource (c : CoreMessageContext) : bool := String.eqb (cc_sourceId c) (set_guid settings).
Definition isDxlBrokerServiceRequest (c : CoreMessageContext) : bool := String.prefix DXL_BROKER_REQUEST_PREFIX (cc_topic c).

Definition parseDxlMessage (dbId : Z) : ST Library () :=
  c ← ctx_get dbId;
  if cc_dxlMessageParsed c then mret tt
  else ctx_upd dbId (λ c, c <| cc_dxlMessageParsed := true |> <| cc_dxlMessage := fromBytes (cc_originalPayload c) |>).
Definition isDxlMessage (dbId : Z) : ST Library bool :=
  parseDxlMessage dbId;; c ← ctx_get dbId; mret (bool_decide (is_Some (cc_dxlMessage c))).
Definition getDxlMessage (dbId : Z) : EX DxlMessage :=
  call (parseDxlMessage dbId);; c ← call (ctx_get dbId); of_option (cc_dxlMessage c).
(** [getDxlRequest], [getDxlEvent], [getDxlErrorResponse]. *)
Definition getDxlMessage_of (is_type : DxlMessage → bool) (dbId : Z) : EX DxlMessage :=
  d ← getDxlMessage dbId; if is_type d then mret d else throw.
Definition msg_upd (dbId : Z) (f : DxlMessage → DxlMessage) : EX () :=
  d ← getDxlMessage dbId; call (ctx_upd dbId (λ c, c <| cc_dxlMessage := Some (f d) |>)).
(** A getter that makes a set of the message. *)
Definition msg_query {A} (dbId : Z) (f : DxlMessage → A * DxlMessage) : EX A :=
  d ← getDxlMessage dbId; call (ctx_upd dbId (λ c, c <| cc_dxlMessage := Some (f d).2 |>));; mret (f d).1.

(** *** Sending *)

Definition sendMessage (channel : string) (d : DxlMessage) : ST Library () :=
  r ← deref (λ _, toBytes false d); modify (λ l, l <| lib_outbox ::= λ o, o ++ [(channel, r.1)] |>).
Definition sendErrorMessage (errorCode : Z) (request : DxlMessage) : EX () :=
  uuid ← call new_uuid;
  d ← of_option (createErrorResponse settings uuid request errorCode (getMessage errorCode));
  call (sendMessage (getReplyToTopic request) d).
Definition sendServiceNotFoundErrorMessage : DxlMessage → EX () := sendErrorMessage FABRICSERVICEUNAVAILABLE.
Definition sendServiceOverloadedErrorMessage : DxlMessage → EX () := sendErrorMessage FABRICSERVICEOVERLOADED.

(** *** The next brokers ([DxlMessage::getNextBrokerGuids]) *)

Fixpoint next_brokers_loop (guids : list string) (next : gset string) : ST ServiceRegistry (gset string) :=
  match guids with
  | [] => mret next
  | g :: guids' =>
    n ← next_broker_of (set_guid settings) g;
    next_brokers_loop guids' (if String.eqb n "" then next else {[n]} ∪ next)
  end.
Definition getNextBrokerGuids (dbId : Z) : EX (option (gset string)) :=
  d ← getDxlMessage dbId;
  match dx_nextBrokerGuids d with
  | Some next => mret (Some next)
  | None =>
    dest ← msg_query dbId getDestinationBrokerGuids;
    match dest with
    | None => mret None
    | Some guids =>
      next ← call (on_services (next_brokers_loop (hash_order guids) ∅));
      msg_upd dbId (λ d, d <| dx_nextBrokerGuids := Some next |>);;
      mret (Some next)
    end
  end.

(** ** Authorization ([AuthorizationHandler.cpp]) *)

(** The identifier of the local broker's own client. *)
Definition client_id (contextFlags : Z) (canonicalId : string) : string :=
  if has_flag contextFlags DXL_FLAG_LOCAL then set_guid settings else canonicalId.
Definition auth_onPublishMessage (canonicalSourceId : string) (isBridge : bool) (contextFlags : Z) (topic : string)
    (certHashes : list string) : ST Library bool :=
  if isBridge then mret true
  else
    auth ← deref (λ l, sv_authorization (lib_services l));
    deref (λ _, if has_flag contextFlags DXL_FLAG_MANAGED then _isAuthorizedToPublish auth (client_id contextFlags canonicalSourceId) topic
                else isAuthorizedToPublish_certs auth certHashes topic).
Definition auth_onInsertMessage (dbId : Z) (canonicalDestId : string) (isBridge : bool) (contextFlags : Z)
    (certHashes : list string) : ST Library bool :=
  if isBridge then mret true
  else
    c ← ctx_get dbId;
    auth ← deref (λ l, sv_authorization (lib_services l));
    deref (λ _, if has_flag contextFlags DXL_FLAG_MANAGED then _isAuthorizedToSubscribe auth (client_id contextFlags canonicalDestId) (cc_topic c)
                else isAuthorizedToSubscribe_certs auth certHashes (cc_topic c)).

(** ** Requests ([ServiceLookupHandler.cpp]) *)

(** The topic itself, then the wildcards above it. *)
Fixpoint wildcard_service_loop (fuel : nat) (tenant wcTopic : string) : ST ServiceRegistry (option regptr) :=
  match fuel with
  | O => ub
  | S fuel' =>
    match iterateWildcardNext wcTopic with
    | None => mret None
    | Some wc => service ← getNextService settings wc tenant;
                 match service with Some p => mret (Some p) | None => wildcard_service_loop fuel' tenant wc end
    end
  end.
Definition findServiceForTopic (topic tenant : string) : ST ServiceRegistry (option regptr) :=
  service ← getNextService settings topic tenant;
  match service with
  | Some p => mret (Some p)
  | None => wildcard_service_loop (String.length topic + 2) tenant topic
  end.

Definition setRouting (r : ServiceRegistration) (d : DxlMessage) : DxlMessage :=
  setDestinationServiceId (sr_serviceGuid r) (setDestinationClientGuid (getClientInstanceGuid r) (setDestinationBrokerGuid (sr_brokerGuid r) d)).

Definition handleRequest (dbId : Z) : EX bool :=
  c ← call (ctx_get dbId);
  d ← getDxlMessage_of isRequestMessage dbId;
  let serviceId := getDestinationServiceId d in
  let hasServiceId := negb (String.eqb serviceId "") in
  hasRouting ← (if hasServiceId then
                  clients ← msg_query dbId getDestinationClientGuids;
                  match clients with
                  | None => mret false
                  | Some _ => brokers ← msg_query dbId getDestinationBrokerGuids; mret (bool_decide (is_Some brokers))
                  end
                else mret false);
  if (hasRouting : bool) then mret true
  else
    let tenant := dm_sourceTenantGuid (dx_msg d) in
    service ← (if hasServiceId then
                 service ← call (on_services (gets (findService_for settings serviceId tenant)));
                 (match service with
                  | None => if set_multiTenantModeEnabled settings then msg_upd dbId (setDestinationServiceId "") else mret tt
                  | Some _ => mret tt
                  end);;
                 mret service
               else call (on_services (findServiceForTopic (cc_topic c) tenant)));
    match service with
    | Some p =>
      r ← call (on_services (reg_get p));
      msg_upd dbId (setRouting r);;
      mret true
    | None =>
      d ← getDxlMessage dbId;
      sendServiceNotFoundErrorMessage d;;
      mret false
    end.

(** The prefix registered for the topic, or for a wildcard above it. *)
Fixpoint wildcard_prefix_loop (fuel : nat) (s : ServiceRegistry) (wcTopic : string) : option string :=
  match fuel with
  | O => None
  | S fuel' =>
    match iterateWildcardNext wcTopic with
    | None => Some ""
    | Some wc => let prefix := getRequestPrefixForEvent wc s in
                 if String.eqb prefix "" then wildcard_prefix_loop fuel' s wc else Some prefix
    end
  end.
Definition prefix_for (topic : string) (s : ServiceRegistry) : option string :=
  let prefix := getRequestPrefixForEvent topic s in
  if String.eqb prefix "" then wildcard_prefix_loop (String.length topic + 2) s topic else Some prefix.

Definition handleEvent (dbId : Z) : EX bool :=
  c ← call (ctx_get dbId);
  d ← getDxlMessage_of isEventMessage dbId;
  prefix ← call (on_services (deref (prefix_for (cc_topic c))));
  if String.eqb prefix "" then mret true
  else
    let requestTopic := prefix +:+ cc_topic c in
    let m := dx_msg d in
    service ← call (on_services (findServiceForTopic requestTopic (dm_sourceTenantGuid m)));
    match service with
    | None => mret true
    | Some p =>
      r ← call (on_services (reg_get p));
      uuid ← call new_uuid;
      request ← of_option (createRequest settings uuid (Some (dm_messageId m)) (DXL_CLIENT_PREFIX +:+ dm_sourceClientId m));
      let request := setRouting r (setSourceTenantGuid (Some (dm_sourceTenantGuid m))
        (setSourceClientInstanceId (Some (getSourceClientInstanceId d)) (setSourceClientId (Some (dm_sourceClientId m))
        (setSourceBrokerGuid (Some (dm_sourceBrokerGuid m)) request)))) in
      bytes ← call (deref (λ _, getPayloadStr d));
      request ← call (deref (λ _, setPayload bytes request));
      call (sendMessage requestTopic request);;
      mret true
    end.

Definition handleErrorResponse (dbId : Z) : EX bool :=
  c ← call (ctx_get dbId);
  d ← getDxlMessage_of isErrorMessage dbId;
  let serviceId := getDestinationServiceId d in
  if (getErrorCode d =? FABRICSERVICEUNAVAILABLE) && negb (String.eqb serviceId "") then
    service ← call (on_services (findService serviceId));
    match service with
    | None => mret true
    | Some p =>
      r ← call (on_services (reg_get p));
      (if cc_isSourceBridge c || has_flag (cc_contextFlags c) DXL_FLAG_LOCAL || String.eqb (sr_clientGuid r) (cc_canonicalSourceId c)
          || String.eqb (getClientInstanceGuid r) (cc_sourceId c)
       then call (on_services (unregisterService settings isInfoEnabled serviceId true)) else mret tt);;
      mret true
    end
  else mret true.

Definition lookup_onStoreMessage (dbId : Z) : EX bool :=
  dxl ← call (isDxlMessage dbId);
  if negb (dxl : bool) then mret true
  else
    d ← getDxlMessage dbId;
    c ← call (ctx_get dbId);
    s ← call (gets lib_services);
    if isRequestMessage d && negb (isDxlBrokerServiceRequest c) then handleRequest dbId
    else if bool_decide (sv_eventToRequestPrefix s ≠ ∅) && isEventMessage d && String.eqb (dm_sourceBrokerGuid (dx_msg d)) (set_guid settings)
    then handleEvent dbId
    else if isErrorMessage d then handleErrorResponse dbId
    else mret true.
End core.
