(* ===== verification/MessageService.v ===== *)
(** * Routing, registration and the message handler service

    The second half of the passage of a message: to which bridges and clients it
    goes ([MessageRoutingHandler.cpp]), requests without a destination
    ([NoRequestDestinationHandler.cpp], [NoEventDestinationHandler.cpp]), the
    messages addressed to the broker itself ([ServiceRegistry...Handler.cpp],
    [Tenant...Handler.cpp] and the fabric events), the table of handlers
    ([DxlMessageHandlers.cpp]) and the service that calls them
    ([CoreMessageHandlerService.cpp]). *)

From S2P Require Import Prelude Topic CoreUtil Authorization Fabric TopicCache Registry Metrics Services DxlMessages MessageCore.
From stdpp Require Import options.

(** A topic's handler ([CoreOnStoreMessageHandler]). *)
Record StoreHandler := mk_StoreHandler {
  sh_isBridgeSourceRequired : bool; sh_onStoreMessage : Z → list string → EX bool }.

(** The out-parameters of [onInsertMessage]. *)
Record client_out := mk_client_out { co_isClientMessageEnabled : bool; co_clientMessage : option string }.
#[export] Instance eta_client_out : Eta client_out := λ r, mk_client_out (co_isClientMessageEnabled r) (co_clientMessage r).

(** *** Topics ([DxlMessageConstants.cpp]) *)

Definition broker_event (s : string) : string := DXL_BROKER_EVENT_PREFIX +:+ s.
Definition broker_request (s : string) : string := DXL_BROKER_REQUEST_PREFIX +:+ s.
Definition CHANNEL_DXL_BROKER_STATE_EVENT := broker_event "brokerregistry/brokerstate".
Definition CHANNEL_DXL_BROKER_STATE_TOPICS_EVENT := broker_event "brokerregistry/brokerstatetopics".
Definition CHANNEL_DXL_BROKER_TOPIC_ADDED_EVENT := broker_event "brokerregistry/topicadded".
Definition CHANNEL_DXL_BROKER_TOPIC_REMOVED_EVENT := broker_event "brokerregistry/topicremoved".
Definition CHANNEL_DXL_DUMPBROKER_STATE_EVENT := broker_event "dumpbrokerstate".
Definition CHANNEL_DXL_DUMPSERVICE_STATE_EVENT := broker_event "dumpservicestate".
Definition CHANNEL_DXL_EVENT_SUBSCRIBER_NOT_FOUND_EVENT := broker_event "eventsubscribernotfound".
Definition CHANNEL_DXL_SVCREGISTRY_REGISTER_EVENT := broker_event "svcregistry/register".
Definition CHANNEL_DXL_SVCREGISTRY_UNREGISTER_EVENT := broker_event "svcregistry/unregister".
Definition CHANNEL_DXL_TENANT_LIMIT_EXCEEDED_EVENT := broker_event "tenant/limit/exceeded".
Definition CHANNEL_DXL_TENANT_LIMIT_RESET_EVENT := broker_event "tenant/limit/reset".
Definition CHANNEL_DXL_SVCREGISTRY_REGISTER_REQUEST := broker_request "svcregistry/register".
Definition CHANNEL_DXL_SVCREGISTRY_UNREGISTER_REQUEST := broker_request "svcregistry/unregister".

Section service.
Context (settings : BrokerSettings) (isInfoEnabled : bool) `{HashOrder} `{PtrOrder} `{MsgPack} `{Json}.

(** ** Routing ([MessageRoutingHandler.cpp]) *)

Definition getTenantGuid : EX string := if String.eqb (set_tenantGuid settings) "" then throw else mret (set_tenantGuid settings).

Definition onInsertMultiTenantMessage (dbId : Z) (targetContextFlags : Z) (targetTenantGuid : string) : EX bool :=
  dest ← msg_query dbId getDestinationTenantGuids;
  c ← call (ctx_get dbId);
  d ← getDxlMessage dbId;
  mret match dest with
       | Some guids => bool_decide (targetTenantGuid ∈ guids)
       | None => has_flag targetContextFlags DXL_FLAG_OPS || isSourceOps c || String.eqb targetTenantGuid (dm_sourceTenantGuid (dx_msg d))
       end.

(** Whether the message is for this client; the local broker's own client is
    also known by the broker's identifiers. *)
Definition client_listed (destId canonicalDestId : string) (contextFlags : Z) (guids : gset string) : bool :=
  bool_decide (destId ∈ guids) || bool_decide (canonicalDestId ∈ guids)
  || has_flag contextFlags DXL_FLAG_LOCAL && (bool_decide (set_guid settings ∈ guids) || bool_decide (set_instanceGuid settings ∈ guids)).

Definition routing_bridge (dbId : Z) (destId : string) : EX bool :=
  next ← getNextBrokerGuids settings dbId;
  match next with
  | Some guids => mret (bool_decide (destId ∈ guids))
  | None =>
    d ← getDxlMessage dbId;
    if set_topicRoutingEnabled settings && isEventMessage d then
      c ← call (ctx_get dbId);
      if String.prefix DXL_CLIENT_PREFIX_BRACKET (cc_topic c) || String.prefix DXL_BROKER_EVENT_PREFIX (cc_topic c) then mret true
      else call (on_fabric (isSubscriberInHierarchy settings (set_guid settings) destId (cc_topic c)))
    else mret true
  end.

Definition routing_client (dbId : Z) (destId canonicalDestId : string) (contextFlags : Z) (targetTenantGuid : string) (out : client_out)
    : EX (bool * client_out) :=
  brokers ← msg_query dbId getDestinationBrokerGuids;
  if match brokers with Some guids => negb (bool_decide (set_guid settings ∈ guids)) | None => false end then mret (false, out)
  else
    clients ← msg_query dbId getDestinationClientGuids;
    if match clients with Some guids => negb (client_listed destId canonicalDestId contextFlags guids) | None => false end then mret (false, out)
    else
      tenant_ok ← (if set_multiTenantModeEnabled settings then onInsertMultiTenantMessage dbId contextFlags targetTenantGuid else mret true);
      if negb (tenant_ok : bool) then mret (false, out)
      else
        d ← getDxlMessage dbId;
        if bool_decide (is_Some clients) && isEventMessage d then
          c ← call (ctx_get dbId);
          let out := out <| co_isClientMessageEnabled := true |> in
          if cc_clientSpecificMessageGenerated c then mret (true, out)
          else
            r ← call (deref (λ _, toBytes true d));
            call (ctx_upd dbId (λ c, c <| cc_dxlMessage := Some r.2 |> <| cc_clientSpecificMessageGenerated := true |>));;
            mret (true, out <| co_clientMessage := Some r.1 |>)
        else mret (true, out).

Definition routing_onInsertMessage (dbId : Z) (destId canonicalDestId : string) (isBridge : bool) (contextFlags : Z)
    (targetTenantGuid : string) (out : client_out) : EX (bool * client_out) :=
  dxl ← call (isDxlMessage dbId);
  if (dxl : bool) then
    if isBridge then b ← routing_bridge dbId destId; mret (b, out)
    else routing_client dbId destId canonicalDestId contextFlags targetTenantGuid out
  else mret (negb (set_multiTenantModeEnabled settings), out).

(** ** Messages without a destination *)

Definition noRequestDest_onFinalizeMessage (dbId : Z) : EX () :=
  c ← call (ctx_get dbId);
  dxl ← call (isDxlMessage dbId);
  if cc_serviceNotFoundEnabled c && (cc_destCount c =? 0) && dxl && cc_messageInsertEnabled c then
    d ← getDxlMessage dbId;
    if isRequestMessage d then sendServiceNotFoundErrorMessage settings d else mret tt
  else mret tt.

(** Registered in test mode only. *)
Definition noEventDest_onFinalizeMessage (dbId : Z) : EX () :=
  c ← call (ctx_get dbId);
  dxl ← call (isDxlMessage dbId);
  if (cc_destCount c =? 0) && dxl && cc_messageInsertEnabled c then
    d ← getDxlMessage dbId;
    let topic := cc_topic c in
    if negb (String.eqb (dm_sourceBrokerGuid (dx_msg d)) (set_guid settings)) && isEventMessage d
       && negb (String.prefix DXL_CLIENT_PREFIX_BRACKET topic) && negb (String.prefix DXL_BROKER_EVENT_PREFIX topic)
       && negb (String.eqb CHANNEL_DXL_EVENT_SUBSCRIBER_NOT_FOUND_EVENT topic)
    then
      uuid ← call new_uuid;
      evt ← of_option (createEvent settings uuid);
      evt ← call (deref (λ _, setPayload (toJson_eventSubscriberNotFound topic) evt));
      call (sendMessage CHANNEL_DXL_EVENT_SUBSCRIBER_NOT_FOUND_EVENT evt)
    else mret tt
  else mret tt.

(** ** Services ([ServiceRegistry...Handler.cpp]) *)

(** The registration a client asks for, with what the broker knows of it. *)
Definition client_registration (c : CoreMessageContext) (certHashes : list string) (sourceTenant : string)
    (destTenants : option (gset string)) (r : ServiceRegistration) : ServiceRegistration :=
  let local := has_flag (cc_contextFlags c) DXL_FLAG_LOCAL in
  let managed := has_flag (cc_contextFlags c) DXL_FLAG_MANAGED in
  let r := setBrokerGuid settings (set_guid settings) r in
  let r := r <| sr_clientGuid := if local then set_guid settings else cc_canonicalSourceId c |>
             <| sr_clientInstanceGuid := if local then set_instanceGuid settings else cc_sourceId c |>
             <| sr_managedClient := managed |> in
  let r := if managed then r else r <| sr_certificates := list_to_set certHashes |> in
  let r := if set_multiTenantModeEnabled settings
           then setClientTenantGuid settings sourceTenant r
                <| sr_targetTenantGuids := if negb (isSourceOps c) then {[sourceTenant]} else default ∅ destTenants |>
           else r in
  r <| sr_brokerService := local |>.

Definition registerRequest_onStoreMessage (dbId : Z) (certHashes : list string) : EX bool :=
  request ← getDxlMessage_of isRequestMessage dbId;
  json ← call (deref (λ _, getPayloadStr request));
  now ← call (on_services svc_time);
  payload ← of_option (fromJson_service now json);
  c ← call (ctx_get dbId);
  destTenants ← (if set_multiTenantModeEnabled settings then msg_query dbId getDestinationTenantGuids else mret None);
  let r := client_registration c certHashes (dm_sourceTenantGuid (dx_msg request)) destTenants payload in
  s ← call (gets lib_services);
  response ← (if negb (set_multiTenantModeEnabled settings) || isSourceOps c
                 || isServiceRegistrationAllowed settings (sr_clientTenantGuid r) (sv_metrics s) then
                p ← call (on_services (reg_new r));
                ok ← call (on_services (registerService settings isInfoEnabled p));
                uuid ← call new_uuid;
                of_option (if (ok : bool) then createResponse settings uuid request
                           else createErrorResponse settings uuid request FABRICSERVICEUNAVAILABLE
                                  (if String.eqb (sr_serviceGuid r) "" then "Empty service GUID" else "Service registration client/tenant GUID mismatch"))
              else uuid ← call new_uuid;
                   of_option (createErrorResponse settings uuid request FABRICSERVICELIMITEXCEEDED (getMessage FABRICSERVICELIMITEXCEEDED)));
  call (sendMessage (getReplyToTopic request) response);;
  mret false.

Definition registerEvent_onStoreMessage (dbId : Z) (certHashes : list string) : EX bool :=
  c ← call (ctx_get dbId);
  if isLocalBrokerSource settings c then mret true
  else
    evt ← getDxlMessage_of isEventMessage dbId;
    json ← call (deref (λ _, getPayloadStr evt));
    now ← call (on_services svc_time);
    r ← of_option (fromJson_service now json);
    p ← call (on_services (reg_new r));
    call (on_services (registerService settings isInfoEnabled p)).

Definition unregisterRequest_onStoreMessage (dbId : Z) (certHashes : list string) : EX bool :=
  request ← getDxlMessage_of isRequestMessage dbId;
  json ← call (deref (λ _, getPayloadStr request));
  serviceGuid ← of_option (fromJson_serviceGuid json);
  c ← call (ctx_get dbId);
  call (on_services (unregisterService_client settings serviceGuid (client_id settings (cc_contextFlags c) (cc_canonicalSourceId c))
                       (dm_sourceTenantGuid (dx_msg request)) true));;
  uuid ← call new_uuid;
  response ← of_option (createResponse settings uuid request);
  call (sendMessage (getReplyToTopic request) response);;
  mret false.

Definition unregisterEvent_onStoreMessage (dbId : Z) (certHashes : list string) : EX bool :=
  c ← call (ctx_get dbId);
  if isLocalBrokerSource settings c then mret true
  else
    evt ← getDxlMessage_of isEventMessage dbId;
    json ← call (deref (λ _, getPayloadStr evt));
    serviceGuid ← of_option (fromJson_serviceGuid json);
    call (on_services (unregisterService settings isInfoEnabled serviceGuid true));;
    mret true.

(** ** Limits of tenants ([Tenant...Handler.cpp]) *)

Definition metrics_upd (f : TenantMetricsService → TenantMetricsService) : ST Library () :=
  modify (λ l, l <| lib_services ::= λ s, s <| sv_metrics ::= f |> |>).
Definition tenantExceedsLimit_onStoreMessage (dbId : Z) (certHashes : list string) : EX bool :=
  c ← call (ctx_get dbId);
  if isLocalBrokerSource settings c then mret true
  else
    evt ← getDxlMessage_of isEventMessage dbId;
    json ← call (deref (λ _, getPayloadStr evt));
    limit ← of_option (fromJson_tenantLimit json);
    (match limit with
     | (tenantId, TENANT_LIMIT_BYTE) => call (metrics_upd (markTenantExceedsByteCount settings tenantId))
     | _ => mret tt
     end);;
    mret true.
Definition tenantLimitReset_onStoreMessage (dbId : Z) (certHashes : list string) : EX bool :=
  c ← call (ctx_get dbId);
  if negb (cc_isSourceBridge c) && negb (isSourceOps c) && negb (has_flag (cc_contextFlags c) (Z.lor DXL_FLAG_LOCAL DXL_FLAG_ADMIN))
  then mret false
  else
    getDxlMessage_of isEventMessage dbId;;
    call (metrics_upd resetTenantByteCounts);;
    mret true.
End service.
