(* ===== verification/CoreInterface.v ===== *)
(** * What the core and the broker library tell each other of the fabric

    [brokerlib/core/src/CoreInterface.cpp]: bridges that come and go, topics that are
    subscribed to for the first or left for the last time, the state of this broker
    that is sent to the others, and the configuration of the bridges. *)

From S2P Require Import Prelude Topic CoreUtil Authorization Fabric TopicCache Registry Metrics Services Configuration DxlMessages MessageCore MessageService.
From stdpp Require Import options.

(** [DxlMessageConstants]. *)
Definition CHANNEL_DXL_FABRIC_CHANGE_EVENT := broker_event "fabricchange".
Definition CHANNEL_DXL_CLIENTREGISTRY_CONNECT_EVENT := broker_event "clientregistry/connect".
Definition CHANNEL_DXL_CLIENTREGISTRY_DISCONNECT_EVENT := broker_event "clientregistry/disconnect".
Definition PROP_START_TIME : string := "startTime".
Definition PROP_CHANGE_COUNT : string := "changeCount".
Definition STATE_START : Z := 1.
Definition STATE_END : Z := 2.

(** [StringUtil::toString]; ten digits are enough for 32 bits. *)
Fixpoint decimal (fuel : nat) (n : Z) (acc : string) : string :=
  match fuel with
  | O => acc
  | S fuel' =>
    let acc := String (ascii_of_nat (48 + Z.to_nat (n mod 10))) acc in
    if n <? 10 then acc else decimal fuel' (n / 10) acc
  end.
Definition toString (value : Z) : string := decimal 10 value "".

(** [AbstractBrokerTopicEventPayload]. *)
Definition setMessageHeaderValues (s : BrokerState) (d : DxlMessage) : DxlMessage :=
  setOtherField PROP_CHANGE_COUNT (toString (bs_subscriptionsChangeCount s)) (setOtherField PROP_START_TIME (toString (br_startTime (bs_broker s))) d).

Section core_interface.
Context (settings : BrokerSettings) `{HashOrder} `{PtrOrder} `{MsgPack} `{Json}.

(** ** Sending *)

Definition new_event : EX DxlMessage := uuid ← call new_uuid; of_option (createEvent settings uuid).
Definition sendFabricChangeNotification : EX () :=
  evt ← new_event;
  evt ← call (deref (λ _, setPayload toJson_fabricChange evt));
  call (sendMessage CHANNEL_DXL_FABRIC_CHANGE_EVENT evt).
Definition getBrokerStatePtr (guid : string) : ST Library (option BrokerState) :=
  gets (λ l, rg_registry (sv_brokerRegistry (lib_services l)) !! guid).

(** [BrokerStateTopicsSender]. *)
Definition handleBatch (brokerState : BrokerState) (b : topics_batch) : EX () :=
  let state := Z.lor (if tb_isFirst b then STATE_START else 0) (if tb_isLast b then STATE_END else 0) in
  evt ← new_event;
  let evt := setMessageHeaderValues brokerState evt in
  evt ← call (deref (λ _, setPayload (toJson_topics state (hash_order (tb_topics b)) (tb_index b)) evt));
  call (sendMessage CHANNEL_DXL_BROKER_STATE_TOPICS_EVENT evt).
Fixpoint send_batches (brokerState : BrokerState) (batches : list topics_batch) : EX () :=
  match batches with
  | [] => mret tt
  | b :: batches' => handleBatch brokerState b;; send_batches brokerState batches'
  end.

(** [BrokerStateEventBuilder]. *)
Definition buildBrokerStateEvent : EX DxlMessage :=
  s ← call (getBrokerStatePtr (set_guid settings));
  s ← of_option s;
  evt ← new_event;
  call (deref (λ _, setPayload (toJson_brokerState s) evt)).
Definition sendLocalBrokerStateEvent : EX () :=
  evt ← buildBrokerStateEvent;
  call (sendMessage CHANNEL_DXL_BROKER_STATE_EVENT evt);;
  (if set_topicRoutingEnabled settings then
     s ← call (getBrokerStatePtr (set_guid settings));
     batches ← call (on_fabric (batchTopics (set_guid settings) (set_brokerStateTopicsCharsBatchSize settings)));
     match s, batches with
     | Some s, Some batches => send_batches s batches
     | _, _ => mret tt
     end
   else mret tt);;
  now ← call (on_fabric look_at_clock);
  call (modify (λ l, l <| lib_lastLocalBrokerStateSend := now |>)).

(** ** Bridges *)

Definition bridge_connect_allowed (brokerId : string) : EX bool := call (on_fabric (isBridgeConnectAllowed settings brokerId)).
Definition onBridgeConnected (isChild : bool) (brokerId : string) : EX () :=
  call (on_fabric (addConnection settings (set_guid settings) brokerId isChild));;
  if isChild then sendFabricChangeNotification else mret tt.
Definition onBridgeDisconnected (brokerId : string) : EX () :=
  call (on_fabric (removeConnection settings (set_guid settings) brokerId));;
  sendFabricChangeNotification.

(** [operator!=]. *)
Definition bridge_config_eqb (lhs rhs : CoreBridgeConfiguration) : bool :=
  String.eqb (cf_guid lhs) (cf_guid rhs) && bool_decide (cf_brokers lhs = cf_brokers rhs) && (cf_primaryBrokerCount lhs =? cf_primaryBrokerCount rhs).
Definition onBridgeConfigurationChanged (config : CoreBridgeConfiguration) : ST Library () :=
  modify (λ l, l <| lib_bridgeTasks ::= λ t, t ++ [config] |>).
Definition setBridgeConfiguration (config : CoreBridgeConfiguration) : ST Library () :=
  on_fabric (setLocalBrokerProperties (cf_hostName config) (cf_ipAddress config) (cf_hubName config) (cf_port config) (set_webSocketsListenPort settings));;
  old ← gets lib_bridgeConfig;
  if bridge_config_eqb config old then mret tt
  else modify (λ l, l <| lib_bridgeConfig := config |>);; onBridgeConfigurationChanged config.
Definition forceBridgeReconnect : ST Library () := config ← gets lib_bridgeConfig; onBridgeConfigurationChanged config.
(** [CoreInterfaceEventHandler]. *)
Definition core_onConfigurationUpdated (brokerConfig : BrokerConfiguration) : ST Library () :=
  setBridgeConfiguration (createConfiguration (set_guid settings) brokerConfig).

(** ** Topics *)

(** Topic routing is on, and it is not the channel on which a client gets answers. *)
Definition routed_topic (topic : string) : bool :=
  set_topicRoutingEnabled settings && negb (String.prefix DXL_CLIENT_PREFIX_BRACKET topic).
Definition send_topic_event (channel topic : string) : EX () :=
  s ← call (getBrokerStatePtr (set_guid settings));
  match s with
  | None => mret tt
  | Some s =>
    evt ← new_event;
    let evt := setMessageHeaderValues s evt in
    evt ← call (deref (λ _, setPayload (toJson_topic topic) evt));
    call (sendMessage channel evt)
  end.
Definition onTopicAddedToBroker (topic : string) : EX () :=
  if routed_topic topic then
    call (on_fabric (addTopic settings (set_guid settings) topic));;
    send_topic_event CHANNEL_DXL_BROKER_TOPIC_ADDED_EVENT topic
  else mret tt.
Definition onTopicRemovedFromBroker (topic : string) : EX () :=
  if routed_topic topic then
    call (on_fabric (removeTopic settings (set_guid settings) topic));;
    send_topic_event CHANNEL_DXL_BROKER_TOPIC_REMOVED_EVENT topic
  else mret tt.

(** ** Clients *)

Definition send_client_event (channel clientId : string) (info : ClientConnectionInfo) : EX () :=
  if set_sendConnectEvents settings then
    evt ← new_event;
    evt ← call (deref (λ _, setPayload (toJson_clientConnect clientId info) evt));
    call (sendMessage channel evt)
  else mret tt.
Definition onClientConnected (clientId : string) (info : ClientConnectionInfo) : EX () :=
  send_client_event CHANNEL_DXL_CLIENTREGISTRY_CONNECT_EVENT clientId info.
Definition onClientDisconnected (clientId : string) : EX () :=
  send_client_event CHANNEL_DXL_CLIENTREGISTRY_DISCONNECT_EVENT clientId (mk_ClientConnectionInfo "" "" "" "" "").

(** [FabricChangeEventHandler]. *)
Definition fabricChange_onStoreMessage (dbId : Z) (certHashes : list string) : EX bool :=
  getDxlMessage_of isEventMessage dbId;;
  sendLocalBrokerStateEvent;;
  call (on_services (sendServiceRegistrationEvents settings));;
  mret true.
End core_interface.
