(* ===== verification/MessageHandlers.v ===== *)
(** * The message handler service

    [DxlMessageHandlers.cpp]: which handlers there are.
    [CoreMessageHandlerService.cpp]: the functions the C core calls (through
    [dxl.cpp] and [CoreInterface.cpp]) for a message that is published, stored,
    inserted into a client's queue and finalized. *)

From S2P Require Import Prelude Topic CoreUtil Authorization Fabric TopicCache Registry Metrics Services DxlMessages MessageCore MessageService CoreInterface.
From stdpp Require Import options.

(** ** Values in headers

    [StringUtil::asUint32]: a number read from a stream. *)

Definition is_space (c : ascii) : bool := let n := nat_of_ascii c in (n =? 32)%nat || ((9 <=? n) && (n <=? 13))%nat.
Definition digit (c : ascii) : option Z :=
  let n := nat_of_ascii c in if ((48 <=? n) && (n <=? 57))%nat then Some (Z.of_nat n - 48) else None.
Fixpoint skip_space (s : string) : string :=
  match s with String c s' => if is_space c then skip_space s' else s | EmptyString => s end.
Fixpoint digits (s : string) (n : Z) : Z :=
  match s with String c s' => match digit c with Some d => digits s' (10 * n + d) | None => n end | EmptyString => n end.
(** Too large a number is read as the largest; a negative one wraps around. *)
Definition asUint32 (value : string) : Z :=
  let s := skip_space value in
  let '(minus, s) := match s with
                     | String "-" s' => (true, s') | String "+" s' => (false, s') | _ => (false, s)
                     end%char in
  let n := digits s 0 in
  if 2 ^ 32 <=? n then 2 ^ 32 - 1 else if minus then u32 (- n) else n.

Definition getMessageHeaderValues (d : DxlMessage) : Z * Z * DxlMessage :=
  let '(startTime, d) := getOtherField PROP_START_TIME d in
  let '(changeCount, d) := getOtherField PROP_CHANGE_COUNT d in
  (from_option asUint32 0 startTime, from_option asUint32 0 changeCount, d).

Section handlers.
Context (settings : BrokerSettings) (isInfoEnabled : bool) `{HashOrder} `{PtrOrder} `{MsgPack} `{Json}.

(** ** Events about the fabric

    The handlers of [Registry.v], on the payloads as they are read. *)

Definition brokerState_onStoreMessage (dbId : Z) (certHashes : list string) : EX bool :=
  c ← call (ctx_get dbId);
  if isLocalBrokerSource settings c then mret true
  else
    evt ← getDxlMessage_of isEventMessage dbId;
    json ← call (deref (λ _, getPayloadStr evt));
    payload ← of_option (fromJson_brokerState json);
    let '(b, connections, childConnections) := payload in
    call (on_fabric (on_broker_state settings false b connections childConnections));;
    mret true.
Definition brokerStateTopics_onStoreMessage (dbId : Z) (certHashes : list string) : EX bool :=
  c ← call (ctx_get dbId);
  if negb (set_topicRoutingEnabled settings) || isLocalBrokerSource settings c then mret true
  else
    evt ← getDxlMessage_of isEventMessage dbId;
    let brokerGuid := dm_sourceBrokerGuid (dx_msg evt) in
    s ← call (gets lib_services);
    match rg_registry (sv_brokerRegistry s) !! brokerGuid with
    | None => mret true
    | Some state =>
      header ← msg_query dbId getMessageHeaderValues;
      let '(startTime, changeCount) := header in
      if negb (br_startTime (bs_broker state) =? startTime) || negb (bs_subscriptionsChangeCount state =? changeCount) then
        json ← call (deref (λ _, getPayloadStr evt));
        payload ← of_option (fromJson_topics json);
        call (on_fabric (on_broker_topics settings false brokerGuid
          (mk_topics_event startTime changeCount (has_flag payload.1 STATE_START) (has_flag payload.1 STATE_END) payload.2)));;
        mret true
      else mret true
    end.
Definition brokerTopic_onStoreMessage (dbId : Z) (certHashes : list string) : EX bool :=
  c ← call (ctx_get dbId);
  if negb (set_topicRoutingEnabled settings) || isLocalBrokerSource settings c then mret true
  else
    evt ← getDxlMessage_of isEventMessage dbId;
    header ← msg_query dbId getMessageHeaderValues;
    json ← call (deref (λ _, getPayloadStr evt));
    topic ← of_option (fromJson_topic json);
    call (on_fabric (on_broker_topic settings false (String.eqb (cc_topic c) CHANNEL_DXL_BROKER_TOPIC_ADDED_EVENT)
                       (dm_sourceBrokerGuid (dx_msg evt)) topic header.1 header.2));;
    mret true.

(** ** The handlers ([DxlMessageHandlers::registerHandlers])

    Handlers of other topics (client registry, health, queries, revocation
    lists, test mode) are left open. *)
Context (other_store_handlers : gmap string StoreHandler).

Definition modelled_store_handlers : list (string * StoreHandler) :=
  [(CHANNEL_DXL_BROKER_STATE_EVENT, mk_StoreHandler true brokerState_onStoreMessage);
   (CHANNEL_DXL_BROKER_STATE_TOPICS_EVENT, mk_StoreHandler true brokerStateTopics_onStoreMessage);
   (CHANNEL_DXL_BROKER_TOPIC_ADDED_EVENT, mk_StoreHandler true brokerTopic_onStoreMessage);
   (CHANNEL_DXL_BROKER_TOPIC_REMOVED_EVENT, mk_StoreHandler true brokerTopic_onStoreMessage);
   (CHANNEL_DXL_FABRIC_CHANGE_EVENT, mk_StoreHandler true (fabricChange_onStoreMessage settings));
   (CHANNEL_DXL_SVCREGISTRY_REGISTER_EVENT, mk_StoreHandler true (registerEvent_onStoreMessage settings isInfoEnabled));
   (CHANNEL_DXL_SVCREGISTRY_REGISTER_REQUEST, mk_StoreHandler false (registerRequest_onStoreMessage settings isInfoEnabled));
   (CHANNEL_DXL_SVCREGISTRY_UNREGISTER_EVENT, mk_StoreHandler true (unregisterEvent_onStoreMessage settings isInfoEnabled));
   (CHANNEL_DXL_SVCREGISTRY_UNREGISTER_REQUEST, mk_StoreHandler false (unregisterRequest_onStoreMessage settings));
   (CHANNEL_DXL_TENANT_LIMIT_EXCEEDED_EVENT, mk_StoreHandler true (tenantExceedsLimit_onStoreMessage settings));
   (CHANNEL_DXL_TENANT_LIMIT_RESET_EVENT, mk_StoreHandler true tenantLimitReset_onStoreMessage)].
Definition onStoreHandlers (topic : string) : option StoreHandler :=
  match list_to_map (M := gmap string StoreHandler) modelled_store_handlers !! topic with
  | Some h => Some h
  | None => other_store_handlers !! topic
  end.

(** ** The service *)

(** The handlers of a topic only log. *)
Definition onPublishMessage (sourceId canonicalSourceId : string) (isBridge : bool) (contextFlags : Z) (topic : string)
    (certHashes : list string) : ST Library bool :=
  modify (λ l, l <| lib_publishMessageCount ::= λ n, i32 (n + 1) |>);;
  auth_onPublishMessage settings canonicalSourceId isBridge contextFlags topic certHashes.

Definition fireOnStoreMessage (dbId : Z) (certHashes : list string) (h : StoreHandler) : EX () :=
  c ← call (ctx_get dbId);
  if sh_isBridgeSourceRequired h && negb (cc_isSourceBridge c) then call (setMessageInsertEnabled dbId false)
  else
    ok ← sh_onStoreMessage h dbId certHashes;
    if (ok : bool) then mret tt else call (setMessageInsertEnabled dbId false).

(** Whether a client's reply topic is refused. *)
Definition bad_reply_topic (replyTo : string) : bool :=
  String.eqb replyTo "" || String.prefix DXL_BROKER_EVENT_PREFIX replyTo || String.prefix "/mcafee/service/" replyTo
  || has_char hash replyTo || has_char plus replyTo.

Definition setDxlMessageFields (dbId : Z) (sourceTenantGuid : string) (certChain : option string) : EX bool :=
  c ← call (ctx_get dbId);
  let bridge := cc_isSourceBridge c in
  let tenants := set_multiTenantModeEnabled settings in
  (if bridge then mret tt
   else
     msg_upd dbId (setSourceBrokerGuid (Some (set_guid settings)));;
     msg_upd dbId (setSourceClientId (Some (cc_canonicalSourceId c)));;
     msg_upd dbId (setSourceClientInstanceId (Some (cc_sourceId c)));;
     msg_upd dbId (setOtherField "dxl.certs" (default "" certChain));;
     d ← getDxlMessage dbId;
     if negb tenants && negb (String.eqb (dm_sourceTenantGuid (dx_msg d)) "") then msg_upd dbId (setSourceTenantGuid (Some "")) else mret tt);;
  if negb tenants then mret true
  else if negb bridge then
    msg_upd dbId (setSourceTenantGuid (Some sourceTenantGuid));;
    dest ← msg_query dbId getDestinationTenantGuids;
    match dest with
    | Some guids =>
      if isSourceOps c then mret true
      else ops ← getTenantGuid settings; mret (bool_decide (set_Forall (λ g, g = sourceTenantGuid ∨ g = ops) guids))
    | None => mret true
    end
  else
    ops ← getTenantGuid settings;
    d ← getDxlMessage dbId;
    (if String.eqb ops (dm_sourceTenantGuid (dx_msg d))
     then call (ctx_upd dbId (λ c, c <| cc_contextFlags ::= λ f, Z.lor f DXL_FLAG_OPS |>)) else mret tt);;
    mret true.

(** Events of brokers that have no handler are refused to clients. *)
Definition run_topic_handler (dbId : Z) (certHashes : list string) : EX () :=
  c ← call (ctx_get dbId);
  match onStoreHandlers (cc_topic c) with
  | Some h => fireOnStoreMessage dbId certHashes h
  | None =>
    if negb (cc_isSourceBridge c) && String.prefix DXL_BROKER_EVENT_PREFIX (cc_topic c)
       && negb (set_testModeEnabled settings && (String.eqb (cc_topic c) CHANNEL_DXL_DUMPBROKER_STATE_EVENT
                                                 || String.eqb (cc_topic c) CHANNEL_DXL_DUMPSERVICE_STATE_EVENT))
    then call (setMessageInsertEnabled dbId false) else mret tt
  end.
(** The global handler, then the topic's. *)
Definition run_store_handlers (dbId : Z) (certHashes : list string) : EX () :=
  fireOnStoreMessage dbId certHashes (mk_StoreHandler false (λ dbId _, lookup_onStoreMessage settings isInfoEnabled dbId));;
  run_topic_handler dbId certHashes.

(** The message as it was changed, if it was. *)
Definition rewrite_message (dbId : Z) : EX (option string) :=
  c ← call (ctx_get dbId);
  match cc_dxlMessage c with
  | Some d =>
    if dx_isDirty d then
      r ← call (deref (λ _, toBytes false d));
      call (ctx_upd dbId (λ c, c <| cc_dxlMessage := Some r.2 |>));;
      mret (Some r.1)
    else mret None
  | None => mret None
  end.

(** Whether the source may have the message at all, with the source's fields set. *)
Definition accept_message (dbId : Z) (sourceTenantGuid : string) (certChain : option string) : EX bool :=
  dxl ← call (isDxlMessage dbId);
  if negb (dxl : bool) then mret true
  else
    c ← call (ctx_get dbId);
    d ← getDxlMessage dbId;
    if negb (cc_isSourceBridge c) && isRequestMessage d && bad_reply_topic (getReplyToTopic d) then mret false
    else setDxlMessageFields dbId sourceTenantGuid certChain.

Definition store_message (dbId : Z) (sourceTenantGuid : string) (certHashes : list string) (certChain : option string) : EX (option string) :=
  ok ← accept_message dbId sourceTenantGuid certChain;
  if negb (ok : bool) then call (setMessageInsertEnabled dbId false);; mret None
  else run_store_handlers dbId certHashes;; rewrite_message dbId.

(** The new payload, or [None]. An exception only disables the message. *)
Definition onStoreMessage (dbId : Z) (sourceId canonicalSourceId : string) (isBridge : bool) (contextFlags : Z)
    (topic payload sourceTenantGuid : string) (certHashes : list string) (certChain : option string) : ST Library (option string) :=
  modify (λ l, l <| lib_contexts ::= <[dbId := CoreMessageContext_new sourceId canonicalSourceId isBridge contextFlags topic payload]> |>);;
  catch (store_message dbId sourceTenantGuid certHashes certChain) (setMessageInsertEnabled dbId false;; mret None).

(** Whether the insertion into a full queue is refused. *)
Definition onPreInsertPacketQueueExceeded (isBridge : bool) (dbId : Z) : ST Library bool :=
  l ← gets id;
  match lib_contexts l !! dbId with
  | None => mret true
  | Some c =>
    catch (
      dxl ← call (isDxlMessage dbId);
      if isBridge || negb dxl || String.prefix DXL_BROKER_EVENT_PREFIX (cc_topic c) || String.prefix DXL_BROKER_REQUEST_PREFIX (cc_topic c)
         || String.prefix DXL_CLIENT_PREFIX (cc_topic c) then mret false
      else
        d ← getDxlMessage dbId;
        (if isRequestMessage d then
           call (ctx_upd dbId (λ c, c <| cc_serviceNotFoundEnabled := false |>));;
           sendServiceOverloadedErrorMessage settings d
         else mret tt);;
        mret true) (mret true)
  end.

(** Whether the destination gets the message, and which bytes instead of it. *)
Definition onInsertMessage (destId canonicalDestId : string) (isBridge : bool) (contextFlags : Z) (dbId : Z)
    (targetTenantGuid : string) (certHashes : list string) (out : client_out) : ST Library (bool * client_out) :=
  l ← gets id;
  match lib_contexts l !! dbId with
  | None => mret (false, out)
  | Some c =>
    if negb (cc_messageInsertEnabled c) then mret (false, out)
    else
      catch (
        r ← routing_onInsertMessage settings dbId destId canonicalDestId isBridge contextFlags targetTenantGuid out;
        if negb r.1 then mret r
        else
          ok ← call (auth_onInsertMessage settings dbId canonicalDestId isBridge contextFlags certHashes);
          if negb (ok : bool) then mret (false, r.2)
          else call (ctx_upd dbId (λ c, c <| cc_destCount ::= λ n, i32 (n + 1) |>));; mret (true, r.2)) (mret (false, out))
  end.

Definition onFinalizeMessage (dbId : Z) : ST Library () :=
  l ← gets id;
  match lib_contexts l !! dbId with
  | None => mret tt
  | Some c =>
    catch (
      call (modify (λ l, l <| lib_destinationMessageCount ::= λ n, i32 (n + cc_destCount c) |>));;
      noRequestDest_onFinalizeMessage settings dbId;;
      if set_testModeEnabled settings then noEventDest_onFinalizeMessage settings dbId else mret tt) (mret tt);;
    modify (λ l, l <| lib_contexts ::= delete dbId |>)
  end.

(** Without the rates that are only reported. *)
Definition messages_onCoreMaintenance (time : Z) : ST Library () :=
  l ← gets id;
  if (lib_messageTimingStart l =? 0) || (set_messageSampleSecs settings <=? i32 (time - lib_messageTimingStart l))
  then modify (λ l, l <| lib_messageTimingStart := time |> <| lib_destinationMessageCount := 0 |> <| lib_publishMessageCount := 0 |>)
  else mret tt.
End handlers.
