(* ===== verification/PassageProofs.v ===== *)
(** * What clients cannot forge

    Rules for code that may throw ([wpx]) and for the message of a context, and
    what [accept_message] makes of the message of a client: the broker and client
    it names are the true ones, whatever the client wrote; its reply topic and
    tenants are checked; but a certificate chain that the client itself wrote
    survives. *)

From S2P Require Import Prelude Topic CoreUtil Authorization Fabric TopicCache Registry Metrics Services DxlMessages MessageCore MessageService MessageHandlers.
From stdpp Require Import options.

(** ** Code that returns or throws *)

Definition wpx {A} (m : EX A) (Q : A → Library → Prop) (E : Library → Prop) (l : Library) : Prop :=
  wp m (λ r l', match r with inr a => Q a l' | inl _ => E l' end) l.

Section wpx_rules.
Context {A B : Type}.
Implicit Types (Q : A → Library → Prop) (E : Library → Prop).

Lemma wpx_ret (a : A) Q E l : Q a l → wpx (mret a) Q E l.
Proof. done. Qed.
Lemma wpx_bind (m : EX B) (k : B → EX A) Q E l : wpx m (λ b, wpx (k b) Q E) E l → wpx (m ≫= k) Q E l.
Proof. unfold wpx, wp, mbind, ex_bind. by destruct (m l) as [[[|] l']|]. Qed.
Lemma wpx_mono (m : EX A) Q Q' E E' l : wpx m Q E l → (∀ a l', Q a l' → Q' a l') → (∀ l', E l' → E' l') → wpx m Q' E' l.
Proof. unfold wpx, wp. destruct (m l) as [[[|] l']|]; eauto. Qed.
Lemma wpx_call (m : ST Library A) Q E l : wp m Q l → wpx (call m) Q E l.
Proof. unfold wpx, wp, call. by destruct (m l) as [[a l']|]. Qed.
Lemma wpx_throw Q E l : E l → wpx throw Q E l.
Proof. done. Qed.
Lemma wpx_of_option (o : option A) Q E l : match o with Some a => Q a l | None => E l end → wpx (of_option o) Q E l.
Proof. by destruct o. Qed.
Lemma wp_catch (m : EX A) (h : ST Library A) Q l : wpx m Q (λ l', wp h Q l') l → wp (catch m h) Q l.
Proof. unfold wpx, wp, catch. by destruct (m l) as [[[|] l']|]. Qed.
Lemma wpx_run (m : EX A) Q E l : wpx m Q E l → ∃ r l', m l = Some (r, l') ∧ match r with inr a => Q a l' | inl _ => E l' end.
Proof. unfold wpx, wp. destruct (m l) as [[r l']|]; [|done]. intros HQ. by exists r, l'. Qed.
Lemma wpx_intro (m : EX A) Q E l r l' : m l = Some (r, l') → match r with inr a => Q a l' | inl _ => E l' end → wpx m Q E l.
Proof. unfold wpx, wp. by intros ->. Qed.
End wpx_rules.

Ltac wpx_step :=
  lazymatch goal with
  | |- wpx (mbind _ _) _ _ _ => apply wpx_bind
  | |- wpx (mret _) _ _ _ => apply wpx_ret
  | |- wpx throw _ _ _ => apply wpx_throw
  | |- wpx (of_option _) _ _ _ => apply wpx_of_option
  | |- wpx (call _) _ _ _ => apply wpx_call
  | |- wp _ _ _ => wp_step
  end; cbv beta.
Ltac wpx_steps := repeat wpx_step.

(** ** The message of a context *)

Definition has_msg (dbId : Z) (c : CoreMessageContext) (d : DxlMessage) (l : Library) : Prop :=
  lib_contexts l !! dbId = Some c ∧ cc_dxlMessageParsed c = true ∧ cc_dxlMessage c = Some d.
Definition put_ctx (dbId : Z) (c : CoreMessageContext) (l : Library) : Library := l <| lib_contexts ::= <[dbId := c]> |>.
Definition with_msg (d : DxlMessage) (c : CoreMessageContext) : CoreMessageContext :=
  c <| cc_dxlMessageParsed := true |> <| cc_dxlMessage := Some d |>.

Lemma with_msg_same c d d' : cc_dxlMessageParsed c = true → cc_dxlMessage c = Some d → c <| cc_dxlMessage := Some d' |> = with_msg d' c.
Proof. destruct c. cbn. by intros -> _. Qed.
Lemma with_msg_twice c d d' : with_msg d' (with_msg d c) = with_msg d' c.
Proof. done. Qed.
Lemma put_ctx_twice dbId c c' l : put_ctx dbId c' (put_ctx dbId c l) = put_ctx dbId c' l.
Proof. unfold put_ctx. cbn. by rewrite insert_insert_eq. Qed.
Lemma has_msg_put dbId c d l : has_msg dbId (with_msg d c) d (put_ctx dbId (with_msg d c) l).
Proof. split_and!; [|done..]. unfold put_ctx. cbn. by rewrite lookup_insert, decide_True by done. Qed.
Lemma has_msg_same dbId c d l : has_msg dbId c d l → put_ctx dbId (with_msg d c) l = l.
Proof.
  intros (Hl & Hp & Hd). unfold put_ctx. cbn. assert (with_msg d c = c) as -> by (destruct c; cbn in *; by subst).
  rewrite insert_id by done. by destruct l.
Qed.

Section message_rules.
Context `{HashOrder} `{PtrOrder} `{MsgPack} `{Json} (settings : BrokerSettings).
Implicit Types (dbId : Z) (E : Library → Prop).

Lemma wp_context_get dbId c Q l : lib_contexts l !! dbId = Some c → Q c l → wp (ctx_get dbId) Q l.
Proof. intros Hl HQ. by eapply wp_deref. Qed.
Lemma ctx_upd_put dbId c f l : lib_contexts l !! dbId = Some c → ctx_upd dbId f l = Some (tt, put_ctx dbId (f c) l).
Proof.
  intros Hl. unfold ctx_upd, modify, put_ctx. cbn. do 3 f_equal. apply map_eq. intros i. destruct (decide (i = dbId)) as [->|Hi].
  - by rewrite lookup_alter_eq, Hl, lookup_insert_eq.
  - by rewrite lookup_alter_ne, lookup_insert_ne by done.
Qed.
Lemma wp_context_upd dbId c f Q l : lib_contexts l !! dbId = Some c → Q tt (put_ctx dbId (f c) l) → wp (ctx_upd dbId f) Q l.
Proof. intros Hl HQ. eapply wp_run; [by apply ctx_upd_put|done]. Qed.

Lemma wp_parsed dbId c Q l : lib_contexts l !! dbId = Some c → cc_dxlMessageParsed c = true → Q tt l → wp (parseDxlMessage dbId) Q l.
Proof. intros Hl Hp HQ. unfold parseDxlMessage. wp_step. eapply wp_context_get; [done|]. rewrite Hp. by wp_step. Qed.
Lemma wp_isDxl dbId c d Q l : has_msg dbId c d l → Q true l → wp (isDxlMessage dbId) Q l.
Proof.
  intros (Hl & Hp & Hd) HQ. unfold isDxlMessage. wp_step. eapply wp_parsed; [done..|]. wp_step. eapply wp_context_get; [done|]. wp_step.
  by rewrite bool_decide_true by (by rewrite Hd).
Qed.
(** The first time, the payload is read. *)
Lemma wp_isDxl_new dbId c Q l : lib_contexts l !! dbId = Some c → cc_dxlMessageParsed c = false →
  (∀ d, fromBytes (cc_originalPayload c) = Some d → Q true (put_ctx dbId (with_msg d c) l)) →
  (fromBytes (cc_originalPayload c) = None →
    Q false (put_ctx dbId (c <| cc_dxlMessageParsed := true |> <| cc_dxlMessage := None |>) l)) → wp (isDxlMessage dbId) Q l.
Proof.
  intros Hl Hp Hsome Hnone. unfold isDxlMessage. wp_step. unfold parseDxlMessage. wp_step. eapply wp_context_get; [done|]. rewrite Hp.
  eapply wp_context_upd; [done|]. wp_step. eapply wp_context_get; [unfold put_ctx; cbn; by rewrite lookup_insert_eq|]. wp_step. cbn.
  destruct (fromBytes _) as [d|] eqn:Hd; [by apply Hsome|by apply Hnone].
Qed.
Lemma wpx_msg dbId c d Q E l : has_msg dbId c d l → Q d l → wpx (getDxlMessage dbId) Q E l.
Proof.
  intros (Hl & Hp & Hd) HQ. unfold getDxlMessage. do 2 wpx_step. eapply wp_parsed; [done..|]. do 2 wpx_step. eapply wp_context_get; [done|].
  wpx_step. by rewrite Hd.
Qed.
Lemma wpx_msg_of dbId c d (is_type : DxlMessage → bool) Q E l : has_msg dbId c d l → (is_type d = true → Q d l) → (is_type d = false → E l) →
  wpx (getDxlMessage_of is_type dbId) Q E l.
Proof. intros Hm HQ HE. unfold getDxlMessage_of. wpx_step. eapply wpx_msg; [done|]. destruct (is_type d); wpx_step; auto. Qed.
Lemma wpx_msg_upd dbId c d f Q E l : has_msg dbId c d l →
  (has_msg dbId (with_msg (f d) c) (f d) (put_ctx dbId (with_msg (f d) c) l) → Q tt (put_ctx dbId (with_msg (f d) c) l)) → wpx (msg_upd dbId f) Q E l.
Proof.
  intros Hm HQ. unfold msg_upd. wpx_step. eapply wpx_msg; [done|]. wpx_step. destruct Hm as (Hl & Hp & Hd). eapply wp_context_upd; [done|].
  rewrite (with_msg_same c d) by done. apply HQ, has_msg_put.
Qed.
Lemma wpx_query {A} dbId c d (f : DxlMessage → A * DxlMessage) Q E l : has_msg dbId c d l →
  (has_msg dbId (with_msg (f d).2 c) (f d).2 (put_ctx dbId (with_msg (f d).2 c) l) → Q (f d).1 (put_ctx dbId (with_msg (f d).2 c) l)) →
  wpx (msg_query dbId f) Q E l.
Proof.
  intros Hm HQ. unfold msg_query. wpx_step. eapply wpx_msg; [done|]. do 2 wpx_step. destruct Hm as (Hl & Hp & Hd). eapply wp_context_upd; [done|].
  rewrite (with_msg_same c d) by done. wpx_step. apply HQ, has_msg_put.
Qed.
End message_rules.

(** ** The message of a client *)

Section accept.
Context `{HashOrder} `{PtrOrder} `{MsgPack} `{Json} (settings : BrokerSettings).

(** The tenants a client of [tenant] may address. *)
Definition tenants_allowed (ops_source : bool) (tenant : string) (guids : list string) : bool :=
  negb (set_multiTenantModeEnabled settings) || ops_source || forallb (λ g, String.eqb g tenant || String.eqb g (set_tenantGuid settings)) guids.
(** The message with what the broker knows of its source. *)
Definition true_source (c : CoreMessageContext) (tenant : string) (m : dxl_message_t) : dxl_message_t :=
  m <| dm_sourceBrokerGuid := set_guid settings |> <| dm_sourceClientId := cc_canonicalSourceId c |>
    <| dm_sourceClientInstanceId := cc_sourceId c |>
    <| dm_sourceTenantGuid := if set_multiTenantModeEnabled settings then tenant else "" |>.
Definition from_client (c : CoreMessageContext) (tenant : string) (certChain : option string) (d d' : DxlMessage) : Prop :=
  dx_msg d' = true_source c tenant (dx_msg d) ∧ dx_isDirty d' = true ∧ dx_otherFieldsPending d' = true ∧
  dx_otherFields d' = Some (insert_new "dxl.certs" (default "" certChain) (default ∅ (getOtherFields d).1)) ∧
  dx_destBrokerGuids d' = dx_destBrokerGuids d ∧ dx_destClientGuids d' = dx_destClientGuids d ∧
  (dx_destTenantGuids d' = None ∨ dx_destTenantGuids d' = guid_set None (dm_tenantGuids (dx_msg d))).

Lemma tenants_forallb tenant ops guids :
  bool_decide (set_Forall (λ g, g = tenant ∨ g = ops) (list_to_set guids : gset string))
    = forallb (λ g, String.eqb g tenant || String.eqb g ops) guids.
Proof.
  apply eq_true_iff_eq. rewrite bool_decide_eq_true, forallb_forall. unfold set_Forall. setoid_rewrite elem_of_list_to_set.
  setoid_rewrite orb_true_iff. setoid_rewrite String.eqb_eq. setoid_rewrite list_elem_of_In. done.
Qed.

(** The four setters, in the order of the source. *)
Lemma client_fields_spec dbId c d l : has_msg dbId c d l → cc_isSourceBridge c = false → dx_destTenantGuids d = None →
  ∀ tenant certChain, wpx (setDxlMessageFields settings dbId tenant certChain)
    (λ ok l', ∃ d', l' = put_ctx dbId (with_msg d' c) l ∧ from_client c tenant certChain d d' ∧
       ok = tenants_allowed (isSourceOps c) tenant (dm_tenantGuids (dx_msg d)))
    (λ l', set_multiTenantModeEnabled settings = true ∧ set_tenantGuid settings = "" ∧ isSourceOps c = false ∧ dm_tenantGuids (dx_msg d) ≠ [] ∧
       ∃ d', l' = put_ctx dbId (with_msg d' c) l) l.
Proof.
  intros Hm Hbridge Hdest tenant certChain. unfold setDxlMessageFields. wpx_steps. eapply wp_context_get; [apply Hm|]. rewrite Hbridge. wpx_steps.
  eapply wpx_msg_upd; [done|]. intros Hm1. wpx_steps. eapply wpx_msg_upd; [done|]. intros Hm2. wpx_steps.
  eapply wpx_msg_upd; [done|]. intros Hm3. wpx_steps. eapply wpx_msg_upd; [done|]. intros Hm4. wpx_steps. eapply wpx_msg; [done|].
  rewrite !put_ctx_twice, !with_msg_twice in *. cbn [set_multiTenantModeEnabled negb].
  set (d4 := setOtherField _ _ _) in *. change (cc_canonicalSourceId (with_msg _ c)) with (cc_canonicalSourceId c).
  assert (dx_destTenantGuids d4 = None ∧ dm_tenantGuids (dx_msg d4) = dm_tenantGuids (dx_msg d)) as [Hdest4 Hten4] by done.
  unfold tenants_allowed, from_client, true_source. destruct (set_multiTenantModeEnabled settings) eqn:Hmt; cbn [negb andb orb].
  - wpx_steps. eapply wpx_msg_upd; [done|]. intros Hm5. wpx_steps. eapply wpx_query; [done|]. intros Hm6.
    rewrite !put_ctx_twice, !with_msg_twice in *. unfold getDestinationTenantGuids. cbv zeta. cbn [fst snd].
    change (dx_destTenantGuids (setSourceTenantGuid (Some tenant) d4)) with (dx_destTenantGuids d4).
    change (dm_tenantGuids (dx_msg (setSourceTenantGuid (Some tenant) d4))) with (dm_tenantGuids (dx_msg d4)). rewrite Hdest4, Hten4.
    destruct (dm_tenantGuids (dx_msg d)) as [|g guids] eqn:Hg.
    + cbn [guid_set]. wpx_steps. eexists. split_and!; [done..|by left|]. by destruct (isSourceOps c).
    + cbn [guid_set]. destruct (isSourceOps c) eqn:Hops; [wpx_steps; eexists; split_and!; [done..|by right|done]|]. unfold getTenantGuid.
      wpx_steps. destruct (String.eqb (set_tenantGuid settings) "") eqn:Ht; wpx_steps.
      * apply String.eqb_eq in Ht. split_and!; [done..|]. by eexists.
      * eexists. split_and!; [done..|by right|]. apply tenants_forallb.
  - destruct (String.eqb (dm_sourceTenantGuid (dx_msg d4)) "") eqn:Ht; cbn [negb].
    + wpx_steps. apply String.eqb_eq in Ht. eexists. split_and!; [done| |done..|by left|done]. subst d4. cbn in *. by destruct (dx_msg d); cbn in *; subst.
    + wpx_steps. eapply wpx_msg_upd; [done|]. intros Hm5. wpx_steps. rewrite !put_ctx_twice, !with_msg_twice. eexists. split_and!; [done..|by left|done].
Qed.

Implicit Types (dbId : Z) (sourceId canonicalId topic payload tenant : string).
Notation fresh sourceId canonicalId bridge flags topic payload := (CoreMessageContext_new sourceId canonicalId bridge flags topic payload).

Lemma accept_client_spec l dbId sourceId canonicalId flags topic payload tenant certChain d :
  let c := fresh sourceId canonicalId false flags topic payload in
  lib_contexts l !! dbId = Some c → fromBytes payload = Some d →
  wpx (accept_message settings dbId tenant certChain)
    (λ ok l', ok = negb (isRequestMessage d && bad_reply_topic (getReplyToTopic d))
                   && tenants_allowed (isSourceOps c) tenant (dm_tenantGuids (dx_msg d)) ∧
       ∃ d', l' = put_ctx dbId (with_msg d' c) l ∧ (ok = true → from_client c tenant certChain d d'))
    (λ l', (set_multiTenantModeEnabled settings = true ∧ set_tenantGuid settings = "" ∧ dm_tenantGuids (dx_msg d) ≠ []) ∧
       ∃ d', l' = put_ctx dbId (with_msg d' c) l) l.
Proof.
  intros c Hl Hd. unfold accept_message. wpx_steps. eapply wp_isDxl_new; [done|done| |]; subst c; cbn [cc_originalPayload CoreMessageContext_new].
  2: { by rewrite Hd. }
  rewrite Hd. intros ? [= <-]. cbn [negb]. wpx_steps. pose proof (has_msg_put dbId (fresh sourceId canonicalId false flags topic payload) d l) as Hm.
  eapply wp_context_get; [apply Hm|]. wpx_steps. eapply wpx_msg; [done|].
 
  assert (dx_destTenantGuids d = None) as Hdest.
  { unfold fromBytes in Hd. destruct (createDxlMessageFromBytes payload) as [|m]; [done|]. by injection Hd as <-. }
  change (cc_isSourceBridge (with_msg d (fresh sourceId canonicalId false flags topic payload))) with false. cbn [negb andb].
  destruct (isRequestMessage d && bad_reply_topic (getReplyToTopic d)); [apply wpx_ret; split; [done|]; by exists d|]. cbn [negb andb].
  eapply wpx_mono; [eapply (client_fields_spec dbId _ d); done| |].
  - intros ok l' (d' & -> & Hfrom & ->). split; [done|]. exists d'. rewrite put_ctx_twice, with_msg_twice. by split.
  - cbn. intros l' (? & ? & ? & ? & d' & ->). rewrite put_ctx_twice, with_msg_twice. split; [by split_and!|by exists d'].
Qed.

(** C10: a client cannot forge its identity: a DXL message that a client (not a
    bridge) publishes is refused exactly if it is a request with a bad reply topic,
    or names tenants that the client may not address; an accepted message names this
    broker, the certificate identifier, the client identifier and the tenant that
    the broker knows as its source, whatever the client wrote there, and nothing
    else of it changes. The code throws (and so refuses the message) only if tenants
    are separated and the broker has no tenant of its own. *)
Theorem client_cannot_forge_source l dbId sourceId canonicalId flags topic payload tenant certChain d :
  lib_contexts l !! dbId = Some (fresh sourceId canonicalId false flags topic payload) → fromBytes payload = Some d →
  ∃ r l', accept_message settings dbId tenant certChain l = Some (r, l') ∧
    match r with
    | inl _ => set_multiTenantModeEnabled settings = true ∧ set_tenantGuid settings = "" ∧ dm_tenantGuids (dx_msg d) ≠ []
    | inr ok =>
      (ok = true ↔ (isRequestMessage d = true → bad_reply_topic (getReplyToTopic d) = false) ∧
        (set_multiTenantModeEnabled settings = true → has_flag flags DXL_FLAG_OPS = false →
           Forall (λ g, g = tenant ∨ g = set_tenantGuid settings) (dm_tenantGuids (dx_msg d)))) ∧
      (ok = true → ∃ c' d', lib_contexts l' = <[dbId := c']> (lib_contexts l) ∧ cc_dxlMessage c' = Some d' ∧
        dx_msg d' = dx_msg d <| dm_sourceBrokerGuid := set_guid settings |> <| dm_sourceClientId := canonicalId |>
                             <| dm_sourceClientInstanceId := sourceId |>
                             <| dm_sourceTenantGuid := if set_multiTenantModeEnabled settings then tenant else "" |>)
    end.
Proof.
  intros Hl Hd. destruct (wpx_run _ _ _ _ (accept_client_spec l dbId sourceId canonicalId flags topic payload tenant certChain d Hl Hd)) as (r & l' & Hrun & Hr).
  exists r, l'. split; [done|]. destruct r as [e|ok]; [by destruct Hr|]. destruct Hr as [Hok (d' & -> & Hthen)]. split.
  - rewrite Hok, andb_true_iff, negb_true_iff, andb_false_iff. unfold tenants_allowed, isSourceOps. cbn [cc_contextFlags CoreMessageContext_new].
    rewrite !orb_true_iff, negb_true_iff, forallb_forall, Forall_forall. setoid_rewrite orb_true_iff. setoid_rewrite String.eqb_eq.
    setoid_rewrite list_elem_of_In. destruct (isRequestMessage d), (bad_reply_topic (getReplyToTopic d)), (set_multiTenantModeEnabled settings),
      (has_flag flags DXL_FLAG_OPS); naive_solver.
  - intros Htrue. destruct (Hthen Htrue) as [Hfrom _]. by eexists _, d'.
Qed.

(** The value is written to the wire. *)
Lemma field_written d name value m : dx_otherFieldsPending d = true → dx_otherFields d = Some m → m !! name = Some value →
  ∃ l1 l2, dm_otherFields (dx_msg (onPreToBytes d)) = l1 ++ cstr name :: cstr value :: l2.
Proof.
  intros Hp Hm Hv. unfold onPreToBytes. rewrite Hp. cbn. rewrite Hm. case_bool_decide as Hempty; [by subst|]. cbn.
  assert (name ∈ hash_order (dom m)) as Hin by (rewrite hash_order_perm; apply elem_of_elements, elem_of_dom; by eexists).
  apply list_elem_of_split in Hin as (l1 & l2 & ->). rewrite flat_map_app. cbn. rewrite Hv. by eexists _, _.
Qed.

(** C28: although the source says that the certificate chain of the source is always
    written over what the client wrote, it is not: [setOtherField] keeps a value that
    is there. An accepted message with a field [dxl.certs] of the client's making is
    passed on with it: the broker's own value is nowhere in it. *)
Theorem client_certs_survive l dbId sourceId canonicalId flags topic payload tenant certChain d fields forged l' :
  lib_contexts l !! dbId = Some (fresh sourceId canonicalId false flags topic payload) → fromBytes payload = Some d →
  (getOtherFields d).1 = Some fields → fields !! "dxl.certs" = Some forged →
  accept_message settings dbId tenant certChain l = Some (inr true, l') →
  ∃ c' d' l1 l2, lib_contexts l' !! dbId = Some c' ∧ cc_dxlMessage c' = Some d' ∧ dx_otherFields d' = Some fields ∧
    dm_otherFields (dx_msg (onPreToBytes d')) = l1 ++ "dxl.certs" :: cstr forged :: l2.
Proof.
  intros Hl Hd Hfields Hforged Hrun.
  pose proof (wp_inv _ _ _ _ _ (accept_client_spec l dbId sourceId canonicalId flags topic payload tenant certChain d Hl Hd) Hrun) as [_ (d' & -> & Hthen)].
  destruct Hthen as (_ & _ & Hpending & Hother & _); [done|]. rewrite Hfields in Hother. unfold insert_new in Hother. cbn [default from_option id] in Hother.
  rewrite Hforged in Hother. destruct (field_written d' "dxl.certs" forged fields Hpending Hother Hforged) as (l1 & l2 & Hw).
  exists (with_msg d' (fresh sourceId canonicalId false flags topic payload)), d', l1, l2. split_and!; [|done..].
  unfold put_ctx. cbn. by rewrite lookup_insert_eq.
Qed.
End accept.
