(* ===== verification/InsertProofs.v ===== *)
(** * Who gets a message

    The decision of [onInsertMessage] for a client, which the C core asks for
    once for every subscriber, and that it neither depends on the destinations
    asked about before nor changes the message ([insert_client_correct]); the
    separation of tenants that follows ([tenants_isolated]). *)

From S2P Require Import Prelude Topic CoreUtil Authorization Fabric TopicCache Registry Metrics Services DxlMessages MessageCore MessageService MessageHandlers PassageProofs.
From stdpp Require Import options.

(** ** The sets of a message are those of its arrays *)

Definition sets_agree (d : DxlMessage) : Prop :=
  guid_set (dx_destBrokerGuids d) (dm_brokerGuids (dx_msg d)) = guid_set None (dm_brokerGuids (dx_msg d)) ∧
  guid_set (dx_destClientGuids d) (dm_clientGuids (dx_msg d)) = guid_set None (dm_clientGuids (dx_msg d)) ∧
  guid_set (dx_destTenantGuids d) (dm_tenantGuids (dx_msg d)) = guid_set None (dm_tenantGuids (dx_msg d)).
Lemma guid_set_again made l : guid_set made l = guid_set None l → guid_set (guid_set made l) l = guid_set None l.
Proof. intros ->. by destruct l. Qed.
Lemma msg_eta m : m <| dm_otherFields := dm_otherFields m |> = m.
Proof. by destruct m. Qed.

(** Two states of a message that differ in what is remembered of it only. *)
Definition same_message (d d' : DxlMessage) : Prop :=
  dx_msg d' <| dm_otherFields := dm_otherFields (dx_msg d) |> = dx_msg d ∧ sets_agree d'.
Lemma same_message_refl d : sets_agree d → same_message d d.
Proof. intros Hd. split; [|done]. by destruct (dx_msg d). Qed.
Lemma same_message_trans d1 d2 d3 : same_message d1 d2 → same_message d2 d3 → same_message d1 d3.
Proof. intros [H12 _] [H23 H3]. split; [|done]. rewrite <-H12, <-H23. by destruct (dx_msg d3). Qed.
Lemma same_fields d d' : same_message d d' →
  dm_specificData (dx_msg d') = dm_specificData (dx_msg d) ∧ dm_payload (dx_msg d') = dm_payload (dx_msg d) ∧
  dm_brokerGuids (dx_msg d') = dm_brokerGuids (dx_msg d) ∧ dm_clientGuids (dx_msg d') = dm_clientGuids (dx_msg d) ∧
  dm_tenantGuids (dx_msg d') = dm_tenantGuids (dx_msg d) ∧ dm_sourceTenantGuid (dx_msg d') = dm_sourceTenantGuid (dx_msg d).
Proof. intros [<- _]. by destruct (dx_msg d'). Qed.
Lemma same_type d d' : same_message d d' → dm_messageType (dx_msg d') = dm_messageType (dx_msg d).
Proof. intros Hs. unfold dm_messageType. by destruct (same_fields _ _ Hs) as (-> & _). Qed.

Lemma brokers_same d : sets_agree d → same_message d (getDestinationBrokerGuids d).2.
Proof. intros (Hb & Hc & Ht). split; [exact (msg_eta (dx_msg d))|]. split_and!; [exact (guid_set_again _ _ Hb)|exact Hc|exact Ht]. Qed.
Lemma clients_same d : sets_agree d → same_message d (getDestinationClientGuids d).2.
Proof. intros (Hb & Hc & Ht). split; [exact (msg_eta (dx_msg d))|]. split_and!; [exact Hb|exact (guid_set_again _ _ Hc)|exact Ht]. Qed.
Lemma tenants_same d : sets_agree d → same_message d (getDestinationTenantGuids d).2.
Proof. intros (Hb & Hc & Ht). split; [exact (msg_eta (dx_msg d))|]. split_and!; [exact Hb|exact Hc|exact (guid_set_again _ _ Ht)]. Qed.
Lemma pre_same `{HashOrder} d : sets_agree d → same_message d (onPreToBytes d).
Proof.
  intros Hd. unfold onPreToBytes. pose proof (msg_eta (dx_msg d)) as He.
  destruct (dx_otherFieldsPending d); [|exact (conj He Hd)]. cbv zeta. change (dx_otherFields (d <| dx_otherFieldsPending := false |>)) with (dx_otherFields d).
  destruct (dx_otherFields d) as [m|]; [|exact (conj He Hd)]. case_bool_decide; exact (conj He Hd).
Qed.

(** ** Keys *)

(** By what a destination is authorized: its own identifier if it is managed, its
    certificates else. *)
Definition auth_keys (settings : BrokerSettings) (flags : Z) (canonicalId : string) (certHashes : list string) : list string :=
  if has_flag flags DXL_FLAG_MANAGED then [client_id settings flags canonicalId]
  else match certHashes with [] => [""] | _ => certHashes end.

Lemma subscribe_spec settings publishers subscribers flags id certHashes topic :
  let a := TopicAuthorizationState_new publishers subscribers in
  ∃ b, (if has_flag flags DXL_FLAG_MANAGED then _isAuthorizedToSubscribe a (client_id settings flags id) topic
        else isAuthorizedToSubscribe_certs a certHashes topic) = Some b ∧
       (b = true ↔ ∃ key, key ∈ auth_keys settings flags id certHashes ∧ permitted subscribers key topic).
Proof.
  intros a. unfold auth_keys.
  assert (∀ key, ∃ b, _isAuthorizedToSubscribe a key topic = Some b ∧ (b = true ↔ permitted subscribers key topic)) as Hsub.
  { intros key. apply authorize_spec. by intros [_ ?]%orb_false_iff. }
  assert (∀ k (P : string → Prop), (∃ key, key ∈ [k] ∧ P key) ↔ P k) as Hone.
  { intros k P. split; [by intros (key & ->%list_elem_of_singleton & ?)|intros ?; exists k; split; [by left|done]]. }
  destruct (has_flag flags DXL_FLAG_MANAGED); [destruct (Hsub (client_id settings flags id)) as (b & Hb & Hspec); exists b; by rewrite Hone|].
  destruct certHashes as [|c certs]; [destruct (Hsub "") as (b & Hb & Hspec); exists b; by rewrite Hone|].
  destruct (any_cert_spec _ (c :: certs) _ Hsub) as (b & Hb & Hspec). by exists b.
Qed.

Section insert.
Context `{HashOrder} `{PtrOrder} `{MsgPack} `{Json} (settings : BrokerSettings).
Implicit Types (m : dxl_message_t) (destId canonicalId target : string) (flags : Z).

(** ** For whom a message is *)

Definition for_this_broker m : Prop := dm_brokerGuids m = [] ∨ set_guid settings ∈ dm_brokerGuids m.
Definition addressed_to destId canonicalId flags m : Prop :=
  dm_clientGuids m = [] ∨ destId ∈ dm_clientGuids m ∨ canonicalId ∈ dm_clientGuids m ∨
  (has_flag flags DXL_FLAG_LOCAL = true ∧ (set_guid settings ∈ dm_clientGuids m ∨ set_instanceGuid settings ∈ dm_clientGuids m)).
Definition tenant_may_see (source_flags flags : Z) target m : Prop :=
  set_multiTenantModeEnabled settings = true →
  match dm_tenantGuids m with
  | [] => has_flag flags DXL_FLAG_OPS = true ∨ has_flag source_flags DXL_FLAG_OPS = true ∨ target = dm_sourceTenantGuid m
  | guids => target ∈ guids
  end.

Lemma broker_listed made l g : guid_set made l = guid_set None l →
  match guid_set made l with Some s => negb (bool_decide (g ∈ s)) | None => false end = false ↔ l = [] ∨ g ∈ l.
Proof.
  intros ->. destruct l as [|x l]; [split; [by left|done]|]. cbn [guid_set]. rewrite negb_false_iff, bool_decide_eq_true, elem_of_list_to_set.
  split; [by right|by intros [|]].
Qed.
Lemma client_listed_spec made m destId canonicalId flags : guid_set made (dm_clientGuids m) = guid_set None (dm_clientGuids m) →
  match guid_set made (dm_clientGuids m) with Some s => negb (client_listed settings destId canonicalId flags s) | None => false end = false
    ↔ addressed_to destId canonicalId flags m.
Proof.
  intros ->. unfold addressed_to. destruct (dm_clientGuids m) as [|x l]; [split; [by left|done]|]. cbn [guid_set]. unfold client_listed.
  rewrite negb_false_iff, !orb_true_iff, andb_true_iff, !orb_true_iff, !bool_decide_eq_true, !elem_of_list_to_set.
  split; [intros [[|]|]; tauto|intros [|[|[|]]]; [done|tauto..]].
Qed.

(** What onInsertMessage does not change of a context. *)
Definition ctx_core (c : CoreMessageContext) : CoreMessageContext :=
  c <| cc_dxlMessageParsed := true |> <| cc_dxlMessage := None |> <| cc_clientSpecificMessageGenerated := false |>.
(** The state of the context after a handler. *)
Definition kept_ctx dbId c d l l' : Prop :=
  ∃ c' d', l' = put_ctx dbId c' l ∧ has_msg dbId c' d' l' ∧ ctx_core c' = ctx_core c ∧ same_message d d'.
Lemma kept_refl dbId c d l : has_msg dbId c d l → sets_agree d → kept_ctx dbId c d l l.
Proof.
  intros Hm Hd. exists c, d. split_and!; [|done|done|by apply same_message_refl]. destruct Hm as [Hl _]. unfold put_ctx. cbn.
  rewrite insert_id by done. by destruct l.
Qed.
Lemma kept_put dbId c d c1 d1 l l' : ctx_core c1 = ctx_core c → same_message d d1 → kept_ctx dbId c1 d1 (put_ctx dbId c1 l) l' → kept_ctx dbId c d l l'.
Proof.
  intros Hc Hd (c' & d' & -> & Hm & Hc' & Hd'). rewrite put_ctx_twice in *. exists c', d'. split_and!; [done|done|congruence|].
  by eapply same_message_trans.
Qed.

Lemma tenant_spec dbId c d l flags target : has_msg dbId c d l → sets_agree d →
  wpx (onInsertMultiTenantMessage dbId flags target)
    (λ ok l', (set_multiTenantModeEnabled settings = true → (ok = true ↔ tenant_may_see (cc_contextFlags c) flags target (dx_msg d))) ∧
       ∃ d1, l' = put_ctx dbId (with_msg d1 c) l ∧ has_msg dbId (with_msg d1 c) d1 l' ∧ same_message d d1) (λ _, False) l.
Proof.
  intros Hm Hd. unfold onInsertMultiTenantMessage. wpx_step. eapply wpx_query; [done|]. intros Hm1. wpx_steps. eapply wp_context_get; [apply Hm1|].
  wpx_step. eapply wpx_msg; [done|]. wpx_step. split; [|eexists; split_and!; [done|done|by apply tenants_same]].
  intros Hmt. unfold tenant_may_see, getDestinationTenantGuids. cbv zeta. cbn [fst snd]. pose proof Hd as (_ & _ & ->).
  destruct (dm_tenantGuids (dx_msg d)) as [|g guids]; cbn [guid_set].
  - unfold isSourceOps. change (cc_contextFlags (with_msg _ c)) with (cc_contextFlags c). rewrite !orb_true_iff, String.eqb_eq. cbn. tauto.
  - rewrite bool_decide_eq_true, elem_of_list_to_set. tauto.
Qed.

Definition unfreed (d : DxlMessage) : Prop := ∀ n, dm_payload (dx_msg d) ≠ PayloadFreed n.
Lemma unfreed_same d d' : same_message d d' → unfreed d → unfreed d'.
Proof. intros Hs Hd n. destruct (same_fields _ _ Hs) as (_ & -> & _). apply Hd. Qed.
Lemma toBytes_Some strip d : unfreed d → ∃ bytes, dxlMessageToBytes strip (dx_msg (onPreToBytes d)) = Some bytes ∧
  toBytes strip d = Some (bytes, onPreToBytes d).
Proof.
  intros Hd. assert (dm_payload (dx_msg (onPreToBytes d)) = dm_payload (dx_msg d)) as Hp.
  { unfold onPreToBytes. destruct (dx_otherFieldsPending d); [|done]. cbn. destruct (dx_otherFields d); [|done]. by case_bool_decide. }
  unfold toBytes, dxlMessageToBytes. rewrite Hp. destruct (dm_payload (dx_msg d)) as [|b|n] eqn:E; [by eexists..|]. by destruct (Hd n).
Qed.

(** A client that gets an event addressed to clients gets it without the list of
    the clients: written the first time, not again. *)
Definition client_copy c d (out' : client_out) : Prop :=
  isEventMessage d = true → dm_clientGuids (dx_msg d) ≠ [] →
  co_isClientMessageEnabled out' = true ∧
  (cc_clientSpecificMessageGenerated c = false →
     ∃ d1 bytes, same_message d d1 ∧ dxlMessageToBytes true (dx_msg d1) = Some bytes ∧ co_clientMessage out' = Some bytes).

Section one_client.
Context (dbId : Z) (c : CoreMessageContext) (d : DxlMessage) (l : Library) (destId canonicalId : string) (flags : Z) (target : string).

Definition meant_for : Prop :=
  for_this_broker (dx_msg d) ∧ addressed_to destId canonicalId flags (dx_msg d) ∧ tenant_may_see (cc_contextFlags c) flags target (dx_msg d).
Definition routed (r : bool * client_out) (l' : Library) : Prop :=
  (r.1 = true ↔ meant_for) ∧ kept_ctx dbId c d l l' ∧ (r.1 = true → client_copy c d r.2).
Lemma routed_no out l' : ¬ meant_for → kept_ctx dbId c d l l' → routed (false, out) l'.
Proof. intros Hno Hk. split_and!; [split; [done|intros Hm; by destruct Hno]|done|done]. Qed.

Lemma routing_client_spec out : has_msg dbId c d l → sets_agree d → unfreed d →
  wpx (routing_client settings dbId destId canonicalId flags target out) routed (λ _, False) l.
Proof.
  intros Hm Hd Hfree. unfold routing_client. wpx_step. eapply wpx_query; [done|]. intros Hm1.
  pose proof (brokers_same d Hd) as Hs1. pose proof (broker_listed _ _ (set_guid settings) (proj1 Hd)) as Hb.
  change (getDestinationBrokerGuids d).1 with (guid_set (dx_destBrokerGuids d) (dm_brokerGuids (dx_msg d))).
  set (d1 := (getDestinationBrokerGuids d).2) in *. assert (sets_agree d1) as Hd1 by apply Hs1.
  match type of Hb with ?b = false ↔ _ => destruct b end.
  { wpx_step. apply routed_no; [intros [Hin _]; by apply Hb in Hin|]. eapply (kept_put _ _ _ (with_msg d1 c) d1); [done..|by apply kept_refl]. }
  wpx_step. eapply wpx_query; [done|]. intros Hm2. rewrite put_ctx_twice, with_msg_twice in *.
  pose proof (clients_same d1 Hd1) as Hs2. pose proof Hd1 as (_ & Hd1c & _). pose proof (client_listed_spec _ _ destId canonicalId flags Hd1c) as Hc.
  change (getDestinationClientGuids d1).1 with (guid_set (dx_destClientGuids d1) (dm_clientGuids (dx_msg d1))).
  set (d2 := (getDestinationClientGuids d1).2) in *. assert (sets_agree d2) as Hd2 by apply Hs2.
  assert (same_message d d2) as Hs by (by eapply same_message_trans).
  assert (∀ out, ¬ meant_for → routed (false, out) (put_ctx dbId (with_msg d2 c) l)) as Hno.
  { intros out' Hn. apply routed_no; [done|]. eapply (kept_put _ _ _ (with_msg d2 c) d2); [done..|by apply kept_refl]. }
  match type of Hc with ?b = false ↔ _ => destruct b end.
  { wpx_step. apply Hno. intros (_ & Hin & _). by apply Hc in Hin. }
  assert (for_this_broker (dx_msg d)) as Hbroker by (by apply Hb). assert (addressed_to destId canonicalId flags (dx_msg d)) as Hclient by (by apply Hc).
  clear Hb Hc Hs1 Hs2 Hno. wpx_step.
  eapply (wpx_mono _ (λ ok l', (ok = true ↔ tenant_may_see (cc_contextFlags c) flags target (dx_msg d)) ∧
    ∃ d3, l' = put_ctx dbId (with_msg d3 c) l ∧ has_msg dbId (with_msg d3 c) d3 l' ∧ same_message d d3) _ (λ _, False)); [| |done].
  { destruct (set_multiTenantModeEnabled settings) eqn:Hmt.
    - eapply wpx_mono; [by apply (tenant_spec dbId (with_msg d2 c) d2)| |done]. intros ok l' (Hok & d3 & -> & Hm3 & Hs3). rewrite put_ctx_twice, with_msg_twice in *.
      split; [exact (Hok Hmt)|]. exists d3. split_and!; [done|done|exact (same_message_trans _ _ _ Hs Hs3)].
    - wpx_step. split; [|by exists d2]. unfold tenant_may_see. rewrite Hmt. done. }
  intros ok l' (Hok & d3 & -> & Hm3 & Hs3). destruct ok; cbn [negb].
  2: { wpx_step. apply routed_no; [intros (_ & _ & Ht); by apply Hok in Ht|]. eapply (kept_put _ _ _ (with_msg d3 c) d3); [done..|]. apply kept_refl; [done|apply Hs3]. }
  assert (meant_for) as Hyes by (split_and!; [done..|by apply Hok]). wpx_step. eapply wpx_msg; [done|].
  assert (bool_decide (is_Some (guid_set (dx_destClientGuids d1) (dm_clientGuids (dx_msg d1)))) = bool_decide (dm_clientGuids (dx_msg d) ≠ [])) as ->.
  { rewrite Hd1c. change (dm_clientGuids (dx_msg d1)) with (dm_clientGuids (dx_msg d)). by destruct (dm_clientGuids (dx_msg d)). }
  unfold isEventMessage. rewrite (same_type d d3 Hs3).
  assert (kept_ctx dbId c d l (put_ctx dbId (with_msg d3 c) l)) as Hk3.
  { eapply (kept_put _ _ _ (with_msg d3 c) d3); [done..|]. apply kept_refl; [done|apply Hs3]. }
  destruct (bool_decide (dm_clientGuids (dx_msg d) ≠ []) && bool_decide (dm_messageType (dx_msg d) = DXLMP_EVENT)) eqn:Hcopy.
  2: { wpx_step. split_and!; [done|done|]. intros _ Hev Hne. unfold isEventMessage in Hev. rewrite Hev, andb_true_r in Hcopy. by apply bool_decide_eq_false in Hcopy. }
  wpx_steps. eapply wp_context_get; [apply Hm3|]. change (cc_clientSpecificMessageGenerated (with_msg d3 c)) with (cc_clientSpecificMessageGenerated c).
  destruct (cc_clientSpecificMessageGenerated c) eqn:Hgen.
  { wpx_step. split_and!; [done|done|]. intros _ _ _. split; [done|by rewrite Hgen]. }
  destruct (toBytes_Some true d3) as (bytes & Hbytes & Hto); [exact (unfreed_same _ _ Hs3 Hfree)|]. wpx_steps. eapply wp_deref; [exact Hto|]. wpx_steps.
  eapply wp_context_upd; [apply Hm3|]. rewrite put_ctx_twice. wpx_steps. pose proof (pre_same d3 (proj2 Hs3)) as Hs4. split_and!; [done| |].
  - eexists _, (onPreToBytes d3). split_and!; [done| |done|exact (same_message_trans _ _ _ Hs3 Hs4)]. split_and!; [|done..].
    unfold put_ctx. cbn. by rewrite lookup_insert_eq.
  - intros _ _ _. split; [done|]. intros _. exists (onPreToBytes d3), bytes. split_and!; [exact (same_message_trans _ _ _ Hs3 Hs4)|done..].
Qed.
End one_client.

(** Routing, then authorization, then the count. *)
Lemma insert_client_spec l dbId c d destId canonicalId flags target certHashes out publishers subscribers :
  has_msg dbId c d l → sets_agree d → unfreed d → cc_messageInsertEnabled c = true →
  sv_authorization (lib_services l) = Some (TopicAuthorizationState_new publishers subscribers) →
  wp (onInsertMessage settings destId canonicalId false flags dbId target certHashes out)
    (λ r l', (r.1 = true ↔ meant_for c d destId canonicalId flags target ∧
                ∃ key, key ∈ auth_keys settings flags canonicalId certHashes ∧ permitted subscribers key (cc_topic c)) ∧
       kept_ctx dbId (if r.1 then c <| cc_destCount ::= λ n, i32 (n + 1) |> else c) d l l' ∧ (r.1 = true → client_copy c d r.2)) l.
Proof.
  intros Hm Hd Hfree Hen Hauth. unfold onInsertMessage. wp_steps. cbn [id]. pose proof Hm as (Hl & _ & _). rewrite Hl, Hen. cbn [negb].
  apply wp_catch. wpx_step. unfold routing_onInsertMessage. wpx_steps. eapply wp_isDxl; [done|].
  eapply wpx_mono; [by apply routing_client_spec| |done]. intros [b out'] l' (Hb & Hk & Hcopy). cbn [fst snd] in *. destruct b; cbn [negb].
  2: { wpx_step. split_and!; [|done|done]. split; [done|]. intros [Hmeant _]. by apply Hb in Hmeant. }
  pose proof Hk as (c' & d' & -> & Hm' & Hc' & Hd'). wpx_steps. unfold auth_onInsertMessage. wp_step.
  eapply wp_context_get; [apply Hm'|]. wp_step.
  destruct (subscribe_spec settings publishers subscribers flags canonicalId certHashes (cc_topic c')) as (ok & Hok & Hspec).
  eapply wp_deref; [exact Hauth|]. eapply wp_deref; [exact Hok|].
  assert (cc_topic c' = cc_topic c) as Htopic by exact (f_equal cc_topic Hc'). rewrite Htopic in Hspec.
  destruct ok; cbn [negb].
  2: { wpx_step. split_and!; [|done|done]. split; [done|]. intros [_ Hperm]. by apply Hspec in Hperm. }
  wpx_steps. eapply wp_context_upd; [apply Hm'|]. rewrite put_ctx_twice. wpx_steps. split_and!; [|  |done].
  - split; [intros _; split; [by apply Hb|by apply Hspec]|done].
  - eexists _, d'. split_and!; [done| | |done].
    + destruct Hm' as (_ & ? & ?). split_and!; [|done..]. unfold put_ctx. cbn. by rewrite lookup_insert_eq.
    + exact (f_equal (λ c, c <| cc_destCount ::= λ n, i32 (n + 1) |>) Hc').
Qed.

(** C11: a client gets a message exactly if the message is for this broker (or for
    all), for this client (or for all), visible to its tenant, and the policy lets
    the client receive on the topic. The broker's own client is also meant by the
    broker's identifiers. The destinations are counted. Whichever destinations
    were asked about before, the answer for the next is the same: what the question
    leaves behind is the same message. An event addressed to clients is delivered
    without the list of the addressees. No exception, no use of freed memory. *)
Theorem insert_client_correct l dbId c d destId canonicalId flags target certHashes out publishers subscribers :
  has_msg dbId c d l → sets_agree d → unfreed d → cc_messageInsertEnabled c = true →
  sv_authorization (lib_services l) = Some (TopicAuthorizationState_new publishers subscribers) →
  ∃ b out' l' c' d', onInsertMessage settings destId canonicalId false flags dbId target certHashes out l = Some ((b, out'), l') ∧
    (b = true ↔ for_this_broker (dx_msg d) ∧ addressed_to destId canonicalId flags (dx_msg d) ∧
       tenant_may_see (cc_contextFlags c) flags target (dx_msg d) ∧
       ∃ key, key ∈ auth_keys settings flags canonicalId certHashes ∧ permitted subscribers key (cc_topic c)) ∧
    has_msg dbId c' d' l' ∧ same_message d d' ∧ lib_services l' = lib_services l ∧
    cc_destCount c' = (if b then i32 (cc_destCount c + 1) else cc_destCount c) ∧
    (cc_topic c' = cc_topic c ∧ cc_contextFlags c' = cc_contextFlags c ∧ cc_messageInsertEnabled c' = true) ∧
    (b = true → client_copy c d out').
Proof.
  intros Hm Hd Hfree Hen Hauth.
  pose proof (insert_client_spec l dbId c d destId canonicalId flags target certHashes out publishers subscribers Hm Hd Hfree Hen Hauth) as Hwp.
  apply wp_Some in Hwp as ([b out'] & l' & Hrun & Hb & (c' & d' & Hl' & Hm' & Hc' & Hd') & Hcopy). cbn [fst snd] in *.
  exists b, out', l', c', d'. split_and!; [done| |done|done|by subst l'|..|done].
  - rewrite Hb. unfold meant_for. tauto.
  - rewrite (f_equal cc_destCount Hc' : cc_destCount c' = cc_destCount _). by destruct b.
  - rewrite (f_equal cc_topic Hc' : cc_topic c' = cc_topic _). by destruct b.
  - rewrite (f_equal cc_contextFlags Hc' : cc_contextFlags c' = cc_contextFlags _). by destruct b.
  - rewrite (f_equal cc_messageInsertEnabled Hc' : cc_messageInsertEnabled c' = cc_messageInsertEnabled _), <-Hen. by destruct b.
Qed.

(** ** From the wire to the destinations *)

Lemma bind_inr {A B} (m : unpacker A) (k : A → unpacker B) b r : (m ≫= k) b = inr r → ∃ a b', m b = inr (a, b') ∧ k a b' = inr r.
Proof. unfold mbind, unpacker_bind. destruct (m b) as [|[a b']]; [done|]. by exists a, b'. Qed.
Lemma fromBytes_fresh payload d : fromBytes payload = Some d → sets_agree d ∧ unfreed d.
Proof.
  unfold fromBytes, createDxlMessageFromBytes. destruct (read_message payload) as [|[m rest]] eqn:Hread; [done|]. intros [= <-].
  split; [done|]. cut (∃ b, dm_payload m = Payload b); [intros [b Hb] n; cbn; by rewrite Hb|]. unfold read_message in Hread.
  apply bind_inr in Hread as (version & ? & _ & Hread). apply bind_inr in Hread as (type & ? & _ & Hread).
  destruct (message_type_of type) as [t|]; [|done]. do 2 apply bind_inr in Hread as (? & ? & _ & Hread). cbv zeta in Hread.
  apply bind_inr in Hread as (? & ? & _ & Hread). apply bind_inr in Hread as (? & ? & _ & Hread). apply bind_inr in Hread as (? & ? & _ & Hread).
  apply bind_inr in Hread as (b & ? & _ & Hread). apply bind_inr in Hread as (? & ? & _ & Hread). exists b.
  apply bind_inr in Hread as (m1 & ? & Hm1 & Hread). apply bind_inr in Hread as (m2 & ? & Hm2 & Hread).
  assert (dm_payload m1 = Payload b) as Hp1.
  { destruct (0 <? version); [apply bind_inr in Hm1 as (? & ? & _ & [= <- _])|injection Hm1 as <- _]; done. }
  assert (dm_payload m2 = Payload b) as Hp2.
  { destruct (1 <? version); [|by injection Hm2 as <- _].
    apply bind_inr in Hm2 as (? & ? & _ & Hm2). apply bind_inr in Hm2 as (? & ? & _ & [= <- _]). done. }
  destruct (2 <? version); [apply bind_inr in Hread as (? & ? & _ & [= <- _])|injection Hread as <- _]; done.
Qed.

Lemma from_client_ok c tenant certChain d d' : sets_agree d → unfreed d → from_client settings c tenant certChain d d' → sets_agree d' ∧ unfreed d'.
Proof.
  intros (Hs1 & Hs2 & Hs3) Hfree (Hmsg & _ & _ & _ & Hb & Hc & Ht). split; [|intros n; rewrite Hmsg; apply Hfree].
  unfold sets_agree. rewrite Hb, Hc, Hmsg. split_and!; [exact Hs1|exact Hs2|].
  destruct Ht as [-> | ->]; [done|]. exact (guid_set_again None (dm_tenantGuids (dx_msg d)) eq_refl).
Qed.

(** C12: tenants are separated: where the broker separates them, a message that a
    client of a tenant published (not a bridge, and not one of the operators) and
    that was accepted is delivered only to clients of the same tenant, to clients of
    the operators' tenant or with the operators' flag, whatever tenant, source or
    destinations the client wrote into the message. *)
Theorem tenants_isolated l dbId sourceId canonicalId sourceFlags topic payload tenant certChain d l1 publishers subscribers :
  set_multiTenantModeEnabled settings = true →
  lib_contexts l !! dbId = Some (CoreMessageContext_new sourceId canonicalId false sourceFlags topic payload) → fromBytes payload = Some d →
  has_flag sourceFlags DXL_FLAG_OPS = false → sv_authorization (lib_services l) = Some (TopicAuthorizationState_new publishers subscribers) →
  accept_message settings dbId tenant certChain l = Some (inr true, l1) →
  ∀ destId canonicalDestId flags target certHashes out, ∃ b out' l2,
    onInsertMessage settings destId canonicalDestId false flags dbId target certHashes out l1 = Some ((b, out'), l2) ∧
    (b = true → target = tenant ∨ target = set_tenantGuid settings ∨ has_flag flags DXL_FLAG_OPS = true).
Proof.
  intros Hmt Hl Hd Hops Hauth Hrun destId canonicalDestId flags target certHashes out. set (c := CoreMessageContext_new _ _ _ _ _ _) in *.
  pose proof (wp_inv _ _ _ _ _ (accept_client_spec settings l dbId sourceId canonicalId sourceFlags topic payload tenant certChain d Hl Hd) Hrun) as [Hok (d' & -> & Hthen)].
  pose proof (Hthen eq_refl) as Hfrom. pose proof Hfrom as [Hmsg _]. destruct (fromBytes_fresh _ _ Hd) as [Hsets Hfree].
  symmetry in Hok. apply andb_true_iff in Hok as [_ Hten]. unfold tenants_allowed, isSourceOps in Hten. cbn [cc_contextFlags CoreMessageContext_new] in Hten.
  rewrite Hmt, Hops in Hten. cbn [negb orb] in Hten. rewrite forallb_forall in Hten.
  destruct (from_client_ok c tenant certChain d d' Hsets Hfree) as [Hsets' Hfree']; [done|].
  pose proof (insert_client_spec (put_ctx dbId (with_msg d' c) l) dbId (with_msg d' c) d' destId canonicalDestId flags target certHashes out
    publishers subscribers (has_msg_put dbId c d' l) Hsets' Hfree' eq_refl Hauth) as Hwp.
  apply wp_Some in Hwp as ([b out'] & l2 & Hrun2 & Hb2 & _). exists b, out', l2. split; [done|]. intros Htrue. apply Hb2 in Htrue as [(_ & _ & Hsee) _].
  specialize (Hsee Hmt). rewrite Hmsg in Hsee. unfold true_source in Hsee. rewrite Hmt in Hsee. cbn in Hsee. rewrite Hops in Hsee.
  destruct (dm_tenantGuids (dx_msg d)) as [|g guids]; [naive_solver|]. apply list_elem_of_In, Hten in Hsee.
  rewrite orb_true_iff, !String.eqb_eq in Hsee. tauto.
Qed.
End insert.
