(* ===== verification/RequestProofs.v ===== *)
(** * Where a request goes

    [ServiceLookupHandler::findServiceForTopic] tries the topic, then the
    wildcards above it, longest first; [handleRequest] addresses the request to
    the service that was found, or answers the client that there is none; and
    [onFinalizeMessage] answers for a request that nobody got. The events of the
    brokers, which a client cannot publish, are followed through the whole of
    [onStoreMessage]. *)

From S2P Require Import Prelude Topic CoreUtil Authorization Fabric TopicCache Registry Metrics Services ServiceProofs ServiceTurns ServiceClaims DxlMessages MessageCore MessageService MessageHandlers PassageProofs InsertProofs.
From stdpp Require Import options.

Section requests.
Context `{HashOrder} `{PtrOrder} (settings : BrokerSettings).
Implicit Types s : ServiceRegistry.

(** ** The search *)

(** [w] is the first topic of [ws] with a service that may serve. *)
Definition found s (ws : list string) (tenant : string) (res : option regptr) : Prop :=
  let none w := ∀ g p r, registration s g p r → w ∈ sr_requestChannels r → refused settings s w tenant p in
  match res with
  | Some p => ∃ ws1 w ws2 g r, ws = ws1 ++ w :: ws2 ∧ Forall none ws1 ∧ registration s g p r ∧ w ∈ sr_requestChannels r ∧ served settings s w tenant p
  | None => Forall none ws
  end.

Lemma registration_looks s s' g p r : svc_looks s s' → registration s g p r ↔ registration s' g p r.
Proof. intros (Hh & Hi & _). unfold registration. by rewrite Hh, Hi. Qed.

(** A search moves the clock and the turns of the zones, and fills the caches of routes. *)
Definition svc_still s s' : Prop := svc_looks s s' ∧ sv_metrics s' = sv_metrics s ∧ sv_sent s' = sv_sent s.
Lemma svc_still_refl s : svc_still s s.
Proof. split_and!; [apply svc_looks_refl|done|done]. Qed.
Lemma svc_still_trans s1 s2 s3 : svc_still s1 s2 → svc_still s2 s3 → svc_still s1 s3.
Proof. intros (?&?&?) (?&?&?). split_and!; [by eapply svc_looks_trans|congruence..]. Qed.

Definition searched s ws tenant (res : option regptr) s' : Prop :=
  services_safe settings s' ∧ svc_still s s' ∧ found s ws tenant res.

(** One more topic in front. *)
Lemma searched_cons s s1 w ws tenant (res : option regptr) s' : svc_still s s1 → found s [w] tenant None →
  searched s1 ws tenant res s' → searched s (w :: ws) tenant res s'.
Proof.
  intros Hl Hw (Hsafe & Hl' & Hfound). split_and!; [done|by eapply svc_still_trans|]. destruct Hl as [Hl _]. apply Forall_cons in Hw as [Hw _].
  assert (∀ w', (∀ g p r, registration s1 g p r → w' ∈ sr_requestChannels r → refused settings s1 w' tenant p) →
    ∀ g p r, registration s g p r → w' ∈ sr_requestChannels r → refused settings s w' tenant p) as Hback.
  { intros w' Hn g p r Hr Hch. eapply refused_looks; [done|]. eapply Hn; [by apply (registration_looks s s1)|done]. }
  destruct res as [p|]; cbn in *.
  - destruct Hfound as (ws1 & w' & ws2 & g & r & -> & Hnone & Hr & Hch & Hs). exists (w :: ws1), w', ws2, g, r. split_and!; [done| | |done|].
    + constructor; [done|]. eapply Forall_impl; [exact Hnone|]. exact Hback.
    + by apply (registration_looks s s1).
    + by eapply served_looks.
  - constructor; [done|]. eapply Forall_impl; [exact Hfound|]. exact Hback.
Qed.

Lemma one_topic s topic tenant : services_safe settings s → wp (getNextService settings topic tenant) (λ res s', searched s [topic] tenant res s') s.
Proof.
  intros [Hok Hs]. eapply wp_mono; [by apply getNextService_wp|]. intros res s' (Hok' & Hs' & (_ & _ & ? & ? & Hl) & Hres).
  split_and!; [by split|done|]. destruct res as [p|]; cbn.
  - destruct Hres as [(g & r & Hr & Hch) Hsv]. exists [], topic, [], g, r. split_and!; [done|constructor|done..].
  - constructor; [exact Hres|constructor].
Qed.
Lemma searched_first s topic ws tenant p s' : searched s [topic] tenant (Some p) s' → searched s (topic :: ws) tenant (Some p) s'.
Proof.
  intros (Hsafe & Hl & ws1 & w & ws2 & g & r & Heq & _ & Hr & Hch & Hs). split_and!; [done..|].
  destruct ws1 as [|? ws1]; [injection Heq as -> _|by destruct ws1]. exists [], w, ws, g, r. split_and!; [done|constructor|done..].
Qed.

Lemma wildcard_services fuel tenant : ∀ wcTopic ws s, iterates fuel wcTopic = Some ws → services_safe settings s →
  wp (wildcard_service_loop settings fuel tenant wcTopic) (λ res s', searched s ws tenant res s') s.
Proof.
  induction fuel as [|fuel IH]; intros wcTopic ws s Hit Hsafe; [done|]. cbn [iterates wildcard_service_loop] in *.
  destruct (iterateWildcardNext wcTopic) as [wc|]; [|injection Hit as <-; wp_step; split_and!; [done|apply svc_still_refl|constructor]].
  destruct (iterates fuel wc) as [ws'|] eqn:Hws; [|done]. injection Hit as <-. wp_step. eapply wp_mono; [by apply one_topic|].
  intros [p|] s1 Hs1; [wp_step; by apply searched_first|]. pose proof Hs1 as (Hsafe1 & Hl1 & Hnone).
  eapply wp_mono; [by apply (IH wc ws' s1)|]. intros res s2 Hs2. by eapply searched_cons.
Qed.

Lemma findServiceForTopic_spec s topic tenant : services_safe settings s →
  wp (findServiceForTopic settings topic tenant) (λ res s', searched s (topic :: wildcards_of topic) tenant res s') s.
Proof.
  intros Hsafe. unfold findServiceForTopic. wp_step. eapply wp_mono; [by apply one_topic|].
  intros [p|] s1 Hs1; [wp_step; by apply searched_first|]. pose proof Hs1 as (Hsafe1 & Hl1 & Hnone).
  eapply wp_mono; [by apply wildcard_services; [apply iterates_spec|]|]. intros res s2 Hs2. by eapply searched_cons.
Qed.
End requests.

Section routing.
Context `{HashOrder} `{PtrOrder} `{MsgPack} `{Json} (settings : BrokerSettings).

(** ** Answers of the broker *)

(** The error that the broker answers a request [d] with. *)
Definition error_reply (d : DxlMessage) (code : Z) (e : DxlMessage) : Prop :=
  dm_specificData (dx_msg e) = responseErrorData (dm_messageId (dx_msg d)) (getDestinationServiceId d) (getMessage code) (i32 code) ∧
  dm_brokerGuids (dx_msg e) = (if String.eqb (dm_sourceBrokerGuid (dx_msg d)) "" then [] else [dm_sourceBrokerGuid (dx_msg d)]) ∧
  dm_clientGuids (dx_msg e) = (if String.eqb (getSourceClientInstanceId d) "" then [] else [getSourceClientInstanceId d]) ∧
  dm_sourceBrokerGuid (dx_msg e) = set_guid settings.
(** It was handed to the core, for the reply topic, and nothing else. *)
Definition answered (d : DxlMessage) (code : Z) (l l' : Library) : Prop :=
  lib_contexts l' = lib_contexts l ∧ lib_services l' = lib_services l ∧
  ∃ e bytes, error_reply d code e ∧ dxlMessageToBytes false (dx_msg e) = Some bytes ∧ lib_outbox l' = lib_outbox l ++ [(getReplyToTopic d, bytes)].

Lemma sendErrorMessage_spec d code E l : set_guid settings ≠ "" → wpx (sendErrorMessage settings code d) (λ _ l', answered d code l l') E l.
Proof.
  intros Hguid. apply String.eqb_neq in Hguid. unfold sendErrorMessage. wpx_steps. unfold new_uuid. unfold wp at 1. set (uuid := lib_uuids l 0%nat).
  set (l1 := l <| lib_uuids := _ |>). wpx_steps.
  unfold createErrorResponse, createErrorResponseMessage, createMessage. rewrite Hguid. cbn [fmap option_fmap option_map].
  match goal with |- wpx (call (sendMessage _ ?e)) _ _ _ => assert (error_reply d code e ∧ dm_payload (dx_msg e) = PayloadNull) as [He Hp]; [|set (e0 := e) in *] end.
  { unfold error_reply, DxlResponse_new.
    destruct (String.eqb (dm_sourceBrokerGuid (dx_msg d)) ""), (String.eqb (getSourceClientInstanceId d) ""),
      (String.eqb_spec (getDestinationServiceId d) "") as [->|]; by split_and!. }
  unfold sendMessage. wpx_steps. destruct (toBytes_Some false e0) as (bytes & Hbytes & Hto); [intros n; by rewrite Hp|].
  eapply wp_deref; [exact Hto|]. wpx_steps. split_and!; [done..|]. exists (onPreToBytes e0), bytes. split_and!; [|done..].
  unfold onPreToBytes. destruct (dx_otherFieldsPending e0); [|exact He]. cbv zeta.
  change (dx_otherFields (e0 <| dx_otherFieldsPending := false |>)) with (dx_otherFields e0).
  destruct (dx_otherFields e0); [case_bool_decide|]; exact He.
Qed.

Lemma wp_on_services {A} (m : ST ServiceRegistry A) Q l :
  wp m (λ a s, Q a (l <| lib_services := s |>)) (lib_services l) → wp (on_services m) Q l.
Proof. unfold wp, on_services. by destruct (m (lib_services l)) as [[a s]|]. Qed.

(** ** Requests *)

(** The client named the service, its client and its broker: nothing is looked up. *)
Definition addressed_request (d : DxlMessage) : Prop :=
  getDestinationServiceId d ≠ "" ∧ dm_clientGuids (dx_msg d) ≠ [] ∧ dm_brokerGuids (dx_msg d) ≠ [].
(** The service the client named, else the first that may serve. *)
Definition chosen (s : ServiceRegistry) (topic : string) (d : DxlMessage) (res : option regptr) : Prop :=
  let tenant := dm_sourceTenantGuid (dx_msg d) in
  if String.eqb (getDestinationServiceId d) "" then found settings s (topic :: wildcards_of topic) tenant res
  else res = findService_for settings (getDestinationServiceId d) tenant s.

Lemma request_fields d : isRequestMessage d = true → dm_specificData (dx_msg d) = requestData (getReplyToTopic d) (getDestinationServiceId d).
Proof.
  unfold isRequestMessage, dm_messageType, getReplyToTopic, getDestinationServiceId. rewrite bool_decide_eq_true.
  by destruct (dm_specificData (dx_msg d)).
Qed.

(** Whether the message already has its routing. *)
Lemma has_routing_spec dbId c d l : has_msg dbId c d l → sets_agree d →
  wpx (if negb (String.eqb (getDestinationServiceId d) "") then
         clients ← msg_query dbId getDestinationClientGuids;
         match clients with
         | None => mret false
         | Some _ => brokers ← msg_query dbId getDestinationBrokerGuids; mret (bool_decide (is_Some brokers))
         end
       else mret false)
    (λ b l', (b = true ↔ addressed_request d) ∧ ∃ d1, l' = put_ctx dbId (with_msg d1 c) l ∧ has_msg dbId (with_msg d1 c) d1 l' ∧ dx_msg d1 = dx_msg d)
    (λ _, False) l.
Proof.
  intros Hm (Hb & Hc & _). unfold addressed_request. destruct (String.eqb_spec (getDestinationServiceId d) "") as [He|Hne]; cbn [negb].
  { wpx_step. split; [split; [done|tauto]|]. exists d. rewrite has_msg_same by done. split_and!; [done| |done].
    destruct Hm as (Hl & Hp & Hd). by replace (with_msg d c) with c by (destruct c; cbn in *; by subst). }
  wpx_step. eapply wpx_query; [done|]. intros Hm1. change (getDestinationClientGuids d).1 with (guid_set (dx_destClientGuids d) (dm_clientGuids (dx_msg d))).
  rewrite Hc. destruct (dm_clientGuids (dx_msg d)) as [|g guids]; cbn [guid_set].
  { wpx_step. split; [split; [done|tauto]|]. by eexists. }
  wpx_step. eapply wpx_query; [done|]. intros Hm2. wpx_step. rewrite put_ctx_twice, with_msg_twice in *. split; [|by eexists].
  match goal with |- context [is_Some ?x] => change x with (guid_set (dx_destBrokerGuids d) (dm_brokerGuids (dx_msg d))) end.
  rewrite Hb. destruct (dm_brokerGuids (dx_msg d)); cbn [guid_set]; [split; [by intros ?%bool_decide_eq_true%is_Some_None|tauto]|].
  rewrite bool_decide_true by done. by split.
Qed.

(** A service that is not there is no longer named where tenants are separated. *)
Definition unnamed (d : DxlMessage) : dxl_message_t :=
  dx_msg d <| dm_specificData := requestData (getReplyToTopic d) (if set_multiTenantModeEnabled settings then "" else getDestinationServiceId d) |>.
Lemma unnamed_same d : isRequestMessage d = true → set_multiTenantModeEnabled settings = false ∨ getDestinationServiceId d = "" → unnamed d = dx_msg d.
Proof.
  intros Hreq Hs. unfold unnamed.
  assert ((if set_multiTenantModeEnabled settings then "" else getDestinationServiceId d) = getDestinationServiceId d) as ->.
  { destruct Hs as [-> | ->]; [done|by destruct (set_multiTenantModeEnabled settings)]. }
  rewrite <-(request_fields d Hreq). by destruct (dx_msg d).
Qed.

Definition looked_up dbId c d (s0 : ServiceRegistry) (out : list (string * string)) (res : option regptr) (l' : Library) : Prop :=
  chosen s0 (cc_topic c) d res ∧ services_safe settings (lib_services l') ∧ svc_still s0 (lib_services l') ∧ lib_outbox l' = out ∧
  ∃ d2, has_msg dbId (with_msg d2 c) d2 l' ∧ dx_msg d2 = (match res with Some _ => dx_msg d | None => unnamed d end).

Lemma lookup_spec dbId c d d1 l : has_msg dbId (with_msg d1 c) d1 l → dx_msg d1 = dx_msg d → isRequestMessage d = true → services_safe settings (lib_services l) →
  wpx (if negb (String.eqb (getDestinationServiceId d) "") then
         service ← call (on_services (gets (findService_for settings (getDestinationServiceId d) (dm_sourceTenantGuid (dx_msg d)))));
         (match service with
          | None => if set_multiTenantModeEnabled settings then msg_upd dbId (setDestinationServiceId "") else mret tt
          | Some _ => mret tt
          end);;
         mret service
       else call (on_services (findServiceForTopic settings (cc_topic c) (dm_sourceTenantGuid (dx_msg d)))))
    (looked_up dbId c d (lib_services l) (lib_outbox l)) (λ _, False) l.
Proof.
  intros Hm Hd1 Hreq Hsafe. unfold looked_up, chosen. destruct (String.eqb_spec (getDestinationServiceId d) "") as [He|Hne]; cbn [negb].
  - wpx_steps. apply wp_on_services. eapply wp_mono; [by apply findServiceForTopic_spec|]. intros res s' (Hsafe' & Hl & Hfound).
    split_and!; [done..|]. exists d1. split; [exact Hm|]. rewrite Hd1. destruct res; [done|]. by rewrite unnamed_same by auto.
  - wpx_steps. apply wp_on_services. wpx_steps. replace (l <| lib_services := lib_services l |>) with l by (by destruct l).
    destruct (findService_for _ _ _ _) as [p|] eqn:Hfind.
    { wpx_steps. split_and!; [done|done|apply svc_still_refl|done|]. by exists d1. }
    destruct (set_multiTenantModeEnabled settings) eqn:Hmt.
    + eapply wpx_msg_upd; [done|]. rewrite !with_msg_twice. intros Hm2. wpx_step.
      split_and!; [done|exact Hsafe|apply svc_still_refl|done|]. eexists. split; [exact Hm2|].
      assert (dm_specificData (dx_msg d1) = requestData (getReplyToTopic d) (getDestinationServiceId d)) as Hspec by (rewrite Hd1; by apply request_fields).
      unfold setDestinationServiceId, markDirty, unnamed. rewrite <-Hd1, Hmt. cbn. unfold dm_messageType, setDxlRequestMessageAttributes. by rewrite Hspec.
    + wpx_steps. split_and!; [done|done|apply svc_still_refl|done|]. exists d1. split; [done|]. by rewrite unnamed_same by auto.
Qed.

Lemma routing_payload r d : dm_payload (dx_msg (setRouting r d)) = dm_payload (dx_msg d).
Proof. unfold setRouting, setDestinationServiceId, markDirty. cbn. unfold dm_messageType, setDxlRequestMessageAttributes, setDxlResponseMessageServiceId. cbn. by destruct (dm_specificData (dx_msg d)). Qed.

(** What [handleRequest] leaves: an addressed request as it is, any other with its
    service, or answered. *)
Definition request_handled dbId c d l (b : bool) l' : Prop := ∃ d', has_msg dbId (with_msg d' c) d' l' ∧ services_safe settings (lib_services l') ∧
  svc_still (lib_services l) (lib_services l') ∧ dm_payload (dx_msg d') = dm_payload (dx_msg d) ∧
  (addressed_request d → b = true ∧ dx_msg d' = dx_msg d ∧ lib_outbox l' = lib_outbox l) ∧
  (¬ addressed_request d → ∃ res, chosen (lib_services l) (cc_topic c) d res ∧
     match res with
     | Some p => b = true ∧ lib_outbox l' = lib_outbox l ∧ ∃ g r, registration (lib_services l) g p r ∧
         dx_msg d' = dx_msg d <| dm_brokerGuids := [sr_brokerGuid r] |> <| dm_clientGuids := [getClientInstanceGuid r] |>
                              <| dm_specificData := requestData (getReplyToTopic d) (sr_serviceGuid r) |>
     | None => b = false ∧ dx_msg d' = unnamed d ∧ ∃ e bytes, error_reply d' FABRICSERVICEUNAVAILABLE e ∧
         dxlMessageToBytes false (dx_msg e) = Some bytes ∧ lib_outbox l' = lib_outbox l ++ [(getReplyToTopic d, bytes)]
     end).
Lemma handleRequest_spec l dbId c d : has_msg dbId c d l → sets_agree d → isRequestMessage d = true →
  services_safe settings (lib_services l) → set_guid settings ≠ "" → wpx (handleRequest settings dbId) (request_handled dbId c d l) (λ _, False) l.
Proof.
  intros Hm Hd Hreq Hsafe Hguid.
  unfold handleRequest. wpx_steps. eapply wp_context_get; [apply Hm|]. wpx_step. eapply wpx_msg_of; [done| |by rewrite Hreq]. intros _.
  wpx_step. eapply wpx_mono; [by apply has_routing_spec| |done]. intros b l1 (Hb & d1 & -> & Hm1 & Hd1). destruct b.
  { wpx_step. exists d1. split_and!; [done|done|apply svc_still_refl|by rewrite Hd1|by intros _|]. intros Hn. by destruct Hn; apply Hb. }
  assert (¬ addressed_request d) as Hnot by (intros Ha; by apply Hb in Ha). wpx_step.
  eapply wpx_mono; [eapply (lookup_spec dbId c d d1); done| |done]. intros res l2 (Hchosen & Hsafe2 & Hlooks & Hout & d2 & Hm2 & Hd2).
  change (lib_services (put_ctx dbId (with_msg d1 c) l)) with (lib_services l) in *. change (lib_outbox (put_ctx dbId (with_msg d1 c) l)) with (lib_outbox l) in *.
  destruct res as [p|].
  - assert (∃ g r, registration (lib_services l) g p r) as (g & r & Hr).
    { unfold chosen in Hchosen. cbv zeta in Hchosen. destruct (String.eqb (getDestinationServiceId d) "").
      - destruct Hchosen as (_ & _ & _ & g & r & _ & _ & Hr & _). by exists g, r.
      - unfold findService_for in Hchosen. destruct (sv_servicesById (lib_services l) !! getDestinationServiceId d) as [q|] eqn:Hq; cbn in Hchosen; [|discriminate].
        destruct (sv_heap (lib_services l) !! q) as [r|] eqn:Hr; cbn in Hchosen; [|discriminate].
        destruct (isServiceAvailable _ _ _); [|discriminate]. injection Hchosen as ->. by exists (getDestinationServiceId d), r. }
    pose proof (proj1 (registration_looks _ _ g p r (proj1 Hlooks)) Hr) as [_ Hheap]. wpx_steps. apply wp_on_services. eapply wp_reg_get; [exact Hheap|].
    replace (l2 <| lib_services := lib_services l2 |>) with l2 by (by destruct l2). wpx_step. eapply wpx_msg_upd; [done|]. intros Hm3. wpx_steps.
    exists (setRouting r d2). split_and!; [exact Hm3|exact Hsafe2|exact Hlooks| |done|].
    { transitivity (dm_payload (dx_msg d2)); [by apply routing_payload|by rewrite Hd2]. }
    intros _. exists (Some p). split_and!; [done..|].
    exists g, r. split; [done|]. pose proof (request_fields d Hreq) as Hspec. rewrite <-Hd2 in Hspec |- *. unfold setRouting, setDestinationServiceId, markDirty. cbn.
    unfold dm_messageType, setDxlRequestMessageAttributes. cbn. by rewrite Hspec.
  - wpx_step. eapply wpx_msg; [done|]. wpx_step. eapply wpx_mono; [by apply (sendErrorMessage_spec d2 _ (λ _, False))| |done]. intros _ l3 (Hctx & Hsvc & e & bytes & He & Hbytes & Hposted).
    wpx_step. exists d2. split_and!; [|by rewrite Hsvc|by rewrite Hsvc|by rewrite Hd2|done|].
    { destruct Hm2 as (Hl2 & ? & ?). split_and!; [by rewrite Hctx|done..]. }
    intros _. exists None. split_and!; [done..|]. exists e, bytes. split_and!; [done..|]. rewrite Hposted, Hout. do 3 f_equal.
    assert (getReplyToTopic d2 = getReplyToTopic d) as ->; [|done]. unfold getReplyToTopic at 1. by rewrite Hd2.
Qed.

(** C13: a request is routed or answered: a request that names its service, client and
    broker is passed on as it is; any other is addressed to the service that it
    names or, if it names none, to the first service that may serve on the topic or
    on the wildcards above it, longest first; if there is none the client is
    answered that the service is unavailable, and the request goes no further. The
    search terminates and throws nothing. *)
Theorem request_routed l dbId c d : has_msg dbId c d l → sets_agree d → isRequestMessage d = true →
  services_safe settings (lib_services l) → set_guid settings ≠ "" →
  ∃ b l' c' d', handleRequest settings dbId l = Some (inr b, l') ∧ has_msg dbId c' d' l' ∧ services_safe settings (lib_services l') ∧
    (addressed_request d → b = true ∧ dx_msg d' = dx_msg d ∧ lib_outbox l' = lib_outbox l) ∧
    (¬ addressed_request d → ∃ res, chosen (lib_services l) (cc_topic c) d res ∧
       match res with
       | Some p => b = true ∧ lib_outbox l' = lib_outbox l ∧ ∃ g r, registration (lib_services l) g p r ∧
           dx_msg d' = dx_msg d <| dm_brokerGuids := [sr_brokerGuid r] |> <| dm_clientGuids := [getClientInstanceGuid r] |>
                                <| dm_specificData := requestData (getReplyToTopic d) (sr_serviceGuid r) |>
       | None => b = false ∧ dx_msg d' = unnamed d ∧ ∃ e bytes, error_reply d' FABRICSERVICEUNAVAILABLE e ∧
           dxlMessageToBytes false (dx_msg e) = Some bytes ∧ lib_outbox l' = lib_outbox l ++ [(getReplyToTopic d, bytes)]
       end).
Proof.
  intros Hm Hd Hreq Hsafe Hguid. destruct (wpx_run _ _ _ _ (handleRequest_spec l dbId c d Hm Hd Hreq Hsafe Hguid)) as (b & l' & Hrun & Hr).
  destruct b as [|b]; [done|]. destruct Hr as (d' & Hm' & Hsafe' & _ & _ & Hcases). by exists b, l', (with_msg d' c), d'.
Qed.
End routing.

(** ** The end of a message, and the events of the fabric *)

Section service_claims.
Context `{HashOrder} `{PtrOrder} `{MsgPack} `{Json} (settings : BrokerSettings) (isInfoEnabled : bool)
  (other_store_handlers : gmap string StoreHandler).

(** A request that nobody was found for when it had been stored. *)
Definition undelivered (c : CoreMessageContext) (d : DxlMessage) : bool :=
  cc_serviceNotFoundEnabled c && (cc_destCount c =? 0) && cc_messageInsertEnabled c && isRequestMessage d.

(** An event from elsewhere that nobody heard, which the broker reports in test mode. *)
Definition unheard (c : CoreMessageContext) (d : DxlMessage) : bool :=
  set_testModeEnabled settings && (cc_destCount c =? 0) && cc_messageInsertEnabled c &&
  (negb (String.eqb (dm_sourceBrokerGuid (dx_msg d)) (set_guid settings)) && isEventMessage d
   && negb (String.prefix DXL_CLIENT_PREFIX_BRACKET (cc_topic c)) && negb (String.prefix DXL_BROKER_EVENT_PREFIX (cc_topic c))
   && negb (String.eqb CHANNEL_DXL_EVENT_SUBSCRIBER_NOT_FOUND_EVENT (cc_topic c))).
(** The report: an event of this broker that names the topic. *)
Definition not_heard_event (topic : string) (e : DxlMessage) : Prop :=
  isEventMessage e = true ∧ dm_sourceBrokerGuid (dx_msg e) = set_guid settings ∧
  dm_payload (dx_msg e) = (if bool_decide (toJson_eventSubscriberNotFound topic = "") then PayloadNull else Payload (toJson_eventSubscriberNotFound topic)).
Lemma onPreToBytes_frame e : dm_specificData (dx_msg (onPreToBytes e)) = dm_specificData (dx_msg e) ∧
  dm_sourceBrokerGuid (dx_msg (onPreToBytes e)) = dm_sourceBrokerGuid (dx_msg e) ∧ dm_payload (dx_msg (onPreToBytes e)) = dm_payload (dx_msg e).
Proof. unfold onPreToBytes. destruct (dx_otherFieldsPending e); [|done]. cbv zeta. destruct (dx_otherFields _); [case_bool_decide|]; done. Qed.

(** One more message for the core, and nothing else. *)
Definition posts (P : DxlMessage → Prop) (channel : string) (l l' : Library) : Prop :=
  lib_contexts l' = lib_contexts l ∧ lib_services l' = lib_services l ∧
  ∃ e bytes, P e ∧ dxlMessageToBytes false (dx_msg e) = Some bytes ∧ lib_outbox l' = lib_outbox l ++ [(channel, bytes)].

Lemma noRequest_spec l dbId c d : has_msg dbId c d l → set_guid settings ≠ "" →
  wpx (noRequestDest_onFinalizeMessage settings dbId)
    (λ _ l', if undelivered c d then posts (error_reply settings d FABRICSERVICEUNAVAILABLE) (getReplyToTopic d) l l' else l' = l) (λ _, False) l.
Proof.
  intros Hm Hguid. unfold noRequestDest_onFinalizeMessage, undelivered. wpx_steps. eapply wp_context_get; [apply Hm|]. wpx_steps. eapply wp_isDxl; [done|].
  destruct (cc_serviceNotFoundEnabled c && (cc_destCount c =? 0)); cbn [andb]; [|by wpx_steps].
  destruct (cc_messageInsertEnabled c); cbn [andb]; [|by wpx_steps]. wpx_step. eapply wpx_msg; [done|]. destruct (isRequestMessage d); [|by wpx_steps].
  by apply sendErrorMessage_spec.
Qed.
Lemma noEvent_spec l dbId c d : has_msg dbId c d l → set_guid settings ≠ "" → set_testModeEnabled settings = true →
  wpx (noEventDest_onFinalizeMessage settings dbId)
    (λ _ l', if unheard c d then posts (not_heard_event (cc_topic c)) CHANNEL_DXL_EVENT_SUBSCRIBER_NOT_FOUND_EVENT l l' else l' = l) (λ _, False) l.
Proof.
  intros Hm Hguid Htest. apply String.eqb_neq in Hguid. unfold noEventDest_onFinalizeMessage, unheard. rewrite Htest. wpx_steps. eapply wp_context_get; [apply Hm|]. wpx_steps. eapply wp_isDxl; [done|].
  cbn [andb]. rewrite andb_true_r. destruct (cc_destCount c =? 0); cbn [andb]; [|by wpx_steps]. destruct (cc_messageInsertEnabled c); cbn [andb]; [|by wpx_steps].
  wpx_step. eapply wpx_msg; [done|]. cbv zeta. destruct (_ && _ && _ && _ && _); [|by wpx_steps]. wpx_steps. unfold new_uuid. unfold wp at 1. wpx_steps.
  unfold createEvent, createEventMessage, createMessage. rewrite Hguid. cbn [fmap option_fmap option_map compose]. wpx_steps.
  match goal with |- context [setPayload ?x ?e] => assert (∃ e', setPayload x e = Some e' ∧ not_heard_event (cc_topic c) e') as (e' & He & Hnot) end.
  { eexists. split; [reflexivity|]. unfold not_heard_event. cbn. by case_bool_decide. }
  eapply wp_deref; [exact He|]. wpx_steps. unfold sendMessage. wpx_steps. destruct (toBytes_Some false e') as (bytes & Hbytes & Hto).
  { destruct Hnot as (_ & _ & Hp). intros n. rewrite Hp. by case_bool_decide. }
  eapply wp_deref; [exact Hto|]. wpx_steps. split_and!; [done|done|]. exists (onPreToBytes e'), bytes. split_and!; [|done|done].
  destruct (onPreToBytes_frame e') as (E1 & E2 & E3). unfold not_heard_event, isEventMessage, dm_messageType in *. by rewrite E1, E2, E3.
Qed.

Definition finalized (dbId : Z) (c : CoreMessageContext) (d : DxlMessage) (l l' : Library) : Prop :=
  lib_contexts l' = delete dbId (lib_contexts l) ∧ lib_services l' = lib_services l ∧
  if undelivered c d
  then ∃ e bytes, error_reply settings d FABRICSERVICEUNAVAILABLE e ∧ dxlMessageToBytes false (dx_msg e) = Some bytes ∧
                  lib_outbox l' = lib_outbox l ++ [(getReplyToTopic d, bytes)]
  else if unheard c d
  then ∃ e bytes, not_heard_event (cc_topic c) e ∧ dxlMessageToBytes false (dx_msg e) = Some bytes ∧
                  lib_outbox l' = lib_outbox l ++ [(CHANNEL_DXL_EVENT_SUBSCRIBER_NOT_FOUND_EVENT, bytes)]
  else lib_outbox l' = lib_outbox l.

(** C14: no request is lost without an answer: when the core is done with a message,
    its context is removed, and if it was an enabled request that went to no
    destination, exactly one error (service unavailable) is sent to the reply topic
    of its source; unless the client has been told already that the service is
    overloaded. For any other message nothing is sent, except that in test mode an event
    of another source that nobody heard, on a topic that is neither a client's nor a
    broker's, is reported by exactly one event. *)
Theorem finalize_answers l dbId c d : has_msg dbId c d l → set_guid settings ≠ "" →
  ∃ l', onFinalizeMessage settings dbId l = Some (tt, l') ∧ lib_contexts l' = delete dbId (lib_contexts l) ∧ lib_services l' = lib_services l ∧
    if undelivered c d
    then ∃ e bytes, error_reply settings d FABRICSERVICEUNAVAILABLE e ∧ dxlMessageToBytes false (dx_msg e) = Some bytes ∧
                    lib_outbox l' = lib_outbox l ++ [(getReplyToTopic d, bytes)]
    else if unheard c d
    then ∃ e bytes, not_heard_event (cc_topic c) e ∧ dxlMessageToBytes false (dx_msg e) = Some bytes ∧
                    lib_outbox l' = lib_outbox l ++ [(CHANNEL_DXL_EVENT_SUBSCRIBER_NOT_FOUND_EVENT, bytes)]
    else lib_outbox l' = lib_outbox l.
Proof.
  intros Hm Hguid. enough (wp (onFinalizeMessage settings dbId) (λ _, finalized dbId c d l) l) as Hwp.
  { apply wp_Some in Hwp as ([] & l' & Hrun & Hr). by exists l'. }
  unfold onFinalizeMessage. wp_steps. cbn [id]. pose proof Hm as (Hl & _ & _). rewrite Hl. wp_step. apply wp_catch. wpx_steps.
  set (l1 := l <| lib_destinationMessageCount := _ |>). assert (has_msg dbId c d l1) as Hm1 by exact Hm.
  eapply wpx_mono; [by apply (noRequest_spec l1 dbId c d)| |done]. intros [] l2 Hreqd. cbv beta in Hreqd. assert (undelivered c d = true → unheard c d = false) as Hexcl.
  { unfold undelivered, unheard. intros [_ Hreq]%andb_true_iff. unfold isRequestMessage, isEventMessage in *. by destruct (dm_messageType (dx_msg d)); rewrite ?andb_false_r. }
  assert (has_msg dbId c d l2) as Hm2.
  { destruct (undelivered c d); [|by subst l2]. destruct Hreqd as (Hctx & _ & _). destruct Hm1 as (Hl1 & ? & ?). by split_and!; [rewrite Hctx|..]. }
  destruct (set_testModeEnabled settings) eqn:Htest.
  - eapply wpx_mono; [by apply (noEvent_spec l2 dbId c d)| |done]. intros [] l3 Hevd. cbv beta in Hevd. wp_steps. unfold finalized. destruct (undelivered c d).
    + rewrite Hexcl in Hevd by done. rewrite Hevd. destruct Hreqd as (Hctx & Hsvc & Hpost). split_and!; [cbn; by rewrite Hctx|done|exact Hpost].
    + subst l2. destruct (unheard c d); [destruct Hevd as (Hctx & Hsvc & Hpost); split_and!; [cbn; by rewrite Hctx|done|exact Hpost]|by subst l3].
  - wpx_steps. wp_steps. unfold finalized. assert (unheard c d = false) as -> by (unfold unheard; by rewrite Htest). destruct (undelivered c d); [|by subst l2].
    destruct Hreqd as (Hctx & Hsvc & Hpost). split_and!; [cbn; by rewrite Hctx|done|exact Hpost].
Qed.

(** *** The global handler *)

Lemma wildcard_prefix_Some fuel s : ∀ wcTopic ws, iterates fuel wcTopic = Some ws → is_Some (wildcard_prefix_loop fuel s wcTopic).
Proof.
  induction fuel as [|fuel IH]; intros wc ws Hit; [done|]. cbn [iterates wildcard_prefix_loop] in *.
  destruct (iterateWildcardNext wc) as [wc'|]; [|by eexists]. destruct (iterates fuel wc') as [ws'|] eqn:Hws; [|done]. cbv zeta.
  destruct (String.eqb _ _); [by eapply IH|by eexists].
Qed.
Lemma prefix_for_Some topic s : is_Some (prefix_for topic s).
Proof. unfold prefix_for. cbv zeta. destruct (String.eqb _ _); [|by eexists]. eapply wildcard_prefix_Some. apply iterates_spec. Qed.

(** The source may withdraw the service of an error message. *)
Definition own_service (c : CoreMessageContext) (r : ServiceRegistration) : bool :=
  cc_isSourceBridge c || has_flag (cc_contextFlags c) DXL_FLAG_LOCAL || String.eqb (sr_clientGuid r) (cc_canonicalSourceId c)
  || String.eqb (getClientInstanceGuid r) (cc_sourceId c).
(** What the lookup does to the registries: a search for a service, or its withdrawal
    because its own client says that it is unavailable. *)
Definition looked_after (c : CoreMessageContext) (d : DxlMessage) s s' : Prop := svc_still s s' ∨
  isErrorMessage d = true ∧ getErrorCode d = FABRICSERVICEUNAVAILABLE ∧ ∃ p r, registration s (getDestinationServiceId d) p r ∧
    own_service c r = true ∧ svc_env s s' ∧ sv_servicesById s' = delete (getDestinationServiceId d) (sv_servicesById s).
Definition lookup_done dbId c d l l' : Prop := (∃ d', has_msg dbId (with_msg d' c) d' l' ∧ unfreed d') ∧
  services_safe settings (lib_services l') ∧ looked_after c d (lib_services l) (lib_services l').
Lemma lookup_done_refl dbId c d l : has_msg dbId c d l → unfreed d → services_safe settings (lib_services l) → lookup_done dbId c d l l.
Proof.
  intros Hm Hfree Hsafe. split_and!; [|done|left; apply svc_still_refl]. exists d. split; [|done]. destruct Hm as (Hl & Hp & Hd).
  by replace (with_msg d c) with c by (destruct c; cbn in *; by subst).
Qed.

Lemma setPayload_new bytes d : dm_payload (dx_msg d) = PayloadNull → ∃ e, setPayload bytes d = Some e ∧ unfreed e.
Proof.
  intros Hd. unfold setPayload, setDxlMessagePayload. rewrite Hd. eexists. split; [reflexivity|]. intros n. cbn.
  case_bool_decide; cbn; [by rewrite ?Hd|done].
Qed.
Lemma handleEvent_spec l dbId c d E : has_msg dbId c d l → unfreed d → isEventMessage d = true → services_safe settings (lib_services l) → set_guid settings ≠ "" →
  wpx (handleEvent settings dbId) (λ _, lookup_done dbId c d l) E l.
Proof.
  intros Hm Hfree Hev Hsafe Hguid. apply String.eqb_neq in Hguid. unfold handleEvent. wpx_steps. eapply wp_context_get; [apply Hm|]. wpx_step.
  eapply wpx_msg_of; [done| |by rewrite Hev]. intros _. wpx_steps. apply wp_on_services. destruct (prefix_for_Some (cc_topic c) (lib_services l)) as [prefix Hprefix].
  eapply wp_deref; [exact Hprefix|]. replace (l <| lib_services := lib_services l |>) with l by (by destruct l). destruct (String.eqb prefix "").
  { wpx_steps. by apply lookup_done_refl. }
  wpx_steps. apply wp_on_services. eapply wp_mono; [by apply findServiceForTopic_spec|]. intros res s' (Hsafe' & Hstill & Hfound).
  assert (∀ l', lib_services l' = s' → lib_contexts l' = lib_contexts l → lookup_done dbId c d l l') as Hdone.
  { intros l' Hs' Hc'. split_and!; [|by rewrite Hs'|left; by rewrite Hs']. exists d. split; [|done]. destruct Hm as (Hl & Hp & Hd).
    replace (with_msg d c) with c by (destruct c; cbn in *; by subst). by rewrite <-Hc' in Hl. }
  destruct res as [p|]; [|wpx_steps; by apply Hdone]. destruct Hfound as (_ & _ & _ & g & r & _ & _ & Hr & _).
  pose proof (proj1 (registration_looks _ _ g p r (proj1 Hstill)) Hr) as [_ Hheap]. wpx_steps. apply wp_on_services. eapply wp_reg_get; [exact Hheap|].
  wpx_steps. unfold new_uuid. unfold wp at 1. wpx_steps. unfold createRequest, createRequestMessage, createMessage. rewrite Hguid. cbn [fmap option_fmap option_map compose].
  wpx_steps. assert (∃ payload, getPayloadStr d = Some payload) as [payload Hpayload].
  { unfold getPayloadStr. destruct (dm_payload (dx_msg d)) as [|b|n] eqn:Hp; [by eexists..|]. by destruct (Hfree n). }
  eapply wp_deref; [exact Hpayload|]. wpx_steps.
  match goal with |- context [setPayload payload ?x] => destruct (setPayload_new payload x) as (e & He & Hefree) end.
  { rewrite routing_payload. reflexivity. }
  eapply wp_deref; [exact He|]. wpx_steps. unfold sendMessage. wpx_steps. destruct (toBytes_Some false e Hefree) as (bytes & _ & Hto).
  eapply wp_deref; [exact Hto|]. wpx_steps. by apply Hdone.
Qed.
Lemma handleErrorResponse_spec l dbId c d E : has_msg dbId c d l → unfreed d → isErrorMessage d = true → services_safe settings (lib_services l) →
  wpx (handleErrorResponse settings isInfoEnabled dbId) (λ _, lookup_done dbId c d l) E l.
Proof.
  intros Hm Hfree Herr Hsafe. unfold handleErrorResponse. wpx_steps. eapply wp_context_get; [apply Hm|]. wpx_step.
  eapply wpx_msg_of; [done| |by rewrite Herr]. intros _. cbv zeta. destruct (getErrorCode d =? FABRICSERVICEUNAVAILABLE) eqn:Hcode; cbn [andb].
  2: { wpx_steps. by apply lookup_done_refl. }
  destruct (String.eqb (getDestinationServiceId d) ""); cbn [negb]; [wpx_steps; by apply lookup_done_refl|]. unfold findService. wpx_steps. apply wp_on_services. wp_step.
  replace (l <| lib_services := lib_services l |>) with l by (by destruct l). destruct (sv_servicesById (lib_services l) !! getDestinationServiceId d) as [p|] eqn:Hp.
  2: { wpx_steps. by apply lookup_done_refl. }
  pose proof Hsafe as [Hok Hsur]. destruct (so_guid _ Hok _ p Hp) as (r & Hr & _). wpx_steps. apply wp_on_services. eapply wp_reg_get; [exact Hr|].
  replace (l <| lib_services := lib_services l |>) with l by (by destruct l). fold (own_service c r). destruct (own_service c r) eqn:Hown; [|wpx_steps; by apply lookup_done_refl].
  wpx_steps. apply wp_on_services. eapply wp_mono; [by apply unregisterService_spec|]. intros _ s' (Hok' & Henv & Hi & _). wpx_steps. split_and!.
  - exists d. split; [|done]. destruct Hm as (Hl & Hpd & Hd). by replace (with_msg d c) with c by (destruct c; cbn in *; by subst).
  - cbn. apply (services_safe_kept settings (lib_services l)); [done|]. split; [done|]. by apply svc_env_kept.
  - right. split_and!; [done|by apply Z.eqb_eq|]. by exists p, r.
Qed.
Lemma lookup_handler_spec l dbId c d : has_msg dbId c d l → sets_agree d → unfreed d → services_safe settings (lib_services l) → set_guid settings ≠ "" →
  wpx (lookup_onStoreMessage settings isInfoEnabled dbId) (λ _, lookup_done dbId c d l) (λ _, False) l.
Proof.
  intros Hm Hd Hfree Hsafe Hguid. unfold lookup_onStoreMessage. wpx_steps. eapply wp_isDxl; [done|]. cbn [negb]. wpx_step. eapply wpx_msg; [done|]. wpx_steps.
  eapply wp_context_get; [apply Hm|]. wpx_steps. cbv zeta. destruct (isRequestMessage d && _) eqn:Hreq.
  { apply andb_true_iff in Hreq as [Hreq _]. eapply wpx_mono; [by apply (handleRequest_spec settings l dbId c d)| |done].
    intros b l' (d' & Hm' & Hsafe' & Hstill & Hp & _). split_and!; [|done|by left]. exists d'. split; [done|]. intros n. rewrite Hp. apply Hfree. }
  destruct (_ && isEventMessage d && _) eqn:Hev.
  { apply andb_true_iff in Hev as [[_ Hev]%andb_true_iff _]. by apply handleEvent_spec. }
  destruct (isErrorMessage d) eqn:Herr; [by apply handleErrorResponse_spec|]. wpx_steps. by apply lookup_done_refl.
Qed.

(** *** The topic's handler *)

Lemma modelled_events topic h : (topic, h) ∈ modelled_store_handlers settings isInfoEnabled → String.prefix DXL_BROKER_EVENT_PREFIX topic = true →
  sh_isBridgeSourceRequired h = true.
Proof.
  intros Hin Hprefix. assert (Forall (λ p, String.prefix DXL_BROKER_EVENT_PREFIX p.1 = true → sh_isBridgeSourceRequired p.2 = true)
    (modelled_store_handlers settings isInfoEnabled)) as Hall by (repeat constructor; cbn; done).
  rewrite Forall_forall in Hall. by apply (Hall (topic, h)).
Qed.
(** The topics that are open to clients in test mode. *)
Definition open_in_test_mode (topic : string) : bool := set_testModeEnabled settings &&
  (String.eqb topic CHANNEL_DXL_DUMPBROKER_STATE_EVENT || String.eqb topic CHANNEL_DXL_DUMPSERVICE_STATE_EVENT).
(** A topic of the brokers' events, whose handler, if it is one of those left open,
    requires a bridge as well. *)
Definition brokers_only (topic : string) : Prop := String.prefix DXL_BROKER_EVENT_PREFIX topic = true ∧ open_in_test_mode topic = false ∧
  ∀ h, other_store_handlers !! topic = Some h → sh_isBridgeSourceRequired h = true.
Notation disabled c := (c <| cc_messageInsertEnabled := false |>).

Lemma topic_handler_spec l dbId c certHashes E : lib_contexts l !! dbId = Some c → cc_isSourceBridge c = false → brokers_only (cc_topic c) →
  wpx (run_topic_handler settings isInfoEnabled other_store_handlers dbId certHashes) (λ _ l', l' = put_ctx dbId (disabled c) l) E l.
Proof.
  intros Hl Hbridge (Hprefix & Htest & Hother). unfold open_in_test_mode in Htest.
  assert (∀ h, onStoreHandlers settings isInfoEnabled other_store_handlers (cc_topic c) = Some h → sh_isBridgeSourceRequired h = true) as Hreq.
  { intros h. unfold onStoreHandlers. destruct (list_to_map _ !! cc_topic c) as [h'|] eqn:Hh; [|by apply Hother].
    intros [= ->]. apply elem_of_list_to_map_2 in Hh. by eapply modelled_events. }
  unfold run_topic_handler. wpx_steps. eapply wp_context_get; [done|]. rewrite Hbridge, Hprefix, Htest. cbn [andb negb]. destruct (onStoreHandlers _ _ _ _) as [h|] eqn:Hh.
  - unfold fireOnStoreMessage. wpx_steps. eapply wp_context_get; [done|]. rewrite (Hreq h eq_refl), Hbridge. cbn [andb negb]. wpx_steps. unfold setMessageInsertEnabled. by eapply wp_context_upd.
  - wpx_steps. unfold setMessageInsertEnabled. by eapply wp_context_upd.
Qed.

(** *** The message *)

(** The message of [dbId] is passed on to nobody; with what the lookup did to the
    registries, [s] before. *)
Definition turned_down dbId c (d : option DxlMessage) s l' : Prop :=
  (∀ c', lib_contexts l' !! dbId = Some c' → cc_messageInsertEnabled c' = false) ∧ services_safe settings (lib_services l') ∧
  match d with Some d => looked_after c d s (lib_services l') | None => lib_services l' = s end.
Lemma turned_down_put dbId c d s c' l : cc_messageInsertEnabled c' = false → services_safe settings (lib_services l) →
  match d with Some d => looked_after c d s (lib_services l) | None => lib_services l = s end → turned_down dbId c d s (put_ctx dbId c' l).
Proof. intros He Hsafe Hd. split_and!; [|done|done]. intros c''. unfold put_ctx. cbn. rewrite lookup_insert_eq. by intros [= <-]. Qed.

(** The message as the handlers leave it: one that is accepted, or no DXL message. *)
Lemma store_handlers_spec l dbId c certHashes E (s : ServiceRegistry) (Hs : lib_services l = s) : cc_isSourceBridge c = false → brokers_only (cc_topic c) → services_safe settings s → set_guid settings ≠ "" →
  lib_contexts l !! dbId = Some c → cc_dxlMessageParsed c = true → (∀ d, cc_dxlMessage c = Some d → sets_agree d ∧ unfreed d) →
  wpx (run_store_handlers settings isInfoEnabled other_store_handlers dbId certHashes;; rewrite_message dbId) (λ _, turned_down dbId c (cc_dxlMessage c) s) E l.
Proof.
  intros Hbridge Hbo Hsafe Hguid Hl Hparsed Hmsg. unfold run_store_handlers, fireOnStoreMessage. wpx_steps. eapply wp_context_get; [done|]. cbn [sh_isBridgeSourceRequired andb sh_onStoreMessage].
  wpx_step. eapply (wpx_mono _ (λ _ l', ∃ d', lib_contexts l' !! dbId = Some (c <| cc_dxlMessageParsed := true |> <| cc_dxlMessage := d' |>) ∧ (∀ d, d' = Some d → unfreed d) ∧
    services_safe settings (lib_services l') ∧ match cc_dxlMessage c with Some d => looked_after c d s (lib_services l') | None => lib_services l' = s end) _ (λ _, False)); [| |done].
  - destruct (cc_dxlMessage c) as [d|] eqn:Hd.
    + destruct (Hmsg d eq_refl) as [Hsets Hfree]. rewrite <-Hs in *. eapply wpx_mono; [apply (lookup_handler_spec l dbId c d); try done; by split_and!| |done].
      intros _ l' ((d' & (Hl' & _) & Hfree') & Hsafe' & Hafter). exists (Some d'). split_and!; [exact Hl'|by intros ? [= <-]|done..].
    + unfold lookup_onStoreMessage, isDxlMessage. wpx_steps. eapply wp_parsed; [done..|]. wpx_steps. eapply wp_context_get; [done|]. wpx_steps. rewrite Hd. wpx_steps.
      exists None. split_and!; [|done|by rewrite Hs|done]. rewrite Hl. f_equal. destruct c. cbn in *. by subst.
  - intros ok l1 (d' & Hl1 & Hfree1 & Hsafe1 & Hafter). set (c1 := c <| cc_dxlMessageParsed := true |> <| cc_dxlMessage := d' |>) in *.
    eapply (wpx_mono _ (λ _ l', ∃ c', l' = put_ctx dbId c' l1 ∧ cc_isSourceBridge c' = false ∧ cc_topic c' = cc_topic c ∧ cc_dxlMessage c' = d' ∧ lib_contexts l' !! dbId = Some c') _ E); [| |done].
    { destruct ok; wpx_steps.
      - exists c1. split_and!; [|done..]. unfold put_ctx. cbn. rewrite insert_id by done. by destruct l1.
      - unfold setMessageInsertEnabled. eapply wp_context_upd; [done|]. exists (disabled c1). split_and!; [done..|]. unfold put_ctx. cbn. by rewrite lookup_insert_eq. }
    intros _ l2 (c2 & -> & Hb2 & Ht2 & Hd2 & Hl2). eapply wpx_mono; [apply (topic_handler_spec _ dbId c2); [done|done|by rewrite Ht2]| |done].
    intros _ l3 ->. rewrite put_ctx_twice. set (l3 := put_ctx dbId (disabled c2) l1). assert (lib_contexts l3 !! dbId = Some (disabled c2)) as Hl3 by (unfold l3, put_ctx; cbn; by rewrite lookup_insert_eq).
    unfold rewrite_message. wpx_steps. eapply wp_context_get; [done|]. cbn. rewrite Hd2. destruct d' as [d'|]; [|wpx_step; by apply turned_down_put].
    destruct (dx_isDirty d'); [|wpx_step; by apply turned_down_put]. destruct (toBytes_Some false d') as (bytes & _ & Hto); [by apply Hfree1|].
    wpx_steps. eapply wp_deref; [exact Hto|]. wpx_steps. eapply wp_context_upd; [done|]. wpx_steps. unfold l3. rewrite put_ctx_twice. by apply turned_down_put.
Qed.
(** C15: clients cannot speak for brokers: whatever a client (not a bridge) publishes on
    a topic of the brokers' events (the state and the topics of a broker, services and
    limits), of any type of message and whether it can be read or not, its handler is
    not run and it is passed on to nobody. What remains is what the lookup of services
    does with any message of a client: the known brokers, the authorization and every
    registration stay as they are (only the turns of the zones, the caches of routes
    and the clock may move), unless the message is an error by which a client withdraws
    a service of its own (or any client with the local flag any service), saying that
    it is unavailable. The code always returns. It goes for the topics without a
    handler too, provided that the handlers left open also require a bridge; but in
    test mode not for the two topics of the dumps, which are then open. *)
Theorem broker_events_need_bridge l dbId sourceId canonicalId flags topic payload tenant certHashes certChain :
  services_safe settings (lib_services l) → set_guid settings ≠ "" → brokers_only topic →
  ∃ r l', onStoreMessage settings isInfoEnabled other_store_handlers dbId sourceId canonicalId false flags topic payload tenant certHashes certChain l = Some (r, l') ∧
    services_safe settings (lib_services l') ∧
    match fromBytes payload with
    | Some d => looked_after (CoreMessageContext_new sourceId canonicalId false flags topic payload) d (lib_services l) (lib_services l')
    | None => lib_services l' = lib_services l
    end ∧
    ∀ destId canonicalDestId isBridge destFlags target certHashes' out,
      onInsertMessage settings destId canonicalDestId isBridge destFlags dbId target certHashes' out l' = Some ((false, out), l').
Proof.
  intros Hsafe Hguid Hbo. set (c := CoreMessageContext_new sourceId canonicalId false flags topic payload).
  enough (wp (onStoreMessage settings isInfoEnabled other_store_handlers dbId sourceId canonicalId false flags topic payload tenant certHashes certChain)
    (λ _ l', turned_down dbId c (fromBytes payload) (lib_services l) l') l) as Hwp.
  { apply wp_Some in Hwp as (r & l' & Hrun & Hoff & Hsafe' & Hafter). exists r, l'. split_and!; [done..|]. intros. unfold onInsertMessage, mbind, st_bind, gets, id.
    destruct (lib_contexts l' !! dbId) as [c'|]; [|done]. by rewrite (Hoff c' eq_refl). }
  unfold onStoreMessage. wp_steps. change (l <| lib_contexts ::= _ |>) with (put_ctx dbId c l). set (l1 := put_ctx dbId c l).
  assert (lib_contexts l1 !! dbId = Some c) as Hl1 by (unfold l1, put_ctx; cbn; by rewrite lookup_insert_eq). apply wp_catch. unfold store_message.
  destruct (fromBytes payload) as [d|] eqn:Hd.
  - destruct (fromBytes_fresh _ _ Hd) as [Hsets Hfree].
    assert (∀ d', wp (setMessageInsertEnabled dbId false) (λ _ l', turned_down dbId c (Some d) (lib_services l) l') (put_ctx dbId (with_msg d' c) l1)) as Hoff.
    { intros d'. unfold setMessageInsertEnabled. eapply wp_context_upd; [unfold put_ctx; cbn; by rewrite lookup_insert_eq|]. rewrite put_ctx_twice. apply turned_down_put; [done..|].
      left. apply svc_still_refl. }
    wpx_step. eapply wpx_mono; [by apply (accept_client_spec settings l1 dbId sourceId canonicalId flags topic payload tenant certChain d)| |].
    2: { intros l2 (_ & d' & ->). wp_step. eapply wp_mono; [apply Hoff|]. intros [] l' Hl'. by wp_step. }
    intros ok l2 (_ & d' & -> & Hfrom). destruct ok; cbn [negb]; [|wpx_steps; eapply wp_mono; [apply Hoff|]; intros [] l' Hl'; by wpx_step].
    destruct (from_client_ok settings c tenant certChain d d' Hsets Hfree (Hfrom eq_refl)) as [Hsets' Hfree'].
    eapply wpx_mono; [eapply (store_handlers_spec (put_ctx dbId (with_msg d' c) l1) dbId (with_msg d' c) certHashes (λ _, False) (lib_services l) eq_refl); try done| |done].
    { unfold put_ctx. cbn. by rewrite lookup_insert_eq. }
    { by intros ? [= <-]. }
    intros _ l3 (Hoff3 & Hsafe3 & Hafter). split_and!; [exact Hoff3|exact Hsafe3|]. destruct (Hfrom eq_refl) as [Hmsg _]. change (looked_after (with_msg d' c) d' (lib_services l) (lib_services l3)) in Hafter.
    unfold looked_after, own_service, isErrorMessage, getErrorCode, getDestinationServiceId, dm_messageType in *. rewrite Hmsg in Hafter. exact Hafter.
  - unfold accept_message. wpx_steps. eapply wp_isDxl_new; [done|done| |].
    { subst c. cbn. by rewrite Hd. }
    intros _. cbn [negb]. wpx_steps. cbn [negb].
    eapply wpx_mono; [eapply (store_handlers_spec (put_ctx dbId (c <| cc_dxlMessageParsed := true |> <| cc_dxlMessage := None |>) l1) dbId (c <| cc_dxlMessageParsed := true |> <| cc_dxlMessage := None |>) certHashes (λ _, False) (lib_services l) eq_refl); try done| |done].
    { unfold put_ctx. cbn. by rewrite lookup_insert_eq. }
    intros ? l3 Hl3. exact Hl3.
Qed.
End service_claims.
