(* ===== verification/MessageExamples.v ===== *)
(** * Messages at work

    An instance of the MessagePack parameter (integers of 8 and 32 bits, strings
    and arrays of strings with a 32-bit length, big-endian, as MessagePack writes
    them) with the laws, an instance of the JSON parameter, a broker with the
    services of [RegistryExamples.v], and the theorems on messages applied to
    messages of a client. *)

From S2P Require Import Prelude Topic CoreUtil Authorization Fabric TopicCache Registry RegistryExamples Metrics Services ServiceProofs ServiceTurns ServiceClaims Configuration DxlMessages DxlMessageProofs MessageCore MessageService MessageHandlers PassageProofs InsertProofs RequestProofs.
From stdpp Require Import options.

(** ** MessagePack *)

Definition byte_of (z : Z) : ascii := ascii_of_nat (Z.to_nat (z mod 256)).
Definition of_byte (c : ascii) : Z := Z.of_nat (nat_of_ascii c).
(** [n] bytes, the highest first. *)
Fixpoint be (n : nat) (z : Z) : string :=
  match n with O => "" | S n' => String (byte_of (z / 256 ^ Z.of_nat n')) (be n' z) end.
Fixpoint unbe (n : nat) (acc : Z) (s : string) : option (Z * string) :=
  match n, s with
  | O, _ => Some (acc, s)
  | S n', String c s' => unbe n' (256 * acc + of_byte c) s'
  | S _, EmptyString => None
  end.
Definition signed (bits z : Z) : Z := if z <? 2 ^ (bits - 1) then z else z - 2 ^ bits.

Fixpoint take_bytes (n : nat) (s : string) : option (string * string) :=
  match n, s with
  | O, _ => Some ("", s)
  | S n', String c s' => '(a, b) ← take_bytes n' s'; Some (String c a, b)
  | S _, EmptyString => None
  end.
Definition tag (c : nat) : ascii := ascii_of_nat c.
Definition read_raw (s : string) : option (string * string) :=
  match s with
  | String c s' => if Ascii.eqb c (tag 219) then '(n, s'') ← unbe 4 0 s'; take_bytes (Z.to_nat n) s'' else None
  | EmptyString => None
  end.
Fixpoint read_raws (n : nat) (s : string) : option (list string * string) :=
  match n with
  | O => Some ([], s)
  | S n' => '(a, s') ← read_raw s; '(l, s'') ← read_raws n' s'; Some (a :: l, s'')
  end.
Definition integer (z : Z) : msgpack_object := if z <? 0 then MSGPACK_OBJECT_NEGATIVE_INTEGER z else MSGPACK_OBJECT_POSITIVE_INTEGER z.
Definition next_object (s : string) : option (msgpack_object * string) :=
  match s with
  | String c s' =>
    if Ascii.eqb c (tag 210) then '(z, s'') ← unbe 4 0 s'; Some (integer (signed 32 z), s'')
    else if Ascii.eqb c (tag 208) then '(z, s'') ← unbe 1 0 s'; Some (integer (signed 8 z), s'')
    else if Ascii.eqb c (tag 221) then '(n, s'') ← unbe 4 0 s'; '(l, s3) ← read_raws (Z.to_nat n) s''; Some (MSGPACK_OBJECT_ARRAY (map MSGPACK_OBJECT_STR l), s3)
    else '(a, s'') ← read_raw s; Some (MSGPACK_OBJECT_STR a, s'')
  | EmptyString => None
  end.
#[export] Instance wire_format : MsgPack := {
  msgpack_pack_int32 z := String (tag 210) (be 4 z);
  msgpack_pack_int8 z := String (tag 208) (be 1 z);
  msgpack_pack_v4raw n := String (tag 219) (be 4 n);
  msgpack_pack_v4raw_body s := s;
  msgpack_pack_array n := String (tag 221) (be 4 n);
  msgpack_unpacker_next := next_object }.

Lemma of_byte_of z : of_byte (byte_of z) = z mod 256.
Proof.
  unfold of_byte, byte_of. pose proof (Z.mod_pos_bound z 256). rewrite nat_ascii_embedding; [lia|]. apply Nat2Z.inj_lt. lia.
Qed.
Lemma unbe_be n z acc rest : unbe n acc (be n z +:+ rest) = Some (256 ^ Z.of_nat n * acc + z mod 256 ^ Z.of_nat n, rest).
Proof.
  revert acc. induction n as [|n IH]; intros acc; [cbn; rewrite Z.mod_1_r; do 2 f_equal; lia|].
  cbn [be unbe]. rewrite str_app_cons. cbn [unbe]. rewrite IH, of_byte_of. do 2 f_equal.
  rewrite Nat2Z.inj_succ, Z.pow_succ_r, (Z.mul_comm 256 (256 ^ Z.of_nat n)), (Z.rem_mul_r z) by lia. ring.
Qed.
Lemma take_bytes_app s rest : take_bytes (String.length s) (s +:+ rest) = Some (s, rest).
Proof. induction s as [|c s IH]; [done|]. rewrite str_app_cons. cbn. by rewrite IH. Qed.
Lemma read_raw_pack s rest : str_len s < 2 ^ 32 → read_raw (pack_string s +:+ rest) = Some (s, rest).
Proof.
  intros Hs. unfold pack_string. cbn [msgpack_pack_v4raw msgpack_pack_v4raw_body wire_format]. rewrite !str_app_cons, str_app_assoc. cbn [read_raw].
  rewrite Ascii.eqb_refl, unbe_be. cbn [mbind option_bind]. unfold str_len in *. rewrite Z.mod_small by (change (256 ^ Z.of_nat 4) with (2 ^ 32); lia).
  replace (Z.to_nat _) with (String.length s) by lia. apply take_bytes_app.
Qed.
Lemma signed_mod bits z : 0 < bits → - 2 ^ (bits - 1) <= z < 2 ^ (bits - 1) → signed bits (z mod 2 ^ bits) = z.
Proof.
  intros Hb Hz. unfold signed. assert (2 ^ bits = 2 * 2 ^ (bits - 1)) as H2 by (rewrite <-Z.pow_succ_r by lia; f_equal; lia).
  destruct (Z_lt_le_dec z 0) as [Hneg|Hpos].
  - assert (z mod 2 ^ bits = z + 2 ^ bits) as -> by (symmetry; apply Z.mod_unique with (q := -1); lia). destruct (Z.ltb_spec (z + 2 ^ bits) (2 ^ (bits - 1))); lia.
  - rewrite Z.mod_small by lia. destruct (Z.ltb_spec z (2 ^ (bits - 1))); lia.
Qed.
Lemma integer_is z : integer z = MSGPACK_OBJECT_POSITIVE_INTEGER z ∨ integer z = MSGPACK_OBJECT_NEGATIVE_INTEGER z.
Proof. unfold integer. destruct (z <? 0); auto. Qed.

#[export] Instance wire_format_laws : MsgPackLaws.
Proof.
  split.
  - intros z rest Hz. exists (integer z). split; [|apply integer_is]. cbn [msgpack_pack_int32 msgpack_unpacker_next wire_format]. rewrite str_app_cons.
    unfold next_object. rewrite Ascii.eqb_refl, unbe_be. cbn [mbind option_bind]. rewrite Z.mul_0_r, Z.add_0_l.
    change (256 ^ Z.of_nat 4) with (2 ^ 32). by rewrite (signed_mod 32) by lia.
  - intros z rest Hz. exists (integer z). split; [|apply integer_is]. cbn [msgpack_pack_int8 msgpack_unpacker_next wire_format]. rewrite str_app_cons.
    unfold next_object. rewrite unbe_be. change (Ascii.eqb (tag 208) (tag 210)) with false. rewrite Ascii.eqb_refl. cbn [mbind option_bind].
    rewrite Z.mul_0_r, Z.add_0_l. change (256 ^ Z.of_nat 1) with (2 ^ 8). by rewrite (signed_mod 8) by lia.
  - intros s rest Hs. pose proof (read_raw_pack s rest Hs) as Hr. unfold pack_string in Hr. rewrite str_app_assoc in Hr.
    cbn [msgpack_pack_v4raw msgpack_unpacker_next wire_format] in *. rewrite str_app_cons in *. unfold next_object. by rewrite Hr.
  - intros l rest Hn Hl. cbn [msgpack_pack_array msgpack_unpacker_next wire_format]. rewrite str_app_cons.
    unfold next_object. rewrite unbe_be. change (Ascii.eqb (tag 221) (tag 210)) with false. change (Ascii.eqb (tag 221) (tag 208)) with false.
    rewrite Ascii.eqb_refl. cbn [mbind option_bind]. rewrite Z.mul_0_r, Z.add_0_l, Z.mod_small by (change (256 ^ Z.of_nat 4) with (2 ^ 32); lia).
    rewrite Nat2Z.id. assert (read_raws (length l) (pack_strings l +:+ rest) = Some (l, rest)) as ->; [|done]. clear Hn.
    induction Hl as [|s l Hs Hl IH]; [done|]. cbn [length read_raws pack_strings]. rewrite str_app_assoc, read_raw_pack by done. cbn. by rewrite IH.
Qed.

(** ** A broker and a request *)

(** No payload is JSON here. *)
#[export] Instance no_json : Json := {
  fromJson_service _ _ := None; fromJson_serviceGuid _ := None; fromJson_tenantLimit _ := None; fromJson_brokerState _ := None;
  fromJson_topics _ := None; fromJson_topic _ := None; toJson_eventSubscriberNotFound s := s;
  toJson_brokerState _ := ""; toJson_topics _ _ _ := ""; toJson_topic s := s; toJson_fabricChange := ""; toJson_clientConnect id _ := id }.

(** A client writes what it likes about itself. *)
Definition ex_request : dxl_message_t :=
  mk_dxl_message_t 3 "m1" "forged" "forged" [] [] (Payload "hello") (requestData "/reply" "") ["dxl.certs"; "forged"] "t9" [] "forged".
Definition ex_payload : string := default "" (dxlMessageToBytes false ex_request).
Definition ex_message : DxlMessage := DxlMessage_new ex_request.
Definition ex_context (topic : string) : CoreMessageContext := CoreMessageContext_new "client-1" "client" false DXL_FLAG_MANAGED topic ex_payload.
Definition ex_library (topic : string) : Library := mk_Library ex_services {[7 := ex_context topic]} 0 0 0 [] (λ _, "uuid") (CoreBridgeConfiguration_new "EMPTY") [] 0.
(** After the payload has been read. *)
Definition ex_parsed (topic : string) : Library := put_ctx 7 (with_msg ex_message (ex_context topic)) (ex_library topic).

Lemma ex_read : fromBytes ex_payload = Some ex_message.
Proof. vm_compute. reflexivity. Qed.
Lemma ex_context_there topic : lib_contexts (ex_library topic) !! 7 = Some (ex_context topic).
Proof. apply lookup_singleton_eq. Qed.
Lemma ex_has_msg topic : has_msg 7 (with_msg ex_message (ex_context topic)) ex_message (ex_parsed topic).
Proof. apply has_msg_put. Qed.
Lemma ex_sets : sets_agree ex_message.
Proof. done. Qed.
Lemma ex_unfreed : unfreed ex_message.
Proof. done. Qed.
Lemma ex_wire_ok : wire_ok ex_request.
Proof.
  assert (∀ s, cstr s = s → str_len s <? 2 ^ 32 = true → string_ok s) as Hs by (intros s Hc Hn; split; [done|by apply Z.ltb_lt]).
  constructor; cbn [ex_request dm_version dm_messageId dm_sourceClientId dm_sourceBrokerGuid dm_brokerGuids dm_clientGuids dm_payload
    dm_specificData dm_otherFields dm_sourceTenantGuid dm_tenantGuids dm_sourceClientInstanceId]; try (by apply Hs); try (by split; [constructor|]).
  - lia.
  - by split.
  - split; [|done]. apply Forall_cons. split; [by apply Hs|]. apply Forall_singleton. by apply Hs.
Qed.

(** The request is stored: it goes to the first service of the topic. *)
Definition ex_stored (topic : string) : option (option DxlMessage * bool * list string) :=
  '(_, l) ← onStoreMessage ex_settings true ∅ 7 "client-1" "client" false DXL_FLAG_MANAGED topic ex_payload "t1" [] (Some "chain") (ex_library topic);
  c ← lib_contexts l !! 7; Some (cc_dxlMessage c, cc_messageInsertEnabled c, map fst (lib_outbox l)).
Example ex_stored_req : ((λ r : option DxlMessage * bool * list string, (dm_brokerGuids ∘ dx_msg <$> r.1.1, getDestinationServiceId <$> r.1.1, r.1.2, r.2)) <$> ex_stored "/req")
  = Some (Some ["A"], Some "sb", true, []).
Proof. vm_compute. reflexivity. Qed.
Example ex_stored_nowhere : ((λ r : option DxlMessage * bool * list string, (r.1.2, r.2)) <$> ex_stored "/nowhere") = Some (false, ["/reply"]).
Proof. vm_compute. reflexivity. Qed.

(** ** The theorems at these messages *)

Lemma dxl_message_roundtrip_witness : ∃ bytes, dxlMessageToBytes true ex_request = Some bytes ∧
  createDxlMessageFromBytes (bytes +:+ "rest") = inr (wire_view true ex_request).
Proof. exact (dxl_message_roundtrip true ex_request "rest" ex_wire_ok). Defined.

Lemma broker_messages_well_formed_witness :
  makes ex_settings (createErrorResponse ex_settings "uuid" ex_message FABRICSERVICEUNAVAILABLE "gone")
    (own_reply ex_settings "uuid" ex_message (responseErrorData (dm_messageId ex_request) (getDestinationServiceId ex_message) "gone" (i32 FABRICSERVICEUNAVAILABLE))).
Proof.
  refine (proj1 (proj2 (broker_messages_well_formed ex_settings "uuid" ex_message FABRICSERVICEUNAVAILABLE "gone" None "/reply"
    _ _ _ _ _ _))); try by split.
  exact ex_wire_ok.
Defined.

Lemma client_cannot_forge_source_witness : ∃ r l', accept_message ex_settings 7 "t1" (Some "chain") (ex_library "/req") = Some (r, l') ∧
  match r with
  | inl _ => set_multiTenantModeEnabled ex_settings = true ∧ set_tenantGuid ex_settings = "" ∧ dm_tenantGuids (dx_msg ex_message) ≠ []
  | inr ok =>
    (ok = true ↔ (isRequestMessage ex_message = true → bad_reply_topic (getReplyToTopic ex_message) = false) ∧
      (set_multiTenantModeEnabled ex_settings = true → has_flag DXL_FLAG_MANAGED DXL_FLAG_OPS = false →
         Forall (λ g, g = "t1" ∨ g = set_tenantGuid ex_settings) (dm_tenantGuids (dx_msg ex_message)))) ∧
    (ok = true → ∃ c' d', lib_contexts l' = <[7 := c']> (lib_contexts (ex_library "/req")) ∧ cc_dxlMessage c' = Some d' ∧
      dx_msg d' = ex_request <| dm_sourceBrokerGuid := "A" |> <| dm_sourceClientId := "client" |>
                             <| dm_sourceClientInstanceId := "client-1" |> <| dm_sourceTenantGuid := "t1" |>)
  end.
Proof.
  exact (client_cannot_forge_source ex_settings (ex_library "/req") 7 "client-1" "client" DXL_FLAG_MANAGED "/req" ex_payload "t1" (Some "chain") ex_message
    (ex_context_there "/req") ex_read).
Defined.

Definition ex_accepted (topic : string) : Library :=
  match accept_message ex_settings 7 "t1" (Some "chain") (ex_library topic) with Some (_, l) => l | None => ex_library topic end.
Lemma ex_accepted_run : accept_message ex_settings 7 "t1" (Some "chain") (ex_library "/req") = Some (inr true, ex_accepted "/req").
Proof. vm_compute. reflexivity. Qed.
Lemma client_certs_survive_witness : ∃ c' d' l1 l2, lib_contexts (ex_accepted "/req") !! 7 = Some c' ∧ cc_dxlMessage c' = Some d' ∧
  dx_otherFields d' = Some {["dxl.certs" := "forged"]} ∧ dm_otherFields (dx_msg (onPreToBytes d')) = l1 ++ "dxl.certs" :: cstr "forged" :: l2.
Proof.
  apply (client_certs_survive ex_settings (ex_library "/req") 7 "client-1" "client" DXL_FLAG_MANAGED "/req" ex_payload "t1" (Some "chain") ex_message).
  - exact (ex_context_there "/req").
  - exact ex_read.
  - vm_compute. reflexivity.
  - vm_compute. reflexivity.
  - exact ex_accepted_run.
Defined.

Lemma insert_client_correct_witness : ∃ b out' l' c' d',
  onInsertMessage ex_settings "dest-1" "dest" false 0 7 "t9" [] (mk_client_out false None) (ex_parsed "/req") = Some ((b, out'), l') ∧
  (b = true ↔ for_this_broker ex_settings ex_request ∧ addressed_to ex_settings "dest-1" "dest" 0 ex_request ∧
     tenant_may_see ex_settings DXL_FLAG_MANAGED 0 "t9" ex_request ∧ ∃ key, key ∈ auth_keys ex_settings 0 "dest" [] ∧ permitted ∅ key "/req") ∧
  has_msg 7 c' d' l' ∧ same_message ex_message d' ∧ lib_services l' = ex_services ∧
  cc_destCount c' = (if b then i32 (0 + 1) else 0) ∧ (cc_topic c' = "/req" ∧ cc_contextFlags c' = DXL_FLAG_MANAGED ∧ cc_messageInsertEnabled c' = true) ∧
  (b = true → client_copy (with_msg ex_message (ex_context "/req")) ex_message out').
Proof.
  apply (insert_client_correct ex_settings (ex_parsed "/req") 7 (with_msg ex_message (ex_context "/req")) ex_message "dest-1" "dest" 0 "t9" []
    (mk_client_out false None) ∅ ∅).
  - exact (ex_has_msg "/req").
  - exact ex_sets.
  - exact ex_unfreed.
  - reflexivity.
  - vm_compute. reflexivity.
Defined.

Lemma tenants_isolated_witness : ∃ b out' l2,
  onInsertMessage ex_settings "dest-1" "dest" false DXL_FLAG_MANAGED 7 "t2" [] (mk_client_out false None) (ex_accepted "/req") = Some ((b, out'), l2) ∧
  (b = true → "t2" = "t1" ∨ "t2" = "ops" ∨ has_flag DXL_FLAG_MANAGED DXL_FLAG_OPS = true).
Proof.
  apply (tenants_isolated ex_settings (ex_library "/req") 7 "client-1" "client" DXL_FLAG_MANAGED "/req" ex_payload "t1" (Some "chain") ex_message
    (ex_accepted "/req") ∅ ∅).
  - reflexivity.
  - exact (ex_context_there "/req").
  - exact ex_read.
  - reflexivity.
  - vm_compute. reflexivity.
  - exact ex_accepted_run.
Defined.

Lemma request_routed_witness : ∃ b l' c' d', handleRequest ex_settings 7 (ex_parsed "/req") = Some (inr b, l') ∧ has_msg 7 c' d' l' ∧
  services_safe ex_settings (lib_services l') ∧
  (addressed_request ex_message → b = true ∧ dx_msg d' = ex_request ∧ lib_outbox l' = []) ∧
  (¬ addressed_request ex_message → ∃ res, chosen ex_settings ex_services "/req" ex_message res ∧
     match res with
     | Some p => b = true ∧ lib_outbox l' = [] ∧ ∃ g r, registration ex_services g p r ∧
         dx_msg d' = ex_request <| dm_brokerGuids := [sr_brokerGuid r] |> <| dm_clientGuids := [getClientInstanceGuid r] |>
                                <| dm_specificData := requestData "/reply" (sr_serviceGuid r) |>
     | None => b = false ∧ dx_msg d' = unnamed ex_settings ex_message ∧ ∃ e bytes, error_reply ex_settings d' FABRICSERVICEUNAVAILABLE e ∧
         dxlMessageToBytes false (dx_msg e) = Some bytes ∧ lib_outbox l' = [] ++ [("/reply", bytes)]
     end).
Proof.
  apply (request_routed ex_settings (ex_parsed "/req") 7 (with_msg ex_message (ex_context "/req")) ex_message).
  - exact (ex_has_msg "/req").
  - exact ex_sets.
  - reflexivity.
  - exact (services_reachable_safe ex_settings true ex_services ex_services_reachable).
  - done.
Defined.

Lemma finalize_answers_witness : ∃ l', onFinalizeMessage ex_settings 7 (ex_parsed "/req") = Some (tt, l') ∧
  lib_contexts l' = delete 7 (lib_contexts (ex_parsed "/req")) ∧ lib_services l' = ex_services ∧
  if undelivered (with_msg ex_message (ex_context "/req")) ex_message
  then ∃ e bytes, error_reply ex_settings ex_message FABRICSERVICEUNAVAILABLE e ∧ dxlMessageToBytes false (dx_msg e) = Some bytes ∧
                  lib_outbox l' = [] ++ [("/reply", bytes)]
  else if unheard ex_settings (with_msg ex_message (ex_context "/req")) ex_message
  then ∃ e bytes, not_heard_event ex_settings (cc_topic (with_msg ex_message (ex_context "/req"))) e ∧ dxlMessageToBytes false (dx_msg e) = Some bytes ∧
                  lib_outbox l' = [] ++ [(CHANNEL_DXL_EVENT_SUBSCRIBER_NOT_FOUND_EVENT, bytes)]
  else lib_outbox l' = [].
Proof.
  apply (finalize_answers ex_settings (ex_parsed "/req") 7 (with_msg ex_message (ex_context "/req")) ex_message).
  - exact (ex_has_msg "/req").
  - done.
Defined.

Definition ex_state_event : string := CHANNEL_DXL_BROKER_STATE_EVENT.
Lemma broker_events_need_bridge_witness : ∃ r l',
  onStoreMessage ex_settings true ∅ 7 "client-1" "client" false DXL_FLAG_MANAGED ex_state_event ex_payload "t1" [] (Some "chain") (ex_library ex_state_event) = Some (r, l') ∧
  services_safe ex_settings (lib_services l') ∧
  match fromBytes ex_payload with
  | Some d => looked_after (CoreMessageContext_new "client-1" "client" false DXL_FLAG_MANAGED ex_state_event ex_payload) d ex_services (lib_services l')
  | None => lib_services l' = ex_services
  end ∧
  ∀ destId canonicalDestId isBridge destFlags target certHashes' out,
    onInsertMessage ex_settings destId canonicalDestId isBridge destFlags 7 target certHashes' out l' = Some ((false, out), l').
Proof.
  apply (broker_events_need_bridge ex_settings true ∅ (ex_library ex_state_event) 7 "client-1" "client" DXL_FLAG_MANAGED ex_state_event ex_payload "t1" [] (Some "chain")).
  - exact (services_reachable_safe ex_settings true ex_services ex_services_reachable).
  - done.
  - split_and!; [vm_compute; reflexivity..|]. intros h Hh. discriminate Hh.
Defined.
