(* ===== verification/ConfigurationProofs.v ===== *)
(** * What the configuration yields

    The zones of a node are its own and those of the nodes above it, computed in
    whatever order, and the computation terminates even where the configuration
    has cycles; two configurations are equal if they have the same nodes; and the
    bridges that a hierarchical configuration leads to have no cycle. *)

From S2P Require Import Prelude Fabric Services Configuration.
From stdpp Require Import options.

(** ** Nodes by identifier *)

Lemma foldl_insert_keeps l : ∀ m id n, m !! id = Some n → foldl node_insert m l !! id = Some n.
Proof.
  induction l as [|e l IH]; intros m id n Hm; [done|]. cbn. apply IH. unfold node_insert. destruct (m !! e.1) eqn:He; [done|].
  rewrite lookup_insert_ne; [done|]. intros <-. congruence.
Qed.
Lemma foldl_insert_from l : ∀ m id n, foldl node_insert m l !! id = Some n → m !! id = Some n ∨ (id, n) ∈ l.
Proof.
  induction l as [|[i k] l IH]; intros m id n Hm; [by left|]. cbn in Hm. destruct (IH _ _ _ Hm) as [H1|H1]; [|right; by right].
  unfold node_insert in H1. cbn in H1. destruct (m !! i) eqn:He; [by left|]. destruct (decide (i = id)) as [->|Hne].
  - rewrite lookup_insert_eq in H1. injection H1 as <-. right. by left.
  - rewrite lookup_insert_ne in H1 by done. by left.
Qed.
Lemma foldl_insert_has l : ∀ m id n, (id, n) ∈ l → is_Some (foldl node_insert m l !! id).
Proof.
  induction l as [|[i k] l IH]; intros m id n Hin; [by apply elem_of_nil in Hin|]. cbn. apply elem_of_cons in Hin as [[= -> ->]|Hin]; [|by eapply IH].
  unfold node_insert. cbn. destruct (m !! i) as [n'|] eqn:He; [exists n'; by apply foldl_insert_keeps|].
  exists k. apply foldl_insert_keeps. by rewrite lookup_insert_eq.
Qed.
Lemma elem_of_config_nodes hubs brokers id n : (id, n) ∈ config_nodes hubs brokers ↔
  match n with HubNode i => ∃ h, hubs !! i = Some h ∧ hub_id h = id | BrokerNode j => ∃ b, brokers !! j = Some b ∧ cb_id b = id end.
Proof.
  unfold config_nodes. rewrite elem_of_app, !elem_of_lookup_imap. split.
  - intros [(i & h & [= -> ->] & Hh)|(j & b & [= -> ->] & Hb)]; eauto.
  - destruct n as [i|j]; [intros (h & Hh & <-); left; by exists i, h|intros (b & Hb & <-); right; by exists j, b].
Qed.

Section nodes.
Context (hubs : list Hub) (brokers : list ConfigBroker).

Definition valid (n : nodeptr) : Prop := match n with HubNode i => is_Some (hubs !! i) | BrokerNode j => is_Some (brokers !! j) end.
Lemma node_map_valid id n : node_map hubs brokers !! id = Some n → valid n.
Proof.
  intros Hn. apply foldl_insert_from in Hn as [Hn|Hn]; [by rewrite lookup_empty in Hn|]. apply elem_of_config_nodes in Hn.
  destruct n; destruct Hn as (x & Hx & _); by exists x.
Qed.

(** The configuration with these zones. *)
Definition config_at (z : gmap nodeptr (list string)) : BrokerConfiguration := mk_BrokerConfiguration hubs brokers (node_map hubs brokers) z.

Definition hub_of (brokerId : string) : option nat := fst <$> list_find (λ h, hub_contains brokerId h = true) hubs.
Lemma hub_of_valid id i : hub_of id = Some i → valid (HubNode i).
Proof. unfold hub_of. intros ([j h] & (Hh & _)%list_find_Some & ->)%fmap_Some. by exists h. Qed.

(** ** What a node adds, and the node above it *)

Definition zone_list (zone : string) : list string := if String.eqb zone "" then [] else [zone].
Definition parent_node (parentId : string) : option nodeptr := if String.eqb parentId "" then None else node_map hubs brokers !! parentId.
Definition own_zone (n : nodeptr) : list string :=
  match n with
  | HubNode i => from_option (zone_list ∘ hub_serviceZone) [] (hubs !! i)
  | BrokerNode j => match brokers !! j with
                    | Some b => match hub_of (cb_id b) with Some _ => [] | None => zone_list (cb_serviceZone b) end
                    | None => []
                    end
  end.
Definition next_node (n : nodeptr) : option nodeptr :=
  match n with
  | HubNode i => h ← hubs !! i; parent_node (hub_parentId h)
  | BrokerNode j => b ← brokers !! j; match hub_of (cb_id b) with Some i => Some (HubNode i) | None => parent_node (cb_parentId b) end
  end.
Lemma next_valid n n' : next_node n = Some n' → valid n'.
Proof.
  assert (∀ p, parent_node p = Some n' → valid n') as Hp.
  { intros p. unfold parent_node. destruct (String.eqb p ""); [done|]. apply node_map_valid. }
  destruct n as [i|j]; cbn.
  - destruct (hubs !! i); cbn; [apply Hp|done].
  - destruct (brokers !! j); cbn; [|done]. destruct (hub_of _) eqn:He; [intros [= <-]; by eapply hub_of_valid|apply Hp].
Qed.

(** The computation at a node: its own zone, then what is above it. *)
Definition above_zones (fuel : nat) (n : nodeptr) : ST BrokerConfiguration (list string) :=
  match next_node n with Some n' => generateServiceZoneList fuel n' | None => mret [] end.
Lemma generate_step fuel n z Q : valid n →
  (∀ l, z !! n = Some l → Q l (config_at z)) →
  (z !! n = None → wp (above_zones fuel n) (λ l bc', ∃ z' own, bc' = config_at z' ∧ z' !! n = Some own ∧ Q (own ++ l) (config_at (<[n := own ++ l]> z')))
     (config_at (<[n := own_zone n]> z))) →
  wp (generateServiceZoneList (S fuel) n) Q (config_at z).
Proof.
  intros Hn Hold Hnew. cbn [generateServiceZoneList]. do 2 wp_step. change (bc_serviceZones (config_at z)) with z.
  destruct (z !! n) as [l|] eqn:Hz; [wp_step; by apply Hold|]. specialize (Hnew eq_refl). do 2 wp_step.
  set (c0 := config_at z <| bc_serviceZones ::= <[n:=[]]> |>). change c0 with (config_at (<[n:=[]]> z)). clear c0.
  assert (∀ zone (k : ST BrokerConfiguration (list string)) Q', wp k Q' (config_at (<[n := zone_list zone]> z)) → wp (zone_push n zone;; k) Q' (config_at (<[n:=[]]> z))) as Hpush.
  { intros zone k Q' Hk. wp_step. unfold zone_push, zone_list in *. destruct (String.eqb zone ""); [by wp_step|]. unfold zones_insert. wp_step.
    change (wp k Q' (config_at (alter (λ l, l ++ [zone]) n (<[n:=[]]> z)))). by rewrite alter_insert_eq. }
  assert (∀ p f z', parent_zones f p (config_at z') = match parent_node p with Some n' => f n' (config_at z') | None => Some ([], config_at z') end) as Hparent.
  { intros p f z'. unfold parent_zones, parent_node. destruct (String.eqb p ""); [done|]. unfold mbind, st_bind, gets, getConfigNode. cbn.
    by destruct (node_map hubs brokers !! p). }
  wp_step. match goal with |- wp ?m ?Q' _ => assert (wp (above_zones fuel n) Q' (config_at (<[n := own_zone n]> z)) → wp m Q' (config_at (<[n:=[]]> z))) as Hsame end.
  { unfold above_zones. destruct n as [i|j]; cbn [own_zone next_node]; destruct Hn as [x Hx]; cbn [config_at bc_hubs bc_brokers];
      intros Hk; wp_step; (eapply wp_deref; [exact Hx|]); rewrite Hx in Hk; cbn [from_option compose mbind option_bind] in Hk.
    - apply Hpush. unfold wp. rewrite Hparent. by destruct (parent_node _).
    - do 2 wp_step. change (getContainingHub (cb_id x) (config_at (<[BrokerNode j:=[]]> z))) with (hub_of (cb_id x)). destruct (hub_of (cb_id x)); [exact Hk|].
      apply Hpush. unfold wp. rewrite Hparent. by destruct (parent_node _). }
  apply Hsame. eapply wp_mono; [exact Hnew|]. intros l bc' (z' & own & -> & Hown & HQ). wp_step.
  assert (alter (λ x, x ++ l) n z' = <[n := own ++ l]> z') as Halter.
  { apply map_eq. intros m. destruct (decide (m = n)) as [->|Hne]; [by rewrite lookup_alter_eq, lookup_insert_eq, Hown|].
    by rewrite lookup_alter_ne, lookup_insert_ne by done. }
  case_bool_decide as Hl; [subst l; wp_step; eapply wp_deref|unfold zones_insert; wp_step; eapply wp_deref].
  - cbn. exact Hown.
  - rewrite app_nil_r in HQ. by rewrite insert_id in HQ by done.
  - cbn. rewrite Halter. apply lookup_insert_eq.
  - unfold upd. cbn. change (Q (own ++ l) (config_at (alter (λ x, x ++ l) n z'))). by rewrite Halter.
Qed.

(** ** It terminates *)

Definition all_nodes : list nodeptr := (HubNode <$> seq 0 (length hubs)) ++ (BrokerNode <$> seq 0 (length brokers)).
Definition uncalculated (z : gmap nodeptr (list string)) : nat := length (filter (λ n, z !! n = None) all_nodes).
Lemma elem_of_all_nodes n : valid n → n ∈ all_nodes.
Proof.
  unfold all_nodes. rewrite elem_of_app, !list_elem_of_fmap. destruct n as [i|j]; intros Hn%lookup_lt_is_Some; [left|right]; eexists;
    (split; [done|]); apply elem_of_seq; lia.
Qed.
Lemma uncalculated_all z : (uncalculated z <= length hubs + length brokers)%nat.
Proof.
  unfold uncalculated. etrans; [apply length_filter|]. unfold all_nodes. by rewrite length_app, !length_fmap, !length_seq.
Qed.
Lemma filter_length_impl {A} (P Q : A → Prop) `{!∀ x, Decision (P x)} `{!∀ x, Decision (Q x)} (l : list A) :
  (∀ x, P x → Q x) → (length (filter P l) <= length (filter Q l))%nat.
Proof.
  intros HPQ. induction l as [|x l IH]; [done|]. rewrite !filter_cons. destruct (decide (P x)) as [HP|]; [|destruct (decide (Q x)); cbn; lia].
  rewrite decide_True by auto. cbn. lia.
Qed.
Lemma filter_length_lt {A} (P Q : A → Prop) `{!∀ x, Decision (P x)} `{!∀ x, Decision (Q x)} (l : list A) x :
  (∀ x, P x → Q x) → x ∈ l → Q x → ¬ P x → (length (filter P l) < length (filter Q l))%nat.
Proof.
  intros HPQ Hin HQ HP. apply list_elem_of_split in Hin as (l1 & l2 & ->). rewrite !filter_app, !filter_cons, decide_False, (decide_True (P := Q x)) by done.
  rewrite !length_app. cbn. pose proof (filter_length_impl P Q l1 HPQ). pose proof (filter_length_impl P Q l2 HPQ). lia.
Qed.
Lemma uncalculated_insert n l z : valid n → z !! n = None → (uncalculated (<[n := l]> z) < uncalculated z)%nat.
Proof.
  intros Hn Hz. eapply (filter_length_lt _ _ _ n).
  - intros m. destruct (decide (m = n)) as [->|Hne]; [by rewrite lookup_insert_eq|]. by rewrite lookup_insert_ne by done.
  - by apply elem_of_all_nodes.
  - done.
  - by rewrite lookup_insert_eq.
Qed.

(** ** It computes the zones on the way up *)

Inductive zones_of : nodeptr → list string → Prop :=
| zones_top n : next_node n = None → zones_of n (own_zone n)
| zones_above n n' l : next_node n = Some n' → zones_of n' l → zones_of n (own_zone n ++ l).
Definition up (n n' : nodeptr) : Prop := next_node n = Some n'.
Definition acyclic : Prop := ∀ n, ¬ tc up n n.

(** With cycles nothing is known of the zones, but that they are computed. *)
Definition good (n : nodeptr) (l : list string) : Prop := acyclic → zones_of n l.
Lemma generate_spec fuel : ∀ n z, valid n → (uncalculated z < fuel)%nat → (∀ m l, z !! m = Some l → tc up m n ∨ good m l) →
  wp (generateServiceZoneList fuel n) (λ l bc', ∃ z', bc' = config_at z' ∧ (∀ m l, z !! m = Some l → z' !! m = Some l) ∧
    (∀ m l, z' !! m = Some l → z !! m = Some l ∨ good m l) ∧ z' !! n = Some l ∧ good n l) (config_at z).
Proof.
  induction fuel as [|fuel IH]; intros n z Hn Hfuel Hz; [lia|]. apply generate_step; [done| |].
  - intros l Hl. exists z. split_and!; [done|done|by left|done|]. destruct (Hz n l Hl) as [Hcycle|]; [|done]. intros Hacyclic. by destruct (Hacyclic n).
  - intros Hnone. pose proof (uncalculated_insert n (own_zone n) z Hn Hnone) as Hless. unfold above_zones.
    assert (∀ z' l, (∀ m l, <[n := own_zone n]> z !! m = Some l → z' !! m = Some l) →
      (∀ m l, z' !! m = Some l → <[n := own_zone n]> z !! m = Some l ∨ good m l) → good n (own_zone n ++ l) →
      ∃ z1 own, config_at z' = config_at z1 ∧ z1 !! n = Some own ∧ ∃ z2, config_at (<[n := own ++ l]> z1) = config_at z2 ∧
        (∀ m l, z !! m = Some l → z2 !! m = Some l) ∧ (∀ m l, z2 !! m = Some l → z !! m = Some l ∨ good m l) ∧
        z2 !! n = Some (own ++ l) ∧ good n (own ++ l)) as Hdone.
    { intros z' l Hold Hnew Hgood. exists z', (own_zone n). split_and!; [done|by apply Hold, lookup_insert_eq|]. exists (<[n := own_zone n ++ l]> z').
      split_and!; [done| | |apply lookup_insert_eq|done].
      - intros m l' Hm. assert (m ≠ n) as Hne by (intros ->; congruence). rewrite lookup_insert_ne by done. apply Hold. by rewrite lookup_insert_ne.
      - intros m l' Hm. destruct (decide (m = n)) as [->|Hne]; [rewrite lookup_insert_eq in Hm; injection Hm as <-; by right|].
        rewrite lookup_insert_ne in Hm by done. destruct (Hnew m l' Hm) as [H1|H1]; [|by right]. left. by rewrite lookup_insert_ne in H1. }
    destruct (next_node n) as [n'|] eqn:Hnext.
    + eapply wp_mono; [apply (IH n' (<[n := own_zone n]> z)); [by eapply next_valid|lia|]|].
      * intros m l Hm. destruct (decide (m = n)) as [->|Hne]; [left; by apply tc_once|]. rewrite lookup_insert_ne in Hm by done.
        destruct (Hz m l Hm) as [Hup|]; [|by right]. left. by eapply tc_r.
      * intros l bc' (z' & -> & Hold & Hnew & _ & Hgood). apply Hdone; [done|done|]. intros Ha. by eapply zones_above, Hgood.
    + wp_step. apply Hdone; [done|by left|]. intros _. rewrite app_nil_r. by apply zones_top.
Qed.

Context `{HashOrder}.
Lemma generate_loop_spec fuel ids : (length hubs + length brokers < fuel)%nat → ∀ z, (∀ id, id ∈ ids → is_Some (node_map hubs brokers !! id)) →
  (∀ m l, z !! m = Some l → good m l) →
  wp (generate_loop fuel ids) (λ _ bc', ∃ z', bc' = config_at z' ∧ (∀ m l, z !! m = Some l → z' !! m = Some l) ∧ (∀ m l, z' !! m = Some l → good m l) ∧
    ∀ id n, id ∈ ids → node_map hubs brokers !! id = Some n → is_Some (z' !! n)) (config_at z).
Proof.
  intros Hfuel. induction ids as [|id ids IH]; intros z Hids Hz; cbn [generate_loop].
  { wp_step. exists z. split_and!; [done..|]. by intros id n ?%elem_of_nil. }
  destruct (Hids id) as [n Hn]; [by left|]. wp_step. eapply wp_deref; [exact Hn|]. wp_step. eapply wp_mono; [apply (generate_spec fuel n z)|].
  - by eapply node_map_valid.
  - pose proof (uncalculated_all z). lia.
  - intros m l Hm. right. by apply Hz.
  - intros l bc' (z1 & -> & Hold1 & Hnew1 & Hn1 & _). eapply wp_mono; [apply (IH z1)|].
    + intros id' Hin. apply Hids. by right.
    + intros m l' Hm. destruct (Hnew1 m l' Hm); [by apply Hz|done].
    + intros _ bc2 (z2 & -> & Hold2 & Hgood2 & Hall2). exists z2. split_and!; [done|by auto|done|].
      intros id' n' [->|Hin]%elem_of_cons Hn'; [|by eapply Hall2]. rewrite Hn in Hn'. injection Hn' as <-. exists l. by apply Hold2.
Qed.

(** C33: a configuration always gets its service zones: the computation terminates for
    any hubs and brokers, even where they are above one another in a circle, and
    every node has its zones. If nothing is above itself they are, in whatever order
    the nodes are visited, the zone of the node (none for a broker in a hub) and the
    zones of the nodes above it, in order. *)
Theorem service_zones_computed : ∃ bc, BrokerConfiguration_new hubs brokers = Some bc ∧
  bc_hubs bc = hubs ∧ bc_brokers bc = brokers ∧ bc_nodeMap bc = node_map hubs brokers ∧
  ∀ id n, bc_nodeMap bc !! id = Some n → ∃ l, zones_by_node bc !! id = Some l ∧ (acyclic → zones_of n l).
Proof.
  unfold BrokerConfiguration_new. pose proof (generate_loop_spec (S (length hubs + length brokers)) (hash_order (dom (node_map hubs brokers)))) as Hwp.
  assert (∀ id, id ∈ hash_order (dom (node_map hubs brokers)) ↔ is_Some (node_map hubs brokers !! id)) as Hdom.
  { intros id. by rewrite hash_order_perm, elem_of_elements, elem_of_dom. }
  specialize (Hwp ltac:(lia) ∅ (λ id, proj1 (Hdom id)) (λ m l Hm, False_ind _ (lookup_empty_Some m l Hm))).
  apply wp_Some in Hwp as (u & bc & Hrun & z & -> & _ & Hgood & Hall). change (mk_BrokerConfiguration hubs brokers (node_map hubs brokers) ∅) with (config_at ∅).
  rewrite Hrun. exists (config_at z). split_and!; [done..|]. intros id n Hn. destruct (Hall id n) as [l Hl]; [by apply Hdom|done|]. exists l.
  split; [|by apply Hgood]. unfold zones_by_node. rewrite lookup_fmap, Hn. cbn. by rewrite Hl.
Qed.
End nodes.

(** ** Equality *)

Section equality.
Context (hubs : list Hub) (brokers : list ConfigBroker).

(** No identifier is used twice. *)
Definition unique_ids : Prop := NoDup ((hub_id <$> hubs) ++ (cb_id <$> brokers)).
Lemma config_nodes_ids : (config_nodes hubs brokers).*1 = (hub_id <$> hubs) ++ (cb_id <$> brokers).
Proof.
  unfold config_nodes. rewrite fmap_app. f_equal; apply list_eq; intros i; rewrite list_lookup_fmap, list_lookup_imap, list_lookup_fmap; by destruct (_ !! i).
Qed.
Lemma node_map_unique id n : unique_ids → node_map hubs brokers !! id = Some n ↔ (id, n) ∈ config_nodes hubs brokers.
Proof.
  intros Hu. split.
  - intros Hn. apply foldl_insert_from in Hn as [Hn|Hn]; [by rewrite lookup_empty in Hn|done].
  - intros Hin. destruct (foldl_insert_has _ ∅ _ _ Hin) as [n' Hn']. unfold node_map. rewrite Hn'. f_equal.
    apply foldl_insert_from in Hn' as [Hn'|Hn']; [by rewrite lookup_empty in Hn'|].
    unfold unique_ids in Hu. rewrite <-config_nodes_ids in Hu. apply list_elem_of_lookup in Hin as [i Hi]. apply list_elem_of_lookup in Hn' as [j Hj].
    assert (i = j) as ->; [|congruence]. eapply (NoDup_lookup _ i j id Hu); rewrite list_lookup_fmap; [by rewrite Hi|by rewrite Hj].
Qed.
Lemma node_hub_unique z h : unique_ids → node_hub (config_at hubs brokers z) (hub_id h) = Some h ↔ h ∈ hubs.
Proof.
  intros Hu. unfold node_hub, getConfigNode. cbn [config_at bc_nodeMap bc_hubs]. split.
  - destruct (node_map _ _ !! _) as [[i|j]|]; [|done..]. apply list_elem_of_lookup_2.
  - intros [i Hi]%list_elem_of_lookup. assert (node_map hubs brokers !! hub_id h = Some (HubNode i)) as ->; [|done].
    apply node_map_unique; [done|]. apply elem_of_config_nodes. by exists h.
Qed.
Lemma node_broker_unique z b : unique_ids → node_broker (config_at hubs brokers z) (cb_id b) = Some b ↔ b ∈ brokers.
Proof.
  intros Hu. unfold node_broker, getConfigNode. cbn [config_at bc_nodeMap bc_brokers]. split.
  - destruct (node_map _ _ !! _) as [[i|j]|]; [done| |done]. apply list_elem_of_lookup_2.
  - intros [j Hj]%list_elem_of_lookup. assert (node_map hubs brokers !! cb_id b = Some (BrokerNode j)) as ->; [|done].
    apply node_map_unique; [done|]. apply elem_of_config_nodes. by exists b.
Qed.
End equality.

Lemma same_elements {A} (l k : list A) : NoDup l → length l = length k → (∀ x, x ∈ l → x ∈ k) → l ≡ₚ k.
Proof. intros Hl Hlen Hin. apply submseteq_length_Permutation; [by apply NoDup_submseteq|lia]. Qed.

(** The configuration is replaced, and its listeners told, exactly if it changed:
    with identifiers used once, the equality of configurations is that of the sets
    of their hubs and of their brokers, whatever the order of the file and however
    far the zones are computed. *)
Theorem configuration_change_detected hubs brokers hubs' brokers' z z' : unique_ids hubs brokers → unique_ids hubs' brokers' →
  let old := config_at hubs brokers z in let new := config_at hubs' brokers' z' in
  setBrokerConfiguration new (Some old) = (if bool_decide (hubs ≡ₚ hubs' ∧ brokers ≡ₚ brokers') then (false, Some old) else (true, Some new)).
Proof.
  intros Hu Hu' old new. unfold setBrokerConfiguration.
  assert (config_eqb old new = bool_decide (hubs ≡ₚ hubs' ∧ brokers ≡ₚ brokers')) as ->; [|by case_bool_decide].
  apply eq_true_iff_eq. rewrite bool_decide_eq_true. unfold config_eqb, old, new. cbn [config_at bc_hubs bc_brokers].
  rewrite !andb_true_iff, !Nat.eqb_eq, !forallb_forall. setoid_rewrite bool_decide_eq_true.
  setoid_rewrite (node_hub_unique hubs' brokers'); [|done]. setoid_rewrite (node_broker_unique hubs' brokers'); [|done].
  setoid_rewrite <-list_elem_of_In. pose proof Hu as [Hh%(NoDup_fmap_1 hub_id) [_ Hb%(NoDup_fmap_1 cb_id)]]%NoDup_app. split.
  - intros [[[Hlh Hlb] Hih] Hib]. by split; apply same_elements.
  - intros [Hph Hpb]. split_and!; [by rewrite Hph|by rewrite Hpb|intros h; by rewrite Hph|intros b; by rewrite Hpb].
Qed.

(** ** Bridges *)

Lemma ltb_strict a b : String.ltb a b = true ↔ strict String.le a b.
Proof.
  unfold strict, String.le, String.leb, String.ltb. rewrite (String.compare_antisym b a). destruct (String.compare a b); cbn; naive_solver.
Qed.

Section bridges.
Context (hubs : list Hub) (brokers : list ConfigBroker) (z : gmap nodeptr (list string)).
Notation bc := (config_at hubs brokers z).
Implicit Types (b : ConfigBroker) (h : Hub).

Lemma node_id id n : node_map hubs brokers !! id = Some n → match n with
  | HubNode i => ∃ h, hubs !! i = Some h ∧ hub_id h = id | BrokerNode j => ∃ b, brokers !! j = Some b ∧ cb_id b = id end.
Proof.
  intros Hn. apply elem_of_config_nodes with (brokers := brokers). apply foldl_insert_from in Hn as [Hn|Hn]; [by rewrite lookup_empty in Hn|done].
Qed.
Lemma node_broker_id id b : node_broker bc id = Some b → b ∈ brokers ∧ cb_id b = id.
Proof.
  unfold node_broker, getConfigNode. cbn [config_at bc_nodeMap bc_brokers]. destruct (node_map _ _ !! id) as [[i|j]|] eqn:Hn; [done| |done].
  intros Hj. apply node_id in Hn as (b' & Hb' & Hid). rewrite Hj in Hb'. injection Hb' as <-. split; [by eapply list_elem_of_lookup_2|done].
Qed.
Lemma containing_hub_spec id h : containing_hub bc id = Some h → h ∈ hubs ∧ (hub_primaryBrokerId h = id ∨ hub_secondaryBrokerId h = id).
Proof.
  unfold containing_hub, getContainingHub. cbn [config_at bc_hubs]. destruct (list_find _ hubs) as [[i h']|] eqn:Hf; cbn; [|done].
  apply list_find_Some in Hf as (Hi & Hc & _). rewrite Hi. intros [= <-]. split; [by eapply list_elem_of_lookup_2|].
  unfold hub_contains in Hc. by rewrite orb_true_iff, !String.eqb_eq in Hc.
Qed.

(** The entries that [addBroker] adds for an identifier. *)
Definition entries (id : string) : list CoreBroker :=
  if String.eqb id "" then [] else from_option broker_entries [] (node_broker bc id).
Lemma addBroker_entries id c : addBroker bc id c = c <| cf_brokers ::= λ l, l ++ entries id |>.
Proof.
  unfold addBroker, entries. destruct (String.eqb id ""); [destruct c; cbn; by rewrite app_nil_r|].
  destruct (node_broker bc id); [done|]. destruct c. cbn. by rewrite app_nil_r.
Qed.
Lemma entries_guid id e : e ∈ entries id → co_guid e = id ∧ id ≠ "" ∧ ∃ b, node_broker bc id = Some b.
Proof.
  unfold entries. destruct (String.eqb_spec id "") as [|Hne]; [by intros ?%elem_of_nil|]. destruct (node_broker bc id) as [b|] eqn:Hb; cbn; [|by intros ?%elem_of_nil].
  pose proof (node_broker_id _ _ Hb) as [_ Hid]. unfold broker_entries. rewrite elem_of_cons. destruct (String.eqb _ _); rewrite ?list_elem_of_singleton, ?elem_of_nil.
  - intros [->|[]]. by split_and!; [|done|exists b].
  - intros [->| ->]; (split_and!; [done|done|by exists b]).
Qed.

(** *** What a broker connects to: its hub's other member, its parents *)

Definition other_member (h : Hub) (id : string) : string := if String.eqb id (hub_primaryBrokerId h) then hub_secondaryBrokerId h else hub_primaryBrokerId h.
Definition primary_of b : list CoreBroker :=
  match containing_hub bc (cb_id b) with
  | Some h => if String.ltb (other_member h (cb_id b)) (cb_id b) then entries (other_member h (cb_id b)) else []
  | None => []
  end.
Definition parent_of b : string := match containing_hub bc (cb_id b) with Some h => hub_parentId h | None => cb_parentId b end.
(** The brokers of the node above, in the order of their identifiers. *)
Definition parent_entries (parentId : string) : list CoreBroker :=
  if String.eqb parentId "" then []
  else
    match node_map hubs brokers !! parentId with
    | Some (HubNode i) =>
      from_option (λ h, if String.ltb (hub_primaryBrokerId h) (hub_secondaryBrokerId h)
                        then entries (hub_primaryBrokerId h) ++ entries (hub_secondaryBrokerId h)
                        else entries (hub_secondaryBrokerId h) ++ entries (hub_primaryBrokerId h)) [] (hubs !! i)
    | Some (BrokerNode _) => entries parentId
    | None => []
    end.
Lemma addParents_entries b c : addParents bc b c = c <| cf_brokers ::= λ l, l ++ parent_entries (parent_of b) |>.
Proof.
  unfold addParents, parent_entries, getConfigNode. fold (parent_of b). cbn [config_at bc_nodeMap bc_hubs].
  assert (c = c <| cf_brokers ::= λ l, l ++ [] |>) as Hnil by (destruct c; cbn; by rewrite app_nil_r).
  destruct (String.eqb (parent_of b) ""); [exact Hnil|]. destruct (node_map _ _ !! parent_of b) as [[i|j]|]; [|apply addBroker_entries|exact Hnil].
  destruct (hubs !! i) as [h|]; [|exact Hnil]. cbn [from_option].
  destruct (String.ltb _ _); rewrite !addBroker_entries; destruct c; cbn; by rewrite app_assoc.
Qed.
Lemma not_ltb_empty s : String.ltb s "" = false.
Proof. by destruct s. Qed.
Lemma addPrimaryHub_entries b c : cf_brokers c = [] → cf_primaryBrokerCount c = 0 →
  cf_brokers (addPrimaryHub bc b c) = primary_of b ∧ (cf_primaryBrokerCount (addPrimaryHub bc b c) = Z.of_nat (length (primary_of b))).
Proof.
  intros Hc Hn. unfold addPrimaryHub, primary_of. destruct (containing_hub bc (cb_id b)) as [h|]; [|by rewrite Hc, Hn]. fold (other_member h (cb_id b)).
  cbv zeta. set (o := other_member h (cb_id b)). rewrite addBroker_entries. destruct (String.ltb o (cb_id b)); [|by rewrite andb_false_r].
  destruct (String.eqb_spec o "") as [->|Hne]; cbn; [by rewrite Hc, Hn|]. rewrite Hc. cbn. split; [done|]. apply u32_id.
  unfold entries. destruct (String.eqb _ _); [done|]. destruct (node_broker bc o) as [b'|]; [|done]. cbn. destruct (String.eqb (cb_ipAddress b') ""); cbn; lia.
Qed.

(** The bridges of a broker. *)
Lemma createConfiguration_spec b : node_broker bc (cb_id b) = Some b →
  cf_brokers (createConfiguration (cb_id b) bc) = primary_of b ++ parent_entries (parent_of b) ∧
  cf_primaryBrokerCount (createConfiguration (cb_id b) bc) = Z.of_nat (length (primary_of b)).
Proof.
  intros Hb. unfold createConfiguration. rewrite Hb, addParents_entries.
  match goal with |- context [addPrimaryHub bc b ?c] => destruct (addPrimaryHub_entries b c eq_refl eq_refl) as [He Hn] end.
  cbn. by rewrite He, Hn.
Qed.

(** *** A hierarchy has no circle *)

(** Parents are lower than their children, the members of a hub as high as the hub. *)
Record hierarchical (rank : string → nat) : Prop := {
  hr_hub h : h ∈ hubs → hub_parentId h ≠ "" → (rank (hub_parentId h) < rank (hub_id h))%nat;
  hr_member h id : h ∈ hubs → id ≠ "" → hub_primaryBrokerId h = id ∨ hub_secondaryBrokerId h = id → rank id = rank (hub_id h);
  hr_broker b : b ∈ brokers → cb_parentId b ≠ "" → containing_hub bc (cb_id b) = None → (rank (cb_parentId b) < rank (cb_id b))%nat;
  hr_id b : b ∈ brokers → cb_id b ≠ "" }.

Definition bridges_to (id id' : string) : Prop := ∃ e, e ∈ cf_brokers (createConfiguration id bc) ∧ co_guid e = id'.
(** Lower, or in the same hub and first. *)
Definition before (rank : string → nat) (id' id : string) : Prop :=
  (rank id' < rank id)%nat ∨ (rank id' = rank id ∧ String.ltb id' id = true).
Lemma before_trans rank (id1 id2 id3 : string) : before rank id1 id2 → before rank id2 id3 → before rank id1 id3.
Proof.
  unfold before. intros [Hab|[Hab Lab]] [Hbc|[Hbc Lbc]]; [left; lia|left; lia|left; lia|]. right. split; [lia|].
  apply ltb_strict in Lab, Lbc. apply ltb_strict. by etrans.
Qed.
Lemma before_irrefl rank a : ¬ before rank a a.
Proof. intros [H|[_ H]]; [lia|]. apply ltb_strict in H. by apply (irreflexivity (strict String.le) a). Qed.

Lemma parent_before rank b e : hierarchical rank → b ∈ brokers → e ∈ parent_entries (parent_of b) → (rank (co_guid e) < rank (cb_id b))%nat.
Proof.
  intros Hr Hb He. unfold parent_entries in He. destruct (String.eqb_spec (parent_of b) "") as [|Hne]; [by apply elem_of_nil in He|].
  assert (rank (parent_of b) < rank (cb_id b))%nat as Hlow.
  { unfold parent_of in *. destruct (containing_hub bc (cb_id b)) as [h|] eqn:Hh; [|by apply (hr_broker _ Hr)].
    apply containing_hub_spec in Hh as [Hh Hm]. rewrite (hr_member _ Hr h (cb_id b)); [by apply (hr_hub _ Hr)|done|by apply (hr_id _ Hr)|done]. }
  destruct (node_map _ _ !! parent_of b) as [[i|j]|] eqn:Hn; [| |by apply elem_of_nil in He].
  - apply node_id in Hn as (h & Hi & Hid). rewrite Hi in He. cbn in He. assert (h ∈ hubs) as Hin by (by eapply list_elem_of_lookup_2).
    assert (∀ id, e ∈ entries id → hub_primaryBrokerId h = id ∨ hub_secondaryBrokerId h = id → (rank (co_guid e) < rank (cb_id b))%nat) as Hmem.
    { intros id Hid' Hm. apply entries_guid in Hid' as (-> & Hid' & _). rewrite (hr_member _ Hr h id) by done. by rewrite Hid. }
    destruct (String.ltb _ _); apply elem_of_app in He as [He|He]; eapply Hmem; eauto.
  - apply entries_guid in He as (-> & _). done.
Qed.
Lemma bridge_before rank id id' : hierarchical rank → bridges_to id id' → before rank id' id.
Proof.
  intros Hr (e & He & <-). destruct (node_broker bc id) as [b|] eqn:Hb.
  2: { unfold createConfiguration in He. rewrite Hb in He. by apply elem_of_nil in He. }
  pose proof (node_broker_id _ _ Hb) as [Hin <-]. rewrite (proj1 (createConfiguration_spec b Hb)) in He.
  apply elem_of_app in He as [He|He]; [|left; by apply parent_before]. unfold primary_of in He.
  destruct (containing_hub bc (cb_id b)) as [h|] eqn:Hh; [|by apply elem_of_nil in He]. apply containing_hub_spec in Hh as [Hh Hm].
  destruct (String.ltb _ _) eqn:Hlt; [|by apply elem_of_nil in He]. apply entries_guid in He as (-> & Hne & _). right. split; [|done].
  rewrite (hr_member _ Hr h (cb_id b)) by (done || by apply (hr_id _ Hr)). apply (hr_member _ Hr); [done|done|]. unfold other_member. destruct (String.eqb _ _); auto.
Qed.

(** C29: the bridges that a hierarchical configuration asks for never form a circle:
    no broker reaches itself by the brokers it connects to, over hubs (whose second
    member connects to the first) and parents. *)
Theorem bridges_acyclic rank : hierarchical rank → ∀ id, ¬ tc bridges_to id id.
Proof.
  intros Hr id Hcircle. apply (before_irrefl rank id). assert (∀ x y, tc bridges_to x y → before rank y x) as Hbefore; [|by apply Hbefore].
  induction 1 as [x y Hxy|x y w Hxy _ IH]; [by apply bridge_before|]. eapply before_trans; [exact IH|]. by apply bridge_before.
Qed.

(** The two brokers of a hub stand for each other: the second by identifier
    connects to the first before anything else, as its primary, and the first never
    connects to the second in that way and is the one that goes round its parents;
    both connect to the same parents in the same order. *)
Theorem hub_members_connect a b h : node_broker bc (cb_id a) = Some a → node_broker bc (cb_id b) = Some b →
  containing_hub bc (cb_id a) = Some h → containing_hub bc (cb_id b) = Some h → String.ltb (cb_id a) (cb_id b) = true → cb_id a ≠ "" →
  let ca := createConfiguration (cb_id a) bc in let cb := createConfiguration (cb_id b) bc in
  cf_brokers ca = parent_entries (hub_parentId h) ∧ isRoundRobin ca = true ∧
  cf_brokers cb = broker_entries a ++ parent_entries (hub_parentId h) ∧ cf_primaryBrokerCount cb = Z.of_nat (length (broker_entries a)) ∧ isRoundRobin cb = false.
Proof.
  intros Ha Hb Hha Hhb Hlt Hne ca cb. destruct (createConfiguration_spec a Ha) as [Hea Hna], (createConfiguration_spec b Hb) as [Heb Hnb].
  assert (cb_id a ≠ cb_id b) as Hneq. { intros He. rewrite He in Hlt. apply ltb_strict in Hlt. by apply (irreflexivity (strict String.le) (cb_id b)). }
  assert (String.ltb (cb_id b) (cb_id a) = false) as Hgt.
  { apply not_true_iff_false. intros Hlt'. apply ltb_strict in Hlt, Hlt'. by apply (irreflexivity (strict String.le) (cb_id a)); etrans. }
  pose proof (containing_hub_spec _ _ Hha) as [_ Hma]. pose proof (containing_hub_spec _ _ Hhb) as [_ Hmb].
  assert (other_member h (cb_id a) = cb_id b ∧ other_member h (cb_id b) = cb_id a) as [Hoa Hob].
  { unfold other_member. destruct (String.eqb_spec (cb_id a) (hub_primaryBrokerId h)), (String.eqb_spec (cb_id b) (hub_primaryBrokerId h)); split; destruct Hma, Hmb; congruence. }
  assert (entries (cb_id a) = broker_entries a) as Hentries.
  { unfold entries. apply String.eqb_neq in Hne. by rewrite Hne, Ha. }
  unfold primary_of, parent_of in *. rewrite Hha, Hoa, Hgt in *. rewrite Hhb, Hob, Hlt, Hentries in *. unfold isRoundRobin, ca, cb.
  rewrite Hna, Hnb. split_and!; [exact Hea|done|exact Heb|done|done].
Qed.
End bridges.
