(* ===== verification/ConfigurationExamples.v ===== *)
(** * A configuration

    Two hubs, one above the other, and a broker below them, with the zones and
    bridges it leads to, and the theorems on configurations applied to it. *)

From S2P Require Import Prelude Fabric RegistryExamples Services Configuration ConfigurationProofs.
From stdpp Require Import options.

Definition ex_hubs : list Hub := [mk_Hub "H" "B" "A" "" "top" "Head"; mk_Hub "K" "C" "D" "H" "site" "Site"].
Definition ex_brokers : list ConfigBroker :=
  [mk_ConfigBroker "A" "a.example" 8883 "" "" "10.0.0.1"; mk_ConfigBroker "B" "b.example" 8883 "" "" "";
   mk_ConfigBroker "C" "c.example" 8883 "own" "" ""; mk_ConfigBroker "D" "d.example" 8883 "" "" "10.0.0.4";
   mk_ConfigBroker "E" "e.example" 8883 "edge" "K" ""].
Definition ex_config : option BrokerConfiguration := BrokerConfiguration_new ex_hubs ex_brokers.

Example ex_zones : (λ bc, map_to_list (zones_by_node bc)) <$> ex_config =
  Some [("K", ["site"; "top"]); ("C", ["site"; "top"]); ("E", ["edge"; "site"; "top"]); ("A", ["top"]); ("B", ["top"]); ("D", ["site"; "top"]); ("H", ["top"])].
Proof. vm_compute. reflexivity. Qed.
Example ex_bridges : (λ bc, (λ c, (getBridgeId c, cf_primaryBrokerCount c)) <$> ((λ id, createConfiguration id bc) <$> ["A"; "B"; "C"; "D"; "E"])) <$> ex_config =
  Some [("", 0); ("B:A:A", 2); ("C:A:A:B", 0); ("D:C:A:A:B", 1); ("E:C:D:D", 0)].
Proof. vm_compute. reflexivity. Qed.
(** Two brokers above each other: the zones depend on where the computation starts. *)
Example ex_circle : (λ bc, map_to_list (zones_by_node bc)) <$> BrokerConfiguration_new [] [mk_ConfigBroker "X" "x" 1 "zx" "Y" ""; mk_ConfigBroker "Y" "y" 1 "zy" "X" ""]
  = Some [("Y", ["zy"; "zx"; "zy"]); ("X", ["zx"; "zy"])].
Proof. vm_compute. reflexivity. Qed.

Definition ex_rank (id : string) : nat := if bool_decide (id ∈ ["H"; "A"; "B"; ""]) then 0 else if bool_decide (id ∈ ["K"; "C"; "D"]) then 1 else 2.
Definition ex_config_at : BrokerConfiguration := config_at ex_hubs ex_brokers ∅.

Lemma ex_unique : unique_ids ex_hubs ex_brokers.
Proof. unfold unique_ids. apply (bool_decide_unpack _). vm_compute. exact I. Qed.
Lemma ex_hierarchical : hierarchical ex_hubs ex_brokers ∅ ex_rank.
Proof.
  split.
  - intros h Hh. repeat (apply elem_of_cons in Hh as [->|Hh]; [vm_compute; (done || lia)|]). by apply elem_of_nil in Hh.
  - intros h id Hh _ [<-|<-]; repeat (apply elem_of_cons in Hh as [->|Hh]; [by vm_compute|]); by apply elem_of_nil in Hh.
  - intros b Hb. repeat (apply elem_of_cons in Hb as [->|Hb]; [vm_compute; intros; (done || lia)|]). by apply elem_of_nil in Hb.
  - intros b Hb. repeat (apply elem_of_cons in Hb as [->|Hb]; [done|]). by apply elem_of_nil in Hb.
Qed.

Lemma configuration_change_detected_witness :
  setBrokerConfiguration (config_at (reverse ex_hubs) ex_brokers ∅) (Some ex_config_at)
    = (if bool_decide (ex_hubs ≡ₚ reverse ex_hubs ∧ ex_brokers ≡ₚ ex_brokers) then (false, Some ex_config_at)
       else (true, Some (config_at (reverse ex_hubs) ex_brokers ∅))).
Proof.
  apply (configuration_change_detected ex_hubs ex_brokers (reverse ex_hubs) ex_brokers ∅ ∅ ex_unique).
  unfold unique_ids. apply (bool_decide_unpack _). vm_compute. exact I.
Defined.

Lemma bridges_acyclic_witness : ¬ tc (bridges_to ex_hubs ex_brokers ∅) "E" "E".
Proof. exact (bridges_acyclic ex_hubs ex_brokers ∅ ex_rank ex_hierarchical "E"). Defined.

Definition ex_c : ConfigBroker := mk_ConfigBroker "C" "c.example" 8883 "own" "" "".
Definition ex_d : ConfigBroker := mk_ConfigBroker "D" "d.example" 8883 "" "" "10.0.0.4".
Definition ex_k : Hub := mk_Hub "K" "C" "D" "H" "site" "Site".
Lemma hub_members_connect_witness :
  let cc := createConfiguration "C" ex_config_at in let cd := createConfiguration "D" ex_config_at in
  cf_brokers cc = parent_entries ex_hubs ex_brokers ∅ "H" ∧ isRoundRobin cc = true ∧
  cf_brokers cd = broker_entries ex_c ++ parent_entries ex_hubs ex_brokers ∅ "H" ∧
  cf_primaryBrokerCount cd = Z.of_nat (length (broker_entries ex_c)) ∧ isRoundRobin cd = false.
Proof. apply (hub_members_connect ex_hubs ex_brokers ∅ ex_c ex_d ex_k); vm_compute; done. Defined.
