(* ===== verification/ConfFile.v ===== *)
(** * The settings of the core

    [src/conf.c], but for adding a bridge ([WorkQueue]): the defaults, the command line,
    the configuration file with its line buffer, the settings for TLS; and what [main]
    ([src/mosquitto.c]) makes of the settings that the library brings.

    The buffer of a line is a list of 1024 bytes, a pointer into it an offset: [strtok_r]
    writes into it, and what a line does not overwrite stays from the line before. *)

From S2P Require Import Prelude Topic State Packet PacketProofs Contexts Metrics.
From stdpp Require Import options.

(** ** The configuration *)

(** [struct _mqtt3_listener]; the fields that [mqtt3_socket_listen] sets are left out. *)
Record _mqtt3_listener := mk_mqtt3_listener {
  ls_host : option string; ls_port : Z; ls_max_connections : Z; ls_cafile : option string;
  ls_capath : option string; ls_certfile : option string; ls_keyfile : option string;
  ls_ciphers : option string; ls_require_certificate : bool; ls_crlfile : option string;
  ls_tls_version : option string }.
#[export] Instance eta_listener : Eta _mqtt3_listener := λ r,
  mk_mqtt3_listener (ls_host r) (ls_port r) (ls_max_connections r) (ls_cafile r) (ls_capath r)
    (ls_certfile r) (ls_keyfile r) (ls_ciphers r) (ls_require_certificate r) (ls_crlfile r)
    (ls_tls_version r).
Definition zero_listener : _mqtt3_listener := mk_mqtt3_listener None 0 0 None None None None None false None None.

(** [struct mqtt3_config]. [mq_listeners] are the elements of the array that were set:
    one more is counted when the port of a listener is refused. *)
Record mqtt3_config := mk_mqtt3_config {
  mq_config_file : option string; mq_allow_duplicate_messages : bool; mq_connection_messages : bool;
  mq_daemon : bool; mq_default_listener : _mqtt3_listener; mq_listeners : list _mqtt3_listener;
  mq_listener_count : Z; mq_log_dest : Z; mq_log_type : Z; mq_log_category_mask : Z;
  mq_log_timestamp : bool; mq_log_file : option string; mq_log_fptr : bool;
  mq_message_size_limit : Z; mq_pid_file : option string; mq_queue_qos0_messages : bool;
  mq_retry_interval : Z; mq_store_clean_interval : Z; mq_upgrade_outgoing_qos : bool;
  mq_user : option string; mq_verbose : bool; mq_bridges : list bridge; mq_ws_enabled : bool;
  mq_ws_port : Z }.
#[export] Instance eta_mqtt3_config : Eta mqtt3_config := λ r,
  mk_mqtt3_config (mq_config_file r) (mq_allow_duplicate_messages r) (mq_connection_messages r)
    (mq_daemon r) (mq_default_listener r) (mq_listeners r) (mq_listener_count r) (mq_log_dest r)
    (mq_log_type r) (mq_log_category_mask r) (mq_log_timestamp r) (mq_log_file r) (mq_log_fptr r)
    (mq_message_size_limit r) (mq_pid_file r) (mq_queue_qos0_messages r) (mq_retry_interval r)
    (mq_store_clean_interval r) (mq_upgrade_outgoing_qos r) (mq_user r) (mq_verbose r)
    (mq_bridges r) (mq_ws_enabled r) (mq_ws_port r).

(** [struct config_recurse]. *)
Record config_recurse := mk_config_recurse {
  cr_log_dest : Z; cr_log_dest_set : bool; cr_log_type : Z; cr_log_type_set : bool;
  cr_max_inflight_messages : Z; cr_max_queued_messages : Z }.
#[export] Instance eta_config_recurse : Eta config_recurse := λ r,
  mk_config_recurse (cr_log_dest r) (cr_log_dest_set r) (cr_log_type r) (cr_log_type_set r)
    (cr_max_inflight_messages r) (cr_max_queued_messages r).

(** The static variables of [conf.c] on TLS. *)
Record tls_statics := mk_tls_statics {
  s_tlsEnabled : bool; s_tlsBridgingInsecure : bool; s_clientCertChainFile : option string;
  s_brokerCertChainFile : option string; s_brokerKeyFile : option string;
  s_brokerCertFile : option string; s_ciphers : option string; s_tlsVersion : option string;
  s_brokerCerts : option (list string) }.
Definition initial_tls : tls_statics := mk_tls_statics false true None None None None None None None.

Definition MQTT3_LOG_NONE : Z := 0.
Definition MQTT3_LOG_FILE : Z := 2.
Definition MQTT3_LOG_STDOUT : Z := 4.
Definition MQTT3_LOG_STDERR : Z := 8.
Definition MOSQ_LOG_NONE : Z := 0.
Definition MOSQ_LOG_INFO : Z := 1.
Definition MOSQ_LOG_NOTICE : Z := 2.
Definition MOSQ_LOG_WARNING : Z := 4.
Definition MOSQ_LOG_ERR : Z := 8.
Definition MOSQ_LOG_DEBUG : Z := 16.
Definition MOSQ_LOG_SUBSCRIBE : Z := 32.
Definition MOSQ_LOG_UNSUBSCRIBE : Z := 64.
Definition INT_MAX : Z := 2 ^ 31 - 1.

(** [atoi]: white space, a sign, digits; [strtol] stops at the bounds of a [long], of
    which an [int] keeps the low half. *)
Definition byte_is_space (b : Z) : bool := (b =? 32) || ((9 <=? b) && (b <=? 13)).
Fixpoint skip_spaces (l : list Z) : list Z :=
  match l with b :: l' => if byte_is_space b then skip_spaces l' else l | [] => [] end.
Fixpoint digits_value (acc : Z) (l : list Z) : Z :=
  match l with
  | b :: l' => if (48 <=? b) && (b <=? 57) then digits_value (10 * acc + (b - 48)) l' else acc
  | [] => acc
  end.
Definition strtol (l : list Z) : Z :=
  let v := match skip_spaces l with
           | b :: l' => if b =? 45 then - digits_value 0 l' else if b =? 43 then digits_value 0 l' else digits_value 0 (b :: l')
           | [] => 0
           end in
  Z.max (- 2 ^ 63) (Z.min v (2 ^ 63 - 1)).
Definition atoi (l : list Z) : Z := i32 (strtol l).

(** ** The files and the resolver *)

Class ConfEnv := {
  cenv : Type;
  fopen_read : string → cenv → option (list Z) * cenv;   (* fopen(file, "rt"), what fgets reads *)
  fopen_append : string → cenv → bool * cenv;            (* fopen(file, "at"): opened *)
  resolve : string → cenv → bool * cenv;                 (* getaddrinfo: found *)
  uninitialised : cenv → list Z * cenv }.                (* what a new buffer holds *)

Record conf_state `{ConfEnv} := mk_conf_state {
  cs_config : mqtt3_config; cs_cr : config_recurse; cs_cur_listener : option nat; cs_buf : list Z;
  cs_max_inflight : Z; cs_max_queued : Z; cs_tls : tls_statics; cs_env : cenv }.
#[export] Instance eta_conf_state `{ConfEnv} : Eta conf_state := λ r,
  mk_conf_state _ (cs_config r) (cs_cr r) (cs_cur_listener r) (cs_buf r) (cs_max_inflight r)
    (cs_max_queued r) (cs_tls r) (cs_env r).

(** *** The characters of a C string in a buffer; none if the buffer ends first *)
Fixpoint until_nul (l : list Z) : option (list Z) :=
  match l with [] => None | b :: l' => if b =? 0 then Some [] else cons b <$> until_nul l' end.
Fixpoint spaces (l : list Z) : nat :=
  match l with b :: l' => if b =? 32 then S (spaces l') else O | [] => O end.
Fixpoint word (l : list Z) : list Z :=
  match l with b :: l' => if b =? 32 then [] else b :: word l' | [] => [] end.

(** What [fgets] takes of a file: at most [n] bytes, up to a newline. *)
Fixpoint take_line (n : nat) (file : list Z) : list Z * list Z :=
  match n, file with
  | S n', b :: file' =>
    if b =? 10 then ([b], file') else let '(l, rest) := take_line n' file' in (b :: l, rest)
  | _, _ => ([], file)
  end.

Section conf.
Context `{ConfEnv}.
Notation C := (ST conf_state).

Definition conf_ext {A} (f : cenv → A * cenv) : C A := λ s,
  let '(a, e) := f (cs_env s) in Some (a, s <| cs_env := e |>).
Definition set_config (f : mqtt3_config → mqtt3_config) : C () := modify (λ s, s <| cs_config ::= f |>).
Definition set_cr (f : config_recurse → config_recurse) : C () := modify (λ s, s <| cs_cr ::= f |>).
Definition config_get : C mqtt3_config := gets cs_config.

(** ** The line buffer *)

Definition string_at (pos : nat) : C (list Z) := deref (λ s, until_nul (drop pos (cs_buf s))).
Definition poke (pos : nat) (b : Z) : C () :=
  buf ← gets cs_buf;
  assert_ (bool_decide (pos < length buf)%nat);;
  modify (λ s, s <| cs_buf := <[pos := b]> buf |>).

Definition fgets (file : list Z) : C (option (list Z)) :=
  match take_line 1023 file with
  | ([], _) => mret None
  | (l, rest) =>
    modify (λ s, s <| cs_buf ::= λ buf, l ++ [0] ++ drop (S (length l)) buf |>);;
    mret (Some rest)
  end.

(** [strtok_r(NULL, delim, &saveptr)] with a space for [delim]: the token with its
    place, and the new [saveptr]. *)
Definition strtok_r (saveptr : nat) : C (option (nat * list Z) * nat) :=
  str ← string_at saveptr;
  let start := (saveptr + spaces str)%nat in
  let rest := drop (spaces str) str in
  let stop := (start + length (word rest))%nat in
  if bool_decide (rest = []) then mret (None, start)
  else if bool_decide (length (word rest) = length rest) then mret (Some (start, word rest), stop)
  else poke stop 0;; mret (Some (start, word rest), S stop).

(** The newlines at the end of a line are overwritten. *)
Fixpoint strip_newlines (fuel : nat) : C () :=
  match fuel with
  | O => ub
  | S fuel' =>
    str ← string_at 0;
    match last str with
    | None => ub
    | Some b =>
      if (b =? 10) || (b =? 13) then poke (length str - 1) 0;; strip_newlines fuel' else mret tt
    end
  end.

(** ** Values *)

Definition token_is (token : list Z) (name : string) : bool := bool_decide (token = str_bytes name).

Definition _conf_parse_bool (value : bool) (saveptr : nat) : C (Z * bool) :=
  '(t, _) ← strtok_r saveptr;
  match t with
  | Some (_, token) =>
    if token_is token "false" || token_is token "0" then mret (MOSQ_ERR_SUCCESS, false)
    else if token_is token "true" || token_is token "1" then mret (MOSQ_ERR_SUCCESS, true)
    else mret (MOSQ_ERR_SUCCESS, value)
  | None => mret (MOSQ_ERR_INVAL, value)
  end.

Definition _conf_parse_int (value : Z) (saveptr : nat) : C (Z * Z) :=
  '(t, _) ← strtok_r saveptr;
  match t with
  | Some (_, token) => mret (MOSQ_ERR_SUCCESS, atoi token)
  | None => mret (MOSQ_ERR_INVAL, value)
  end.

Definition _conf_parse_string (value : option string) (saveptr : nat) : C (Z * option string) :=
  '(t, _) ← strtok_r saveptr;
  match t with
  | Some (_, token) =>
    match value with
    | Some _ => mret (MOSQ_ERR_INVAL, value)
    | None => mret (MOSQ_ERR_SUCCESS, Some (cstr_of_bytes token))
    end
  | None => mret (MOSQ_ERR_INVAL, value)
  end.

Definition _conf_attempt_resolve (host : string) : C Z :=
  found ← conf_ext (resolve host);
  mret (if (found : bool) then MOSQ_ERR_SUCCESS else MOSQ_ERR_INVAL).

(** An option of the configuration that is parsed into a field of it. *)
Definition parse_into {V} (parse : V → nat → C (Z * V)) (get : mqtt3_config → V)
    (put : V → mqtt3_config → mqtt3_config) (saveptr : nat) : C Z :=
  c ← config_get;
  '(rc, v) ← parse (get c) saveptr;
  set_config (put v);;
  mret rc.

(** [cur_listener]: the default listener or one of the array. *)
Definition cur_listener : C _mqtt3_listener :=
  cur ← gets cs_cur_listener;
  deref (λ s, match cur with
              | None => Some (mq_default_listener (cs_config s))
              | Some i => mq_listeners (cs_config s) !! i
              end).
Definition set_cur_listener (f : _mqtt3_listener → _mqtt3_listener) : C () :=
  cur ← gets cs_cur_listener;
  set_config (λ c, match cur with
                   | None => c <| mq_default_listener ::= f |>
                   | Some i => c <| mq_listeners ::= alter f i |>
                   end).
Definition parse_into_listener {V} (reload : bool) (parse : V → nat → C (Z * V)) (get : _mqtt3_listener → V)
    (put : V → _mqtt3_listener → _mqtt3_listener) (saveptr : nat) : C Z :=
  if reload then mret MOSQ_ERR_SUCCESS
  else
    l ← cur_listener;
    '(rc, v) ← parse (get l) saveptr;
    set_cur_listener (put v);;
    mret rc.

(** ** The lines of the file *)

(** An option of a bridge: the variable [cur_bridge] is never set. *)
Definition bridge_option (reload : bool) : C Z := mret (if reload then MOSQ_ERR_SUCCESS else MOSQ_ERR_INVAL).

Definition bind_address (reload : bool) (saveptr : nat) : C Z :=
  if reload then mret MOSQ_ERR_SUCCESS
  else
    c ← config_get;
    '(rc, host) ← _conf_parse_string (ls_host (mq_default_listener c)) saveptr;
    if negb (rc =? 0) then mret MOSQ_ERR_INVAL
    else
      set_config (λ c, c <| mq_default_listener ::= λ l, l <| ls_host := host |> |>);;
      match host with Some h => _conf_attempt_resolve h | None => ub end.

Definition valid_port (port : Z) : bool := (1 <=? port) && (port <=? 65535).

Definition listener_option (reload : bool) (saveptr : nat) : C Z :=
  if reload then mret MOSQ_ERR_SUCCESS
  else
    '(t, saveptr) ← strtok_r saveptr;
    match t with
    | None => mret MOSQ_ERR_INVAL
    | Some (_, token) =>
      set_config (λ c, c <| mq_listener_count ::= Z.succ |>);;
      let port_tmp := atoi token in
      if negb (valid_port port_tmp) then mret MOSQ_ERR_INVAL
      else
        c ← config_get;
        modify (λ s, s <| cs_cur_listener := Some (length (mq_listeners c)) |>);;
        '(t, _) ← strtok_r saveptr;
        let host := (λ p : nat * list Z, cstr_of_bytes p.2) <$> t in
        set_config (λ c, c <| mq_listeners ::= λ l, l ++ [zero_listener <| ls_port := port_tmp |> <| ls_host := host |>] |>);;
        mret MOSQ_ERR_SUCCESS
    end.

(** [log_dest file]: the name is the rest of the line, which starts after the NUL byte
    that ends the token. *)
Definition log_dest_file (start : nat) (token : list Z) : C Z :=
  set_cr (λ r, r <| cr_log_dest ::= λ d, Z.lor d MQTT3_LOG_FILE |>);;
  c ← config_get;
  if mq_log_fptr c || bool_decide (is_Some (mq_log_file c)) then mret MOSQ_ERR_INVAL
  else
    rest ← string_at (start + length token + 1);
    let name := drop (spaces rest) rest in
    if bool_decide (name = []) then mret MOSQ_ERR_INVAL
    else
      set_config (λ c, c <| mq_log_file := Some (cstr_of_bytes name) |>);;
      opened ← conf_ext (fopen_append (cstr_of_bytes name));
      set_config (λ c, c <| mq_log_fptr := opened |>);;
      mret (if (opened : bool) then MOSQ_ERR_SUCCESS else MOSQ_ERR_INVAL).

Definition log_dest_option (saveptr : nat) : C Z :=
  '(t, _) ← strtok_r saveptr;
  match t with
  | None => mret MOSQ_ERR_INVAL
  | Some (start, token) =>
    set_cr (λ r, r <| cr_log_dest_set := true |>);;
    if token_is token "none" then set_cr (λ r, r <| cr_log_dest := MQTT3_LOG_NONE |>);; mret MOSQ_ERR_SUCCESS
    else if token_is token "stdout" then set_cr (λ r, r <| cr_log_dest ::= λ d, Z.lor d MQTT3_LOG_STDOUT |>);; mret MOSQ_ERR_SUCCESS
    else if token_is token "stderr" then set_cr (λ r, r <| cr_log_dest ::= λ d, Z.lor d MQTT3_LOG_STDERR |>);; mret MOSQ_ERR_SUCCESS
    else if token_is token "file" then log_dest_file start token
    else mret MOSQ_ERR_INVAL
  end.

Definition log_type_of (token : list Z) (log_type : Z) : option Z :=
  if token_is token "none" then Some MOSQ_LOG_NONE
  else if token_is token "information" then Some (Z.lor log_type MOSQ_LOG_INFO)
  else if token_is token "notice" then Some (Z.lor log_type MOSQ_LOG_NOTICE)
  else if token_is token "warning" then Some (Z.lor log_type MOSQ_LOG_WARNING)
  else if token_is token "error" then Some (Z.lor log_type MOSQ_LOG_ERR)
  else if token_is token "debug" then Some (Z.lor log_type MOSQ_LOG_DEBUG)
  else if token_is token "subscribe" then Some (Z.lor log_type MOSQ_LOG_SUBSCRIBE)
  else if token_is token "unsubscribe" then Some (Z.lor log_type MOSQ_LOG_UNSUBSCRIBE)
  else if token_is token "all" then Some INT_MAX
  else None.
Definition log_type_option (saveptr : nat) : C Z :=
  '(t, _) ← strtok_r saveptr;
  match t with
  | None => mret MOSQ_ERR_SUCCESS
  | Some (_, token) =>
    set_cr (λ r, r <| cr_log_type_set := true |>);;
    r ← gets cs_cr;
    match log_type_of token (cr_log_type r) with
    | Some v => set_cr (λ r, r <| cr_log_type := v |>);; mret MOSQ_ERR_SUCCESS
    | None => mret MOSQ_ERR_INVAL
    end
  end.

(** A limit that is read with [atoi] if there is a value; [put] sees the value. *)
Definition limit_option (put : Z → C ()) (saveptr : nat) : C Z :=
  '(t, _) ← strtok_r saveptr;
  match t with Some (_, token) => put (atoi token) | None => mret tt end;;
  mret MOSQ_ERR_SUCCESS.
Definition max_connections_option (reload : bool) (saveptr : nat) : C Z :=
  if reload then mret MOSQ_ERR_SUCCESS
  else limit_option (λ v, cur_listener;; set_cur_listener (λ l, l <| ls_max_connections := if v <? 0 then -1 else v |>)) saveptr.
Definition max_inflight_messages_option : nat → C Z :=
  limit_option (λ v, set_cr (λ r, r <| cr_max_inflight_messages := if v <? 0 then 0 else v |>)).
Definition max_queued_messages_option : nat → C Z :=
  limit_option (λ v, set_cr (λ r, r <| cr_max_queued_messages := if v <? 0 then 0 else v |>)).

(** A number of the configuration that is refused, once it is set, if it is not
    between [lo] and [hi]. *)
Definition ranged_option (get : mqtt3_config → Z) (put : Z → mqtt3_config → mqtt3_config) (lo hi : Z) (saveptr : nat) : C Z :=
  rc ← parse_into _conf_parse_int get put saveptr;
  if negb (rc =? 0) then mret MOSQ_ERR_INVAL
  else
    c ← config_get;
    mret (if (get c <? lo) || (hi <? get c) then MOSQ_ERR_INVAL else MOSQ_ERR_SUCCESS).
Definition message_size_limit_option := ranged_option mq_message_size_limit (λ v c, c <| mq_message_size_limit := v |>) 0 MQTT_MAX_PAYLOAD.
Definition retry_interval_option := ranged_option mq_retry_interval (λ v c, c <| mq_retry_interval := v |>) 1 3600.
Definition store_clean_interval_option := ranged_option mq_store_clean_interval (λ v c, c <| mq_store_clean_interval := v |>) 0 65535.

Definition port_option (reload : bool) (saveptr : nat) : C Z :=
  if reload then mret MOSQ_ERR_SUCCESS
  else
    '(rc, port_tmp) ← _conf_parse_int 0 saveptr;
    if negb (rc =? 0) then mret MOSQ_ERR_INVAL
    else if negb (valid_port port_tmp) then mret MOSQ_ERR_INVAL
    else
      set_config (λ c, c <| mq_default_listener ::= λ l, l <| ls_port := port_tmp |> |>);;
      mret MOSQ_ERR_SUCCESS.

(** What a line asks for, by its first token. *)
Definition config_line (reload : bool) (token : list Z) (saveptr : nat) : C Z :=
  let named := token_is token in
  let bool_option := parse_into _conf_parse_bool in
  let string_option get put := parse_into_listener reload _conf_parse_string get put saveptr in
  if named "address" || named "addresses" then bridge_option reload
  else if named "allow_duplicate_messages" then bool_option mq_allow_duplicate_messages (λ v c, c <| mq_allow_duplicate_messages := v |>) saveptr
  else if named "bind_address" then bind_address reload saveptr
  else if named "bridge_cafile" then bridge_option reload
  else if named "bridge_capath" then bridge_option reload
  else if named "bridge_certfile" then bridge_option reload
  else if named "bridge_insecure" then bridge_option reload
  else if named "bridge_keyfile" then bridge_option reload
  else if named "bridge_tls_version" then bridge_option reload
  else if named "cafile" then string_option ls_cafile (λ v l, l <| ls_cafile := v |>)
  else if named "capath" then string_option ls_capath (λ v l, l <| ls_capath := v |>)
  else if named "certfile" then string_option ls_certfile (λ v l, l <| ls_certfile := v |>)
  else if named "ciphers" then string_option ls_ciphers (λ v l, l <| ls_ciphers := v |>)
  else if named "cleansession" then bridge_option reload
  else if named "connection_messages" then bool_option mq_connection_messages (λ v c, c <| mq_connection_messages := v |>) saveptr
  else if named "crlfile" then string_option ls_crlfile (λ v l, l <| ls_crlfile := v |>)
  else if named "idle_timeout" then bridge_option reload
  else if named "keepalive_interval" then bridge_option reload
  else if named "keyfile" then string_option ls_keyfile (λ v l, l <| ls_keyfile := v |>)
  else if named "listener" then listener_option reload saveptr
  else if named "log_dest" then log_dest_option saveptr
  else if named "log_timestamp" then bool_option mq_log_timestamp (λ v c, c <| mq_log_timestamp := v |>) saveptr
  else if named "log_type" then log_type_option saveptr
  else if named "max_connections" then max_connections_option reload saveptr
  else if named "max_inflight_messages" then max_inflight_messages_option saveptr
  else if named "max_queued_messages" then max_queued_messages_option saveptr
  else if named "message_size_limit" then message_size_limit_option saveptr
  else if named "pid_file" then
    if reload then mret MOSQ_ERR_SUCCESS
    else parse_into _conf_parse_string mq_pid_file (λ v c, c <| mq_pid_file := v |>) saveptr
  else if named "port" then port_option reload saveptr
  else if named "queue_qos0_messages" then bool_option mq_queue_qos0_messages (λ v c, c <| mq_queue_qos0_messages := v |>) saveptr
  else if named "require_certificate" then parse_into_listener reload _conf_parse_bool ls_require_certificate (λ v l, l <| ls_require_certificate := v |>) saveptr
  else if named "restart_timeout" then bridge_option reload
  else if named "retry_interval" then retry_interval_option saveptr
  else if named "round_robin" then bridge_option reload
  else if named "start_type" then bridge_option reload
  else if named "store_clean_interval" then store_clean_interval_option saveptr
  else if named "threshold" then bridge_option reload
  else if named "tls_version" then string_option ls_tls_version (λ v l, l <| ls_tls_version := v |>)
  else if named "topic" then bridge_option reload
  else if named "try_private" then bridge_option reload
  else if named "upgrade_outgoing_qos" then bool_option mq_upgrade_outgoing_qos (λ v c, c <| mq_upgrade_outgoing_qos := v |>) saveptr
  else if named "user" then
    if reload then mret MOSQ_ERR_SUCCESS
    else parse_into _conf_parse_string mq_user (λ v c, c <| mq_user := v |>) saveptr
  else if named "trace_level" || named "ffdc_output" || named "max_log_entries" || named "trace_output" then mret MOSQ_ERR_SUCCESS
  else mret MOSQ_ERR_INVAL.

(** One turn of the loop, on the line in the buffer. *)
Definition read_line (reload : bool) : C Z :=
  b ← deref (λ s, cs_buf s !! O);
  if (b =? 35) || (b =? 10) || (b =? 13) then mret MOSQ_ERR_SUCCESS
  else
    strip_newlines 1024;;
    '(t, saveptr) ← strtok_r 0;
    match t with
    | Some (_, token) => config_line reload token saveptr
    | None => mret MOSQ_ERR_SUCCESS
    end.

Fixpoint read_lines (fuel : nat) (reload : bool) (file : list Z) : C Z :=
  match fuel with
  | O => ub
  | S fuel' =>
    more ← fgets file;
    match more with
    | None => mret MOSQ_ERR_SUCCESS
    | Some rest =>
      rc ← read_line reload;
      if rc =? 0 then read_lines fuel' reload rest else mret rc
    end
  end.

Definition _config_read_file (reload : bool) (file : string) : C Z :=
  garbage ← conf_ext uninitialised;
  modify (λ s, s <| cs_buf := resize 1024 0 garbage |> <| cs_cur_listener := None |>);;
  fptr ← conf_ext (fopen_read file);
  match fptr with
  | None => mret 1
  | Some content => read_lines (S (length content)) reload content
  end.

(** ** The configuration as a whole *)

Definition default_log_type : Z := Z.lor (Z.lor (Z.lor MOSQ_LOG_ERR MOSQ_LOG_WARNING) MOSQ_LOG_NOTICE) MOSQ_LOG_INFO.
Definition _config_init_reload (c : mqtt3_config) : mqtt3_config :=
  c <| mq_allow_duplicate_messages := false |> <| mq_connection_messages := true |>
    <| mq_log_fptr := false |> <| mq_log_file := None |> <| mq_log_dest := MQTT3_LOG_STDERR |>
    <| mq_log_type := if mq_verbose c then INT_MAX else default_log_type |>
    <| mq_log_timestamp := true |> <| mq_queue_qos0_messages := false |>
    <| mq_retry_interval := 20 |> <| mq_store_clean_interval := 10 |> <| mq_upgrade_outgoing_qos := false |>.

(** [memset], the defaults, and the fields that are set once more. *)
Definition zero_config : mqtt3_config :=
  mk_mqtt3_config None false false false zero_listener [] 0 0 0 0 false None false 0 None false 0 0 false
    None false [] false 0.
Definition mqtt3_config_init : mqtt3_config :=
  _config_init_reload zero_config <| mq_default_listener := zero_listener <| ls_max_connections := -1 |> |>.

Definition initial_cr : config_recurse := mk_config_recurse MQTT3_LOG_NONE false MOSQ_LOG_NONE false 20 100.
Definition default_user (c : mqtt3_config) : mqtt3_config :=
  if bool_decide (mq_user c = None) then c <| mq_user := Some "dxl" |> else c.
Definition complete_bridge (b : bridge) : bool :=
  bool_decide (b_addresses b ≠ []) && bool_decide (b_topics b ≠ []).

Definition mqtt3_config_read (reload : bool) : C Z :=
  c ← config_get;
  match mq_config_file c with
  | None => mret MOSQ_ERR_SUCCESS
  | Some file =>
    set_cr (λ _, initial_cr);;
    (if reload then set_config _config_init_reload else mret tt);;
    rc ← _config_read_file reload file;
    if negb (rc =? 0) then mret rc
    else
      set_config default_user;;
      cr ← gets cs_cr;
      modify (λ s, s <| cs_max_inflight := cr_max_inflight_messages cr |> <| cs_max_queued := cr_max_queued_messages cr |>);;
      c ← config_get;
      if negb (forallb complete_bridge (mq_bridges c)) then mret MOSQ_ERR_INVAL
      else
        (if cr_log_dest_set cr then set_config (λ c, c <| mq_log_dest := cr_log_dest cr |>) else mret tt);;
        (if mq_verbose c then set_config (λ c, c <| mq_log_type := INT_MAX |>)
         else if cr_log_type_set cr then set_config (λ c, c <| mq_log_type := cr_log_type cr |>) else mret tt);;
        mret MOSQ_ERR_SUCCESS
  end.

(** The default listener joins the others if there is none or if it was set up. *)
Definition default_listener_used (c : mqtt3_config) : bool :=
  let d := mq_default_listener c in
  (mq_listener_count c =? 0) || bool_decide (is_Some (ls_cafile d)) || bool_decide (is_Some (ls_capath d))
  || bool_decide (is_Some (ls_certfile d)) || bool_decide (is_Some (ls_keyfile d))
  || bool_decide (is_Some (ls_ciphers d)) || ls_require_certificate d || bool_decide (is_Some (ls_crlfile d))
  || bool_decide (is_Some (ls_host d)) || negb (ls_port d =? 0) || negb (ls_max_connections d =? -1).
Definition add_default_listener (c : mqtt3_config) : mqtt3_config :=
  let d := mq_default_listener c in
  c <| mq_listener_count ::= Z.succ |>
    <| mq_listeners ::= λ l, l ++ [d <| ls_port := if ls_port d =? 0 then 1883 else ls_port d |>] |>.
Definition finish_args (c : mqtt3_config) : mqtt3_config :=
  let c := if default_listener_used c then add_default_listener c else c in
  let c := default_user c in
  if mq_verbose c then c <| mq_log_type := INT_MAX |> else c.

(** An option and, for some, its value; [go] takes the arguments that are left. *)
Definition parse_option (go : list string → C Z) (arg : string) (args' : list string) : C Z :=
  if bool_decide (arg = "--mosquitto-config") then
    match args' with
    | [] => mret MOSQ_ERR_INVAL
    | file :: args'' =>
      set_config (λ c, c <| mq_config_file := Some file |>);;
      rc ← mqtt3_config_read false;
      if negb (rc =? 0) then mret MOSQ_ERR_INVAL else go args''
    end
  else if bool_decide (arg = "-d") || bool_decide (arg = "--daemon") then
    set_config (λ c, c <| mq_daemon := true |>);; go args'
  else if bool_decide (arg = "-h") || bool_decide (arg = "--help") then mret MOSQ_ERR_INVAL
  else if bool_decide (arg = "-p") || bool_decide (arg = "--port") then
    match args' with
    | [] => mret MOSQ_ERR_INVAL
    | port :: args'' =>
      let port_tmp := atoi (str_bytes port) in
      if negb (valid_port port_tmp) then mret MOSQ_ERR_INVAL
      else
        set_config (λ c, c <| mq_default_listener ::= λ l, l <| ls_port := port_tmp |> |>);;
        go args''
    end
  else if bool_decide (arg = "-v") || bool_decide (arg = "--verbose") then
    set_config (λ c, c <| mq_verbose := true |>);; go args'
  else mret MOSQ_ERR_INVAL.
(** [mqtt3_config_parse_args] on the arguments after the name of the program; [--config]
    is for the library. *)
Fixpoint parse_args_loop (args : list string) : C Z :=
  match args with
  | [] => mret MOSQ_ERR_SUCCESS
  | arg :: args' =>
    match bool_decide (arg = "--config"), args' with
    | true, _ :: args'' => parse_args_loop args''
    | _, _ => parse_option parse_args_loop arg args'
    end
  end.
Definition mqtt3_config_parse_args (args : list string) : C Z :=
  rc ← parse_args_loop args;
  if negb (rc =? 0) then mret rc
  else set_config finish_args;; mret MOSQ_ERR_SUCCESS.

(** ** The settings of the library *)

(** What [dxl_main] hands to [main]. *)
Record dxl_settings := mk_dxl_settings {
  dx_tls : tls_statics; dx_listenPort : Z; dx_mosquittoLogType : Z; dx_mosquittoLogCategoryMask : Z;
  dx_messageSizeLimit : Z; dx_user : string; dx_webSocketsEnabled : bool; dx_webSocketsPort : Z }.

(** A string that replaces another only if it is there and not empty. *)
Definition not_empty (s old : option string) : option string :=
  match s with Some s => if bool_decide (s = "") then old else Some s | None => old end.
Definition tls_listener (t : tls_statics) (cafile certfile keyfile : string) (l : _mqtt3_listener) : _mqtt3_listener :=
  l <| ls_cafile := Some cafile |> <| ls_certfile := Some certfile |> <| ls_keyfile := Some keyfile |>
    <| ls_ciphers := not_empty (s_ciphers t) (ls_ciphers l) |>
    <| ls_tls_version := not_empty (s_tlsVersion t) (ls_tls_version l) |>
    <| ls_require_certificate := true |>.

(** Without TLS the hashes stay as they were. Duplicating a NULL string is undefined, as
    is the length of NULL ciphers, if there is a listener, and freeing the strings of a
    listener that was counted but never set. *)
Definition mqtt3_config_update_tls (t : tls_statics) : C Z :=
  modify (λ s, s <| cs_tls := mk_tls_statics (s_tlsEnabled t) (s_tlsBridgingInsecure t) (s_clientCertChainFile t)
    (s_brokerCertChainFile t) (s_brokerKeyFile t) (s_brokerCertFile t) (s_ciphers t) (s_tlsVersion t)
    (if s_tlsEnabled t then s_brokerCerts t else s_brokerCerts (cs_tls s)) |>);;
  c ← config_get;
  (if s_tlsEnabled t && negb (mq_listener_count c =? 0) then
     cafile ← deref (λ _, s_clientCertChainFile t);
     certfile ← deref (λ _, s_brokerCertFile t);
     keyfile ← deref (λ _, s_brokerKeyFile t);
    assert_ (bool_decide (mq_listener_count c = Z.of_nat (length (mq_listeners c))));;
     assert_ (bool_decide (is_Some (s_ciphers t)));;
     set_config (λ c, c <| mq_listeners ::= λ l, tls_listener t cafile certfile keyfile <$> l |>)
   else mret tt);;
  mret MOSQ_ERR_SUCCESS.
Definition mqtt3_config_is_broker_cert (certSha1 : string) : C bool :=
  t ← gets cs_tls;
  mret (match s_brokerCerts t with Some certs => bool_decide (certSha1 ∈ certs) | None => false end).

(** The configuration that [main] starts the broker with; that it opens the database and
    starts logging between the settings changes none of them. *)
Definition main_settings (x : dxl_settings) : C () :=
  set_config (λ c, c <| mq_user := if bool_decide (dx_user x = "") then None else Some (dx_user x) |>
    <| mq_ws_enabled := dx_webSocketsEnabled x |> <| mq_ws_port := dx_webSocketsPort x |>);;
  mqtt3_config_update_tls (dx_tls x);;
  set_config (λ c, c <| mq_log_type := dx_mosquittoLogType x |>
    <| mq_log_category_mask := dx_mosquittoLogCategoryMask x |>
    <| mq_message_size_limit := dx_messageSizeLimit x |>
    <| mq_default_listener ::= λ l, l <| ls_port := u16 (dx_listenPort x) |> |>
    <| mq_listeners ::= alter (λ l, l <| ls_port := u16 (dx_listenPort x) |>) O |>).
Definition main_configure (args : list string) (x : dxl_settings) : C Z :=
  set_config (λ _, mqtt3_config_init);;
  rc ← mqtt3_config_parse_args args;
  if negb (rc =? 0) then mret rc else main_settings x;; mret MOSQ_ERR_SUCCESS.

End conf.

(** ** Strings in the buffer *)

Lemma until_nul_Some l str : until_nul l = Some str → Forall (λ b, b ≠ 0) str ∧ ∃ rest, l = str ++ 0 :: rest.
Proof.
  revert str. induction l as [|b l IH]; intros str; cbn [until_nul]; [done|]. destruct (Z.eqb_spec b 0) as [->|Hb].
  - intros [= <-]. split; [constructor|by eexists].
  - intros (str' & Hl & ->)%fmap_Some. destruct (IH _ Hl) as [Hall [rest ->]]. split; [by constructor|by eexists].
Qed.
Lemma until_nul_app str rest : Forall (λ b, b ≠ 0) str → until_nul (str ++ 0 :: rest) = Some str.
Proof. induction 1 as [|b str Hb _ IH]; [done|]. cbn [until_nul app]. rewrite (proj2 (Z.eqb_neq b 0) Hb), IH. done. Qed.
Lemma until_nul_lookup l z : l !! z = Some 0 → ∃ str, until_nul l = Some str ∧ (length str ≤ z)%nat.
Proof.
  revert z. induction l as [|b l IH]; intros z Hz; [done|]. cbn [until_nul]. destruct (Z.eqb_spec b 0) as [->|Hb]; [eexists; split; [done|]; cbn; lia|].
  destruct z as [|z]; [by injection Hz|]. destruct (IH _ Hz) as (str & -> & Hl). eexists. split; [done|]. cbn. lia.
Qed.
Lemma spaces_length l : (spaces l ≤ length l)%nat.
Proof. induction l as [|b l IH]; cbn; [lia|]. destruct (b =? 32); cbn; lia. Qed.
Lemma word_length l : (length (word l) ≤ length l)%nat.
Proof. induction l as [|b l IH]; cbn; [lia|]. destruct (b =? 32); cbn; lia. Qed.
Lemma word_no_space l : Forall (λ b, b ≠ 32) l → word l = l.
Proof. induction 1 as [|b l Hb _ IH]; [done|]. cbn. by rewrite (proj2 (Z.eqb_neq b 32) Hb), IH. Qed.
Lemma word_space l r : Forall (λ b, b ≠ 32) l → word (l ++ 32 :: r) = l.
Proof. induction 1 as [|b l Hb _ IH]; [done|]. cbn. by rewrite (proj2 (Z.eqb_neq b 32) Hb), IH. Qed.

Section buffer.
Context `{ConfEnv}.
Implicit Types (s : conf_state) (z pos : nat).

(** The line in the buffer ends at [z], and a second NUL byte follows. *)
Definition ends (z : nat) (s : conf_state) : Prop :=
  length (cs_buf s) = 1024%nat ∧ cs_buf s !! z = Some 0 ∧ cs_buf s !! S z = Some 0.
(** Only the buffer was written to, and only NUL bytes. *)
Definition nulled (s s' : conf_state) : Prop :=
  s' = s <| cs_buf := cs_buf s' |> ∧ length (cs_buf s') = length (cs_buf s) ∧ ∀ i, cs_buf s !! i = Some 0 → cs_buf s' !! i = Some 0.
Lemma nulled_refl s : nulled s s.
Proof. split_and!; [by destruct s|done|done]. Qed.
Lemma nulled_trans s1 s2 s3 : nulled s1 s2 → nulled s2 s3 → nulled s1 s3.
Proof. intros (E2 & L2 & N2) (E3 & L3 & N3). split_and!; [rewrite E3, E2; by destruct s1|congruence|eauto]. Qed.
Lemma nulled_ends z s s' : nulled s s' → ends z s → ends z s'.
Proof. intros (_ & L & N) (Hl & Hz & Hz'). split_and!; [congruence|eauto|eauto]. Qed.

Lemma string_at_spec z pos s : ends z s → (pos ≤ S z)%nat →
  wp (string_at pos) (λ str s', s' = s ∧ Forall (λ b, b ≠ 0) str ∧ (pos + length str ≤ S z)%nat ∧ ((pos ≤ z)%nat → (pos + length str ≤ z)%nat) ∧
    ∃ rest, drop pos (cs_buf s) = str ++ 0 :: rest) s.
Proof.
  intros (Hl & Hz & Hz') Hpos. destruct (until_nul_lookup (drop pos (cs_buf s)) (S z - pos)) as (str & Hs & Hle); [rewrite lookup_drop; by replace (pos + (S z - pos))%nat with (S z) by lia|].
  destruct (until_nul_Some _ _ Hs) as [Hall Hrest]. unfold string_at. eapply wp_deref; [done|]. split_and!; [done|done|lia| |done].
  intros Hpz. destruct (until_nul_lookup (drop pos (cs_buf s)) (z - pos)) as (str' & Hs' & Hle'); [rewrite lookup_drop; by replace (pos + (z - pos))%nat with z by lia|].
  assert (str' = str) as -> by congruence. lia.
Qed.
Lemma poke_spec pos s (Q : () → conf_state → Prop) : (pos < length (cs_buf s))%nat →
  Q tt (s <| cs_buf := <[pos := 0]> (cs_buf s) |>) → wp (poke pos 0) Q s.
Proof. intros Hpos HQ. unfold poke. wp_steps; [by rewrite bool_decide_eq_true|done]. Qed.
Lemma nulled_poke pos s : nulled s (s <| cs_buf := <[pos := 0]> (cs_buf s) |>).
Proof.
  split_and!; [done|apply length_insert|]. intros i Hi. change (<[pos := 0]> (cs_buf s) !! i = Some 0).
  destruct (decide (i = pos)) as [->|Hne]; [|by rewrite list_lookup_insert_ne]. apply list_lookup_insert_eq. by eapply lookup_lt_Some.
Qed.

Lemma strtok_spec z saveptr s : ends z s → (saveptr ≤ z)%nat →
  wp (strtok_r saveptr) (λ r s', nulled s s' ∧ (r.2 ≤ z)%nat ∧ ∀ start token, r.1 = Some (start, token) → (start + length token ≤ z)%nat) s.
Proof.
  intros He Hsp. unfold strtok_r. wp_step. eapply wp_mono; [by apply (string_at_spec z); [|lia]|]. intros str ? (-> & _ & _ & Hle & _). specialize (Hle Hsp). cbv zeta.
  pose proof (spaces_length str). pose proof (word_length (drop (spaces str) str)) as Hw. rewrite length_drop in Hw.
  case_bool_decide; [wp_step; split_and!; [apply nulled_refl|cbn; lia|done]|]. case_bool_decide as Heq.
  - wp_step. split_and!; [apply nulled_refl|cbn; lia|]. intros ?? [= <- <-]. lia.
  - rewrite length_drop in Heq. wp_step. destruct He as (Hl & Hz & _). apply lookup_lt_Some in Hz. apply poke_spec; [lia|]. wp_step. split_and!; [apply nulled_poke|cbn; lia|].
    intros ?? [= <- <-]. lia.
Qed.

(** The newlines go, at least the one at [z] if the line has one there. *)
Lemma strip_spec fuel z s b : length (cs_buf s) = 1024%nat → cs_buf s !! O = Some b → b ≠ 0 → b ≠ 10 → b ≠ 13 →
  (∃ str, until_nul (cs_buf s) = Some str ∧ (length str < fuel)%nat ∧ (length str ≤ S z)%nat ∧ (length str = S z → last str = Some 10)) → cs_buf s !! S z = Some 0 → (cs_buf s !! z = Some 0 ∨ ∃ str, until_nul (cs_buf s) = Some str ∧ length str = S z) →
  wp (strip_newlines fuel) (λ _ s', nulled s s' ∧ ends z s') s.
Proof.
  revert s. induction fuel as [|fuel IH]; intros s Hl Hb H0 H10 H13 (str & Hs & Hf & Hle & Hlast) Hz' Hz; [lia|]. cbn [strip_newlines]. wp_step.
  unfold string_at. eapply wp_deref; [by rewrite drop_0|]. destruct (until_nul_Some _ _ Hs) as [Hall [rest Hbuf]].
  destruct (last str) as [x|] eqn:Hx.
  2:{ apply last_None in Hx as ->. rewrite Hbuf in Hb. by injection Hb. }
  apply last_Some in Hx as [str' ->]. rewrite length_app in Hf, Hle, Hlast |- *. cbn [length] in *.
  destruct ((x =? 10) || (x =? 13)) eqn:Hnl.
  - wp_step. apply poke_spec; [rewrite Hbuf, !length_app; cbn; lia|]. set (s1 := s <| cs_buf := _ |>).
    assert (cs_buf s1 = str' ++ 0 :: 0 :: rest) as Hbuf1.
    { change (cs_buf s1) with (<[(length str' + 1 - 1)%nat := 0]> (cs_buf s)). rewrite Hbuf, <- app_assoc. replace (length str' + 1 - 1)%nat with (length str' + 0)%nat by lia. by rewrite insert_app_r. }
    assert (nulled s s1) as Hn1 by (unfold s1; apply nulled_poke). apply Forall_app in Hall as [Hall Hx0].
    destruct str' as [|y str'].
    { rewrite Hbuf in Hb. injection Hb as ->. apply orb_true_iff in Hnl as [?%Z.eqb_eq|?%Z.eqb_eq]; lia. }
    eapply wp_mono; [apply IH|].
    + destruct Hn1 as (_ & ? & _). congruence.
    + rewrite Hbuf1. rewrite Hbuf in Hb. by injection Hb as ->.
    + done.
    + done.
    + done.
    + exists (y :: str'). split_and!; [rewrite Hbuf1; by apply until_nul_app|lia|lia|lia].
    + destruct Hn1 as (_ & _ & Hk). by apply Hk.
    + left. destruct Hn1 as (_ & _ & Hk). destruct Hz as [Hz|(str2 & Hs2 & Hl2)]; [by apply Hk|]. assert (str2 = (y :: str') ++ [x]) as -> by congruence. rewrite length_app in Hl2. cbn [length] in Hl2.
      rewrite Hbuf1. rewrite lookup_app_r by (cbn; lia). by replace (z - length (y :: str'))%nat with O by (cbn; lia).
    + intros _ s' [Hn He]. split; [by eapply nulled_trans|done].
  - wp_step. split; [apply nulled_refl|]. split_and!; [done| |done]. destruct Hz as [Hz|(str2 & Hs2 & Hl2)]; [done|]. assert (str2 = str' ++ [x]) as -> by congruence. rewrite length_app in Hl2. cbn [length] in Hl2.
    specialize (Hlast ltac:(lia)). by injection Hlast as ->.
Qed.
End buffer.

(** ** Settings in their ranges *)

Definition listener_ok (l : _mqtt3_listener) : Prop := 0 <= ls_port l <= 65535 ∧ -1 <= ls_max_connections l < 2 ^ 31.
Record in_range (c : mqtt3_config) : Prop := {
  st_size : 0 <= mq_message_size_limit c <= MQTT_MAX_PAYLOAD;
  st_retry : 1 <= mq_retry_interval c <= 3600;
  st_store : 0 <= mq_store_clean_interval c <= 65535;
  st_default : listener_ok (mq_default_listener c);
  st_listeners : Forall (λ l, listener_ok l ∧ 1 <= ls_port l) (mq_listeners c);
  st_count : mq_listener_count c = Z.of_nat (length (mq_listeners c)) }.
Definition limits_ok (inflight queued : Z) : Prop := 0 <= inflight < 2 ^ 31 ∧ 0 <= queued < 2 ^ 31.

Lemma valid_port_spec port : valid_port port = true → 1 <= port <= 65535.
Proof. unfold valid_port. rewrite andb_true_iff, !Z.leb_le. done. Qed.

(** A file of lines that fit the buffer and hold no NUL byte. *)
Definition text_line (l : list Z) : Prop := (length l ≤ 1022)%nat ∧ Forall (λ b, b ≠ 0 ∧ b ≠ 10) l.
Definition text (lines : list (list Z)) : list Z := concat ((λ l, l ++ [10]) <$> lines).
Definition text_file (file : list Z) : Prop := ∃ lines, Forall text_line lines ∧ file = text lines.

Section settings.
Context `{ConfEnv}.
Implicit Types (s : conf_state) (z : nat).

Record state_ok s : Prop := {
  sk_settings : in_range (cs_config s);
  sk_limits : limits_ok (cr_max_inflight_messages (cs_cr s)) (cr_max_queued_messages (cs_cr s));
  sk_cur : ∀ i, cs_cur_listener s = Some i → (i < length (mq_listeners (cs_config s)))%nat }.

(** What the handling of a line leaves alone. *)
Definition outside s : option string * Z * Z * tls_statics * list bridge * bool :=
  (mq_config_file (cs_config s), cs_max_inflight s, cs_max_queued s, cs_tls s, mq_bridges (cs_config s), mq_verbose (cs_config s)).
(** An operation on the line in the buffer either goes on or refuses it. *)
Definition handles_line z (m : ST conf_state Z) s : Prop :=
  wp m (λ rc s', ends z s' ∧ outside s' = outside s ∧ (rc = MOSQ_ERR_SUCCESS ∧ state_ok s' ∨ rc = MOSQ_ERR_INVAL)) s.

Lemma nulled_ok s s' : nulled s s' → state_ok s → state_ok s'.
Proof. intros (-> & _) [? ? ?]. by split. Qed.
Lemma nulled_outside s s' : nulled s s' → outside s' = outside s.
Proof. by intros (-> & _). Qed.

Lemma skip_handles z s : ends z s → state_ok s → handles_line z (mret MOSQ_ERR_SUCCESS) s.
Proof. intros. unfold handles_line. wp_step. split_and!; [done|done|by left]. Qed.
Lemma refuse_handles z s : ends z s → handles_line z (mret MOSQ_ERR_INVAL) s.
Proof. intros. unfold handles_line. wp_step. split_and!; [done|done|by right]. Qed.

(** Setting fields of the configuration, and no more. *)
Lemma config_set_ok (f : mqtt3_config → mqtt3_config) s : state_ok s → in_range (f (cs_config s)) → (length (mq_listeners (f (cs_config s))) = length (mq_listeners (cs_config s)))%nat →
  state_ok (s <| cs_config ::= f |>).
Proof. intros [Hset Hl Hc] Hf Hlen. split; [done|done|]. intros i Hi. cbn. rewrite Hlen. by apply Hc. Qed.
Lemma cr_set_ok (f : config_recurse → config_recurse) s : state_ok s → limits_ok (cr_max_inflight_messages (f (cs_cr s))) (cr_max_queued_messages (f (cs_cr s))) →
  state_ok (s <| cs_cr ::= f |>).
Proof. intros [Hset Hl Hc] Hf. by split. Qed.

Definition tokenises {V} (parse : V → nat → ST conf_state (Z * V)) : Prop := ∀ v z saveptr s, ends z s → (saveptr ≤ z)%nat →
  wp (parse v saveptr) (λ r s', nulled s s' ∧ (r.1 = MOSQ_ERR_SUCCESS ∨ r.1 = MOSQ_ERR_INVAL)) s.
Lemma bool_tokenises : tokenises _conf_parse_bool.
Proof.
  intros v z saveptr s He Hs. unfold _conf_parse_bool. wp_step. eapply wp_mono; [by eapply strtok_spec|]. intros [[[start token]|] sp] s' (Hn & _); cbv beta iota; [|wp_step; by auto].
  repeat (destruct (_ || _); [wp_step; by auto|]). wp_step. by auto.
Qed.
Lemma string_tokenises : tokenises _conf_parse_string.
Proof.
  intros v z saveptr s He Hs. unfold _conf_parse_string. wp_step. eapply wp_mono; [by eapply strtok_spec|]. intros [[[start token]|] sp] s' (Hn & _); cbv beta iota; [|wp_step; by auto].
  destruct v; wp_step; by auto.
Qed.
Lemma int_tokenises : tokenises _conf_parse_int.
Proof.
  intros v z saveptr s He Hs. unfold _conf_parse_int. wp_step. eapply wp_mono; [by eapply strtok_spec|]. intros [[[start token]|] sp] s' (Hn & _); cbv beta iota; wp_step; by auto.
Qed.

Lemma parse_into_handles {V} (parse : V → nat → ST conf_state (Z * V)) get put z saveptr s : tokenises parse → ends z s → state_ok s → (saveptr ≤ z)%nat →
  (∀ v c, mq_config_file (put v c) = mq_config_file c ∧ mq_bridges (put v c) = mq_bridges c ∧ mq_verbose (put v c) = mq_verbose c) →
  (∀ v c, in_range c → in_range (put v c) ∧ mq_listeners (put v c) = mq_listeners c) →
  handles_line z (parse_into parse get put saveptr) s.
Proof.
  intros Hp He Hok Hsp Hout Hput. unfold handles_line, parse_into, config_get, set_config. wp_steps. eapply wp_mono; [by eapply Hp|]. intros [rc v] s' [Hn Hrc]. cbv beta iota. wp_steps.
  pose proof (nulled_ok _ _ Hn Hok) as Hok'. pose proof (nulled_outside _ _ Hn) as Ho. split_and!; [exact (nulled_ends _ _ _ Hn He)|rewrite <- Ho; unfold outside; cbn; by destruct (Hout v (cs_config s')) as (-> & -> & ->)|].
  destruct Hrc as [Hrc|Hrc]; [left|by right]. split; [done|]. apply config_set_ok; [done|by apply Hput, Hok'|]. by destruct (Hput v _ (sk_settings _ Hok')) as [_ ->].
Qed.

(** *** The listeners *)

Lemma cur_listener_spec s : state_ok s → wp cur_listener (λ l s', s' = s ∧ listener_ok l) s.
Proof.
  intros [[_ _ _ Hd Hls _] _ Hc]. unfold cur_listener. wp_steps. destruct (cs_cur_listener s) as [i|]; [|by eapply wp_deref].
  destruct (lookup_lt_is_Some_2 _ _ (Hc i eq_refl)) as [l Hl]. eapply wp_deref; [done|]. split; [done|]. rewrite Forall_lookup in Hls. by apply (Hls i l).
Qed.
Lemma set_cur_listener_spec (f : _mqtt3_listener → _mqtt3_listener) s (Q : () → conf_state → Prop) : state_ok s → (∀ l, listener_ok l → listener_ok (f l) ∧ ls_port (f l) = ls_port l) →
  (∀ s', cs_buf s' = cs_buf s → outside s' = outside s → state_ok s' → Q tt s') → wp (set_cur_listener f) Q s.
Proof.
  intros Hok Hf HQ. unfold set_cur_listener, set_config. wp_steps. pose proof Hok as [[? ? ? Hd Hls Hn] _ _].
  destruct (cs_cur_listener s) as [i|]; apply HQ; [done|done| |done|done|]; apply config_set_ok; try done; cbn.
  - split; [done|done|done|done| |]; cbn; [|by rewrite length_alter]. apply Forall_alter; [done|]. intros l _ [Hl Hp]. destruct (Hf l Hl) as [? ->]. done.
  - by rewrite length_alter.
  - split; [done|done|done| |done|done]; cbn. by apply Hf.
Qed.
Lemma parse_into_listener_handles {V} reload (parse : V → nat → ST conf_state (Z * V)) get put z saveptr s : tokenises parse → ends z s → state_ok s → (saveptr ≤ z)%nat →
  (∀ v l, ls_port (put v l) = ls_port l ∧ ls_max_connections (put v l) = ls_max_connections l) →
  handles_line z (parse_into_listener reload parse get put saveptr) s.
Proof.
  intros Hp He Hok Hsp Hput. unfold parse_into_listener. destruct reload; [by apply skip_handles|]. unfold handles_line. wp_step. eapply wp_mono; [by apply cur_listener_spec|].
  intros l ? [-> _]. wp_step. eapply wp_mono; [by eapply Hp|]. intros [rc v] s' [Hn Hrc]. cbv beta iota. wp_step. apply set_cur_listener_spec; [by eapply nulled_ok| |].
  - intros l' [Hpo Hma]. destruct (Hput v l') as [E1 E2]. unfold listener_ok. by rewrite E1, E2.
  - intros s2 Hb Ho Hok2. wp_step. pose proof (nulled_ends _ _ _ Hn He) as He'. unfold ends in *. rewrite Hb. split_and!; [apply He'..|by rewrite Ho, (nulled_outside _ _ Hn)|]. destruct Hrc; [by left|by right].
Qed.

Lemma bind_address_handles reload z saveptr s : ends z s → state_ok s → (saveptr ≤ z)%nat → handles_line z (bind_address reload saveptr) s.
Proof.
  intros He Hok Hsp. unfold bind_address. destruct reload; [by apply skip_handles|]. unfold handles_line, config_get. wp_steps. unfold _conf_parse_string. wp_step.
  eapply wp_mono; [by eapply strtok_spec|]. intros [[[start token]|] sp] s' (Hn & _); cbv beta iota; [|wp_steps; split_and!; [by apply (nulled_ends _ _ _ Hn He)..|by apply nulled_outside|by right]].
  destruct (ls_host _); wp_steps; cbn [Z.eqb negb MOSQ_ERR_INVAL MOSQ_ERR_SUCCESS]; wp_steps; [split_and!; [by apply (nulled_ends _ _ _ Hn He)..|by apply nulled_outside|by right]|].
  unfold set_config. wp_steps. unfold _conf_attempt_resolve, conf_ext. wp_step. unfold wp at 1. destruct (resolve _ _) as [found e]. apply wp_ret. split_and!; [by apply (nulled_ends _ _ _ Hn He)..|by rewrite <- (nulled_outside _ _ Hn)|].
  destruct found; [left|by right]. split; [done|]. pose proof (nulled_ok _ _ Hn Hok) as [[? ? ? [? ?] ? ?] ? ?]. split; [|done|done]. by split.
Qed.
Lemma listener_option_handles reload z saveptr s : ends z s → state_ok s → (saveptr ≤ z)%nat → handles_line z (listener_option reload saveptr) s.
Proof.
  intros He Hok Hsp. unfold listener_option. destruct reload; [by apply skip_handles|]. unfold handles_line. wp_step. eapply wp_mono; [by eapply strtok_spec|].
  intros [[[start token]|] sp] s' (Hn & Hsp' & _); cbv beta iota; [|wp_steps; split_and!; [by apply (nulled_ends _ _ _ Hn He)..|by apply nulled_outside|by right]]. cbn in Hsp'. unfold set_config, config_get. wp_steps.
  pose proof (nulled_ends _ _ _ Hn He) as He'. destruct (valid_port (atoi token)) eqn:Hport; cbn [negb]; [|wp_step; split_and!; [apply He'..|by rewrite <- (nulled_outside _ _ Hn)|by right]].
  wp_steps. apply valid_port_spec in Hport. match goal with |- wp _ _ ?s0 => set (s1 := s0) end. assert (ends z s1) as He1 by exact He'. eapply wp_mono; [by eapply (strtok_spec z)|]. intros [t sp2] s2 (Hn2 & _). cbv beta iota. wp_steps.
  pose proof (nulled_ends _ _ _ Hn2 He1) as He2. destruct Hn2 as (E2 & _). pose proof (nulled_ok _ _ Hn Hok) as [[? ? ? ? Hls Hcnt] ? ?]. split_and!; [apply He2..|rewrite <- (nulled_outside _ _ Hn), E2; done|left]. split; [done|]. rewrite E2.
  split; [|done|]; cbn.
  - split; cbn; [done|done|done|done| |].
    + apply Forall_app_2; [done|]. repeat constructor; cbn; lia.
    + rewrite length_app, Hcnt. cbn. lia.
  - intros i [= <-]. rewrite length_app. cbn. lia.
Qed.

(** *** Options that take a token *)

(** What follows a token, in a state in which only the buffer is another. *)
Lemma strtok_handles z saveptr (k : option (nat * list Z) * nat → ST conf_state Z) s : ends z s → state_ok s → (saveptr ≤ z)%nat →
  (∀ r s', ends z s' → state_ok s' → (r.2 ≤ z)%nat → (∀ start token, r.1 = Some (start, token) → (start + length token ≤ z)%nat) → handles_line z (k r) s') →
  handles_line z (strtok_r saveptr ≫= k) s.
Proof.
  intros He Hok Hsp Hk. unfold handles_line. wp_step. eapply wp_mono; [by eapply strtok_spec|]. intros r s' (Hn & Hr & Hstart). eapply wp_mono; [apply (Hk r s'); [by eapply nulled_ends|by eapply nulled_ok|done|done]|].
  intros rc s2 (? & Ho & ?). split_and!; [apply H0..|by rewrite Ho, (nulled_outside _ _ Hn)|done].
Qed.
(** Setting what [log_dest] and the like keep aside. *)
Lemma set_cr_handles z (f : config_recurse → config_recurse) (m : ST conf_state Z) s : ends z s → state_ok s →
  (∀ r, limits_ok (cr_max_inflight_messages r) (cr_max_queued_messages r) → limits_ok (cr_max_inflight_messages (f r)) (cr_max_queued_messages (f r))) →
  (∀ s', ends z s' → state_ok s' → handles_line z m s') → handles_line z (set_cr f;; m) s.
Proof.
  intros He Hok Hf Hm. unfold handles_line, set_cr. wp_steps. eapply wp_mono; [apply (Hm (s <| cs_cr ::= f |>)); [exact He|]; apply cr_set_ok; [done|by apply Hf, Hok]|]. intros rc s' (? & Ho & ?). by split_and!.
Qed.

Lemma log_dest_file_handles z start token s : ends z s → state_ok s → (start + length token ≤ z)%nat → handles_line z (log_dest_file start token) s.
Proof.
  intros He Hok Hst. unfold log_dest_file. apply set_cr_handles; [done|done|done|]. clear s He Hok. intros s He Hok. unfold handles_line, config_get. wp_steps.
  destruct (_ || _); [by apply refuse_handles|]. wp_step. eapply wp_mono; [apply (string_at_spec z); [done|lia]|]. intros rest ? (-> & _). cbv zeta. case_bool_decide; [by apply refuse_handles|].
  unfold set_config. wp_steps. unfold conf_ext. unfold wp at 1. destruct (fopen_append _ _) as [opened e]. wp_steps. split_and!; [apply He..|done|]. destruct opened; [left|by right]. split; [done|].
  destruct Hok as [[? ? ? ? ? ?] ? ?]. by split; [split|..].
Qed.
Lemma log_dest_handles z saveptr s : ends z s → state_ok s → (saveptr ≤ z)%nat → handles_line z (log_dest_option saveptr) s.
Proof.
  intros He Hok Hsp. unfold log_dest_option. apply strtok_handles; [done..|]. clear s He Hok. intros [[[start token]|] sp] s He Hok _ Hst; cbv beta iota; [|by apply refuse_handles]. specialize (Hst _ _ eq_refl).
  apply set_cr_handles; [done..|]. clear s He Hok. intros s He Hok.
  repeat (destruct (token_is token _); [first [by apply log_dest_file_handles|apply set_cr_handles; [done..|intros; by apply skip_handles]]|]). by apply refuse_handles.
Qed.
Lemma log_type_handles z saveptr s : ends z s → state_ok s → (saveptr ≤ z)%nat → handles_line z (log_type_option saveptr) s.
Proof.
  intros He Hok Hsp. unfold log_type_option. apply strtok_handles; [done..|]. clear s He Hok. intros [[[start token]|] sp] s He Hok _ _; cbv beta iota; [|by apply skip_handles].
  apply set_cr_handles; [done..|]. clear s He Hok. intros s He Hok. unfold handles_line. wp_steps.
  destruct (log_type_of _ _); [apply set_cr_handles; [done..|intros; by apply skip_handles]|by apply refuse_handles].
Qed.

Lemma limit_handles z (put : Z → ST conf_state ()) saveptr s : ends z s → state_ok s → (saveptr ≤ z)%nat →
  (∀ v s', ends z s' → state_ok s' → - 2 ^ 31 <= v < 2 ^ 31 → handles_line z (put v;; mret MOSQ_ERR_SUCCESS) s') → handles_line z (limit_option put saveptr) s.
Proof.
  intros He Hok Hsp Hput. unfold limit_option. apply strtok_handles; [done..|]. clear s He Hok. intros [[[start token]|] sp] s He Hok _ _; cbv beta iota.
  - apply Hput; [done|done|]. apply i32_range.
  - by apply skip_handles.
Qed.
Lemma max_connections_handles reload z saveptr s : ends z s → state_ok s → (saveptr ≤ z)%nat → handles_line z (max_connections_option reload saveptr) s.
Proof.
  intros He Hok Hsp. unfold max_connections_option. destruct reload; [by apply skip_handles|]. apply limit_handles; [done..|]. clear s He Hok. intros v s He Hok Hv. unfold handles_line. wp_steps.
  eapply wp_mono; [by apply cur_listener_spec|]. intros l ? [-> _]. apply set_cur_listener_spec; [done| |].
  - intros l' [Hp _]. split; [|done]. split; [done|]. cbn. destruct (Z.ltb_spec v 0); lia.
  - intros s' Hb Ho Hok'. wp_step. unfold ends in *. rewrite Hb. split_and!; [apply He..|done|by left].
Qed.
Lemma max_inflight_handles z saveptr s : ends z s → state_ok s → (saveptr ≤ z)%nat → handles_line z (max_inflight_messages_option saveptr) s.
Proof.
  intros He Hok Hsp. apply limit_handles; [done..|]. intros v s' He' Hok' Hv. apply set_cr_handles; [done|done| |intros; by apply skip_handles]. intros r [_ Hq]. split; [|done]. cbn. destruct (Z.ltb_spec v 0); lia.
Qed.
Lemma max_queued_handles z saveptr s : ends z s → state_ok s → (saveptr ≤ z)%nat → handles_line z (max_queued_messages_option saveptr) s.
Proof.
  intros He Hok Hsp. apply limit_handles; [done..|]. intros v s' He' Hok' Hv. apply set_cr_handles; [done|done| |intros; by apply skip_handles]. intros r [Hi _]. split; [done|]. cbn. destruct (Z.ltb_spec v 0); lia.
Qed.

(** A number out of its range is refused, so that the range counts only for the others. *)
Lemma ranged_handles get put lo hi z saveptr s : ends z s → state_ok s → (saveptr ≤ z)%nat →
  (∀ v c, mq_config_file (put v c) = mq_config_file c ∧ mq_bridges (put v c) = mq_bridges c ∧ mq_verbose (put v c) = mq_verbose c) →
  (∀ v c, get (put v c) = v) → (∀ v c, lo <= v <= hi → in_range c → in_range (put v c)) → (∀ v c, mq_listeners (put v c) = mq_listeners c) →
  handles_line z (ranged_option get put lo hi saveptr) s.
Proof.
  intros He Hok Hsp Hout Hget Hput Hlis. unfold ranged_option, parse_into, handles_line, config_get, set_config. wp_steps. eapply wp_mono; [by eapply (int_tokenises _ z)|]. intros [rc v] s' [Hn Hrc]. cbv beta iota. wp_steps.
  pose proof (nulled_ok _ _ Hn Hok) as Hok'. assert (ends z (s' <| cs_config ::= put v |>)) as He' by exact (nulled_ends _ _ _ Hn He).
  assert (outside (s' <| cs_config ::= put v |>) = outside s) as Ho by (rewrite <- (nulled_outside _ _ Hn); unfold outside; cbn; by destruct (Hout v (cs_config s')) as (-> & -> & ->)).
  destruct Hrc as [Hrc|Hrc]; cbn in Hrc; subst rc; cbn [Z.eqb negb MOSQ_ERR_INVAL MOSQ_ERR_SUCCESS]; wp_steps; [|split_and!; [apply He'..|done|by right]].
  split_and!; [apply He'..|done|]. cbn. rewrite Hget. destruct (Z.ltb_spec v lo); [by right|]. destruct (Z.ltb_spec hi v); [by right|]. left. split; [done|]. apply config_set_ok; [done|by apply Hput; [lia|apply Hok']|by rewrite Hlis].
Qed.
Lemma port_handles reload z saveptr s : ends z s → state_ok s → (saveptr ≤ z)%nat → handles_line z (port_option reload saveptr) s.
Proof.
  intros He Hok Hsp. unfold port_option. destruct reload; [by apply skip_handles|]. unfold handles_line. wp_step. eapply wp_mono; [by eapply (int_tokenises _ z)|]. intros [rc v] s' [Hn Hrc]. cbv beta iota.
  pose proof (nulled_ends _ _ _ Hn He) as He'. pose proof (nulled_outside _ _ Hn) as Ho.
  destruct Hrc as [Hrc|Hrc]; cbn in Hrc; subst rc; cbn [Z.eqb negb MOSQ_ERR_INVAL MOSQ_ERR_SUCCESS]; [|wp_step; split_and!; [apply He'..|done|by right]].
  destruct (valid_port v) eqn:Hv; cbn [negb]; [|wp_step; split_and!; [apply He'..|done|by right]]. unfold set_config. wp_steps. split_and!; [apply He'..|by rewrite <- Ho|left]. split; [done|].
  apply valid_port_spec in Hv. pose proof (nulled_ok _ _ Hn Hok) as [[? ? ? [? ?] ? ?] ? ?]. split; [|done|done]. split; try done. split; cbn; [lia|done].
Qed.

(** *** A line, a file *)

Lemma bridge_option_handles reload z s : ends z s → state_ok s → handles_line z (bridge_option reload) s.
Proof. intros. unfold bridge_option. destruct reload; [by apply skip_handles|by apply refuse_handles]. Qed.
#[local] Hint Resolve bridge_option_handles skip_handles refuse_handles bind_address_handles listener_option_handles log_dest_handles log_type_handles max_connections_handles max_inflight_handles max_queued_handles port_handles bool_tokenises string_tokenises : conf.
(** A field of the configuration or of a listener without a range. *)
Ltac plain_field :=
  first [apply parse_into_listener_handles; [auto with conf|done..]
        |apply parse_into_handles; [auto with conf|done|done|done|done|intros ? ? [? ? ? ? ? ?]; split; [by split|done]]].
Ltac ranged_field := apply ranged_handles; [done|done|done|done|done|intros ? ? ? [? ? ? ? ? ?]; by split|done].
Lemma config_line_handles reload token saveptr z s : ends z s → state_ok s → (saveptr ≤ z)%nat → handles_line z (config_line reload token saveptr) s.
Proof.
  intros He Hok Hsp. unfold config_line. cbv zeta.
  repeat match goal with
  | |- handles_line _ (if _ then _ else _) _ => case_match; [first [solve [auto with conf]|solve [plain_field]|solve [ranged_field]|idtac]|]
  end; auto with conf; plain_field.
Qed.

(** The buffer after [fgets]: a line, its newline, a NUL byte, and what was there. *)
Definition line_read (l : list Z) s : Prop := length (cs_buf s) = 1024%nat ∧ ∃ rest, cs_buf s = l ++ 10 :: 0 :: rest.
Lemma take_line_text n l file : (length l < n)%nat → Forall (λ b, b ≠ 0 ∧ b ≠ 10) l → take_line n (l ++ 10 :: file) = (l ++ [10], file).
Proof.
  revert l. induction n as [|n IH]; intros l Hn Hl; [lia|]. destruct Hl as [|b l [_ Hb] Hl]; [done|]. cbn in *. by rewrite (proj2 (Z.eqb_neq b 10) Hb), IH by (done || lia).
Qed.
Lemma fgets_text l lines s : text_line l → length (cs_buf s) = 1024%nat →
  wp (fgets (text (l :: lines))) (λ r s', r = Some (text lines) ∧ line_read l s' ∧ s' = s <| cs_buf := cs_buf s' |>) s.
Proof.
  intros [Hlen Hl] Hb. unfold fgets, text. cbn [fmap list_fmap concat]. rewrite <- app_assoc. cbn [app]. rewrite take_line_text; [|lia|done].
  destruct (l ++ [10]) as [|b l'] eqn:E; [by destruct l|]. rewrite <- E. wp_steps. split_and!; [done| |by destruct s]. unfold line_read.
  match goal with |- length ?b = _ ∧ _ => change b with ((l ++ [10]) ++ [0] ++ drop (S (length (l ++ [10]))) (cs_buf s)) end. split.
  - rewrite !length_app, length_drop, Hb. cbn [length]. lia.
  - eexists. rewrite <- app_assoc. done.
Qed.
Lemma fgets_end s : wp (fgets (text [])) (λ r s', r = None ∧ s' = s) s.
Proof. by split. Qed.

Lemma read_line_text reload l s : text_line l → line_read l s → state_ok s →
  wp (read_line reload) (λ rc s', length (cs_buf s') = 1024%nat ∧ outside s' = outside s ∧ (rc = MOSQ_ERR_SUCCESS ∧ state_ok s' ∨ rc = MOSQ_ERR_INVAL)) s.
Proof.
  intros [Hlen Hl] [Hb [rest Hbuf]] Hok. unfold read_line. assert (∃ b, cs_buf s !! O = Some b ∧ b ≠ 0) as (b & Hb0 & Hbne).
  { rewrite Hbuf. destruct Hl as [|b l [? _] _]; by eexists. }
  wp_step. eapply wp_deref; [done|]. destruct ((b =? 35) || (b =? 10) || (b =? 13)) eqn:Hskip; [wp_step; split_and!; [done|done|by left]|].
  rewrite !orb_false_iff, !Z.eqb_neq in Hskip. destruct Hskip as [[_ ?] ?].
  assert (until_nul (cs_buf s) = Some (l ++ [10])) as Hs.
  { rewrite Hbuf. change (10 :: 0 :: rest) with ([10] ++ 0 :: rest). rewrite app_assoc. apply until_nul_app, Forall_app. split; [by eapply Forall_impl; [done|]; intros ? []|by repeat constructor]. }
  wp_step. eapply wp_mono; [apply (strip_spec 1024 (length l) s b); try done|].
  - exists (l ++ [10]). rewrite length_app. cbn. split_and!; [done|lia|lia|]. intros _. apply last_snoc.
  - rewrite Hbuf, lookup_app_r by lia. by replace (S (length l) - length l)%nat with 1%nat by lia.
  - right. exists (l ++ [10]). split; [done|]. rewrite length_app. cbn. lia.
  - intros _ s1 [Hn He]. eapply wp_mono; [apply (strtok_handles (length l) 0); [done|by eapply nulled_ok|lia|]|].
    + intros [[[start token]|] sp] s2 He2 Hok2 Hsp _; cbv beta iota; [by apply config_line_handles|by apply skip_handles].
    + intros rc s2 ([? _] & Ho & ?). split_and!; [done|by rewrite Ho, (nulled_outside _ _ Hn)|done].
Qed.
Lemma read_lines_text fuel reload lines s : Forall text_line lines → (length lines < fuel)%nat → length (cs_buf s) = 1024%nat → state_ok s →
  wp (read_lines fuel reload (text lines)) (λ rc s', outside s' = outside s ∧ (rc = MOSQ_ERR_SUCCESS ∧ state_ok s' ∨ rc = MOSQ_ERR_INVAL)) s.
Proof.
  intros Hall. revert fuel s. induction Hall as [|l lines Hl _ IH]; intros [|fuel] s Hf Hb Hok; try (cbn in Hf; lia); cbn [read_lines]; wp_step.
  - eapply wp_mono; [apply fgets_end|]. intros r ? [-> ->]. wp_step. split; [done|by left].
  - eapply wp_mono; [by apply fgets_text|]. intros r s1 (-> & Hr & E). wp_step. eapply wp_mono; [apply (read_line_text reload l); [done|done|rewrite E; by destruct Hok]|].
    intros rc s2 (Hb2 & Ho & Hrc). assert (outside s2 = outside s) as Ho2 by (rewrite Ho, E; done). destruct Hrc as [[-> Hok2]| ->]; cbn [Z.eqb MOSQ_ERR_SUCCESS MOSQ_ERR_INVAL].
    + eapply wp_mono; [apply IH; [cbn in Hf; lia|done|done]|]. intros rc s3 [Ho3 ?]. split; [congruence|done].
    + wp_step. split; [done|by right].
Qed.
Lemma text_length lines : (length lines ≤ length (text lines))%nat.
Proof. unfold text. induction lines as [|l lines IH]; cbn; [lia|]. rewrite length_app, length_app. cbn. lia. Qed.

(** Every configuration file is a text file. *)
Definition text_files : Prop := ∀ file e content e', fopen_read file e = (Some content, e') → text_file content.
Lemma config_read_file_ok reload file s : text_files → in_range (cs_config s) → limits_ok (cr_max_inflight_messages (cs_cr s)) (cr_max_queued_messages (cs_cr s)) →
  wp (_config_read_file reload file) (λ rc s', outside s' = outside s ∧ (rc = MOSQ_ERR_SUCCESS ∧ state_ok s' ∨ rc = MOSQ_ERR_INVAL ∨ rc = 1)) s.
Proof.
  intros Ht Hset Hlim. unfold _config_read_file, conf_ext. wp_step. unfold wp at 1. destruct (uninitialised _) as [garbage e]. wp_steps. unfold wp at 1. destruct (fopen_read _ _) as [[content|] e'] eqn:Hopen.
  - destruct (Ht _ _ _ _ Hopen) as (lines & Hall & ->). match goal with |- wp _ _ ?s0 => set (s1 := s0) end.
    assert (state_ok s1) as Hok1 by by split. eapply wp_mono; [apply (read_lines_text _ reload lines s1); [done|pose proof (text_length lines); lia|apply length_resize|done]|].
    intros rc s2 [Ho Hrc]. split; [by rewrite Ho|tauto].
  - wp_step. split; [done|by auto].
Qed.

(** ** The command line *)

(** What holds of the configuration whenever an argument was handled. *)
Record args_ok s : Prop := {
  ar_settings : in_range (cs_config s);
  ar_limits : limits_ok (cs_max_inflight s) (cs_max_queued s);
  ar_bridges : mq_bridges (cs_config s) = [] }.

Lemma default_user_ok c : in_range c → in_range (default_user c) ∧ mq_bridges (default_user c) = mq_bridges c ∧ is_Some (mq_user (default_user c)).
Proof.
  intros [? ? ? ? ? ?]. unfold default_user. case_bool_decide as Hu; [split_and!; [by split|done|by eexists]|]. split_and!; [by split|done|by destruct (mq_user c)].
Qed.
Lemma log_settings_ok (c : mqtt3_config) dest type : in_range c → in_range (c <| mq_log_dest := dest |> <| mq_log_type := type |>).
Proof. intros [? ? ? ? ? ?]. by split. Qed.

Lemma config_read_ok file s : text_files → args_ok s → mq_config_file (cs_config s) = Some file →
  wp (mqtt3_config_read false) (λ rc s', (rc = MOSQ_ERR_SUCCESS → args_ok s') ∧ cs_tls s' = cs_tls s) s.
Proof.
  intros Ht [Hset Hlim Hbr] Hf. unfold mqtt3_config_read, config_get, set_cr, set_config. wp_steps. rewrite Hf. wp_steps. match goal with |- wp _ _ ?s0 => set (s1 := s0) end.
  eapply wp_mono; [apply (config_read_file_ok false file s1); [done|done|]|].
  { split; cbn; lia. }
  intros rc s2 [Ho Hrc]. assert (cs_tls s2 = cs_tls s) as Htls by (by injection Ho). destruct (Z.eqb_spec rc 0) as [->|Hne]; cbn [negb]; [|wp_step; split; [done|done]].
  destruct Hrc as [[_ Hok]|[?|?]]; [|done..]. wp_steps. destruct (default_user_ok _ (sk_settings _ Hok)) as (Hu & Hub & _).
  assert (mq_bridges (cs_config s2) = []) as Hb2 by (injection Ho as _ _ _ _ Hb2 _; by rewrite Hb2). cbn [cs_config cs_cr upd]. rewrite Hub, Hb2. cbn [forallb negb].
  assert (∀ d t (s' : conf_state), in_range (cs_config s') → limits_ok (cs_max_inflight s') (cs_max_queued s') → mq_bridges (cs_config s') = [] →
    args_ok (s' <| cs_config ::= λ c, c <| mq_log_dest := d |> <| mq_log_type := t |> |>)) as Hlog.
  { intros d t s' H1 H2 H3. split; [by apply log_settings_ok|done|done]. }
  match goal with |- wp _ _ ?s0 => set (s3 := s0) end. assert (args_ok s3) as Hok3 by (split; [done|apply Hok|by cbn; rewrite Hub]).
  destruct (cr_log_dest_set _), (mq_verbose _); [| | |]; try (destruct (cr_log_type_set _)); wp_steps; (split; [intros _|done]); destruct Hok3 as [[? ? ? ? ? ?] ? ?]; by split; [split|..].
Qed.

Lemma set_daemon_ok s : args_ok s → args_ok (s <| cs_config ::= λ c, c <| mq_daemon := true |> |>).
Proof. intros [[? ? ? ? ? ?] ? ?]. by split; [split|..]. Qed.
Lemma set_verbose_ok s : args_ok s → args_ok (s <| cs_config ::= λ c, c <| mq_verbose := true |> |>).
Proof. intros [[? ? ? ? ? ?] ? ?]. by split; [split|..]. Qed.
Lemma set_config_file_ok file s : args_ok s → args_ok (s <| cs_config ::= λ c, c <| mq_config_file := Some file |> |>).
Proof. intros [[? ? ? ? ? ?] ? ?]. by split; [split|..]. Qed.
Lemma set_default_port_ok port s : args_ok s → 1 <= port <= 65535 → args_ok (s <| cs_config ::= λ c, c <| mq_default_listener ::= λ l, l <| ls_port := port |> |> |>).
Proof. intros [[? ? ? [? ?] ? ?] ? ?] ?. split; [split; try done|done|done]. split; cbn; [lia|done]. Qed.

(** The options end in one of these, or refuse the command line. *)
Definition args_end (tls : tls_statics) (rc : Z) s : Prop := (rc = MOSQ_ERR_SUCCESS → args_ok s) ∧ cs_tls s = tls.
Lemma args_refused tls s : cs_tls s = tls → wp (mret MOSQ_ERR_INVAL) (args_end tls) s.
Proof. by intros. Qed.
Lemma parse_option_ok tls (go : list string → ST conf_state Z) arg args s : text_files → args_ok s → cs_tls s = tls →
  (∀ pre args' s', args = pre ++ args' → args_ok s' → cs_tls s' = tls → wp (go args') (args_end tls) s') → wp (parse_option go arg args) (args_end tls) s.
Proof.
  intros Ht Hok Htls Hgo. unfold parse_option, set_config. case_match; [|case_match; [|case_match; [|case_match; [|case_match]]]].
  - destruct args as [|file args]; [by apply args_refused|]. wp_steps. eapply wp_mono; [by eapply (config_read_ok _ _ Ht (set_config_file_ok _ _ Hok))|]. intros rc s1 [Hrc Hs1].
    change (cs_tls s1 = cs_tls s) in Hs1. destruct (Z.eqb_spec rc 0) as [->|?]; cbn [negb]; [by apply (Hgo [file]); [|apply Hrc|congruence]|apply args_refused; congruence].
  - wp_steps. by apply (Hgo []); [|apply set_daemon_ok|].
  - by apply args_refused.
  - destruct args as [|port args]; [by apply args_refused|]. cbv zeta. destruct (valid_port _) eqn:Hport; cbn [negb]; [|by apply args_refused].
    wp_steps. by apply (Hgo [port]); [|apply set_default_port_ok; [|apply valid_port_spec]|].
  - wp_steps. by apply (Hgo []); [|apply set_verbose_ok|].
  - by apply args_refused.
Qed.
Lemma parse_args_loop_ok tls args s : text_files → args_ok s → cs_tls s = tls → wp (parse_args_loop args) (args_end tls) s.
Proof.
  intros Ht. remember (length args) as n eqn:Hn. assert (length args ≤ n)%nat as Hle by lia. clear Hn. revert args s Hle.
  induction n as [|n IH]; intros [|arg args] s Hle Hok Htls; try (cbn in Hle; lia); [by split..|]. cbn [parse_args_loop]. cbn in Hle.
  assert (wp (parse_option parse_args_loop arg args) (args_end tls) s) as Hoption.
  { apply parse_option_ok; [done..|]. intros pre args' s' ->. rewrite length_app in Hle. apply IH. lia. }
  destruct (bool_decide _), args as [|x args']; try done. apply IH; [cbn in Hle; lia|done|done].
Qed.
End settings.

(** ** Settings written as lines

    What a file says, as a list of settings, the text of each of them, and what it means. *)

Inductive flag := Duplicates | Connections | Timestamp | Qos0 | Upgrade.
Definition flag_name (o : flag) : string :=
  match o with
  | Duplicates => "allow_duplicate_messages" | Connections => "connection_messages" | Timestamp => "log_timestamp"
  | Qos0 => "queue_qos0_messages" | Upgrade => "upgrade_outgoing_qos"
  end.
Definition flag_put (o : flag) (b : bool) (c : mqtt3_config) : mqtt3_config :=
  match o with
  | Duplicates => c <| mq_allow_duplicate_messages := b |> | Connections => c <| mq_connection_messages := b |>
  | Timestamp => c <| mq_log_timestamp := b |> | Qos0 => c <| mq_queue_qos0_messages := b |>
  | Upgrade => c <| mq_upgrade_outgoing_qos := b |>
  end.
Inductive number := SizeLimit | Retry | StoreClean | Inflight | Queued.
Definition number_name (o : number) : string :=
  match o with
  | SizeLimit => "message_size_limit" | Retry => "retry_interval" | StoreClean => "store_clean_interval"
  | Inflight => "max_inflight_messages" | Queued => "max_queued_messages"
  end.
Definition number_range (o : number) : Z * Z :=
  match o with SizeLimit => (0, MQTT_MAX_PAYLOAD) | Retry => (1, 3600) | StoreClean => (0, 65535) | _ => (0, INT_MAX) end.
Inductive name_field := Cafile | Capath | Certfile | Keyfile | Ciphers | Crlfile | TlsVersion.
Definition name_name (o : name_field) : string :=
  match o with
  | Cafile => "cafile" | Capath => "capath" | Certfile => "certfile" | Keyfile => "keyfile" | Ciphers => "ciphers"
  | Crlfile => "crlfile" | TlsVersion => "tls_version"
  end.
Definition name_get (o : name_field) (l : _mqtt3_listener) : option string :=
  match o with
  | Cafile => ls_cafile l | Capath => ls_capath l | Certfile => ls_certfile l | Keyfile => ls_keyfile l
  | Ciphers => ls_ciphers l | Crlfile => ls_crlfile l | TlsVersion => ls_tls_version l
  end.
Definition name_put (o : name_field) (v : string) (l : _mqtt3_listener) : _mqtt3_listener :=
  match o with
  | Cafile => l <| ls_cafile := Some v |> | Capath => l <| ls_capath := Some v |> | Certfile => l <| ls_certfile := Some v |>
  | Keyfile => l <| ls_keyfile := Some v |> | Ciphers => l <| ls_ciphers := Some v |> | Crlfile => l <| ls_crlfile := Some v |>
  | TlsVersion => l <| ls_tls_version := Some v |>
  end.
Inductive setting :=
  | Flag (o : flag) (b : bool)
  | Number (o : number) (n : Z)
  | Name (o : name_field) (v : string)
  | Port (n : Z)
  | Listener (n : Z)
  | Require (b : bool)
  | MaxConnections (n : Z).

Fixpoint print (fuel : nat) (n : Z) : list Z :=
  match fuel with
  | O => []
  | S fuel' => if n <? 10 then [48 + n] else print fuel' (n / 10) ++ [48 + n mod 10]
  end.
Definition setting_name (x : setting) : string :=
  match x with
  | Flag o _ => flag_name o | Number o _ => number_name o | Name o _ => name_name o | Port _ => "port"
  | Listener _ => "listener" | Require _ => "require_certificate" | MaxConnections _ => "max_connections"
  end.
Definition setting_value (x : setting) : list Z :=
  match x with
  | Flag _ b | Require b => str_bytes (if b then "true" else "false")
  | Number _ n | Port n | Listener n | MaxConnections n => print 10 n
  | Name _ v => str_bytes v
  end.
Definition setting_line (x : setting) : list Z := str_bytes (setting_name x) ++ 32 :: setting_value x.

(** A value that a line can hold. *)
Definition plain_byte (b : Z) : Prop := b ≠ 0 ∧ b ≠ 10 ∧ b ≠ 13 ∧ b ≠ 32.
Definition plain_value (v : list Z) : Prop := v ≠ [] ∧ (length v ≤ 990)%nat ∧ Forall plain_byte v.
#[export] Instance plain_dec b : Decision (plain_byte b).
Proof. unfold plain_byte. apply _. Defined.
#[export] Instance plain_value_dec v : Decision (plain_value v).
Proof. unfold plain_value. apply _. Defined.

Section meaning.
Context `{ConfEnv}.

Definition on_listener (ok : _mqtt3_listener → bool) (f : _mqtt3_listener → _mqtt3_listener) (s : conf_state) : option conf_state :=
  match cs_cur_listener s with
  | None => guard (ok (mq_default_listener (cs_config s)) = true);; Some (s <| cs_config ::= λ c, c <| mq_default_listener ::= f |> |>)
  | Some i =>
    l ← mq_listeners (cs_config s) !! i; guard (ok l = true);;
    Some (s <| cs_config ::= λ c, c <| mq_listeners ::= alter f i |> |>)
  end.
Definition number_put (o : number) (n : Z) (s : conf_state) : conf_state :=
  match o with
  | SizeLimit => s <| cs_config ::= λ c, c <| mq_message_size_limit := n |> |>
  | Retry => s <| cs_config ::= λ c, c <| mq_retry_interval := n |> |>
  | StoreClean => s <| cs_config ::= λ c, c <| mq_store_clean_interval := n |> |>
  | Inflight => s <| cs_cr ::= λ r, r <| cr_max_inflight_messages := n |> |>
  | Queued => s <| cs_cr ::= λ r, r <| cr_max_queued_messages := n |> |>
  end.
(** What a setting means: nothing if it is out of range or set before. *)
Definition meaning (x : setting) (s : conf_state) : option conf_state :=
  match x with
  | Flag o b => Some (s <| cs_config ::= flag_put o b |>)
  | Number o n => guard ((number_range o).1 <= n <= (number_range o).2);; Some (number_put o n s)
  | Name o v => guard (plain_value (str_bytes v));; on_listener (λ l, bool_decide (name_get o l = None)) (name_put o v) s
  | Port n => guard (1 <= n <= 65535);; Some (s <| cs_config ::= λ c, c <| mq_default_listener ::= λ l, l <| ls_port := n |> |> |>)
  | Listener n =>
    guard (1 <= n <= 65535);;
    Some (s <| cs_config ::= λ c, c <| mq_listener_count ::= Z.succ |> <| mq_listeners ::= λ l, l ++ [zero_listener <| ls_port := n |>] |> |>
            <| cs_cur_listener := Some (length (mq_listeners (cs_config s))) |>)
  | Require b => on_listener (λ _, true) (λ l, l <| ls_require_certificate := b |>) s
  | MaxConnections n => guard (0 <= n <= INT_MAX);; on_listener (λ _, true) (λ l, l <| ls_max_connections := n |>) s
  end.
Fixpoint meanings (xs : list setting) (s : conf_state) : option conf_state :=
  match xs with [] => Some s | x :: xs' => s' ← meaning x s; meanings xs' s' end.
End meaning.

(** *** Numbers *)

Definition digit_byte (b : Z) : Prop := 48 <= b <= 57.
Lemma digits_snoc acc l d : Forall digit_byte l → digit_byte d → digits_value acc (l ++ [d]) = 10 * digits_value acc l + (d - 48).
Proof.
  intros Hl Hd. revert acc. induction Hl as [|b l Hb _ IH]; intros acc; cbn [digits_value app]; unfold digit_byte in *.
  - by rewrite (proj2 (Z.leb_le 48 d)), (proj2 (Z.leb_le d 57)) by lia.
  - rewrite (proj2 (Z.leb_le 48 b)), (proj2 (Z.leb_le b 57)) by lia. apply IH.
Qed.
Lemma print_digits fuel n : 0 <= n → Forall digit_byte (print fuel n).
Proof.
  revert n. induction fuel as [|fuel IH]; intros n Hn; cbn [print]; [constructor|]. unfold digit_byte in *. destruct (Z.ltb_spec n 10); [repeat constructor; lia|].
  apply Forall_app. split; [apply IH; by apply Z.div_pos|]. pose proof (Z.mod_pos_bound n 10). repeat constructor; lia.
Qed.
Lemma digits_print fuel n : 0 <= n < 10 ^ Z.of_nat fuel → digits_value 0 (print fuel n) = n.
Proof.
  revert n. induction fuel as [|fuel IH]; intros n Hn; cbn [print]; [cbn in *; lia|]. pose proof (Z.mod_pos_bound n 10 ltac:(lia)). pose proof (Z.div_mod n 10 ltac:(lia)). destruct (Z.ltb_spec n 10).
  - cbn [digits_value]. rewrite (proj2 (Z.leb_le 48 (48 + n))), (proj2 (Z.leb_le (48 + n) 57)) by lia. cbn [andb]. lia.
  - assert (0 <= n / 10) by (apply Z.div_pos; lia). rewrite digits_snoc; [|by apply print_digits|unfold digit_byte; lia].
    rewrite Nat2Z.inj_succ, Z.pow_succ_r in Hn by lia. rewrite IH; [lia|]. split; [done|apply Z.div_lt_upper_bound; lia].
Qed.
Lemma print_length fuel n : (length (print fuel n) ≤ fuel)%nat.
Proof. revert n. induction fuel as [|fuel IH]; intros n; cbn [print]; [done|]. destruct (n <? 10); cbn; [lia|]. rewrite length_app. cbn. specialize (IH (n / 10)). lia. Qed.
Lemma print_not_nil n : print 10 n ≠ [].
Proof. change (print 10 n) with (if n <? 10 then [48 + n] else print 9 (n / 10) ++ [48 + n mod 10]). destruct (n <? 10); [done|]. by destruct (print 9 (n / 10)). Qed.
Lemma digit_plain b : digit_byte b → plain_byte b.
Proof. unfold digit_byte, plain_byte. lia. Qed.
Lemma print_plain n : 0 <= n → plain_value (print 10 n).
Proof.
  intros Hn. split_and!; [apply print_not_nil|pose proof (print_length 10 n); lia|]. eapply Forall_impl; [by apply print_digits|apply digit_plain].
Qed.
Lemma strtol_digits l : Forall digit_byte l → strtol l = Z.max (- 2 ^ 63) (Z.min (digits_value 0 l) (2 ^ 63 - 1)).
Proof.
  destruct 1 as [|b l Hb Hl]; [done|]. unfold strtol, digit_byte in *. cbn [skip_spaces]. unfold byte_is_space.
  rewrite (proj2 (Z.eqb_neq b 32)), (proj2 (Z.leb_gt b 13)), andb_false_r by lia. cbn [orb]. by rewrite (proj2 (Z.eqb_neq b 45)), (proj2 (Z.eqb_neq b 43)) by lia.
Qed.
(** [atoi] inverts printing on what an [int] holds. *)
Lemma atoi_print n : 0 <= n <= INT_MAX → atoi (print 10 n) = n.
Proof.
  unfold INT_MAX. intros Hn. unfold atoi. rewrite strtol_digits by (apply print_digits; lia). rewrite digits_print by (cbn; lia). unfold i32.
  rewrite Z.min_l, Z.max_r by lia. rewrite Z.mod_small; lia.
Qed.
Lemma cstr_plain v : Forall plain_byte (str_bytes v) → cstr_of_bytes (str_bytes v) = v.
Proof.
  induction v as [|c v IH]; [done|]. cbn [str_bytes cstr_of_bytes]. intros [[H0 _] Hv]%Forall_cons. by rewrite (proj2 (Z.eqb_neq _ 0) H0), ascii_of_byte_of_ascii, IH.
Qed.

(** *** A line with a name and a value *)

Section lines.
Context `{ConfEnv}.
Implicit Types (s : conf_state).

Definition buffer (buf : list Z) s : conf_state := s <| cs_buf := buf |>.
Lemma buffer_twice b1 b2 s : buffer b1 (buffer b2 s) = buffer b1 s.
Proof. done. Qed.
Lemma plain_no_nul v : Forall plain_byte v → Forall (λ b, b ≠ 0) v.
Proof. intros Hv. eapply Forall_impl; [done|]. by intros ? (? & _). Qed.
Lemma plain_no_space v : Forall plain_byte v → Forall (λ b, b ≠ 32) v.
Proof. intros Hv. eapply Forall_impl; [done|]. by intros ? (_ & _ & _ & ?). Qed.
Lemma plain_spaces v r : v ≠ [] → Forall plain_byte v → spaces (v ++ r) = O.
Proof. destruct 2 as [|b v (_ & _ & _ & Hb) _]; [done|]. cbn. by rewrite (proj2 (Z.eqb_neq b 32) Hb). Qed.

Lemma string_at_eq pre str rest s : cs_buf s = pre ++ str ++ 0 :: rest → Forall (λ b, b ≠ 0) str → string_at (length pre) s = Some (str, s).
Proof. intros Hb Hs. unfold string_at, deref. by rewrite Hb, drop_app_length, until_nul_app. Qed.
Lemma string_at_0 str rest s : cs_buf s = str ++ 0 :: rest → Forall (λ b, b ≠ 0) str → string_at 0 s = Some (str, s).
Proof. apply (string_at_eq []). Qed.
Lemma strtok_value pre v rest s : cs_buf s = pre ++ v ++ 0 :: rest → plain_value v →
  strtok_r (length pre) s = Some ((Some (length pre, v), (length pre + length v)%nat), s).
Proof.
  intros Hb (Hne & _ & Hv). unfold strtok_r, mbind, st_bind. rewrite (string_at_eq _ _ _ _ Hb) by (by apply plain_no_nul). pose proof (plain_spaces v [] Hne Hv) as Hsp. rewrite app_nil_r in Hsp.
  rewrite Hsp. cbn [drop]. rewrite word_no_space by (by apply plain_no_space). rewrite bool_decide_eq_false_2, bool_decide_eq_true_2, Nat.add_0_r by done. done.
Qed.
Lemma strtok_name n v rest s : cs_buf s = n ++ 32 :: v ++ 0 :: rest → n ≠ [] → Forall plain_byte n → Forall (λ b, b ≠ 0) v →
  strtok_r 0 s = Some ((Some (O, n), S (length n)), buffer (n ++ 0 :: v ++ 0 :: rest) s).
Proof.
  intros Hb Hne Hn Hv. unfold strtok_r, mbind at 1, st_bind at 1. rewrite (string_at_0 (n ++ 32 :: v) rest s); [|by rewrite Hb, <- app_assoc|apply Forall_app; split; [by apply plain_no_nul|by constructor]].
  rewrite plain_spaces by done. rewrite drop_0. cbn [Nat.add]. rewrite word_space by (by apply plain_no_space). rewrite bool_decide_eq_false_2 by (by destruct n).
  rewrite bool_decide_eq_false_2 by (rewrite length_app; cbn; lia). unfold poke, mbind, st_bind, gets, assert_, modify. rewrite bool_decide_eq_true_2 by (rewrite Hb, length_app; cbn; lia).
  cbn. unfold buffer. rewrite Hb. do 4 f_equal. replace (length n) with (length n + 0)%nat by lia. by rewrite insert_app_r.
Qed.
Lemma strip_step fuel l b rest s : cs_buf s = (l ++ [b]) ++ 0 :: rest → Forall (λ b, b ≠ 0) (l ++ [b]) →
  strip_newlines (S fuel) s = if (b =? 10) || (b =? 13) then strip_newlines fuel (buffer (l ++ 0 :: 0 :: rest) s) else Some (tt, s).
Proof.
  intros Hb Hl. cbn [strip_newlines]. unfold mbind at 1, st_bind at 1. rewrite (string_at_0 (l ++ [b]) rest s Hb Hl). rewrite last_snoc. destruct (_ || _); [|done].
  unfold poke, mbind, st_bind, gets, assert_, modify. rewrite length_app. cbn [length]. replace (length l + 1 - 1)%nat with (length l + 0)%nat by lia.
  rewrite bool_decide_eq_true_2 by (rewrite Hb, !length_app; cbn; lia). cbn. unfold buffer. rewrite Hb, <- app_assoc. cbn. by rewrite insert_app_r.
Qed.
Lemma strip_line l b rest s : cs_buf s = (l ++ [b]) ++ 10 :: 0 :: rest → Forall (λ b, b ≠ 0) (l ++ [b]) → b ≠ 10 → b ≠ 13 →
  strip_newlines 1024 s = Some (tt, buffer ((l ++ [b]) ++ 0 :: 0 :: rest) s).
Proof.
  intros Hb Hl H10 H13. rewrite (strip_step 1023 (l ++ [b]) 10 rest s); [|by rewrite Hb, <- !app_assoc|apply Forall_app; split; [done|by apply Forall_singleton]]. cbn [Z.eqb orb].
  rewrite (strip_step 1022 l b (0 :: rest)) by done. by rewrite (proj2 (Z.eqb_neq b 10)), (proj2 (Z.eqb_neq b 13)).
Qed.

Definition value_at (p : nat) (v : list Z) s : Prop := plain_value v ∧ ∃ pre rest, cs_buf s = pre ++ v ++ 0 :: rest ∧ p = length pre.
Lemma strtok_at p v s : value_at p v s → strtok_r p s = Some ((Some (p, v), (p + length v)%nat), s).
Proof. intros (Hv & pre & rest & Hb & ->). by eapply strtok_value. Qed.
Lemma strtok_end p v s : value_at p v s → strtok_r (p + length v) s = Some ((None, (p + length v)%nat), s).
Proof.
  intros (Hv & pre & rest & Hb & ->). unfold strtok_r, mbind at 1, st_bind at 1. rewrite <- length_app. rewrite (string_at_eq (pre ++ v) [] rest s); [|by rewrite Hb, <- app_assoc|done]. cbn. by rewrite Nat.add_0_r.
Qed.
Lemma bool_at old p (b : bool) s : value_at p (str_bytes (if b then "true" else "false")) s → _conf_parse_bool old p s = Some ((MOSQ_ERR_SUCCESS, b), s).
Proof. intros Hv. unfold _conf_parse_bool, mbind, st_bind. rewrite (strtok_at _ _ _ Hv). by destruct b. Qed.
Lemma int_at old p n s : value_at p (print 10 n) s → 0 <= n <= INT_MAX → _conf_parse_int old p s = Some ((MOSQ_ERR_SUCCESS, n), s).
Proof. intros Hv Hn. unfold _conf_parse_int, mbind, st_bind. rewrite (strtok_at _ _ _ Hv), atoi_print by done. done. Qed.
Lemma string_at_value p v s : value_at p (str_bytes v) s → _conf_parse_string None p s = Some ((MOSQ_ERR_SUCCESS, Some v), s).
Proof. intros Hv. unfold _conf_parse_string, mbind, st_bind. rewrite (strtok_at _ _ _ Hv), cstr_plain by apply Hv. done. Qed.

(** The chain of comparisons on the name of a setting. *)
Ltac known_name :=
  unfold config_line; cbv zeta;
  repeat match goal with |- context [token_is (str_bytes ?a) ?b] =>
    let v := eval vm_compute in (token_is (str_bytes a) b) in change (token_is (str_bytes a) b) with v
  end; cbn [orb].
Definition becomes (m : ST conf_state Z) s s' : Prop := m s = Some (MOSQ_ERR_SUCCESS, s').

Lemma parse_into_becomes {V} (parse : V → nat → ST conf_state (Z * V)) get put p v s :
  parse (get (cs_config s)) p s = Some ((MOSQ_ERR_SUCCESS, v), s) → becomes (parse_into parse get put p) s (s <| cs_config ::= put v |>).
Proof. intros Hp. unfold becomes, parse_into, config_get, set_config, mbind, st_bind, gets, modify. by rewrite Hp. Qed.
Lemma on_listener_Some ok f s s' : on_listener ok f s = Some s' →
  ∃ l, cur_listener s = Some (l, s) ∧ ok l = true ∧ set_cur_listener f s = Some (tt, s').
Proof.
  unfold on_listener, cur_listener, set_cur_listener, set_config, mbind, st_bind, gets, deref, modify. destruct (cs_cur_listener s) as [i|].
  - cbn. destruct (_ !! i) as [l|]; [cbn|done]. case_guard; [cbn|done]. intros [= <-]. by eexists.
  - cbn. case_guard; [cbn|done]. intros [= <-]. by eexists.
Qed.
Lemma parse_into_listener_becomes {V} (parse : V → nat → ST conf_state (Z * V)) get put ok p v s s' :
  on_listener ok (put v) s = Some s' → (∀ l, ok l = true → parse (get l) p s = Some ((MOSQ_ERR_SUCCESS, v), s)) → becomes (parse_into_listener false parse get put p) s s'.
Proof.
  intros (l & Hl & Hok & Hset)%on_listener_Some Hp. unfold becomes, parse_into_listener, mbind, st_bind. rewrite Hl, (Hp l Hok), Hset. done.
Qed.
Lemma ranged_becomes get put lo hi p n s : (∀ v c, get (put v c) = v) → value_at p (print 10 n) s → 0 <= n <= INT_MAX → lo <= n <= hi →
  becomes (ranged_option get put lo hi p) s (s <| cs_config ::= put n |>).
Proof.
  intros Hget Hv Hn Hr. unfold becomes, ranged_option, mbind at 1, st_bind at 1. rewrite (parse_into_becomes _ _ _ _ n) by (by apply int_at). cbn. unfold config_get, gets, mbind, st_bind. cbn. rewrite Hget.
  by rewrite (proj2 (Z.ltb_ge n lo)), (proj2 (Z.ltb_ge hi n)) by lia.
Qed.

Lemma flag_becomes o (b : bool) p s : value_at p (str_bytes (if b then "true" else "false")) s →
  becomes (config_line false (str_bytes (flag_name o)) p) s (s <| cs_config ::= flag_put o b |>).
Proof. intros Hv. destruct o; cbn [flag_name]; known_name; by apply parse_into_becomes, bool_at. Qed.
Lemma number_becomes o n p s : value_at p (print 10 n) s → (number_range o).1 <= n <= (number_range o).2 →
  becomes (config_line false (str_bytes (number_name o)) p) s (number_put o n s).
Proof.
  intros Hv Hr. assert (0 <= n <= INT_MAX) as Hn by (destruct o; cbn in Hr; unfold MQTT_MAX_PAYLOAD, INT_MAX in *; lia).
  destruct o; cbn [number_name number_range fst snd] in *; known_name.
  - by apply (ranged_becomes mq_message_size_limit (λ v c, c <| mq_message_size_limit := v |>)).
  - by apply (ranged_becomes mq_retry_interval (λ v c, c <| mq_retry_interval := v |>)).
  - by apply (ranged_becomes mq_store_clean_interval (λ v c, c <| mq_store_clean_interval := v |>)).
  - unfold becomes, max_inflight_messages_option, limit_option, mbind, st_bind. rewrite (strtok_at _ _ _ Hv). rewrite atoi_print by done. cbn. by rewrite (proj2 (Z.ltb_ge n 0)) by lia.
  - unfold becomes, max_queued_messages_option, limit_option, mbind, st_bind. rewrite (strtok_at _ _ _ Hv). rewrite atoi_print by done. cbn. by rewrite (proj2 (Z.ltb_ge n 0)) by lia.
Qed.
Lemma name_becomes o v p s s' : value_at p (str_bytes v) s → on_listener (λ l, bool_decide (name_get o l = None)) (name_put o v) s = Some s' →
  becomes (config_line false (str_bytes (name_name o)) p) s s'.
Proof.
  intros Hv Hl. destruct o; cbn [name_name]; known_name; (eapply parse_into_listener_becomes; [exact Hl|]; intros l Hn%bool_decide_eq_true; cbn in Hn; rewrite Hn; by apply string_at_value).
Qed.
Lemma port_becomes n p s : value_at p (print 10 n) s → 1 <= n <= 65535 →
  becomes (config_line false (str_bytes "port") p) s (s <| cs_config ::= λ c, c <| mq_default_listener ::= λ l, l <| ls_port := n |> |> |>).
Proof.
  intros Hv Hn. known_name. unfold becomes, port_option, mbind, st_bind. rewrite (int_at 0 p n s Hv) by (unfold INT_MAX; lia). unfold valid_port.
  by rewrite (proj2 (Z.leb_le 1 n)), (proj2 (Z.leb_le n 65535)) by lia.
Qed.
Lemma listener_becomes n p s s' : value_at p (print 10 n) s → meaning (Listener n) s = Some s' → becomes (config_line false (str_bytes "listener") p) s s'.
Proof.
  intros Hv Hm. cbn [meaning] in Hm. case_guard as Hn; cbn in Hm; [|done]. injection Hm as <-. known_name. unfold becomes, listener_option, set_config, config_get, mbind, st_bind. cbv iota beta. rewrite (strtok_at _ _ _ Hv). rewrite atoi_print by (unfold INT_MAX; lia).
  unfold valid_port. rewrite (proj2 (Z.leb_le 1 n)), (proj2 (Z.leb_le n 65535)) by lia. cbn [andb negb]. unfold modify at 1. cbn [gets modify].
  match goal with |- context [strtok_r _ ?s0] => assert (value_at p (print 10 n) s0) as Hv0 by exact Hv end. unfold gets, modify. rewrite (strtok_end _ _ _ Hv0). done.
Qed.
Lemma max_connections_becomes n p s s' : value_at p (print 10 n) s → 0 <= n <= INT_MAX → on_listener (λ _, true) (λ l, l <| ls_max_connections := n |>) s = Some s' →
  becomes (config_line false (str_bytes "max_connections") p) s s'.
Proof.
  intros Hv Hn (l & Hl & _ & Hset)%on_listener_Some. known_name. unfold becomes, max_connections_option, limit_option, mbind, st_bind. rewrite (strtok_at _ _ _ Hv), atoi_print by done.
  rewrite Hl, (proj2 (Z.ltb_ge n 0)) by lia. by rewrite Hset.
Qed.
Lemma setting_becomes x p s s' : meaning x s = Some s' → value_at p (setting_value x) s → becomes (config_line false (str_bytes (setting_name x)) p) s s'.
Proof.
  destruct x as [o b|o n|o v|n|n|b|n]; cbn [setting_name setting_value]; intros Hm Hv; [| | | |by eapply listener_becomes|..]; cbn [meaning] in Hm; try (case_guard as Hg; cbn in Hm; [|done]).
  - injection Hm as <-. by apply flag_becomes.
  - injection Hm as <-. by apply number_becomes.
  - by eapply name_becomes.
  - injection Hm as <-. by apply port_becomes.
  - known_name. eapply parse_into_listener_becomes; [exact Hm|]. intros l _. by apply bool_at.
  - by eapply max_connections_becomes.
Qed.

(** *** A file of settings *)

Lemma meaning_plain x s s' : meaning x s = Some s' → plain_value (setting_value x).
Proof.
  assert (∀ b : bool, plain_value (str_bytes (if b then "true" else "false"))) as Hb by (intros []; apply (bool_decide_unpack _); by vm_compute).
  destruct x as [o b|o n|o v|n|n|b|n]; cbn [meaning setting_value]; try (case_guard as Hg; cbn; [|done]); intros _; try done; apply print_plain; [destruct o; cbn in Hg; lia|lia..].
Qed.
Lemma setting_name_plain x : str_bytes (setting_name x) ≠ [] ∧ (length (str_bytes (setting_name x)) ≤ 30)%nat ∧ Forall (λ b, plain_byte b ∧ b ≠ 35) (str_bytes (setting_name x)).
Proof. destruct x as [[]|[]|[]| | | |]; apply (bool_decide_unpack _); by vm_compute. Qed.
Lemma setting_text_line x s s' : meaning x s = Some s' → text_line (setting_line x).
Proof.
  intros Hm. destruct (meaning_plain _ _ _ Hm) as (_ & Hl & Hv). destruct (setting_name_plain x) as (_ & Hl2 & Hn). unfold setting_line. split; [rewrite length_app; cbn; lia|].
  apply Forall_app. split; [eapply Forall_impl; [exact Hn|]; by intros b [(? & ? & _) _]|]. constructor; [done|]. eapply Forall_impl; [exact Hv|]. by intros b (? & ? & _).
Qed.
Lemma on_listener_buffer ok f b s : on_listener ok f (buffer b s) = buffer b <$> on_listener ok f s.
Proof. unfold on_listener, buffer. cbn. destruct (cs_cur_listener s); [destruct (_ !! _); cbn; [|done]|]; by case_guard. Qed.
Lemma meaning_buffer x b s : meaning x (buffer b s) = buffer b <$> meaning x s.
Proof. destruct x as [o ?|o n|o v|n|n|?|n]; cbn [meaning]; try (case_guard; cbn; [|done]); try apply on_listener_buffer; try done; by destruct o. Qed.
Lemma meanings_buffer xs b s : meanings xs (buffer b s) = buffer b <$> meanings xs s.
Proof. revert s. induction xs as [|x xs IH]; intros s; [done|]. cbn [meanings]. rewrite meaning_buffer. destruct (meaning x s); cbn; [apply IH|done]. Qed.

Lemma read_setting x s s' : meaning x s = Some s' → line_read (setting_line x) s → ∃ buf, read_line false s = Some (MOSQ_ERR_SUCCESS, buffer buf s') ∧ length buf = 1024%nat.
Proof.
  intros Hm [Hlen [rest Hbuf]]. pose proof (meaning_plain _ _ _ Hm) as Hv. destruct (setting_name_plain x) as (Hne & _ & Hname). pose proof Hv as (Hvne & _ & Hvp).
  set (n := str_bytes (setting_name x)) in *. set (v := setting_value x) in *. assert (Forall plain_byte n) as Hn by (eapply Forall_impl; [exact Hname|]; by intros ? []).
  set (buf := n ++ 0 :: v ++ 0 :: 0 :: rest). exists buf. assert (length buf = 1024%nat) as Hl by (rewrite <- Hlen, Hbuf; unfold buf, setting_line; rewrite <- app_assoc, !length_app; cbn; by rewrite !length_app).
  split; [|done]. unfold read_line, deref. unfold mbind at 1, st_bind at 1. assert (∃ b, cs_buf s !! O = Some b ∧ plain_byte b ∧ b ≠ 35) as (b & Hb & (_ & Hb10 & Hb13 & _) & Hb35).
  { rewrite Hbuf. unfold setting_line. fold n. destruct Hname as [|b n' [? ?] _]; [done|]. by exists b. }
  rewrite Hb, (proj2 (Z.eqb_neq b 35)), (proj2 (Z.eqb_neq b 10)), (proj2 (Z.eqb_neq b 13)) by done. cbn [orb]. unfold mbind at 1, st_bind at 1.
  destruct (exists_last Hvne) as (v' & c & Hvc). assert (plain_byte c) as (Hc0 & Hc10 & Hc13 & _) by (rewrite Hvc in Hvp; apply Forall_app in Hvp as [_ Hc]; by apply Forall_cons in Hc as [Hc _]).
  rewrite (strip_line (n ++ 32 :: v') c rest s); [| | |done|done].
  2:{ rewrite Hbuf. unfold setting_line. fold n v. rewrite Hvc. rewrite <- !app_assoc. cbn. by rewrite <- ?app_assoc. }
  2:{ rewrite <- app_assoc. cbn. rewrite <- Hvc. apply Forall_app. split; [by apply plain_no_nul|]. constructor; [done|by apply plain_no_nul]. }
  unfold mbind at 1, st_bind at 1. rewrite (strtok_name n v (0 :: rest)); [|cbn; rewrite <- !app_assoc; cbn; rewrite Hvc; by rewrite <- app_assoc|done|done|by apply plain_no_nul].
  rewrite buffer_twice. apply (setting_becomes x (S (length n)) (buffer buf s)); [rewrite meaning_buffer; by rewrite Hm|]. split; [done|]. exists (n ++ [0]), (0 :: rest). split; [cbn; unfold buf; by rewrite <- app_assoc|]. rewrite length_app. cbn. lia.
Qed.
Lemma read_settings fuel xs s s' : meanings xs s = Some s' → (length xs < fuel)%nat → length (cs_buf s) = 1024%nat →
  ∃ buf, read_lines fuel false (text (setting_line <$> xs)) s = Some (MOSQ_ERR_SUCCESS, buffer buf s').
Proof.
  revert fuel s s'. induction xs as [|x xs IH]; intros [|fuel] s s' Hm Hf Hlen; try (cbn in Hf; lia); cbn [meanings] in Hm.
  - injection Hm as <-. exists (cs_buf s). by destruct s.
  - destruct (meaning x s) as [s1|] eqn:Hx; [|done]. cbn in Hm. pose proof (setting_text_line _ _ _ Hx) as Hl. cbn [fmap list_fmap read_lines].
    destruct (proj1 (wp_Some _ _ _) (fgets_text _ (setting_line <$> xs) s Hl Hlen)) as (r & s2 & Hfg & -> & Hr & E). unfold mbind at 1, st_bind at 1. rewrite Hfg. unfold mbind at 1, st_bind at 1.
    assert (meaning x s2 = Some (buffer (cs_buf s2) s1)) as Hx2 by (rewrite E; change (meaning x (buffer (cs_buf s2) s) = Some (buffer (cs_buf s2) s1)); by rewrite meaning_buffer, Hx).
    destruct (read_setting _ _ _ Hx2 Hr) as (buf & -> & Hbl). cbn [Z.eqb MOSQ_ERR_SUCCESS]. rewrite buffer_twice.
    destruct (IH fuel (buffer buf s1) (buffer buf s')) as (buf' & ->); [by rewrite meanings_buffer, Hm|cbn in Hf; lia|done|]. exists buf'. by rewrite buffer_twice.
Qed.
End lines.

(** ** What the configuration promises *)

Lemma add_default_ok c : in_range c → in_range (add_default_listener c) ∧ mq_listeners (add_default_listener c) ≠ [].
Proof.
  intros [? ? ? [Hp Hm] Hls Hn]. unfold add_default_listener. split; [|cbn; by destruct (mq_listeners c)]. split; cbn; [done|done|done|by split| |rewrite length_app; cbn; lia].
  apply Forall_app_2; [done|]. apply Forall_singleton. unfold listener_ok. cbn. destruct (Z.eqb_spec (ls_port (mq_default_listener c)) 0); lia.
Qed.
Lemma finish_args_ok c : in_range c → in_range (finish_args c) ∧ mq_listeners (finish_args c) ≠ [] ∧ is_Some (mq_user (finish_args c)).
Proof.
  intros Hc. unfold finish_args. cbv zeta. set (c1 := if default_listener_used c then _ else _). assert (in_range c1 ∧ mq_listeners c1 ≠ []) as [Hc1 Hne].
  { unfold c1. destruct (default_listener_used c) eqn:Hd; [by apply add_default_ok|]. split; [done|]. unfold default_listener_used in Hd. rewrite !orb_false_iff, Z.eqb_neq in Hd.
    destruct Hc as [_ _ _ _ _ Hn]. rewrite Hn in Hd. assert (Z.of_nat (length (mq_listeners c)) ≠ 0) by tauto. by destruct (mq_listeners c). }
  destruct (default_user_ok _ Hc1) as ([? ? ? ? ? ?] & _ & Hu). assert (mq_listeners (default_user c1) = mq_listeners c1) as Hls by (unfold default_user; by case_bool_decide).
  destruct (mq_verbose _); (split_and!; [by split|change (mq_listeners (default_user c1) ≠ []); by rewrite Hls|done]).
Qed.
Lemma init_settings_ok : in_range mqtt3_config_init.
Proof. split; unfold listener_ok, MQTT_MAX_PAYLOAD; cbn; [lia|lia|lia|lia|constructor|done]. Qed.

Section claims.
Context `{ConfEnv}.
Implicit Types (s : conf_state).

Lemma parse_args_spec args s : text_files → limits_ok (cs_max_inflight s) (cs_max_queued s) → cs_config s = mqtt3_config_init →
  wp (mqtt3_config_parse_args args) (λ rc s', cs_tls s' = cs_tls s ∧
    (rc = MOSQ_ERR_SUCCESS → in_range (cs_config s') ∧ mq_listeners (cs_config s') ≠ [] ∧ is_Some (mq_user (cs_config s')) ∧ limits_ok (cs_max_inflight s') (cs_max_queued s'))) s.
Proof.
  intros Ht Hlim Hinit. unfold mqtt3_config_parse_args, set_config. wp_steps.
  assert (args_ok s) as Hok by (split; rewrite ?Hinit; [exact init_settings_ok|done|done]). eapply wp_mono; [by apply (parse_args_loop_ok (cs_tls s))|]. intros rc s2 [Hrc Htls].
  destruct (Z.eqb_spec rc 0) as [->|Hne]; cbn [negb]; wp_steps; [|split; [done|by intros ->]]. split; [done|]. intros _. destruct (Hrc eq_refl) as [Hset Hl _]. destruct (finish_args_ok _ Hset) as (? & ? & ?). by split_and!.
Qed.

(** C37: Whatever the arguments are, and whatever the lines of the configuration files say,
    the command line and the files are read without leaving the line buffer or using a
    listener that is not there, and are either refused or lead to settings in their
    ranges: at least one listener, every port valid, the retry interval between a second
    and an hour, the limits of messages not negative, and a user to run as. The files
    must be texts ([text_files]): every line ends with a newline, the last one too, has
    at most 1022 bytes before it (so that it fits the buffer of 1024) and no NUL byte.
    For other files this is false: a line that starts with a NUL byte makes the reader
    look in front of the buffer (conf.c:452), and the name of a log file at the end of
    a last line without a newline is read from behind it (conf.c:737). The limits of
    messages that are set at the start, 20 and 100 in the source, must be in their
    range. *)
Theorem command_line_configures args s : text_files → limits_ok (cs_max_inflight s) (cs_max_queued s) →
  wp (set_config (λ _, mqtt3_config_init);; mqtt3_config_parse_args args) (λ rc s', rc = MOSQ_ERR_SUCCESS →
    in_range (cs_config s') ∧ mq_listeners (cs_config s') ≠ [] ∧ is_Some (mq_user (cs_config s')) ∧ limits_ok (cs_max_inflight s') (cs_max_queued s')) s.
Proof. intros Ht Hl. unfold set_config. wp_steps. eapply wp_mono; [by apply parse_args_spec|]. by intros rc s' [_ ?]. Qed.

(** What TLS needs of the library. *)
Definition tls_given (t : tls_statics) : Prop :=
  s_tlsEnabled t = true → is_Some (s_clientCertChainFile t) ∧ is_Some (s_brokerCertFile t) ∧ is_Some (s_brokerKeyFile t) ∧ is_Some (s_ciphers t).
Definition asks_for_certificates (t : tls_statics) (l : _mqtt3_listener) : Prop :=
  ls_require_certificate l = true ∧ ls_cafile l = s_clientCertChainFile t ∧ ls_certfile l = s_brokerCertFile t ∧ ls_keyfile l = s_brokerKeyFile t ∧
  ∀ v, s_tlsVersion t = Some v → v ≠ "" → ls_tls_version l = Some v.
Lemma tls_listener_asks t ca cert key l : s_clientCertChainFile t = Some ca → s_brokerCertFile t = Some cert → s_brokerKeyFile t = Some key →
  asks_for_certificates t (tls_listener t ca cert key l).
Proof. intros Hca Hcert Hkey. unfold asks_for_certificates. rewrite Hca, Hcert, Hkey. split_and!; [done..|]. intros v Hv Hne. cbn. unfold not_empty. rewrite Hv. by rewrite bool_decide_eq_false_2. Qed.
Lemma update_tls_spec t s : tls_given t → mq_listener_count (cs_config s) = Z.of_nat (length (mq_listeners (cs_config s))) →
  wp (mqtt3_config_update_tls t) (λ _ s', length (mq_listeners (cs_config s')) = length (mq_listeners (cs_config s)) ∧ mq_listener_count (cs_config s') = mq_listener_count (cs_config s) ∧
    mq_user (cs_config s') = mq_user (cs_config s) ∧ s_tlsEnabled (cs_tls s') = s_tlsEnabled t ∧
    (s_tlsEnabled t = true → Forall (asks_for_certificates t) (mq_listeners (cs_config s')))) s.
Proof.
  intros Ht Hn. unfold mqtt3_config_update_tls, config_get, set_config. wp_steps. destruct (s_tlsEnabled t) eqn:He; cbn [andb]; [|wp_steps; by split_and!].
  destruct (Ht He) as ([ca Hca] & [cert Hcert] & [key Hkey] & Hciphers). cbn [cs_config upd]. destruct (Z.eqb_spec (mq_listener_count (cs_config s)) 0) as [Hz|Hz]; cbn [negb]; wp_steps.
  - split_and!; try done. intros _. cbn. rewrite Hz in Hn. by destruct (mq_listeners (cs_config s)).
  - eapply wp_deref; [done|]. wp_step. eapply wp_deref; [done|]. wp_step. eapply wp_deref; [done|]. wp_steps; [by apply bool_decide_eq_true..|].
    split_and!; try done; [cbn; by rewrite length_fmap|]. intros _. cbn. apply Forall_fmap. apply Forall_forall. intros l _. by apply tls_listener_asks.
Qed.

(** C38: Whatever the command line and the lines of the configuration files say, if the
    broker starts with TLS, each of its listeners is set up to require a certificate of
    every client, with the chain to check it against, the certificate and the key of the
    broker and the TLS version that the library brought; the first of them has the port
    of the library. As for the command line, the files must be texts ([text_files]: every
    line ends with a newline, within 1023 bytes, and holds no NUL byte; a last line
    without a newline is excluded, and a NUL byte at the start of a line is undefined,
    conf.c:452), and the limits of messages in their range at the start; and with TLS the
    library brings the chain, the certificate, the key and the ciphers, as its settings do
    ([tls_given]; they are copied without a check). *)
Theorem tls_on_every_listener args x s : text_files → limits_ok (cs_max_inflight s) (cs_max_queued s) → tls_given (dx_tls x) →
  wp (main_configure args x) (λ rc s', rc = MOSQ_ERR_SUCCESS →
    (∃ l ls, mq_listeners (cs_config s') = l :: ls ∧ ls_port l = u16 (dx_listenPort x)) ∧
    mq_listener_count (cs_config s') = Z.of_nat (length (mq_listeners (cs_config s'))) ∧ mq_message_size_limit (cs_config s') = dx_messageSizeLimit x ∧
    (s_tlsEnabled (dx_tls x) = true → Forall (asks_for_certificates (dx_tls x)) (mq_listeners (cs_config s')))) s.
Proof.
  intros Ht Hlim Htls. unfold main_configure, set_config. wp_steps. eapply wp_mono; [by apply parse_args_spec|]. intros rc s1 [_ Hrc]. destruct (Z.eqb_spec rc 0) as [->|]; cbn [negb]; [|by wp_step].
  destruct (Hrc eq_refl) as ([_ _ _ _ _ Hn] & Hne & _ & _). unfold main_settings, set_config. wp_steps. eapply wp_mono; [by apply update_tls_spec|]. intros _ s2 (Hl & Hn2 & _ & _ & Hall). wp_steps. intros _.
  cbn in Hl, Hn2 |- *. split_and!.
  - destruct (mq_listeners (cs_config s2)) as [|l ls]; [by destruct (mq_listeners (cs_config s1))|]. by eexists _, _.
  - rewrite length_alter, Hn2, Hl. exact Hn.
  - done.
  - intros He. apply Forall_alter; [by apply Hall|]. intros l _ (? & ? & ? & ? & ?). by split_and!.
Qed.

(** C39: A configuration file that states settings one by one, each in its range and no
    name twice for a listener, is read to its end, and afterwards the configuration
    is what the settings say, in their order; nothing but the line buffer is changed
    besides. *)
Theorem settings_read_back file xs s s' e : fopen_read file (uninitialised (cs_env s)).2 = (Some (text (setting_line <$> xs)), e) →
  meanings xs (s <| cs_cur_listener := None |> <| cs_env := e |>) = Some s' →
  ∃ buf, _config_read_file false file s = Some (MOSQ_ERR_SUCCESS, s' <| cs_buf := buf |>).
Proof.
  intros Hf Hm. unfold _config_read_file, conf_ext, mbind, st_bind, modify. destruct (uninitialised (cs_env s)) as [garbage e0]. cbn in Hf |- *. rewrite Hf.
  set (s1 := s <| cs_cur_listener := None |> <| cs_env := e |>) in *. pose proof (text_length (setting_line <$> xs)) as Hl. rewrite length_fmap in Hl.
  destruct (read_settings (S (length (text (setting_line <$> xs)))) xs (buffer (resize 1024 0 garbage) s1) (buffer (resize 1024 0 garbage) s')) as [buf Hread]; [by rewrite meanings_buffer, Hm|lia|apply length_resize|].
  exists buf. exact Hread.
Qed.
End claims.

(** ** Files to evaluate *)

Section examples.
(** A machine on which every file holds [content]. *)
#[local] Instance one_file (content : list Z) : ConfEnv :=
  {| cenv := (); fopen_read _ _ := (Some content, tt); fopen_append _ _ := (true, tt); resolve _ _ := (true, tt); uninitialised _ := ([], tt) |}.
Definition start_state (content : list Z) : @conf_state (one_file content) :=
  @mk_conf_state (one_file content) mqtt3_config_init initial_cr None [] 20 100 initial_tls tt.
Definition ex_lines : list setting :=
  [Flag Qos0 true; Number Retry 30; Number Queued 500; Listener 1884; Name Cafile "/etc/ca.pem"; Require true; MaxConnections 64; Port 8883].
Definition ex_file : list Z := text (setting_line <$> ex_lines).
Definition ex_args : list string := ["--config"; "broker.conf"; "--mosquitto-config"; "core.conf"; "-d"].
Definition ex_tls : tls_statics :=
  mk_tls_statics true false (Some "clients.pem") (Some "brokers.pem") (Some "broker.key") (Some "broker.pem") (Some "") (Some "tlsv1.3") (Some ["00"]).
Definition ex_dxl : dxl_settings := mk_dxl_settings ex_tls 8883 INT_MAX 0 1048576 "dxl" false 443.

Definition listeners_after (content : list Z) (args : list string) : option (Z * list _mqtt3_listener) :=
  (λ r, (r.1, mq_listeners (cs_config r.2))) <$> @main_configure (one_file content) args ex_dxl (start_state content).
Example ex_listeners : (λ r : Z * list _mqtt3_listener, (r.1, (λ l, (ls_port l, ls_max_connections l, ls_cafile l, ls_tls_version l)) <$> r.2)) <$> listeners_after ex_file ex_args =
  Some (0, [(8883, 64, Some "clients.pem", Some "tlsv1.3"); (8883, -1, Some "clients.pem", Some "tlsv1.3")]).
Proof. by vm_compute. Qed.

(** A last line without a newline: the name of the log file is left over from the line before. *)
Definition lines_of (l : list string) (last : string) : list Z := text (str_bytes <$> l) ++ str_bytes last.
Definition run_file (content : list Z) : option (Z * mqtt3_config) :=
  (λ r, (r.1, cs_config r.2)) <$> @_config_read_file (one_file content) false "core.conf" (start_state content).
Example ex_stale_log_file : (λ r : Z * mqtt3_config, (r.1, mq_log_file r.2)) <$> run_file (lines_of ["# log file is:/tmp/old.log"] "log_dest file") = Some (0, Some (String.append "/tmp/old.log" (String "010" EmptyString))).
Proof. by vm_compute. Qed.
(** A line that starts with a NUL byte reads what is before the buffer. *)
Example ex_nul_line : run_file [0; 10] = None.
Proof. by vm_compute. Qed.
(** A value that is neither true nor false is taken for success, and changes nothing. *)
Example ex_bad_bool : (λ r : Z * mqtt3_config, (r.1, mq_queue_qos0_messages r.2)) <$> run_file (lines_of ["queue_qos0_messages yes"] "") = Some (0, false).
Proof. by vm_compute. Qed.
(** No option of a bridge is ever accepted. *)
Example ex_bridge : fst <$> run_file (lines_of ["keepalive_interval 60"] "") = Some MOSQ_ERR_INVAL.
Proof. by vm_compute. Qed.
(** The TLS version of the file does reach the listeners. *)
Example ex_tls_version : (λ r : Z * @conf_state (one_file _), (r.1, ls_tls_version <$> mq_listeners (cs_config r.2))) <$> @mqtt3_config_parse_args (one_file (lines_of ["port 8883"; "tls_version tlsv1.2"] "")) ["--mosquitto-config"; "core.conf"] (start_state _) =
  Some (0, [Some "tlsv1.2"]).
Proof. by vm_compute. Qed.

Lemma ex_text : @text_files (one_file ex_file).
Proof. intros file e content e' [= <- _]. exists (setting_line <$> ex_lines). split; [|done]. repeat constructor; vm_compute; (lia || congruence). Defined.

Lemma command_line_configures_witness : @text_files (one_file ex_file) ∧
  @wp _ _ (@set_config (one_file ex_file) (λ _, mqtt3_config_init);; @mqtt3_config_parse_args (one_file ex_file) ex_args) (λ rc s', rc = MOSQ_ERR_SUCCESS →
    in_range (cs_config s') ∧ mq_listeners (cs_config s') ≠ [] ∧ is_Some (mq_user (cs_config s')) ∧ limits_ok (cs_max_inflight s') (cs_max_queued s')) (start_state ex_file).
Proof. split; [exact ex_text|]. apply (@command_line_configures (one_file ex_file)); [exact ex_text|]. split; cbn; lia. Defined.
Definition ex_after : @conf_state (one_file ex_file) := default (start_state ex_file) (meanings ex_lines (start_state ex_file)).
Lemma settings_read_back_witness : meanings ex_lines (start_state ex_file) = Some ex_after ∧
  ∃ buf, @_config_read_file (one_file ex_file) false "core.conf" (start_state ex_file) = Some (MOSQ_ERR_SUCCESS, ex_after <| cs_buf := buf |>).
Proof.
  assert (meanings ex_lines (start_state ex_file) = Some ex_after) as Hm by (vm_compute; reflexivity). split; [exact Hm|].
  apply (@settings_read_back (one_file ex_file) "core.conf" ex_lines (start_state ex_file) ex_after tt); [reflexivity|exact Hm].
Defined.
Lemma tls_on_every_listener_witness : s_tlsEnabled (dx_tls ex_dxl) = true ∧
  @wp _ _ (@main_configure (one_file ex_file) ex_args ex_dxl) (λ rc s', rc = MOSQ_ERR_SUCCESS →
    (∃ l ls, mq_listeners (cs_config s') = l :: ls ∧ ls_port l = u16 (dx_listenPort ex_dxl)) ∧
    mq_listener_count (cs_config s') = Z.of_nat (length (mq_listeners (cs_config s'))) ∧ mq_message_size_limit (cs_config s') = dx_messageSizeLimit ex_dxl ∧
    (s_tlsEnabled (dx_tls ex_dxl) = true → Forall (asks_for_certificates (dx_tls ex_dxl)) (mq_listeners (cs_config s')))) (start_state ex_file).
Proof.
  split; [reflexivity|]. apply (@tls_on_every_listener (one_file ex_file)); [exact ex_text|split; cbn; lia|]. intros _. cbn. by split_and!.
Defined.
End examples.
