(* ===== verification/CoreGlue.v ===== *)
(** * The seam between the core and the broker library

    [src/dxl/MqttCoreInterface.cpp]: what the library is told of a context of the
    core, and which broker is at the other end of a bridge. [src/dxl/dxl.cpp]: the
    functions that the C code calls, which let no exception through. *)

From S2P Require Import Prelude Topic State CoreUtil Authorization Fabric TopicCache Registry Metrics Services Configuration DxlMessages MessageCore MessageService CoreInterface MessageHandlers.
From stdpp Require Import options.

(** ** Searching in a string *)

(** What is behind the last [c] ([strrchr]), and what is around the first ([strchr]). *)
Fixpoint after_last (c : ascii) (s : string) : option string :=
  match s with
  | EmptyString => None
  | String a s' => match after_last c s' with Some r => Some r | None => if Ascii.eqb a c then Some s' else None end
  end.
Fixpoint around_first (c : ascii) (s : string) : option (string * string) :=
  match s with
  | EmptyString => None
  | String a s' => if Ascii.eqb a c then Some ("", s') else prod_map (String a) id <$> around_first c s'
  end.
(** Behind the [n]th [c]. *)
Fixpoint behind (c : ascii) (n : nat) (s : string) : option string :=
  match n with O => Some s | S n' => around_first c s ≫= λ p, behind c n' p.2 end.

(** ** The other end of a bridge *)

(** Whether this broker is the child, and the other's identifier. The context of a
    bridge is called [{hostname}.{child}:{parent 1}:{parent 2}...]; [None] is an
    exception. *)
Definition getBridgeBrokerIdFromContext (brokerId : string) (context : mosquitto) : option (bool * string) :=
  if negb (c_is_bridge context) then None
  else
    id ← c_id context;
    start ← after_last "."%char id;
    p ← around_first ":"%char start;
    let '(first, candidates) := p in
    r ← (if negb (String.eqb (String.substring 0 (String.length first) brokerId) first) then Some (false, first)
         else
           b ← c_bridge context;
           start ← behind ":"%char (Z.to_nat (b_cur_address b)) candidates;
           Some (true, from_option fst start (around_first ":"%char start)));
    if String.eqb (snd r) "" then None else Some r.

(** ** What the library is told *)

(** The bytes of a payload, as the library's strings hold them. *)
Definition payload_string (payload : option (list Z)) : string :=
  String.string_of_list_ascii ((λ b, ascii_of_nat (Z.to_nat b)) <$> default [] payload).

Section glue.
Context (settings : BrokerSettings) (isInfoEnabled : bool) `{HashOrder} `{PtrOrder} `{MsgPack} `{Json}.
Context (other_store_handlers : gmap string StoreHandler).

Definition bridge_id (context : mosquitto) : EX (bool * string) := of_option (getBridgeBrokerIdFromContext (set_guid settings) context).

(** Tenants are limited, but not the operator's, and not bridges. *)
Definition isTenantLimited (context : mosquitto) : bool :=
  if set_multiTenantModeEnabled settings && negb (has_flag (c_dxl_flags context) DXL_FLAG_OPS) && negb (c_is_bridge context)
  then bool_decide (is_Some (c_dxl_tenant_guid context)) else false.
(** An operation of [TenantMetricsService]. *)
Definition on_metrics {A} (f : TenantMetricsService → A * TenantMetricsService) : ST Library A :=
  on_services (λ s, Some ((f (sv_metrics s)).1, s <| sv_metrics := (f (sv_metrics s)).2 |>)).
Definition core_updateTenantSentByteCount (context : mosquitto) (byteCount : Z) : ST Library bool :=
  if isTenantLimited context then
    tenant ← deref (λ _, c_dxl_tenant_guid context);
    on_metrics (Metrics.updateTenantSentByteCount settings tenant byteCount)
  else mret false.
Definition core_updateTenantConnectionCount (context : mosquitto) (adjCount : Z) : ST Library () :=
  if isTenantLimited context then
    tenant ← deref (λ _, c_dxl_tenant_guid context);
    on_metrics (λ m, (tt, Metrics.updateTenantConnectionCount settings isInfoEnabled tenant adjCount m))
  else mret tt.
Definition isTenantConnectionAllowed (context : mosquitto) : ST Library bool :=
  if isTenantLimited context then
    tenant ← deref (λ _, c_dxl_tenant_guid context);
    gets (λ l, isConnectionAllowed settings tenant (sv_metrics (lib_services l)))
  else mret true.

(** A bridge is known by the broker at its other end, a client by its identifiers. *)
Definition core_onPublishMessage (sourceContext : mosquitto) (topic : string) (certHashes : list string) : EX bool :=
  if c_is_bridge sourceContext then
    b ← bridge_id sourceContext;
    call (onPublishMessage settings b.2 b.2 true (c_dxl_flags sourceContext) topic certHashes)
  else
    id ← call (deref (λ _, c_id sourceContext));
    canonical ← call (deref (λ _, c_canonical_id sourceContext));
    call (onPublishMessage settings id canonical false (c_dxl_flags sourceContext) topic certHashes).

Definition core_onStoreMessage (sourceContext : option mosquitto) (message : msg_store) (certHashes : list string) (certChain : option string)
    : EX (option string) :=
  let isMultiTenant := set_multiTenantModeEnabled settings in
  let store (sourceId canonicalSourceId : string) (isBridge : bool) (flags : Z) (tenant : string) (certHashes : list string) (certChain : option string) :=
    topic ← call (deref (λ _, msg_topic (s_msg message)));
    call (onStoreMessage settings isInfoEnabled other_store_handlers (s_db_id message) sourceId canonicalSourceId isBridge flags topic
            (payload_string (msg_payload (s_msg message))) tenant certHashes certChain) in
  match sourceContext with
  | None =>
    if String.eqb (s_source_id message) "" then
      let guid := set_guid settings in
      if isMultiTenant then store guid guid true DXL_FLAG_OPS (set_tenantGuid settings) certHashes certChain
      else store guid guid true 0 "" certHashes certChain
    else throw
  | Some c =>
    if c_is_bridge c then
      b ← bridge_id c;
      let flags := if isMultiTenant then Z.land (c_dxl_flags c) (Z.lxor 255 DXL_FLAG_OPS) else c_dxl_flags c in
      store b.2 b.2 true flags "" [] None
    else
      canonical ← call (deref (λ _, c_canonical_id c));
      store (s_source_id message) canonical false (c_dxl_flags c) (if isMultiTenant then default "" (c_dxl_tenant_guid c) else "") certHashes certChain
  end.

Definition core_onPreInsertPacketQueueExceeded (destContext : mosquitto) (message : msg_store) : EX bool :=
  if c_is_bridge destContext then bridge_id destContext;; call (onPreInsertPacketQueueExceeded settings true (s_db_id message))
  else call (onPreInsertPacketQueueExceeded settings false (s_db_id message)).

Definition core_onInsertMessage (destContext : mosquitto) (message : msg_store) (certHashes : list string) (out : client_out) : EX (bool * client_out) :=
  let tenant := default "" (c_dxl_tenant_guid destContext) in
  if c_is_bridge destContext then
    b ← bridge_id destContext;
    call (onInsertMessage settings b.2 b.2 true (c_dxl_flags destContext) (s_db_id message) tenant certHashes out)
  else
    id ← call (deref (λ _, c_id destContext));
    canonical ← call (deref (λ _, c_canonical_id destContext));
    call (onInsertMessage settings id canonical false (c_dxl_flags destContext) (s_db_id message) tenant certHashes out).

(** ** Maintenance ([CoreInterface::onCoreMaintenance])

    The listeners, in the order in which they were added. *)

Context (m_maintListeners : list (Z → EX ())).
Fixpoint notify_listeners (time : Z) (listeners : list (Z → EX ())) : EX () :=
  match listeners with
  | [] => mret tt
  | f :: listeners' => f time;; notify_listeners time listeners'
  end.
Definition core_onCoreMaintenance (time : Z) : EX () :=
  last ← call (gets lib_lastLocalBrokerStateSend);
  (if (0 <? last) && (set_brokerTtlMins settings * 60 <=? time - last) then sendLocalBrokerStateEvent settings else mret tt);;
  notify_listeners time m_maintListeners.
(** Those of this development. *)
Definition registry_listener (time : Z) : EX () := call (on_fabric (onCoreMaintenance settings time)).
Definition services_listener (time : Z) : EX () := call (on_services (svc_onCoreMaintenance settings isInfoEnabled time)).
Definition messages_listener (time : Z) : EX () := call (messages_onCoreMaintenance settings time).

(** ** The functions of [dxl.h]

    An exception is logged, and the answer is the safe one. [tls] is what OpenSSL
    tells of the connection, if it is encrypted: version, cipher, thumbprint. *)

Definition collectConnectionInfo (context : mosquitto) (tls : option (string * string * string)) : ClientConnectionInfo :=
  let '(version, cipher, thumbprint) := default ("", "", "") tls in
  mk_ClientConnectionInfo version cipher thumbprint (default "" (c_address context)) (if c_wsi context then "websocket" else "mqtt").

Definition unnamed (context : mosquitto) : bool := bool_decide (c_id context = None).
Definition lib_is_bridge_connect_allowed (context : mosquitto) : ST Library bool :=
  if unnamed context || negb (c_is_bridge context) then mret true
  else catch (b ← bridge_id context; bridge_connect_allowed settings b.2) (mret false).
Definition lib_on_bridge_connected (context : mosquitto) : ST Library () :=
  if unnamed context || negb (c_is_bridge context) then mret tt
  else catch (b ← bridge_id context; onBridgeConnected settings b.1 b.2) (mret tt).
Definition lib_on_bridge_disconnected (context : mosquitto) : ST Library () :=
  if negb (c_is_bridge context) || bool_decide (c_state context = mosq_cs_new) || unnamed context then mret tt
  else catch (b ← bridge_id context; onBridgeDisconnected settings b.2) (mret tt).
Definition lib_on_client_connected (context : mosquitto) (tls : option (string * string * string)) : ST Library () :=
  if unnamed context || c_is_bridge context then mret tt
  else
    id ← deref (λ _, c_id context);
    catch (onClientConnected settings id (collectConnectionInfo context tls);; call (core_updateTenantConnectionCount context 1)) (mret tt).
Definition lib_on_client_disconnected (context : mosquitto) : ST Library () :=
  if c_is_bridge context || bool_decide (c_state context = mosq_cs_new) || unnamed context then mret tt
  else
    id ← deref (λ _, c_id context);
    catch (onClientDisconnected settings id;; call (core_updateTenantConnectionCount context (-1))) (mret tt).
Definition lib_on_publish_message (sourceContext : mosquitto) (topic : string) (certHashes : list string) : ST Library bool :=
  catch (core_onPublishMessage sourceContext topic certHashes) (mret false).
Definition lib_on_store_message (sourceContext : option mosquitto) (message : msg_store) (certHashes : list string) (certChain : option string)
    : ST Library (option string) := catch (core_onStoreMessage sourceContext message certHashes certChain) (mret None).
Definition lib_on_pre_insert_message_packet_queue_exceeded (destContext : mosquitto) (message : msg_store) : ST Library bool :=
  catch (core_onPreInsertPacketQueueExceeded destContext message) (mret true).
Definition lib_on_insert_message (destContext : mosquitto) (message : msg_store) (certHashes : list string) (out : client_out) : ST Library (bool * client_out) :=
  catch (core_onInsertMessage destContext message certHashes out) (mret (false, out)).
Definition lib_on_maintenance (time : Z) : ST Library () := catch (core_onCoreMaintenance time) (mret tt).
Definition lib_on_topic_added_to_broker (topic : string) : ST Library () := catch (onTopicAddedToBroker settings topic) (mret tt).
Definition lib_on_topic_removed_from_broker (topic : string) : ST Library () := catch (onTopicRemovedFromBroker settings topic) (mret tt).
End glue.
