(* ===== verification/CoreGlueProofs.v ===== *)
(** * The two ends of a bridge

    The child of a bridge calls itself by its host, its own identifier and those of
    the brokers it may connect to ([getBridgeId]); from that name and its current
    address the child finds the broker it is connected to, and the parent finds the
    child. *)

From S2P Require Import Prelude Topic State CoreUtil Authorization Fabric TopicCache Registry Metrics Services Configuration DxlMessages MessageCore MessageService CoreInterface MessageHandlers CoreGlue.
From stdpp Require Import options.

(** ** Searching *)

Definition lacks (c : ascii) (s : string) : Prop := around_first c s = None.
Lemma after_last_app c s t : after_last c t = None → after_last c (s +:+ String c t) = Some t.
Proof. intros Ht. induction s as [|a s IH]; [rewrite str_app_nil_l|rewrite str_app_cons]; cbn [after_last]; [by rewrite Ht, Ascii.eqb_refl|]. by rewrite IH. Qed.
Lemma lacks_after_last c s : lacks c s → after_last c s = None.
Proof.
  unfold lacks. induction s as [|a s IH]; cbn; [done|]. destruct (Ascii.eqb a c); [done|]. destruct (around_first c s); [done|]. by rewrite IH.
Qed.
Lemma around_first_app c s t : lacks c s → around_first c (s +:+ String c t) = Some (s, t).
Proof.
  unfold lacks. induction s as [|a s IH]; [rewrite str_app_nil_l|rewrite str_app_cons]; cbn [around_first]; [by rewrite Ascii.eqb_refl|]. destruct (Ascii.eqb a c); [done|].
  destruct (around_first c s); [done|]. by rewrite IH.
Qed.
Lemma lacks_app c s t : lacks c s → lacks c t → lacks c (s +:+ t).
Proof.
  unfold lacks. intros Hs Ht. induction s as [|a s IH]; [done|]. rewrite str_app_cons. cbn [around_first] in *. destruct (Ascii.eqb a c); [done|]. destruct (around_first c s); [done|]. by rewrite IH.
Qed.

Lemma prefix_self s : String.prefix s s = true.
Proof. induction s as [|a s IH]; cbn; [done|]. by destruct (ascii_dec a a). Qed.

(** ** Names of bridges *)

(** An identifier without the delimiters. *)
Definition plain (s : string) : Prop := s ≠ "" ∧ lacks "."%char s ∧ lacks ":"%char s.
Fixpoint candidates (brokers : list CoreBroker) : string :=
  match brokers with [] => "" | b :: brokers' => String ":" (co_guid b +:+ candidates brokers') end.
Lemma getBridgeId_candidates c : cf_brokers c ≠ [] → getBridgeId c = cf_guid c +:+ candidates (cf_brokers c).
Proof.
  intros Hne. unfold getBridgeId, isEnabled. rewrite bool_decide_eq_true_2 by done. generalize (cf_guid c) as s.
  induction (cf_brokers c) as [|b l IH]; intros s; cbn [foldl candidates]; [by rewrite str_app_nil_r|].
  destruct l as [|b' l]; [cbn [foldl candidates]; by rewrite str_app_nil_r, str_app_assoc|]. rewrite IH by done. by rewrite !str_app_assoc, !str_app_cons, !str_app_nil_l.
Qed.
Lemma candidates_nodot l : Forall (λ b, plain (co_guid b)) l → lacks "."%char (candidates l).
Proof. induction 1 as [|b l (_ & Hd & _) _ IH]; [done|]. cbn [candidates]. apply (lacks_app _ ":"); [done|]. by apply lacks_app. Qed.

(** The candidate at the current address, up to the next delimiter. *)
Lemma candidate_at l i b : Forall (λ b, plain (co_guid b)) l → l !! i = Some b →
  ∃ rest, around_first ":"%char (candidates l) = Some ("", rest) ∧ ∃ start, behind ":"%char i rest = Some start ∧
    from_option fst start (around_first ":"%char start) = co_guid b.
Proof.
  intros Hl. revert i. induction Hl as [|b' l (_ & _ & Hb) Hl IH]; intros [|i]; cbn [lookup list_lookup]; try done.
  - intros [= ->]. eexists. split; [done|]. eexists. split; [done|]. destruct l as [|b' l]; cbn [candidates].
    + by rewrite str_app_nil_r, Hb.
    + by rewrite (around_first_app ":"%char (co_guid b)).
  - intros Hi. destruct (IH i Hi) as (rest & Hr & start & Hs & Hf). eexists. split; [done|]. destruct l as [|b'' l]; [done|].
    exists start. split; [|done]. cbn [behind candidates]. rewrite (around_first_app ":"%char (co_guid b')) by done. cbn [mbind option_bind].
    cbn in Hr. injection Hr as <-. done.
Qed.

(** C32: both ends of a bridge know each other. The context of the bridge has the same
    name on both sides, the one that the child makes of its host and its
    configuration; with identifiers that hold no dot and no colon, and that are not
    prefixes of each other, the child finds the broker whose address it is using, and
    that broker finds the child, whatever addresses and parents come before. *)
Theorem bridge_ends_agree config host child parent b e :
  plain (cf_guid config) → Forall (λ b, plain (co_guid b)) (cf_brokers config) →
  c_is_bridge child = true → c_is_bridge parent = true → c_bridge child = Some b →
  c_id child = Some (host +:+ "." +:+ getBridgeId config) → c_id parent = c_id child →
  cf_brokers config !! Z.to_nat (b_cur_address b) = Some e → String.prefix (cf_guid config) (co_guid e) = false →
  getBridgeBrokerIdFromContext (cf_guid config) child = Some (true, co_guid e) ∧
  getBridgeBrokerIdFromContext (co_guid e) parent = Some (false, cf_guid config).
Proof.
  intros (Hg & Hgd & Hgc) Hall Hchild Hparent Hb Hid Hsame He Hprefix. rewrite Hid in Hsame.
  destruct (candidate_at _ _ _ Hall He) as (rest & Hrest & start & Hstart & Hguid).
  assert (co_guid e ≠ "") as Hne by (apply (proj1 (Forall_forall _ _) Hall e); by eapply list_elem_of_lookup_2).
  rewrite getBridgeId_candidates in Hid, Hsame by (by intros Hnil; rewrite Hnil in He).
  assert (∃ rest, candidates (cf_brokers config) = String ":" rest) as (rest' & Hc) by (destruct (cf_brokers config); [done|by eexists]).
  assert (lacks "."%char (cf_guid config +:+ candidates (cf_brokers config))) as Hnodot by (apply lacks_app; [done|by apply candidates_nodot]).
  unfold getBridgeBrokerIdFromContext. rewrite Hchild, Hparent, Hid, Hsame, Hb. cbn [negb mbind option_bind]. rewrite str_app_cons, str_app_nil_l.
  rewrite after_last_app by (by apply lacks_after_last). rewrite Hc in Hrest |- *. cbn in Hrest. injection Hrest as <-.
  cbn [mbind option_bind]. rewrite around_first_app by done. cbn [mbind option_bind].
  assert (String.substring 0 (String.length (cf_guid config)) (cf_guid config) = cf_guid config) as Hself by (apply String.prefix_correct, prefix_self).
  assert (String.substring 0 (String.length (cf_guid config)) (co_guid e) ≠ cf_guid config) as Hother by (rewrite <-String.prefix_correct; congruence).
  apply String.eqb_neq in Hother, Hg, Hne. rewrite Hself, String.eqb_refl, Hother. cbn [negb mbind option_bind snd]. rewrite Hg. split; [|done].
  rewrite Hstart. cbn [mbind option_bind]. rewrite Hguid. cbn [snd]. by rewrite Hne.
Qed.
