(* ===== verification/CoreGlueExamples.v ===== *)
(** * A bridge with two possible parents

    The child uses the second address; the theorem on the two ends applied to it,
    and an identifier that the code takes for another. *)

From S2P Require Import Prelude Topic State CoreUtil Authorization Fabric TopicCache Registry Metrics Services Configuration DxlMessages MessageCore MessageService CoreInterface MessageHandlers CoreGlue CoreGlueProofs Contexts.
From stdpp Require Import options.

Definition two_parents : CoreBridgeConfiguration :=
  mk_CoreBridgeConfiguration [mk_CoreBroker "{P}" "parent.example" 8883; mk_CoreBroker "{Q}" "10.0.0.2" 8883] "{L}" 8883 "here" "10.0.0.9" "Site" 0.
Definition second_address : bridge :=
  mk_bridge 0 1 "{L}:{P}:{Q}" [] 0 0 false true [] false 0 bst_automatic 60 10 false true false None <| b_cur_address := 1 |>.
(** The context of the bridge at one of its ends. *)
Definition bridge_end (name : string) (b : option bridge) : mosquitto :=
  context_new 5 1000 1000 None <| c_is_bridge := true |> <| c_id := Some name |> <| c_bridge := b |>.

Lemma bridge_ends_agree_witness :
  getBridgeBrokerIdFromContext "{L}" (bridge_end "host.example.{L}:{P}:{Q}" (Some second_address)) = Some (true, "{Q}") ∧
  getBridgeBrokerIdFromContext "{Q}" (bridge_end "host.example.{L}:{P}:{Q}" None) = Some (false, "{L}").
Proof.
  apply (bridge_ends_agree two_parents "host.example" _ _ second_address (mk_CoreBroker "{Q}" "10.0.0.2" 8883)).
  - by split_and!.
  - repeat (apply Forall_cons; split; [by split_and!|]). apply Forall_nil_2.
  - reflexivity.
  - reflexivity.
  - reflexivity.
  - reflexivity.
  - reflexivity.
  - reflexivity.
  - reflexivity.
Defined.

(** Only as many characters are compared as the child's identifier has: a parent whose
    identifier starts with it takes itself for the child, and has no address to look up. *)
Example ex_prefix : getBridgeBrokerIdFromContext "{L}2" (bridge_end "host.{L}:{L}2" None) = None.
Proof. reflexivity. Qed.
