(* ===== verification/Bridge.v ===== *)
(** * Outgoing bridges

    [src/bridge.c], and the keepalive of [lib/util_mosq.c]: the contexts
    through which this broker connects to another one. *)

From S2P Require Import Prelude Topic State Packet Database Subs Queue Contexts.
From stdpp Require Import options.

Section bridges.
Context `{Env}.

Definition mqtt3_set_default_bridge_keepalive (keepalive : Z) : ST world () :=
  modify (λ w, w <| w_default_bridge_keepalive := keepalive |>).

(** Writing through [context->bridge]. *)
Definition bridge_get (p : ctxid) : ST world bridge := c ← ctx_get p; deref (λ _, c_bridge c).
Definition bridge_upd (p : ctxid) (f : bridge → bridge) : ST world () :=
  ctx_upd p (λ c, c <| c_bridge ::= fmap f |>).

(** A context for the bridge; the connection itself is left to the
    maintenance loop. *)
Definition mqtt3_bridge_new (b : bridge) : ST world Z :=
  hostname ← gets (λ w, env_gethostname (w_env w));
  match (match b_clientid b with
         | Some id => Some id
         | None => (λ h, h +:+ "." +:+ b_name b) <$> hostname
         end) with
  | None => mret 1
  | Some id =>
    new ← mqtt3_context_init (-1);
    match new with
    | None => mret MOSQ_ERR_NOMEM
    | Some p =>
      l ← gets w_contexts;
      let null_index := Z.of_nat (first_gap l) in
      modify (λ w, w <| w_contexts := contexts_with p l |>);;
      mosquitto_add_new_clients_set p;;
      ctx_upd p (λ c, c <| c_canonical_id := Some id |> <| c_id := Some id |>
        <| c_numericId := null_index |> <| c_db_index := null_index |>
        <| c_bridge := Some (b <| b_try_private_accepted := true |>) |> <| c_is_bridge := true |>);;
      mret MOSQ_ERR_NO_CONN
    end
  end.

Definition mqtt3_bridge_packet_cleanup (p : ctxid) : ST world () :=
  ctx_upd p (λ c, c <| c_current_out_packet := None |> <| c_out_packet := [] |> <| c_packet_count := 0 |>
    <| c_in_packet ::= _mosquitto_packet_cleanup |>).

(** The local subscriptions of a bridge. *)
Fixpoint bridge_subscribe (p : ctxid) (topics : list bridge_topic) : ST world bool :=
  match topics with
  | [] => mret true
  | t :: topics' =>
    if bool_decide (bt_direction t = bd_out ∨ bt_direction t = bd_both) then
      rc ← mqtt3_sub_add p (bt_local_topic t) (bt_qos t);
      if rc =? 0 then bridge_subscribe p topics' else mret false
    else bridge_subscribe p topics'
  end.

(** The context starts over: nothing queued to be written, the messages made
    ready for retransmission, the subscriptions of the session dropped. *)
Definition bridge_restart (p : ctxid) : ST world () :=
  ctx_upd p (λ c, c <| c_state := mosq_cs_new |> <| c_sock := -1 |>);;
  t_in ← mosquitto_time;
  t_out ← mosquitto_time;
  keepalive ← gets w_default_bridge_keepalive;
  b ← bridge_get p;
  ctx_upd p (λ c, c <| c_last_msg_in := t_in |> <| c_last_msg_out := t_out |>
    <| c_keepalive := u16 keepalive |> <| c_clean_session := b_clean_session b |>
    <| c_in_packet ::= λ k, k <| p_payload := None |> |> <| c_ping_t := 0 |>
    <| c_bridge ::= fmap (λ b, b <| b_lazy_reconnect := false |>) |> <| c_epoll_events := 0 |>);;
  mqtt3_bridge_packet_cleanup p;;
  mqtt3_db_message_reconnect_reset p;;
  (if b_clean_session b then mqtt3_db_messages_delete p;; mret tt else mret tt);;
  ctx_upd p (λ c, c <| c_clean_subs := true |>);;
  mqtt3_subs_clean_session;;
  ctx_upd p (λ c, c <| c_clean_subs := false |>).

Definition mqtt3_bridge_connect (p : ctxid) : ST world Z :=
  c ← ctx_get p;
  if bool_decide (c_bridge c = None) then mret MOSQ_ERR_INVAL
  else
    bridge_restart p;;
    b ← bridge_get p;
    ok ← bridge_subscribe p (b_topics b);
    if negb ok then mret 1
    else
      addr ← deref (λ _, b_addresses b !! Z.to_nat (b_cur_address b));
      r ← ext (env_socket_connect addr.1 addr.2);
      let '(rc, sock, ssl, want_write) := r in
      if negb (rc =? MOSQ_ERR_SUCCESS) then
        ctx_upd p (λ c, c <| c_ssl := ssl |>);; mret rc
      else
        ctx_upd p (λ c, c <| c_sock := sock |> <| c_ssl := ssl |> <| c_want_write ::= orb want_write |>);;
        c ← ctx_get p;
        rc ← _mosquitto_send_connect p (c_keepalive c) (c_clean_session c);
        enotconn ← gets (λ w, env_errno_enotconn (w_env w));
        if (rc =? MOSQ_ERR_SUCCESS) || (rc =? MOSQ_ERR_ERRNO) && enotconn then mret MOSQ_ERR_SUCCESS
        else _mosquitto_socket_close p;; mret rc.

(** [_mosquitto_check_keepalive] ([lib/util_mosq.c]). *)
Definition _mosquitto_check_keepalive (p : ctxid) : ST world () :=
  now ← mosquitto_time;
  c ← ctx_get p;
  if match c_bridge c with
     | Some b => bool_decide (b_start_type b = bst_lazy) && negb (c_sock c =? INVALID_SOCKET)
                 && (b_idle_timeout b <=? now - c_last_msg_out c)
     | None => false
     end then _mosquitto_socket_close p;; mret tt
  else if negb (c_keepalive c =? 0) && negb (is_context_invalid c)
          && ((c_keepalive c <=? now - c_last_msg_out c) || (c_keepalive c <=? now - c_last_msg_in c)) then
    if bool_decide (c_state c = mosq_cs_connected) && (c_ping_t c =? 0) then
      _mosquitto_send_pingreq p;;
      ctx_upd p (λ c, c <| c_last_msg_in := now |> <| c_last_msg_out := now |>)
    else
      listener_leave (c_listener c);;
      ctx_upd p (λ c, c <| c_listener := None |>);;
      _mosquitto_socket_close p;; mret tt
  else mret tt.
End bridges.
