(* ===== verification/Loop.v ===== *)
(** * The event loop

    The parts of [src/loop.c] that act on the contexts: writing queued
    messages, the maintenance pass with its keepalive checks, bridge restarts
    and session cleaning, and the reaction to a socket's events. *)

From S2P Require Import Prelude Topic State Packet Database Subs Queue Contexts Handlers Connect PacketRead.
From S2P Require Import Bridge.
From stdpp Require Import options.

Definition dxl_check_connect_nothing : Z := 0.
Definition dxl_check_connect_has_result : Z := 2.
Definition EPOLLERR : Z := 0x8.
Definition EPOLLHUP : Z := 0x10.

(** The entry behind [p] in a hash's insertion order. *)
Fixpoint next_in (p : ctxid) (l : list ctxid) : option ctxid :=
  match l with
  | [] => None
  | q :: l' => if bool_decide (q = p) then head l' else next_in p l'
  end.

(** The keepalive ran out: [keepalive * 3 / 2] seconds without a packet. *)
Definition exceeded_timeout (c : mosquitto) (now : Z) : bool := c_keepalive c * 3 / 2 <=? now - c_last_msg_in c.

Section loops.
Context `{Env}.
(** The identifiers [dxl_check_connection_create_id] gave the two probes. *)
Variables check_connection_id primary_connection_id : Z.

(** [HASH_ITER]: the entry behind the current one is fetched before the body
    runs, and must still be there afterwards. *)
Fixpoint hash_iter (fuel : nat) (hash : world → list ctxid) (body : ctxid → ST world ()) (el : ctxid)
    (tmp : option ctxid) : ST world () :=
  match fuel with
  | O => ub
  | S fuel' =>
    body el;;
    match tmp with
    | None => mret tt
    | Some q =>
      l ← gets hash;
      assert_ (bool_decide (q ∈ l));;
      hash_iter fuel' hash body q (next_in q l)
    end
  end.
Definition hash_for (fuel : nat) (hash : world → list ctxid) (body : ctxid → ST world ()) : ST world () :=
  l ← gets hash;
  match l with [] => mret tt | el :: _ => hash_iter fuel hash body el (next_in el l) end.

(** ** Writing *)

Definition write_context_messages (p : ctxid) (now : Z) : ST world () :=
  c ← ctx_get p;
  if (c_keepalive c =? 0) || bool_decide (is_Some (c_bridge c)) || negb (exceeded_timeout c now) then
    rc ← mqtt3_db_message_write p;
    if rc =? MOSQ_ERR_SUCCESS then mret tt else mqtt3_context_disconnect p
  else mqtt3_context_disconnect p.

(** A new client is registered with epoll. *)
Definition register_client (p : ctxid) : ST world () :=
  c ← ctx_get p;
  (if c_sock c =? INVALID_SOCKET then mret tt else mosquitto_update_context (c_numericId c) p);;
  remove_new_clients_set p.
(** A client with new messages is written to. *)
Definition write_client (p : ctxid) : ST world () :=
  c ← ctx_get p;
  if is_context_invalid c then mret tt
  else
    now ← mosquitto_time;
    write_context_messages p now;;
    c ← ctx_get p;
    match c_msgs c with [] => remove_new_msgs_set p | _ :: _ => mret tt end.
Definition write_message_loop (fuel : nat) : ST world () :=
  new_client ← gets w_new_client;
  (if (new_client : bool) then
     hash_for fuel w_new_clients_hash register_client;;
     modify (λ w, w <| w_new_client := false |>)
   else mret tt);;
  hash_for fuel w_new_msgs_hash write_client.

(** ** Cleaning sessions *)

Definition resize_sessions_to_clean : ST world () :=
  n ← gets (λ w, length (w_contexts w));
  l ← gets w_sessions_to_clean;
  if bool_decide (length l < n)%nat then modify (λ w, w <| w_sessions_to_clean := replicate n None |>) else mret tt.

(** [sessions_to_clean[i] = ctx]. *)
Definition set_session_to_clean (i : nat) (ctx : option ctxid) : ST world () :=
  l ← gets w_sessions_to_clean;
  assert_ (bool_decide (i < length l)%nat);;
  modify (λ w, w <| w_sessions_to_clean ::= <[i := ctx]> |>).

(** [n] entries of the array are left, from entry [i] on. *)
Fixpoint clean_sessions_loop (n i : nat) (cleaned_subs : bool) : ST world () :=
  match n with
  | O => mret tt
  | S n' =>
    l ← gets w_sessions_to_clean;
    match mjoin (l !! i) with
    | None => mret tt
    | Some ctx =>
      (if cleaned_subs then mret tt else mqtt3_subs_clean_session;; mret tt);;
      mosquitto_remove_context ctx;;
      remove_new_msgs_set ctx;;
      c ← ctx_get ctx;
      mqtt3_context_cleanup ctx true false;;
      contexts ← gets w_contexts;
      assert_ ((0 <=? c_numericId c) && (c_numericId c <? Z.of_nat (length contexts)));;
      modify (λ w, w <| w_contexts ::= <[Z.to_nat (c_numericId c) := None]> |>);;
      set_session_to_clean i None;;
      clean_sessions_loop n' (S i) true
    end
  end.
Definition clean_sessions : ST world () :=
  l ← gets w_sessions_to_clean; clean_sessions_loop (length l) 0 false.

Definition clean_session (ctx_idx : nat) : ST world () :=
  resize_sessions_to_clean;;
  l ← gets w_sessions_to_clean;
  match l with
  | [] => mret tt
  | _ :: _ =>
    contexts ← gets w_contexts;
    p ← deref (λ _, mjoin (contexts !! ctx_idx));
    set_session_to_clean 0 (Some p);;
    ctx_upd p (λ c, c <| c_clean_subs := true |>);;
    clean_sessions
  end.

(** ** Bridges *)

(** [cur_address++], around the list of addresses. *)
Definition next_address (b : bridge) : bridge :=
  b <| b_cur_address ::= λ n, if n + 1 =? Z.of_nat (length (b_addresses b)) then 0 else n + 1 |>.
(** Failing over to a secondary address sets the time to look for a primary. *)
Definition failover (now : Z) (b : bridge) : bridge :=
  let b := next_address (b <| b_restart_t := 1 |>) in
  if negb (b_round_robin b) && (b_primary_address_count b <=? b_cur_address b)
  then b <| b_primary_retry := now + 5 |> else b.

(** The outcome of the probe of an address: nothing yet, not for this
    address, or its result code. *)
Definition check_connection (id : Z) (addr : string * Z) : ST world (bool * option Z) :=
  status ← ext (dxl_check_connection_get_status id);
  if status =? dxl_check_connect_nothing then
    ext_ (dxl_check_connection_push id addr.1 addr.2);; mret (false, None)
  else if status =? dxl_check_connect_has_result then
    result ← ext (dxl_check_connection_pop id);
    mret (match result with
          | Some (host, port, rc) => (true, if String.eqb addr.1 host && (addr.2 =? port) then Some rc else None)
          | None => (false, None)
          end)
  else mret (false, None).

Definition restart_bridge_connection (p : ctxid) (now ctx_idx : Z) : ST world () :=
  b ← bridge_get p;
  (if b_restart_t b =? 0 then bridge_upd p (failover now) else mret tt);;
  b ← bridge_get p;
  (if bool_decide (b_start_type b = bst_lazy) && b_lazy_reconnect b then
     rc ← mqtt3_bridge_connect p;
     if rc =? 0 then mret tt else bridge_upd p next_address
   else mret tt);;
  b ← bridge_get p;
  if bool_decide (b_start_type b = bst_automatic) && (b_restart_t b <? now) then
    mosquitto_remove_context p;;
    addr ← deref (λ _, b_addresses b !! Z.to_nat (b_cur_address b));
    r ← check_connection check_connection_id addr;
    let '(popped, result) := r in
    (if (popped : bool) then bridge_upd p (λ b, b <| b_restart_t := 0 |>) else mret tt);;
    if bool_decide (result = Some MOSQ_ERR_SUCCESS) then
      rc ← mqtt3_bridge_connect p;
      if rc =? MOSQ_ERR_SUCCESS then mosquitto_update_context ctx_idx p else mret tt
    else mret tt
  else mret tt.

(** A bridge on a secondary address looks for its primaries: one that answers
    becomes the address of the next attempt. *)
Definition checkPrimaryBridge (now : Z) (p : ctxid) : ST world () :=
  b ← bridge_get p;
  if negb (b_round_robin b) && (b_primary_address_count b <=? b_cur_address b) && (b_primary_retry b <? now) then
    let cur := b_cur_primary_address b in
    addr ← deref (λ _, b_addresses b !! Z.to_nat cur);
    r ← check_connection primary_connection_id addr;
    match snd r with
    | None => mret tt
    | Some rc =>
      if rc =? MOSQ_ERR_SUCCESS then
        c ← ctx_get p;
        ext_ (dxl_on_bridge_disconnected c);;
        _mosquitto_socket_close p;;
        bridge_upd p (λ b, b <| b_cur_address :=
          if cur =? 0 then Z.of_nat (length (b_addresses b)) - 1 else cur - 1 |>)
      else
        bridge_upd p (λ b, b <| b_cur_primary_address :=
          if b_primary_address_count b <=? cur + 1 then 0 else cur + 1 |>)
    end
  else mret tt.

(** ** The maintenance pass *)

(** One context with a connection. *)
Definition maintain_connected (p : ctxid) (now : Z) : ST world () :=
  c ← ctx_get p;
  (if bool_decide (is_Some (c_bridge c)) then
     _mosquitto_check_keepalive p;;
     c ← ctx_get p;
     (if c_sock c =? INVALID_SOCKET then ext_ (dxl_on_bridge_disconnected c) else mret tt);;
     checkPrimaryBridge now p
   else mret tt);;
  c ← ctx_get p;
  if bool_decide (c_bridge c = None) && negb (c_keepalive c =? 0) && exceeded_timeout c now
  then mqtt3_context_disconnect p else mret tt.

(** One context without: a bridge is restarted, a clean session marked. *)
Definition maintain_disconnected (p : ctxid) (now : Z) (i clean_session_index : nat) : ST world nat :=
  c ← ctx_get p;
  if bool_decide (is_Some (c_bridge c)) then
    restart_bridge_connection p now (Z.of_nat i);; mret clean_session_index
  else if c_clean_session c then
    set_session_to_clean clean_session_index (Some p);;
    ctx_upd p (λ c, c <| c_clean_subs := true |>);;
    mret (S clean_session_index)
  else mret clean_session_index.

Fixpoint maintenance_contexts (n i clean_session_index : nat) : ST world nat :=
  match n with
  | O => mret clean_session_index
  | S n' =>
    contexts ← gets w_contexts;
    match mjoin (contexts !! i) with
    | None => maintenance_contexts n' (S i) clean_session_index
    | Some p =>
      now ← mosquitto_time;
      c ← ctx_get p;
      clean_session_index ← (if is_context_invalid c then maintain_disconnected p now i clean_session_index
                             else maintain_connected p now;; mret clean_session_index);
      c ← ctx_get p;
      retry_interval ← gets (λ w, cfg_retry_interval (w_config w));
      (match c_msgs c with
       | [] => mret tt
       | _ :: _ => mqtt3_db_message_timeout_check p retry_interval;; mret tt
       end);;
      maintenance_contexts n' (S i) clean_session_index
    end
  end.

Definition maintenance_loop : ST world () :=
  resize_sessions_to_clean;;
  contexts ← gets w_contexts;
  clean_session_index ← maintenance_contexts (length contexts) 0 0;
  if (0 <? clean_session_index)%nat then clean_sessions else mret tt.

(** ** Socket events *)

Definition do_disconnect (context_index : nat) : ST world () :=
  l ← gets w_contexts;
  p ← deref (λ _, mjoin (l !! context_index));
  mqtt3_context_disconnect p.

Definition handle_write (p : ctxid) (events contextId : Z) : ST world () :=
  c ← ctx_get p;
  if c_sock c =? INVALID_SOCKET then mret tt
  else if negb (Z.land events EPOLLOUT =? 0) || c_want_write c
          || c_ssl c && bool_decide (c_state c = mosq_cs_new) then
    rc ← _mosquitto_packet_write p;
    (if rc =? 0 then mret tt else mqtt3_context_disconnect p);;
    mosquitto_update_context contextId p
  else mret tt.

(** [events] is [None] for the NULL event of a context with pending bytes. *)
Definition handle_read (p : ctxid) (events : option Z) : ST world () :=
  c ← ctx_get p;
  if c_sock c =? INVALID_SOCKET then mret tt
  else if match events with None => true | Some e => negb (Z.land e EPOLLIN =? 0) end
          || c_ssl c && bool_decide (c_state c = mosq_cs_new) then
    rc ← _mosquitto_packet_read p None;
    if rc =? 0 then mret tt else mqtt3_context_disconnect p
  else mret tt.

(** The contexts with undelivered TLS bytes are read first. *)
Definition handle_pending (fuel : nat) : ST world () := hash_for fuel w_pending_bytes_hash (λ p, handle_read p None).

(** An event of a client's socket. *)
Definition handle_event (contextid : nat) (events : Z) : ST world () :=
  l ← gets w_contexts;
  assert_ (bool_decide (contextid < length l)%nat);;
  match mjoin (l !! contextid) with
  | None => mret tt
  | Some p =>
    handle_write p events (Z.of_nat contextid);;
    handle_read p (Some events);;
    c ← ctx_get p;
    if negb (c_sock c =? INVALID_SOCKET)
       && negb (Z.land events (Z.lor (Z.lor EPOLLHUP EPOLLRDHUP) EPOLLERR) =? 0)
    then do_disconnect contextid else mret tt
  end.
End loops.
