(* ===== verification/EventSafe.v ===== *)
(** * Socket events

    [handle_event] of the loop on any event of a client's socket, whatever the socket
    delivers and however much it takes: the broker stays sound. *)

From S2P Require Import Prelude Topic State Packet PacketProofs Writer Database DatabaseProofs StoreProofs Subs SubsProofs SubscribeProofs SubsClaims PublishProofs Queue Contexts ContextProofs.
From S2P Require Import UnsubscribeProofs Handlers HandlerProofs SubscribeHandlerProofs Frames HandleSafety Soundness Connect ConnectSafe PacketSafe PacketRead ReadSafe Bridge Loop.
From stdpp Require Import options.

Section events.
Context `{Env} `{!EnvLaws} `{!ReadLaws}.
#[local] Set Default Proof Using "Type*".
Implicit Types p : ctxid.

(** A connection that cannot be trusted is closed, and the broker is sound again. *)
Lemma close_sound x p w c : sound x None w → (∀ q, x = Some q → q = p) → w_ctxs w !! p = Some c → wp (mqtt3_context_disconnect p) (λ _ w', sound None None w') w.
Proof.
  intros Hs Hx Hc. eapply wp_mono; [by eapply disconnect_sound|]. intros _ w' (Hs' & c' & Hc' & Hsock & _).
  eapply sound_settle; [done| |done]. intros q d Hq Hd. rewrite (Hx q Hq) in Hd. assert (d = c') as -> by congruence. by intros [].
Qed.
(** Sending keeps the client where it is, with at least as much room. *)
Lemma wrote_sound p w c w' c' : sound None None w → w_ctxs w !! p = Some c → (∃ e, w' = w <| w_ctxs ::= <[p := c']> |> <| w_env := e |>) → out_only c c' → out_wf c' →
  sound None None w'.
Proof.
  intros Hs Hc [e ->] Ho Hwf. assert (reached p c' w (w <| w_ctxs ::= <[p := c']> |> <| w_env := e |>)) as Hr.
  { split_and!; [|done|done]. etrans; [|apply benign_env]. eapply benign_upd; [done|]. unfold out_only in Ho. unfold ctx_core. by rewrite <-Ho. }
  assert (place c' = place c ∧ c_in_packet c' = c_in_packet c ∧ c_msgs c' = c_msgs c) as (Hpl & Hk & Hm) by (unfold out_only in Ho; unfold place; by rewrite <-Ho).
  eapply (sound_reached None None None None p c c'); [done|done|exact Hr|unfold place in Hpl; unfold slot; congruence| |done].
  apply (place_sound _ _ _ c); [done|done|done|unfold outwards; by rewrite Hm|by eapply sound_context].
Qed.
Lemma out_only_client p w c c' w' : client_at p c w → w_contexts w' = w_contexts w → w_ctxs w' !! p = Some c' → out_only c c' → c_packet_count c' <= c_packet_count c → client_at p c' w'.
Proof.
  intros (Hi & Hc & Hb & Hroom) Ht Hc' Ho Hle. split_and!; [by rewrite Ht|done| |lia]. unfold out_only in Ho. rewrite <-Ho in Hb. by destruct c'.
Qed.

(** What is left to do on a client after part of an event: nothing if it was closed. *)
Definition served_client (p : ctxid) (w : world) : Prop :=
  sound None None w ∧ ∃ c, w_ctxs w !! p = Some c ∧ (c_sock c ≠ INVALID_SOCKET → client_at p c w).

Lemma served_client_lookup p c w : served_client p w → w_ctxs w !! p = Some c → c_sock c ≠ INVALID_SOCKET → client_at p c w.
Proof. intros (_ & d & Hd & Hcl) Hc Hs. assert (d = c) as -> by congruence. by apply Hcl. Qed.

Lemma handle_write_safe p events i w c : sound None None w → client_at p c w → wp (handle_write p events i) (λ _ w', served_client p w') w.
Proof.
  intros Hs Hcl. pose proof Hcl as (Hi & Hc & Hb & Hroom). unfold handle_write. wp_step. eapply wp_ctx_get; [done|]. cbv beta.
  assert (served_client p w) as Hserved by (split; [done|]; by exists c). destruct (_ =? _); [by wp_step|]. destruct (_ || _); [|by wp_step]. wp_step.
  eapply wp_mono; [apply (packet_write_spec p w c Hc); by eapply co_output, so_context|]. intros rc w1 (c1 & (Hw1 & Ho1 & _ & _ & Hle) & Hwf1).
  assert (sound None None w1) as Hs1 by (by eapply wrote_sound). assert (w_ctxs w1 !! p = Some c1 ∧ w_contexts w1 = w_contexts w) as [Hc1 Ht1].
  { destruct Hw1 as [e ->]. split; [apply lookup_insert_eq|done]. }
  pose proof (out_only_client _ _ _ _ _ Hcl Ht1 Hc1 Ho1 Hle) as Hcl1. wp_step. eapply (wp_mono _ (λ _ w', served_client p w')).
  { destruct (rc =? 0); [wp_step; split; [done|by exists c1]|]. eapply wp_mono; [by eapply disconnect_sound|]. intros _ w2 (Hs2 & c2 & Hc2 & Hsock & _).
    split; [done|]. exists c2. by split. }
  intros _ w2 (Hs2 & c2 & Hc2 & Hcl2). eapply wp_update_context; [done|]. intros c3 e Ho3 Hq3 _. split.
  - eapply wrote_sound; [exact Hs2|exact Hc2|by exists e|done|]. by eapply same_queue_wf, so_context.
  - exists c3. split; [apply lookup_set_out|]. intros Hsock. assert (c_sock c2 ≠ INVALID_SOCKET) as Hsock2 by (unfold out_only in Ho3; by rewrite <-Ho3).
    eapply out_only_client; [by apply Hcl2|done|apply lookup_set_out|done|]. destruct Hq3 as (_ & _ & ->). done.
Qed.
Lemma keeps_handle_write p events i : frame keeps (handle_write p events i).
Proof.
  unfold handle_write. keeping; eapply keeps_handled_at; [apply (handled_packet_write None)|apply (handled_update_context None)].
Qed.

Lemma handle_read_safe p events w : served_client p w → wp (handle_read p events) (λ _ w', sound None None w') w.
Proof.
  intros Hsc. pose proof Hsc as (Hs & c & Hc & Hcl). unfold handle_read. wp_step. eapply wp_ctx_get; [done|]. cbv beta.
  destruct (Z.eqb_spec (c_sock c) INVALID_SOCKET) as [|Hsock]; [by wp_step|]. destruct (_ || _); [|by wp_step]. wp_step.
  eapply wp_mono; [by eapply packet_read_safe, Hcl|]. intros rc w1 (Hs1 & [c1 Hc1] & Hok). destruct (Z.eqb_spec rc 0); [wp_step; by apply Hok|].
  eapply close_sound; [done|by intros q [= <-]|done].
Qed.
Lemma keeps_handle_read p events : frame keeps (handle_read p events).
Proof. unfold handle_read. keeping. Qed.

(** Any event on any entry of the table. *)
Definition event_guard (i : nat) (w : world) : Prop :=
  (i < length (w_contexts w))%nat ∧ ∀ p, w_contexts w !! i = Some (Some p) → ∃ c, client_at p c w.

Lemma handle_event_safe i events w : sound None None w → event_guard i w → wp (handle_event i events) (λ _ w', sound None None w') w.
Proof.
  intros Hs [Hi Hcl]. unfold handle_event. do 3 wp_step. wp_step; [by rewrite bool_decide_eq_true_2|].
  destruct (w_contexts w !! i) as [[p|]|] eqn:Hp; [|by apply wp_ret|by apply lookup_ge_None in Hp; lia]. destruct (Hcl p eq_refl) as [c Hc]. cbn [mjoin option_join].
  wp_step. eapply wp_mono; [apply (wp_frame keeps); [apply keeps_handle_write|by eapply handle_write_safe]|]. intros _ w1 [Hsc1 [[Ht1 _] _]].
  wp_step. eapply wp_mono; [apply (wp_frame keeps); [apply keeps_handle_read|by eapply handle_read_safe]|]. intros _ w2 [Hs2 Hk2]. pose proof Hk2 as [[Ht2 _] _].
  assert (is_Some (w_ctxs w2 !! p)) as [c2 Hc2] by (destruct Hsc1 as (_ & c1 & Hc1 & _); by apply (keeps_at_lookup _ _ _ _ Hk2 Hc1)).
  wp_step. eapply wp_ctx_get; [done|]. cbv beta. destruct (_ && _); [|by wp_step]. unfold do_disconnect. do 3 wp_step. eapply wp_deref; [by rewrite Ht2, Ht1, Hp|]. cbv beta.
  by eapply (close_sound None).
Qed.
Lemma keeps_handle_event i events : frame keeps (handle_event i events).
Proof.
  pose proof keeps_handle_write as Hw. pose proof keeps_handle_read as Hr. unfold handle_event, do_disconnect. keeping; eauto.
Qed.
End events.
