(* ===== verification/BridgeProofs.v ===== *)
(** * Bridge addresses

    The address a bridge tries next: always a valid index, and in turn every
    one of the configured addresses. *)

From S2P Require Import Prelude State Bridge Loop.
From stdpp Require Import options.

Lemma next_address_spec b : 0 <= b_cur_address b < Z.of_nat (length (b_addresses b)) →
  b_addresses (next_address b) = b_addresses b ∧
  b_cur_address (next_address b) = (b_cur_address b + 1) mod Z.of_nat (length (b_addresses b)).
Proof.
  intros Hb. split; [done|]. cbn. destruct (Z.eqb_spec (b_cur_address b + 1) (Z.of_nat (length (b_addresses b)))) as [->|Hne].
  - by rewrite Z.mod_same by lia.
  - by rewrite Z.mod_small by lia.
Qed.

Lemma next_address_iter k b : 0 <= b_cur_address b < Z.of_nat (length (b_addresses b)) →
  b_addresses (Nat.iter k next_address b) = b_addresses b ∧
  b_cur_address (Nat.iter k next_address b) = (b_cur_address b + Z.of_nat k) mod Z.of_nat (length (b_addresses b)).
Proof.
  intros Hb. set (n := Z.of_nat (length (b_addresses b))) in *. induction k as [|k [IHa IHc]].
  - split; [done|]. cbn. by rewrite Z.add_0_r, Z.mod_small.
  - rewrite Nat.iter_succ. destruct (next_address_spec (Nat.iter k next_address b)) as [Ha Hc].
    { rewrite IHa, IHc. apply Z.mod_pos_bound. lia. }
    rewrite Ha, Hc, IHa, IHc. split; [done|]. fold n. rewrite Zplus_mod_idemp_l. f_equal. lia.
Qed.

(** A bridge tries all its addresses. From a valid address, failing over
    repeatedly stays within the configured list and reaches each of its
    entries within one round; failing over also sets the time to look for a
    primary address exactly when it ends up on a secondary one and the bridge
    is not round-robin. *)
Theorem failover_visits_all b now :
  0 <= b_cur_address b < Z.of_nat (length (b_addresses b)) →
  (∀ j, (j < length (b_addresses b))%nat → ∃ k, (k < length (b_addresses b))%nat ∧
    b_cur_address (Nat.iter k next_address b) = Z.of_nat j) ∧
  0 <= b_cur_address (failover now b) < Z.of_nat (length (b_addresses (failover now b))) ∧
  b_addresses (failover now b) = b_addresses b ∧
  b_primary_retry (failover now b) =
    (if negb (b_round_robin b) && (b_primary_address_count b <=? b_cur_address (failover now b))
     then now + 5 else b_primary_retry b).
Proof.
  intros Hb. split.
  - intros j Hj. set (n := Z.of_nat (length (b_addresses b))) in *.
    exists (Z.to_nat ((Z.of_nat j - b_cur_address b) mod n)). pose proof (Z.mod_pos_bound (Z.of_nat j - b_cur_address b) n ltac:(lia)).
    split; [lia|]. destruct (next_address_iter (Z.to_nat ((Z.of_nat j - b_cur_address b) mod n)) b Hb) as [_ ->]. fold n.
    rewrite Z2Nat.id by lia. rewrite Zplus_mod_idemp_r. replace (b_cur_address b + (Z.of_nat j - b_cur_address b)) with (Z.of_nat j) by lia.
    apply Z.mod_small. lia.
  - destruct (next_address_spec (b <| b_restart_t := 1 |>) Hb) as [Ha Hc].
    pose proof (Z.mod_pos_bound (b_cur_address b + 1) (Z.of_nat (length (b_addresses b))) ltac:(lia)) as Hr.
    cbn in Hc. rewrite <-Hc in Hr.
    unfold failover. cbv zeta. destruct (negb _ && _) eqn:E.
    + split_and!; [apply Hr..|done|]. cbn in E |- *. by rewrite E.
    + split_and!; [apply Hr..|done|]. cbn in E |- *. by rewrite E.
Qed.
