(* ===== verification/WorkQueue.v ===== *)
(** * Tasks of the work queue

    [src/dxl/*Runner.cpp], [MqttWorkQueue.cpp] and the part of [conf.c] that they
    use: what the broker library asks of the core, run between two passes of the
    event loop. Restarting the listeners is not modelled. *)

From S2P Require Import Prelude State Packet Database Queue Contexts Connect Bridge Loop Fabric Metrics Services Configuration.
From stdpp Require Import options.

(** ** Bridges in the configuration ([conf.c]) *)

(** A bridge with its default values. *)
Definition bridge_defaults (name : string) : bridge :=
  mk_bridge 0 1 name [] 0 0 false true [] false 0 bst_automatic 60 10 false true false None.
Definition _add_bridge_address (b : bridge) (address : string * Z) : bridge := b <| b_addresses ::= λ l, l ++ [address] |>.
(** Every topic, in both directions. *)
Definition all_topics : bridge_topic := mk_bridge_topic 0 bd_both None None "#" "#".
Definition mqtt3_config_add_bridge (name : string) (addresses : list (string * Z)) : bridge :=
  let b := foldl _add_bridge_address (bridge_defaults name) addresses in
  b <| b_topics ::= λ l, l ++ [all_topics] |>.

(** The bridge that a configuration asks for; [random] is what [rand] returns. *)
Definition configured_bridge (random : Z) (c : CoreBridgeConfiguration) : bridge :=
  mqtt3_config_add_bridge (getBridgeId c) ((λ b, (co_host b, i32 (co_port b))) <$> cf_brokers c)
    <| b_round_robin := isRoundRobin c |> <| b_cur_address := getInitialBrokerIndex random c |>
    <| b_primary_address_count := i32 (cf_primaryBrokerCount c) |>.

(** A task, with what it was made with; the outcome of [rand] comes with the task
    that calls it. *)
Inductive Runnable :=
  | SendMessageRunner (topic : string) (payloadLen : Z) (payload : option (list Z))
  | BridgeConfigurationRunner (random : Z) (config : CoreBridgeConfiguration)
  | SetConnectionLimitRunner (limit : Z)
  | SetDefaultBridgeKeepaliveRunner (keepAliveMins : Z)
  | RevokeCertsRunner (revokedCerts : option (list string)).

Section tasks.
Context `{Env}.

(** ** A new configuration of the bridges *)

(** [n] contexts are left, from [i] on. *)
Fixpoint clear_bridges_loop (n i : nat) : ST world () :=
  match n with
  | O => mret tt
  | S n' =>
    context ← gets (λ w, mjoin (w_contexts w !! i));
    (match context with
     | None => mret tt
     | Some p =>
       c ← ctx_get p;
       if bool_decide (c_bridge c = None) then mret tt
       else
         ctx_upd p (λ c, c <| c_clean_session := true |>);;
         mqtt3_context_disconnect p;;
         clean_session i
     end);;
    clear_bridges_loop n' (S i)
  end.
Definition clearCurrentBridges : ST world () :=
  n ← gets (λ w, length (w_contexts w)); clear_bridges_loop n 0.
Definition bridge_configuration_run (random : Z) (config : CoreBridgeConfiguration) : ST world () :=
  clearCurrentBridges;;
  if isEnabled config then mqtt3_bridge_new (configured_bridge random config);; mret tt
  else mret tt.

(** ** Revoked certificates *)

(** The certificates of one client. *)
Fixpoint revoke_certs (revokedCerts : list string) (p : ctxid) (certs : list string) : ST world () :=
  match certs with
  | [] => mret tt
  | cert :: certs' =>
    (if bool_decide (cert ∈ revokedCerts) then mqtt3_context_disconnect p else mret tt);;
    revoke_certs revokedCerts p certs'
  end.
Fixpoint revoke_loop (revokedCerts : list string) (n i : nat) : ST world () :=
  match n with
  | O => mret tt
  | S n' =>
    context ← gets (λ w, mjoin (w_contexts w !! i));
    (match context with
     | None => mret tt
     | Some p => c ← ctx_get p; revoke_certs revokedCerts p (c_cert_hashes c)
     end);;
    revoke_loop revokedCerts n' (S i)
  end.
Definition revoke_certs_run (revokedCerts : option (list string)) : ST world () :=
  match revokedCerts with
  | None => mret tt
  | Some certs => n ← gets (λ w, length (w_contexts w)); revoke_loop certs n 0
  end.

(** ** The queue *)

Definition send_message_run (topic : string) (payloadLen : Z) (payload : option (list Z)) : ST world () :=
  (if (0 <? payloadLen) && bool_decide (is_Some payload)
   then mqtt3_db_messages_easy_queue None topic 0 payloadLen payload false
   else mqtt3_db_messages_easy_queue None topic 0 0 None false);;
  mret tt.
Definition run_task (t : Runnable) : ST world () :=
  match t with
  | SendMessageRunner topic payloadLen payload => send_message_run topic payloadLen payload
  | BridgeConfigurationRunner random config => bridge_configuration_run random config
  | SetConnectionLimitRunner limit => mqtt3_dxl_set_max_connect_count (i32 limit)
  | SetDefaultBridgeKeepaliveRunner mins => mqtt3_set_default_bridge_keepalive (i32 (u32 (mins * 60)))
  | RevokeCertsRunner revokedCerts => revoke_certs_run revokedCerts
  end.
(** Those that it takes from the queue, the ones added meanwhile included. *)
Fixpoint runQueue (tasks : list Runnable) : ST world () :=
  match tasks with
  | [] => mret tt
  | t :: tasks' => run_task t;; runQueue tasks'
  end.
End tasks.
