(* ===== verification/WorkQueueProofs.v ===== *)
(** * What the tasks of the work queue do

    [tasks_ok]: the invariant of the broker with the table of contexts. Revoking
    certificates closes the connections that used them and no other; a new
    configuration of the bridges replaces them and touches no client. *)

From S2P Require Import Prelude Topic State Packet PacketProofs Writer Database DatabaseProofs StoreProofs Subs SubsProofs SubscribeProofs UnsubscribeProofs SubsClaims PublishProofs Queue Contexts ContextProofs Frames Soundness Connect Bridge Loop MessageClaims.
From S2P Require Import Fabric Metrics Services Configuration WorkQueue.
From stdpp Require Import options.

Section work_queue.
Context `{Env}.

(** ** The table of contexts *)

(** Every entry of the table is a context that knows its place; wills are as CONNECT
    makes them; no session waits to be cleaned. *)
Record tasks_ok (w : world) : Prop := {
  to_ok : broker_ok w;
  to_slot : ∀ i p, w_contexts w !! i = Some (Some p) → ∃ c, w_ctxs w !! p = Some c ∧ c_numericId c = Z.of_nat i;
  to_will : ∀ p c m, w_ctxs w !! p = Some c → c_will c = Some m → will_ok m;
  to_clean : Forall (λ s, s = None) (w_sessions_to_clean w) }.

Lemma slot_unique w i j p : tasks_ok w → w_contexts w !! i = Some (Some p) → w_contexts w !! j = Some (Some p) → i = j.
Proof.
  intros Hok Hi Hj. destruct (to_slot _ Hok i p Hi) as (c & Hc & Hn), (to_slot _ Hok j p Hj) as (c' & Hc' & Hn').
  rewrite Hc in Hc'. injection Hc' as <-. lia.
Qed.

(** What a step may change in a context without harm to the table. *)
Definition placed (c c' : mosquitto) : Prop := c_numericId c' = c_numericId c ∧ (c_will c' = c_will c ∨ c_will c' = None).
Lemma tasks_ok_change w w' : tasks_ok w → broker_ok w' → registry w' = registry w →
  (∀ q, match w_ctxs w !! q, w_ctxs w' !! q with Some c, Some c' => placed c c' | None, None => True | _, _ => False end) → tasks_ok w'.
Proof.
  intros [_ Hslot Hwill Hclean] Hok' Hreg Hq. unfold registry in Hreg. injection Hreg as _ Hctx _ _ _ _ Hcl.
  split; [done| | |by rewrite Hcl].
  - intros i p Hi. rewrite Hctx in Hi. destruct (Hslot i p Hi) as (c & Hc & Hn). specialize (Hq p). rewrite Hc in Hq.
    destruct (w_ctxs w' !! p) as [c'|]; [|done]. exists c'. split; [done|]. destruct Hq as [-> _]. done.
  - intros p c' m Hc' Hm. specialize (Hq p). rewrite Hc' in Hq. destruct (w_ctxs w !! p) as [c|] eqn:Hc; [|done].
    destruct Hq as [_ [Hw|Hw]]; rewrite Hm in Hw; [|done]. by apply (Hwill p c m).
Qed.
Lemma queued_placed c extra c' : queued_after c extra c' → placed c c'.
Proof. unfold queued_after, placed. intros. destruct_and!. auto. Qed.
Lemma disconnected_placed c c' : disconnected c c' → placed c c'.
Proof. unfold disconnected, placed. intros. destruct_and!. auto. Qed.

Lemma disconnect_tasks p w c : tasks_ok w → w_ctxs w !! p = Some c →
  wp (mqtt3_context_disconnect p) (λ _ w', tasks_ok w' ∧ registry w' = registry w ∧
    (∃ c', w_ctxs w' !! p = Some c' ∧ disconnected c c') ∧ apart p w w') w.
Proof.
  intros Hok Hc. eapply wp_mono; [apply (context_disconnect_spec p w c); [apply Hok|done|]|].
  { intros m. by apply (to_will _ Hok p c). }
  intros _ w' (Hok' & Hreg & (c' & Hc' & Hd) & Hap). split_and!; [|done|by exists c'|done].
  apply (tasks_ok_change w); try done. intros q. destruct (decide (q = p)) as [->|Hne].
  - rewrite Hc, Hc'. by apply disconnected_placed.
  - specialize (Hap q Hne). destruct (w_ctxs w !! q), (w_ctxs w' !! q); try done. destruct Hap as [l Hl]. by eapply queued_placed.
Qed.

(** ** Revoked certificates *)

(** The connection is closed, or a websocket that closes next. *)
Definition gone (c : mosquitto) : Prop := if c_wsi c then c_state c = mosq_cs_ws_dead else c_sock c = INVALID_SOCKET.
Lemma disconnected_gone c c' : disconnected c c' → gone c'.
Proof. unfold disconnected, gone. intros. destruct_and!. by destruct (c_wsi c); simplify_eq; destruct_and?; destruct (c_wsi c'). Qed.
Lemma queued_gone c extra c' : queued_after c extra c' → gone c → gone c'.
Proof. unfold queued_after, gone. intros Hq. destruct_and!. by destruct (c_wsi c'), (c_wsi c); simplify_eq; try congruence. Qed.

Definition revoked (certs : list string) (c : mosquitto) : bool := existsb (λ cert, bool_decide (cert ∈ certs)) (c_cert_hashes c).

Lemma revoke_certs_spec certs p l w c : tasks_ok w → w_ctxs w !! p = Some c →
  wp (revoke_certs certs p l) (λ _ w', tasks_ok w' ∧ registry w' = registry w ∧ apart p w w' ∧
    if existsb (λ cert, bool_decide (cert ∈ certs)) l then ∃ c', w_ctxs w' !! p = Some c' ∧ gone c' else w' = w) w.
Proof.
  revert w c. induction l as [|cert l IH]; intros w c Hok Hc; cbn [revoke_certs existsb].
  { wp_step. split_and!; [done|done|by apply apart_same|done]. }
  wp_step. case_bool_decide; cbn [orb]; [|wp_step; by apply (IH w c)].
  eapply wp_mono; [by apply disconnect_tasks|]. intros _ w1 (Hok1 & Hreg1 & (c1 & Hc1 & Hd) & Hap1).
  eapply wp_mono; [by apply (IH w1 c1)|]. intros _ w2 (Hok2 & Hreg2 & Hap2 & Hl).
  split_and!; [done|congruence|by eapply apart_trans|]. destruct (existsb _ l); [done|]. subst w2. exists c1. split; [done|]. by eapply disconnected_gone.
Qed.

(** The contexts of the slots before [i] are dealt with. *)
Definition dealt_with (certs : list string) (w0 : world) (i : nat) (w : world) : Prop :=
  tasks_ok w ∧ registry w = registry w0 ∧ ∀ j p c, w_contexts w0 !! j = Some (Some p) → w_ctxs w0 !! p = Some c →
    ∃ c', w_ctxs w !! p = Some c' ∧ if bool_decide (j < i)%nat && revoked certs c then gone c' else ∃ extra, queued_after c extra c'.
Lemma dealt_with_S certs w0 i w : dealt_with certs w0 i w → mjoin (w_contexts w0 !! i) = None → dealt_with certs w0 (S i) w.
Proof.
  intros (Hok & Hreg & Hd) Hi. split_and!; [done|done|]. intros j p c Hj Hc. destruct (Hd j p c Hj Hc) as (c' & Hc' & Hif). exists c'. split; [done|].
  rewrite (bool_decide_ext (j < S i)%nat (j < i)%nat); [done|]. split; [|lia]. intros Hlt. destruct (decide (j = i)) as [->|]; [|lia]. by rewrite Hj in Hi.
Qed.
Lemma revoke_loop_spec certs w0 n i w : tasks_ok w0 → dealt_with certs w0 i w →
  wp (revoke_loop certs n i) (λ _ w', dealt_with certs w0 (i + n) w') w.
Proof.
  intros Hok0. revert i w. induction n as [|n IH]; intros i w Hd; cbn [revoke_loop]; [wp_step; by rewrite Nat.add_0_r|].
  replace (i + S n)%nat with (S i + n)%nat by lia. do 2 wp_step. pose proof Hd as (Hok & Hreg & Hall).
  assert (w_contexts w = w_contexts w0) as -> by (unfold registry in Hreg; congruence).
  destruct (mjoin (w_contexts w0 !! i)) as [p|] eqn:Hi; [|do 2 wp_step; by apply IH, dealt_with_S].
  assert (w_contexts w0 !! i = Some (Some p)) as Hi' by (destruct (w_contexts w0 !! i) as [[q|]|]; by simplify_eq/=).
  destruct (to_slot _ Hok0 i p Hi') as (c0 & Hc0 & _). destruct (Hall i p c0 Hi' Hc0) as (c & Hc & Hif).
  rewrite bool_decide_eq_false_2 in Hif by lia. destruct Hif as [extra Hq]. do 2 wp_step. eapply wp_ctx_get; [done|]. cbv beta.
  eapply wp_mono; [by eapply (revoke_certs_spec certs p _ w c)|]. intros _ w1 (Hok1 & Hreg1 & Hap & Hp). apply IH.
  split_and!; [done|congruence|]. intros j q d Hj Hq0. destruct (decide (j = i)) as [->|Hji].
  - rewrite Hi' in Hj. injection Hj as <-. rewrite Hc0 in Hq0. injection Hq0 as <-. rewrite bool_decide_eq_true_2 by lia. cbn [andb].
    assert (c_cert_hashes c = c_cert_hashes c0) as Hcert by (unfold queued_after in Hq; by destruct_and!).
    fold (revoked certs c) in Hp. unfold revoked in *. rewrite Hcert in Hp. destruct (existsb _ _); [done|]. subst w1. exists c. split; [done|by exists extra].
  - assert (q ≠ p) as Hne by (intros ->; by apply Hji, (slot_unique w0 j i p)). specialize (Hap q Hne).
    destruct (Hall j q d Hj Hq0) as (c' & Hc' & Hif). rewrite Hc' in Hap. destruct (w_ctxs w1 !! q) as [c1|]; [|done]. destruct Hap as [l Hl].
    exists c1. split; [done|]. rewrite (bool_decide_ext (j < S i)%nat (j < i)%nat) by lia. destruct (_ && _); [by eapply queued_gone|].
    destruct Hif as [l' Hl']. exists (l' ++ l). by eapply queued_after_trans.
Qed.

(** C31: revocation takes effect. When certificates are revoked, the connection of
    every client or bridge that presented one of them in its chain is closed; every
    other keeps its connection and its queue, at whose end the wills of the closed
    ones may come; and the invariant of the broker and the table of contexts are
    kept. *)
Theorem revoked_certs_disconnect certs w : tasks_ok w →
  wp (run_task (RevokeCertsRunner (Some certs))) (λ _ w', tasks_ok w' ∧ registry w' = registry w ∧
    ∀ i p c, w_contexts w !! i = Some (Some p) → w_ctxs w !! p = Some c →
      ∃ c', w_ctxs w' !! p = Some c' ∧ if revoked certs c then gone c' else ∃ extra, queued_after c extra c') w.
Proof.
  intros Hok. cbn [run_task]. unfold revoke_certs_run. do 2 wp_step.
  eapply wp_mono; [apply (revoke_loop_spec certs w _ 0 w Hok)|].
  - split_and!; [done|done|]. intros j p c _ Hc. exists c. split; [done|]. exists []. apply queued_after_refl.
  - intros _ w' (Hok' & Hreg & Hall). split_and!; [done|done|]. intros i p c Hi Hc. destruct (Hall i p c Hi Hc) as (c' & Hc' & Hif).
    exists c'. split; [done|]. rewrite bool_decide_eq_true_2 in Hif; [done|]. cbn. by eapply lookup_lt_Some.
Qed.

(** ** A session is cleaned *)

(** A fresh table of sessions, or the one there is. *)
Lemma resize_spec w (Q : () → world → Prop) : Forall (λ s, s = None) (w_sessions_to_clean w) →
  (∀ n, (length (w_contexts w) <= n)%nat → Q tt (w <| w_sessions_to_clean := replicate n None |>)) → wp resize_sessions_to_clean Q w.
Proof.
  intros Hnone HQ. unfold resize_sessions_to_clean. wp_steps. case_bool_decide as Hlen; wp_step; [by apply HQ|].
  specialize (HQ (length (w_sessions_to_clean w)) ltac:(lia)).
  assert (replicate (length (w_sessions_to_clean w)) None = w_sessions_to_clean w) as Hrep; [|rewrite Hrep in HQ; by destruct w].
  apply replicate_as_Forall. split; [done|]. eapply Forall_impl; [exact Hnone|]. by intros x ->.
Qed.

(** Cleaning up a context without its subscriptions leaves the tree alone. *)
Definition same_subs (w w' : world) : Prop := w_subs w' = w_subs w.
#[local] Instance same_subs_preorder : PreOrder same_subs.
Proof. split; [by intros w|]. unfold same_subs. intros w1 w2 w3 ??. congruence. Qed.
Lemma same_subs_upd p f : frame same_subs (ctx_upd p f).
Proof. intros w a w'. unfold ctx_upd, mbind, st_bind, ctx_get, deref. destruct (w_ctxs w !! p) as [c|]; [|done]. by intros [= _ <-]. Qed.
#[local] Hint Resolve same_subs_upd : frames.
Ltac same_tree := repeat frame_step ltac:(done).
Lemma same_subs_release msgs : frame same_subs (release_refs msgs).
Proof. induction msgs as [|m msgs IH]; cbn [release_refs]; same_tree. Qed.
#[local] Hint Resolve same_subs_release : frames.
Lemma same_subs_cleanup p : frame same_subs (mqtt3_context_cleanup p true false).
Proof.
  unfold mqtt3_context_cleanup, cleanup_connection, listener_leave, _mosquitto_socket_close, cleanup_session, mqtt3_db_messages_delete, cleanup_identity, mqtt3_db_remove_canonical_client_id,
    mqtt3_context_cleanup_certs, mosquitto_remove_pending_bytes_set, cleanup_buffers. same_tree.
Qed.

(** [p] has the subscriptions that it had, to every filter. *)
Definition leaves_of_client (p : ctxid) (path : list string) (w : world) : list subleaf :=
  filter (λ leaf, l_context leaf = p) (leaves_at path (w_subs w)).
Definition subscribed_alike (p : ctxid) (w w' : world) : Prop := ∀ path, leaves_of_client p path w' = leaves_of_client p path w.
Lemma subscribed_alike_tree p w w' : w_subs w' = w_subs w → subscribed_alike p w w'.
Proof. intros Hs path. unfold leaves_of_client. by rewrite Hs. Qed.
Lemma subscribed_alike_trans p w1 w2 w3 : subscribed_alike p w1 w2 → subscribed_alike p w2 w3 → subscribed_alike p w1 w3.
Proof. intros H12 H23 path. by rewrite H23, H12. Qed.
Lemma kept_client w p c l : w_ctxs w !! p = Some c → c_clean_subs c = false →
  filter (λ leaf, l_context leaf = p) (kept w l) = filter (λ leaf, l_context leaf = p) l.
Proof.
  intros Hc Hcs. induction l as [|leaf l IH]; [done|]. rewrite kept_cons, filter_app, IH. destruct (decide (l_context leaf = p)) as [He|Hne].
  - rewrite (filter_cons_True _ leaf l) by done. unfold keeps. rewrite He, Hc, Hcs. cbn [negb]. by rewrite filter_cons_True.
  - rewrite (filter_cons_False _ leaf l) by done. destruct (keeps w leaf); [|done]. by rewrite filter_cons_False.
Qed.
(** The sweep of the tree spares everybody who is not marked. *)
Definition swept_tree (w w' : world) : Prop := ∀ path, leaves_at path (w_subs w') = kept w (leaves_at path (w_subs w)).
Lemma swept_alike w w' p c : swept_tree w w' → w_ctxs w !! p = Some c → c_clean_subs c = false → subscribed_alike p w w'.
Proof. intros Hs Hc Hcs path. unfold leaves_of_client. rewrite Hs. by eapply kept_client. Qed.

Lemma cleaned_ok w w' i p : tasks_ok w → w_contexts w !! i = Some (Some p) → broker_ok w' → Forall (λ s, s = None) (w_sessions_to_clean w') →
  w_contexts w' = <[i := None]> (w_contexts w) → w_ctxs w' !! p = None → (∀ q, q ≠ p → w_ctxs w' !! q = w_ctxs w !! q) → tasks_ok w'.
Proof.
  intros Hok Hi Hok' Hcl Hctx Hp Hq. split; [done| | |done].
  - intros j q Hj. rewrite Hctx in Hj. destruct (decide (i = j)) as [<-|Hne].
    { rewrite list_lookup_insert_eq in Hj; [done|]. by eapply lookup_lt_Some. }
    rewrite list_lookup_insert_ne in Hj by done. assert (q ≠ p) as Hqp by (intros ->; by apply Hne, (slot_unique w i j p)).
    rewrite Hq by done. by apply (to_slot _ Hok).
  - intros q c m Hc. assert (q ≠ p) as Hqp by (intros ->; by rewrite Hp in Hc). rewrite Hq in Hc by done. by apply (to_will _ Hok q c).
Qed.

(** The first session is done, and there is no other. *)
Lemma sessions_done p n w (Q : () → world → Prop) : w_sessions_to_clean w = Some p :: replicate n None →
  Q tt (w <| w_sessions_to_clean := replicate (S n) None |>) → wp (set_session_to_clean 0 None;; clean_sessions_loop n 1 true) Q w.
Proof.
  intros Hs HQ. unfold set_session_to_clean. wp_steps; [by rewrite Hs|]. wp_steps.
  set (w' := w <| w_sessions_to_clean ::= _ |>). assert (w' = w <| w_sessions_to_clean := replicate (S n) None |>) as -> by (subst w'; unfold upd; cbn; by rewrite Hs).
  destruct n as [|n]; cbn [clean_sessions_loop]; wp_steps; exact HQ.
Qed.
(** The context [c] in slot [i] is gone with its entry of the index, and only that. *)
Definition cleared (i : nat) (p : ctxid) (c : mosquitto) (w w' : world) : Prop :=
  w_contexts w' = <[i := None]> (w_contexts w) ∧ w_ctxs w' !! p = None ∧ (∀ q, q ≠ p → w_ctxs w' !! q = w_ctxs w !! q) ∧
  sublist (w_clientid_index_hash w') (w_clientid_index_hash w) ∧
  ∀ id, c_id c = Some id → NoDup (w_clientid_index_hash w).*1 → id ∉ (w_clientid_index_hash w').*1.
(** One session is marked, the first of the table. *)
Lemma clean_sessions_one i p n w c : broker_ok w → w_ctxs w !! p = Some c → c_clean_session c = true → c_clean_subs c = true →
  c_numericId c = Z.of_nat i → (i < length (w_contexts w))%nat → w_sessions_to_clean w = Some p :: replicate n None →
  wp clean_sessions (λ _ w', broker_ok w' ∧ w_sessions_to_clean w' = replicate (S n) None ∧ cleared i p c w w' ∧ swept_tree w w') w.
Proof.
  intros Hok Hc Hcs Hsubs Hn Hlt Hl. unfold clean_sessions. wp_steps. rewrite Hl. cbn [length clean_sessions_loop]. wp_steps. rewrite Hl.
  change (mjoin ((Some p :: replicate n None) !! 0%nat)) with (Some p). cbv iota. do 2 apply wp_bind. eapply wp_mono; [by apply (clean_subs_no_leaf p w c)|]. intros rc w1 (Hok1 & Hno1 & Hswept & k & e & h & Hw1). do 2 wp_step.
  assert (w_ctxs w1 !! p = Some c ∧ w_contexts w1 = w_contexts w ∧ w_sessions_to_clean w1 = w_sessions_to_clean w ∧ w_ctxs w1 = w_ctxs w ∧
    w_clientid_index_hash w1 = w_clientid_index_hash w) as (Hc1 & Hx1 & Hs1 & Hq1 & Hi1) by (by subst w1).
  clear Hw1. eapply remove_context_spec; [by apply reached_refl|]. intros w2 (Hb2 & Hr2 & Hq2). wp_step. unfold remove_new_msgs_set. wp_step.
  set (w3 := w2 <| w_new_msgs_hash ::= hash_del p |>). assert (benign w1 w3) as Hb3 by (etrans; [exact Hb2|done]).
  assert (w_ctxs w3 !! p = Some c) as Hc3 by (unfold w3; cbn; rewrite Hq2; apply lookup_insert_eq). wp_step. eapply wp_ctx_get; [done|]. cbv beta. wp_step.
  unfold registry in Hr2. injection Hr2 as Hi2 Hx2 _ _ _ _ Hs2.
  eapply wp_mono; [eapply wp_frame; [apply same_subs_cleanup|]; eapply wp_frame; [apply freed_context_cleanup|]; apply (context_cleanup_spec p w3 c false); [by eapply benign_ok|done|done|]|].
  { intros _. unfold no_leaf. destruct Hb3 as (_ & _ & _ & -> & _). exact Hno1. }
  intros _ w4 [((Hok4 & Hp4 & _) & (Hq4 & Hx4 & Hs4) & Hsub4 & Hid4) Ht4]. do 4 wp_step; [rewrite Hn, Hx4; unfold w3; cbn; rewrite Hx2, Hx1; lia|]. rewrite Hn, Nat2Z.id. do 2 wp_step.
  rewrite length_replicate. eapply sessions_done; [cbn; rewrite Hs4; unfold w3; cbn; by rewrite Hs2, Hs1|]. split; [|split; [done|]].
  { eapply benign_ok; [|exact Hok4]. done. }
  assert (w_clientid_index_hash w3 = w_clientid_index_hash w) as Hi3 by (unfold w3; cbn; by rewrite Hi2, Hi1). rewrite Hi3 in Hsub4. unfold cleared. split_and!; [|done| |done| |].
  - cbn. rewrite Hx4. unfold w3. cbn. by rewrite Hx2, Hx1.
  - intros q Hne. cbn. rewrite (Hq4 q Hne). unfold w3. cbn. rewrite Hq2, lookup_insert_ne by done. by rewrite Hq1.
  - intros id Hid Hnd. apply (Hid4 c id Hc3 Hid). by rewrite Hi3.
  - intros path. cbn. unfold same_subs in Ht4. destruct Hb3 as (_ & _ & _ & Hsub3 & _). rewrite Ht4, Hsub3. apply Hswept.
Qed.

Lemma clean_session_spec i p w c : tasks_ok w → w_contexts w !! i = Some (Some p) → w_ctxs w !! p = Some c → c_clean_session c = true →
  wp (clean_session i) (λ _ w', tasks_ok w' ∧ cleared i p c w w' ∧
    ∀ q d, q ≠ p → w_ctxs w !! q = Some d → c_clean_subs d = false → subscribed_alike q w w') w.
Proof.
  intros Hok Hi Hc Hcs. pose proof (lookup_lt_Some _ _ _ Hi) as Hlt. destruct (to_slot _ Hok i p Hi) as (c0 & Hc0 & Hn). rewrite Hc in Hc0. injection Hc0 as <-.
  unfold clean_session. wp_step. apply resize_spec; [apply Hok|]. intros [|n] Hlen; [lia|]. wp_steps. cbn [w_sessions_to_clean upd replicate].
  wp_steps. eapply wp_deref; [cbn; by rewrite Hi|]. cbv beta. wp_step. unfold set_session_to_clean. wp_steps; [done|]. wp_steps.
  eapply wp_ctx_upd; [done|]. match goal with |- wp _ _ ?w' => set (w1 := w') end. set (c1 := c <| c_clean_subs := true |>).
  eapply wp_mono; [apply (clean_sessions_one i p n w1 c1); try done|].
  - eapply benign_ok; [|apply Hok]. by apply (benign_upd w p c c1).
  - by unfold w1; cbn; rewrite lookup_insert_eq.
  - intros _ w' (Hok' & Hs & (Hx & Hp & Hq & Hsub & Hid) & Hswept). assert (cleared i p c w w') as Hcl.
    { split; [done|split; [done|split; [|split; [exact Hsub|exact Hid]]]]. intros q Hne. rewrite (Hq q Hne). unfold w1. cbn. by rewrite lookup_insert_ne. }
    split_and!; [|done|]. 2: { intros q d Hne Hd Hcsd. eapply (swept_alike w1 w'); [exact Hswept| |exact Hcsd]. unfold w1. cbn. by rewrite lookup_insert_ne. }
    destruct Hcl as (Hx' & Hp' & Hq' & _). apply (cleaned_ok w w' i p); try done. rewrite Hs. by apply Forall_replicate.
Qed.

(** ** The bridges are replaced *)

Definition is_bridging (c : mosquitto) : bool := bool_decide (is_Some (c_bridge c)).
Lemma queued_bridging c extra c' : queued_after c extra c' → is_bridging c' = is_bridging c.
Proof.
  intros Hq. assert (b_name <$> c_bridge c' = b_name <$> c_bridge c) as Hb by (unfold queued_after in Hq; by destruct_and!).
  unfold is_bridging. apply bool_decide_ext. rewrite <-!(fmap_is_Some b_name). by rewrite Hb.
Qed.

(** The slots before [i] hold no bridge any more, the others what they held. *)
Definition unbridged (w0 : world) (i : nat) (w : world) : Prop :=
  tasks_ok w ∧ length (w_contexts w) = length (w_contexts w0) ∧
  ∀ j, match mjoin (w_contexts w0 !! j) with
       | Some p => ∀ c, w_ctxs w0 !! p = Some c →
         if bool_decide (j < i)%nat && is_bridging c then mjoin (w_contexts w !! j) = None
         else mjoin (w_contexts w !! j) = Some p ∧ (c_clean_subs c = false → subscribed_alike p w0 w) ∧
              ∃ c' extra, w_ctxs w !! p = Some c' ∧ queued_after c extra c'
       | None => mjoin (w_contexts w !! j) = None
       end.
Lemma bridge_clear_step w0 i w p c : tasks_ok w0 → unbridged w0 i w → w_contexts w0 !! i = Some (Some p) → w_ctxs w !! p = Some c →
  is_bridging c = true → wp (ctx_upd p (λ c, c <| c_clean_session := true |>);; mqtt3_context_disconnect p;; clean_session i) (λ _ w', unbridged w0 (S i) w') w.
Proof.
  intros Hok0 (Hok & Hlen & Hall) Hi Hc Hb. wp_step. eapply wp_ctx_upd; [done|]. set (c1 := c <| c_clean_session := true |>).
  set (w1 := w <| w_ctxs ::= <[p := c1]> |>). assert (w_ctxs w1 !! p = Some c1) as Hc1 by apply lookup_insert_eq.
  assert (tasks_ok w1) as Hok1.
  { apply (tasks_ok_change w); [done|eapply benign_ok; [by apply (benign_upd w p c c1)|apply Hok]|done|]. intros q. destruct (decide (q = p)) as [->|Hne].
    - rewrite Hc, Hc1. by split; [|left].
    - unfold w1. cbn. rewrite lookup_insert_ne by done. destruct (w_ctxs w !! q); [|done]. by split; [|left]. }
  wp_step. eapply wp_mono; [by apply (disconnect_tasks p w1 c1)|]. intros _ w2 (Hok2 & Hreg2 & (c2 & Hc2 & Hd) & Hap).
  assert (w_contexts w2 = w_contexts w ∧ w_subs w2 = w_subs w) as [Hx2 Ht2] by (unfold registry in Hreg2; by injection Hreg2).
  destruct (to_slot _ Hok0 i p Hi) as (c0 & Hc0 & _). pose proof (Hall i) as Hwi. rewrite (proj2 (mjoin_Some _ _ _) Hi) in Hwi.
  specialize (Hwi c0 Hc0). rewrite bool_decide_eq_false_2 in Hwi by lia. destruct Hwi as (Hwi & _ & c' & extra & Hc' & Hq). rewrite Hc in Hc'. injection Hc' as <-.
  apply queued_bridging in Hq as Hb0. apply mjoin_Some in Hwi.
  eapply wp_mono; [apply (clean_session_spec i p w2 c2 Hok2); [by rewrite Hx2|done|]|].
  { destruct Hd as (_ & _ & _ & _ & Hcs & _). by rewrite Hcs. }
  intros _ w3 (Hok3 & (Hx3 & Hp3 & Hq3 & _) & Halike). split_and!; [done|by rewrite Hx3, length_insert, Hx2|]. intros j. rewrite Hx3. destruct (decide (j = i)) as [->|Hji].
  { rewrite (proj2 (mjoin_Some _ _ _) Hi). intros d Hd0. rewrite Hc0 in Hd0. injection Hd0 as <-. rewrite bool_decide_eq_true_2 by lia.
    rewrite <-Hb0, Hb. cbn. rewrite list_lookup_insert_eq; [done|]. rewrite Hx2. by eapply lookup_lt_Some. }
  rewrite list_lookup_insert_ne by done. rewrite Hx2. specialize (Hall j). destruct (mjoin (w_contexts w0 !! j)) as [q|] eqn:Hj; [|done].
  intros d Hd0. specialize (Hall d Hd0). rewrite (bool_decide_ext (j < S i)%nat (j < i)%nat) by lia. destruct (_ && _); [done|].
  destruct Hall as (Hwj & Hal & d' & l & Hd' & Hq'). split; [done|]. apply mjoin_Some in Hj.
  assert (q ≠ p) as Hne by (intros ->; by apply Hji, (slot_unique w0 j i p)). rewrite Hq3 by done.
  specialize (Hap q Hne). unfold w1 in Hap. cbn in Hap. rewrite lookup_insert_ne, Hd' in Hap by done.
  destruct (w_ctxs w2 !! q) as [d2|] eqn:Hd2; [|done]. destruct Hap as [l' Hl']. pose proof (queued_after_trans _ _ _ _ _ Hq' Hl') as Hq2. split.
  - intros Hcs. eapply subscribed_alike_trans; [by apply Hal|]. eapply subscribed_alike_trans; [by apply subscribed_alike_tree|]. apply (Halike q d2); [done|done|].
    unfold queued_after in Hq2. destruct_and!. congruence.
  - by exists d2, (l ++ l').
Qed.
Lemma unbridged_skip w0 i w : unbridged w0 i w →
  (∀ p c, mjoin (w_contexts w0 !! i) = Some p → w_ctxs w0 !! p = Some c → is_bridging c = false) → unbridged w0 (S i) w.
Proof.
  intros (Hok & Hlen & Hall) Hno. split_and!; [done|done|]. intros j. specialize (Hall j). destruct (mjoin (w_contexts w0 !! j)) as [p|] eqn:Hj; [|done].
  intros c Hc. specialize (Hall c Hc). destruct (decide (j = i)) as [->|Hji].
  - rewrite (Hno p c Hj Hc), andb_false_r in *. done.
  - by rewrite (bool_decide_ext (j < S i)%nat (j < i)%nat) by lia.
Qed.
Lemma clear_bridges_spec w0 n i w : tasks_ok w0 → unbridged w0 i w → wp (clear_bridges_loop n i) (λ _ w', unbridged w0 (i + n) w') w.
Proof.
  intros Hok0. revert i w. induction n as [|n IH]; intros i w Hd; cbn [clear_bridges_loop]; [wp_step; by rewrite Nat.add_0_r|].
  replace (i + S n)%nat with (S i + n)%nat by lia. do 3 wp_step.
  eapply (wp_mono _ (λ _ w', unbridged w0 (S i) w')); [|intros _ w'; apply IH]. pose proof Hd as (Hok & _ & Hall). specialize (Hall i).
  destruct (mjoin (w_contexts w0 !! i)) as [p0|] eqn:Hi; [|rewrite Hall; wp_step; apply unbridged_skip; [done|by rewrite Hi]].
  apply mjoin_Some in Hi as Hi'. destruct (to_slot _ Hok0 i p0 Hi') as (c0 & Hc0 & _). specialize (Hall c0 Hc0). rewrite bool_decide_eq_false_2 in Hall by lia.
  destruct Hall as (-> & _ & c & extra & Hc & Hq). wp_step. eapply wp_ctx_get; [done|]. cbv beta.
  case_bool_decide as Hb; [|eapply bridge_clear_step; [done|done|done|done|]].
  - wp_step. apply unbridged_skip; [done|]. intros p d Hp Hd0. rewrite Hi in Hp. injection Hp as <-. rewrite Hc0 in Hd0. injection Hd0 as <-.
    rewrite <-(queued_bridging _ _ _ Hq). unfold is_bridging. by rewrite Hb.
  - unfold is_bridging. destruct (c_bridge c); [done|congruence].
Qed.
Lemma clear_current_spec w : tasks_ok w → wp clearCurrentBridges (λ _ w', unbridged w (length (w_contexts w)) w') w.
Proof.
  intros Hok. unfold clearCurrentBridges. do 2 wp_step. apply (clear_bridges_spec w _ 0 w Hok). split_and!; [done|done|]. intros j.
  destruct (mjoin (w_contexts w !! j)) as [p|]; [|done]. intros c Hc. rewrite bool_decide_eq_false_2 by lia. split; [done|]. split; [intros _; by apply subscribed_alike_tree|].
  exists c, []. split; [done|]. apply queued_after_refl.
Qed.

(** *** The new one *)

(** A context without a queue. *)
Lemma new_context_ok w p c : broker_ok w → w_ctxs w !! p = None → c_msgs c = [] → queue_ok c → broker_ok (w <| w_ctxs ::= <[p := c]> |>).
Proof.
  intros [[H1 H2 H3 H4 H5 H6] [Hwf Hlive] Hg Hroot] Hp Hm Hq. split; [split|split| |]; cbn; try done.
  - by apply map_Forall_insert_2.
  - intros s m Hs. rewrite refs_insert_new by done. rewrite Hm. change (refs_in s []) with 0. rewrite Z.add_0_r. by apply H2.
  - apply map_Forall_insert_2; [by rewrite Hm|done].
  - intros path. eapply Forall_impl; [apply Hlive|]. intros leaf [id Hid]. unfold leaf_live, client_id in *. exists id. cbn.
    destruct (decide (l_context leaf = p)) as [He|Hne]; [by rewrite He, Hp in Hid|]. by rewrite lookup_insert_ne.
Qed.

(** The context of a bridge that is not connected yet. *)
Definition bridge_context (b : bridge) (id : string) (c : mosquitto) : Prop :=
  c_bridge c = Some (b <| b_try_private_accepted := true |>) ∧ c_is_bridge c = true ∧ c_id c = Some id ∧ c_sock c = -1 ∧ c_state c = mosq_cs_new.
Lemma fresh_context w : w_ctxs w !! fresh (dom (w_ctxs w)) = None.
Proof. apply not_elem_of_dom. exact (is_fresh (dom (w_ctxs w))). Qed.
Lemma context_init_spec w (Q : option ctxid → world → Prop) :
  (∀ p t t' e, w_ctxs w !! p = None → Q (Some p) (w <| w_env := e |> <| w_ctxs ::= <[p := context_new (-1) t t' None]> |>)) → wp (mqtt3_context_init (-1)) Q w.
Proof.
  intros HQ. unfold mqtt3_context_init, mosquitto_time. wp_step. apply wp_ext. intros t e1 _. cbv beta. wp_step. apply wp_ext. intros t' e2 _. cbv beta.
  wp_step. change (-1 =? -1) with true. cbv iota. wp_step. cbn [negb andb]. wp_step. apply wp_gets. cbv beta. wp_step. wp_step. wp_step.
  apply (HQ (fresh (dom (w_ctxs w)))). apply fresh_context.
Qed.
Lemma bridge_new_spec b h w : tasks_ok w → env_gethostname (w_env w) = Some h → b_clientid b = None →
  wp (mqtt3_bridge_new b) (λ rc w', rc = MOSQ_ERR_NO_CONN ∧ tasks_ok w' ∧ ∃ p c, w_ctxs w !! p = None ∧ w_ctxs w' = <[p := c]> (w_ctxs w) ∧
    w_contexts w' = contexts_with p (w_contexts w) ∧ w_subs w' = w_subs w ∧ bridge_context b (h +:+ "." +:+ b_name b) c) w.
Proof.
  intros Hok Hh Hb. unfold mqtt3_bridge_new. do 2 wp_step. rewrite Hb, Hh. cbn [fmap option_fmap option_map].
  wp_step. apply context_init_spec. intros p t t' e Hp. wp_steps. unfold mosquitto_add_new_clients_set. wp_steps.
  eapply wp_ctx_upd; [cbn; apply lookup_insert_eq|]. wp_step. match goal with |- _ = _ ∧ tasks_ok ?w1 ∧ _ => set (w' := w1) end.
  match type of w' with _ => match eval unfold w' in w' with _ <| w_ctxs ::= <[p := ?d]> |> => set (c := d) in * end end.
  assert (w_ctxs w' = <[p := c]> (w_ctxs w)) as Hctx by (unfold w'; cbn; by rewrite insert_insert_eq).
  assert (w_contexts w' = contexts_with p (w_contexts w)) as Hx by done.
  assert (c_numericId c = Z.of_nat (first_gap (w_contexts w))) as Hn by done.
  assert (c_will c = None) as Hw by done. assert (bridge_context b (h +:+ "." +:+ b_name b) c) as Hbc by done.
  assert (benign (w <| w_ctxs ::= <[p := c]> |>) w') as Hbe.
  { split_and!; try done. intros q. by rewrite Hctx. }
  assert (w_sessions_to_clean w' = w_sessions_to_clean w) as Hs by done. 
  assert (broker_ok w') as Hok'. { eapply benign_ok; [exact Hbe|]. by apply new_context_ok; [apply Hok| | |]. }
  assert (w_subs w' = w_subs w) as Hsubs by done. clearbody c w'. split_and!; [done| |by exists p, c]. split; [done| | |rewrite Hs; apply Hok].
  - intros i q Hi. apply mjoin_Some in Hi. rewrite Hx, contexts_with_lookup in Hi. rewrite Hctx. case_decide as Hj.
    + injection Hi as <-. exists c. split; [apply lookup_insert_eq|]. by rewrite Hn, Hj.
    + apply mjoin_Some in Hi. destruct (to_slot _ Hok i q Hi) as (d & Hd & Hdn). exists d. split; [|done].
      rewrite lookup_insert_ne; [done|]. intros <-. by rewrite Hp in Hd.
  - intros q d m Hd Hm. rewrite Hctx in Hd. destruct (decide (q = p)) as [->|Hne].
    + rewrite lookup_insert_eq in Hd. injection Hd as <-. by rewrite Hw in Hm.
    + rewrite lookup_insert_ne in Hd by done. by apply (to_will _ Hok q d).
Qed.

(** Clients keep their place, and their subscriptions to every filter (but one whose
    subscriptions were being cleaned). *)
Definition clients_kept (w w' : world) : Prop := ∀ i p c, w_contexts w !! i = Some (Some p) → w_ctxs w !! p = Some c → is_bridging c = false →
  w_contexts w' !! i = Some (Some p) ∧ (c_clean_subs c = false → subscribed_alike p w w') ∧ ∃ c' extra, w_ctxs w' !! p = Some c' ∧ queued_after c extra c'.
Definition bridge_at (w : world) (i : nat) (c : mosquitto) : Prop :=
  ∃ p, w_contexts w !! i = Some (Some p) ∧ w_ctxs w !! p = Some c ∧ is_bridging c = true.
Lemma unbridged_all w w1 : tasks_ok w → unbridged w (length (w_contexts w)) w1 → clients_kept w w1 ∧ ∀ i c, ¬ bridge_at w1 i c.
Proof.
  intros Hok (Hok1 & Hlen & Hall). split.
  - intros i p c Hi Hc Hb. specialize (Hall i). rewrite (proj2 (mjoin_Some _ _ _) Hi) in Hall. specialize (Hall c Hc).
    rewrite Hb, andb_false_r in Hall. by rewrite mjoin_Some in Hall.
  - intros i c' (p & Hi & Hc' & Hb). pose proof (lookup_lt_Some _ _ _ Hi) as Hlt. specialize (Hall i). rewrite (proj2 (mjoin_Some _ _ _) Hi) in Hall.
    destruct (mjoin (w_contexts w !! i)) as [q|] eqn:Hq; [|done]. apply mjoin_Some in Hq. destruct (to_slot _ Hok i q Hq) as (c & Hc & _).
    specialize (Hall c Hc). rewrite bool_decide_eq_true_2 in Hall by lia. cbn [andb] in Hall. destruct (is_bridging c) eqn:Hbc; [done|].
    destruct Hall as ([= <-] & _ & d & extra & Hd & Hqa). rewrite Hc' in Hd. injection Hd as <-. apply queued_bridging in Hqa. congruence.
Qed.

(** The bridge that a configuration asks for: its brokers in order, every topic, and a
    first address among them. *)
Definition asked_for (config : CoreBridgeConfiguration) (b : bridge) : Prop :=
  b_name b = getBridgeId config ∧ b_addresses b = ((λ e : CoreBroker, (co_host e, i32 (co_port e))) <$> cf_brokers config) ∧ b_topics b = [all_topics] ∧
  b_round_robin b = isRoundRobin config ∧ b_primary_address_count b = i32 (cf_primaryBrokerCount config) ∧
  0 <= b_cur_address b ∧ is_Some (b_addresses b !! Z.to_nat (b_cur_address b)) ∧ b_clientid b = None.
Lemma add_addresses_spec l b : foldl _add_bridge_address b l = b <| b_addresses := b_addresses b ++ l |>.
Proof.
  revert b. induction l as [|a l IH]; intros b; cbn; [by rewrite app_nil_r; destruct b|]. rewrite IH. destruct b; cbn. by rewrite <-app_assoc.
Qed.
Lemma initial_index_bound random config : isEnabled config = true →
  0 <= getInitialBrokerIndex random config ∧ (Z.to_nat (getInitialBrokerIndex random config) < length (cf_brokers config))%nat.
Proof.
  unfold isEnabled, getInitialBrokerIndex. intros Hne%bool_decide_eq_true. assert (0 < length (cf_brokers config))%nat by (destruct (cf_brokers config); cbn; [done|lia]).
  set (x := if isRoundRobin config && _ then _ else 0). assert (0 <= x < Z.of_nat (length (cf_brokers config))).
  { unfold x. destruct (isRoundRobin config && _); [apply Z.mod_pos_bound|]; lia. }
  unfold u16. pose proof (Z.mod_pos_bound x (2 ^ 16)). pose proof (Z.mod_le x (2 ^ 16)). lia.
Qed.
Lemma configured_bridge_spec random config : isEnabled config = true → asked_for config (configured_bridge random config).
Proof.
  intros He. destruct (initial_index_bound random config He) as [H0 Hlt]. unfold configured_bridge, mqtt3_config_add_bridge. rewrite add_addresses_spec. cbn.
  split_and!; try done. apply lookup_lt_is_Some_2. unfold lt in *. etransitivity; [exact Hlt|]. by rewrite <-(length_fmap (λ e : CoreBroker, (co_host e, i32 (co_port e)))).
Qed.

(** C30: a new configuration takes effect: the old bridges are disconnected and
    removed with their sessions; if the configuration asks for bridges there is then
    exactly one bridge context, not yet connected, with the brokers of the
    configuration as its addresses, one of them the first, and every topic, and
    otherwise none. Every client keeps its connection, its
    place in the table and its queue, at whose end the wills of bridges may come, and
    its subscriptions: for every filter of the tree the same entries with the same
    quality of service (unless it is itself marked for cleaning, which the code only
    does while it drops that client's session). *)
Theorem bridges_replaced random config h w : tasks_ok w → (∀ e, env_gethostname e = Some h) →
  wp (run_task (BridgeConfigurationRunner random config)) (λ _ w', tasks_ok w' ∧ clients_kept w w' ∧
    if isEnabled config
    then ∃ i c b, bridge_at w' i c ∧ asked_for config b ∧ bridge_context b (h +:+ "." +:+ getBridgeId config) c ∧ ∀ j d, bridge_at w' j d → j = i
    else ∀ j d, ¬ bridge_at w' j d) w.
Proof.
  intros Hok Hh. cbn [run_task]. unfold bridge_configuration_run. wp_step. eapply wp_mono; [by apply clear_current_spec|]. intros [] w1 Hun. cbv beta in Hun.
  destruct (unbridged_all w w1 Hok Hun) as [Hkept Hnone]. destruct Hun as (Hok1 & _). destruct (isEnabled config) eqn:He; [|wp_step; by split_and!].
  pose proof (configured_bridge_spec random config He) as Hasked. pose proof Hasked as (Hname & _ & _ & _ & _ & _ & _ & Hid).
  wp_step. eapply wp_mono; [by apply (bridge_new_spec _ h)|]. intros rc w2 (_ & Hok2 & p & c & Hp & Hctx & Hx & Hsubs & Hbc). rewrite Hname in Hbc. wp_step.
  assert (∀ i q, w_contexts w1 !! i = Some (Some q) → q ≠ p ∧ i ≠ first_gap (w_contexts w1)) as Hold.
  { intros i q Hi. destruct (to_slot _ Hok1 i q Hi) as (d & Hd & _). split; [by intros ->; rewrite Hp in Hd|].
    intros ->. pose proof (first_gap_free (w_contexts w1)) as Hf. by rewrite Hi in Hf. }
  split_and!; [done| |].
  - intros i q d Hi Hd Hb. destruct (Hkept i q d Hi Hd Hb) as (Hi1 & Hal & d' & extra & Hd' & Hq). destruct (Hold i q Hi1) as [Hne Hgap]. split_and!.
    + apply mjoin_Some. rewrite Hx, contexts_with_lookup, decide_False by done. by apply mjoin_Some.
    + intros Hcs. eapply subscribed_alike_trans; [by apply Hal|by apply subscribed_alike_tree].
    + exists d', extra. split; [|done]. rewrite Hctx. by rewrite lookup_insert_ne.
  - exists (first_gap (w_contexts w1)), c, (configured_bridge random config). split_and!; [|done|done|].
    + exists p. split_and!; [apply mjoin_Some; by rewrite Hx, contexts_with_lookup, decide_True|rewrite Hctx; apply lookup_insert_eq|].
      unfold is_bridging. destruct Hbc as (-> & _). done.
    + intros j d (q & Hj & Hd & Hb). apply mjoin_Some in Hj. rewrite Hx, contexts_with_lookup in Hj. case_decide; [done|]. apply mjoin_Some in Hj.
      destruct (Hold j q Hj) as [Hne _]. rewrite Hctx, lookup_insert_ne in Hd by done. exfalso. apply (Hnone j d). by exists q.
Qed.
End work_queue.
