(* ===== verification/MaintenanceSafe.v ===== *)
(** * The maintenance pass

    [maintenance_loop] on a broker without bridges: whoever does not keep alive is
    closed, the sessions of all the clients that are gone are cleaned in one pass, and
    the broker stays sound. *)

From S2P Require Import Prelude Topic State Packet PacketProofs Writer Database DatabaseProofs StoreProofs DeliveryProofs Subs SubsProofs SubscribeProofs UnsubscribeProofs SubsClaims PublishProofs Queue Contexts ContextProofs.
From S2P Require Import Handlers HandlerProofs SubscribeHandlerProofs Frames HandleSafety Soundness Connect PacketRead ReadSafe Bridge Loop Fabric Metrics Services Configuration WorkQueue WorkQueueProofs.
From stdpp Require Import options.

Section maintenance.
Context `{Env} `{!EnvLaws}.
#[local] Set Default Proof Using "Type*".
Variables check_connection_id primary_connection_id : Z.
Implicit Types p : ctxid.

(** ** Overdue acknowledgements *)

Lemma timeout_loop_spec msgs i p threshold w c : db_ok w → w_ctxs w !! p = Some c →
  wp (timeout_loop msgs i p threshold) (λ _ w', ∃ c', queue_step p w c w' c') w.
Proof.
  revert i w c. induction msgs as [|m msgs IH]; intros i w c Hok Hc; cbn [timeout_loop].
  { wp_step. exists c. rewrite <-(env_self w) at 2. by apply queue_step_refl. }
  wp_step. eapply (wp_mono _ (λ _ w', ∃ c', queue_step p w c w' c')).
  - assert (queue_step p w c w c) as Hself by (rewrite <-(env_self w) at 2; by apply queue_step_refl).
    destruct (_ <? _); [|wp_step; by exists c]. destruct (timeout_state _) as [s|]; [|wp_step; by exists c]. wp_step. unfold mosquitto_time. apply wp_ext. intros t e _.
    pose proof (queue_step_refl p w c e Hok Hc) as Q0. eapply (wp_msg_upd p i _ _ c); [done|by eapply queue_step_ok|done|]. intros w1 Q1. eexists. eapply queue_step_trans; [exact Q0|exact Q1].
  - intros _ w1 [c1 Q1]. eapply wp_mono; [by apply (IH (S i) w1 c1); [eapply queue_step_ok|eapply queue_step_lookup]|]. intros _ w2 [c2 Q2].
    exists c2. by eapply queue_step_trans.
Qed.
Lemma timeout_check_spec p timeout w c : db_ok w → w_ctxs w !! p = Some c →
  wp (mqtt3_db_message_timeout_check p timeout) (λ _ w', ∃ c', queue_step p w c w' c') w.
Proof.
  intros Hok Hc. unfold mqtt3_db_message_timeout_check, mosquitto_time. wp_step. apply wp_ext. intros now e _. pose proof (queue_step_refl p w c e Hok Hc) as Q0.
  wp_step. eapply wp_ctx_get; [by eapply queue_step_lookup|]. cbv beta. wp_step. eapply wp_mono; [by apply timeout_loop_spec; [eapply queue_step_ok|eapply queue_step_lookup]|].
  intros _ w1 [c1 Q1]. wp_step. exists c1. by eapply queue_step_trans.
Qed.
Lemma handled_timeout_check k p timeout : frame (handled k) (mqtt3_db_message_timeout_check p timeout).
Proof.
  unfold mqtt3_db_message_timeout_check. handles. generalize 0%nat. induction (c_msgs a0) as [|m msgs IH]; intros i; cbn [timeout_loop]; handles.
Qed.

(** ** One context *)

(** Only [p] is worked on: the others may get messages, and no bridge comes up. *)
Definition clients_only (w : world) : Prop := ∀ p c, w_ctxs w !! p = Some c → c_bridge c = None.
Definition attends (p : ctxid) (w w' : world) : Prop :=
  sound None None w' ∧ clients_only w' ∧ table w' = table w ∧ apart p w w' ∧ ∀ c, w_ctxs w !! p = Some c → is_Some (w_ctxs w' !! p).
Lemma attends_refl p w : sound None None w → clients_only w → attends p w w.
Proof. intros Hs Hcl. split_and!; [done..|by apply apart_same|by intros c ->]. Qed.
Lemma attends_trans p w1 w2 w3 : attends p w1 w2 → attends p w2 w3 → attends p w1 w3.
Proof.
  intros (_ & _ & Ht1 & Ha1 & Hp1) (Hs & Hcl & Ht2 & Ha2 & Hp2). split_and!; [done|done|congruence|by eapply apart_trans|]. intros c Hc.
  destruct (Hp1 c Hc) as [c1 Hc1]. by eapply Hp2.
Qed.
Lemma apart_clients p w w' c' : clients_only w → apart p w w' → w_ctxs w' !! p = Some c' → c_bridge c' = None → clients_only w'.
Proof.
  intros Hcl Hap Hc' Hb q d Hd. destruct (decide (q = p)) as [->|Hne]; [congruence|]. specialize (Hap q Hne). rewrite Hd in Hap.
  destruct (w_ctxs w !! q) as [c|] eqn:Hq; [|done]. destruct Hap as [l Hl]. assert (b_name <$> c_bridge d = b_name <$> c_bridge c) as E by (unfold queued_after in Hl; by destruct_and!).
  rewrite (Hcl q c Hq) in E. by destruct (c_bridge d).
Qed.
Lemma attends_env p w0 w e : attends p w0 w → attends p w0 (w <| w_env := e |>).
Proof.
  intros Ha. eapply attends_trans; [exact Ha|]. destruct Ha as (Hs & Hcl & _). split_and!; [by eapply sound_frame; [exact Hs|apply benign_env|..]|exact Hcl|done|by apply apart_same|intros c Hc; by exists c].
Qed.
Lemma attends_upd p f w c (Q : () → world → Prop) : sound None None w → clients_only w → w_ctxs w !! p = Some c → place (f c) = place c → output (f c) = output c →
  c_in_packet (f c) = c_in_packet c → ctx_core (f c) = ctx_core c → c_bridge (f c) = c_bridge c → (∀ w', attends p w w' → w_ctxs w' !! p = Some (f c) → Q tt w') → wp (ctx_upd p f) Q w.
Proof.
  intros Hs Hcl Hc Hpl Ho Hk Hcore Hb HQ. eapply wp_sound_upd; [done|done|unfold place in Hpl; unfold slot; congruence|done| |].
  - apply (place_sound _ _ _ c); [done|done|by eapply output_wf, so_context| |by eapply sound_context]. unfold outwards, ctx_core in *. congruence.
  - intros w' Hs' Hw Ht. assert (w_ctxs w' !! p = Some (f c)) as Hc' by (rewrite Hw; apply lookup_insert_eq).
    assert (apart p w w') as Hap by (apply apart_same; intros q Hne; rewrite Hw; by apply lookup_insert_ne). apply HQ; [|done].
    split_and!; [done| |done|done|by intros; eexists]. eapply apart_clients; [done..|]. rewrite Hb. by eapply Hcl.
Qed.

Lemma timeout_check_attends p timeout w c : sound None None w → clients_only w → w_ctxs w !! p = Some c →
  wp (mqtt3_db_message_timeout_check p timeout) (λ _ w', attends p w w' ∧ ∀ c', w_ctxs w' !! p = Some c' → c_clean_subs c' = c_clean_subs c) w.
Proof.
  intros Hs Hcl Hc. destruct (so_ok _ _ _ Hs) as [Hdb _ _ _].
  eapply wp_mono; [apply (wp_frame (handled (None, Some p))); [apply handled_timeout_check|by apply (timeout_check_spec p timeout w c)]|]. intros _ w' [(c' & Hq) Hh].
  pose proof (queue_step_lookup _ _ _ _ _ Hq) as Hc'. destruct (queue_step_in_service p w c w' c') as [Hok' _]; [apply Hs|done|done|by eapply co_output, so_context|].
  pose proof Hq as ((stores & e & Hw') & Hm & _). assert (apart p w w') as Hap by (apply apart_same; intros q Hne; subst w'; by apply lookup_insert_ne).
  unfold msgs_only in Hm. split; [|intros d Hd; assert (d = c') as -> by congruence; by rewrite <-Hm]. split_and!; [| |apply Hh|done|by intros; eexists].
  - eapply sound_handled; [done|exact Hh|done|]. intros d Hd. assert (d = c') as -> by congruence.
    apply (output_wf c); [unfold output; by rewrite <-Hm|by eapply co_output, so_context].
  - eapply apart_clients; [done..|]. pose proof (Hcl p c Hc) as Hb. rewrite <-Hm in Hb. by destruct c'.
Qed.
Lemma disconnect_attends p w c : sound None None w → clients_only w → w_ctxs w !! p = Some c →
  wp (mqtt3_context_disconnect p) (λ _ w', attends p w w' ∧ ∃ c', w_ctxs w' !! p = Some c' ∧ c_sock c' = INVALID_SOCKET) w.
Proof.
  intros Hs Hcl Hc. eapply wp_mono; [apply wp_and; [by apply (disconnect_sound None None p w c)|apply (wp_frame (closes p)); [apply closes_context_disconnect|apply (context_disconnect_spec p w c); [apply Hs|done|apply (so_context _ _ _ Hs p c Hc)]]]|].
  intros _ w' [(Hs' & c' & Hc' & Hsock & _ & _ & _ & _ & _ & Hb) ((_ & _ & _ & Hap) & Ht & _)]. split; [|by exists c'].
  split_and!; [done| |done|done|by intros; eexists]. eapply apart_clients; [done..|]. rewrite (Hcl p c Hc) in Hb. by destruct (c_bridge c').
Qed.

(** ** The table *)

(** The contexts before slot [i] have been attended to: [ms], those of them without a
    connection, are marked. The others have not been touched, but for messages. *)
Definition without_connection (w : world) (p : ctxid) : Prop := ∃ c, w_ctxs w !! p = Some c ∧ is_context_invalid c = true.
Record swept (i : nat) (ms : list ctxid) (w0 w : world) : Prop := {
  sw_sound : sound None None w;
  sw_clients : clients_only w;
  sw_table : w_contexts w = w_contexts w0;
  sw_room : (length (w_contexts w0) <= length (w_sessions_to_clean w))%nat;
  sw_marks : ∃ n, w_sessions_to_clean w = (Some <$> ms) ++ replicate n None;
  sw_length : (length ms <= i)%nat;
  sw_marked : ∀ m, m ∈ ms → without_connection w0 m ∧ ∃ j c, (j < i)%nat ∧ w_contexts w0 !! j = Some (Some m) ∧ w_ctxs w !! m = Some c ∧ c_clean_subs c = true;
  sw_nodup : NoDup ms;
  sw_behind : ∀ j p, (j < i)%nat → w_contexts w0 !! j = Some (Some p) → without_connection w0 p → p ∈ ms;
  sw_ahead : ∀ j p c, (i <= j)%nat → w_contexts w0 !! j = Some (Some p) → w_ctxs w !! p = Some c → is_context_invalid c = true ↔ without_connection w0 p }.

(** Before slot [i]. *)
Definition behind (i : nat) (p : ctxid) (w0 : world) : Prop := ∃ j, (j < i)%nat ∧ w_contexts w0 !! j = Some (Some p).
Lemma queued_invalid c l c' : queued_after c l c' → is_context_invalid c' = is_context_invalid c.
Proof. unfold queued_after, is_context_invalid. intros (_ & E & F & _). by rewrite E, F. Qed.
Lemma swept_unique i ms w0 w j k p : swept i ms w0 w → w_contexts w0 !! j = Some (Some p) → w_contexts w0 !! k = Some (Some p) → j = k.
Proof. intros Hsw. rewrite <-(sw_table _ _ _ _ Hsw). by eapply sound_slot_unique, (sw_sound _ _ _ _ Hsw). Qed.

Lemma swept_attends i p ms w0 w w' : swept i ms w0 w → attends p w w' → behind i p w0 →
  (∀ c c', p ∈ ms → w_ctxs w !! p = Some c → w_ctxs w' !! p = Some c' → c_clean_subs c' = c_clean_subs c) → swept i ms w0 w'.
Proof.
  intros Hsw (Hs & Hcl & Ht & Hap & Hpp) (k & Hk & Hxk) Hsubs. pose proof Hsw as [S1 S2 S3 S4 S5 S6 S7 S8 S9 S10]. unfold table in Ht.
  assert (w_contexts w' = w_contexts w ∧ w_sessions_to_clean w' = w_sessions_to_clean w) as [Ex Em] by (split; congruence).
  split; [done|done|congruence|by rewrite Em|by rewrite Em|done| |done|done|].
  - intros m Hm. destruct (S7 m Hm) as (Hw & j & c & Hj & Hx & Hc & Hcs). split; [done|]. exists j. destruct (decide (m = p)) as [->|Hne].
    + destruct (Hpp c Hc) as [c' Hc']. exists c'. split_and!; [done..|]. by rewrite (Hsubs c c').
    + specialize (Hap m Hne). rewrite Hc in Hap. destruct (w_ctxs w' !! m) as [c'|]; [|done]. destruct Hap as [l Hl]. exists c'. split_and!; [done..|].
      unfold queued_after in Hl. destruct_and!. congruence.
  - intros j q d Hj Hx Hd. assert (q ≠ p) as Hne by (intros ->; pose proof (swept_unique _ _ _ _ _ _ _ Hsw Hx Hxk); lia). specialize (Hap q Hne). rewrite Hd in Hap.
    destruct (w_ctxs w !! q) as [c|] eqn:Hc; [|done]. destruct Hap as [l Hl]. rewrite (queued_invalid _ _ _ Hl). by apply (S10 j q c).
Qed.
Lemma swept_next i ms w0 w : swept i ms w0 w → (∀ p, w_contexts w0 !! i = Some (Some p) → ¬ without_connection w0 p) → swept (S i) ms w0 w.
Proof.
  intros [S1 S2 S3 S4 S5 S6 S7 S8 S9 S10] Hi. split; try done; [lia| | |].
  - intros m Hm. destruct (S7 m Hm) as (Hw & j & c & Hj & Hc). split; [done|]. exists j, c. split; [lia|done].
  - intros j p Hj Hx Hw. destruct (decide (j = i)) as [->|]; [by destruct (Hi p)|]. apply (S9 j); [lia|done|done].
  - intros j p c Hj. apply S10. lia.
Qed.
Lemma swept_fresh i p ms w0 w : swept i ms w0 w → w_contexts w0 !! i = Some (Some p) → p ∉ ms.
Proof.
  intros Hsw Hi Hp. destruct (sw_marked _ _ _ _ Hsw p Hp) as (_ & j & c & Hj & Hx & _). pose proof (swept_unique _ _ _ _ _ _ _ Hsw Hi Hx). lia.
Qed.
Lemma swept_frame i ms w0 w w' : swept i ms w0 w → benign w w' → table w' = table w → w_ctxs w' = w_ctxs w → swept i ms w0 w'.
Proof.
  intros [S1 S2 S3 S4 S5 S6 S7 S8 S9 S10] Hb Ht Hw. unfold table in Ht. assert (w_contexts w' = w_contexts w ∧ w_sessions_to_clean w' = w_sessions_to_clean w) as [Ex Em] by (split; congruence).
  split; rewrite ?Ex, ?Em, ?Hw; try done; [by eapply sound_frame|]. unfold clients_only. by rewrite Hw.
Qed.

(** The context in slot [i] is marked. *)
Lemma mark_swept i p ms w0 w c (Q : nat → world → Prop) : swept i ms w0 w → w_contexts w0 !! i = Some (Some p) → w_ctxs w !! p = Some c → without_connection w0 p →
  (∀ w' c', swept (S i) (ms ++ [p]) w0 w' → w_ctxs w' !! p = Some c' → Q (length (ms ++ [p])) w') →
  wp (set_session_to_clean (length ms) (Some p);; ctx_upd p (λ c, c <| c_clean_subs := true |>);; mret (S (length ms))) Q w.
Proof.
  intros Hsw Hi Hc Hwc HQ. pose proof (swept_fresh _ _ _ _ _ Hsw Hi) as Hnew. pose proof Hsw as [S1 S2 S3 S4 [n S5] S6 S7 S8 S9 S10]. pose proof (lookup_lt_Some _ _ _ Hi) as Hlt.
  destruct n as [|n]; [rewrite S5, length_app, length_fmap in S4; cbn in S4; lia|]. unfold set_session_to_clean. wp_steps; [apply bool_decide_eq_true; lia|]. wp_steps.
  set (w1 := w <| w_sessions_to_clean ::= _ |>). assert (w_sessions_to_clean w1 = (Some <$> ms ++ [p]) ++ replicate n None) as Hm1.
  { unfold w1. cbn. rewrite S5, fmap_app, <-app_assoc. cbn. rewrite insert_app_r_alt; rewrite length_fmap; [|done]. by rewrite Nat.sub_diag. }
  assert (sound None None w1) as Hs1.
  { split; try apply S1. eapply benign_ok; [|apply S1]. done. }
  eapply (attends_upd p _ w1 c); [done|done|done|done..|]. intros w2 (Hs2 & Hcl2 & Ht2 & Hap2 & _) Hc2. unfold table in Ht2.
  assert (w_contexts w2 = w_contexts w ∧ w_sessions_to_clean w2 = w_sessions_to_clean w1) as [Ex Em] by (split; [unfold w1 in Ht2; cbn in Ht2|]; congruence). wp_step.
  replace (S (length ms)) with (length (ms ++ [p])) by (rewrite length_app; cbn; lia). eapply HQ; [|exact Hc2].
  assert (∀ q d, q ≠ p → w_ctxs w !! q = Some d → ∃ d' l, w_ctxs w2 !! q = Some d' ∧ queued_after d l d') as Hother.
  { intros q d Hne Hd. specialize (Hap2 q Hne). unfold w1 in Hap2. cbn in Hap2. rewrite Hd in Hap2. destruct (w_ctxs w2 !! q) as [d'|]; [|done]. destruct Hap2 as [l Hl]. by exists d', l. }
  split; [done|done|congruence| |by exists n; rewrite Em|rewrite length_app; cbn; lia| | | |].
  - rewrite Em, Hm1, length_app, length_fmap, length_replicate, length_app. rewrite S5, length_app, length_fmap, length_replicate in S4. cbn. lia.
  - intros m [Hm| ->%list_elem_of_singleton]%elem_of_app; [|split; [done|]; exists i; eexists; split_and!; [lia|done|exact Hc2|done]].
    destruct (S7 m Hm) as (Hw & j & d & Hj & Hx & Hd & Hcs). split; [done|]. assert (m ≠ p) as Hne by (by intros ->). destruct (Hother m d Hne Hd) as (d' & l & Hd' & Hl).
    exists j, d'. split_and!; [lia|done|done|]. unfold queued_after in Hl. destruct_and!. congruence.
  - apply NoDup_app. split_and!; [done| |apply NoDup_singleton]. intros x Hx ->%list_elem_of_singleton. done.
  - intros j q Hj Hx Hq. apply elem_of_app. destruct (decide (j = i)) as [->|]; [right; apply list_elem_of_singleton; congruence|left; apply (S9 j); [lia|done|done]].
  - intros j q d' Hj Hx Hd'. assert (q ≠ p) as Hne by (intros ->; pose proof (swept_unique _ _ _ _ _ _ _ Hsw Hx Hi); lia).
    destruct (so_slot _ _ _ S1 j q) as (d & Hd & _); [by rewrite S3|]. destruct (Hother q d Hne Hd) as (d2 & l & Hd2 & Hl). assert (d2 = d') as -> by congruence.
    rewrite (queued_invalid _ _ _ Hl). apply (S10 j q d); [lia|done|done].
Qed.

(** A connection that does not keep alive is closed; a client without one is marked. *)
Lemma maintain_connected_spec p now w c : sound None None w → clients_only w → w_ctxs w !! p = Some c →
  wp (maintain_connected primary_connection_id p now) (λ _ w', attends p w w') w.
Proof.
  intros Hs Hcl Hc. unfold maintain_connected. wp_step. eapply wp_ctx_get; [done|]. cbv beta. pose proof (Hcl p c Hc) as Hb. rewrite (bool_decide_eq_false_2 (is_Some (c_bridge c))) by (rewrite Hb; by intros []).
  do 3 wp_step. eapply wp_ctx_get; [done|]. cbv beta. destruct (_ && _); [|wp_step; by apply attends_refl]. eapply wp_mono; [by apply (disconnect_attends p w c)|]. by intros _ w' [? _].
Qed.
Lemma timeout_swept i p ms w0 w c retry_interval : swept i ms w0 w → behind i p w0 → w_ctxs w !! p = Some c →
  wp (match c_msgs c with [] => mret tt | _ :: _ => mqtt3_db_message_timeout_check p retry_interval;; mret tt end) (λ _ w', swept i ms w0 w') w.
Proof.
  intros Hsw Hi Hc. destruct (c_msgs c); [by wp_step|]. wp_step.
  eapply wp_mono; [by apply (timeout_check_attends p _ w c); [apply Hsw|apply Hsw|]|]. intros _ w' [Ha Hsubs]. wp_step. eapply swept_attends; [done|done|done|].
  intros d d' _ Hd Hd'. assert (d = c) as -> by congruence. by apply Hsubs.
Qed.
Lemma maintenance_contexts_spec n i ms w0 w : (i + n)%nat = length (w_contexts w0) → swept i ms w0 w →
  wp (maintenance_contexts check_connection_id primary_connection_id n i (length ms)) (λ k w', ∃ ms', k = length ms' ∧ swept (i + n) ms' w0 w') w.
Proof.
  revert i ms w. induction n as [|n IH]; intros i ms w Hn Hsw; cbn [maintenance_contexts]; [wp_step; exists ms; by rewrite Nat.add_0_r|].
  replace (i + S n)%nat with (S i + n)%nat in * by lia. do 2 wp_step. rewrite (sw_table _ _ _ _ Hsw). destruct (w_contexts w0 !! i) as [[p|]|] eqn:Hi; [|apply IH; [done|]; apply swept_next; [done|congruence]|apply lookup_ge_None in Hi; lia].
  cbn [mjoin option_join]. assert (behind (S i) p w0) as Hbe by (exists i; split; [lia|done]). assert (∃ c, w_ctxs w !! p = Some c) as [c Hc].
  { destruct (so_slot _ _ _ (sw_sound _ _ _ _ Hsw) i p) as (c & Hc & _); [by rewrite (sw_table _ _ _ _ Hsw)|by exists c]. }
  wp_step. unfold mosquitto_time. apply wp_ext. intros now e _. assert (swept i ms w0 (w <| w_env := e |>)) as Hsw1 by (eapply swept_frame; [exact Hsw|apply benign_env|done..]).
  set (w1 := w <| w_env := e |>) in *. assert (w_ctxs w1 !! p = Some c) as Hc1 by done. wp_step. eapply wp_ctx_get; [done|]. cbv beta. wp_step.
  pose proof (sw_ahead _ _ _ _ Hsw i p c ltac:(lia) Hi Hc) as Hinv. eapply (wp_mono _ (λ k w', ∃ ms', k = length ms' ∧ swept (S i) ms' w0 w' ∧ is_Some (w_ctxs w' !! p))).
  - destruct (is_context_invalid c).
    + unfold maintain_disconnected. wp_step. eapply wp_ctx_get; [done|]. cbv beta. rewrite bool_decide_eq_false_2 by (rewrite (sw_clients _ _ _ _ Hsw p c Hc); by intros []).
      rewrite (co_clean c) by (by apply (so_context _ _ _ (sw_sound _ _ _ _ Hsw) p c)).
      apply (mark_swept i p ms w0 w1 c); [done|done|done|by apply Hinv|]. intros w2 c2 Hsw2 Hc2. exists (ms ++ [p]). split_and!; [done|done|by eexists].
    + wp_step. eapply wp_mono; [by apply (maintain_connected_spec p now w1 c); [apply Hsw1|apply Hsw1|]|]. intros ? w2 Ha. wp_step. exists ms. split_and!; [done| |by destruct Ha as (_ & _ & _ & _ & Hp); apply (Hp c)].
      apply (swept_attends (S i) p ms w0 w1); [|done|done|intros d d' Hin; by apply (swept_fresh _ _ _ _ _ Hsw1 Hi) in Hin]. apply swept_next; [done|]. intros q Hq Hw.
      assert (q = p) as -> by congruence. by apply Hinv in Hw.
  - intros k w2 (ms2 & -> & Hsw2 & [c2 Hc2]). wp_step. eapply wp_ctx_get; [done|]. cbv beta. do 2 wp_step. wp_step. eapply wp_mono; [by apply (timeout_swept (S i) p ms2 w0 w2 c2)|].
    intros ? w3 Hsw3. by apply IH.
Qed.

(** ** The marked sessions *)

(** The sessions [ms] are still to be cleaned, from entry [i] on. *)
Record ending (i : nat) (ms : list ctxid) (w : world) : Prop := {
  en_sound : sound None None w;
  en_marks : ∃ n, w_sessions_to_clean w = replicate i None ++ (Some <$> ms) ++ replicate n None;
  en_leaves : ∀ m, m ∈ ms → no_leaf m w ∧ ∃ j, w_contexts w !! j = Some (Some m);
  en_nodup : NoDup ms }.
(** The contexts [ms] are gone, each with its slot; the others are as they were. *)
Definition gone_all (ms : list ctxid) (w w' : world) : Prop :=
  (∀ q, w_ctxs w' !! q = if decide (q ∈ ms) then None else w_ctxs w !! q) ∧
  ∀ j x, w_contexts w !! j = Some x → w_contexts w' !! j = Some (p ← x; if decide (p ∈ ms) then None else Some p).

(** One session: [p] was in slot [j]. *)
Lemma session_end j p w c (k : ST world ()) (Q : () → world → Prop) : sound None None w → w_contexts w !! j = Some (Some p) → w_ctxs w !! p = Some c → no_leaf p w →
  (∀ w', sound None None w' → cleared j p c w w' → w_sessions_to_clean w' = w_sessions_to_clean w → w_subs w' = w_subs w → wp k Q w') →
  wp (mosquitto_remove_context p;; remove_new_msgs_set p;; c ← ctx_get p; mqtt3_context_cleanup p true false;;
      contexts ← gets w_contexts; assert_ ((0 <=? c_numericId c) && (c_numericId c <? Z.of_nat (length contexts)));;
      modify (λ w, w <| w_contexts ::= <[Z.to_nat (c_numericId c) := None]> |>);; k) Q w.
Proof.
  intros Hs Hj Hc Hno HQ. pose proof (lookup_lt_Some _ _ _ Hj) as Hlt. destruct (so_slot _ _ _ Hs j p Hj) as (c0 & Hc0 & Hn & _). assert (c0 = c) as -> by congruence.
  wp_step. eapply remove_context_spec; [by apply reached_refl|]. intros w2 (Hb2 & Hr2 & Hq2). wp_step. unfold remove_new_msgs_set. wp_step.
  set (w3 := w2 <| w_new_msgs_hash ::= hash_del p |>). assert (benign w w3) as Hb3 by (etrans; [exact Hb2|done]).
  assert (w_ctxs w3 !! p = Some c) as Hc3 by (unfold w3; cbn; rewrite Hq2; apply lookup_insert_eq). assert (w_ctxs w3 = w_ctxs w) as Hw3 by (unfold w3; cbn; rewrite Hq2; by apply insert_id).
  unfold registry in Hr2. injection Hr2 as Hi2 Hx2 _ Ht2 _ _ Hs2. wp_step. eapply wp_ctx_get; [done|]. cbv beta. wp_step.
  eapply wp_mono; [eapply wp_frame; [apply same_subs_cleanup|]; eapply wp_frame; [apply freed_context_cleanup|]; apply (context_cleanup_spec p w3 c false); [eapply benign_ok; [exact Hb3|apply Hs]|done|by apply (so_context _ _ _ Hs p c)|]|].
  { intros _. unfold no_leaf. destruct Hb3 as (_ & _ & _ & -> & _). exact Hno. }
  intros _ w4 [[(Hok4 & Hp4 & _) ((Hq4 & Hx4 & Hs4) & Hsub4 & Hid4)] Ht4]. do 4 wp_step; [rewrite Hn, Hx4; unfold w3; cbn; rewrite Hx2; lia|]. rewrite Hn, Nat2Z.id. do 2 wp_step.
  set (w5 := w4 <| w_contexts ::= <[j := None]> |>). assert (w_contexts w5 = <[j := None]> (w_contexts w)) as Hx5 by (unfold w5; cbn; rewrite Hx4; unfold w3; cbn; by rewrite Hx2).
  assert (∀ q, q ≠ p → w_ctxs w5 !! q = w_ctxs w !! q) as Hq5 by (intros q Hne; unfold w5; cbn; by rewrite (Hq4 q Hne), Hw3).
  assert (sublist (w_clientid_index_hash w5) (w_clientid_index_hash w)) as Hsub5 by (unfold w3 in Hsub4; cbn in Hsub4; by rewrite Hi2 in Hsub4).
  assert (∀ id, c_id c = Some id → NoDup (w_clientid_index_hash w).*1 → id ∉ (w_clientid_index_hash w5).*1) as Hid5.
  { intros id Hid Hnd. apply (Hid4 c id Hc3 Hid). unfold w3. cbn. by rewrite Hi2. }
  apply HQ; [|by split_and!|unfold w5; cbn; rewrite Hs4; unfold w3; cbn; by rewrite Hs2|unfold w5; cbn; rewrite Ht4; unfold w3; cbn; by rewrite Ht2].
  apply (sound_gone p w); [done|eapply benign_ok; [|exact Hok4]; done|done|done| |done|].
  - intros i q. rewrite Hx5. destruct (decide (i = j)) as [->|Hne]; [rewrite list_lookup_insert_eq by done|rewrite list_lookup_insert_ne by done].
    + split; [done|]. intros [Hq Hqp]. congruence.
    + split; [|by intros [? _]]. intros Hi. split; [done|]. intros ->. by apply Hne, (sound_slot_unique _ _ _ _ _ _ Hs Hi Hj).
  - intros d id Hd Hid. assert (d = c) as -> by congruence. apply Hid5; [done|apply Hs].
Qed.

Lemma gone_all_nil w w' : w_ctxs w' = w_ctxs w → w_contexts w' = w_contexts w → gone_all [] w w'.
Proof. intros Hw Hx. split; [intros q; rewrite Hw; by rewrite decide_False by set_solver|]. intros j [p|] Hj; rewrite Hx, Hj; cbn; [by rewrite decide_False by set_solver|done]. Qed.
Lemma gone_all_cons j p c ms w w1 w' : sound None None w → w_contexts w !! j = Some (Some p) → cleared j p c w w1 → gone_all ms w1 w' → gone_all (p :: ms) w w'.
Proof.
  intros Hs Hj (Hx & Hp & Hq & _) [Hg Hgx]. pose proof (lookup_lt_Some _ _ _ Hj) as Hlt. split.
  - intros q. rewrite Hg. destruct (decide (q = p)) as [->|Hne]; [rewrite Hp; destruct (decide (p ∈ p :: ms)); [by case_decide|set_solver]|]. rewrite (Hq q Hne).
    destruct (decide (q ∈ ms)), (decide (q ∈ p :: ms)); try done; set_solver.
  - intros i x Hi. destruct (decide (i = j)) as [->|Hne].
    + assert (x = Some p) as -> by congruence. cbn. rewrite decide_True by set_solver. by rewrite (Hgx j None) by (rewrite Hx; by apply list_lookup_insert_eq).
    + rewrite (Hgx i x) by (rewrite Hx, list_lookup_insert_ne by done; done). destruct x as [q|]; [|done]. cbn. assert (q ≠ p) as Hqp by (intros ->; by apply Hne, (sound_slot_unique _ _ _ _ _ _ Hs Hi Hj)).
      destruct (decide (q ∈ ms)), (decide (q ∈ p :: ms)); try done; set_solver.
Qed.

(** All of them. *)
Definition unmarked (w : world) : Prop := Forall (λ s, s = None) (w_sessions_to_clean w).
Lemma replicate_none n : Forall (λ s : option ctxid, s = None) (replicate n None).
Proof. by apply Forall_replicate. Qed.
Lemma sessions_loop_spec n i ms w : ending i ms w → (i + n)%nat = length (w_sessions_to_clean w) →
  wp (clean_sessions_loop n i true) (λ _ w', sound None None w' ∧ unmarked w' ∧ gone_all ms w w') w.
Proof.
  revert i ms w. induction n as [|n IH]; intros i ms w He Hn; cbn [clean_sessions_loop]; pose proof He as [Hs [k Hm] Hl Hnd].
  { assert (ms = []) as ->. { rewrite Hm, !length_app, !length_replicate, length_fmap in Hn. destruct ms; [done|cbn in Hn; lia]. }
    wp_step. split_and!; [done|unfold unmarked; rewrite Hm; apply Forall_app; split; apply replicate_none|by apply gone_all_nil]. }
  do 2 wp_step. rewrite Hm, lookup_app_r, length_replicate, Nat.sub_diag by (by rewrite length_replicate). destruct ms as [|p ms].
  { replace (mjoin _) with (None : option ctxid) by (by destruct k). wp_step.
    split_and!; [done|unfold unmarked; rewrite Hm; apply Forall_app; split; apply replicate_none|by apply gone_all_nil]. }
  cbn [fmap list_fmap app lookup list_lookup mjoin option_join]. destruct (Hl p) as (Hno & j & Hj); [set_solver|]. destruct (so_slot _ _ _ Hs j p Hj) as (c & Hc & _). apply NoDup_cons in Hnd as [Hp Hnd].
  do 2 wp_step. eapply (session_end j p w c); [done..|]. intros w1 Hs1 Hcl1 Hm1 Ht1. unfold set_session_to_clean. wp_steps; [apply bool_decide_eq_true; rewrite Hm1; lia|]. wp_steps.
  set (w2 := w1 <| w_sessions_to_clean ::= _ |>). assert (w_sessions_to_clean w2 = replicate (S i) None ++ (Some <$> ms) ++ replicate k None) as Hm2.
  { rewrite replicate_S_end, <-app_assoc. unfold w2. cbn. rewrite Hm1, Hm, insert_app_r_alt; rewrite length_replicate; [|done]. by rewrite Nat.sub_diag. }
  assert (ending (S i) ms w2) as He2.
  { split; [split; try apply Hs1; eapply benign_ok; [|apply Hs1]; done|by exists k| |done]. intros m Hin. destruct (Hl m) as (Hnom & jm & Hjm); [set_solver|]. split; [unfold no_leaf, w2; cbn; by rewrite Ht1|].
    exists jm. destruct Hcl1 as (Hx1 & _). unfold w2. cbn. rewrite Hx1, list_lookup_insert_ne; [done|]. intros ->. assert (m = p) by congruence. by subst m. }
  eapply wp_mono; [apply (IH (S i) ms w2 He2)|].
  - rewrite Hm2. rewrite Hm, !length_app, !length_replicate, !length_fmap in Hn. rewrite !length_app, !length_replicate, !length_fmap. cbn in Hn. lia.
  - intros _ w3 (Hs3 & Hu3 & Hg3). split_and!; [done|done|]. by apply (gone_all_cons j p c ms w w1).
Qed.

(** The subscriptions go first, those of all the marked contexts at once. *)
Lemma clean_subs_all (ms : list ctxid) w p : sound None None w → p ∈ ms → (∀ m, m ∈ ms → ∃ c, w_ctxs w !! m = Some c ∧ c_clean_subs c = true) →
  wp mqtt3_subs_clean_session (λ _ w', sound None None w' ∧ (∀ m, m ∈ ms → no_leaf m w') ∧ w_ctxs w' = w_ctxs w ∧ table w' = table w) w.
Proof.
  intros Hs Hp Hms. pose proof (so_ok _ _ _ Hs) as Hok. destruct (Hms p Hp) as (c & Hc & Hcs). pose proof (clean_subs_no_leaf p w c Hok Hc Hcs) as Hw. unfold wp in *.
  destruct (mqtt3_subs_clean_session w) as [[rc w']|] eqn:Hrun; [|done]. destruct Hw as (Hok' & _ & _ & n & e & h & Hw'). assert (w_ctxs w' = w_ctxs w ∧ table w' = table w) as [Hq Ht] by (by subst w').
  split_and!; [|intros m Hm|done|done].
  - eapply sound_change; [done|done|done|]. intros q. rewrite Hq. destruct (w_ctxs w !! q) eqn:Hd; [|done]. split; [done|]. by eapply sound_context.
  - destruct (Hms m Hm) as (d & Hd & Hds). pose proof (clean_subs_no_leaf m w d Hok Hd Hds) as Hwm. unfold wp in Hwm. rewrite Hrun in Hwm. apply Hwm.
Qed.
Lemma wp_gets_inv {A B} (f : world → A) (k : A → ST world B) (Q : B → world → Prop) w : wp (gets f ≫= k) Q w → wp (k (f w)) Q w.
Proof. done. Qed.
Lemma clean_sessions_spec (ms : list ctxid) n w : sound None None w → w_sessions_to_clean w = (Some <$> ms) ++ replicate n None → NoDup ms → ms ≠ [] →
  (∀ m, m ∈ ms → ∃ j c, w_contexts w !! j = Some (Some m) ∧ w_ctxs w !! m = Some c ∧ c_clean_subs c = true) →
  wp clean_sessions (λ _ w', sound None None w' ∧ unmarked w' ∧ gone_all ms w w') w.
Proof.
  intros Hs Hm Hnd Hne Hms. destruct ms as [|p ms]; [done|]. unfold clean_sessions. do 2 wp_step. destruct (length (w_sessions_to_clean w)) as [|k] eqn:Hlen; [by rewrite Hm in Hlen|].
  assert (∀ w1, w_sessions_to_clean w1 = w_sessions_to_clean w → sound None None w1 → (∀ m, m ∈ p :: ms → no_leaf m w1) → w_ctxs w1 = w_ctxs w → w_contexts w1 = w_contexts w →
    wp (clean_sessions_loop (S k) 0 true) (λ _ w', sound None None w' ∧ unmarked w' ∧ gone_all (p :: ms) w w') w1) as Hloop.
  { intros w1 Em Hs1 Hl Hw1 Hx1. eapply wp_mono; [apply (sessions_loop_spec (S k) 0 (p :: ms) w1)|].
    - split; [done|exists n; by rewrite Em|intros m Hin; split; [by apply Hl|]; destruct (Hms m Hin) as (j & c & Hj & _); exists j; by rewrite Hx1|done].
    - by rewrite Em, Hlen.
    - intros _ w' (Hs' & Hu' & Hg & Hgx). split_and!; [done|done|]. unfold gone_all. by rewrite <-Hw1, <-Hx1. }
  cbn [clean_sessions_loop] in *. do 2 wp_step. rewrite Hm. cbn [fmap list_fmap app lookup list_lookup mjoin option_join]. do 2 wp_step. eapply wp_mono; [apply (clean_subs_all (p :: ms) w p Hs); [set_solver|]|].
  { intros m Hin. destruct (Hms m Hin) as (j & c & _ & Hc). by exists c. }
  intros ? w1 (Hs1 & Hl1 & Hw1 & Ht1). unfold table in Ht1. injection Ht1 as Hx1 Hi1 Hm1. wp_step. specialize (Hloop w1 Hm1 Hs1 Hl1 Hw1 Hx1).
  apply (wp_gets_inv w_sessions_to_clean) in Hloop. rewrite Hm1, Hm in Hloop. exact Hloop.
Qed.

(** ** The pass *)

Lemma maintenance_loop_spec w : sound None None w → clients_only w → unmarked w →
  wp (maintenance_loop check_connection_id primary_connection_id) (λ _ w', sound None None w' ∧ clients_only w' ∧ unmarked w' ∧
    ∀ i p c, w_contexts w !! i = Some (Some p) → w_ctxs w !! p = Some c →
      if is_context_invalid c then w_contexts w' !! i = Some None ∧ w_ctxs w' !! p = None
      else w_contexts w' !! i = Some (Some p) ∧ is_Some (w_ctxs w' !! p)) w.
Proof.
  intros Hs Hcl Hu. unfold maintenance_loop. wp_step. apply resize_spec; [done|]. intros n Hn. set (w1 := w <| w_sessions_to_clean := replicate n None |>). do 2 wp_step.
  assert (swept 0 [] w w1) as Hsw.
  { split.
    - split; try apply Hs. eapply benign_ok; [|apply Hs]. done.
    - done.
    - done.
    - unfold w1. cbn. by rewrite length_replicate.
    - by exists n.
    - cbn. lia.
    - intros m Hm. by apply elem_of_nil in Hm.
    - constructor.
    - lia.
    - intros j p c _ _ Hc. split; [intros Hi; by exists c|]. intros (d & Hd & Hi). assert (d = c) as -> by (unfold w1 in Hc; cbn in Hc; congruence). done. }
  wp_step. eapply wp_mono; [by apply (maintenance_contexts_spec (length (w_contexts w)) 0 [] w w1)|]. intros ? w2 (ms & -> & [S1 S2 S3 S4 [k S5] S6 S7 S8 S9 S10]).
  eapply (wp_mono _ (λ _ w', sound None None w' ∧ unmarked w' ∧ gone_all ms w2 w')).
  { destruct ms as [|p ms]; [change (if (0 <? length [])%nat then clean_sessions else mret tt) with (mret tt : ST world ()); wp_step; split_and!; [done|unfold unmarked; rewrite S5; apply replicate_none|by apply gone_all_nil]|].
    apply (clean_sessions_spec (p :: ms) k w2); [done|done|done|done|]. intros m Hm. destruct (S7 m Hm) as (_ & j & c & _ & Hx & Hc). exists j, c. by rewrite S3. }
  intros ? w3 (Hs3 & Hu3 & Hg & Hgx). split_and!; [done| |done|].
  { intros q d Hd. rewrite Hg in Hd. case_decide; [done|]. by eapply S2. }
  intros i p c Hi Hc. specialize (Hgx i (Some p)). rewrite S3 in Hgx. specialize (Hgx Hi). cbn in Hgx. rewrite Hgx, (Hg p).
  destruct (is_context_invalid c) eqn:Hinv.
  - assert (p ∈ ms) as Hp by (apply (S9 i); [cbn; by eapply lookup_lt_Some|done|by exists c]). by rewrite !decide_True by done.
  - assert (p ∉ ms) as Hp. { intros Hp. destruct (S7 p Hp) as ((d & Hd & Hdi) & _). assert (d = c) as -> by (unfold w1 in Hd; cbn in Hd; congruence). congruence. }
    rewrite !decide_False by done. split; [done|]. destruct (so_slot _ _ _ S1 i p) as (d & Hd & _); [by rewrite S3|]. by exists d.
Qed.

(** C6: the maintenance pass cleans up exactly the clients that are gone. On a sound
    broker without bridges [maintenance_loop] returns, whoever is disconnected meanwhile
    for not keeping alive: every client that had no connection when the pass began is
    freed and its slot is empty, every other keeps its slot; the subscriptions and the
    queues of all the freed clients went in one sweep, and the broker is sound, with no
    session left to be cleaned. *)
Theorem maintenance_cleans w : sound None None w → clients_only w → unmarked w →
  wp (maintenance_loop check_connection_id primary_connection_id) (λ _ w', sound None None w' ∧ clients_only w' ∧ unmarked w' ∧
    ∀ i p c, w_contexts w !! i = Some (Some p) → w_ctxs w !! p = Some c →
      if is_context_invalid c then w_contexts w' !! i = Some None ∧ w_ctxs w' !! p = None
      else w_contexts w' !! i = Some (Some p) ∧ is_Some (w_ctxs w' !! p)) w.
Proof. apply maintenance_loop_spec. Qed.
End maintenance.
