(* ===== verification/Running.v ===== *)
(** * The running broker

    The turns of [mosquitto_main_loop]: a connection is accepted, an event of a socket
    is handled, a client registered or written to, the maintenance pass made, a task of
    the work queue run. Whatever the order and the number of the turns, a broker of
    clients is sound after each of them and no turn is undefined. *)

From S2P Require Import Prelude Topic State Packet PacketProofs Writer Database DatabaseProofs StoreProofs DeliveryProofs Subs SubsProofs SubscribeProofs UnsubscribeProofs SubsClaims PublishProofs Queue Contexts ContextProofs.
From S2P Require Import Handlers HandlerProofs SubscribeHandlerProofs Frames HandleSafety Soundness MessageClaims Net NetProofs Connect PacketRead ReadSafe Bridge Loop EventSafe Fabric Metrics Services Configuration WorkQueue WorkQueueProofs MaintenanceSafe.
From stdpp Require Import options.

Section running.
Context `{Env} `{!EnvLaws} `{!ReadLaws}.
#[local] Set Default Proof Using "Type*".
Implicit Types p : ctxid.

(** ** Writing to a client *)

Lemma handled_write_entry r p i m s : frame (handled (r, Some p)) (write_entry p i m s).
Proof. unfold write_entry, send_entry, sent_or, _mosquitto_send_publish, _mosquitto_send_real_publish, _mosquitto_send_pubrec, _mosquitto_send_pubrel, _mosquitto_send_pubcomp, _mosquitto_send_command_with_mid. handles. Qed.
#[local] Hint Resolve handled_write_entry : frames.
Lemma handled_write_loop fuel r p i n : frame (handled (r, Some p)) (message_write_loop fuel p i n).
Proof. revert i n. induction fuel as [|fuel IH]; intros; cbn [message_write_loop]; handles; apply IH. Qed.
Lemma handled_message_write r p : frame (handled (r, Some p)) (mqtt3_db_message_write p).
Proof. unfold mqtt3_db_message_write. handles. apply handled_write_loop. Qed.

(** What [mqtt3_db_message_write] asks of the queue: messages that have a topic and fit
    a packet, and room for them. *)
Definition writable (p : ctxid) (w : world) : Prop :=
  ∀ c, w_ctxs w !! p = Some c → c_packet_count c + Z.of_nat (length (c_msgs c)) < 2 ^ 64 ∧ Forall (entry_ok w c) (c_msgs c).
Lemma message_write_sound p w c : sound None None w → w_ctxs w !! p = Some c → writable p w →
  wp (mqtt3_db_message_write p) (λ _ w', sound None None w' ∧ handled (None, Some p) w w' ∧ is_Some (w_ctxs w' !! p)) w.
Proof.
  intros Hs Hc Hwr. destruct (Hwr c Hc) as [Hroom Hall]. pose proof (so_ok _ _ _ Hs) as [Hdb [Htree Hlive] Hg Hroot].
  eapply wp_mono; [apply (wp_frame (handled (None, Some p))); [apply handled_message_write|apply (message_write_spec p w c); [done|done| |done|done]; by eapply co_output, so_context]|].
  intros _ w' [(c' & Hsv) Hh]. pose proof (served_facts _ _ _ _ _ Hsv) as (Hdb' & Hc' & Hwf' & _). destruct Hsv as ((stores & e & Hw') & _). split_and!; [|done|by eexists].
  eapply sound_handled; [done|exact Hh| |intros d Hd; by assert (d = c') as -> by congruence]. split; [done| |by subst w'|by subst w'].
  split; [by subst w'|]. assert (w_subs w' = w_subs w) as -> by (by subst w'). eapply same_ids_live; [|exact Hlive]. intros q. destruct Hh as [_ Hq]. specialize (Hq q). unfold client_id.
  destruct (w_ctxs w !! q), (w_ctxs w' !! q); try done. destruct Hq as ([= _ _ Hid _ _ _ _ _ _ _] & _). cbn. by rewrite Hid.
Qed.

Lemma write_context_messages_sound p now w c : sound None None w → w_ctxs w !! p = Some c → writable p w →
  wp (write_context_messages p now) (λ _ w', sound None None w' ∧ is_Some (w_ctxs w' !! p)) w.
Proof.
  intros Hs Hc Hwr. assert (∀ w1 c1, sound None None w1 → w_ctxs w1 !! p = Some c1 → wp (mqtt3_context_disconnect p) (λ _ w', sound None None w' ∧ is_Some (w_ctxs w' !! p)) w1) as Hclose.
  { intros w1 c1 Hs1 Hc1. eapply wp_mono; [by apply (disconnect_sound None None p w1 c1)|]. intros _ w2 (Hs2 & c2 & Hc2 & _). split; [done|by eexists]. }
  unfold write_context_messages. wp_step. eapply wp_ctx_get; [done|]. cbv beta. destruct (_ || _); [|by apply (Hclose w c)]. wp_step.
  eapply wp_mono; [by apply (message_write_sound p w c)|]. intros rc w1 (Hs1 & _ & [c1 Hc1]). destruct (_ =? _); [wp_step; split; [done|by eexists]|by apply (Hclose w1 c1)].
Qed.
Lemma write_client_sound p w c : sound None None w → w_ctxs w !! p = Some c → writable p w → wp (write_client p) (λ _ w', sound None None w') w.
Proof.
  intros Hs Hc Hwr. unfold write_client. wp_step. eapply wp_ctx_get; [done|]. cbv beta. destruct (is_context_invalid c); [by wp_step|]. wp_step. unfold mosquitto_time. apply wp_ext. intros now e _.
  set (w1 := w <| w_env := e |>). assert (sound None None w1) as Hs1 by (eapply sound_frame; [exact Hs|apply benign_env|done..]). wp_step.
  eapply wp_mono; [by apply (write_context_messages_sound p now w1 c)|]. intros _ w2 (Hs2 & c2 & Hc2). wp_step. eapply wp_ctx_get; [done|]. cbv beta.
  destruct (c_msgs c2); [|by wp_step]. unfold remove_new_msgs_set. wp_step. by eapply sound_frame.
Qed.
Lemma register_client_sound p w c : sound None None w → w_ctxs w !! p = Some c → wp (register_client p) (λ _ w', sound None None w') w.
Proof.
  intros Hs Hc. unfold register_client, remove_new_clients_set. wp_step. eapply wp_ctx_get; [done|]. cbv beta. wp_step. eapply (wp_mono _ (λ _ w', sound None None w')).
  - destruct (_ =? _); [by wp_step|]. eapply wp_update_context; [done|]. intros c' e Ho Hq _. eapply wrote_sound; [exact Hs|exact Hc|by exists e|done|]. by eapply same_queue_wf, so_context.
  - intros _ w1 Hs1. wp_step. by eapply sound_frame.
Qed.

(** What none of this does: the table stays, and no bridge comes up. *)
Lemma keeps_write_client p : frame keeps (write_client p).
Proof. unfold write_client, write_context_messages, remove_new_msgs_set, mosquitto_time. keeping. eapply frame_weaken; [apply keeps_handled|apply (handled_message_write None)]. Qed.
Lemma keeps_register_client p : frame keeps (register_client p).
Proof. unfold register_client, remove_new_clients_set. keeping. eapply frame_weaken; [apply keeps_handled|apply (handled_update_context None)]. Qed.

(** ** Tasks of the work queue *)

Lemma revoke_certs_sound certs p l w c : sound None None w → w_ctxs w !! p = Some c →
  wp (revoke_certs certs p l) (λ _ w', sound None None w') w.
Proof.
  revert w c. induction l as [|cert l IH]; intros w c Hs Hc; cbn [revoke_certs]; [by wp_step|]. wp_step. case_bool_decide; [|wp_step; by apply (IH w c)].
  eapply wp_mono; [by apply (disconnect_sound None None p w c)|]. intros _ w1 (Hs1 & c1 & Hc1 & _). by apply (IH w1 c1).
Qed.
Lemma revoke_loop_sound certs n i w : sound None None w → wp (revoke_loop certs n i) (λ _ w', sound None None w') w.
Proof.
  revert i w. induction n as [|n IH]; intros i w Hs; cbn [revoke_loop]; [by wp_step|]. do 3 wp_step. destruct (mjoin _) as [p|] eqn:Hi; [|wp_step; by apply IH].
  apply mjoin_Some in Hi. destruct (so_slot _ _ _ Hs i p Hi) as (c & Hc & _). wp_step. eapply wp_ctx_get; [done|]. cbv beta.
  eapply wp_mono; [by eapply (revoke_certs_sound certs p _ w c)|]. intros ? w1 Hs1. by apply IH.
Qed.
Lemma keeps_revoke_certs certs p l : frame keeps (revoke_certs certs p l).
Proof. induction l as [|cert l IH]; cbn [revoke_certs]; keeping. Qed.
#[local] Hint Resolve keeps_revoke_certs : frames.
Lemma keeps_revoke_loop certs n i : frame keeps (revoke_loop certs n i).
Proof. revert i. induction n as [|n IH]; intros i; cbn [revoke_loop]; keeping; apply IH. Qed.

Lemma send_sound topic payloadlen payload bs w : sound None None w → payload_bytes payloadlen payload bs →
  wp (mqtt3_db_messages_easy_queue None topic 0 payloadlen payload false) (λ _ w', sound None None w' ∧ keeps w w') w.
Proof.
  intros Hs Hp. assert (frame (handled (None, None)) (mqtt3_db_messages_easy_queue None topic 0 payloadlen payload false)) as Hf by (unfold mqtt3_db_messages_easy_queue; handles).
  eapply (wp_mono _ (λ _ w', broker_ok w' ∧ handled (None, None) w w')).
  - apply (wp_frame (handled (None, None))); [done|]. clear Hf. pose proof (so_ok _ _ _ Hs) as Hok. unfold mqtt3_db_messages_easy_queue. do 3 wp_step.
    eapply wp_mono; [by apply (message_store_spec None _ _ _ _ _ _ bs); [apply Hok|..]|]. intros x w1 (Hx & Hdb1 & Hfr & s & bs' & Hst & _). pose proof (stored_ok _ _ Hfr Hdb1 Hok) as Hok1.
    eapply wp_mono; [apply messages_queue_safe; [done|rewrite Hst, lookup_insert_eq; by eexists|done]|]. intros rc w2 (_ & n & Hg). by eapply grown_ok.
  - intros _ w' [Hok' Hh]. split; [|by eapply keeps_handled]. eapply sound_change; [done|done|apply Hh|]. intros q. destruct Hh as [_ Hq]. specialize (Hq q).
    destruct (w_ctxs w !! q) as [c|] eqn:Hc, (w_ctxs w' !! q) as [c'|]; try done. destruct Hq as (Hpl & Hin & Hout & Ho). split; [unfold place in Hpl; unfold slot; congruence|].
    apply (place_sound _ _ _ c); [done|by intros _; apply Hin| |done|by eapply sound_context]. apply (output_wf c); [by apply Hout|by eapply so_context].
Qed.

Lemma clear_no_bridges n i w : sound None None w → clients_only w → wp (clear_bridges_loop n i) (λ _ w', w' = w) w.
Proof.
  intros Hs Hcl. revert i. induction n as [|n IH]; intros i; cbn [clear_bridges_loop]; [by wp_step|]. do 3 wp_step. destruct (mjoin _) as [p|] eqn:Hi; [|wp_step; apply IH].
  apply mjoin_Some in Hi. destruct (so_slot _ _ _ Hs i p Hi) as (c & Hc & _). wp_step. eapply wp_ctx_get; [done|]. cbv beta. rewrite bool_decide_eq_true_2 by (by eapply Hcl). wp_step. apply IH.
Qed.

(** The tasks of a broker without bridges; a message that is sent is as long as it says. *)
Definition task_guard (t : Runnable) : Prop :=
  match t with
  | BridgeConfigurationRunner _ config => isEnabled config = false
  | SendMessageRunner _ payloadLen (Some payload) => payloadLen = Z.of_nat (length payload)
  | _ => True
  end.
Lemma task_sound t w : sound None None w → clients_only w → task_guard t → wp (run_task t) (λ _ w', sound None None w' ∧ keeps w w') w.
Proof.
  intros Hs Hcl Hg. destruct t as [topic len payload|random config|limit|mins|certs]; cbn [run_task].
  - unfold send_message_run. wp_step. eapply (wp_mono _ (λ _ w', sound None None w' ∧ keeps w w')); [|intros ? w' Hw'; wp_step; exact Hw'].
    destruct (_ && _) eqn:Hb; [|apply (send_sound topic 0 None []); [done|split; [done|by right]]]. apply andb_true_iff in Hb as [_ [bs ->]%bool_decide_eq_true]. apply (send_sound topic len (Some bs) bs); [done|]. cbn in Hg. split; [done|by left].
  - cbn in Hg. unfold bridge_configuration_run, clearCurrentBridges. do 3 wp_step. eapply wp_mono; [by apply clear_no_bridges|]. intros ? w' ->. rewrite Hg. wp_step. done.
  - unfold mqtt3_dxl_set_max_connect_count. wp_step. split; [by eapply sound_frame|by apply keeps_same].
  - unfold mqtt3_set_default_bridge_keepalive. wp_step. split; [by eapply sound_frame|by apply keeps_same].
  - unfold revoke_certs_run. destruct certs as [certs|]; [|by wp_step]. do 2 wp_step. apply wp_frame; [apply keeps_revoke_loop|by apply revoke_loop_sound].
Qed.
End running.

(** ** Turns *)

Section turns.
Context `{Env} `{!EnvLaws} `{!ReadLaws} `{!NetEnv} `{!NetLaws}.
#[local] Set Default Proof Using "Type*".
Variables NID_dxlClientGuid NID_dxlTenantGuid : Z.
Variable listeners : list mqtt3_listener.
Variables check_connection_id primary_connection_id : Z.
Implicit Types p : ctxid.

Inductive turn :=
  | Accept (listensock : Z)
  | SocketEvent (i : nat) (events : Z)
  | Register (p : ctxid)
  | Write (p : ctxid)
  | Maintain
  | Work (t : Runnable).
Definition run_turn (t : turn) : ST world () :=
  match t with
  | Accept listensock => mqtt3_socket_accept NID_dxlClientGuid NID_dxlTenantGuid listeners listensock;; mret tt
  | SocketEvent i events => handle_event i events
  | Register p => register_client p
  | Write p => write_client p
  | Maintain => maintenance_loop check_connection_id primary_connection_id
  | Work t => run_task t
  end.

(** When a turn may come: epoll reports entries of the table; a client has room for one
    more packet, and its queue what can be sent; the sets of clients to register and to
    write to hold contexts. *)
Definition turn_guard (t : turn) (w : world) : Prop :=
  match t with
  | SocketEvent i _ => (i < length (w_contexts w))%nat ∧
      ∀ p c, w_contexts w !! i = Some (Some p) → w_ctxs w !! p = Some c → c_packet_count c + 1 < 2 ^ 64
  | Register p => is_Some (w_ctxs w !! p)
  | Write p => is_Some (w_ctxs w !! p) ∧ writable p w
  | Work t => task_guard t
  | Accept _ | Maintain => True
  end.

(** The broker between two turns. *)
Definition running (w : world) : Prop := sound None None w ∧ clients_only w ∧ unmarked w.
Inductive reachable (w0 : world) : world → Prop :=
  | reachable_start : reachable w0 w0
  | reachable_turn t w w' : reachable w0 w → turn_guard t w → run_turn t w = Some (tt, w') → reachable w0 w'.

Lemma running_keeps w w' : running w → sound None None w' → keeps w w' → running w'.
Proof.
  intros (Hs & Hcl & Hu) Hs' [[Hx Hm] Hk]. split_and!; [done| |by unfold unmarked; rewrite Hm]. intros p c' Hc'. specialize (Hk p). rewrite Hc' in Hk.
  destruct (w_ctxs w !! p) as [c|] eqn:Hc; [|done]. apply Hk. by eapply Hcl.
Qed.
Lemma turn_running t w : running w → turn_guard t w → wp (run_turn t) (λ _ w', running w') w.
Proof.
  intros Hrun Hg. pose proof Hrun as (Hs & Hcl & Hu). assert (∀ m : ST world (), frame keeps m → wp m (λ _ w', sound None None w') w → wp m (λ _ w', running w') w) as Hkeep.
  { intros m Hf Hm. eapply wp_mono; [by apply (wp_frame keeps)|]. intros _ w' [Hs' Hk]. by eapply running_keeps. }
  destruct t as [listensock|i events|p|p| |t]; cbn [run_turn turn_guard] in *.
  - wp_step. eapply wp_mono; [by apply socket_accept_safe|]. intros rc w' (Hs' & Hm & Hcase). wp_step. split_and!; [done| |by unfold unmarked; rewrite Hm].
    destruct Hcase as [(_ & _ & Hw & _)|(_ & p & Hp & _ & c & i & li & Hw & Hgu & _)]; intros q d; rewrite Hw; [apply Hcl|]. destruct (decide (q = p)) as [->|Hne].
    + rewrite lookup_insert_eq. intros [= <-]. apply Hgu.
    + rewrite lookup_insert_ne by done. apply Hcl.
  - apply Hkeep; [apply keeps_handle_event|]. apply handle_event_safe; [done|]. destruct Hg as [Hi Hroom]. split; [done|]. intros p Hp.
    destruct (so_slot _ _ _ Hs i p Hp) as (c & Hc & _). exists c. split_and!; [by exists i|done|by eapply Hcl|by eapply Hroom].
  - destruct Hg as [c Hc]. apply Hkeep; [apply keeps_register_client|by eapply register_client_sound].
  - destruct Hg as [[c Hc] Hwr]. apply Hkeep; [apply keeps_write_client|by eapply write_client_sound].
  - eapply wp_mono; [by apply maintenance_loop_spec|]. intros _ w' (Hs' & Hcl' & Hu' & _). done.
  - eapply wp_mono; [by apply task_sound|]. intros _ w' [Hs' Hk]. by eapply running_keeps.
Qed.
Lemma reachable_running w0 w : running w0 → reachable w0 w → running w.
Proof.
  intros Hrun Hr. induction Hr as [|t w w' Hr IH Hg Hw]; [done|]. pose proof (turn_running t w IH Hg) as Ht. unfold wp in Ht. by rewrite Hw in Ht.
Qed.

(** A broker as [mosquitto_main] starts it. *)
Record blank (w : world) : Prop := {
  bl_ctxs : w_ctxs w = ∅;
  bl_stores : w_stores w = ∅;
  bl_msg_store : w_msg_store w = [];
  bl_count : w_msg_store_count w = 0;
  bl_retained : h_retained (w_subs w) = None;
  bl_sessions : w_sessions_to_clean w = [] }.
Lemma blank_ok w e h : blank w → broker_ok (w <| w_last_db_id := e |> <| w_contexts := replicate CONTEXT_REALLOC_SIZE None |> <| w_clientid_index_hash := h |> <| w_subs := empty_tree |>).
Proof.
  intros [B1 B2 B3 B4 B5 B6]. split; [split|split| |]; cbn; rewrite ?B1, ?B2, ?B3, ?B4.
  - by intros q c; rewrite lookup_empty.
  - by intros q m; rewrite lookup_empty.
  - by intros q c; rewrite lookup_empty.
  - constructor.
  - intros s. rewrite lookup_empty. split; [intros Hs; by apply not_elem_of_nil in Hs|by intros []].
  - done.
  - apply wf_empty_tree.
  - intros path. rewrite leaves_empty_tree. constructor.
  - intros path. cbn. rewrite leaves_empty_tree. constructor.
  - done.
Qed.
Lemma db_open_running w : blank w → wp mqtt3_db_open (λ rc w', rc = 0 ∧ running w' ∧ w_ctxs w' = ∅) w.
Proof.
  intros Hb. unfold mqtt3_db_open. do 3 wp_step. pose proof (blank_ok w 0 [] Hb) as Hok. destruct Hb as [B1 B2 B3 B4 B5 B6].
  match goal with |- _ ∧ running ?w1 ∧ _ => set (w' := w1); assert (w' = w <| w_last_db_id := 0 |> <| w_contexts := replicate CONTEXT_REALLOC_SIZE None |> <| w_clientid_index_hash := [] |> <| w_subs := empty_tree |>) as Hw' end.
  { unfold w'. unfold empty_tree. rewrite <-B5. by destruct w. }
  rewrite Hw'. clear w' Hw'. split; [done|]. split; [|done]. split; [|split; [|by unfold unmarked; cbn; rewrite B6]].
  - split; [done|..|constructor].
    + intros i p Hi. apply lookup_replicate in Hi as [? _]. done.
    + intros p c. cbn. by rewrite B1, lookup_empty.
    + intros p c. cbn. by rewrite B1, lookup_empty.
    + intros p c. cbn. by rewrite B1, lookup_empty.
    + intros id i Hi. by apply not_elem_of_nil in Hi.
  - intros p c. cbn. by rewrite B1, lookup_empty.
Qed.

(** C1: the broker keeps running. Once [mqtt3_db_open] has set up a broker that has
    nothing yet, any number of turns of the event loop may follow in any order:
    connections that are accepted or refused, events of sockets with whatever the
    clients sent and however much the sockets take, clients registered and written to,
    maintenance passes, tasks of the work queue. No turn whose guard holds is ever
    undefined, and after each the broker is sound: the invariant of its database, its
    subscriptions, its table of contexts, its index of identifiers and all its clients
    is never broken. The guards ([turn_guard]): epoll reports entries of the table, of a
    client with room for one more packet in its 64-bit counter; who is registered or
    written to is a context, and the queue that is written holds entries as the broker
    makes them, that fit a packet ([writable]); a task that sends has the payload that its
    length says, and no task makes a bridge, so that all contexts are clients. Of the
    environment: what the transport reports as read and written was, and OpenSSL keeps
    [NetLaws]. Websockets are off. *)
Theorem broker_keeps_running w : blank w → ∃ w0, mqtt3_db_open w = Some (0, w0) ∧
  ∀ w1 t, reachable w0 w1 → turn_guard t w1 → running w1 ∧ ∃ w2, run_turn t w1 = Some (tt, w2) ∧ running w2.
Proof.
  intros Hb. pose proof (db_open_running w Hb) as Hopen. unfold wp in Hopen. destruct (mqtt3_db_open w) as [[rc w0]|]; [|done]. destruct Hopen as (-> & Hrun & _).
  exists w0. split; [done|]. intros w1 t Hr Hg. pose proof (reachable_running _ _ Hrun Hr) as Hw. split; [done|]. pose proof (turn_running t w1 Hw Hg) as Ht. unfold wp in Ht.
  destruct (run_turn t w1) as [[[] w2]|]; [|done]. by exists w2.
Qed.
End turns.
