(* ===== verification/RunningExamples.v ===== *)
(** * A broker that runs

    A transport on which a client sends what is given, and the broker library allows
    everything: the broker is set up, lets the client in, and serves it. *)

From S2P Require Import Prelude Topic State Packet PacketProofs Writer Database DatabaseProofs StoreProofs DeliveryProofs Subs SubsProofs SubscribeProofs UnsubscribeProofs SubsClaims PublishProofs Queue Contexts ContextProofs.
From S2P Require Import Handlers HandlerProofs SubscribeHandlerProofs Frames HandleSafety Soundness MessageClaims Net NetProofs Connect PacketSafe PacketRead ReadSafe Bridge Loop EventSafe Fabric Metrics Services Configuration WorkQueue WorkQueueProofs MaintenanceSafe Running.
From stdpp Require Import options.

(** ** The environment: what is still to be read, and what was sent *)

Definition traffic : Type := list Z * list (chan * list Z).
Definition sent_to (e : traffic) (ch : chan) : list Z := concat (map (λ x, if decide (x.1 = ch) then x.2 else []) e.2).
Definition send_to (ch : chan) (bs : list Z) (e : traffic) : traffic := (e.1, e.2 ++ [(ch, bs)]).
Definition take_input (n : Z) (e : traffic) : (Z * list Z) * traffic :=
  match e.1 with
  | [] => ((-1, []), e)
  | l => let bs := (λ b, b mod 256) <$> take (Z.to_nat n) l in ((Z.of_nat (length bs), bs), (drop (Z.to_nat n) l, e.2))
  end.

#[export] Instance live_env : Env := {|
  env := traffic;
  env_time := λ e, (1000, e);
  env_write := λ s buf e, ((Z.of_nat (length buf), 0), send_to (Sock s) buf e);
  env_ssl_write := λ s buf e, ((Z.of_nat (length buf), ssl_other), send_to (Sock s) buf e);
  env_ws_write := λ p buf e, (Z.of_nat (length buf), send_to (Ws p) buf e);
  env_ws_callback := λ _ e, e;
  env_close := λ _ e, (0, e);
  env_epoll_del := λ _ e, e;
  env_epoll_set := λ _ _ _ e, e;
  env_read := λ _ n e, let '((r, bs), e') := take_input n e in ((r, EAGAIN, bs), e');
  env_ssl_read := λ _ n e, let '((r, bs), e') := take_input n e in ((r, ssl_want_read, bs), e');
  env_ssl_pending := λ _ _, 0;
  env_ssl_shutdown := λ _ e, e;
  env_socket_connect := λ _ _ e, ((0, 9, false, false), e);
  env_errno_enotconn := λ _, false;
  env_peer_address := λ _ e, (Some "10.0.0.1", e);
  env_gethostname := λ _, Some "host";
  env_generate_guid := λ e, ("{guid}", e);
  dxl_is_multi_tenant_mode_enabled := λ _, false;
  dxl_is_tenant_subscription_allowed := λ _ e, (true, e);
  dxl_on_topic_added_to_broker := λ _ e, e;
  dxl_on_topic_removed_from_broker := λ _ e, e;
  dxl_on_pre_insert_message_packet_queue_exceeded := λ _ _ e, (true, e);
  dxl_on_insert_message := λ _ _ e, ((true, false, None), e);
  dxl_on_store_message := λ _ _ e, (None, e);
  dxl_on_publish_message := λ _ _ _ e, (true, e);
  dxl_on_finalize_message := λ _ e, e;
  dxl_get_broker_tenant_guid := λ _, "tenant";
  dxl_on_client_connected := λ _ e, e;
  dxl_on_client_disconnected := λ _ e, e;
  dxl_on_bridge_connected := λ _ e, e;
  dxl_on_bridge_disconnected := λ _ e, e;
  dxl_is_bridge_connect_allowed := λ _ e, (true, e);
  dxl_update_sent_byte_count := λ _ _ e, (false, e);
  dxl_check_connection_get_status := λ _ e, (0, e);
  dxl_check_connection_push := λ _ _ _ e, e;
  dxl_check_connection_pop := λ _ e, (None, e) |}.

(** A certificate with the fingerprint 1, 2, ..., 20. *)
Definition demo_cert : x509 := mk_x509 (Some (seqZ 1 20)) (Some [Some (mk_x509_extension 7 (Some [12; 2; 97; 98]))]).
#[export] Instance live_net : NetEnv := {|
  net_accept := λ _ e, (7, e);
  net_nonblock := λ _ e, (false, e);
  ssl_new := λ _ e, (true, e);
  ssl_certificates := λ _ e, ([Some demo_cert], e);
  ssl_accept := λ _ oks e, (if forallb id oks then (1, ssl_other) else (-1, ssl_other), e);
  asn1_get_object := λ octets, (if bool_decide (2 <= length octets)%nat then 0 else 0x80, 2, Z.of_nat (length octets) - 2);
  dxl_is_cert_revoked := λ h _, String.eqb h "ff";
  dxl_is_tenant_connection_allowed := λ _ e, (true, e) |}.

Lemma sent_to_snoc e ch ch' bs : sent_to (send_to ch' bs e) ch = sent_to e ch ++ if decide (ch = ch') then bs else [].
Proof. unfold sent_to, send_to. cbn. rewrite map_app, concat_app. cbn. rewrite app_nil_r. f_equal. repeat case_decide; congruence. Qed.
#[export] Instance live_laws : EnvLaws.
Proof.
  refine {| env_sent := sent_to |}; cbn; try done.
  - intros s buf e n err e' [= <- _ <-]. split; [done|]. intros ch. by rewrite sent_to_snoc, Nat2Z.id, firstn_all.
  - intros s buf e n err e' [= <- _ <-]. split; [done|]. intros ch. by rewrite sent_to_snoc, Nat2Z.id, firstn_all.
  - intros p buf e n e' [= <- <-] ch. rewrite sent_to_snoc. by destruct (Z.leb_spec 0 (Z.of_nat (length buf))); [|lia].
  - by intros e t e' [= _ <-].
Defined.
Lemma take_input_promise n e : read_promise n (take_input n e).1.1 (take_input n e).1.2.
Proof.
  unfold take_input. destruct (e.1) as [|b l]; [by intros ?|]. cbn. intros Hr. split_and!; [|done|].
  - rewrite length_fmap, length_take in *. lia.
  - apply Forall_fmap, Forall_true. intros x. apply Z.mod_pos_bound. lia.
Qed.
#[export] Instance live_read_laws : ReadLaws.
Proof.
  split; intros s n e; cbn; pose proof (take_input_promise n e) as Hp; destruct (take_input n e) as [[r bs] e']; exact Hp.
Defined.
#[export] Instance live_net_laws : NetLaws.
Proof.
  split.
  - intros s e. constructor; [|constructor]. intros x fprint [= <-] [= <-]. done.
  - intros s oks e Hin. cbn. destruct (forallb id oks) eqn:Hall; [|done]. rewrite forallb_forall in Hall. apply list_elem_of_In, Hall in Hin. done.
  - intros octets ret hdr xlen. cbn. case_bool_decide; intros [= <- <- <-]; cbn; [lia|done].
Defined.

(** ** A session *)

Definition demo_listeners : list mqtt3_listener := [mk_mqtt3_listener [3] 1 true].
Definition blank_world (input : list Z) : world :=
  mk_world _ ∅ ∅ 0 (mk_subhier "" [] None [] [] 0 0) [] [] [] 0 (mk_config 0 false 20 10 false false) 0 0 20 100 1000 ∅ [] false [] [] [] {[ 0%nat := 0 ]} 1 60 [] (input, []).
Lemma blank_blank input : blank (blank_world input).
Proof. done. Qed.

Definition connect_bytes : list Z := [16; 13; 0; 4; 77; 81; 84; 84; 4; 2; 0; 60; 0; 1; 97].
Definition subscribe_bytes : list Z := [130; 6; 0; 1; 0; 1; 116; 0].
Definition publish_bytes : list Z := [48; 5; 0; 1; 116; 104; 105].
Definition after {A} (m : ST world A) (w : world) : world := match m w with Some (_, w') => w' | None => w end.
Definition session_turn : turn → ST world () := run_turn 5 6 demo_listeners 1 2.
Definition open_world : world := after mqtt3_db_open (blank_world (connect_bytes ++ subscribe_bytes ++ publish_bytes)).
Definition accepted_world : world := after (session_turn (Accept 3)) open_world.
Definition connected_world : world := after (session_turn (SocketEvent 0 EPOLLIN)) accepted_world.
Definition subscribed_world : world := after (session_turn (SocketEvent 0 EPOLLIN)) connected_world.
Definition published_world : world := after (session_turn (SocketEvent 0 EPOLLIN)) subscribed_world.
Definition the_client (w : world) : mosquitto := default (context_new 0 0 0 None) (w_ctxs w !! 1%positive).
Definition written_world : world := after (session_turn (Write 1)) (after (session_turn (Register 1)) published_world).
Definition closed_world : world := after (session_turn (SocketEvent 0 EPOLLHUP)) written_world.
Definition cleaned_world : world := after (session_turn Maintain) closed_world.

(** The client is let in with its certificate, gets an identifier, subscribes, publishes,
    and gets its own message; when its connection breaks, the pass after that frees it. *)
Example ex_accepted : c_cert_hashes (the_client accepted_world) = ["0102030405060708090a0b0c0d0e0f1011121314"].
Proof. vm_compute. reflexivity. Qed.
Example ex_connected : (c_id (the_client connected_world), w_clientid_index_hash connected_world) =
  (Some "0102030405060708090a0b0c0d0e0f1011121314:{guid}", [("0102030405060708090a0b0c0d0e0f1011121314:{guid}", 0)]).
Proof. vm_compute. reflexivity. Qed.
Example ex_sent : (c_subscription_count (the_client subscribed_world), length (c_msgs (the_client published_world)), sent_to (w_env written_world) (Sock 7)) =
  (1, 1%nat, [32; 2; 0; 0] ++ [144; 3; 0; 1; 0] ++ publish_bytes).
Proof. vm_compute. reflexivity. Qed.
Example ex_closed : (c_sock (the_client closed_world), mjoin (w_contexts closed_world !! 0%nat), mjoin (w_contexts cleaned_world !! 0%nat), w_clientid_index_hash cleaned_world) = (-1, Some 1%positive, None, []).
Proof. vm_compute. reflexivity. Qed.

(** ** The theorems on these states *)

Definition session_reaches : world → Prop := reachable 5 6 demo_listeners 1 2 open_world.
Lemma session_step w t : session_reaches w → turn_guard t w → is_Some (session_turn t w) → session_reaches (after (session_turn t) w).
Proof.
  intros Hr Hg [[[] w'] Hw]. unfold after. rewrite Hw. by eapply reachable_turn.
Qed.
Lemma event_guard_at p c i events w : w_contexts w !! i = Some (Some p) → w_ctxs w !! p = Some c → c_packet_count c + 1 < 2 ^ 64 → turn_guard (SocketEvent i events) w.
Proof. intros Hi Hc Hroom. split; [by eapply lookup_lt_Some|]. intros q d Hq Hd. by simplify_eq. Qed.
Ltac computed := by (vm_compute; first [reflexivity | eexists; reflexivity]).
Lemma accepted_reached : session_reaches accepted_world.
Proof. apply session_step; [apply reachable_start|done|computed]. Qed.
Lemma connected_reached : session_reaches connected_world.
Proof. apply session_step; [apply accepted_reached|eapply (event_guard_at 1 (the_client accepted_world)); computed|computed]. Qed.
Lemma subscribed_reached : session_reaches subscribed_world.
Proof. apply session_step; [apply connected_reached|eapply (event_guard_at 1 (the_client connected_world)); computed|computed]. Qed.
Lemma published_reached : session_reaches published_world.
Proof. apply session_step; [apply subscribed_reached|eapply (event_guard_at 1 (the_client subscribed_world)); computed|computed]. Qed.
Definition hung_up_world : world := after (session_turn (SocketEvent 0 EPOLLHUP)) published_world.
Lemma hung_up_reached : session_reaches hung_up_world.
Proof. apply session_step; [apply published_reached|eapply (event_guard_at 1 (the_client published_world)); computed|computed]. Qed.
Lemma session_running w : session_reaches w → running w.
Proof.
  apply reachable_running. pose proof (db_open_running (blank_world (connect_bytes ++ subscribe_bytes ++ publish_bytes)) (blank_blank _)) as Hopen. unfold wp in Hopen.
  unfold open_world, after. destruct (mqtt3_db_open _) as [[rc w0]|]; [apply Hopen|done].
Qed.

Lemma broker_keeps_running_witness :
  running subscribed_world ∧ ∃ w2, session_turn (SocketEvent 0 EPOLLIN) subscribed_world = Some (tt, w2) ∧ running w2.
Proof.
  destruct (broker_keeps_running 5 6 demo_listeners 1 2 (blank_world (connect_bytes ++ subscribe_bytes ++ publish_bytes)) (blank_blank _)) as (w0 & Hopen & Hall).
  assert (w0 = open_world) as -> by (unfold open_world, after; by rewrite Hopen).
  apply Hall; [apply subscribed_reached|eapply (event_guard_at 1 (the_client subscribed_world)); computed].
Defined.
Lemma maintenance_cleans_witness : wp (maintenance_loop 1 2) (λ _ w', sound None None w' ∧ w_contexts w' !! 0%nat = Some None ∧ w_ctxs w' !! 1%positive = None) hung_up_world.
Proof.
  destruct (session_running _ hung_up_reached) as (Hs & Hcl & Hu). eapply wp_mono; [by apply maintenance_cleans|]. intros ? w' (Hs' & _ & _ & Hall). split; [done|].
  assert (w_contexts hung_up_world !! 0%nat = Some (Some 1%positive) ∧ w_ctxs hung_up_world !! 1%positive = Some (the_client hung_up_world)) as [Hi Hc] by (split; computed).
  specialize (Hall _ _ _ Hi Hc). assert (is_context_invalid (the_client hung_up_world) = true) as Hinv by computed. by rewrite Hinv in Hall.
Defined.
Lemma connection_accepted_witness : wp (mqtt3_socket_accept 5 6 demo_listeners 3) (accepted demo_listeners 3 open_world) open_world.
Proof. apply connection_accepted. apply session_running, reachable_start. Defined.
Lemma client_certificate_checked_witness : wp (mosquitto_process_client_certificate 7 8 1 (Some demo_cert)) (λ ok w', ∃ c',
    w_ctxs w' = <[1%positive := c']> (w_ctxs accepted_world) ∧ registry w' = registry accepted_world ∧ tls_stays (the_client accepted_world) c' ∧
    (NoDup (c_cert_hashes (the_client accepted_world)) → NoDup (c_cert_hashes c')) ∧ thumbprint_in (Some demo_cert) c' (w_env accepted_world) ok ∧ (Some demo_cert = None → ok = true ∧ w' = accepted_world)) accepted_world.
Proof.
  apply client_certificate_checked; [computed|]. intros x fprint [= <-] [= <-]. done.
Defined.
Lemma sound_receiving p c k w : sound None None w → w_ctxs w !! p = Some c →
  sound (Some p) None (w <| w_ctxs ::= <[p := c <| c_in_packet := k |>]> |>).
Proof.
  intros Hs Hc. eapply (sound_reached None None (Some p) None p c (c <| c_in_packet := k |>)); [done|done| |done| |].
  - split_and!; [by eapply benign_upd|done|done].
  - destruct (sound_context _ _ _ _ _ Hs Hc) as ([C1 C2 C3 C4 C5] & _ & Hcl). split_and!; [done|done|exact Hcl].
  - intros q d Hne (Hd & Hin & Hcl). split_and!; [done|by intros _; apply Hin|exact Hcl].
Qed.
(** A malformed SUBSCRIBE: the filter is longer than the packet. *)
Definition bad_packet : packet := packet_zero <| p_command := 130 |> <| p_have_remaining := 1 |> <| p_payload := Some [0; 9; 0; 200; 116] |> <| p_remaining_length := 5 |>.
Definition bad_world : world := subscribed_world <| w_ctxs ::= <[1%positive := the_client subscribed_world <| c_in_packet := bad_packet |>]> |>.
Lemma packet_never_undefined_witness : ∃ rc w', mqtt3_packet_handle 1 bad_world = Some (rc, w') ∧ sound (Some 1%positive) None w'.
Proof.
  apply (packet_never_undefined 1 bad_world (the_client subscribed_world <| c_in_packet := bad_packet |>)).
  - apply sound_receiving; [apply session_running, subscribed_reached|computed].
  - exists 0%nat. computed.
  - apply lookup_insert_eq.
  - split_and!; [|by repeat constructor|computed|intros _; rewrite decide_False by (vm_compute; done); eexists; computed|by intros Hx; vm_compute in Hx|computed].
    exists [0; 9; 0; 200; 116], []. split_and!; [by left|done|done|done].
Defined.
