(* ===== verification/Examples.v ===== *)
(** * Concrete states

    An environment that meets the laws the theorems assume (a transport that
    accepts everything and records it, a broker library that allows
    everything), and small states of the broker to evaluate the model on. *)

From S2P Require Import Prelude Topic State Packet PacketProofs Writer Database DatabaseProofs StoreProofs.
From S2P Require Import DeliveryProofs Subs SubsProofs SubscribeProofs UnsubscribeProofs.
From S2P Require Import SubsClaims PublishProofs Queue Contexts ContextProofs Handlers HandlerProofs.
From S2P Require Import SubscribeHandlerProofs.
From stdpp Require Import options.

(** ** The environment *)

(** What was sent where, in order. *)
Definition sent_log : Type := list (chan * list Z).
Definition sent_on (e : sent_log) (ch : chan) : list Z :=
  concat (map (λ x, if decide (x.1 = ch) then x.2 else []) e).

#[export] Instance demo_env : Env := {|
  env := sent_log;
  env_time := λ e, (1000, e);
  env_write := λ s buf e, ((Z.of_nat (length buf), 0), e ++ [(Sock s, buf)]);
  env_ssl_write := λ s buf e, ((Z.of_nat (length buf), ssl_other), e ++ [(Sock s, buf)]);
  env_ws_write := λ p buf e, (Z.of_nat (length buf), e ++ [(Ws p, buf)]);
  env_ws_callback := λ _ e, e;
  env_close := λ _ e, (0, e);
  env_epoll_del := λ _ e, e;
  env_epoll_set := λ _ _ _ e, e;
  env_read := λ _ _ e, ((-1, EAGAIN, []), e);
  env_ssl_read := λ _ _ e, ((-1, ssl_want_read, []), e);
  env_ssl_pending := λ _ _, 0;
  env_ssl_shutdown := λ _ e, e;
  env_socket_connect := λ _ _ e, ((0, 9, false, false), e);
  env_errno_enotconn := λ _, false;
  env_peer_address := λ _ e, (Some "10.0.0.1", e);
  env_gethostname := λ _, Some "host";
  env_generate_guid := λ e, ("{guid}", e);
  dxl_is_multi_tenant_mode_enabled := λ _, false;
  dxl_is_tenant_subscription_allowed := λ _ e, (true, e);
  dxl_on_topic_added_to_broker := λ _ e, e;
  dxl_on_topic_removed_from_broker := λ _ e, e;
  dxl_on_pre_insert_message_packet_queue_exceeded := λ _ _ e, (true, e);
  dxl_on_insert_message := λ _ _ e, ((true, false, None), e);
  dxl_on_store_message := λ _ _ e, (None, e);
  dxl_on_publish_message := λ _ _ _ e, (true, e);
  dxl_on_finalize_message := λ _ e, e;
  dxl_get_broker_tenant_guid := λ _, "tenant";
  dxl_on_client_connected := λ _ e, e;
  dxl_on_client_disconnected := λ _ e, e;
  dxl_on_bridge_connected := λ _ e, e;
  dxl_on_bridge_disconnected := λ _ e, e;
  dxl_is_bridge_connect_allowed := λ _ e, (true, e);
  dxl_update_sent_byte_count := λ _ _ e, (false, e);
  dxl_check_connection_get_status := λ _ e, (0, e);
  dxl_check_connection_push := λ _ _ _ e, e;
  dxl_check_connection_pop := λ _ e, (None, e) |}.

Lemma sent_on_snoc e ch ch' bs : sent_on (e ++ [(ch', bs)]) ch = sent_on e ch ++ if decide (ch = ch') then bs else [].
Proof.
  unfold sent_on. rewrite map_app, concat_app. cbn. rewrite app_nil_r. f_equal. repeat case_decide; congruence.
Qed.

#[export] Instance demo_laws : EnvLaws.
Proof.
  refine {| env_sent := sent_on |}; cbn; try done.
  - intros s buf e n err e' [= <- _ <-]. split; [done|]. intros ch. by rewrite sent_on_snoc, Nat2Z.id, firstn_all.
  - intros s buf e n err e' [= <- _ <-]. split; [done|]. intros ch. by rewrite sent_on_snoc, Nat2Z.id, firstn_all.
  - intros p buf e n e' [= <- <-] ch. rewrite sent_on_snoc. by destruct (Z.leb_spec 0 (Z.of_nat (length buf))); [|lia].
  - by intros e t e' [= _ <-].
Defined.

(** ** Clients *)

(** A connected client on socket [sock]. *)
Definition client (sock : Z) (id : string) : mosquitto :=
  context_new sock 1000 1000 (Some "10.0.0.1") <| c_id := Some id |> <| c_canonical_id := Some id |>
    <| c_state := mosq_cs_connected |> <| c_protocol := mosq_p_mqtt311 |>.
(** The client while it handles a packet with the given command and body. *)
Definition receiving (command : Z) (body : list Z) (c : mosquitto) : mosquitto :=
  c <| c_in_packet := packet_zero <| p_command := command |> <| p_payload := Some body |>
    <| p_remaining_length := Z.of_nat (length body) |> |>.

(** A broker with the clients [a] and [b] and nothing else. *)
Definition broker (a b : mosquitto) : world :=
  mk_world _ {[ 1%positive := a; 2%positive := b ]} ∅ 0 empty_tree [Some 1%positive; Some 2%positive]
    [("b", 1); ("a", 0)] [] 0 (mk_config 0 false 20 10 false false) 0 0 20 100 1000
    {[ "a" := 1; "b" := 1 ]} [] false [] [] [] ∅ 1 60 ["thumbprint"] [].

(** Two clients without messages. *)
Lemma broker_ok_broker a b : c_msgs a = [] → c_msg_count a = 0 → c_msg_count12 a = 0 →
  c_msgs b = [] → c_msg_count b = 0 → c_msg_count12 b = 0 → broker_ok (broker a b).
Proof.
  intros Ha1 Ha2 Ha3 Hb1 Hb2 Hb3.
  assert (∀ P : mosquitto → Prop, P a → P b → map_Forall (λ _, P) (w_ctxs (broker a b))) as Hboth.
  { intros P HPa HPb. cbn. apply map_Forall_insert_2; [done|]. by apply map_Forall_insert_2. }
  split; [split|split| |].
  - apply Hboth; unfold queue_ok; by rewrite ?Ha1, ?Ha2, ?Ha3, ?Hb1, ?Hb2, ?Hb3.
  - intros s m Hm. cbn in Hm. by rewrite lookup_empty in Hm.
  - apply Hboth; rewrite ?Ha1, ?Hb1; constructor.
  - constructor.
  - intros s. cbn. rewrite lookup_empty. split; [intros Hs; by apply not_elem_of_nil in Hs|by intros []].
  - done.
  - apply wf_empty_tree.
  - intros path. cbn [w_subs broker]. rewrite leaves_empty_tree. constructor.
  - intros path. cbn [w_subs broker]. rewrite leaves_empty_tree. constructor.
  - apply leaves_empty_tree.
Qed.

Definition alice : mosquitto := client 5 "a".
Definition bob : mosquitto := client 6 "b".

(** The state a run ends in. *)
Definition after {A} (m : ST world A) (w : world) : world := match m w with Some (_, w') => w' | None => w end.

Lemma after_wp {A} (m : ST world A) (Q : A → world → Prop) w : wp m Q w → ∃ a, m w = Some (a, after m w) ∧ Q a (after m w).
Proof. unfold wp, after. destruct (m w) as [[a w']|]; [|done]. intros HQ. by exists a. Qed.

(** Alice subscribes to ["x/+"]. *)
Definition start : world := broker alice bob.
Definition subscribed_world : world := after (mqtt3_sub_add 1 "x/+" 1) start.
(** Bob's broker publishes on ["x/y"] for her, with QoS 0 and with QoS 1. *)
Definition queued_world : world := after (mqtt3_db_messages_easy_queue (Some 2%positive) "x/y" 0 2 (Some [7; 8]) false) subscribed_world.
Definition queued1_world : world := after (mqtt3_db_messages_easy_queue (Some 2%positive) "x/y" 1 2 (Some [7; 8]) false) subscribed_world.

Lemma start_ok : broker_ok start.
Proof. by apply broker_ok_broker. Qed.
Lemma subscribed_ok : broker_ok subscribed_world.
Proof.
  destruct (after_wp (mqtt3_sub_add 1 "x/+" 1) _ start (sub_add_ok 1 "x/+" 1 start alice "a" start_ok
    ltac:(by vm_compute) ltac:(by vm_compute) ltac:(by vm_compute) ltac:(lia))) as (rc & _ & Hok & _). exact Hok.
Qed.
Lemma easy_queued_ok qos : 0 <= qos <= 2 →
  broker_ok (after (mqtt3_db_messages_easy_queue (Some 2%positive) "x/y" qos 2 (Some [7; 8]) false) subscribed_world).
Proof.
  intros Hq. destruct (after_wp _ _ _ (easy_queue_spec 2 "x/y" qos 2 (Some [7; 8]) [7; 8] subscribed_world bob subscribed_ok
    ltac:(by vm_compute) Hq ltac:(by split; [|left]))) as (rc & _ & _ & Hok & _). exact Hok.
Qed.
Lemma queued_ok : broker_ok queued_world.
Proof. apply easy_queued_ok. lia. Qed.
Lemma queued1_ok : broker_ok queued1_world.
Proof. apply easy_queued_ok. lia. Qed.
