(* ===== verification/WorkQueueExamples.v ===== *)
(** * The work queue on a small broker

    A client with a revoked certificate and a bridge: the theorems on tasks applied
    to them, and what two new configurations in a row leave behind. *)

From S2P Require Import Prelude Topic State Packet Database DatabaseProofs Subs SubsProofs SubscribeProofs UnsubscribeProofs SubsClaims PublishProofs Queue Contexts ContextProofs Bridge Loop Examples.
From S2P Require Import Fabric Metrics Services Configuration WorkQueue WorkQueueProofs.
From stdpp Require Import options.

Definition ex_bridges : CoreBridgeConfiguration :=
  mk_CoreBridgeConfiguration [mk_CoreBroker "{P}" "parent.example" 8883; mk_CoreBroker "{P}" "10.0.0.2" 8883] "{L}" 8883 "here" "10.0.0.9" "Site" 0.
Definition carol : mosquitto := client 5 "carol" <| c_cert_hashes := ["root"; "bad"] |>.
Definition old_bridge : mosquitto := client 6 "host.{L}:{O}" <| c_numericId := 1 |> <| c_is_bridge := true |>
  <| c_bridge := Some (mqtt3_config_add_bridge "{L}:{O}" [("old.example", 8883)]) |> <| c_cert_hashes := ["root"] |>.
Definition tasks_world : world := broker carol old_bridge.

Lemma tasks_world_ok : tasks_ok tasks_world.
Proof.
  split; [by apply broker_ok_broker| | |constructor].
  - intros [|[|i]] p; cbn; [intros [= <-]; by exists carol|intros [= <-]; by exists old_bridge|done].
  - intros p c m Hc Hm. assert (c = carol ∨ c = old_bridge) as [->| ->]; [|done..].
    cbn in Hc. apply lookup_insert_Some in Hc as [[_ <-]|[_ Hc]]; [by left|]. apply lookup_singleton_Some in Hc as [_ <-]. by right.
Qed.

Lemma revoked_certs_disconnect_witness :
  wp (run_task (RevokeCertsRunner (Some ["bad"]))) (λ _ w', tasks_ok w' ∧ registry w' = registry tasks_world ∧
    ∀ i p c, w_contexts tasks_world !! i = Some (Some p) → w_ctxs tasks_world !! p = Some c →
      ∃ c', w_ctxs w' !! p = Some c' ∧ if revoked ["bad"] c then gone c' else ∃ extra, queued_after c extra c') tasks_world.
Proof. exact (revoked_certs_disconnect ["bad"] tasks_world tasks_world_ok). Defined.

Lemma bridges_replaced_witness :
  wp (run_task (BridgeConfigurationRunner 7 ex_bridges)) (λ _ w', tasks_ok w' ∧ clients_kept tasks_world w' ∧
    if isEnabled ex_bridges
    then ∃ i c b, bridge_at w' i c ∧ asked_for ex_bridges b ∧ bridge_context b ("host" +:+ "." +:+ getBridgeId ex_bridges) c ∧ ∀ j d, bridge_at w' j d → j = i
    else ∀ j d, ¬ bridge_at w' j d) tasks_world.
Proof. exact (bridges_replaced 7 ex_bridges "host" tasks_world tasks_world_ok (λ _, eq_refl)). Defined.

Definition no_bridges : CoreBridgeConfiguration := CoreBridgeConfiguration_new "{L}".
(** Bridges configured and removed in one run of the queue: the context that was made
    for the bridge is freed but stays in the set of new clients, and the write loop
    of the event loop then uses it. *)
Example ex_dangling : match runQueue [BridgeConfigurationRunner 0 ex_bridges; BridgeConfigurationRunner 0 no_bridges] tasks_world with
  | Some (_, w) => w_new_clients_hash w = [2%positive] ∧ w_ctxs w !! 2%positive = None ∧ w_new_client w = true ∧ write_message_loop 10 w = None
  | None => False
  end.
Proof. vm_compute. auto. Qed.
(** The same without the second task. *)
Example ex_bridging : match runQueue [BridgeConfigurationRunner 0 ex_bridges] tasks_world with
  | Some (_, w) => w_contexts w = [Some 1%positive; Some 2%positive] ∧ w_new_clients_hash w = [2%positive] ∧ is_Some (write_message_loop 10 w)
  | None => False
  end.
Proof. vm_compute. eauto. Qed.
