(* ===== verification/Witnesses.v ===== *)
(** * The theorems at work

    Every theorem that has hypotheses, applied to a concrete state of the
    broker in which they hold. *)

From S2P Require Import Prelude Topic State Packet PacketProofs Writer Database DatabaseProofs StoreProofs.
From S2P Require Import DeliveryProofs MessageClaims Subs SubsProofs SubscribeProofs UnsubscribeProofs.
From S2P Require Import SubsClaims PublishProofs FanoutProofs Queue Contexts ContextProofs.
From S2P Require Import Handlers HandlerProofs SubscribeHandlerProofs Connect ConnectProofs PacketRead.
From S2P Require Import Bridge Loop BridgeProofs Examples.
From stdpp Require Import options.

(** ** Output *)

(** A packet of two bytes waits to be written. *)
Definition waiting : mosquitto :=
  alice <| c_out_packet := [packet_zero <| p_payload := Some [9; 9] |> <| p_packet_length := 2 |> <| p_to_process := 2 |>] |>
    <| c_packet_count := 1 |>.

Lemma alice_out_wf : out_wf alice.
Proof. split; [constructor|done]. Qed.
Lemma waiting_out_wf : out_wf waiting.
Proof. split; [|done]. constructor; [|constructor]. exists [9; 9]. by vm_compute. Qed.

Lemma packet_write_stream_witness :
  wp (_mosquitto_packet_write 1) (λ _ w', ∃ c', wrote 1 (broker waiting bob) waiting w' c' ∧ out_wf c') (broker waiting bob).
Proof. apply packet_write_stream; [by vm_compute|apply waiting_out_wf]. Defined.

Lemma send_publish_appends_frame_witness :
  wp (_mosquitto_send_publish 1 0 "x/y" 2 (Some [7; 8]) 0 false false)
    (λ _ w', ∃ c', sent_bytes 1 (frame (publish_command 0 false false) (publish_body 0 (wire_topic alice "x/y") [7; 8] 0))
      start alice w' c' ∧ out_wf c') start.
Proof.
  apply (send_publish_appends_frame 1 0 "x/y" 2 (Some [7; 8]) [7; 8] 0 false false start alice).
  - by vm_compute.
  - apply alice_out_wf.
  - by vm_compute.
  - by vm_compute.
  - by vm_compute.
  - by split; [|left].
  - by vm_compute.
Defined.

(** ** The message database *)

Lemma mid_generate_distinct_witness : 1 <= Nat.iter 600 mid_next 65000 <= 65535 ∧
  (Nat.iter 600 mid_next 65000 = Nat.iter 64 mid_next 65000 → 600%nat = 64%nat).
Proof.
  destruct (mid_generate_distinct 65000 ltac:(lia)) as [Hr Hd]. split; [apply Hr|]. apply Hd; lia.
Defined.

Lemma add_new_context_slot_witness :
  wp (mqtt3_db_add_new_context 2) (λ rc w', rc = 0 ∧ mjoin (w_contexts w' !! 0%nat) = Some 2%positive)
    (start <| w_contexts := [None; Some 1%positive] |>).
Proof.
  eapply wp_mono; [apply (add_new_context_slot 2 _ bob); by vm_compute|].
  intros rc w' (-> & i & c' & Hfree & Hfull & Hl & _). split; [done|]. rewrite Hl. destruct i as [|i]; [done|].
  destruct (Hfull 0%nat) as [? Hx]; [lia|done].
Defined.

Lemma message_insert_keeps_invariant_witness :
  wp (mqtt3_db_message_insert 2 0 mosq_md_out 0 false 1) (λ _ w', db_ok w') queued_world.
Proof.
  eapply wp_mono; [apply (message_insert_keeps_invariant 2 0 mosq_md_out 0 false 1 queued_world bob (bo_db _ queued_ok));
    [by vm_compute|by eexists|lia]|]. by intros rc w' [? _].
Defined.

Lemma message_insert_bounded_witness :
  wp (mqtt3_db_message_insert 2 5 mosq_md_out 1 false 1)
    (λ _ w', ∃ c', w_ctxs w' !! 2%positive = Some c' ∧ c_msg_count12 c' <= queue_limit w' c') queued_world.
Proof.
  apply (message_insert_bounded 2 5 mosq_md_out 1 false 1 queued_world bob (bo_db _ queued_ok));
    first [by vm_compute | by eexists | lia].
Defined.

(** Alice in the state with a queued message. *)
Definition alice_of (w : world) : mosquitto := default alice (w_ctxs w !! 1%positive).

Lemma messages_delete_releases_witness :
  wp (mqtt3_db_messages_delete 1) (λ rc w', rc = MOSQ_ERR_SUCCESS ∧ db_ok w' ∧
    ∃ s, w_stores w' !! 1%positive = Some s ∧ s_ref_count s = 0) queued_world.
Proof.
  eapply wp_mono; [apply (messages_delete_releases 1 queued_world (alice_of queued_world) (bo_db _ queued_ok)); by vm_compute|].
  intros rc w' (-> & Hok & _ & Hs). split_and!; [done|done|].
  destruct (Hs 1%positive (default (mk_msg_store 0 0 "" 0 (mk_message 0 None None 0 None 0 0 false)) (w_stores queued_world !! 1%positive)))
    as (s' & Hs' & _ & Hr); [by vm_compute|]. exists s'. split; [done|]. rewrite Hr. by vm_compute.
Defined.

Lemma message_delete_exact_witness :
  wp (mqtt3_db_message_delete 1 1 mosq_md_out) (λ rc w', rc = MOSQ_ERR_SUCCESS ∧
    ∃ c', queue_step 1 queued1_world (alice_of queued1_world) w' c' ∧ map sig (c_msgs c') = []) queued1_world.
Proof.
  eapply wp_mono; [apply (message_delete_exact 1 1 mosq_md_out queued1_world (alice_of queued1_world) (bo_db _ queued1_ok));
    [by vm_compute|apply (bool_decide_unpack _); by vm_compute]|].
  intros rc w' (-> & c' & Hstep & Hsig). split; [done|]. exists c'. split; [done|]. rewrite Hsig. by vm_compute.
Defined.

Lemma store_clean_frees_unreferenced_witness :
  wp mqtt3_db_store_clean (λ _ w', db_ok w' ∧ is_Some (w_stores w' !! 1%positive)) queued_world.
Proof.
  eapply wp_mono; [apply (store_clean_frees_unreferenced queued_world (bo_db _ queued_ok))|].
  intros r w' (Hok & _ & _ & Hs). split; [done|].
  rewrite (Hs 1%positive (default (mk_msg_store 0 0 "" 0 (mk_message 0 None None 0 None 0 0 false)) (w_stores queued_world !! 1%positive)))
    by (by vm_compute).
  rewrite decide_True; [by eexists|by vm_compute].
Defined.

(** ** Delivery *)

(** The message queued for Alice, as it is stored and as it goes out. *)
Definition stored_message (w : world) : msg_store :=
  default (mk_msg_store 0 0 "" 0 (mk_message 0 None None 0 None 0 0 false)) (w_stores w !! 1%positive).
Definition wire_frame : list Z := frame (publish_command 0 false false) (publish_body 0 "x/y" [7; 8] 0).

Lemma alice_queued_out_wf : out_wf (alice_of queued_world).
Proof.
  assert (queued_packets (alice_of queued_world) = [] ∧ c_packet_count (alice_of queued_world) = 0) as [H1 H2] by (by vm_compute).
  unfold out_wf. rewrite H1, H2. by split.
Qed.

Lemma alice_queued : c_msgs (alice_of queued_world) =
  [mk_client_msg 1 0 0 false 1000 mosq_md_out mosq_ms_publish_qos0 false false].
Proof. by vm_compute. Qed.

Lemma queued_sendable :
  sendable (alice_of queued_world) (mk_client_msg 1 0 0 false 1000 mosq_md_out mosq_ms_publish_qos0 false false)
    (stored_message queued_world) "x/y" [7; 8].
Proof.
  assert (wire_topic (alice_of queued_world) "x/y" = "x/y") as Ht by (by vm_compute).
  assert (s_msg (stored_message queued_world) = mk_message 0 (Some "x/y") (Some [7; 8]) 2 None 0 0 false) as Hm by (by vm_compute).
  unfold sendable, entry_payload. rewrite Ht, Hm. split_and!; [done|done|by split; [|left]|done].
Qed.

Lemma message_write_serves_witness :
  wp (mqtt3_db_message_write 1) (λ _ w', ∃ c', served 1 queued_world (alice_of queued_world) w' c') queued_world.
Proof.
  apply message_write_serves; [apply queued_ok|by vm_compute|apply alice_queued_out_wf|by vm_compute|].
  rewrite alice_queued. constructor; [|constructor]. split; [done|]. intros _. exists (stored_message queued_world), "x/y", [7; 8].
  split; [by vm_compute|apply queued_sendable].
Defined.

Lemma message_write_qos0_in_order_witness :
  wp (mqtt3_db_message_write 1) (qos0_post 1 queued_world (alice_of queued_world) [wire_frame]) queued_world.
Proof.
  apply message_write_qos0_in_order; [apply queued_ok|by vm_compute|apply alice_queued_out_wf|by vm_compute|by vm_compute|by vm_compute|].
  rewrite alice_queued. constructor; [|constructor]. split; [done|]. exists (stored_message queued_world), "x/y", [7; 8].
  split_and!; [by vm_compute|apply queued_sendable|by vm_compute|by vm_compute].
Defined.

(** ** Subscriptions *)

Lemma sub_add_subscribes_witness :
  wp (mqtt3_sub_add 2 "x/+" 2) (λ rc w', rc = MOSQ_ERR_SUCCESS ∧ tree_ok w' ∧
    subscribers w' "x/+" = [mk_subleaf 1 1; mk_subleaf 2 2]) subscribed_world.
Proof.
  eapply wp_mono; [apply (sub_add_subscribes 2 "x/+" 2 subscribed_world bob "b" (bo_tree _ subscribed_ok)); by vm_compute|].
  intros rc w' (Hok & [->|[_ Hq]] & Hs); [|exfalso; apply Hq; by left]. split_and!; [done|done|].
  rewrite Hs. by vm_compute.
Defined.

Lemma sub_add_announces_witness :
  wp (mqtt3_sub_add 2 "z" 0) (λ rc w', rc = MOSQ_ERR_SUCCESS ∧
    w_subscription_count w' = w_subscription_count subscribed_world + 1) subscribed_world.
Proof.
  eapply wp_mono; [apply (sub_add_announces 2 "z" 0 subscribed_world bob "b" (bo_tree _ subscribed_ok));
    [by vm_compute|by vm_compute|by vm_compute|by vm_compute|by vm_compute|by left]|].
  intros rc w' (-> & _ & ->). split; [done|]. by vm_compute.
Defined.

Lemma sub_remove_unsubscribes_witness :
  wp (mqtt3_sub_remove 1 "x/+") (λ rc w', rc = MOSQ_ERR_SUCCESS ∧ tree_ok w' ∧ subscribers w' "x/+" = []) subscribed_world.
Proof.
  eapply wp_mono; [apply (sub_remove_unsubscribes 1 "x/+" subscribed_world (alice_of subscribed_world) (bo_tree _ subscribed_ok)); by vm_compute|].
  intros rc w' (-> & Hok & Hs & _). split_and!; [done|done|]. rewrite Hs. by vm_compute.
Defined.

Lemma clean_session_removes_marked_witness :
  wp mqtt3_subs_clean_session (λ rc w', rc = MOSQ_ERR_SUCCESS ∧ tree_ok w' ∧
    subscribers w' "x/+" = [mk_subleaf 1 1]) subscribed_world.
Proof.
  eapply wp_mono; [apply (clean_session_removes_marked subscribed_world (bo_tree _ subscribed_ok))|].
  intros rc w' (-> & Hok & _ & Hs). split_and!; [done|done|]. rewrite Hs. by vm_compute.
Defined.

Lemma subscribe_unsubscribe_roundtrip_witness :
  wp (rc ← mqtt3_sub_add 2 "x/#" 1; rc' ← mqtt3_sub_remove 2 "x/#"; mret (rc, rc'))
    (λ r w', r = (MOSQ_ERR_SUCCESS, MOSQ_ERR_SUCCESS) ∧ subscribers w' "x/+" = [mk_subleaf 1 1]) subscribed_world.
Proof.
  eapply wp_mono; [apply (subscribe_unsubscribe_roundtrip 2 "x/#" 1 subscribed_world bob "b" (bo_tree _ subscribed_ok));
    [by vm_compute|by vm_compute|by vm_compute|by left|by vm_compute]|].
  intros r w' (-> & _ & Hs & _). split; [done|]. rewrite Hs. by vm_compute.
Defined.

(** ** Publishing *)

Lemma x_plus_matches : topic_match "x/+" "x/y".
Proof.
  split; [by vm_compute|]. apply (level_match_lit "x" ["+"] ["y"]), level_match_plus, level_match_nil.
Qed.

Lemma publish_reaches_matching_witness : ∃ paths,
  mqtt3_db_messages_queue (Some "b") "x/y" 0 false 1 queued_world =
    (deliver (Some "b") 0 false 1 (leaves_of (w_subs queued_world) paths);; finalize 1) queued_world ∧
  filter_path "x/+" ∈ paths.
Proof.
  destruct (publish_reaches_matching (Some "b") "x/y" 0 1 queued_world (bo_tree _ queued_ok) ltac:(by vm_compute)) as (paths & Heq & _ & Hm).
  exists paths. split; [exact Heq|]. apply Hm; [by vm_compute|apply x_plus_matches].
Defined.

Lemma publish_grows_queues_witness : ∃ paths, filter_path "x/+" ∈ paths ∧
  wp (mqtt3_db_messages_queue (Some "b") "x/y" 0 false 1) (λ rc w', rc = 0 ∧ grown 1 (due queued_world paths) queued_world w') queued_world.
Proof.
  pose proof queued_ok as [Hdb Htree Hg _].
  destruct (publish_grows_queues (Some "b") "x/y" 0 1 queued_world Hdb Htree Hg ltac:(by vm_compute) ltac:(by eexists) ltac:(lia))
    as (paths & _ & Hm & Hwp).
  exists paths. split; [|exact Hwp]. apply Hm; [by vm_compute|apply x_plus_matches].
Defined.

Lemma publish_serves_subscribers_witness : ∃ paths, filter_path "x/+" ∈ paths ∧
  wp (mqtt3_db_messages_queue (Some "b") "x/y" 0 false 1) (λ _ w', served_all "b" 1 (due queued_world paths) queued_world w') queued_world.
Proof.
  pose proof queued_ok as [Hdb Htree Hg _].
  destruct (publish_serves_subscribers "b" "x/y" 1 queued_world ltac:(done) Hdb Htree Hg ltac:(by vm_compute) ltac:(by vm_compute)
    ltac:(by eexists)) as (paths & _ & Hm & Hwp).
  exists paths. split; [|exact Hwp]. apply Hm; [by vm_compute|apply x_plus_matches].
Defined.

(** ** Contexts *)

(** Alice with a will, before any message. *)
Definition testament : message := mk_message 0 (Some "x/y") (Some [7]) 1 None 0 0 false.
Definition mortal : mosquitto := alice <| c_will := Some testament |>.
Lemma mortal_ok : broker_ok (broker mortal bob).
Proof. by apply broker_ok_broker. Qed.
Lemma testament_ok m : c_will mortal = Some m → will_ok m.
Proof. intros [= <-]. split_and!; [by eexists|done|done|done|]. exists [7]. by split; [|left]. Qed.

Lemma context_disconnect_safe_witness :
  wp (mqtt3_context_disconnect 1) (λ _ w', broker_ok w' ∧ ∃ c', w_ctxs w' !! 1%positive = Some c' ∧ c_sock c' = INVALID_SOCKET)
    (broker mortal bob).
Proof.
  eapply wp_mono; [apply (context_disconnect_safe 1 (broker mortal bob) mortal mortal_ok); [by vm_compute|apply testament_ok]|].
  intros r w' (Hok & _ & c' & Hc & Hd). split; [done|]. exists c'. split; [done|].
  unfold disconnected in Hd. destruct Hd as (_ & _ & _ & _ & _ & _ & Hd). cbn in Hd. apply Hd.
Defined.

Lemma context_cleanup_safe_witness :
  wp (mqtt3_context_cleanup 1 true true) (λ _ w', broker_ok w' ∧ w_ctxs w' !! 1%positive = None) queued_world.
Proof.
  eapply wp_mono; [apply (context_cleanup_safe 1 queued_world (alice_of queued_world) queued_ok); by vm_compute|].
  by intros r w' (Hok & Hd & _).
Defined.

(** ** Packets *)

(** Bob receives a packet while Alice is subscribed. *)
Definition incoming (command : Z) (body : list Z) : world :=
  subscribed_world <| w_ctxs ::= <[2%positive := receiving command body bob]> |>.
Lemma incoming_bob command body : w_ctxs (incoming command body) !! 2%positive = Some (receiving command body bob).
Proof. apply lookup_insert_eq. Qed.
Lemma incoming_ok command body : broker_ok (incoming command body).
Proof.
  eapply (benign_ok subscribed_world); [|apply subscribed_ok]. apply (benign_upd _ 2 bob); [by vm_compute|done].
Qed.
Lemma unread_receiving command body c : Z.of_nat (length body) < 2 ^ 28 → unread (c_in_packet (receiving command body c)) body.
Proof. intros Hl. exists []. split_and!; [by left|done|done|exact Hl]. Qed.
Lemma bob_out_wf command body : out_wf (receiving command body bob).
Proof. split; [constructor|done]. Qed.

Lemma publish_qos12_dropped_witness :
  mqtt3_handle_publish 2 (incoming 0x32 [0; 1; 120; 0; 5; 7]) = Some (MOSQ_ERR_SUCCESS, incoming 0x32 [0; 1; 120; 0; 5; 7]).
Proof. apply (publish_qos12_dropped 2 _ (receiving 0x32 [0; 1; 120; 0; 5; 7] bob)); [apply incoming_bob|by left]. Defined.

(** A topic length beyond the end of the packet. *)
Lemma handle_publish_safe_witness : wp (mqtt3_handle_publish 2) (λ _ w', broker_ok w') (incoming 0x30 [255; 255; 1]).
Proof.
  eapply wp_mono; [apply (handle_publish_safe 2 _ (receiving 0x30 [255; 255; 1] bob) [255; 255; 1] (incoming_ok _ _));
    [apply incoming_bob|by apply unread_receiving]|].
  by intros r w' [? _].
Defined.

Lemma handle_publish_delivers_witness :
  wp (mqtt3_handle_publish 2) (λ rc w', rc = 0 ∧ broker_ok w' ∧
    published_as 2 (receiving 0x30 [0; 3; 120; 47; 121; 7; 8] bob) "x/y" [7; 8] (incoming 0x30 [0; 3; 120; 47; 121; 7; 8]) w')
    (incoming 0x30 [0; 3; 120; 47; 121; 7; 8]).
Proof.
  apply (handle_publish_delivers 2 _ (receiving 0x30 [0; 3; 120; 47; 121; 7; 8] bob) "x/y" [7; 8] (incoming_ok _ _));
    [apply incoming_bob|done|by apply unread_receiving|done|done|done|by vm_compute|done|by left].
Defined.

Lemma handle_unsubscribe_safe_witness : wp (mqtt3_handle_unsubscribe 2) (λ _ w', in_service 2 w') (incoming 0xA2 [0; 5; 0; 9; 120]).
Proof.
  apply (handle_unsubscribe_safe 2 _ (receiving 0xA2 [0; 5; 0; 9; 120] bob) [0; 5; 0; 9; 120] (incoming_ok _ _));
    [apply incoming_bob|by apply unread_receiving|apply bob_out_wf|done].
Defined.

Lemma handle_subscribe_safe_witness : wp (mqtt3_handle_subscribe 2) (λ _ w', in_service 2 w') (incoming 0x82 [0; 5; 0; 1; 35; 1]).
Proof.
  apply (handle_subscribe_safe 2 _ (receiving 0x82 [0; 5; 0; 1; 35; 1] bob) "b" [0; 5; 0; 1; 35; 1] (incoming_ok _ _));
    [apply incoming_bob|done|by apply unread_receiving|by repeat constructor|apply bob_out_wf|done].
Defined.

Lemma alice_talking : talking mortal.
Proof. split_and!; [split; [constructor|done]|done|apply testament_ok]. Qed.

Lemma second_connect_disconnects_witness :
  wp (mqtt3_handle_connect 1) (λ rc w', rc = MOSQ_ERR_PROTOCOL ∧ broker_ok w') (broker mortal bob).
Proof.
  eapply wp_mono; [apply (second_connect_disconnects 1 (broker mortal bob) mortal mortal_ok); [by vm_compute|done|apply alice_talking]|].
  by intros rc w' (-> & Hok & _).
Defined.

(** Two clients are connected and the limit is one. *)
Lemma connect_admission_sound_witness :
  wp (connect_admission 1 4) (λ r w', r = inl MOSQ_ERR_PROTOCOL ∧ broker_ok w') (broker mortal bob).
Proof.
  eapply wp_mono; [apply (connect_admission_sound 1 4 (broker mortal bob) mortal mortal_ok); [by vm_compute|done|apply alice_talking]|].
  intros [rc|[]] w'; [by intros (_ & -> & Hok & _)|]. intros ([Hn|Hn] & _); cbn in Hn; lia.
Defined.

(** ** Reading *)

(** Alice over a websocket: a PINGREQ after three other bytes. *)
Lemma framed_packet_read_back_witness :
  wp (read_packet 1 (from_ws [1; 2; 3; 0xC0; 0; 9] 3)) (λ r w', r = inr (from_ws [1; 2; 3; 0xC0; 0; 9] 5)) start.
Proof.
  eapply wp_mono; [apply (framed_packet_read_back 1 start alice (c_in_packet alice) 0xC0 [] [9] [1; 2; 3; 0xC0; 0; 9] 3);
    [by vm_compute|done|by split_and!; vm_compute|lia|done|by right; left|right; split; [by left|done]]|].
  by intros r w' [-> _].
Defined.

Lemma first_packet_must_be_connect_witness :
  wp (read_packet 1 (from_ws [0x30; 0] 0)) (λ r w', r = inl MOSQ_ERR_PROTOCOL) (broker (alice <| c_state := mosq_cs_new |>) bob).
Proof.
  eapply wp_mono; [apply (first_packet_must_be_connect 1 _ (alice <| c_state := mosq_cs_new |>) (c_in_packet alice) 0x30 [0] [0x30; 0] 0);
    [by vm_compute|done|done|done|by split_and!; vm_compute|done]|].
  by intros r w' [-> _].
Defined.

(** ** Bridges *)

(** Two addresses, the first primary; the second is in use. *)
Definition link : bridge :=
  mk_bridge 0 1 "link" [("10.0.0.2", 8883); ("10.0.0.3", 8883)] 1 0 false true [] false 0 bst_automatic 60 10 false true true (Some "l").

Lemma failover_visits_all_witness : (∃ k, (k < 2)%nat ∧ b_cur_address (Nat.iter k next_address link) = 0) ∧
  0 <= b_cur_address (failover 100 link) < 2.
Proof.
  destruct (failover_visits_all link 100 ltac:(cbn; lia)) as (Hk & Hr & Ha & _). split; [apply (Hk 0%nat); cbn; lia|].
  rewrite Ha in Hr. exact Hr.
Defined.
